(* ===== verification/_CoqProject ===== *)
-Q . S2P
Prelude.v
Nodes.v
ManglingUtils.v
Punycode.v
PunycodeSpecs.v
IdentifierMangling.v
Demangler.v
NodeShape.v
DemanglerSpecs.v
DemanglerSafety.v
Numbers.v
DemanglerTheorems.v
PunycodeRoundtrip.v
PunycodeTermination.v
PunycodeTheorems.v
IdentifierTokens.v
IdentifierEncoding.v
Remangler.v
IdentifierRoundtrip.v
IdentifierTheorems.v
SubstitutionGroups.v
MergingSpecs.v
Simulation.v
RemanglerSpecs.v
SymbolSimulation.v
SymbolWriting.v
OperatorReads.v
EntityReads.v
GenericReads.v
Mangleable.v
TypeWriting.v
EntityWriting.v
SymbolRoundtrip.v
NodePrinter.v
PrinterSpecs.v
PrinterSafety.v
PrinterTheorems.v
OldDemangler.v
UnspecializedTypes.v
RemanglerTermination.v
OldNodeShape.v
OldDemanglerSpecs.v
OldDemanglerSafety.v
OldDemanglerTheorems.v
DemanglingContext.v
RecursionBound.v
ContextTheorems.v
NodeDumper.v
SwiftDemangle.v
SwiftDemangleTheorems.v
Conformance.v
OldRemangler.v
OldRemanglerTheorems.v
OldWriting.v
OldMangleable.v
OldNominalWriting.v
OldTypeWriting.v
OldEntityWriting.v
OldKnot.v
OldRoundtrip.v
OldConformance.v
NodeFactory.v
NodeFactoryRefinement.v
TypeDecoder.v
TypeDecoderTheorems.v
MetadataSource.v
TypeRef.v
TypeRefTheorems.v
TypeRefBuilder.v
TypeRefBuilderTheorems.v
