(* ===== verification/Prelude.v ===== *)
(** * Swift symbol mangling: a verification development

    This library models the part of the Swift compiler that turns declarations
    into linker symbols and back, [lib/Demangling] with its headers in
    [include/swift/Demangling], the tool [swift-demangle], and the part of the
    reflection library ([include/swift/Reflection], [stdlib/public/Reflection])
    that turns mangled type names into descriptions of types. Paths below are
    relative to [src/].

    ** The parts and how they interact

    - A demangling tree ([Node], Demangle.h) is what a symbol means.
      [Nodes.v] has the node kinds of DemangleNodes.def, the payload and the
      children, and the accessors with their assertions.
    - The character classes, the translation of operators and the standard type
      table (ManglingUtils.h/.cpp, StandardTypesMangling.def) are in
      [ManglingUtils.v]; identifiers that are not plain ASCII words go through
      Punycode (Punycode.cpp), in [Punycode.v].
    - [IdentifierMangling.v] has the two templates of ManglingUtils.h that every
      mangler shares: [mangleIdentifier], which replaces words that the symbol
      already contains by one letter, and [SubstitutionMerging], which merges
      repeated substitutions. They are stated over the type class [Mangler], the
      template's requirements on its argument.
    - [Demangler.v] (Demangler.h, Demangler.cpp): the class [Demangler], from
      characters through the node stack to the tree. One definition for each
      member function, with its name.
    - [Remangler.v] (Remangler.cpp): the class [Remangler], from the tree back
      to the symbol. It instantiates [Mangler].
    - [OldDemangler.v] (OldDemangler.cpp) and [OldRemangler.v]
      (OldRemangler.cpp): the same for the mangling of Swift 3 and earlier.
    - [NodePrinter.v] (NodePrinter.cpp): a tree as readable text. The names inside
      specializations are demangled by a function that is a parameter of it.
    - [DemanglingContext.v] (Context.cpp): the class [Context], which picks one of
      the demanglers, calls the printer, and answers questions about thunks. It
      ties the knot between the printer and the demangler.
    - [NodeDumper.v] (NodeDumper.cpp): a tree as an indented dump.
    - [SwiftDemangle.v] (tools/swift-demangle/swift-demangle.cpp): the function
      [demangle] of the tool and its options, over all of the above.
    - [NodeFactory.v] (Demangler.h, Demangler.cpp): the bump allocator that nodes,
      their child arrays, vectors and strings live in. The other files have values
      and lists in their place, which [NodeFactoryRefinement.v] justifies.
    - [TypeDecoder.v] (TypeDecoder.h/.cpp, with the flags of
      ABI/MetadataValues.h): the template that turns a tree into a type by calling a
      builder. The builder is the type class [TypeBuilder].
    - [MetadataSource.v] (Reflection/MetadataSource.h/.cpp, and the encoder of
      lib/IRGen/GenReflection.cpp): where the metadata of a closure's generic
      parameters comes from, written, read and dumped.
    - [TypeRef.v] (Reflection/TypeRef.h/.cpp): type references and the visitors
      over them, substitution and its derivation among them.
    - [TypeRefBuilder.v] (Reflection/TypeRefBuilder.h/.cpp, Records.h): the builder
      of type references, an instance of [TypeBuilder], with its cache, its lookups
      in reflection metadata and its dumps.

    ** How code corresponds to definitions

    Member functions are computations in the monad [M S] below: [S] is the record
    of the object's members, and a run either returns a value and the new state
    or stops with a [crash] (a failed [assert], a null pointer, an access past
    the end, a division by zero, an abort). A [NodePointer] is an [option Node].
    [unsigned char] arithmetic goes through [ord] and [chr]; [int], [unsigned]
    and [uint64_t] or [size_t] wrap as [wrap_int], [wrap_u32] and [wrap_u64] say.

    Nodes are values although the code shares pointers. This is faithful because
    the code changes a node only before anything else can hold it, with one
    exception, the argument tuple of old-style function types, where the model
    rebuilds the path from the type to the tuple; that nothing on the
    substitution list can be such a node is the predicate [substitutable] of the
    invariant in [DemanglerSpecs.v].

    Type references are compared as trees where the code compares pointers: a
    [TypeRefBuilder] makes each of them once, in tables whose keys are
    [TypeRefID]s, and the words that [addString] adds to a key determine the string
    ([TypeRefTheorems.addString_injective]). The tables themselves are not modelled.

    [malloc] is a parameter of [NodeFactory.v]. The hypothesis on it, [MallocOk],
    is what its documentation says: a block is null, or it lies in the memory of
    the process, the lower 2^56 bytes of the address space, and is apart from the
    other blocks.

    ** Recursion and fuel

    - [while_] in [Demangler.v] takes the length of the text plus the height of the
      stack, plus one; each round of a loop reads a character or pops a node, and the
      theorems on whole symbols show that [OutOfFuel] is not among the crashes.
    - The old demangler has the length of its text as fuel; every call that does not
      return null reads a character ([OldDemanglerSpecs.v]).
    - The bounds of the Punycode loops are proved to be enough in [PunycodeSpecs.v],
      [PunycodeRoundtrip.v] and [PunycodeTermination.v].
    - The remanglers have twice the size, or the height, of the tree, plus room for
      the nodes they make up themselves. That this is enough on every tree is
      [RemanglerTermination.v] and [OldRemanglerTheorems.v].
    - The printer has the height of the tree, which is enough although it comes back
      to contexts it could not print at once ([PrinterSpecs.v]); the type decoder has
      the height, too.
    - Demangling the names inside names ([demangleNameWith]) and substituting type
      witnesses and superclasses ([TypeRefBuilder.subst]) have no measure in the code:
      their fuel is an argument. [ContextTheorems.v] says what it means to run out of
      the first: a chain of names, each of which mentions the next.

    ** The theorems

    The new mangling, from characters to trees:
    - [NodeShape.v] has the grammar of demangling trees. [DemanglerSpecs.v] and
      [DemanglerSafety.v] have the invariant of the demangler (positions in range,
      well-formed nodes, at most 26 words) and that every operator keeps it.
      [DemanglerTheorems.v] draws the conclusions for whole symbols: termination, the
      exact set of crashes, resource bounds, independence of what the object was used
      for before.

    Its parts are read back as they are written:
    - [Numbers.v]: decimal numbers.
    - [PunycodeSpecs.v], [PunycodeRoundtrip.v], [PunycodeTheorems.v]: Punycode, on at
      most 1926 code points up to 0x10FFFF. With more of them the 32 bits of [delta]
      can overflow, and the round trip does not hold.
    - [IdentifierTokens.v] and [IdentifierEncoding.v] (what the scan for words and the
      writing of replacements do, in terms of a splitting into words),
      [IdentifierRoundtrip.v], [IdentifierTheorems.v]: identifiers.

    Whole symbols are read back as they are written:
    - [SubstitutionGroups.v] and [MergingSpecs.v]: groups of merged substitutions;
      [RemanglerSpecs.v]: the substitution table.
    - [Simulation.v], [SymbolSimulation.v], [SymbolWriting.v]: the demangler that
      reads what has been written so far follows the remangler.
    - [OperatorReads.v], [EntityReads.v], [GenericReads.v]: what the operators take
      from the stack; [TypeWriting.v], [EntityWriting.v]: what the handlers write.
    - [Mangleable.v] has the fragment, [SymbolRoundtrip.v] the theorems.
    - [UnspecializedTypes.v], [RemanglerTermination.v]: the remangler ends on every
      tree whose texts have no code point above 0x10FFFF (the Punycode encoder
      diverges on others), in the fragment or not.

    The printer and the context:
    - [PrinterSpecs.v], [PrinterSafety.v], [PrinterTheorems.v]: the printer ends on
      every tree, and crashes on well-formed ones in three ways only. The trees have
      fewer than 2^32 children to a node ([narrow]): the labels of a function are
      counted in 32 bits.
    - [RecursionBound.v], [ContextTheorems.v]: symbols as strings, and thunks.
    - [NodeDumper.v]: the dump determines the tree.
    - [SwiftDemangleTheorems.v]: the tool. [Conformance.v] and [OldConformance.v]
      are regression tests, which evaluate the models on the names of
      test/Demangle/Inputs.

    The old mangling:
    - [OldNodeShape.v], [OldDemanglerSpecs.v], [OldDemanglerSafety.v],
      [OldDemanglerTheorems.v]: the grammar of its trees, and that the old demangler
      builds such trees and ends.
    - [OldRemanglerTheorems.v]: the old remangler ends on every tree, and takes
      substitutions for equal by their hashes.
    - [OldWriting.v], [OldMangleable.v], [OldNominalWriting.v], [OldTypeWriting.v],
      [OldEntityWriting.v], [OldKnot.v], [OldRoundtrip.v]: the round trip.

    Memory and reflection:
    - [NodeFactoryRefinement.v]: operations on arrays in a factory return what they
      return on lists, or stop at a block that [malloc] did not give.
    - [TypeDecoderTheorems.v]: the decoder is safe for every builder that is (the
      class [SafeBuilder], over the texts that the nodes it is given may have), and
      does not depend on the builder's state when the builder does not
      ([StatelessBuilder]). [TypeRefBuilderTheorems.v] discharges both for type
      references, and has the theorems on mangled type names and on the cache of type
      witnesses.
    - [TypeRefTheorems.v]: substitution, and deriving substitutions from its result.
    - [MetadataSource.v]: sources are decoded as they were encoded.

    ** Outside the fragments of the round trips

    [Mangleable.v] leaves out what one side does not handle, or what the other side
    reads differently: operator names, an enum [Swift.Int], which is written as the
    structure; and, for size, generic signatures and the entities that have them,
    specializations, thunks, witnesses, lowered function types and boxes.
    [OldMangleable.v] leaves out protocol conformances, type aliases, archetypes,
    associated and dependent member types, layout requirements, lowered function
    types, boxes with a layout, specializations, subscripts and bound generic types
    as contexts, and [Builtin.SILToken].

    ** Not modelled

    The regular expression with which the tool finds names in its input; the layout
    of reflection sections in the memory of an image; the tables that make type
    references unique; type layouts ([TypeLowering]) and the reading of another
    process ([ReflectionContext], [MetadataReader]); the builder of the type decoder
    that makes types of the abstract syntax tree; the rest of the compiler, which
    the mangling does not depend on; LLVM and Clang, which are not part of the
    repository. *)

From stdpp Require Export base list strings option numbers.
From Stdlib Require Export Ascii ZArith Lia.
From Stdlib Require Import String.

#[global] Set Default Goal Selector "!".
#[global] Open Scope Z_scope.

Declare Scope swift_scope.
Delimit Scope swift_scope with swift.
#[global] Open Scope swift_scope.

(** ** Strings: [StringRef] and [std::string] are lists of bytes. *)

Abbreviation str := (list ascii).

Definition lit (s : string) : str := list_ascii_of_string s.
Arguments lit s%_string.

Definition NUL : ascii := "000"%char.

(** The numeric value of a byte, as [unsigned char]. *)
Definition ord (c : ascii) : Z := Z.of_N (N_of_ascii c).
(** The conversion back, which keeps the low 8 bits. *)
Definition chr (z : Z) : ascii := ascii_of_N (Z.to_N (z mod 256)).

(** ** Machine integers *)

(** Two's complement [int] (32 bit) and unsigned [unsigned]/[uint64_t]. *)
Definition wrap_int (z : Z) : Z := (z + 2 ^ 31) mod 2 ^ 32 - 2 ^ 31.
Definition wrap_u32 (z : Z) : Z := z mod 2 ^ 32.
Definition wrap_u64 (z : Z) : Z := z mod 2 ^ 64.

Definition INT_MAX : Z := 2 ^ 31 - 1.

(** Arithmetic stays as it is written under [cbn]. *)
#[global] Arguments lit : simpl never.
#[global] Arguments wrap_int : simpl never.
#[global] Arguments wrap_u32 : simpl never.
#[global] Arguments wrap_u64 : simpl never.
#[global] Arguments Z.ltb : simpl never.
#[global] Arguments Z.leb : simpl never.
#[global] Arguments Z.add : simpl never.
#[global] Arguments Z.sub : simpl never.
#[global] Arguments Z.mul : simpl never.
#[global] Arguments Z.pow : simpl never.

Lemma wrap_int_range z : - 2 ^ 31 <= wrap_int z < 2 ^ 31.
Proof. unfold wrap_int. pose proof (Z.mod_pos_bound (z + 2 ^ 31) (2 ^ 32)). lia. Qed.

Lemma wrap_int_id z : - 2 ^ 31 <= z < 2 ^ 31 -> wrap_int z = z.
Proof. intros H. unfold wrap_int. rewrite Z.mod_small; lia. Qed.

Lemma wrap_u32_id z : 0 <= z < 2 ^ 32 -> wrap_u32 z = z.
Proof. apply Z.mod_small. Qed.

Lemma wrap_u64_id z : 0 <= z < 2 ^ 64 -> wrap_u64 z = z.
Proof. apply Z.mod_small. Qed.

Lemma wrap_int_succ z :
  0 <= z < 2 ^ 31 -> wrap_int (z + 1) = z + 1 /\ z + 1 < 2 ^ 31 \/ wrap_int (z + 1) = - 2 ^ 31.
Proof.
  intros H. destruct (decide (z + 1 < 2 ^ 31)); [left; rewrite wrap_int_id; lia|right].
  assert (z = 2 ^ 31 - 1) as -> by lia. reflexivity.
Qed.

(** ** Bytes *)

Lemma ord_range c : 0 <= ord c < 256.
Proof.
  unfold ord. pose proof (N_ascii_bounded c). lia.
Qed.

Lemma ord_chr z : 0 <= z < 256 -> ord (chr z) = z.
Proof.
  intros H. unfold ord, chr. rewrite Z.mod_small by done. rewrite N_ascii_embedding; lia.
Qed.

Lemma chr_ord c : chr (ord c) = c.
Proof.
  pose proof (ord_range c). unfold chr, ord. rewrite Z.mod_small by done.
  rewrite N2Z.id. apply ascii_N_embedding.
Qed.

Lemma ord_inj c d : ord c = ord d -> c = d.
Proof. intros H. by rewrite <-(chr_ord c), <-(chr_ord d), H. Qed.

Lemma ascii_eqb_ord c d : Ascii.eqb c d = (ord c =? ord d).
Proof.
  destruct (Ascii.eqb_spec c d) as [->|Hne]; symmetry; [apply Z.eqb_refl|].
  apply Z.eqb_neq. intros H. by apply Hne, ord_inj.
Qed.

Definition all_ascii : list ascii := map (fun n => ascii_of_nat n) (seq 0 256).

Lemma all_ascii_in c : In c all_ascii.
Proof.
  unfold all_ascii. rewrite in_map_iff. exists (nat_of_ascii c).
  split; [apply ascii_nat_embedding|]. apply in_seq. pose proof (nat_ascii_bounded c). lia.
Qed.

(** A decidable property of one byte is settled by trying all of them. *)
Lemma ascii_forall (p : ascii -> bool) : forallb p all_ascii = true -> forall c, p c = true.
Proof. rewrite forallb_forall. intros H c. apply H, all_ascii_in. Qed.

(** ** Computations: state, results and crashes *)

(** How a run can go wrong: a failed [assert], a dereferenced null pointer, an
    access past the end of a buffer, a division by zero, an [abort()] through [unreachable], or (in
    the model only) a loop whose fuel ran out. Each carries the function. *)
Inductive crash : Type :=
  | AssertionFailed (site : string)
  | NullPointer (site : string)
  | OutOfRange (site : string)
  | DivisionByZero (site : string)
  | Unreachable (site : string)
  | OutOfFuel.

Inductive outcome (A : Type) : Type :=
  | Ok (a : A)
  | Crash (c : crash).
Arguments Ok {A} a.
Arguments Crash {A} c.

Definition M (S A : Type) : Type := S -> outcome (A * S).

Definition ret {S A} (a : A) : M S A := fun s => Ok (a, s).

Definition bind {S A B} (m : M S A) (k : A -> M S B) : M S B := fun s =>
  match m s with
  | Ok (a, s') => k a s'
  | Crash c => Crash c
  end.

Definition fail {S A} (c : crash) : M S A := fun _ => Crash c.
Definition get {S} : M S S := fun s => Ok (s, s).
Definition gets {S A} (f : S -> A) : M S A := fun s => Ok (f s, s).
Definition modify {S} (f : S -> S) : M S unit := fun s => Ok (tt, f s).

Notation "x <- m ;; k" := (bind m (fun x => k))
  (at level 100, m at next level, right associativity) : swift_scope.
Notation "m ;; k" := (bind m (fun _ => k))
  (at level 100, right associativity) : swift_scope.

(** [assert (b)] at [site]. *)
Definition assert {S} (site : string) (b : bool) : M S unit :=
  if b then ret tt else fail (AssertionFailed site).

Definition when {S} (b : bool) (m : M S unit) : M S unit :=
  if b then m else ret tt.

(** [switch (c) { case 'x': ...; default: ... }] over characters. *)
Fixpoint switch {A} (c : ascii) (cases : list (ascii * A)) (default : A) : A :=
  match cases with
  | [] => default
  | (k, a) :: cases => if Ascii.eqb c k then a else switch c cases default
  end.

(** One case of a [switch]: the character and what it selects. *)
Notation "k ~> a" := (@pair ascii _ k%char a)
  (at level 85, no associativity, only parsing) : swift_scope.

(** Loops: the body returns [inl x] to go round again with [x] and [inr b] to
    leave with [b]. *)
Fixpoint loop {S A B} (fuel : nat) (body : A -> M S (A + B)) (a : A) : M S B :=
  match fuel with
  | O => fail OutOfFuel
  | Datatypes.S fuel =>
      r <- body a ;;
      match r with
      | inl a' => loop fuel body a'
      | inr b => ret b
      end
  end.

(** What a run returns, and a run with its final state changed. *)
Definition result {S A} (r : outcome (A * S)) : outcome A :=
  match r with Ok (a, _) => Ok a | Crash c => Crash c end.

Definition mapState {S S' A} (f : S -> S') (r : outcome (A * S)) : outcome (A * S') :=
  match r with Ok (a, s) => Ok (a, f s) | Crash c => Crash c end.

Lemma bind_ok {S A B} (m : M S A) (k : A -> M S B) s a s' :
  m s = Ok (a, s') -> bind m k s = k a s'.
Proof. unfold bind. by intros ->. Qed.

Lemma bind_assoc {S A B C} (m : M S A) (k : A -> M S B) (h : B -> M S C) s :
  bind (bind m k) h s = bind m (fun a => bind (k a) h) s.
Proof. unfold bind. by destruct (m s) as [[a s']|]. Qed.

Lemma bind_ext {S A B} (m : M S A) (k k' : A -> M S B) s :
  (forall a s', k a s' = k' a s') -> bind m k s = bind m k' s.
Proof. intros H. unfold bind. by destruct (m s) as [[a s']|]. Qed.

(** A computation that neither reads nor changes the state. *)
Class Stateless {S A} (m : M S A) : Prop :=
  stateless : forall s s', m s = mapState (fun _ => s) (m s').

Section stateless.
Context {S : Type}.

#[export] Instance stateless_ret {A} (a : A) : Stateless (S := S) (ret a).
Proof. done. Qed.

#[export] Instance stateless_fail {A} c : Stateless (@fail S A c).
Proof. done. Qed.

#[export] Instance stateless_bind {A B} (m : M S A) (k : A -> M S B) :
  Stateless m -> (forall a, Stateless (k a)) -> Stateless (bind m k).
Proof.
  intros Hm Hk s s'. unfold bind. rewrite (stateless s s').
  destruct (m s') as [[a s'']|c]; cbn; [|done]. apply (stateless s s'').
Qed.

#[export] Instance stateless_if {A} (b : bool) (m1 m2 : M S A) :
  Stateless m1 -> Stateless m2 -> Stateless (if b then m1 else m2).
Proof. by destruct b. Qed.
End stateless.

(** ** Weakest preconditions

    [wp E m Q s]: run from [s], [m] either returns with [Q] or crashes with a
    crash [E] allows. With [E := fun _ => False] this is total correctness:
    [OutOfFuel] is a crash too. *)
Definition wp {S A} (E : crash -> Prop) (m : M S A) (Q : A -> S -> Prop) (s : S) : Prop :=
  match m s with
  | Ok (a, s') => Q a s'
  | Crash c => E c
  end.

Definition no_crash (c : crash) : Prop := False.

Section wp_rules.
Context {S : Type} {E : crash -> Prop}.

Lemma wp_mono {A} (m : M S A) (Q Q' : A -> S -> Prop) s :
  wp E m Q s -> (forall a s', Q a s' -> Q' a s') -> wp E m Q' s.
Proof. unfold wp. destruct (m s) as [[a s']|c]; auto. Qed.

Lemma wp_ret {A} (a : A) (Q : A -> S -> Prop) s : Q a s -> wp E (ret a) Q s.
Proof. done. Qed.

Lemma wp_bind {A B} (m : M S A) (k : A -> M S B) Q s :
  wp E m (fun a s' => wp E (k a) Q s') s -> wp E (bind m k) Q s.
Proof. unfold wp, bind. by destruct (m s) as [[a s']|c]. Qed.

Lemma wp_fail {A} c (Q : A -> S -> Prop) s : E c -> wp E (fail c) Q s.
Proof. done. Qed.

Lemma wp_get (Q : S -> S -> Prop) s : Q s s -> wp E get Q s.
Proof. done. Qed.

Lemma wp_gets {A} (f : S -> A) (Q : A -> S -> Prop) s : Q (f s) s -> wp E (gets f) Q s.
Proof. done. Qed.

Lemma wp_modify (f : S -> S) (Q : unit -> S -> Prop) s :
  Q tt (f s) -> wp E (modify f) Q s.
Proof. done. Qed.

Lemma wp_assert site b (Q : unit -> S -> Prop) s :
  b = true -> Q tt s -> wp E (assert site b) Q s.
Proof. by intros ->. Qed.

Lemma wp_if {A} (b : bool) (m1 m2 : M S A) Q s :
  (b = true -> wp E m1 Q s) -> (b = false -> wp E m2 Q s) ->
  wp E (if b then m1 else m2) Q s.
Proof. intros H1 H2. destruct b; auto. Qed.

Lemma wp_when b (m : M S unit) Q s :
  (b = true -> wp E m Q s) -> (b = false -> Q tt s) -> wp E (when b m) Q s.
Proof. intros. by apply wp_if. Qed.

(** A loop is correct when its invariant [I] holds on entry, its body keeps
    [I] and decreases the measure [f], and the fuel exceeds the measure. *)
Lemma wp_loop {A B} (I : A -> S -> Prop) (f : A -> S -> nat)
    (body : A -> M S (A + B)) (Q : B -> S -> Prop) fuel a s :
  I a s -> (f a s < fuel)%nat ->
  (forall a s, I a s ->
    wp E (body a) (fun r s' =>
      match r with
      | inl a' => I a' s' /\ (f a' s' < f a s)%nat
      | inr b => Q b s'
      end) s) ->
  wp E (loop fuel body a) Q s.
Proof.
  intros HI Hlt Hbody. revert a s HI Hlt.
  induction fuel as [|fuel IH]; intros a s HI Hlt; [lia|].
  apply wp_bind. eapply wp_mono; [by apply Hbody|].
  intros [a'|b] s'; cbn; [|done].
  intros [HI' Hlt']. apply IH; [done|lia].
Qed.
End wp_rules.

(** The rules that apply by their shape alone. *)
Create HintDb swift.
#[export] Hint Resolve wp_ret wp_get wp_gets wp_modify ord_range wrap_int_range : swift.
#[export] Hint Rewrite chr_ord ord_chr wrap_u32_id wrap_u64_id wrap_int_id using lia : swift.

(** A [switch] goes through the case of its character or the default. *)
Lemma switch_ind {A} (P : A -> Prop) (c : ascii) cases d :
  Forall (fun p => c = p.1 -> P p.2) cases ->
  (Forall (fun p => c <> p.1) cases -> P d) ->
  P (switch c cases d).
Proof.
  induction cases as [|[k a] cases IH]; intros Hc Hd; cbn; [by apply Hd|].
  inversion_clear Hc as [|? ? Ha Hc'].
  destruct (Ascii.eqb_spec c k) as [->|Hne]; [by apply Ha|].
  apply IH; [done|]. intros Hn. apply Hd. by constructor.
Qed.
