(* ===== verification/Nodes.v ===== *)
(** * Demangling trees: [Node], its kinds and its member functions

    Models [Node] of include/swift/Demangling/Demangle.h, the kinds of
    include/swift/Demangling/DemangleNodes.def and the kind classes and [Node]
    member functions at the top of lib/Demangling/Demangler.cpp. *)

From Stdlib Require Import String.
From S2P Require Import Prelude.

(** ** Kinds *)

(** [Node::Kind]: one constructor [K_<ID>] per [NODE(ID)] or
    [CONTEXT_NODE(ID)], in the order of the .def file. *)
Inductive Kind : Set :=
  | K_Allocator | K_ArgumentTuple | K_AssociatedType | K_AssociatedTypeRef
  | K_AssociatedTypeMetadataAccessor | K_AssociatedTypeWitnessTableAccessor
  | K_AutoClosureType | K_BoundGenericClass | K_BoundGenericEnum
  | K_BoundGenericStructure | K_BuiltinTypeName | K_CFunctionPointer | K_Class
  | K_ClassMetadataBaseOffset | K_Constructor | K_CoroutineContinuationPrototype
  | K_Deallocator | K_DeclContext | K_DefaultArgumentInitializer
  | K_DependentAssociatedTypeRef | K_DependentGenericConformanceRequirement
  | K_DependentGenericParamCount | K_DependentGenericParamType
  | K_DependentGenericSameTypeRequirement | K_DependentGenericLayoutRequirement
  | K_DependentGenericSignature | K_DependentGenericType | K_DependentMemberType
  | K_DependentPseudogenericSignature | K_Destructor | K_DidSet | K_Directness
  | K_DynamicAttribute | K_DirectMethodReferenceAttribute | K_DynamicSelf | K_Enum
  | K_ErrorType | K_ExistentialMetatype | K_ExplicitClosure | K_Extension | K_FieldOffset
  | K_FullTypeMetadata | K_Function | K_FunctionSignatureSpecialization
  | K_FunctionSignatureSpecializationParam | K_FunctionSignatureSpecializationParamKind
  | K_FunctionSignatureSpecializationParamPayload | K_FunctionType
  | K_GenericPartialSpecialization | K_GenericPartialSpecializationNotReAbstracted
  | K_GenericProtocolWitnessTable | K_GenericProtocolWitnessTableInstantiationFunction
  | K_GenericSpecialization | K_GenericSpecializationNotReAbstracted
  | K_GenericSpecializationParam | K_GenericTypeMetadataPattern | K_Getter | K_Global
  | K_GlobalGetter | K_Identifier | K_Index | K_IVarInitializer | K_IVarDestroyer
  | K_ImplEscaping | K_ImplConvention | K_ImplFunctionAttribute | K_ImplFunctionType
  | K_ImplicitClosure | K_ImplParameter | K_ImplResult | K_ImplErrorResult | K_InOut
  | K_InfixOperator | K_Initializer | K_KeyPathGetterThunkHelper
  | K_KeyPathSetterThunkHelper | K_KeyPathEqualsThunkHelper | K_KeyPathHashThunkHelper
  | K_LazyProtocolWitnessTableAccessor | K_LazyProtocolWitnessTableCacheVariable
  | K_LocalDeclName | K_MaterializeForSet | K_MergedFunction | K_Metatype
  | K_MetatypeRepresentation | K_Metaclass | K_Module | K_NativeOwningAddressor
  | K_NativeOwningMutableAddressor | K_NativePinningAddressor
  | K_NativePinningMutableAddressor | K_NominalTypeDescriptor | K_NonObjCAttribute
  | K_Number | K_ObjCAttribute | K_ObjCBlock | K_OwningAddressor
  | K_OwningMutableAddressor | K_PartialApplyForwarder | K_PartialApplyObjCForwarder
  | K_PostfixOperator | K_PrefixOperator | K_PrivateDeclName | K_Protocol
  | K_ProtocolConformance | K_ProtocolDescriptor | K_ProtocolConformanceDescriptor
  | K_ProtocolList | K_ProtocolListWithClass | K_ProtocolListWithAnyObject
  | K_ProtocolWitness | K_ProtocolWitnessTable | K_ProtocolWitnessTableAccessor
  | K_QualifiedArchetype | K_ReabstractionThunk | K_ReabstractionThunkHelper
  | K_ReturnType | K_Shared | K_SILBoxType | K_SILBoxTypeWithLayout | K_SILBoxLayout
  | K_SILBoxMutableField | K_SILBoxImmutableField | K_Setter | K_SpecializationPassID
  | K_SpecializationIsFragile | K_Static | K_Structure | K_Subscript | K_Suffix
  | K_ThinFunctionType | K_Tuple | K_TupleElement | K_TupleElementName | K_Type
  | K_TypeAlias | K_TypeList | K_TypeMangling | K_TypeMetadata
  | K_TypeMetadataAccessFunction | K_TypeMetadataLazyCache | K_UncurriedFunctionType
  | K_Unmanaged | K_Unowned | K_UnsafeAddressor | K_UnsafeMutableAddressor
  | K_ValueWitness | K_ValueWitnessTable | K_Variable | K_VTableThunk | K_VTableAttribute
  | K_Weak | K_WillSet | K_ReflectionMetadataBuiltinDescriptor
  | K_ReflectionMetadataFieldDescriptor | K_ReflectionMetadataAssocTypeDescriptor
  | K_ReflectionMetadataSuperclassDescriptor | K_GenericTypeParamDecl | K_CurryThunk
  | K_DispatchThunk | K_ThrowsAnnotation | K_EmptyList | K_FirstElementMarker
  | K_VariadicMarker | K_OutlinedBridgedMethod | K_OutlinedCopy | K_OutlinedConsume
  | K_OutlinedRetain | K_OutlinedRelease | K_OutlinedInitializeWithTake
  | K_OutlinedInitializeWithCopy | K_OutlinedAssignWithTake | K_OutlinedAssignWithCopy
  | K_OutlinedDestroy | K_OutlinedVariable | K_AssocTypePath | K_LabelList.

(** The position of a kind in the enumeration: its [uint16_t] value. *)
Definition kind_index (k : Kind) : Z :=
  match k with
  | K_Allocator => 0
  | K_ArgumentTuple => 1
  | K_AssociatedType => 2
  | K_AssociatedTypeRef => 3
  | K_AssociatedTypeMetadataAccessor => 4
  | K_AssociatedTypeWitnessTableAccessor => 5
  | K_AutoClosureType => 6
  | K_BoundGenericClass => 7
  | K_BoundGenericEnum => 8
  | K_BoundGenericStructure => 9
  | K_BuiltinTypeName => 10
  | K_CFunctionPointer => 11
  | K_Class => 12
  | K_ClassMetadataBaseOffset => 13
  | K_Constructor => 14
  | K_CoroutineContinuationPrototype => 15
  | K_Deallocator => 16
  | K_DeclContext => 17
  | K_DefaultArgumentInitializer => 18
  | K_DependentAssociatedTypeRef => 19
  | K_DependentGenericConformanceRequirement => 20
  | K_DependentGenericParamCount => 21
  | K_DependentGenericParamType => 22
  | K_DependentGenericSameTypeRequirement => 23
  | K_DependentGenericLayoutRequirement => 24
  | K_DependentGenericSignature => 25
  | K_DependentGenericType => 26
  | K_DependentMemberType => 27
  | K_DependentPseudogenericSignature => 28
  | K_Destructor => 29
  | K_DidSet => 30
  | K_Directness => 31
  | K_DynamicAttribute => 32
  | K_DirectMethodReferenceAttribute => 33
  | K_DynamicSelf => 34
  | K_Enum => 35
  | K_ErrorType => 36
  | K_ExistentialMetatype => 37
  | K_ExplicitClosure => 38
  | K_Extension => 39
  | K_FieldOffset => 40
  | K_FullTypeMetadata => 41
  | K_Function => 42
  | K_FunctionSignatureSpecialization => 43
  | K_FunctionSignatureSpecializationParam => 44
  | K_FunctionSignatureSpecializationParamKind => 45
  | K_FunctionSignatureSpecializationParamPayload => 46
  | K_FunctionType => 47
  | K_GenericPartialSpecialization => 48
  | K_GenericPartialSpecializationNotReAbstracted => 49
  | K_GenericProtocolWitnessTable => 50
  | K_GenericProtocolWitnessTableInstantiationFunction => 51
  | K_GenericSpecialization => 52
  | K_GenericSpecializationNotReAbstracted => 53
  | K_GenericSpecializationParam => 54
  | K_GenericTypeMetadataPattern => 55
  | K_Getter => 56
  | K_Global => 57
  | K_GlobalGetter => 58
  | K_Identifier => 59
  | K_Index => 60
  | K_IVarInitializer => 61
  | K_IVarDestroyer => 62
  | K_ImplEscaping => 63
  | K_ImplConvention => 64
  | K_ImplFunctionAttribute => 65
  | K_ImplFunctionType => 66
  | K_ImplicitClosure => 67
  | K_ImplParameter => 68
  | K_ImplResult => 69
  | K_ImplErrorResult => 70
  | K_InOut => 71
  | K_InfixOperator => 72
  | K_Initializer => 73
  | K_KeyPathGetterThunkHelper => 74
  | K_KeyPathSetterThunkHelper => 75
  | K_KeyPathEqualsThunkHelper => 76
  | K_KeyPathHashThunkHelper => 77
  | K_LazyProtocolWitnessTableAccessor => 78
  | K_LazyProtocolWitnessTableCacheVariable => 79
  | K_LocalDeclName => 80
  | K_MaterializeForSet => 81
  | K_MergedFunction => 82
  | K_Metatype => 83
  | K_MetatypeRepresentation => 84
  | K_Metaclass => 85
  | K_Module => 86
  | K_NativeOwningAddressor => 87
  | K_NativeOwningMutableAddressor => 88
  | K_NativePinningAddressor => 89
  | K_NativePinningMutableAddressor => 90
  | K_NominalTypeDescriptor => 91
  | K_NonObjCAttribute => 92
  | K_Number => 93
  | K_ObjCAttribute => 94
  | K_ObjCBlock => 95
  | K_OwningAddressor => 96
  | K_OwningMutableAddressor => 97
  | K_PartialApplyForwarder => 98
  | K_PartialApplyObjCForwarder => 99
  | K_PostfixOperator => 100
  | K_PrefixOperator => 101
  | K_PrivateDeclName => 102
  | K_Protocol => 103
  | K_ProtocolConformance => 104
  | K_ProtocolDescriptor => 105
  | K_ProtocolConformanceDescriptor => 106
  | K_ProtocolList => 107
  | K_ProtocolListWithClass => 108
  | K_ProtocolListWithAnyObject => 109
  | K_ProtocolWitness => 110
  | K_ProtocolWitnessTable => 111
  | K_ProtocolWitnessTableAccessor => 112
  | K_QualifiedArchetype => 113
  | K_ReabstractionThunk => 114
  | K_ReabstractionThunkHelper => 115
  | K_ReturnType => 116
  | K_Shared => 117
  | K_SILBoxType => 118
  | K_SILBoxTypeWithLayout => 119
  | K_SILBoxLayout => 120
  | K_SILBoxMutableField => 121
  | K_SILBoxImmutableField => 122
  | K_Setter => 123
  | K_SpecializationPassID => 124
  | K_SpecializationIsFragile => 125
  | K_Static => 126
  | K_Structure => 127
  | K_Subscript => 128
  | K_Suffix => 129
  | K_ThinFunctionType => 130
  | K_Tuple => 131
  | K_TupleElement => 132
  | K_TupleElementName => 133
  | K_Type => 134
  | K_TypeAlias => 135
  | K_TypeList => 136
  | K_TypeMangling => 137
  | K_TypeMetadata => 138
  | K_TypeMetadataAccessFunction => 139
  | K_TypeMetadataLazyCache => 140
  | K_UncurriedFunctionType => 141
  | K_Unmanaged => 142
  | K_Unowned => 143
  | K_UnsafeAddressor => 144
  | K_UnsafeMutableAddressor => 145
  | K_ValueWitness => 146
  | K_ValueWitnessTable => 147
  | K_Variable => 148
  | K_VTableThunk => 149
  | K_VTableAttribute => 150
  | K_Weak => 151
  | K_WillSet => 152
  | K_ReflectionMetadataBuiltinDescriptor => 153
  | K_ReflectionMetadataFieldDescriptor => 154
  | K_ReflectionMetadataAssocTypeDescriptor => 155
  | K_ReflectionMetadataSuperclassDescriptor => 156
  | K_GenericTypeParamDecl => 157
  | K_CurryThunk => 158
  | K_DispatchThunk => 159
  | K_ThrowsAnnotation => 160
  | K_EmptyList => 161
  | K_FirstElementMarker => 162
  | K_VariadicMarker => 163
  | K_OutlinedBridgedMethod => 164
  | K_OutlinedCopy => 165
  | K_OutlinedConsume => 166
  | K_OutlinedRetain => 167
  | K_OutlinedRelease => 168
  | K_OutlinedInitializeWithTake => 169
  | K_OutlinedInitializeWithCopy => 170
  | K_OutlinedAssignWithTake => 171
  | K_OutlinedAssignWithCopy => 172
  | K_OutlinedDestroy => 173
  | K_OutlinedVariable => 174
  | K_AssocTypePath => 175
  | K_LabelList => 176
  end.

Definition all_kinds : list Kind :=
  [K_Allocator; K_ArgumentTuple; K_AssociatedType; K_AssociatedTypeRef;
   K_AssociatedTypeMetadataAccessor; K_AssociatedTypeWitnessTableAccessor;
   K_AutoClosureType; K_BoundGenericClass; K_BoundGenericEnum; K_BoundGenericStructure;
   K_BuiltinTypeName; K_CFunctionPointer; K_Class; K_ClassMetadataBaseOffset;
   K_Constructor; K_CoroutineContinuationPrototype; K_Deallocator; K_DeclContext;
   K_DefaultArgumentInitializer; K_DependentAssociatedTypeRef;
   K_DependentGenericConformanceRequirement; K_DependentGenericParamCount;
   K_DependentGenericParamType; K_DependentGenericSameTypeRequirement;
   K_DependentGenericLayoutRequirement; K_DependentGenericSignature;
   K_DependentGenericType; K_DependentMemberType; K_DependentPseudogenericSignature;
   K_Destructor; K_DidSet; K_Directness; K_DynamicAttribute;
   K_DirectMethodReferenceAttribute; K_DynamicSelf; K_Enum; K_ErrorType;
   K_ExistentialMetatype; K_ExplicitClosure; K_Extension; K_FieldOffset;
   K_FullTypeMetadata; K_Function; K_FunctionSignatureSpecialization;
   K_FunctionSignatureSpecializationParam; K_FunctionSignatureSpecializationParamKind;
   K_FunctionSignatureSpecializationParamPayload; K_FunctionType;
   K_GenericPartialSpecialization; K_GenericPartialSpecializationNotReAbstracted;
   K_GenericProtocolWitnessTable; K_GenericProtocolWitnessTableInstantiationFunction;
   K_GenericSpecialization; K_GenericSpecializationNotReAbstracted;
   K_GenericSpecializationParam; K_GenericTypeMetadataPattern; K_Getter; K_Global;
   K_GlobalGetter; K_Identifier; K_Index; K_IVarInitializer; K_IVarDestroyer;
   K_ImplEscaping; K_ImplConvention; K_ImplFunctionAttribute; K_ImplFunctionType;
   K_ImplicitClosure; K_ImplParameter; K_ImplResult; K_ImplErrorResult; K_InOut;
   K_InfixOperator; K_Initializer; K_KeyPathGetterThunkHelper;
   K_KeyPathSetterThunkHelper; K_KeyPathEqualsThunkHelper; K_KeyPathHashThunkHelper;
   K_LazyProtocolWitnessTableAccessor; K_LazyProtocolWitnessTableCacheVariable;
   K_LocalDeclName; K_MaterializeForSet; K_MergedFunction; K_Metatype;
   K_MetatypeRepresentation; K_Metaclass; K_Module; K_NativeOwningAddressor;
   K_NativeOwningMutableAddressor; K_NativePinningAddressor;
   K_NativePinningMutableAddressor; K_NominalTypeDescriptor; K_NonObjCAttribute;
   K_Number; K_ObjCAttribute; K_ObjCBlock; K_OwningAddressor; K_OwningMutableAddressor;
   K_PartialApplyForwarder; K_PartialApplyObjCForwarder; K_PostfixOperator;
   K_PrefixOperator; K_PrivateDeclName; K_Protocol; K_ProtocolConformance;
   K_ProtocolDescriptor; K_ProtocolConformanceDescriptor; K_ProtocolList;
   K_ProtocolListWithClass; K_ProtocolListWithAnyObject; K_ProtocolWitness;
   K_ProtocolWitnessTable; K_ProtocolWitnessTableAccessor; K_QualifiedArchetype;
   K_ReabstractionThunk; K_ReabstractionThunkHelper; K_ReturnType; K_Shared;
   K_SILBoxType; K_SILBoxTypeWithLayout; K_SILBoxLayout; K_SILBoxMutableField;
   K_SILBoxImmutableField; K_Setter; K_SpecializationPassID; K_SpecializationIsFragile;
   K_Static; K_Structure; K_Subscript; K_Suffix; K_ThinFunctionType; K_Tuple;
   K_TupleElement; K_TupleElementName; K_Type; K_TypeAlias; K_TypeList; K_TypeMangling;
   K_TypeMetadata; K_TypeMetadataAccessFunction; K_TypeMetadataLazyCache;
   K_UncurriedFunctionType; K_Unmanaged; K_Unowned; K_UnsafeAddressor;
   K_UnsafeMutableAddressor; K_ValueWitness; K_ValueWitnessTable; K_Variable;
   K_VTableThunk; K_VTableAttribute; K_Weak; K_WillSet;
   K_ReflectionMetadataBuiltinDescriptor; K_ReflectionMetadataFieldDescriptor;
   K_ReflectionMetadataAssocTypeDescriptor; K_ReflectionMetadataSuperclassDescriptor;
   K_GenericTypeParamDecl; K_CurryThunk; K_DispatchThunk; K_ThrowsAnnotation;
   K_EmptyList; K_FirstElementMarker; K_VariadicMarker; K_OutlinedBridgedMethod;
   K_OutlinedCopy; K_OutlinedConsume; K_OutlinedRetain; K_OutlinedRelease;
   K_OutlinedInitializeWithTake; K_OutlinedInitializeWithCopy; K_OutlinedAssignWithTake;
   K_OutlinedAssignWithCopy; K_OutlinedDestroy; K_OutlinedVariable; K_AssocTypePath;
   K_LabelList].

Lemma all_kinds_lookup k : all_kinds !! Z.to_nat (kind_index k) = Some k.
Proof. by destruct k. Qed.

Lemma kind_index_inj k1 k2 : kind_index k1 = kind_index k2 -> k1 = k2.
Proof.
  intros H. apply (f_equal (fun i => all_kinds !! Z.to_nat i)) in H.
  rewrite !all_kinds_lookup in H. by injection H.
Qed.

Definition Kind_eqb (k1 k2 : Kind) : bool := kind_index k1 =? kind_index k2.

Lemma Kind_eqb_eq k1 k2 : Kind_eqb k1 k2 = true <-> k1 = k2.
Proof.
  unfold Kind_eqb. rewrite Z.eqb_eq. split; [apply kind_index_inj|by intros ->].
Qed.

Lemma Kind_eqb_spec k1 k2 : reflect (k1 = k2) (Kind_eqb k1 k2).
Proof. apply iff_reflect. by rewrite Kind_eqb_eq. Qed.

#[export] Instance Kind_eq_dec : EqDecision Kind.
Proof.
  refine (fun k1 k2 => cast_if (decide (Kind_eqb k1 k2 = true)));
    by rewrite <-Kind_eqb_eq.
Defined.

(** [case Node::Kind::ID:] for the kinds declared with [CONTEXT_NODE]. *)
Definition isContext (kind : Kind) : bool :=
  match kind with
  | K_Allocator | K_Class | K_Constructor | K_Deallocator
  | K_DefaultArgumentInitializer | K_Destructor | K_DidSet | K_Enum | K_ExplicitClosure
  | K_Extension | K_Function | K_Getter | K_GlobalGetter | K_IVarInitializer
  | K_IVarDestroyer | K_ImplicitClosure | K_Initializer | K_MaterializeForSet
  | K_Module | K_NativeOwningAddressor | K_NativeOwningMutableAddressor
  | K_NativePinningAddressor | K_NativePinningMutableAddressor | K_OwningAddressor
  | K_OwningMutableAddressor | K_Protocol | K_Setter | K_Static | K_Structure
  | K_Subscript | K_TypeAlias | K_UnsafeAddressor | K_UnsafeMutableAddressor
  | K_Variable | K_WillSet | K_CurryThunk | K_DispatchThunk => true
  | _ => false
  end.

Definition isDeclName (kind : Kind) : bool :=
  match kind with
  | K_Identifier | K_LocalDeclName | K_PrivateDeclName
  | K_PrefixOperator | K_PostfixOperator | K_InfixOperator => true
  | _ => false
  end.

Definition isAnyGeneric (kind : Kind) : bool :=
  match kind with
  | K_Structure | K_Class | K_Enum | K_Protocol | K_TypeAlias => true
  | _ => false
  end.

(** Also accepts some kinds which are not entities. *)
Definition isEntity (kind : Kind) : bool :=
  if Kind_eqb kind K_Type then true else isContext kind.

Definition isRequirement (kind : Kind) : bool :=
  match kind with
  | K_DependentGenericSameTypeRequirement
  | K_DependentGenericLayoutRequirement
  | K_DependentGenericConformanceRequirement => true
  | _ => false
  end.

Definition isFunctionAttr (kind : Kind) : bool :=
  match kind with
  | K_FunctionSignatureSpecialization
  | K_GenericSpecialization
  | K_GenericSpecializationNotReAbstracted
  | K_GenericPartialSpecialization
  | K_GenericPartialSpecializationNotReAbstracted
  | K_ObjCAttribute
  | K_NonObjCAttribute
  | K_DynamicAttribute
  | K_DirectMethodReferenceAttribute
  | K_VTableAttribute
  | K_PartialApplyForwarder
  | K_PartialApplyObjCForwarder
  | K_OutlinedVariable
  | K_OutlinedBridgedMethod
  | K_MergedFunction => true
  | _ => false
  end.

(** ** Nodes *)

(** The payload union with its [PayloadKind] tag; an index is a [uint64_t]. *)
Inductive Payload : Type :=
  | NoPayload
  | TextPayload (text : str)
  | IndexPayload (index : Z).

(** A node and, through it, the tree below it. [NodePointer] may be null. *)
Inductive Node : Type :=
  mkNode (kind : Kind) (payload : Payload) (children : list Node).

Abbreviation NodePointer := (option Node).

(** The induction principle the nested lists of children call for. *)
Section Node_ind.
Context (P : Node -> Prop)
  (Hnode : forall k p cs, Forall P cs -> P (mkNode k p cs)).

Fixpoint Node_tree_ind (n : Node) : P n :=
  match n with
  | mkNode k p cs =>
      Hnode k p cs
        ((fix go (cs : list Node) : Forall P cs :=
            match cs with
            | [] => Forall_nil_2 P
            | c :: cs => Forall_cons_2 P c cs (Node_tree_ind c) (go cs)
            end) cs)
  end.
End Node_ind.

Definition getKind (n : Node) : Kind := match n with mkNode k _ _ => k end.
Definition payload (n : Node) : Payload := match n with mkNode _ p _ => p end.
Definition children (n : Node) : list Node := match n with mkNode _ _ cs => cs end.

Definition hasText (n : Node) : bool :=
  match payload n with TextPayload _ => true | _ => false end.
Definition hasIndex (n : Node) : bool :=
  match payload n with IndexPayload _ => true | _ => false end.
Definition hasChildren (n : Node) : bool := negb (length (children n) =? 0)%nat.
Definition getNumChildren (n : Node) : nat := length (children n).

Section accessors.
Context {S : Type}.

(** [assert(hasText()); return TextPayload;] *)
Definition getText (n : Node) : M S str :=
  match payload n with
  | TextPayload t => ret t
  | _ => fail (AssertionFailed "Node::getText")
  end.

(** [assert(hasIndex()); return IndexPayload;] *)
Definition getIndex (n : Node) : M S Z :=
  match payload n with
  | IndexPayload i => ret i
  | _ => fail (AssertionFailed "Node::getIndex")
  end.

(** [assert(NumChildren > index); return Children[index];] *)
Definition getChild (n : Node) (index : nat) : M S Node :=
  match children n !! index with
  | Some c => ret c
  | None => fail (AssertionFailed "Node::getChild")
  end.

(** [assert(NumChildren >= 1); return Children[0];] *)
Definition getFirstChild (n : Node) : M S Node :=
  match children n with
  | c :: _ => ret c
  | [] => fail (AssertionFailed "Node::getFirstChild")
  end.

(** [removeChildAt(Pos)], with its assertion. *)
Definition removeChildAt (n : Node) (pos : nat) : M S Node :=
  _ <- assert "Node::removeChildAt" (pos <? getNumChildren n)%nat ;;
  ret (mkNode (getKind n) (payload n) (take pos (children n) ++ drop (pos + 1) (children n))).

(** [reverseChildren(StartingAt)], with its assertion. *)
Definition reverseChildren (n : Node) (start : nat) : M S Node :=
  _ <- assert "Node::reverseChildren" (start <=? getNumChildren n)%nat ;;
  ret (mkNode (getKind n) (payload n)
         (take start (children n) ++ reverse (drop start (children n)))).
End accessors.

(** [Node::addChild]: the child is not null (its assertion), so it is a [Node]. *)
Definition nodeAddChild (parent child : Node) : Node :=
  mkNode (getKind parent) (payload parent) (children parent ++ [child]).

(** Replace the child at [i]: what a mutation through [getChild(i)] leaves. *)
Definition setChild (n : Node) (i : nat) (c : Node) : Node :=
  mkNode (getKind n) (payload n) (<[i := c]> (children n)).

(** [NodeFactory::createNode] in its three forms. *)
Definition createNode (k : Kind) : Node := mkNode k NoPayload [].
Definition createNodeText (k : Kind) (text : str) : Node := mkNode k (TextPayload text) [].
Definition createNodeIndex (k : Kind) (index : Z) : Node :=
  mkNode k (IndexPayload (wrap_u64 index)) [].

(** The height of a tree. *)
Fixpoint node_height (n : Node) : nat :=
  match n with mkNode _ _ cs => S (list_max (map node_height cs)) end.
