(* ===== verification/ManglingUtils.v ===== *)
(** * Character classes, operators and standard types of the mangling

    Models the inline predicates of include/swift/Demangling/ManglingUtils.h,
    lib/Demangling/ManglingUtils.cpp and the table of
    include/swift/Demangling/StandardTypesMangling.def, and the decimal printing
    of [DemanglerPrinter]. A [char] is a byte; where the code compares a signed
    [char] with ASCII bounds the unsigned comparison below agrees, since both
    bounds of each range are below 128. *)

From Stdlib Require Import String.
From S2P Require Import Prelude Nodes.

(** ** Character classes *)

Definition inRange (lo ch hi : ascii) : bool := (ord lo <=? ord ch) && (ord ch <=? ord hi).

Definition isLowerLetter (ch : ascii) : bool := inRange "a" ch "z".
Definition isUpperLetter (ch : ascii) : bool := inRange "A" ch "Z".
Definition isDigit (ch : ascii) : bool := inRange "0" ch "9".
Definition isLetter (ch : ascii) : bool := isLowerLetter ch || isUpperLetter ch.

Definition isWordStart (ch : ascii) : bool :=
  negb (isDigit ch) && negb (Ascii.eqb ch "_") && negb (Ascii.eqb ch NUL).

Definition isWordEnd (ch prevCh : ascii) : bool :=
  if Ascii.eqb ch "_" || Ascii.eqb ch NUL then true
  else if negb (isUpperLetter prevCh) && isUpperLetter ch then true
  else false.

Definition isValidSymbolChar (ch : ascii) : bool :=
  isLetter ch || isDigit ch || Ascii.eqb ch "_" || Ascii.eqb ch "$".

Definition isNonAscii (s : str) : bool := existsb (fun c => 128 <=? ord c) s.

Definition needsPunycodeEncoding (s : str) : bool :=
  existsb (fun c => negb (isValidSymbolChar c)) s.

(** ** Operators *)

Definition translateOperatorChar (op : ascii) : ascii :=
  switch op
    [ "&" ~> "a"%char; "@" ~> "c"%char; "/" ~> "d"%char; "=" ~> "e"%char;
      ">" ~> "g"%char; "<" ~> "l"%char; "*" ~> "m"%char; "!" ~> "n"%char;
      "|" ~> "o"%char; "+" ~> "p"%char; "?" ~> "q"%char; "%" ~> "r"%char;
      "-" ~> "s"%char; "~" ~> "t"%char; "^" ~> "x"%char; "." ~> "z"%char ]
    op.

Definition translateOperator (Op : str) : str := map translateOperatorChar Op.

(** ** Standard types *)

(** [STANDARD_TYPE(KIND, MANGLING, TYPENAME)], in the order of the .def file. *)
Definition STANDARD_TYPES : list (Kind * ascii * str) :=
  [ (K_Structure, "a"%char, lit "Array");
    (K_Structure, "b"%char, lit "Bool");
    (K_Structure, "c"%char, lit "UnicodeScalar");
    (K_Structure, "d"%char, lit "Double");
    (K_Structure, "f"%char, lit "Float");
    (K_Structure, "i"%char, lit "Int");
    (K_Structure, "V"%char, lit "UnsafeRawPointer");
    (K_Structure, "v"%char, lit "UnsafeMutableRawPointer");
    (K_Structure, "P"%char, lit "UnsafePointer");
    (K_Structure, "p"%char, lit "UnsafeMutablePointer");
    (K_Structure, "R"%char, lit "UnsafeBufferPointer");
    (K_Structure, "r"%char, lit "UnsafeMutableBufferPointer");
    (K_Structure, "S"%char, lit "String");
    (K_Structure, "u"%char, lit "UInt");
    (K_Enum, "q"%char, lit "Optional");
    (K_Enum, "Q"%char, lit "ImplicitlyUnwrappedOptional") ].

Definition str_eqb (s t : str) : bool := bool_decide (s = t).

Lemma str_eqb_spec s t : reflect (s = t) (str_eqb s t).
Proof. apply bool_decide_reflect. Qed.

(** The first entry with this name, or the null character. *)
Definition getStandardTypeSubst (TypeName : str) : ascii :=
  match find (fun e => str_eqb TypeName e.2) STANDARD_TYPES with
  | Some (_, m, _) => m
  | None => NUL
  end.

(** STDLIB_NAME and the names of the imported modules, from swift/Strings.h. *)
Definition STDLIB_NAME : str := lit "Swift".
Definition MANGLING_MODULE_OBJC : str := lit "__C".
Definition MANGLING_MODULE_CLANG_IMPORTER : str := lit "__C_Synthesized".

(** ** Decimal numbers *)

(** Digits of [n >= 0], most significant first, in front of [acc]. *)
Fixpoint decimal_digits (fuel : nat) (n : Z) (acc : str) : str :=
  match fuel with
  | O => acc
  | S fuel =>
      let acc := chr (ord "0" + n mod 10) :: acc in
      if n <? 10 then acc else decimal_digits fuel (n / 10) acc
  end.

(** ["%llu"] for [n >= 0]. *)
Definition decimal (n : Z) : str := decimal_digits (S (Z.to_nat (Z.log2 n))) n [].

(** ["%d"]. *)
Definition decimal_signed (n : Z) : str :=
  if n <? 0 then "-"%char :: decimal (- n) else decimal n.

(** [s.substr(Start, N)]: clipped to the string. *)
Definition substr (s : str) (start n : nat) : str := take n (drop start s).

Definition startswith (s prefix : str) : bool := str_eqb (take (length prefix) s) prefix.
