(* ===== verification/Punycode.v ===== *)
(** * Punycode

    Models lib/Demangling/Punycode.cpp: the bias function, the decoder and the
    encoder of RFC 3492 with the code's own digits and delimiter, and the
    conversions from and to UTF-8. [int] and [uint32_t] are kept at 32 bits and
    wrap; a [size_t] operand makes the operation a 64-bit one, as in C++. *)

From S2P Require Import Prelude Nodes ManglingUtils.

(** ** Parameters *)

Definition base : Z := 36.
Definition tmin : Z := 1.
Definition tmax : Z := 26.
Definition skew : Z := 38.
Definition damp : Z := 700.
Definition initial_bias : Z := 72.
Definition initial_n : Z := 128.
Definition delimiter : ascii := "_".

Section Punycode.
Context {S : Type}.

Definition digit_value (digit : Z) : M S ascii :=
  _ <- assert "digit_value" (digit <? base) ;;
  if digit <? 26 then ret (chr (ord "a" + digit))
  else ret (chr (ord "A" - 26 + digit)).

Definition digit_index (value : ascii) : Z :=
  if inRange "a" value "z" then ord value - ord "a"
  else if inRange "A" value "J" then ord value - ord "A" + 26
  else -1.

(** Also accepts 0xD800 - 0xD880, used for non-symbol ASCII characters. *)
Definition isValidUnicodeScalar (s : Z) : bool :=
  (s <? 0xD880) || ((0xE000 <=? s) && (s <=? 0x1FFFFF)).

(** ** Bias adaptation (section 6.1) *)

(** [while (delta > ((base - tmin) * tmax) / 2) { delta /= ..; k += base; }] *)
Fixpoint adapt_loop (fuel : nat) (delta k : Z) : M S (Z * Z) :=
  match fuel with
  | O => fail OutOfFuel
  | Datatypes.S fuel =>
      if Z.quot ((base - tmin) * tmax) 2 <? delta
      then adapt_loop fuel (Z.quot delta (base - tmin)) (k + base)
      else ret (delta, k)
  end.

(** Seven divisions by 35 bring any [int] below the bound. *)
Definition adapt_fuel : nat := 8.

Definition adapt (delta numpoints : Z) (firsttime : bool) : M S Z :=
  let delta := if firsttime then Z.quot delta damp else Z.quot delta 2 in
  _ <- (if numpoints =? 0 then fail (DivisionByZero "adapt") else ret tt) ;;
  let delta := wrap_int (delta + Z.quot delta numpoints) in
  r <- adapt_loop adapt_fuel delta 0 ;;
  let '(delta, k) := r in
  if delta + skew =? 0 then fail (DivisionByZero "adapt")
  else ret (k + Z.quot (wrap_int ((base - tmin + 1) * delta)) (delta + skew)).

(** [k <= bias ? tmin : k >= bias + tmax ? tmax : k - bias] *)
Definition threshold (k bias : Z) : Z :=
  if k <=? bias then tmin else if bias + tmax <=? k then tmax else k - bias.

(** ** Decoding (section 6.2) *)

(** The inner [for (int k = base; ; k += base)]: [None] when the input ends or
    holds a character that is no digit, else the new [i] and the input left. *)
Fixpoint decode_delta (input : str) (i w k bias : Z) : option (Z * str) :=
  match input with
  | [] => None
  | codePoint :: input =>
      let digit := digit_index codePoint in
      if digit <? 0 then None
      else
        let i := wrap_int (i + wrap_int (digit * w)) in
        let t := threshold k bias in
        if digit <? t then Some (i, input)
        else decode_delta input i (wrap_int (w * (base - t))) (wrap_int (k + base)) bias
  end.

(** The [while (!InputPunycode.empty())] loop. Every way out returns [true]
    with the code points decoded so far. *)
Fixpoint decode_loop (fuel : nat) (input : str) (n i bias : Z) (out : list Z)
    : M S (list Z) :=
  match fuel with
  | O => fail OutOfFuel
  | Datatypes.S fuel =>
      match input with
      | [] => ret out
      | _ :: _ =>
          let oldi := i in
          match decode_delta input i 1 base bias with
          | None => ret out
          | Some (i, input) =>
              let size1 := Z.of_nat (length out) + 1 in
              bias <- adapt (wrap_int (i - oldi)) (wrap_int size1) (oldi =? 0) ;;
              let n := wrap_u32 (n + wrap_u64 i / size1) in
              let i := wrap_int (wrap_u64 i mod size1) in
              if n <? 0x80 then ret out
              else
                let out := take (Z.to_nat i) out ++ n :: drop (Z.to_nat i) out in
                decode_loop fuel input n (wrap_int (i + 1)) bias out
          end
      end
  end.

(** [find_last_of(delimiter)]. *)
Fixpoint find_last_of (c : ascii) (s : str) : option nat :=
  match s with
  | [] => None
  | x :: s =>
      match find_last_of c s with
      | Some i => Some (Datatypes.S i)
      | None => if Ascii.eqb x c then Some O else None
      end
  end.

(** The basic code points in front of the last delimiter; the copy stops at a
    non-basic one, which ends the whole decoding. *)
Fixpoint copy_basic (s : str) (out : list Z) : list Z * bool :=
  match s with
  | [] => (out, true)
  | c :: s => if 0x7f <? ord c then (out, false) else copy_basic s (out ++ [ord c])
  end.

(** Always returns [true]: the result is the output vector. *)
Definition decodePunycode (InputPunycode : str) : M S (list Z) :=
  match find_last_of delimiter InputPunycode with
  | Some lastDelimiter =>
      let '(out, ok) := copy_basic (take lastDelimiter InputPunycode) [] in
      if ok then
        let input := drop (lastDelimiter + 1) InputPunycode in
        decode_loop (Datatypes.S (length input)) input initial_n 0 initial_bias out
      else ret out
  | None =>
      decode_loop (Datatypes.S (length InputPunycode)) InputPunycode
        initial_n 0 initial_bias []
  end.

(** ** Encoding (section 6.3) *)

(** The inner [for] that writes [delta] as a variable-length integer. *)
Fixpoint encode_delta (fuel : nat) (q k bias : Z) (out : str) : M S str :=
  match fuel with
  | O => fail OutOfFuel
  | Datatypes.S fuel =>
      let t := threshold k bias in
      if q <? t then d <- digit_value q ;; ret (out ++ [d])
      else
        d <- digit_value (t + Z.rem (q - t) (base - t)) ;;
        encode_delta fuel (Z.quot (q - t) (base - t)) (k + base) bias (out ++ [d])
  end.

(** Every step divides [q] by [base - t], which is at least 10, so an [int]
    is used up in ten steps. *)
Definition encode_delta_fuel : nat := 11.

(** [for (auto c : InputCodePoints) { ... }] for the current [n]. *)
Fixpoint encode_round (input : list Z) (n : Z) (b : nat)
    (delta bias : Z) (h : nat) (out : str) : M S (Z * Z * nat * str) :=
  match input with
  | [] => ret (delta, bias, h, out)
  | c :: input =>
      let delta := if c <? n then wrap_int (delta + 1) else delta in
      if c =? n then
        out <- encode_delta encode_delta_fuel delta base bias out ;;
        bias <- adapt delta (wrap_int (Z.of_nat h + 1)) (h =? b)%nat ;;
        encode_round input n b 0 bias (Datatypes.S h) out
      else encode_round input n b delta bias h out
  end.

(** The minimum code point [>= n], starting from 0x10FFFF. *)
Definition min_code_point (input : list Z) (n : Z) : Z :=
  fold_left (fun m codePoint => if (n <=? codePoint) && (codePoint <? m)
                                then codePoint else m) input 0x10FFFF.

(** [while (h < InputCodePoints.size())] *)
Fixpoint encode_loop (fuel : nat) (input : list Z) (b : nat)
    (n delta bias : Z) (h : nat) (out : str) : M S str :=
  if (h <? length input)%nat then
    match fuel with
    | O => fail OutOfFuel
    | Datatypes.S fuel =>
        let m := min_code_point input n in
        let delta := wrap_int (wrap_u64 (wrap_u64 delta + wrap_u32 (m - n) * (Z.of_nat h + 1))) in
        r <- encode_round input m b delta bias h out ;;
        let '(delta, bias, h, out) := r in
        encode_loop fuel input b (wrap_u32 (m + 1)) (wrap_int (delta + 1)) bias h out
    end
  else ret out.

(** [None] is the [false] return, with [OutPunycode] cleared. *)
Definition encodePunycode (InputCodePoints : list Z) : M S (option str) :=
  if forallb isValidUnicodeScalar InputCodePoints then
    let basic := filter (fun c => c < 0x80) InputCodePoints in
    let b := length basic in
    let out := map chr basic ++ (if (0 <? b)%nat then [delimiter] else []) in
    out <- encode_loop (length InputCodePoints) InputCodePoints b
             initial_n 0 initial_bias b out ;;
    ret (Some out)
  else ret None.

(** ** UTF-8 *)

(** The bytes of one scalar, after the mapping of 0xD800 - 0xD87F to ASCII. *)
Definition utf8_bytes (s : Z) : str :=
  let cont (x : Z) := chr (Z.land (Z.lor x 0x80) 0xBF) in
  if s <? 0x80 then [chr s]
  else if s <? 0x800 then
    [chr (Z.lor (Z.shiftr s 6) 0xC0); cont s]
  else if s <? 0x10000 then
    [chr (Z.lor (Z.shiftr s 12) 0xE0); cont (Z.shiftr s 6); cont s]
  else
    [chr (Z.lor (Z.shiftr s 18) 0xF0); cont (Z.shiftr s 12);
     cont (Z.shiftr s 6); cont s].

(** [None] is the [false] return. *)
Fixpoint encodeToUTF8 (Scalars : list Z) : option str :=
  match Scalars with
  | [] => Some []
  | s :: Scalars =>
      if isValidUnicodeScalar s then
        let s := if (0xD800 <=? s) && (s <? 0xD880) then s - 0xD800 else s in
        match encodeToUTF8 Scalars with
        | Some out => Some (utf8_bytes s ++ out)
        | None => None
        end
      else None
  end.

Definition decodePunycodeUTF8 (InputPunycode : str) : M S (option str) :=
  cps <- decodePunycode InputPunycode ;; ret (encodeToUTF8 cps).

Definition isContinuationByte (unit : ascii) : bool := Z.land (ord unit) 0xC0 =? 0x80.

(** The low bits of a byte: [unit & mask]. *)
Definition bits (unit : ascii) (mask : Z) : Z := Z.land (ord unit) mask.

Fixpoint convertUTF8toUTF32 (InputUTF8 : str) (mapNonSymbolChars : bool)
    : option (list Z) :=
  match InputUTF8 with
  | [] => Some []
  | first :: rest =>
      if ord first <? 0x80 then
        let cp := if isValidSymbolChar first || negb mapNonSymbolChars
                  then ord first else ord first + 0xD800 in
        cons cp <$> convertUTF8toUTF32 rest mapNonSymbolChars
      else if ord first <? 0xC0 then None
      else if ord first <? 0xE0 then
        match rest with
        | second :: rest =>
            if isContinuationByte second then
              cons (Z.lor (Z.shiftl (bits first 0x1F) 6) (bits second 0x3F))
                <$> convertUTF8toUTF32 rest mapNonSymbolChars
            else None
        | _ => None
        end
      else if ord first <? 0xF0 then
        match rest with
        | second :: third :: rest =>
            if isContinuationByte second && isContinuationByte third then
              cons (Z.lor (Z.lor (Z.shiftl (bits first 0xF) 12)
                                 (Z.shiftl (bits second 0x3F) 6))
                          (bits third 0x3F))
                <$> convertUTF8toUTF32 rest mapNonSymbolChars
            else None
        | _ => None
        end
      else if ord first <? 0xF8 then
        match rest with
        | second :: third :: fourth :: rest =>
            if isContinuationByte second && isContinuationByte third
               && isContinuationByte fourth then
              cons (Z.lor (Z.lor (Z.lor (Z.shiftl (bits first 0x7) 18)
                                        (Z.shiftl (bits second 0x3F) 12))
                                 (Z.shiftl (bits third 0x3F) 6))
                          (bits fourth 0x3F))
                <$> convertUTF8toUTF32 rest mapNonSymbolChars
            else None
        | _ => None
        end
      else None
  end.

(** [None] is the [false] return, after which [OutPunycode] is empty. *)
Definition encodePunycodeUTF8 (InputUTF8 : str) (mapNonSymbolChars : bool)
    : M S (option str) :=
  match convertUTF8toUTF32 InputUTF8 mapNonSymbolChars with
  | None => ret None
  | Some InputCodePoints => encodePunycode InputCodePoints
  end.
End Punycode.
