(* ===== verification/PunycodeSpecs.v ===== *)
(** * Punycode: bounds and termination

    The bias adaptation and the decoder end within their fuel on every input;
    the only crash left is the division in [adapt]. *)

From Stdlib Require Import String.
From S2P Require Import Prelude Nodes ManglingUtils Punycode.

Section specs.
Context {S : Type} {E : crash -> Prop}.

(** [n] rounds divide [delta] by [35 ^ n]. *)
Lemma wp_adapt_loop n delta k (Q : Z * Z -> S -> Prop) s :
  delta < 456 * 35 ^ Z.of_nat n ->
  (forall delta' k', delta' <= 455 -> (0 <= delta -> 0 <= delta' <= delta) ->
     k <= k' <= k + 36 * Z.of_nat n -> Q (delta', k') s) ->
  wp E (adapt_loop (Datatypes.S n) delta k) Q s.
Proof.
  revert delta k. induction n as [|n IH]; intros delta k Hd HQ.
  - cbn [adapt_loop]. change (Z.quot ((base - tmin) * tmax) 2) with 455.
    destruct (Z.ltb_spec 455 delta); [cbn in Hd; lia|]. apply wp_ret, HQ; lia.
  - cbn [adapt_loop]. change (Z.quot ((base - tmin) * tmax) 2) with 455.
    change (base - tmin) with 35. unfold base.
    destruct (Z.ltb_spec 455 delta); [|apply wp_ret, HQ; lia].
    rewrite Z.quot_div_nonneg by lia.
    assert (0 <= delta / 35 <= delta) by
      (split; [apply Z.div_pos; lia|apply Z.div_le_upper_bound; lia]).
    apply IH.
    + apply Z.div_lt_upper_bound; [lia|].
      rewrite Nat2Z.inj_succ, Z.pow_succ_r in Hd by lia. lia.
    + intros delta' k' ? ? ?. apply HQ; lia.
Qed.

(** [adapt] ends on every input. *)
Lemma wp_adapt delta numpoints firsttime (Q : Z -> S -> Prop) s :
  E (DivisionByZero "adapt") -> (forall bias, Q bias s) ->
  wp E (adapt delta numpoints firsttime) Q s.
Proof.
  intros HE HQ. unfold adapt. apply wp_bind.
  destruct (numpoints =? 0); [by apply wp_fail|]. apply wp_ret, wp_bind, wp_adapt_loop.
  - match goal with |- wrap_int ?z < _ => pose proof (wrap_int_range z) end.
    assert (2 ^ 31 < 456 * 35 ^ Z.of_nat 7) by reflexivity. lia.
  - intros delta' k' _ _ _. destruct (delta' + skew =? 0); [by apply wp_fail|by apply wp_ret].
Qed.

Lemma decode_delta_shorter input i w k bias i' input' :
  decode_delta input i w k bias = Some (i', input') ->
  (length input' < length input)%nat.
Proof.
  revert i w k. induction input as [|c input IH]; intros i w k; cbn; [done|].
  destruct (digit_index c <? 0); [done|]. destruct (digit_index c <? threshold k bias).
  - intros [= _ <-]. lia.
  - intros H%IH. lia.
Qed.

(** Every round of the decoder consumes a digit. *)
Lemma wp_decode_loop fuel input n i bias out (Q : list Z -> S -> Prop) s :
  (length input < fuel)%nat -> E (DivisionByZero "adapt") -> (forall cps, Q cps s) ->
  wp E (decode_loop fuel input n i bias out) Q s.
Proof.
  intros Hf HE HQ. revert input n i bias out Hf.
  induction fuel as [|fuel IH]; intros input n i bias out Hf; [lia|].
  cbn [decode_loop]. destruct input as [|c input]; [by apply wp_ret|].
  destruct (decode_delta _ _ _ _ _) as [[i' input']|] eqn:Hd; [|by apply wp_ret].
  apply decode_delta_shorter in Hd. apply wp_bind, wp_adapt; [done|intros bias'].
  destruct (_ <? 128); [by apply wp_ret|]. apply IH. cbn in *. lia.
Qed.

Lemma wp_decodePunycode input (Q : list Z -> S -> Prop) s :
  E (DivisionByZero "adapt") -> (forall cps, Q cps s) ->
  wp E (decodePunycode input) Q s.
Proof.
  intros HE HQ. unfold decodePunycode. destruct (find_last_of delimiter input) as [d|].
  - destruct (copy_basic _ _) as [out ok]. destruct ok; [|by apply wp_ret].
    by apply wp_decode_loop; [lia|..].
  - by apply wp_decode_loop; [lia|..].
Qed.

Lemma wp_decodePunycodeUTF8 input (Q : option str -> S -> Prop) s :
  E (DivisionByZero "adapt") -> (forall r, Q r s) ->
  wp E (decodePunycodeUTF8 input) Q s.
Proof.
  intros HE HQ. apply wp_bind, wp_decodePunycode; [done|]. intros cps. by apply wp_ret.
Qed.
End specs.

(** ** The decoder does not touch the state of its caller *)

Section stateless.
Context {S : Type}.

#[export] Instance stateless_adapt_loop fuel delta k : Stateless (S := S) (adapt_loop fuel delta k).
Proof. revert delta k. induction fuel as [|fuel IH]; intros delta k; cbn [adapt_loop]; apply _. Qed.

#[export] Instance stateless_adapt delta numpoints firsttime :
  Stateless (S := S) (adapt delta numpoints firsttime).
Proof. unfold adapt. apply stateless_bind; [apply _|intros _]. apply stateless_bind; [apply _|intros [? ?]; apply _]. Qed.

#[export] Instance stateless_decode_loop fuel input n i bias out :
  Stateless (S := S) (decode_loop fuel input n i bias out).
Proof.
  revert input n i bias out. induction fuel as [|fuel IH]; intros input n i bias out;
    cbn [decode_loop]; [apply _|]. destruct input as [|c input]; [apply _|].
  destruct (decode_delta _ _ _ _ _) as [[i' input']|]; apply _.
Qed.

#[export] Instance stateless_decodePunycode input : Stateless (S := S) (decodePunycode input).
Proof.
  unfold decodePunycode. destruct (find_last_of _ _); [|apply _].
  destruct (copy_basic _ _) as [? []]; apply _.
Qed.

#[export] Instance stateless_decodePunycodeUTF8 input :
  Stateless (S := S) (decodePunycodeUTF8 input).
Proof. unfold decodePunycodeUTF8. apply _. Qed.
End stateless.
