(* ===== verification/IdentifierMangling.v ===== *)
(** * Mangling identifiers and merging substitutions

    Models the templates of include/swift/Demangling/ManglingUtils.h:
    [mangleIdentifier], which writes an identifier with its word substitutions
    or in Punycode, and [SubstitutionMerging]. Both are parametrised by a
    mangler class; the class [Mangler] below is that interface. *)

From Stdlib Require Import String.
From S2P Require Import Prelude Nodes ManglingUtils Punycode.

(** ** The mangler interface *)

Record SubstitutionWord := mkWord { start : nat; length_ : nat }.

(** [WordIdx] is -1 for the dummy at the end of the list. *)
Record WordReplacement := mkRepl { StringPos : nat; WordIdx : Z }.

(** What a template argument [Mangler] provides: [Buffer] (with
    [getBufferStr] and [resetBuffer]), [Words], [UsePunycode] and
    [MaxNumWords]; the laws say that they are fields. [SubstWordsInIdent] is
    local to a call, which starts and ends with it empty. *)
Class Mangler (St : Type) := {
  getBuffer : St -> str;
  setBuffer : str -> St -> St;
  getWords : St -> list SubstitutionWord;
  setWords : list SubstitutionWord -> St -> St;
  UsePunycode : bool;
  MaxNumWords : nat
}.

Class ManglerLaws (St : Type) `{Mangler St} := {
  getBuffer_setBuffer b s : getBuffer (setBuffer b s) = b;
  setBuffer_setBuffer b b' s : setBuffer b (setBuffer b' s) = setBuffer b s;
  getWords_setBuffer b s : getWords (setBuffer b s) = getWords s;
  getBuffer_setWords w s : getBuffer (setWords w s) = getBuffer s;
  getWords_setWords w s : getWords (setWords w s) = w
}.

Section mangleIdentifier.
Context {St : Type} `{Mangler St}.

(** [M.Buffer << s] *)
Definition emit (s : str) : M St unit := modify (fun st => setBuffer (getBuffer st ++ s) st).

(** [resetBuffer(size)]: [DemanglerPrinter::resetSize] with its assertion. *)
Definition resetBuffer (size : nat) : M St unit :=
  b <- gets getBuffer ;;
  _ <- assert "resetSize" (size <=? length b)%nat ;;
  modify (setBuffer (take size b)).

(** [lookupWord(Str, FromWordIdx, ToWordIdx)]: the first of these words whose
    text in [Str] is [Word], or -1. *)
Fixpoint lookupWord_from (Word Str : str) (ws : list SubstitutionWord) (Idx : Z) : Z :=
  match ws with
  | [] => -1
  | w :: ws =>
      if str_eqb Word (substr Str (start w) (length_ w)) then Idx
      else lookupWord_from Word Str ws (Idx + 1)
  end.

Definition lookupWord (Word Str : str) (Words : list SubstitutionWord) (From To : nat) : Z :=
  lookupWord_from Word Str (take (To - From) (drop From Words)) (Z.of_nat From).

(** The search for word substitutions and new words:
    [for (Pos = 0; Pos <= Len; ++Pos)], [n] iterations from the end. *)
Fixpoint scanIdent (n : nat) (ident : str) (WordsInBuffer Pos : nat)
    (wordStartPos : option nat) (Words : list SubstitutionWord)
    (SubstWords : list WordReplacement)
    : M St (list SubstitutionWord * list WordReplacement) :=
  match n with
  | O => ret (Words, SubstWords)
  | S n =>
      let ch := default NUL (ident !! Pos) in
      r <-
        match wordStartPos with
        | Some wstart =>
            if isWordEnd ch (default NUL (ident !! (Pos - 1)%nat)) then
              _ <- assert "mangleIdentifier: Pos > wordStartPos" (wstart <? Pos)%nat ;;
              let wordLen := (Pos - wstart)%nat in
              let Word := substr ident wstart wordLen in
              buf <- gets getBuffer ;;
              let WordIdx := lookupWord Word buf Words 0 WordsInBuffer in
              let WordIdx :=
                if WordIdx <? 0
                then lookupWord Word ident Words WordsInBuffer (length Words)
                else WordIdx in
              if 0 <=? WordIdx then
                _ <- assert "mangleIdentifier: WordIdx < 26" (WordIdx <? 26) ;;
                ret (None, Words, SubstWords ++ [mkRepl wstart WordIdx])
              else if (2 <=? wordLen)%nat && (length Words <? MaxNumWords)%nat then
                ret (None, Words ++ [mkWord wstart wordLen], SubstWords)
              else ret (None, Words, SubstWords)
            else ret (wordStartPos, Words, SubstWords)
        | None => ret (None, Words, SubstWords)
        end ;;
      let '(wordStartPos, Words, SubstWords) := r in
      let wordStartPos :=
        match wordStartPos with
        | None => if isWordStart ch then Some Pos else None
        | Some _ => wordStartPos
        end in
      scanIdent n ident WordsInBuffer (Pos + 1) wordStartPos Words SubstWords
  end.

(** The [do { ... } while (Pos < Repl.StringPos)] that copies a sub-string and
    makes the start positions of its new words relative to the buffer; [n]
    characters are left. *)
Fixpoint copySubstring (n : nat) (ident : str) (Pos WordsInBuffer : nat) : M St nat :=
  match n with
  | O => ret WordsInBuffer
  | S n =>
      Words <- gets getWords ;;
      buf <- gets getBuffer ;;
      WordsInBuffer <-
        match Words !! WordsInBuffer with
        | Some w =>
            if (start w =? Pos)%nat then
              _ <- modify (setWords (<[WordsInBuffer := mkWord (length buf) (length_ w)]> Words)) ;;
              ret (WordsInBuffer + 1)%nat
            else ret WordsInBuffer
        | None => ret WordsInBuffer
        end ;;
      _ <- emit [default NUL (ident !! Pos)] ;;
      copySubstring n ident (Pos + 1) WordsInBuffer
  end.

(** [for (Idx = 0; Idx < End; ++Idx)] over the replacements still to do. *)
Fixpoint emitReplacements (Repls : list WordReplacement) (ident : str)
    (Pos WordsInBuffer : nat) : M St unit :=
  match Repls with
  | [] => ret tt
  | Repl :: Repls =>
      r <-
        (if (Pos <? StringPos Repl)%nat then
           _ <- emit (decimal (Z.of_nat (StringPos Repl - Pos))) ;;
           _ <- assert "mangleIdentifier: first char of sub-string may not be a digit"
                  (negb (isDigit (default NUL (ident !! Pos)))) ;;
           WordsInBuffer <- copySubstring (StringPos Repl - Pos) ident Pos WordsInBuffer ;;
           ret (StringPos Repl, WordsInBuffer)
         else ret (Pos, WordsInBuffer)) ;;
      let '(Pos, WordsInBuffer) := r in
      Pos <-
        (if 0 <=? WordIdx Repl then
           _ <- assert "mangleIdentifier: WordIdx <= WordsInBuffer"
                  (WordIdx Repl <=? Z.of_nat WordsInBuffer) ;;
           Words <- gets getWords ;;
           match Words !! Z.to_nat (WordIdx Repl) with
           | None => fail (OutOfRange "mangleIdentifier: Words")
           | Some w =>
               let Pos := (Pos + length_ w)%nat in
               (* [Idx < End - 2]: another replacement before the dummy. *)
               if (1 <? length Repls)%nat then
                 _ <- emit [chr (WordIdx Repl + ord "a")] ;; ret Pos
               else
                 _ <- emit [chr (WordIdx Repl + ord "A")] ;;
                 _ <- when (Pos =? length ident)%nat (emit (lit "0")) ;;
                 ret Pos
           end
         else ret Pos) ;;
      emitReplacements Repls ident Pos WordsInBuffer
  end.

Definition mangleIdentifier (ident : str) : M St unit :=
  Words <- gets getWords ;;
  let WordsInBuffer := length Words in
  if UsePunycode && needsPunycodeEncoding ident then
    pc <- encodePunycodeUTF8 ident true ;;
    let pcIdent := default [] pc in
    _ <- emit (lit "00") ;;
    _ <- emit (decimal (Z.of_nat (length pcIdent))) ;;
    match pcIdent with
    | [] => fail (OutOfRange "mangleIdentifier: pcIdent[0]")
    | c :: _ =>
        _ <- when (isDigit c || Ascii.eqb c "_") (emit (lit "_")) ;;
        emit pcIdent
    end
  else
    r <- scanIdent (S (length ident)) ident WordsInBuffer 0 None Words [] ;;
    let '(Words, SubstWords) := r in
    _ <- modify (setWords Words) ;;
    _ <- when (negb (length SubstWords =? 0)%nat) (emit (lit "0")) ;;
    emitReplacements (SubstWords ++ [mkRepl (length ident) (-1)]) ident 0 WordsInBuffer.
End mangleIdentifier.

(** ** Merging substitutions *)

Record SubstitutionMerging := mkMerging {
  lastSubstPosition : nat;
  lastSubstSize : nat;
  lastNumSubsts : Z;
  lastSubstIsStandardSubst : bool
}.

Definition MaxRepeatCount : Z := 2048.

Definition noMerging : SubstitutionMerging := mkMerging 0 0 0 false.

(** [clear()] *)
Definition clearMerging (m : SubstitutionMerging) : SubstitutionMerging :=
  mkMerging (lastSubstPosition m) (lastSubstSize m) 0 (lastSubstIsStandardSubst m).

Section tryMergeSubst.
Context {St : Type} `{Mangler St}.

(** [tryMergeSubst(M, Subst, isStandardSubst)]: the result and the new state
    of the merging object. *)
Definition tryMergeSubst (m : SubstitutionMerging) (Subst : ascii) (isStandardSubst : bool)
    : M St (bool * SubstitutionMerging) :=
  _ <- assert "tryMergeSubst: Subst"
         (isUpperLetter Subst || (isStandardSubst && isLowerLetter Subst)) ;;
  BufferStr <- gets getBuffer ;;
  let remembered :=
    (false, mkMerging (length BufferStr + 1) 1 1 isStandardSubst) in
  if (0 <? lastNumSubsts m) && (lastNumSubsts m <? MaxRepeatCount)
     && (length BufferStr =? lastSubstPosition m + lastSubstSize m)%nat
     && Bool.eqb (lastSubstIsStandardSubst m) isStandardSubst
  then
    _ <- assert "tryMergeSubst: lastSubstPosition"
           ((0 <? lastSubstPosition m)%nat && (lastSubstPosition m <? length BufferStr)%nat) ;;
    _ <- assert "tryMergeSubst: lastSubstSize" (0 <? lastSubstSize m)%nat ;;
    let lastSubst := last BufferStr NUL in
    _ <- assert "tryMergeSubst: lastSubst"
           (isUpperLetter lastSubst || (isStandardSubst && isLowerLetter lastSubst)) ;;
    if negb (Ascii.eqb lastSubst Subst) && negb isStandardSubst then
      _ <- resetBuffer (length BufferStr - 1) ;;
      _ <- emit [chr (ord lastSubst - ord "A" + ord "a")] ;;
      _ <- emit [Subst] ;;
      ret (true, mkMerging (length BufferStr) 1 1 (lastSubstIsStandardSubst m))
    else if Ascii.eqb lastSubst Subst then
      let n := lastNumSubsts m + 1 in
      _ <- resetBuffer (lastSubstPosition m) ;;
      _ <- emit (decimal n) ;;
      _ <- emit [Subst] ;;
      b <- gets getBuffer ;;
      ret (true, mkMerging (lastSubstPosition m) (length b - lastSubstPosition m) n
                   (lastSubstIsStandardSubst m))
    else ret remembered
  else ret remembered.
End tryMergeSubst.
