(* ===== verification/Demangler.v ===== *)
(** * The demangler

    Models class [Demangler] (include/swift/Demangling/Demangler.h,
    lib/Demangling/Demangler.cpp): a string is read operator by operator, each
    operator popping nodes from a stack and pushing the node it builds. One
    definition per member function, with its name.

    A [NodePointer] the code returns is an [option Node]; [None] is [nullptr].
    Nodes are values. The code mutates a node in place only while the handler
    that made it (or popped it, for the argument tuple of an old-style function
    type) still holds it: the places are rebound explicitly below. *)

From Stdlib Require Import String.
From S2P Require Import Prelude Nodes ManglingUtils Punycode IdentifierMangling.

(** ** State *)

(** The members of [Demangler]. [NodeStack] has its top first; [Substitutions]
    is in index order; [Words] holds the [NumWords] words found so far.
    [PendingSubstitutions] is initialised and freed but never used. *)
Record Demangler := mkDemangler {
  Text : str;
  Pos : nat;
  IsOldFunctionTypeMangling : bool;
  NodeStack : list Node;
  Substitutions : list Node;
  Words : list str
}.

Definition setPos (p : nat) (s : Demangler) : Demangler :=
  mkDemangler (Text s) p (IsOldFunctionTypeMangling s) (NodeStack s) (Substitutions s) (Words s).
Definition setOld (o : bool) (s : Demangler) : Demangler :=
  mkDemangler (Text s) (Pos s) o (NodeStack s) (Substitutions s) (Words s).
Definition setNodeStack (l : list Node) (s : Demangler) : Demangler :=
  mkDemangler (Text s) (Pos s) (IsOldFunctionTypeMangling s) l (Substitutions s) (Words s).
Definition setSubstitutions (l : list Node) (s : Demangler) : Demangler :=
  mkDemangler (Text s) (Pos s) (IsOldFunctionTypeMangling s) (NodeStack s) l (Words s).
Definition setWordList (l : list str) (s : Demangler) : Demangler :=
  mkDemangler (Text s) (Pos s) (IsOldFunctionTypeMangling s) (NodeStack s) (Substitutions s) l.

Abbreviation DM := (M Demangler).

(** [init(MangledName)]: everything but [IsOldFunctionTypeMangling]. *)
Definition init (MangledName : str) (s : Demangler) : Demangler :=
  mkDemangler MangledName 0 (IsOldFunctionTypeMangling s) [] [] [].

(** A new [Demangler]. *)
Definition newDemangler : Demangler := mkDemangler [] 0 false [] [] [].

(** Every loop below either pops a node or reads a character in each round. *)
Definition loop_fuel (s : Demangler) : nat := S (length (Text s) + length (NodeStack s)).
Definition while_ {A B} (body : A -> DM (A + B)) (a : A) : DM B :=
  fun s => loop (loop_fuel s) body a s.

(** ** Reading characters *)

Definition peekChar : DM ascii := gets (fun s => default NUL (Text s !! Pos s)).

Definition nextChar : DM ascii := fun s =>
  match Text s !! Pos s with
  | None => Ok (NUL, s)
  | Some c => Ok (c, setPos (Pos s + 1) s)
  end.

(** [nextIf(char)] *)
Definition nextIf (c : ascii) : DM bool :=
  p <- peekChar ;;
  if Ascii.eqb p c then _ <- modify (fun s => setPos (Pos s + 1) s) ;; ret true
  else ret false.

(** [nextIf(StringRef)] *)
Definition nextIfStr (t : str) : DM bool := fun s =>
  if startswith (drop (Pos s) (Text s)) t
  then Ok (true, setPos (Pos s + length t) s)
  else Ok (false, s).

Definition pushBack : DM unit :=
  p <- gets Pos ;;
  _ <- assert "pushBack" (0 <? p)%nat ;;
  modify (setPos (p - 1)).

Definition consumeAll : DM str := fun s =>
  Ok (drop (Pos s) (Text s), setPos (length (Text s)) s).

(** ** The node stack *)

Definition pushNode (Nd : Node) : DM unit :=
  modify (fun s => setNodeStack (Nd :: NodeStack s) s).

Definition popNode : DM NodePointer := fun s =>
  match NodeStack s with
  | [] => Ok (None, s)
  | Nd :: rest => Ok (Some Nd, setNodeStack rest s)
  end.

(** [popNode(pred)] *)
Definition popNodeIf (pred : Kind -> bool) : DM NodePointer := fun s =>
  match NodeStack s with
  | [] => Ok (None, s)
  | Nd :: rest =>
      if pred (getKind Nd) then Ok (Some Nd, setNodeStack rest s) else Ok (None, s)
  end.

(** [popNode(kind)] *)
Definition popNodeKind (kind : Kind) : DM NodePointer := popNodeIf (fun k => Kind_eqb k kind).

Definition addSubstitution (Nd : NodePointer) : DM unit :=
  match Nd with
  | Some n => modify (fun s => setSubstitutions (Substitutions s ++ [n]) s)
  | None => ret tt
  end.

(** ** Building nodes *)

(** [P = addChild(P, C)] *)
Definition addChild (Parent Child : NodePointer) : NodePointer :=
  match Parent, Child with
  | Some p, Some c => Some (nodeAddChild p c)
  | _, _ => None
  end.

(** [addChild(P, C);] with the result discarded: [P] keeps its identity. *)
Definition addChildTo (Parent Child : NodePointer) : NodePointer :=
  match Parent, Child with
  | Some p, Some c => Some (nodeAddChild p c)
  | _, _ => Parent
  end.

Definition createWithChild (kind : Kind) (Child : NodePointer) : NodePointer :=
  match Child with
  | Some c => Some (nodeAddChild (createNode kind) c)
  | None => None
  end.

Definition createType (Child : NodePointer) : NodePointer := createWithChild K_Type Child.

(** [createWithChildren] with two, three and four children. *)
Definition createWithChildren2 (kind : Kind) (c1 c2 : NodePointer) : NodePointer :=
  match c1, c2 with
  | Some a, Some b => Some (mkNode kind NoPayload [a; b])
  | _, _ => None
  end.
Definition createWithChildren3 (kind : Kind) (c1 c2 c3 : NodePointer) : NodePointer :=
  match c1, c2, c3 with
  | Some a, Some b, Some c => Some (mkNode kind NoPayload [a; b; c])
  | _, _, _ => None
  end.
Definition createWithChildren4 (kind : Kind) (c1 c2 c3 c4 : NodePointer) : NodePointer :=
  match c1, c2, c3, c4 with
  | Some a, Some b, Some c, Some d => Some (mkNode kind NoPayload [a; b; c; d])
  | _, _, _, _ => None
  end.

Definition createWithPoppedType (kind : Kind) : DM NodePointer :=
  ty <- popNodeKind K_Type ;; ret (createWithChild kind ty).

(** The new node has the payload and the children of the old one. *)
Definition changeKind (Nd : NodePointer) (NewKind : Kind) : NodePointer :=
  match Nd with
  | Some n => Some (mkNode NewKind (payload n) (children n))
  | None => None
  end.

(** [CharVector::append(int)]: [snprintf] into eight bytes, of which one is the
    terminator, and [assert(Length > 0 && Length < MaxIntPrintSize)]. *)
Definition appendInt (v : str) (Number : Z) : DM str :=
  let digits := decimal_signed Number in
  _ <- assert "CharVector::append" ((0 <? length digits)%nat && (length digits <? 8)%nat) ;;
  ret (v ++ digits).

Definition isSome {A} (o : option A) : bool := match o with Some _ => true | None => false end.

(** ** Numbers *)

(** [(10 * num) + (c - '0')] in [int], with its overflow check. *)
Definition demangleNatural_step (num : Z) : DM (Z + Z) :=
  c <- peekChar ;;
  if negb (isDigit c) then ret (inr num)
  else
    let newNum := wrap_int (wrap_int (10 * num) + (ord c - ord "0")) in
    if newNum <? num then ret (inr (-1000))
    else _ <- nextChar ;; ret (inl newNum).

Definition demangleNatural : DM Z :=
  c <- peekChar ;;
  if negb (isDigit c) then ret (-1000) else while_ demangleNatural_step 0.

Definition demangleIndex : DM Z :=
  b <- nextIf "_" ;;
  if b then ret 0
  else
    num <- demangleNatural ;;
    b <- (if 0 <=? num then nextIf "_" else ret false) ;;
    if b then ret (wrap_int (num + 1)) else ret (-1000).

Definition demangleIndexAsNode : DM NodePointer :=
  Idx <- demangleIndex ;;
  if 0 <=? Idx then ret (Some (createNodeIndex K_Number Idx)) else ret None.

(** ** Substitutions *)

(** [while (RepeatCount-- > 1) pushNode(Nd);] *)
Fixpoint pushRepeated (n : nat) (Nd : Node) : DM unit :=
  match n with
  | O => ret tt
  | S n => _ <- pushNode Nd ;; pushRepeated n Nd
  end.

Definition pushMultiSubstitutions (RepeatCount : Z) (SubstIdx : nat) : DM NodePointer :=
  Substs <- gets Substitutions ;;
  match Substs !! SubstIdx with
  | None => ret None
  | Some Nd =>
      if MaxRepeatCount <? RepeatCount then ret None
      else _ <- pushRepeated (Z.to_nat (RepeatCount - 1)) Nd ;; ret (Some Nd)
  end.

(** One round of the [while (true)] of [demangleMultiSubstitutions]. *)
Definition demangleMultiSubstitutions_step (RepeatCount : Z) : DM (Z + NodePointer) :=
  c <- nextChar ;;
  if Ascii.eqb c NUL then ret (inr None)
  else if isLowerLetter c then
    Nd <- pushMultiSubstitutions RepeatCount (Z.to_nat (ord c - ord "a")) ;;
    match Nd with
    | None => ret (inr None)
    | Some n => _ <- pushNode n ;; ret (inl (-1))
    end
  else if isUpperLetter c then
    Nd <- pushMultiSubstitutions RepeatCount (Z.to_nat (ord c - ord "A")) ;;
    ret (inr Nd)
  else if Ascii.eqb c "_" then
    let Idx := wrap_u32 (RepeatCount + 27) in
    Substs <- gets Substitutions ;;
    if Z.of_nat (length Substs) <=? Idx then ret (inr None)
    else ret (inr (Substs !! Z.to_nat Idx))
  else
    _ <- pushBack ;;
    RepeatCount <- demangleNatural ;;
    if RepeatCount <? 0 then ret (inr None) else ret (inl RepeatCount).

Definition demangleMultiSubstitutions : DM NodePointer :=
  while_ demangleMultiSubstitutions_step (-1).

Definition createSwiftType (typeKind : Kind) (name : str) : NodePointer :=
  createType (createWithChildren2 typeKind
    (Some (createNodeText K_Module STDLIB_NAME))
    (Some (createNodeText K_Identifier name))).

Definition createStandardSubstitution (Subst : ascii) : NodePointer :=
  match find (fun e => Ascii.eqb Subst e.1.2) STANDARD_TYPES with
  | Some (k, _, name) => createSwiftType k name
  | None => None
  end.

Definition demangleStandardSubstitution : DM NodePointer :=
  c <- nextChar ;;
  switch c
    [ "o" ~> ret (Some (createNodeText K_Module MANGLING_MODULE_OBJC));
      "C" ~> ret (Some (createNodeText K_Module MANGLING_MODULE_CLANG_IMPORTER));
      "g" ~>
        (ty <- popNodeKind K_Type ;;
         let OptionalTy :=
           createType (createWithChildren2 K_BoundGenericEnum
             (createSwiftType K_Enum (lit "Optional"))
             (createWithChild K_TypeList ty)) in
         _ <- addSubstitution OptionalTy ;;
         ret OptionalTy) ]
    (_ <- pushBack ;;
     RepeatCount <- demangleNatural ;;
     if MaxRepeatCount <? RepeatCount then ret None
     else
       c <- nextChar ;;
       match createStandardSubstitution c with
       | Some Nd => _ <- pushRepeated (Z.to_nat (RepeatCount - 1)) Nd ;; ret (Some Nd)
       | None => ret None
       end).

(** ** Identifiers *)

(** The [for (Idx = 0; Idx <= End; ++Idx)] that records the words of a slice;
    [n] iterations are left. *)
Fixpoint scanWords (n : nat) (Slice : str) (Idx : nat) (wordStartPos : option nat)
    (Words : list str) : list str :=
  match n with
  | O => Words
  | S n =>
      let c := default NUL (Slice !! Idx) in
      let '(wordStartPos, Words) :=
        match wordStartPos with
        | Some wstart =>
            if isWordEnd c (default NUL (Slice !! (Idx - 1)%nat)) then
              (None,
               if (2 <=? Idx - wstart)%nat && (length Words <? 26)%nat
               then Words ++ [substr Slice wstart (Idx - wstart)] else Words)
            else (wordStartPos, Words)
        | None => (None, Words)
        end in
      let wordStartPos :=
        match wordStartPos with
        | None => if isWordStart c then Some Idx else None
        | Some _ => wordStartPos
        end in
      scanWords n Slice (Idx + 1) wordStartPos Words
  end.

(** One round of [while (hasWordSubsts && isLetter(peekChar()))]: the state is
    [hasWordSubsts] and [Identifier]; leaving with [None] is [return nullptr]. *)
Definition wordSubst_step (st : bool * str) : DM (bool * str + option (bool * str)) :=
  let '(hasWordSubsts, Identifier) := st in
  c <- peekChar ;;
  if hasWordSubsts && isLetter c then
    c <- nextChar ;;
    let WordIdx := if isLowerLetter c then ord c - ord "a" else ord c - ord "A" in
    _ <- assert "demangleIdentifier: isUpperLetter" (isLowerLetter c || isUpperLetter c) ;;
    let hasWordSubsts := isLowerLetter c in
    ws <- gets Words ;;
    match ws !! Z.to_nat WordIdx with
    | None => ret (inr None)
    | Some Slice =>
        _ <- assert "demangleIdentifier: WordIdx < MaxNumWords" (WordIdx <? 26) ;;
        ret (inl (hasWordSubsts, Identifier ++ Slice))
    end
  else ret (inr (Some (hasWordSubsts, Identifier))).

(** One round of the [do { ... } while (hasWordSubsts)]: [inr None] is
    [return nullptr], [inr (Some Identifier)] leaves the loop. *)
Definition demangleIdentifier_step (isPunycoded : bool) (st : bool * str)
    : DM (bool * str + option str) :=
  r <- while_ wordSubst_step st ;;
  match r with
  | None => ret (inr None)
  | Some (hasWordSubsts, Identifier) =>
      zero <- nextIf "0" ;;
      if zero then ret (inr (Some Identifier))
      else
        numChars <- demangleNatural ;;
        if numChars <=? 0 then ret (inr None)
        else
          _ <- (if isPunycoded then nextIf "_" else ret false) ;;
          pos <- gets Pos ;;
          text <- gets Text ;;
          if Z.of_nat (length text) <? Z.of_nat pos + numChars then ret (inr None)
          else
            let n := Z.to_nat numChars in
            let Slice := substr text pos n in
            r <- (if isPunycoded then
                    decoded <- decodePunycodeUTF8 Slice ;;
                    match decoded with
                    | None => ret None
                    | Some PunycodedString => ret (Some (Identifier ++ PunycodedString))
                    end
                  else
                    _ <- modify (fun s =>
                           setWordList (scanWords (S (length Slice)) Slice 0 None (Words s)) s) ;;
                    ret (Some (Identifier ++ Slice))) ;;
            match r with
            | None => ret (inr None)
            | Some Identifier =>
                _ <- modify (fun s => setPos (Pos s + n) s) ;;
                if hasWordSubsts then ret (inl (hasWordSubsts, Identifier))
                else ret (inr (Some Identifier))
            end
  end.

Definition demangleIdentifier : DM NodePointer :=
  c <- peekChar ;;
  if negb (isDigit c) then ret None
  else
    flags <-
      (if Ascii.eqb c "0" then
         _ <- nextChar ;;
         c <- peekChar ;;
         if Ascii.eqb c "0" then _ <- nextChar ;; ret (false, true)
         else ret (true, false)
       else ret (false, false)) ;;
    let '(hasWordSubsts, isPunycoded) := flags in
    r <- while_ (demangleIdentifier_step isPunycoded) (hasWordSubsts, []) ;;
    match r with
    | None => ret None
    | Some Identifier =>
        if (length Identifier =? 0)%nat then ret None
        else
          let Ident := createNodeText K_Identifier Identifier in
          _ <- addSubstitution (Some Ident) ;;
          ret (Some Ident)
    end.

Definition op_char_table : str := lit "& @/= >    <*!|+?%-~   ^ .".

(** The [for] over the characters of the identifier; [None] is
    [return nullptr]. Bytes from 128 on are the negative [signed char]s. *)
Fixpoint translateToOperator (text : str) : option str :=
  match text with
  | [] => Some []
  | c :: text =>
      if 128 <=? ord c then cons c <$> translateToOperator text
      else if negb (isLowerLetter c) then None
      else
        let o := default NUL (op_char_table !! Z.to_nat (ord c - ord "a")) in
        if Ascii.eqb o " " then None else cons o <$> translateToOperator text
  end.

Definition demangleOperatorIdentifier : DM NodePointer :=
  Ident <- popNodeKind K_Identifier ;;
  match Ident with
  | None => ret None
  | Some id =>
      text <- getText id ;;
      match translateToOperator text with
      | None => ret None
      | Some OpStr =>
          c <- nextChar ;;
          switch c
            [ "i" ~> ret (Some (createNodeText K_InfixOperator OpStr));
              "p" ~> ret (Some (createNodeText K_PrefixOperator OpStr));
              "P" ~> ret (Some (createNodeText K_PostfixOperator OpStr)) ]
            (ret None)
      end
  end.

Definition demangleLocalIdentifier : DM NodePointer :=
  b <- nextIf "L" ;;
  if b then
    discriminator <- popNodeKind K_Identifier ;;
    name <- popNodeIf isDeclName ;;
    ret (createWithChildren2 K_PrivateDeclName discriminator name)
  else
    b <- nextIf "l" ;;
    if b then
      discriminator <- popNodeKind K_Identifier ;;
      ret (createWithChild K_PrivateDeclName discriminator)
    else
      discriminator <- demangleIndexAsNode ;;
      name <- popNodeIf isDeclName ;;
      ret (createWithChildren2 K_LocalDeclName discriminator name).

(** ** Contexts and types *)

Definition popModule : DM NodePointer :=
  Ident <- popNodeKind K_Identifier ;;
  if isSome Ident then ret (changeKind Ident K_Module) else popNodeKind K_Module.

Definition popContext : DM NodePointer :=
  Mod <- popModule ;;
  if isSome Mod then ret Mod
  else
    Ty <- popNodeKind K_Type ;;
    match Ty with
    | Some ty =>
        if negb (getNumChildren ty =? 1)%nat then ret None
        else
          Child <- getFirstChild ty ;;
          if negb (isContext (getKind Child)) then ret None else ret (Some Child)
    | None => popNodeIf isContext
    end.

Definition popTypeAndGetChild : DM NodePointer :=
  Ty <- popNodeKind K_Type ;;
  match Ty with
  | Some ty =>
      if negb (getNumChildren ty =? 1)%nat then ret None
      else c <- getFirstChild ty ;; ret (Some c)
  | None => ret None
  end.

Definition popTypeAndGetAnyGeneric : DM NodePointer :=
  Child <- popTypeAndGetChild ;;
  match Child with
  | Some c => if isAnyGeneric (getKind c) then ret Child else ret None
  | None => ret None
  end.

(** The tail of the cases of [demangleBuiltinType] that build a name. *)
Definition BuiltinTypeName (name : str) : NodePointer :=
  createType (Some (createNodeText K_BuiltinTypeName name)).

Definition demangleBuiltinType : DM NodePointer :=
  c <- nextChar ;;
  switch c
    [ "b" ~> ret (BuiltinTypeName (lit "Builtin.BridgeObject"));
      "B" ~> ret (BuiltinTypeName (lit "Builtin.UnsafeValueBuffer"));
      "f" ~>
        (i <- demangleIndex ;;
         let size := wrap_int (i - 1) in
         if size <=? 0 then ret None
         else name <- appendInt (lit "Builtin.Float") size ;; ret (BuiltinTypeName name));
      "i" ~>
        (i <- demangleIndex ;;
         let size := wrap_int (i - 1) in
         if size <=? 0 then ret None
         else name <- appendInt (lit "Builtin.Int") size ;; ret (BuiltinTypeName name));
      "v" ~>
        (i <- demangleIndex ;;
         let elts := wrap_int (i - 1) in
         if elts <=? 0 then ret None
         else
           EltType <- popTypeAndGetChild ;;
           match EltType with
           | None => ret None
           | Some elt =>
               if negb (Kind_eqb (getKind elt) K_BuiltinTypeName) then ret None
               else
                 text <- getText elt ;;
                 if negb (startswith text (lit "Builtin.")) then ret None
                 else
                   name <- appendInt (lit "Builtin.Vec") elts ;;
                   ret (BuiltinTypeName
                          (name ++ lit "x" ++ drop (length (lit "Builtin.")) text))
           end);
      "O" ~> ret (BuiltinTypeName (lit "Builtin.UnknownObject"));
      "o" ~> ret (BuiltinTypeName (lit "Builtin.NativeObject"));
      "p" ~> ret (BuiltinTypeName (lit "Builtin.RawPointer"));
      "t" ~> ret (BuiltinTypeName (lit "Builtin.SILToken"));
      "w" ~> ret (BuiltinTypeName (lit "Builtin.Word")) ]
    (ret None).

Definition demangleAnyGenericType (kind : Kind) : DM NodePointer :=
  Name <- popNodeIf isDeclName ;;
  Ctx <- popContext ;;
  let NTy := createType (createWithChildren2 kind Ctx Name) in
  _ <- addSubstitution NTy ;;
  ret NTy.

Definition demangleExtensionContext : DM NodePointer :=
  GenSig <- popNodeKind K_DependentGenericSignature ;;
  Module_ <- popModule ;;
  Type_ <- popTypeAndGetAnyGeneric ;;
  let Ext := createWithChildren2 K_Extension Module_ Type_ in
  ret (if isSome GenSig then addChild Ext GenSig else Ext).

(** ** Function types, labels, tuples and lists *)

Definition popFunctionParams (kind : Kind) : DM NodePointer :=
  e <- popNodeKind K_EmptyList ;;
  ParamsType <-
    (if isSome e then ret (createType (Some (createNode K_Tuple)))
     else popNodeKind K_Type) ;;
  match ParamsType with
  | Some params =>
      if Kind_eqb kind K_ArgumentTuple then
        Params <- getFirstChild params ;;
        let NumParams :=
          if Kind_eqb (getKind Params) K_Tuple then Z.of_nat (getNumChildren Params) else 1 in
        ret (addChild (Some (createNodeIndex kind NumParams)) ParamsType)
      else ret (addChild (Some (createNode kind)) ParamsType)
  | None => ret None
  end.

Definition popFunctionType (kind : Kind) : DM NodePointer :=
  throws <- popNodeKind K_ThrowsAnnotation ;;
  let FuncType := addChildTo (Some (createNode kind)) throws in
  args <- popFunctionParams K_ArgumentTuple ;;
  let FuncType := addChild FuncType args in
  result <- popFunctionParams K_ReturnType ;;
  let FuncType := addChild FuncType result in
  ret (createType FuncType).

(** The lambda [getChildIf]: the first child of this kind and its position. *)
Definition getChildIf (Nd : Node) (filterBy : Kind) : option (Node * nat) :=
  match list_find (fun c => getKind c = filterBy) (children Nd) with
  | Some (i, c) => Some (c, i)
  | None => None
  end.

(** The lambda [getLabel]: the label, and the parameter tuple [Params], from
    which an old-style label is removed. *)
Definition getLabel (Params : Node) (Idx : nat) : DM (NodePointer * Node) :=
  old <- gets IsOldFunctionTypeMangling ;;
  if (old : bool) then
    Param <- getChild Params Idx ;;
    match getChildIf Param K_TupleElementName with
    | Some (Label, i) =>
        Param' <- removeChildAt Param i ;;
        text <- getText Label ;;
        ret (Some (createNodeText K_Identifier text), setChild Params Idx Param')
    | None => ret (Some (createNode K_FirstElementMarker), Params)
    end
  else Label <- popNode ;; ret (Label, Params).

(** The [for (i = 0; i != n; ++i)] over the labels; [None] is
    [return nullptr]. *)
Fixpoint popLabels (n i : nat) (Params LabelList : Node) (hasLabels : bool)
    : DM (option (Node * bool) * Node) :=
  match n with
  | O => ret (Some (LabelList, hasLabels), Params)
  | S n =>
      r <- getLabel Params i ;;
      let '(Label, Params) := r in
      match Label with
      | None => ret (None, Params)
      | Some label =>
          if negb (Kind_eqb (getKind label) K_Identifier)
             && negb (Kind_eqb (getKind label) K_FirstElementMarker)
          then ret (None, Params)
          else popLabels n (i + 1) Params (nodeAddChild LabelList label)
                 (hasLabels || negb (Kind_eqb (getKind label) K_FirstElementMarker))
      end
  end.

(** Returns the label list and the type, whose argument tuple has lost its
    labels when the mangling is old-style. *)
Definition popFunctionParamLabels (Type_ : NodePointer) : DM (NodePointer * NodePointer) :=
  old <- gets IsOldFunctionTypeMangling ;;
  e <- (if (old : bool) then ret None else popNodeKind K_EmptyList) ;;
  if isSome e then ret (Some (createNode K_LabelList), Type_) else
  match Type_ with
  | None => ret (None, Type_)
  | Some type =>
      if negb (Kind_eqb (getKind type) K_Type) then ret (None, Type_) else
      FirstType <- getFirstChild type ;;
      let generic := Kind_eqb (getKind FirstType) K_DependentGenericType in
      GenericBody <- (if generic then getChild FirstType 1 else ret FirstType) ;;
      FuncType <- (if generic then getFirstChild GenericBody else ret FirstType) ;;
      if negb (Kind_eqb (getKind FuncType) K_FunctionType) then ret (None, Type_) else
      First <- getFirstChild FuncType ;;
      let throws := Kind_eqb (getKind First) K_ThrowsAnnotation in
      ParameterType <- (if throws then getChild FuncType 1 else ret First) ;;
      _ <- assert "popFunctionParamLabels: ArgumentTuple"
             (Kind_eqb (getKind ParameterType) K_ArgumentTuple) ;;
      index <- getIndex ParameterType ;;
      if index =? 0 then ret (None, Type_) else
      ParamsTy <- getFirstChild ParameterType ;;
      Tuple <- getFirstChild ParamsTy ;;
      if old && negb (Kind_eqb (getKind Tuple) K_Tuple)
      then ret (Some (createNode K_LabelList), Type_) else
      r <- popLabels (Z.to_nat (wrap_u32 index)) 0 Tuple (createNode K_LabelList) false ;;
      let '(labels, Tuple') := r in
      let Type' :=
        if (old : bool) then
          let ParameterType' := setChild ParameterType 0 (setChild ParamsTy 0 Tuple') in
          let FuncType' := setChild FuncType (if throws then 1 else 0)%nat ParameterType' in
          let FirstType' :=
            if generic then setChild FirstType 1 (setChild GenericBody 0 FuncType')
            else FuncType' in
          Some (setChild type 0 FirstType')
        else Type_ in
      match labels with
      | None => ret (None, Type')
      | Some (LabelList, hasLabels) =>
          if negb hasLabels then ret (Some (createNode K_LabelList), Type')
          else if (old : bool) then ret (Some LabelList, Type')
          else LabelList <- reverseChildren LabelList 0 ;; ret (Some LabelList, Type')
      end
  end.

(** One round of the [do { ... } while (!firstElem)] of [popTuple]. *)
Definition popTuple_step (Root : Node) : DM (Node + NodePointer) :=
  marker <- popNodeKind K_FirstElementMarker ;;
  let firstElem := isSome marker in
  variadic <- popNodeKind K_VariadicMarker ;;
  let TupleElmt := addChildTo (Some (createNode K_TupleElement)) variadic in
  Ident <- popNodeKind K_Identifier ;;
  TupleElmt <-
    match Ident with
    | Some id =>
        text <- getText id ;;
        ret (addChild TupleElmt (Some (createNodeText K_TupleElementName text)))
    | None => ret TupleElmt
    end ;;
  Ty <- popNodeKind K_Type ;;
  match addChild TupleElmt Ty with
  | None => ret (inr None)
  | Some elmt =>
      let Root := nodeAddChild Root elmt in
      if firstElem then ret (inr (Some Root)) else ret (inl Root)
  end.

Definition popTuple : DM NodePointer :=
  let Root := createNode K_Tuple in
  e <- popNodeKind K_EmptyList ;;
  if isSome e then ret (createType (Some Root))
  else
    r <- while_ popTuple_step Root ;;
    match r with
    | None => ret None
    | Some Root => Root <- reverseChildren Root 0 ;; ret (createType (Some Root))
    end.

(** One round of the [do { ... } while (!firstElem)] of [popTypeList]. *)
Definition popTypeList_step (Root : Node) : DM (Node + NodePointer) :=
  marker <- popNodeKind K_FirstElementMarker ;;
  Ty <- popNodeKind K_Type ;;
  match Ty with
  | None => ret (inr None)
  | Some ty =>
      let Root := nodeAddChild Root ty in
      if isSome marker then ret (inr (Some Root)) else ret (inl Root)
  end.

Definition popTypeList : DM NodePointer :=
  let Root := createNode K_TypeList in
  e <- popNodeKind K_EmptyList ;;
  if isSome e then ret (Some Root)
  else
    r <- while_ popTypeList_step Root ;;
    match r with
    | None => ret None
    | Some Root => Root <- reverseChildren Root 0 ;; ret (Some Root)
    end.

Definition popProtocol : DM NodePointer :=
  Name <- popNodeIf isDeclName ;;
  Ctx <- popContext ;;
  ret (createType (createWithChildren2 K_Protocol Ctx Name)).

Definition demanglePlainFunction : DM NodePointer :=
  GenSig <- popNodeKind K_DependentGenericSignature ;;
  Type_ <- popFunctionType K_FunctionType ;;
  r <- popFunctionParamLabels Type_ ;;
  let '(LabelList, Type_) := r in
  let Type_ :=
    if isSome GenSig
    then createType (createWithChildren2 K_DependentGenericType GenSig Type_)
    else Type_ in
  Name <- popNodeIf isDeclName ;;
  Ctx <- popContext ;;
  if isSome LabelList then ret (createWithChildren4 K_Function Ctx Name LabelList Type_)
  else ret (createWithChildren3 K_Function Ctx Name Type_).

Definition demangleTypeMangling : DM NodePointer :=
  Type_ <- popNodeKind K_Type ;;
  r <- popFunctionParamLabels Type_ ;;
  let '(LabelList, Type_) := r in
  let TypeMangling := addChildTo (Some (createNode K_TypeMangling)) LabelList in
  ret (addChild TypeMangling Type_).

(** ** Bound generic types *)

(** One type list: [while (NodePointer Ty = popNode(Type)) TList->addChild(Ty)] *)
Definition popTypes_step (TList : Node) : DM (Node + Node) :=
  Ty <- popNodeKind K_Type ;;
  match Ty with
  | Some ty => ret (inl (nodeAddChild TList ty))
  | None => ret (inr TList)
  end.

(** One round of the [for (;;)] of [demangleBoundGenericType]. *)
Definition popTypeLists_step (TypeListList : list Node)
    : DM (list Node + option (list Node)) :=
  TList <- while_ popTypes_step (createNode K_TypeList) ;;
  TList <- reverseChildren TList 0 ;;
  let TypeListList := TypeListList ++ [TList] in
  e <- popNodeKind K_EmptyList ;;
  if isSome e then ret (inr (Some TypeListList))
  else
    m <- popNodeKind K_FirstElementMarker ;;
    if isSome m then ret (inl TypeListList) else ret (inr None).

(** [TypeLists] are the lists from [TypeListIdx] on. *)
Fixpoint demangleBoundGenericArgs (Nominal_ : NodePointer) (TypeLists : list Node)
    : DM NodePointer :=
  match Nominal_ with
  | None => ret None
  | Some Nominal =>
      if (getNumChildren Nominal <? 2)%nat then ret None else
      match TypeLists with
      | [] => ret None
      | args :: TypeLists =>
          Context_ <- getFirstChild Nominal ;;
          Nominal_ <-
            match TypeLists with
            | [] => ret (Some Nominal)
            | _ :: _ =>
                BoundParent <-
                  (if Kind_eqb (getKind Context_) K_Extension then
                     ExtType <- getChild Context_ 1 ;;
                     BoundParent <- demangleBoundGenericArgs (Some ExtType) TypeLists ;;
                     Module_ <- getFirstChild Context_ ;;
                     let BoundParent :=
                       createWithChildren2 K_Extension (Some Module_) BoundParent in
                     if (getNumChildren Context_ =? 3)%nat then
                       GenSig <- getChild Context_ 2 ;;
                       ret (addChildTo BoundParent (Some GenSig))
                     else ret BoundParent
                   else demangleBoundGenericArgs (Some Context_) TypeLists) ;;
                Name <- getChild Nominal 1 ;;
                ret (createWithChildren2 (getKind Nominal) BoundParent (Some Name))
            end ;;
          match Nominal_ with
          | None => ret None
          | Some Nominal =>
              if (getNumChildren args =? 0)%nat then ret (Some Nominal)
              else
                match getKind Nominal with
                | K_Class =>
                    ret (createWithChildren2 K_BoundGenericClass
                           (createType (Some Nominal)) (Some args))
                | K_Structure =>
                    ret (createWithChildren2 K_BoundGenericStructure
                           (createType (Some Nominal)) (Some args))
                | K_Enum =>
                    ret (createWithChildren2 K_BoundGenericEnum
                           (createType (Some Nominal)) (Some args))
                | _ => ret None
                end
          end
      end
  end.

Definition demangleBoundGenericType : DM NodePointer :=
  r <- while_ popTypeLists_step [] ;;
  match r with
  | None => ret None
  | Some TypeListList =>
      Nominal <- popTypeAndGetAnyGeneric ;;
      NTy <- demangleBoundGenericArgs Nominal TypeListList ;;
      let NTy := createType NTy in
      _ <- addSubstitution NTy ;;
      ret NTy
  end.

(** ** Lowered function types *)

(** The tail of the cases of the two convention functions. *)
Definition implConvention (kind : Kind) (attr : str) : NodePointer :=
  createWithChild kind (Some (createNodeText K_ImplConvention attr)).

Definition demangleImplParamConvention : DM NodePointer :=
  let param attr := ret (implConvention K_ImplParameter (lit attr)) in
  c <- nextChar ;;
  switch c
    [ "i" ~> param "@in"%string; "c" ~> param "@in_constant"%string;
      "l" ~> param "@inout"%string; "b" ~> param "@inout_aliasable"%string;
      "n" ~> param "@in_guaranteed"%string; "x" ~> param "@owned"%string;
      "g" ~> param "@guaranteed"%string; "e" ~> param "@deallocating"%string;
      "y" ~> param "@unowned"%string ]
    (_ <- pushBack ;; ret None).

Definition demangleImplResultConvention (ConvKind : Kind) : DM NodePointer :=
  let result attr := ret (implConvention ConvKind (lit attr)) in
  c <- nextChar ;;
  switch c
    [ "r" ~> result "@out"%string; "o" ~> result "@owned"%string;
      "d" ~> result "@unowned"%string; "u" ~> result "@unowned_inner_pointer"%string;
      "a" ~> result "@autoreleased"%string ]
    (_ <- pushBack ;; ret None).

(** One round of [while (NodePointer Param = convention()) ...]: [type] and
    [NumTypesToAdd]. *)
Definition implConventions_step (convention : DM NodePointer) (st : Node * nat)
    : DM (Node * nat + Node * nat) :=
  let '(type, NumTypesToAdd) := st in
  Param <- convention ;;
  match Param with
  | Some p => ret (inl (nodeAddChild type p, (NumTypesToAdd + 1)%nat))
  | None => ret (inr st)
  end.

(** [for (Idx = 0; Idx < NumTypesToAdd; ++Idx)], [n] rounds left: the popped
    type goes to the child [Idx] from the end. [None] is [return nullptr]. *)
Fixpoint addImplTypes (n Idx : nat) (type : Node) : DM NodePointer :=
  match n with
  | O => ret (Some type)
  | S n =>
      ConvTy <- popNodeKind K_Type ;;
      match ConvTy with
      | None => ret None
      | Some ty =>
          let i := (getNumChildren type - Idx - 1)%nat in
          child <- getChild type i ;;
          addImplTypes n (Idx + 1) (setChild type i (nodeAddChild child ty))
      end
  end.

Definition implCalleeConvention (c : ascii) : option str :=
  switch c
    [ "y" ~> Some (lit "@callee_unowned"); "g" ~> Some (lit "@callee_guaranteed");
      "x" ~> Some (lit "@callee_owned"); "t" ~> Some (lit "@convention(thin)") ]
    None.

Definition implFunctionAttribute (c : ascii) : option str :=
  switch c
    [ "B" ~> Some (lit "@convention(block)"); "C" ~> Some (lit "@convention(c)");
      "M" ~> Some (lit "@convention(method)"); "O" ~> Some (lit "@convention(objc_method)");
      "K" ~> Some (lit "@convention(closure)");
      "W" ~> Some (lit "@convention(witness_method)") ]
    None.

Definition demangleImplFunctionType : DM NodePointer :=
  let type := createNode K_ImplFunctionType in
  GenSig <- popNodeKind K_DependentGenericSignature ;;
  pseudo <- (if isSome GenSig then nextIf "P" else ret false) ;;
  let GenSig := if pseudo then changeKind GenSig K_DependentPseudogenericSignature else GenSig in
  escaping <- nextIf "e" ;;
  let type := if (escaping : bool) then nodeAddChild type (createNode K_ImplEscaping) else type in
  c <- nextChar ;;
  match implCalleeConvention c with
  | None => ret None
  | Some CAttr =>
      let type := nodeAddChild type (createNodeText K_ImplConvention CAttr) in
      c <- nextChar ;;
      type <-
        match implFunctionAttribute c with
        | Some FAttr => ret (nodeAddChild type (createNodeText K_ImplFunctionAttribute FAttr))
        | None => _ <- pushBack ;; ret type
        end ;;
      let type := default type (addChildTo (Some type) GenSig) in
      r <- while_ (implConventions_step demangleImplParamConvention) (type, 0%nat) ;;
      r <- while_ (implConventions_step (demangleImplResultConvention K_ImplResult)) r ;;
      let '(type, NumTypesToAdd) := r in
      z <- nextIf "z" ;;
      r <-
        (if (z : bool) then
           ErrorResult <- demangleImplResultConvention K_ImplErrorResult ;;
           match ErrorResult with
           | None => ret None
           | Some e => ret (Some (nodeAddChild type e, (NumTypesToAdd + 1)%nat))
           end
         else ret (Some (type, NumTypesToAdd))) ;;
      match r with
      | None => ret None
      | Some (type, NumTypesToAdd) =>
          u <- nextIf "_" ;;
          if negb u then ret None
          else
            type <- addImplTypes NumTypesToAdd 0 type ;;
            ret (createType type)
      end
  end.

(** ** Generic parameters, associated types and conformances *)

(** The [do { ... } while (idxChar)] that writes an index in base 26; an [int]
    has at most seven such digits. *)
Fixpoint indexName (fuel : nat) (idxChar : Z) (name : str) : str :=
  match fuel with
  | O => name
  | S fuel =>
      let name := name ++ [chr (ord "A" + idxChar mod 26)] in
      if idxChar / 26 =? 0 then name else indexName fuel (idxChar / 26) name
  end.

Definition getDependentGenericParamType (depth index : Z) : DM NodePointer :=
  if (depth <? 0) || (index <? 0) then ret None
  else
    let name := indexName 7 index [] in
    name <- (if negb (depth =? 0) then appendInt name depth else ret name) ;;
    ret (Some (mkNode K_DependentGenericParamType (TextPayload name)
                 [createNodeIndex K_Index depth; createNodeIndex K_Index index])).

Definition demangleGenericParamIndex : DM NodePointer :=
  d <- nextIf "d" ;;
  if (d : bool) then
    depth <- demangleIndex ;;
    index <- demangleIndex ;;
    getDependentGenericParamType (wrap_int (depth + 1)) index
  else
    z <- nextIf "z" ;;
    if (z : bool) then getDependentGenericParamType 0 0
    else
      index <- demangleIndex ;;
      getDependentGenericParamType 0 (wrap_int (index + 1)).

Definition popAssocTypeName : DM NodePointer :=
  Proto <- popNodeKind K_Type ;;
  bad <-
    match Proto with
    | Some p => c <- getFirstChild p ;; ret (negb (Kind_eqb (getKind c) K_Protocol))
    | None => ret false
    end ;;
  if (bad : bool) then ret None
  else
    Id <- popNodeKind K_Identifier ;;
    let AssocTy := changeKind Id K_DependentAssociatedTypeRef in
    ret (addChildTo AssocTy Proto).

Definition demangleAssociatedTypeSimple (GenericParamIdx : NodePointer) : DM NodePointer :=
  let GPI := createType GenericParamIdx in
  ATName <- popAssocTypeName ;;
  ret (createType (createWithChildren2 K_DependentMemberType GPI ATName)).

(** One round of the [do { ... } while (!firstElem)]; the names are kept with
    the last one popped first. *)
Definition popAssocTypeNames_step (AssocTyNames : list Node)
    : DM (list Node + option (list Node)) :=
  marker <- popNodeKind K_FirstElementMarker ;;
  AssocTyName <- popAssocTypeName ;;
  match AssocTyName with
  | None => ret (inr None)
  | Some name =>
      if isSome marker then ret (inr (Some (name :: AssocTyNames)))
      else ret (inl (name :: AssocTyNames))
  end.

(** [while (AssocTy = AssocTyNames.pop_back_val())] *)
Fixpoint buildMemberType (AssocTyNames : list Node) (Base : NodePointer) : NodePointer :=
  match AssocTyNames with
  | [] => Base
  | AssocTy :: AssocTyNames =>
      let depTy := addChild (Some (createNode K_DependentMemberType)) (createType Base) in
      buildMemberType AssocTyNames (addChild depTy (Some AssocTy))
  end.

Definition demangleAssociatedTypeCompound (GenericParamIdx : NodePointer) : DM NodePointer :=
  r <- while_ popAssocTypeNames_step [] ;;
  match r with
  | None => ret None
  | Some AssocTyNames => ret (createType (buildMemberType AssocTyNames GenericParamIdx))
  end.

Definition popProtocolConformance : DM NodePointer :=
  GenSig <- popNodeKind K_DependentGenericSignature ;;
  Module_ <- popModule ;;
  Proto <- popProtocol ;;
  Type_ <- popNodeKind K_Type ;;
  r <-
    (if isSome Type_ then ret (Type_, None)
     else
       Ident <- popNodeKind K_Identifier ;;
       Type_ <- popNodeKind K_Type ;;
       ret (Type_, Ident)) ;;
  let '(Type_, Ident) := r in
  let Type_ :=
    if isSome GenSig
    then createType (createWithChildren2 K_DependentGenericType GenSig Type_)
    else Type_ in
  let Conf := createWithChildren3 K_ProtocolConformance Type_ Proto Module_ in
  ret (addChildTo Conf Ident).

Definition demangleMetatype : DM NodePointer :=
  c <- nextChar ;;
  switch c
    [ "c" ~> (conf <- popProtocolConformance ;;
              ret (createWithChild K_ProtocolConformanceDescriptor conf));
      "f" ~> createWithPoppedType K_FullTypeMetadata;
      "P" ~> createWithPoppedType K_GenericTypeMetadataPattern;
      "a" ~> createWithPoppedType K_TypeMetadataAccessFunction;
      "L" ~> createWithPoppedType K_TypeMetadataLazyCache;
      "m" ~> createWithPoppedType K_Metaclass;
      "n" ~> createWithPoppedType K_NominalTypeDescriptor;
      "o" ~> createWithPoppedType K_ClassMetadataBaseOffset;
      "p" ~> (proto <- popProtocol ;; ret (createWithChild K_ProtocolDescriptor proto));
      "B" ~> createWithPoppedType K_ReflectionMetadataBuiltinDescriptor;
      "F" ~> createWithPoppedType K_ReflectionMetadataFieldDescriptor;
      "A" ~> (conf <- popProtocolConformance ;;
              ret (createWithChild K_ReflectionMetadataAssocTypeDescriptor conf));
      "C" ~> (Ty <- popNodeKind K_Type ;;
              match Ty with
              | None => ret None
              | Some ty =>
                  c <- getChild ty 0 ;;
                  if negb (isAnyGeneric (getKind c)) then ret None
                  else ret (createWithChild K_ReflectionMetadataSuperclassDescriptor (Some c))
              end) ]
    (ret None).

(** [addSubstitution(T); return T;] *)
Definition substituted (T : NodePointer) : DM NodePointer :=
  _ <- addSubstitution T ;; ret T.

Definition demangleArchetype : DM NodePointer :=
  c <- nextChar ;;
  switch c
    [ "a" ~>
        (Ident <- popNodeKind K_Identifier ;;
         ArcheTy <- popTypeAndGetChild ;;
         substituted (createType (createWithChildren2 K_AssociatedTypeRef ArcheTy Ident)));
      "q" ~>
        (Idx <- demangleIndexAsNode ;;
         Ctx <- popContext ;;
         let DeclCtx := createWithChild K_DeclContext Ctx in
         ret (createType (createWithChildren2 K_QualifiedArchetype Idx DeclCtx)));
      "y" ~>
        (GPI <- demangleGenericParamIndex ;;
         T <- demangleAssociatedTypeSimple GPI ;; substituted T);
      "z" ~>
        (GPI <- getDependentGenericParamType 0 0 ;;
         T <- demangleAssociatedTypeSimple GPI ;; substituted T);
      "Y" ~>
        (GPI <- demangleGenericParamIndex ;;
         T <- demangleAssociatedTypeCompound GPI ;; substituted T);
      "Z" ~>
        (GPI <- getDependentGenericParamType 0 0 ;;
         T <- demangleAssociatedTypeCompound GPI ;; substituted T) ]
    (ret None).

(** ** Thunks and specializations *)

Definition demangleBridgedMethodParams_step (Str : str) : DM (str + option str) :=
  u <- nextIf "_" ;;
  if (u : bool) then ret (inr (Some Str))
  else
    c <- nextChar ;;
    if Ascii.eqb c NUL && negb (Ascii.eqb c "n") && negb (Ascii.eqb c "b")
    then ret (inr None)
    else ret (inl (Str ++ [c])).

(** The empty string is the failure value. *)
Definition demangleBridgedMethodParams : DM str :=
  u <- nextIf "_" ;;
  if (u : bool) then ret []
  else
    kind <- nextChar ;;
    if Ascii.eqb kind "p" || Ascii.eqb kind "a" || Ascii.eqb kind "m" then
      r <- while_ demangleBridgedMethodParams_step [kind] ;;
      ret (default [] r)
    else ret [].

Definition demangleSpecAttributes (SpecKind : Kind) (demangleUniqueID : bool) : DM NodePointer :=
  isFragile <- nextIf "q" ;;
  c <- nextChar ;;
  let PassID := (if 128 <=? ord c then ord c - 256 else ord c) - ord "0" in
  if (PassID <? 0) || (9 <? PassID) then ret None
  else
    Idx <- (if demangleUniqueID then demangleNatural else ret (-1)) ;;
    let SpecNd := if 0 <=? Idx then createNodeIndex SpecKind Idx else createNode SpecKind in
    let SpecNd :=
      if (isFragile : bool) then nodeAddChild SpecNd (createNode K_SpecializationIsFragile)
      else SpecNd in
    ret (Some (nodeAddChild SpecNd (createNodeIndex K_SpecializationPassID PassID))).

Definition demangleGenericSpecialization (SpecKind : Kind) : DM NodePointer :=
  Spec <- demangleSpecAttributes SpecKind false ;;
  match Spec with
  | None => ret None
  | Some spec =>
      TyList <- popTypeList ;;
      match TyList with
      | None => ret None
      | Some tys =>
          ret (Some (fold_left
                 (fun spec Ty =>
                    nodeAddChild spec
                      (nodeAddChild (createNode K_GenericSpecializationParam) Ty))
                 (children tys) spec))
      end
  end.

(** Cases 'p' and 'P' of [demangleThunkOrSpecialization]. *)
Definition demanglePartialSpecialization (SpecKind : Kind) : DM NodePointer :=
  Spec <- demangleSpecAttributes SpecKind false ;;
  ty <- popNodeKind K_Type ;;
  ret (addChild Spec (createWithChild K_GenericSpecializationParam ty)).

(** [FunctionSigSpecializationParamKind]: enumerators below 64, then flags. *)
Definition ConstantPropFunction : Z := 0.
Definition ConstantPropGlobal : Z := 1.
Definition ConstantPropInteger : Z := 2.
Definition ConstantPropFloat : Z := 3.
Definition ConstantPropString : Z := 4.
Definition ClosureProp : Z := 5.
Definition BoxToValue : Z := 6.
Definition BoxToStack : Z := 7.
Definition Dead : Z := 64.
Definition OwnedToGuaranteed : Z := 128.
Definition SROA : Z := 256.

Definition paramKindNode (k : Z) : Node :=
  createNodeIndex K_FunctionSignatureSpecializationParamKind k.
Definition paramPayloadNode (t : str) : Node :=
  createNodeText K_FunctionSignatureSpecializationParamPayload t.

(** One round of [while (isDigit(peekChar()))]. *)
Definition specNumber_step (Str : str) : DM (str + str) :=
  c <- peekChar ;;
  if isDigit c then c <- nextChar ;; ret (inl (Str ++ [c])) else ret (inr Str).

Definition addFuncSpecParamNumber (Param : Node) (Kind_ : Z) : DM NodePointer :=
  let Param := nodeAddChild Param (paramKindNode Kind_) in
  Str <- while_ specNumber_step [] ;;
  if (length Str =? 0)%nat then ret None
  else ret (Some (nodeAddChild Param (paramPayloadNode Str))).

Definition demangleFuncSpecParam (ParamIdx : Z) : DM NodePointer :=
  let Param := createNodeIndex K_FunctionSignatureSpecializationParam ParamIdx in
  let kind k := ret (Some (nodeAddChild Param (paramKindNode k))) in
  let string_ enc :=
    ret (Some (nodeAddChild (nodeAddChild Param (paramKindNode ConstantPropString))
                 (paramPayloadNode (lit enc)))) in
  c <- nextChar ;;
  switch c
    [ "n" ~> ret (Some Param);
      "c" ~> kind ClosureProp;
      "p" ~>
        (c <- nextChar ;;
         switch c
           [ "f" ~> kind ConstantPropFunction;
             "g" ~> kind ConstantPropGlobal;
             "i" ~> addFuncSpecParamNumber Param ConstantPropInteger;
             "d" ~> addFuncSpecParamNumber Param ConstantPropFloat;
             "s" ~>
               (c <- nextChar ;;
                switch c
                  [ "b" ~> string_ "u8"%string; "w" ~> string_ "u16"%string;
                    "c" ~> string_ "objc"%string ]
                  (ret None)) ]
           (ret None));
      "d" ~>
        (G <- nextIf "G" ;;
         X <- nextIf "X" ;;
         let Value := if (G : bool) then Z.lor Dead OwnedToGuaranteed else Dead in
         kind (if (X : bool) then Z.lor Value SROA else Value));
      "g" ~>
        (X <- nextIf "X" ;;
         kind (if (X : bool) then Z.lor OwnedToGuaranteed SROA else OwnedToGuaranteed));
      "x" ~> kind SROA;
      "i" ~> kind BoxToValue;
      "s" ~> kind BoxToStack ]
    (ret None).

(** One round of [while (Spec && !nextIf('_'))]: [Spec] and [ParamIdx]. *)
Definition funcSpecParams_step (st : NodePointer * Z)
    : DM (NodePointer * Z + NodePointer) :=
  let '(Spec, ParamIdx) := st in
  stop <- (if isSome Spec then nextIf "_" else ret true) ;;
  if (stop : bool) then ret (inr Spec)
  else
    Param <- demangleFuncSpecParam ParamIdx ;;
    ret (inl (addChild Spec Param, wrap_u32 (ParamIdx + 1))).

(** One round of [while (NodePointer Ty = popNode(Node::Kind::Type))]; leaving
    with [None] is [return nullptr]. *)
Definition popPayloadTypes_step (ParamKind : Z) (Param : Node) : DM (Node + NodePointer) :=
  Ty <- popNodeKind K_Type ;;
  match Ty with
  | None => ret (inr (Some Param))
  | Some ty =>
      if negb (ParamKind =? ClosureProp) then ret (inr None)
      else ret (inl (nodeAddChild Param ty))
  end.

(** The body of the [switch (ParamKind)]: the parameter with its payload. *)
Definition addParamPayload (ParamKind : Z) (Param : Node) : DM NodePointer :=
  if (ParamKind =? ConstantPropFunction) || (ParamKind =? ConstantPropGlobal)
     || (ParamKind =? ConstantPropString) || (ParamKind =? ClosureProp)
  then
    let FixedChildren := getNumChildren Param in
    r <- while_ (popPayloadTypes_step ParamKind) Param ;;
    match r with
    | None => ret None
    | Some Param =>
        Name <- popNodeKind K_Identifier ;;
        match Name with
        | None => ret None
        | Some name =>
            text <- getText name ;;
            let text :=
              if (ParamKind =? ConstantPropString)
                 && match text with c :: _ => Ascii.eqb c "_" | [] => false end
              then drop 1 text else text in
            Param <- reverseChildren (nodeAddChild Param (paramPayloadNode text)) FixedChildren ;;
            ret (Some Param)
        end
    end
  else ret (Some Param).

(** [for (Idx = 0; Idx < Num; ++Idx)] over the children in reverse order;
    [n] rounds are left, for the children below position [n]. *)
Fixpoint addParamPayloads (n : nat) (Spec : Node) : DM NodePointer :=
  match n with
  | O => ret (Some Spec)
  | S n =>
      Param <- getChild Spec n ;;
      if negb (Kind_eqb (getKind Param) K_FunctionSignatureSpecializationParam)
         || (getNumChildren Param =? 0)%nat
      then addParamPayloads n Spec
      else
        KindNd <- getFirstChild Param ;;
        _ <- assert "demangleFunctionSpecialization: KindNd"
               (Kind_eqb (getKind KindNd) K_FunctionSignatureSpecializationParamKind) ;;
        ParamKind <- getIndex KindNd ;;
        Param <- addParamPayload (wrap_u32 ParamKind) Param ;;
        match Param with
        | None => ret None
        | Some Param => addParamPayloads n (setChild Spec n Param)
        end
  end.

Definition demangleFunctionSpecialization : DM NodePointer :=
  Spec <- demangleSpecAttributes K_FunctionSignatureSpecialization true ;;
  Spec <- while_ funcSpecParams_step (Spec, 0) ;;
  n <- nextIf "n" ;;
  Spec <-
    (if (n : bool) then ret Spec
     else Param <- demangleFuncSpecParam (-1) ;; ret (addChild Spec Param)) ;;
  match Spec with
  | None => ret None
  | Some spec => addParamPayloads (getNumChildren spec) spec
  end.

(** One round of the [do { ... } while (node && kind == Type)] of the key path
    accessor thunks; leaving with the first node that is no type, or none. *)
Definition keyPathTypes_step (st : list Node * Node) : DM (list Node * Node + list Node * NodePointer) :=
  let '(types, node) := st in
  let types := types ++ [node] in
  next <- popNode ;;
  match next with
  | Some n => if Kind_eqb (getKind n) K_Type then ret (inl (types, n)) else ret (inr (types, next))
  | None => ret (inr (types, None))
  end.

(** Cases 'K' and 'k' of [demangleThunkOrSpecialization]. The last loop calls
    [result->addChild] for every type, whether or not [result] is null. *)
Definition demangleKeyPathAccessorThunk (nodeKind : Kind) : DM NodePointer :=
  node <- popNode ;;
  match node with
  | None => ret None
  | Some n =>
      if negb (Kind_eqb (getKind n) K_Type) then ret None
      else
        r <- while_ keyPathTypes_step ([], n) ;;
        let '(types, node) := r in
        match node with
        | None => ret None
        | Some n =>
            result <-
              (if Kind_eqb (getKind n) K_DependentGenericSignature then
                 decl <- popNode ;; ret (createWithChildren2 nodeKind decl (Some n))
               else ret (createWithChild nodeKind (Some n))) ;;
            match result with
            | None => fail (NullPointer "demangleThunkOrSpecialization: result->addChild")
            | Some result => ret (Some (fold_left nodeAddChild (reverse types) result))
            end
        end
  end.

(** One round of [while (auto node = popNode())]; [inr None] is
    [return nullptr]. *)
Definition keyPathIndexTypes_step (types : list Node) : DM (list Node + option (list Node)) :=
  node <- popNode ;;
  match node with
  | None => ret (inr (Some types))
  | Some n =>
      if negb (Kind_eqb (getKind n) K_Type) then ret (inr None)
      else ret (inl (types ++ [n]))
  end.

(** Cases 'H' and 'h' of [demangleThunkOrSpecialization]. *)
Definition demangleKeyPathIndexThunk (nodeKind : Kind) : DM NodePointer :=
  node <- popNode ;;
  match node with
  | None => ret None
  | Some n =>
      let isSig := Kind_eqb (getKind n) K_DependentGenericSignature in
      let isType := Kind_eqb (getKind n) K_Type in
      if negb isSig && negb isType then ret None
      else
        types <- while_ keyPathIndexTypes_step (if isSig then [] else [n]) ;;
        match types with
        | None => ret None
        | Some types =>
            let result := fold_left nodeAddChild (reverse types) (createNode nodeKind) in
            ret (Some (if isSig then nodeAddChild result n else result))
        end
  end.

Definition demangleThunkOrSpecialization : DM NodePointer :=
  let entity kind := e <- popNodeIf isEntity ;; ret (createWithChild kind e) in
  let node kind := ret (Some (createNode kind)) in
  let reabstraction kind :=
    GenSig <- popNodeKind K_DependentGenericSignature ;;
    let Thunk := addChildTo (Some (createNode kind)) GenSig in
    Ty2 <- popNodeKind K_Type ;;
    Ty1 <- popNodeKind K_Type ;;
    ret (addChild (addChild Thunk Ty1) Ty2) in
  c <- nextChar ;;
  switch c
    [ "c" ~> entity K_CurryThunk;
      "j" ~> entity K_DispatchThunk;
      "o" ~> node K_ObjCAttribute;
      "O" ~> node K_NonObjCAttribute;
      "D" ~> node K_DynamicAttribute;
      "d" ~> node K_DirectMethodReferenceAttribute;
      "a" ~> node K_PartialApplyObjCForwarder;
      "A" ~> node K_PartialApplyForwarder;
      "m" ~> node K_MergedFunction;
      "C" ~> createWithPoppedType K_CoroutineContinuationPrototype;
      "V" ~>
        (Base <- popNodeIf isEntity ;;
         Derived <- popNodeIf isEntity ;;
         ret (createWithChildren2 K_VTableThunk Derived Base));
      "W" ~>
        (Entity <- popNodeIf isEntity ;;
         Conf <- popProtocolConformance ;;
         ret (createWithChildren2 K_ProtocolWitness Conf Entity));
      "R" ~> reabstraction K_ReabstractionThunkHelper;
      "r" ~> reabstraction K_ReabstractionThunk;
      "g" ~> demangleGenericSpecialization K_GenericSpecialization;
      "G" ~> demangleGenericSpecialization K_GenericSpecializationNotReAbstracted;
      "p" ~> demanglePartialSpecialization K_GenericPartialSpecialization;
      "P" ~> demanglePartialSpecialization K_GenericPartialSpecializationNotReAbstracted;
      "f" ~> demangleFunctionSpecialization;
      "K" ~> demangleKeyPathAccessorThunk K_KeyPathGetterThunkHelper;
      "k" ~> demangleKeyPathAccessorThunk K_KeyPathSetterThunkHelper;
      "H" ~> demangleKeyPathIndexThunk K_KeyPathEqualsThunkHelper;
      "h" ~> demangleKeyPathIndexThunk K_KeyPathHashThunkHelper;
      "v" ~>
        (Idx <- demangleIndex ;;
         if Idx <? 0 then ret None else ret (Some (createNodeIndex K_OutlinedVariable Idx)));
      "e" ~>
        (Params <- demangleBridgedMethodParams ;;
         if (length Params =? 0)%nat then ret None
         else ret (Some (createNodeText K_OutlinedBridgedMethod Params))) ]
    (ret None).

(** ** Witnesses *)

Definition Directness_Direct : Z := 0.
Definition Directness_Indirect : Z := 1.

(** One round of the [do { ... } while (!firstElem)] of case 'T'. *)
Definition assocTypePath_step (AssocTypePath : Node) : DM (Node + NodePointer) :=
  marker <- popNodeKind K_FirstElementMarker ;;
  AssocTyName <- popNodeIf isDeclName ;;
  match AssocTyName with
  | None => ret (inr None)
  | Some name =>
      let path := nodeAddChild AssocTypePath name in
      if isSome marker then ret (inr (Some path)) else ret (inl path)
  end.

Definition demangleWitness : DM NodePointer :=
  let conformance kind := conf <- popProtocolConformance ;; ret (createWithChild kind conf) in
  let lazy_ kind :=
    Conf <- popProtocolConformance ;;
    Type_ <- popNodeKind K_Type ;;
    ret (createWithChildren2 kind Type_ Conf) in
  let outlined kind :=
    IndexChild <- demangleIndexAsNode ;;
    Type_ <- popNodeKind K_Type ;;
    ret (createWithChildren2 kind Type_ IndexChild) in
  let fieldOffset directness :=
    e <- popNodeIf isEntity ;;
    ret (createWithChildren2 K_FieldOffset
           (Some (createNodeIndex K_Directness directness)) e) in
  c <- nextChar ;;
  switch c
    [ "V" ~> createWithPoppedType K_ValueWitnessTable;
      "v" ~>
        (c <- nextChar ;;
         switch c
           [ "d" ~> fieldOffset Directness_Direct; "i" ~> fieldOffset Directness_Indirect ]
           (ret None));
      "P" ~> conformance K_ProtocolWitnessTable;
      "G" ~> conformance K_GenericProtocolWitnessTable;
      "I" ~> conformance K_GenericProtocolWitnessTableInstantiationFunction;
      "l" ~> lazy_ K_LazyProtocolWitnessTableAccessor;
      "L" ~> lazy_ K_LazyProtocolWitnessTableCacheVariable;
      "a" ~> conformance K_ProtocolWitnessTableAccessor;
      "t" ~>
        (Name <- popNodeIf isDeclName ;;
         Conf <- popProtocolConformance ;;
         ret (createWithChildren2 K_AssociatedTypeMetadataAccessor Conf Name));
      "T" ~>
        (ProtoTy <- popNodeKind K_Type ;;
         r <- while_ assocTypePath_step (createNode K_AssocTypePath) ;;
         match r with
         | None => ret None
         | Some AssocTypePath =>
             AssocTypePath <- reverseChildren AssocTypePath 0 ;;
             Conf <- popProtocolConformance ;;
             ret (createWithChildren3 K_AssociatedTypeWitnessTableAccessor
                    Conf (Some AssocTypePath) ProtoTy)
         end);
      "y" ~> createWithPoppedType K_OutlinedCopy;
      "e" ~> createWithPoppedType K_OutlinedConsume;
      "r" ~> createWithPoppedType K_OutlinedRetain;
      "s" ~> createWithPoppedType K_OutlinedRelease;
      "b" ~> outlined K_OutlinedInitializeWithTake;
      "c" ~> outlined K_OutlinedInitializeWithCopy;
      "d" ~> outlined K_OutlinedAssignWithTake;
      "f" ~> outlined K_OutlinedAssignWithCopy;
      "h" ~> outlined K_OutlinedDestroy ]
    (ret None).

(** ** Special types *)

Definition demangleMetatypeRepresentation : DM NodePointer :=
  c <- nextChar ;;
  switch c
    [ "t" ~> ret (Some (createNodeText K_MetatypeRepresentation (lit "@thin")));
      "T" ~> ret (Some (createNodeText K_MetatypeRepresentation (lit "@thick")));
      "o" ~> ret (Some (createNodeText K_MetatypeRepresentation (lit "@objc_metatype"))) ]
    (ret None).

Definition demangleProtocolList_step (TypeList : Node) : DM (Node + NodePointer) :=
  marker <- popNodeKind K_FirstElementMarker ;;
  Proto <- popProtocol ;;
  match Proto with
  | None => ret (inr None)
  | Some proto =>
      let TypeList := nodeAddChild TypeList proto in
      if isSome marker then ret (inr (Some TypeList)) else ret (inl TypeList)
  end.

(** The protocol list is the parent of the type list being filled: it is built
    around it at the end. *)
Definition demangleProtocolList : DM NodePointer :=
  let TypeList := createNode K_TypeList in
  e <- popNodeKind K_EmptyList ;;
  if isSome e then ret (createWithChild K_ProtocolList (Some TypeList))
  else
    r <- while_ demangleProtocolList_step TypeList ;;
    match r with
    | None => ret None
    | Some TypeList =>
        TypeList <- reverseChildren TypeList 0 ;;
        ret (createWithChild K_ProtocolList (Some TypeList))
    end.

Definition demangleProtocolListType : DM NodePointer :=
  ProtoList <- demangleProtocolList ;; ret (createType ProtoList).

(** [for (i = 0; i < fieldTypes->getNumChildren(); ++i)] of the box types. *)
Fixpoint addBoxFields (fieldTypes : list Node) (layout : Node) : DM Node :=
  match fieldTypes with
  | [] => ret layout
  | fieldType :: fieldTypes =>
      _ <- assert "demangleSpecialType: fieldType"
             (Kind_eqb (getKind fieldType) K_Type) ;;
      c <- getChild fieldType 0 ;;
      let isMutable := Kind_eqb (getKind c) K_InOut in
      fieldType <-
        (if isMutable then
           inner <- getChild c 0 ;; ret (nodeAddChild (createNode K_Type) inner)
         else ret fieldType) ;;
      let field := createNode (if isMutable then K_SILBoxMutableField
                               else K_SILBoxImmutableField) in
      addBoxFields fieldTypes (nodeAddChild layout (nodeAddChild field fieldType))
  end.

(** Cases 'X' (with a signature) and 'x' of [demangleSpecialType]. *)
Definition demangleSILBox (withSignature : bool) : DM NodePointer :=
  r <-
    (if withSignature then
       signature <- popNodeKind K_DependentGenericSignature ;;
       match signature with
       | None => ret None
       | Some sig =>
           genericArgs <- popTypeList ;;
           match genericArgs with
           | None => ret None
           | Some args => ret (Some [sig; args])
           end
       end
     else ret (Some [])) ;;
  match r with
  | None => ret None
  | Some extra =>
      fieldTypes <- popTypeList ;;
      match fieldTypes with
      | None => ret None
      | Some tys =>
          layout <- addBoxFields (children tys) (createNode K_SILBoxLayout) ;;
          let boxTy := nodeAddChild (createNode K_SILBoxTypeWithLayout) layout in
          ret (createType (Some (fold_left nodeAddChild extra boxTy)))
      end
  end.

Definition demangleSpecialType : DM NodePointer :=
  let wrapped kind := ty <- popNodeKind K_Type ;; ret (createType (createWithChild kind ty)) in
  let metatype kind :=
    MTR <- demangleMetatypeRepresentation ;;
    Type_ <- popNodeKind K_Type ;;
    ret (createType (createWithChildren2 kind MTR Type_)) in
  c <- nextChar ;;
  switch c
    [ "f" ~> popFunctionType K_ThinFunctionType;
      "K" ~> popFunctionType K_AutoClosureType;
      "U" ~> popFunctionType K_UncurriedFunctionType;
      "B" ~> popFunctionType K_ObjCBlock;
      "C" ~> popFunctionType K_CFunctionPointer;
      "o" ~> wrapped K_Unowned;
      "u" ~> wrapped K_Unmanaged;
      "w" ~> wrapped K_Weak;
      "b" ~> wrapped K_SILBoxType;
      "D" ~> wrapped K_DynamicSelf;
      "M" ~> metatype K_Metatype;
      "m" ~> metatype K_ExistentialMetatype;
      "p" ~> wrapped K_ExistentialMetatype;
      "c" ~>
        (Superclass <- popNodeKind K_Type ;;
         Protocols <- demangleProtocolList ;;
         ret (createType (createWithChildren2 K_ProtocolListWithClass Protocols Superclass)));
      "l" ~>
        (Protocols <- demangleProtocolList ;;
         ret (createType (createWithChild K_ProtocolListWithAnyObject Protocols)));
      "X" ~> demangleSILBox true;
      "x" ~> demangleSILBox false;
      "e" ~> ret (createType (Some (createNode K_ErrorType))) ]
    (ret None).

(** ** Entities *)

(** [inr] is an accessor kind, [inl] the node to return as it is. *)
Definition demangleAccessor (ChildNode : NodePointer) : DM NodePointer :=
  let accessor kind := ret (createWithChild kind ChildNode) in
  c <- nextChar ;;
  switch c
    [ "m" ~> accessor K_MaterializeForSet;
      "s" ~> accessor K_Setter;
      "g" ~> accessor K_Getter;
      "G" ~> accessor K_GlobalGetter;
      "w" ~> accessor K_WillSet;
      "W" ~> accessor K_DidSet;
      "a" ~>
        (c <- nextChar ;;
         switch c
           [ "O" ~> accessor K_OwningMutableAddressor;
             "o" ~> accessor K_NativeOwningMutableAddressor;
             "P" ~> accessor K_NativePinningMutableAddressor;
             "u" ~> accessor K_UnsafeMutableAddressor ]
           (ret None));
      "l" ~>
        (c <- nextChar ;;
         switch c
           [ "O" ~> accessor K_OwningAddressor;
             "o" ~> accessor K_NativeOwningAddressor;
             "p" ~> accessor K_NativePinningAddressor;
             "u" ~> accessor K_UnsafeAddressor ]
           (ret None));
      "p" ~> ret ChildNode ]
    (ret None).

Definition demangleEntity (kind : Kind) : DM NodePointer :=
  Type_ <- popNodeKind K_Type ;;
  r <- popFunctionParamLabels Type_ ;;
  let '(LabelList, Type_) := r in
  Name <- popNodeIf isDeclName ;;
  Context_ <- popContext ;;
  ret (if isSome LabelList then createWithChildren4 kind Context_ Name LabelList Type_
       else createWithChildren3 kind Context_ Name Type_).

(** The four shapes of the arguments of [demangleFunctionEntity]. *)
Definition functionEntityNone (kind : Kind) : DM NodePointer :=
  Ctx <- popContext ;; ret (createWithChild kind Ctx).

Definition functionEntityTypeAndMaybePrivateName (kind : Kind) : DM NodePointer :=
  NameOrIndex <- popNodeKind K_PrivateDeclName ;;
  ParamType <- popNodeKind K_Type ;;
  r <- popFunctionParamLabels ParamType ;;
  let '(LabelList, ParamType) := r in
  Ctx <- popContext ;;
  let Entity := createWithChild kind Ctx in
  let Entity := addChildTo Entity LabelList in
  let Entity := addChild Entity ParamType in
  ret (addChildTo Entity NameOrIndex).

Definition functionEntityTypeAndIndex (kind : Kind) : DM NodePointer :=
  NameOrIndex <- demangleIndexAsNode ;;
  ParamType <- popNodeKind K_Type ;;
  Ctx <- popContext ;;
  let Entity := createWithChild kind Ctx in
  let Entity := addChild Entity NameOrIndex in
  ret (addChild Entity ParamType).

Definition functionEntityIndex (kind : Kind) : DM NodePointer :=
  NameOrIndex <- demangleIndexAsNode ;;
  Ctx <- popContext ;;
  ret (addChild (createWithChild kind Ctx) NameOrIndex).

Definition demangleFunctionEntity : DM NodePointer :=
  c <- nextChar ;;
  switch c
    [ "D" ~> functionEntityNone K_Deallocator;
      "d" ~> functionEntityNone K_Destructor;
      "E" ~> functionEntityNone K_IVarDestroyer;
      "e" ~> functionEntityNone K_IVarInitializer;
      "i" ~> functionEntityNone K_Initializer;
      "C" ~> functionEntityTypeAndMaybePrivateName K_Allocator;
      "c" ~> functionEntityTypeAndMaybePrivateName K_Constructor;
      "U" ~> functionEntityTypeAndIndex K_ExplicitClosure;
      "u" ~> functionEntityTypeAndIndex K_ImplicitClosure;
      "A" ~> functionEntityIndex K_DefaultArgumentInitializer;
      "p" ~> demangleEntity K_GenericTypeParamDecl ]
    (ret None).

Definition demangleVariable : DM NodePointer :=
  Variable_ <- demangleEntity K_Variable ;; demangleAccessor Variable_.

Definition demangleSubscript : DM NodePointer :=
  PrivateName <- popNodeKind K_PrivateDeclName ;;
  Type_ <- popNodeKind K_Type ;;
  r <- popFunctionParamLabels Type_ ;;
  let '(LabelList, Type_) := r in
  Context_ <- popContext ;;
  let Subscript := addChild (Some (createNode K_Subscript)) Context_ in
  let Subscript := addChildTo Subscript LabelList in
  let Subscript := addChild Subscript Type_ in
  let Subscript := addChildTo Subscript PrivateName in
  demangleAccessor Subscript.

(** ** Generic signatures *)

(** One round of [while (!nextIf('l'))]; leaving with [None] is
    [return nullptr]. *)
Definition paramCounts_step (Sig : Node) : DM (Node + NodePointer) :=
  l <- nextIf "l" ;;
  if (l : bool) then ret (inr (Some Sig))
  else
    z <- nextIf "z" ;;
    count <- (if (z : bool) then ret 0 else i <- demangleIndex ;; ret (wrap_int (i + 1))) ;;
    if count <? 0 then ret (inr None)
    else ret (inl (nodeAddChild Sig (createNodeIndex K_DependentGenericParamCount count))).

(** One round of [while (NodePointer Req = popNode(isRequirement))]. *)
Definition popRequirements_step (Sig : Node) : DM (Node + Node) :=
  Req <- popNodeIf isRequirement ;;
  match Req with
  | Some r => ret (inl (nodeAddChild Sig r))
  | None => ret (inr Sig)
  end.

Definition demangleGenericSignature (hasParamCounts : bool) : DM NodePointer :=
  let Sig := createNode K_DependentGenericSignature in
  Sig <-
    (if hasParamCounts then while_ paramCounts_step Sig
     else ret (Some (nodeAddChild Sig (createNodeIndex K_DependentGenericParamCount 1)))) ;;
  match Sig with
  | None => ret None
  | Some Sig =>
      let NumCounts := getNumChildren Sig in
      Sig <- while_ popRequirements_step Sig ;;
      Sig <- reverseChildren Sig NumCounts ;;
      ret (Some Sig)
  end.

Inductive RequirementTypeKind := Generic | Assoc | CompoundAssoc | Substitution.
Inductive ConstraintKind := ProtocolConstraint | BaseClass | SameType | Layout.

Definition demangleConstrainedType (TypeKind : RequirementTypeKind) : DM NodePointer :=
  match TypeKind with
  | Generic => GPI <- demangleGenericParamIndex ;; ret (createType GPI)
  | Assoc =>
      GPI <- demangleGenericParamIndex ;;
      T <- demangleAssociatedTypeSimple GPI ;; substituted T
  | CompoundAssoc =>
      GPI <- demangleGenericParamIndex ;;
      T <- demangleAssociatedTypeCompound GPI ;; substituted T
  | Substitution => popNodeKind K_Type
  end.

(** The [case Layout]: the name, and which of size and alignment follow. *)
Definition demangleLayoutConstraint (ConstrTy : NodePointer) : DM NodePointer :=
  let layout name size alignment :=
    let NameNode := createNodeText K_Identifier name in
    let Req := createWithChildren2 K_DependentGenericLayoutRequirement ConstrTy (Some NameNode) in
    ret (addChildTo (addChildTo Req size) alignment) in
  c <- nextChar ;;
  if Ascii.eqb c "U" || Ascii.eqb c "R" || Ascii.eqb c "N" || Ascii.eqb c "C"
     || Ascii.eqb c "D" || Ascii.eqb c "T"
  then layout [c] None None
  else if Ascii.eqb c "E" || Ascii.eqb c "M" then
    size <- demangleIndexAsNode ;;
    if negb (isSome size) then ret None
    else alignment <- demangleIndexAsNode ;; layout [c] size alignment
  else if Ascii.eqb c "e" || Ascii.eqb c "m" then
    size <- demangleIndexAsNode ;;
    if negb (isSome size) then ret None else layout [c] size None
  else ret None.

Definition demangleGenericRequirement : DM NodePointer :=
  c <- nextChar ;;
  kinds <-
    switch c
      [ "c" ~> ret (BaseClass, Assoc); "C" ~> ret (BaseClass, CompoundAssoc);
        "b" ~> ret (BaseClass, Generic); "B" ~> ret (BaseClass, Substitution);
        "t" ~> ret (SameType, Assoc); "T" ~> ret (SameType, CompoundAssoc);
        "s" ~> ret (SameType, Generic); "S" ~> ret (SameType, Substitution);
        "m" ~> ret (Layout, Assoc); "M" ~> ret (Layout, CompoundAssoc);
        "l" ~> ret (Layout, Generic); "L" ~> ret (Layout, Substitution);
        "p" ~> ret (ProtocolConstraint, Assoc);
        "P" ~> ret (ProtocolConstraint, CompoundAssoc);
        "Q" ~> ret (ProtocolConstraint, Substitution) ]
      (_ <- pushBack ;; ret (ProtocolConstraint, Generic)) ;;
  let '(ConstraintKind_, TypeKind) := kinds in
  ConstrTy <- demangleConstrainedType TypeKind ;;
  match ConstraintKind_ with
  | ProtocolConstraint =>
      proto <- popProtocol ;;
      ret (createWithChildren2 K_DependentGenericConformanceRequirement ConstrTy proto)
  | BaseClass =>
      ty <- popNodeKind K_Type ;;
      ret (createWithChildren2 K_DependentGenericConformanceRequirement ConstrTy ty)
  | SameType =>
      ty <- popNodeKind K_Type ;;
      ret (createWithChildren2 K_DependentGenericSameTypeRequirement ConstrTy ty)
  | Layout => demangleLayoutConstraint ConstrTy
  end.

Definition demangleGenericType : DM NodePointer :=
  GenSig <- popNodeKind K_DependentGenericSignature ;;
  Ty <- popNodeKind K_Type ;;
  ret (createType (createWithChildren2 K_DependentGenericType GenSig Ty)).

(** [VALUE_WITNESS(MANGLING, NAME)]: the manglings, in the order of
    [ValueWitnessKind]. *)
Definition VALUE_WITNESSES : list str :=
  [lit "al"; lit "ca"; lit "ta"; lit "de"; lit "xx"; lit "XX"; lit "Xx"; lit "CP"; lit "Cp";
   lit "cp"; lit "Tk"; lit "tk"; lit "pr"; lit "TK"; lit "Cc"; lit "Tt"; lit "tT"; lit "xs";
   lit "xg"; lit "ug"; lit "up"; lit "ui"; lit "et"; lit "st"].

Definition decodeValueWitnessKind (CodeStr : str) : Z :=
  match list_find (fun m => CodeStr = m) VALUE_WITNESSES with
  | Some (i, _) => Z.of_nat i
  | None => -1
  end.

Definition demangleValueWitness : DM NodePointer :=
  c0 <- nextChar ;;
  c1 <- nextChar ;;
  let Kind_ := decodeValueWitnessKind [c0; c1] in
  if Kind_ <? 0 then ret None
  else
    ty <- popNodeKind K_Type ;;
    ret (addChild (Some (createNodeIndex K_ValueWitness Kind_)) ty).

(** ** Operators and symbols *)

(** The [switch] over the character that has been read. *)
Definition demangleOperatorFor (c : ascii) : DM NodePointer :=
  let node kind := ret (Some (createNode kind)) in
  switch c
    [ "A" ~> demangleMultiSubstitutions;
      "B" ~> demangleBuiltinType;
      "C" ~> demangleAnyGenericType K_Class;
      "D" ~> demangleTypeMangling;
      "E" ~> demangleExtensionContext;
      "F" ~> demanglePlainFunction;
      "G" ~> demangleBoundGenericType;
      "I" ~> demangleImplFunctionType;
      "K" ~> node K_ThrowsAnnotation;
      "L" ~> demangleLocalIdentifier;
      "M" ~> demangleMetatype;
      "N" ~> createWithPoppedType K_TypeMetadata;
      "O" ~> demangleAnyGenericType K_Enum;
      "P" ~> demangleAnyGenericType K_Protocol;
      "Q" ~> demangleArchetype;
      "R" ~> demangleGenericRequirement;
      "S" ~> demangleStandardSubstitution;
      "T" ~> demangleThunkOrSpecialization;
      "V" ~> demangleAnyGenericType K_Structure;
      "W" ~> demangleWitness;
      "X" ~> demangleSpecialType;
      "Z" ~> (e <- popNodeIf isEntity ;; ret (createWithChild K_Static e));
      "a" ~> demangleAnyGenericType K_TypeAlias;
      "c" ~> popFunctionType K_FunctionType;
      "d" ~> node K_VariadicMarker;
      "f" ~> demangleFunctionEntity;
      "h" ~> (c <- popTypeAndGetChild ;; ret (createType (createWithChild K_Shared c)));
      "i" ~> demangleSubscript;
      "l" ~> demangleGenericSignature false;
      "m" ~> (ty <- popNodeKind K_Type ;; ret (createType (createWithChild K_Metatype ty)));
      "o" ~> demangleOperatorIdentifier;
      "p" ~> demangleProtocolListType;
      "q" ~> (GPI <- demangleGenericParamIndex ;; ret (createType GPI));
      "r" ~> demangleGenericSignature true;
      "s" ~> ret (Some (createNodeText K_Module STDLIB_NAME));
      "t" ~> popTuple;
      "u" ~> demangleGenericType;
      "v" ~> demangleVariable;
      "w" ~> demangleValueWitness;
      "x" ~> (GPI <- getDependentGenericParamType 0 0 ;; ret (createType GPI));
      "y" ~> node K_EmptyList;
      "z" ~> (c <- popTypeAndGetChild ;; ret (createType (createWithChild K_InOut c)));
      "_" ~> node K_FirstElementMarker;
      "." ~> (_ <- pushBack ;; suffix <- consumeAll ;;
              ret (Some (createNodeText K_Suffix suffix))) ]
    (_ <- pushBack ;; demangleIdentifier).

Definition demangleOperator : DM NodePointer := c <- nextChar ;; demangleOperatorFor c.

(** One round of [while (Pos < Text.size())]. *)
Definition parseAndPushNodes_step (_ : unit) : DM (unit + bool) :=
  more <- gets (fun s => (Pos s <? length (Text s))%nat) ;;
  if negb more then ret (inr true)
  else
    Nd <- demangleOperator ;;
    match Nd with
    | None => ret (inr false)
    | Some n => _ <- pushNode n ;; ret (inl tt)
    end.

Definition parseAndPushNodes : DM bool := while_ parseAndPushNodes_step tt.

Section prefixes.
Context {S : Type}.

(** [mangledName[i]], whose index is not checked in a release build. *)
Definition charAt (site : string) (mangledName : str) (i : nat) : M S ascii :=
  match mangledName !! i with
  | Some c => ret c
  | None => fail (OutOfRange site)
  end.

Definition getManglingPrefixLength (mangledName : str) : M S nat :=
  if (length mangledName =? 0)%nat then ret 0%nat
  else if startswith mangledName (lit "_T0") then ret 3%nat
  else
    c <- charAt "getManglingPrefixLength" mangledName 0 ;;
    let Offset := if Ascii.eqb c "_" then 1%nat else 0%nat in
    if (length mangledName <? Offset + 1)%nat then ret 0%nat
    else
      c <- charAt "getManglingPrefixLength" mangledName Offset ;;
      if negb (Ascii.eqb c "$") then ret 0%nat
      else
        c <- charAt "getManglingPrefixLength" mangledName (Offset + 1) ;;
        if Ascii.eqb c "S" then ret (Offset + 2)%nat else ret 0%nat.

Definition isOldFunctionTypeMangling (mangledName : str) : bool :=
  startswith mangledName (lit "_T").

Definition isSwiftSymbol (mangledName : str) : M S bool :=
  if isOldFunctionTypeMangling mangledName then ret true
  else n <- getManglingPrefixLength mangledName ;; ret (negb (n =? 0)%nat).

Definition dropSwiftManglingPrefix (mangledName : str) : M S str :=
  n <- getManglingPrefixLength mangledName ;; ret (drop n mangledName).
End prefixes.

(** The nodes that the old-style class and protocol names stand for are built
    around [Nominal] when it is complete. *)
Definition demangleObjCTypeName : DM NodePointer :=
  let global ty :=
    createWithChild K_Global (createWithChild K_TypeMangling (Some ty)) in
  isClass <- nextIf "C" ;;
  isProto <- (if (isClass : bool) then ret false else nextIf "P") ;;
  if negb isClass && negb isProto then ret None
  else
    s <- nextIf "s" ;;
    Module_ <-
      (if (s : bool) then ret (Some (createNodeText K_Module (lit "Swift")))
       else m <- demangleIdentifier ;; ret (changeKind m K_Module)) ;;
    match Module_ with
    | None => ret None
    | Some m =>
        Ident <- demangleIdentifier ;;
        match Ident with
        | None => ret None
        | Some id =>
            let nominal kind := mkNode kind NoPayload [m; id] in
            end_ <- (if (isProto : bool) then nextIf "_" else ret true) ;;
            if negb end_ then ret None
            else
              more <- gets (fun s => (Pos s <? length (Text s))%nat) ;;
              if (more : bool) then ret None
              else if (isProto : bool) then
                ret (global (nodeAddChild (createNode K_Type)
                       (nodeAddChild (createNode K_ProtocolList)
                          (nodeAddChild (createNode K_TypeList)
                             (nodeAddChild (createNode K_Type) (nominal K_Protocol))))))
              else ret (global (nodeAddChild (createNode K_Type) (nominal K_Class)))
        end
    end.

(** [while (NodePointer FuncAttr = popNode(isFunctionAttr))]: the attributes
    whose parent is complete, innermost last, and the parent being filled. *)
Definition funcAttrs_step (st : list Node * Node) : DM (list Node * Node + list Node * Node) :=
  let '(outer, Parent) := st in
  FuncAttr <- popNodeIf isFunctionAttr ;;
  match FuncAttr with
  | None => ret (inr st)
  | Some attr =>
      if Kind_eqb (getKind attr) K_PartialApplyForwarder
         || Kind_eqb (getKind attr) K_PartialApplyObjCForwarder
      then ret (inl (outer ++ [Parent], attr))
      else ret (inl (outer, nodeAddChild Parent attr))
  end.

(** The body of [for (Node *Nd : NodeStack)]. *)
Fixpoint addStackNodes (Nds : list Node) (Parent : Node) : DM Node :=
  match Nds with
  | [] => ret Parent
  | Nd :: Nds =>
      if Kind_eqb (getKind Nd) K_Type then
        c <- getFirstChild Nd ;; addStackNodes Nds (nodeAddChild Parent c)
      else addStackNodes Nds (nodeAddChild Parent Nd)
  end.

(** Each parent takes the next one as its last child. *)
Definition closeParents (outer : list Node) (Parent : Node) : Node :=
  fold_right (fun p inner => nodeAddChild p inner) Parent outer.

Definition demangleSymbol (MangledName : str) : DM NodePointer :=
  _ <- modify (init MangledName) ;;
  tt_ <- nextIfStr (lit "_Tt") ;;
  if (tt_ : bool) then demangleObjCTypeName
  else
    PrefixLength <- getManglingPrefixLength MangledName ;;
    if (PrefixLength =? 0)%nat then ret None
    else
      _ <- modify (setOld (isOldFunctionTypeMangling MangledName)) ;;
      _ <- modify (fun s => setPos (Pos s + PrefixLength) s) ;;
      ok <- parseAndPushNodes ;;
      if negb ok then ret None
      else
        r <- while_ funcAttrs_step ([], createNode K_Global) ;;
        let '(outer, Parent) := r in
        Nds <- gets (fun s => reverse (NodeStack s)) ;;
        Parent <- addStackNodes Nds Parent ;;
        let topLevel := closeParents outer Parent in
        if (getNumChildren topLevel =? 0)%nat then ret None else ret (Some topLevel).

Definition demangleType (MangledName : str) : DM NodePointer :=
  _ <- modify (init MangledName) ;;
  _ <- parseAndPushNodes ;;
  Result <- popNode ;;
  match Result with
  | Some r => ret (Some r)
  | None => ret (Some (createNodeText K_Suffix MangledName))
  end.

(** A run on a new demangler. *)
Definition runSymbol (MangledName : str) : outcome NodePointer :=
  match demangleSymbol MangledName newDemangler with
  | Ok (r, _) => Ok r
  | Crash c => Crash c
  end.
