(* ===== verification/NodeShape.v ===== *)
(** * The shape of demangling trees

    The grammar of the trees the demangler builds: for every kind its payload
    and the children it may have. It is the type invariant of
    [Demangler::NodeStack], and what the consumers of a tree rely on when they
    index children without a check. *)

From S2P Require Import Prelude Nodes.

(** ** Child patterns *)

Inductive pat : Type :=
  | One (p : Node -> bool)
  | Opt (p : Node -> bool)
  | Many (p : Node -> bool).

(** Deterministic matching: [Opt] and [Many] take what they can. *)
Fixpoint matches (ps : list pat) (cs : list Node) : bool :=
  match ps with
  | [] => match cs with [] => true | _ => false end
  | One p :: ps => match cs with c :: cs => p c && matches ps cs | [] => false end
  | Opt p :: ps =>
      match cs with
      | c :: cs' => if p c then matches ps cs' else matches ps cs
      | [] => matches ps []
      end
  | Many p :: ps =>
      (fix many (cs : list Node) : bool :=
         match cs with
         | c :: cs' => if p c then many cs' else matches ps cs
         | [] => matches ps []
         end) cs
  end.

(** What a pattern asks of a node it takes. *)
Definition patPred (q : pat) : Node -> bool := match q with One p | Opt p | Many p => p end.

Definition ofKind (k : Kind) (n : Node) : bool := Kind_eqb (getKind n) k.
Definition kindIn (pred : Kind -> bool) (n : Node) : bool := pred (getKind n).
Definition anyNode (n : Node) : bool := true.

(** A [Type] node around a node of kind [k]. *)
Definition typeOf (k : Kind) (n : Node) : bool :=
  ofKind K_Type n && match children n with [c] => ofKind k c | _ => false end.

Definition isBoundGeneric (k : Kind) : bool :=
  match k with
  | K_BoundGenericClass | K_BoundGenericEnum | K_BoundGenericStructure => true
  | _ => false
  end.

(** The parent of a declaration: a context, or a bound generic type where
    [demangleBoundGenericArgs] has rebuilt the parent. *)
Definition isParent (k : Kind) : bool := isContext k || isBoundGeneric k.

Definition isSignature (k : Kind) : bool :=
  match k with
  | K_DependentGenericSignature | K_DependentPseudogenericSignature => true
  | _ => false
  end.

(** Only an identifier or the absence of a label may stand in a label list. *)
Definition isLabel (k : Kind) : bool :=
  match k with K_Identifier | K_FirstElementMarker => true | _ => false end.

(** What a [Type] stands for. *)
Definition isTypeChild (k : Kind) : bool :=
  match k with
  | K_Structure | K_Class | K_Enum | K_Protocol | K_TypeAlias
  | K_BoundGenericClass | K_BoundGenericEnum | K_BoundGenericStructure
  | K_AssociatedTypeRef | K_AutoClosureType | K_BuiltinTypeName | K_CFunctionPointer
  | K_DependentGenericParamType | K_DependentGenericType | K_DependentMemberType | K_DynamicSelf
  | K_ErrorType | K_ExistentialMetatype | K_FunctionType | K_ImplFunctionType | K_InOut | K_Metatype
  | K_ObjCBlock | K_ProtocolList | K_ProtocolListWithAnyObject | K_ProtocolListWithClass
  | K_QualifiedArchetype | K_Shared | K_SILBoxType | K_SILBoxTypeWithLayout | K_ThinFunctionType
  | K_Tuple | K_UncurriedFunctionType | K_Unmanaged | K_Unowned | K_Weak => true
  | _ => false
  end.

(** ** The grammar *)

Definition functionTypeShape : list pat :=
  [Opt (ofKind K_ThrowsAnnotation); One (ofKind K_ArgumentTuple); One (ofKind K_ReturnType)].

Definition specializationShape (params : list pat) : list pat :=
  Opt (ofKind K_SpecializationIsFragile) :: One (ofKind K_SpecializationPassID) :: params.

Definition oneType : list pat := [One (ofKind K_Type)].

Definition children_shape (k : Kind) : option (list pat) :=
  match k with
  | K_Allocator | K_Constructor =>
      Some [One (kindIn isParent); Opt (ofKind K_LabelList); One (ofKind K_Type); Opt (ofKind K_PrivateDeclName)]
  | K_ArgumentTuple | K_ReturnType => Some oneType
  | K_AssociatedTypeRef => Some [One (kindIn isTypeChild); One (ofKind K_Identifier)]
  | K_AssociatedTypeMetadataAccessor =>
      Some [One (ofKind K_ProtocolConformance); One (kindIn isDeclName)]
  | K_AssociatedTypeWitnessTableAccessor =>
      Some [One (ofKind K_ProtocolConformance); One (ofKind K_AssocTypePath); One (ofKind K_Type)]
  | K_AutoClosureType | K_FunctionType | K_ThinFunctionType | K_UncurriedFunctionType
  | K_ObjCBlock | K_CFunctionPointer => Some functionTypeShape
  | K_BoundGenericClass => Some [One (typeOf K_Class); One (ofKind K_TypeList)]
  | K_BoundGenericEnum => Some [One (typeOf K_Enum); One (ofKind K_TypeList)]
  | K_BoundGenericStructure => Some [One (typeOf K_Structure); One (ofKind K_TypeList)]
  | K_Class | K_Enum | K_Structure | K_Protocol | K_TypeAlias =>
      Some [One (kindIn isParent); One (kindIn isDeclName)]
  | K_ClassMetadataBaseOffset | K_CoroutineContinuationPrototype | K_DynamicSelf
  | K_FullTypeMetadata | K_GenericTypeMetadataPattern | K_TypeMetadataAccessFunction
  | K_TypeMetadataLazyCache | K_Metaclass | K_NominalTypeDescriptor | K_ProtocolDescriptor
  | K_ReflectionMetadataBuiltinDescriptor | K_ReflectionMetadataFieldDescriptor
  | K_GenericSpecializationParam | K_OutlinedCopy | K_OutlinedConsume | K_OutlinedRetain
  | K_OutlinedRelease | K_SILBoxType | K_SILBoxMutableField | K_SILBoxImmutableField
  | K_TypeMetadata | K_Unmanaged | K_Unowned | K_ValueWitness | K_ValueWitnessTable
  | K_Weak => Some oneType
  | K_Deallocator | K_Destructor | K_IVarDestroyer | K_IVarInitializer | K_Initializer
  | K_DeclContext => Some [One (kindIn isContext)]
  | K_DefaultArgumentInitializer => Some [One (kindIn isParent); One (ofKind K_Number)]
  | K_DependentAssociatedTypeRef => Some [Opt (typeOf K_Protocol)]
  | K_DependentGenericConformanceRequirement | K_DependentGenericSameTypeRequirement =>
      Some [One (ofKind K_Type); One (ofKind K_Type)]
  | K_DependentGenericParamType => Some [One (ofKind K_Index); One (ofKind K_Index)]
  | K_DependentGenericLayoutRequirement =>
      Some [One (ofKind K_Type); One (ofKind K_Identifier); Opt (ofKind K_Number); Opt (ofKind K_Number)]
  | K_DependentGenericSignature | K_DependentPseudogenericSignature =>
      Some [Many (ofKind K_DependentGenericParamCount); Many (kindIn isRequirement)]
  | K_DependentGenericType => Some [One (ofKind K_DependentGenericSignature); One (ofKind K_Type)]
  | K_DependentMemberType => Some [One (ofKind K_Type); One (ofKind K_DependentAssociatedTypeRef)]
  | K_DidSet | K_WillSet | K_Getter | K_GlobalGetter | K_Setter | K_MaterializeForSet
  | K_NativeOwningAddressor | K_NativeOwningMutableAddressor | K_NativePinningAddressor
  | K_NativePinningMutableAddressor | K_OwningAddressor | K_OwningMutableAddressor
  | K_UnsafeAddressor | K_UnsafeMutableAddressor =>
      Some [One (fun n => ofKind K_Variable n || ofKind K_Subscript n)]
  | K_ExistentialMetatype | K_Metatype =>
      Some [Opt (ofKind K_MetatypeRepresentation); One (ofKind K_Type)]
  | K_ExplicitClosure | K_ImplicitClosure =>
      Some [One (kindIn isParent); One (ofKind K_Number); One (ofKind K_Type)]
  | K_Extension =>
      Some [One (ofKind K_Module); One (fun n => isAnyGeneric (getKind n) || isBoundGeneric (getKind n));
            Opt (ofKind K_DependentGenericSignature)]
  | K_FieldOffset => Some [One (ofKind K_Directness); One (kindIn isEntity)]
  | K_Function | K_Variable | K_GenericTypeParamDecl =>
      Some [One (kindIn isParent); One (kindIn isDeclName); Opt (ofKind K_LabelList); One (ofKind K_Type)]
  | K_FunctionSignatureSpecialization =>
      Some (specializationShape [Many (ofKind K_FunctionSignatureSpecializationParam)])
  | K_FunctionSignatureSpecializationParam =>
      Some [Opt (ofKind K_FunctionSignatureSpecializationParamKind);
            Many (ofKind K_FunctionSignatureSpecializationParamPayload); Many (ofKind K_Type)]
  | K_GenericPartialSpecialization | K_GenericPartialSpecializationNotReAbstracted =>
      Some (specializationShape [One (ofKind K_GenericSpecializationParam)])
  | K_GenericSpecialization | K_GenericSpecializationNotReAbstracted =>
      Some (specializationShape [Many (ofKind K_GenericSpecializationParam)])
  | K_GenericProtocolWitnessTable | K_GenericProtocolWitnessTableInstantiationFunction
  | K_ProtocolWitnessTable | K_ProtocolWitnessTableAccessor | K_ProtocolConformanceDescriptor
  | K_ReflectionMetadataAssocTypeDescriptor => Some [One (ofKind K_ProtocolConformance)]
  | K_Global | K_PartialApplyForwarder | K_PartialApplyObjCForwarder => Some [Many anyNode]
  | K_ImplFunctionType =>
      Some [Opt (ofKind K_ImplEscaping); One (ofKind K_ImplConvention); Opt (ofKind K_ImplFunctionAttribute);
            Opt (kindIn isSignature); Many (ofKind K_ImplParameter); Many (ofKind K_ImplResult);
            Opt (ofKind K_ImplErrorResult)]
  | K_ImplParameter | K_ImplResult | K_ImplErrorResult =>
      Some [One (ofKind K_ImplConvention); One (ofKind K_Type)]
  | K_InOut | K_Shared | K_Type => Some [One (kindIn isTypeChild)]
  | K_KeyPathGetterThunkHelper | K_KeyPathSetterThunkHelper =>
      Some [One anyNode; Opt (ofKind K_DependentGenericSignature); One (ofKind K_Type); Many (ofKind K_Type)]
  | K_KeyPathEqualsThunkHelper | K_KeyPathHashThunkHelper =>
      Some [Many (ofKind K_Type); Opt (ofKind K_DependentGenericSignature)]
  | K_LazyProtocolWitnessTableAccessor | K_LazyProtocolWitnessTableCacheVariable =>
      Some [One (ofKind K_Type); One (ofKind K_ProtocolConformance)]
  | K_LocalDeclName => Some [One (ofKind K_Number); One (kindIn isDeclName)]
  | K_OutlinedInitializeWithTake | K_OutlinedInitializeWithCopy | K_OutlinedAssignWithTake
  | K_OutlinedAssignWithCopy | K_OutlinedDestroy => Some [One (ofKind K_Type); One (ofKind K_Number)]
  | K_PrivateDeclName => Some [One (ofKind K_Identifier); Opt (kindIn isDeclName)]
  | K_ProtocolConformance =>
      Some [One (ofKind K_Type); One (typeOf K_Protocol); One (ofKind K_Module); Opt (ofKind K_Identifier)]
  | K_ProtocolList => Some [One (ofKind K_TypeList)]
  | K_ProtocolListWithClass => Some [One (ofKind K_ProtocolList); One (ofKind K_Type)]
  | K_ProtocolListWithAnyObject => Some [One (ofKind K_ProtocolList)]
  | K_ProtocolWitness => Some [One (ofKind K_ProtocolConformance); One (kindIn isEntity)]
  | K_QualifiedArchetype => Some [One (ofKind K_Number); One (ofKind K_DeclContext)]
  | K_ReabstractionThunk | K_ReabstractionThunkHelper =>
      Some [Opt (ofKind K_DependentGenericSignature); One (ofKind K_Type); One (ofKind K_Type)]
  | K_ReflectionMetadataSuperclassDescriptor => Some [One (kindIn isAnyGeneric)]
  | K_SILBoxTypeWithLayout =>
      Some [One (ofKind K_SILBoxLayout); Opt (ofKind K_DependentGenericSignature); Opt (ofKind K_TypeList)]
  | K_SILBoxLayout =>
      Some [Many (fun n => ofKind K_SILBoxMutableField n || ofKind K_SILBoxImmutableField n)]
  | K_Static | K_CurryThunk | K_DispatchThunk => Some [One (kindIn isEntity)]
  | K_Subscript =>
      Some [One (kindIn isParent); Opt (ofKind K_LabelList); One (ofKind K_Type); Opt (ofKind K_PrivateDeclName)]
  | K_Tuple => Some [Many (ofKind K_TupleElement)]
  | K_TupleElement =>
      Some [Opt (ofKind K_VariadicMarker); Opt (ofKind K_TupleElementName); One (ofKind K_Type)]
  | K_TypeList => Some [Many (ofKind K_Type)]
  | K_TypeMangling => Some [Opt (ofKind K_LabelList); One (ofKind K_Type)]
  | K_VTableThunk => Some [One (kindIn isEntity); One (kindIn isEntity)]
  | K_AssocTypePath => Some [Many (kindIn isDeclName)]
  | K_LabelList => Some [Many (kindIn isLabel)]
  | K_BuiltinTypeName | K_Directness | K_DynamicAttribute
  | K_DirectMethodReferenceAttribute | K_ErrorType
  | K_FunctionSignatureSpecializationParamKind | K_FunctionSignatureSpecializationParamPayload
  | K_Identifier | K_Index | K_ImplEscaping | K_ImplConvention | K_ImplFunctionAttribute
  | K_InfixOperator | K_MergedFunction | K_MetatypeRepresentation | K_Module
  | K_NonObjCAttribute | K_Number | K_ObjCAttribute | K_PostfixOperator | K_PrefixOperator
  | K_SpecializationPassID | K_SpecializationIsFragile | K_Suffix | K_TupleElementName
  | K_ThrowsAnnotation | K_EmptyList | K_FirstElementMarker | K_VariadicMarker
  | K_OutlinedBridgedMethod | K_OutlinedVariable => Some []
  | K_AssociatedType | K_VTableAttribute | K_DependentGenericParamCount => None
  end.

(** Declarations with more than two children that may be the parent of a bound
    generic type: [demangleBoundGenericArgs] rebuilds such a parent from its
    first two children only. *)
Definition truncatable (k : Kind) : bool :=
  match k with
  | K_Allocator | K_Constructor | K_ExplicitClosure | K_ImplicitClosure | K_Function
  | K_Variable | K_Subscript => true
  | _ => false
  end.

(** The second child of such a declaration. *)
Definition secondChild (k : Kind) : Node -> bool :=
  match k with
  | K_Function | K_Variable => kindIn isDeclName
  | K_ExplicitClosure | K_ImplicitClosure => ofKind K_Number
  | _ => fun n => ofKind K_LabelList n || ofKind K_Type n
  end.

Definition payload_shape (k : Kind) (p : Payload) : bool :=
  match k, p with
  | (K_BuiltinTypeName | K_DependentAssociatedTypeRef | K_DependentGenericParamType
    | K_Identifier | K_ImplConvention | K_ImplFunctionAttribute | K_InfixOperator
    | K_PostfixOperator | K_PrefixOperator | K_MetatypeRepresentation | K_Module | K_Suffix
    | K_TupleElementName | K_OutlinedBridgedMethod
    | K_FunctionSignatureSpecializationParamPayload), TextPayload _ => true
  | (K_ArgumentTuple | K_DependentGenericParamCount | K_Directness
    | K_FunctionSignatureSpecializationParam | K_FunctionSignatureSpecializationParamKind
    | K_Index | K_Number | K_SpecializationPassID | K_OutlinedVariable
    | K_ValueWitness | K_FunctionSignatureSpecialization), IndexPayload _ => true
  | (K_BuiltinTypeName | K_DependentAssociatedTypeRef | K_DependentGenericParamType
    | K_Identifier | K_ImplConvention | K_ImplFunctionAttribute | K_InfixOperator
    | K_PostfixOperator | K_PrefixOperator | K_MetatypeRepresentation | K_Module | K_Suffix
    | K_TupleElementName | K_OutlinedBridgedMethod
    | K_FunctionSignatureSpecializationParamPayload | K_ArgumentTuple
    | K_DependentGenericParamCount | K_Directness
    | K_FunctionSignatureSpecializationParam | K_FunctionSignatureSpecializationParamKind
    | K_Index | K_Number | K_SpecializationPassID | K_OutlinedVariable
    | K_ValueWitness), _ => false
  | _, NoPayload => true
  | _, _ => false
  end.

(** The number of parameters that an argument tuple stands for. *)
Definition numParams (ty : Node) : Z :=
  match children ty with
  | t :: _ => if ofKind K_Tuple t then Z.of_nat (length (children t)) else 1
  | [] => 0
  end.

(** The name of a layout is one character. *)
Definition oneCharacter (n : Node) : bool :=
  match payload n with TextPayload [_] => true | _ => false end.

(** The number of parameters that the node of a function type tells. *)
Definition functionParams (f : Node) : option Z :=
  if ofKind K_FunctionType f then
    match find (ofKind K_ArgumentTuple) (children f) with
    | Some (mkNode _ (IndexPayload i) _) => Some i
    | _ => None
    end
  else None.

(** The type of an entity, which may be generic. *)
Definition paramCount (ty : Node) : option Z :=
  match children ty with
  | [mkNode K_DependentGenericType _ [_; mkNode _ _ [f]]] => functionParams f
  | [f] => functionParams f
  | _ => None
  end.

(** A list of labels has one for every parameter of the type, or is empty. *)
Definition labelsFit (labels ty : Node) : bool :=
  match children labels with
  | [] => true
  | cs => match paramCount ty with
          | Some i => Z.of_nat (length cs) =? wrap_u32 i
          | None => false
          end
  end.

(** The same for two children, of which the first one need not be a list. *)
Definition labelsFit' (labels ty : Node) : bool := negb (ofKind K_LabelList labels) || labelsFit labels ty.

(** The children of a parameter of a function signature specialization, as its
    kind tells: what is propagated, and the types of the arguments of a closure. *)
Definition specParamParts (k : Z) : list pat :=
  let payload := One (ofKind K_FunctionSignatureSpecializationParamPayload) in
  if k <? 4 then [payload]
  else if k =? 4 then [payload; payload]
  else if k =? 5 then [payload; Many (ofKind K_Type)]
  else [].

(** One of the constants, or a set of the options [Dead], [OwnedToGuaranteed]
    and [SROA]. *)
Definition isSpecParamKind (k : Z) : bool :=
  (0 <=? k) && (k <? 8) || existsb (Z.eqb k) [64; 128; 192; 256; 320; 384; 448].

Definition specParamShape (cs : list Node) : bool :=
  match cs with
  | mkNode _ (IndexPayload k) _ :: cs => isSpecParamKind k && matches (specParamParts k) cs
  | _ => false
  end.

Definition deep_shape (k : Kind) (p : Payload) (cs : list Node) : bool :=
  match k, p, cs with
  | K_ArgumentTuple, IndexPayload i, [ty] => i =? wrap_u64 (numParams ty)
  | K_Directness, IndexPayload i, _ => (i =? 0) || (i =? 1)
  | K_ValueWitness, IndexPayload i, _ => (0 <=? i) && (i <? 24)
  | K_DependentGenericLayoutRequirement, _, _ :: layout :: _ => oneCharacter layout
  | K_SILBoxTypeWithLayout, _, [_; _] => false
  | (K_KeyPathEqualsThunkHelper | K_KeyPathHashThunkHelper), _, [] => false
  | (K_Function | K_Variable | K_GenericTypeParamDecl), _, [_; _; labels; ty] => labelsFit labels ty
  | (K_Allocator | K_Constructor | K_Subscript), _, _ :: labels :: ty :: _ => labelsFit' labels ty
  | K_TypeMangling, _, [labels; ty] => labelsFit labels ty
  | K_FunctionSignatureSpecializationParam, _, cs => specParamShape cs
  | _, _, _ => true
  end.

(** The kinds for which [deep_shape] asks for something. *)
Definition hasDeepShape (k : Kind) : bool :=
  match k with
  | K_ArgumentTuple | K_Directness | K_ValueWitness | K_DependentGenericLayoutRequirement
  | K_SILBoxTypeWithLayout | K_KeyPathEqualsThunkHelper | K_KeyPathHashThunkHelper
  | K_Function | K_Variable | K_GenericTypeParamDecl | K_Allocator | K_Constructor | K_Subscript
  | K_TypeMangling | K_FunctionSignatureSpecializationParam => true
  | _ => false
  end.

Lemma deep_shape_other k p cs : hasDeepShape k = false -> deep_shape k p cs = true.
Proof. by destruct k. Qed.

(** The shape of one node, given its children. *)
Definition shape (k : Kind) (p : Payload) (cs : list Node) : bool :=
  payload_shape k p && deep_shape k p cs &&
  (match children_shape k with Some ps => matches ps cs | None => false end
   || truncatable k && matches [One (kindIn isParent); One (secondChild k)] cs).

(** The leaves that stand below one kind only: the number of generic parameters
    of one depth in a signature, and a parameter without a specialization. *)
Definition bareChild (k : Kind) (c : Node) : bool :=
  match k, c with
  | (K_DependentGenericSignature | K_DependentPseudogenericSignature),
    mkNode K_DependentGenericParamCount (IndexPayload _) [] => true
  | K_FunctionSignatureSpecialization, mkNode K_FunctionSignatureSpecializationParam (IndexPayload _) [] => true
  | _, _ => false
  end.

(** The kinds that have such children. *)
Definition hasBare (k : Kind) : bool :=
  match k with
  | K_DependentGenericSignature | K_DependentPseudogenericSignature | K_FunctionSignatureSpecialization => true
  | _ => false
  end.

Lemma bareChild_hasBare k c : bareChild k c = true -> hasBare k = true.
Proof. by destruct k. Qed.

Fixpoint wf_node (n : Node) : bool :=
  match n with
  | mkNode k p cs => shape k p cs && forallb (fun c => wf_node c || bareChild k c) cs
  end.

(** [wf n] as a proposition for the proofs. *)
Definition wf (n : Node) : Prop := wf_node n = true.
Definition wf_ptr (p : NodePointer) : Prop := match p with Some n => wf n | None => True end.
