(* ===== verification/DemanglerSpecs.v ===== *)
(** * The demangler's invariant and the specification of its primitives

    The invariant of a [Demangler] between two operators, the crashes that
    remain possible, and the specifications ([Spec]) of the operations that
    every handler is made of. *)

From Stdlib Require Import String.
From S2P Require Import Prelude Nodes ManglingUtils Punycode IdentifierMangling Demangler NodeShape.

(** ** Well-formed nodes *)

(** A child of a node of kind [k]. *)
Definition wf_child (k : Kind) (c : Node) : Prop := wf c \/ bareChild k c = true.

Lemma wf_iff k p cs : wf (mkNode k p cs) <-> shape k p cs = true /\ Forall (wf_child k) cs.
Proof.
  unfold wf. cbn. rewrite andb_true_iff, forallb_forall, List.Forall_forall. unfold wf_child, wf.
  split; (intros [? H]; split; [done|]; intros c Hc; specialize (H c Hc);
    rewrite orb_true_iff in *; done).
Qed.

Lemma wf_intro k p cs : shape k p cs = true -> Forall wf cs -> wf (mkNode k p cs).
Proof. intros H1 H2. apply wf_iff. split; [done|]. eapply Forall_impl; [|exact H2]. by left. Qed.

Lemma wf_children k p cs : hasBare k = false -> wf (mkNode k p cs) -> Forall wf cs.
Proof.
  intros Hk [_ H]%wf_iff. eapply Forall_impl; [|exact H]. intros c [?|Hk'%bareChild_hasBare]; [done|congruence].
Qed.

Lemma wf_shape n : wf n -> shape (getKind n) (payload n) (children n) = true.
Proof. destruct n. by intros [? _]%wf_iff. Qed.

Lemma wf_inv n :
  hasBare (getKind n) = false -> wf n ->
  shape (getKind n) (payload n) (children n) = true /\ Forall wf (children n).
Proof. destruct n as [k p cs]. intros Hk Hw. split; [by apply wf_shape|by eapply wf_children]. Qed.

Lemma ofKind_true k n : ofKind k n = true <-> getKind n = k.
Proof. apply Kind_eqb_eq. Qed.

Lemma ofKind_false k n : ofKind k n = false <-> getKind n <> k.
Proof. rewrite <-ofKind_true. by destruct (ofKind k n). Qed.

(** ** The invariant *)

(** What [addSubstitution] is called with: never a function type, so the node
    that [popFunctionParamLabels] mutates is not shared with a substitution. *)
Definition substitutable (n : Node) : bool :=
  match getKind n with
  | K_Identifier => true
  | K_Type =>
      match children n with
      | [c] => isAnyGeneric (getKind c) || isBoundGeneric (getKind c)
               || ofKind K_AssociatedTypeRef c || ofKind K_DependentMemberType c
      | _ => false
      end
  | _ => false
  end.

Record inv (s : Demangler) : Prop := {
  inv_text : (0 < length (Text s))%nat;
  inv_pos : (Pos s <= length (Text s))%nat;
  inv_words : (length (Words s) <= 26)%nat;
  inv_stack : Forall wf (NodeStack s);
  inv_substs : Forall wf (Substitutions s);
  inv_substitutable : Forall (fun n => substitutable n = true) (Substitutions s)
}.

(** Nothing but the node stack, which may shrink, and what [inv] covers changes. *)
Record frame (s s' : Demangler) : Prop := {
  frame_text : Text s' = Text s;
  frame_old : IsOldFunctionTypeMangling s' = IsOldFunctionTypeMangling s;
  frame_stack : (length (NodeStack s') <= length (NodeStack s))%nat
}.

(** The crashes that a mangled name can cause while it is parsed. *)
Inductive parse_crash : crash -> Prop :=
  | crash_keyPath :
      parse_crash (NullPointer "demangleThunkOrSpecialization: result->addChild")
  | crash_appendInt : parse_crash (AssertionFailed "CharVector::append")
  | crash_adapt : parse_crash (DivisionByZero "adapt").

(** ** Specifications *)

(** [Spec m P]: from a state with the invariant, [m] ends in one related to it
    by [P], or in one of the crashes above. *)
Class Spec {A} (m : DM A) (P : Demangler -> A -> Demangler -> Prop) : Prop :=
  spec : forall s, inv s -> wp parse_crash m (P s) s.

(** An operation that only pops nodes: its result, when there is one, is well
    formed and has [R], and at least one node is gone from the stack. *)
Record popped (R : Node -> Prop) (s : Demangler) (r : NodePointer) (s' : Demangler) : Prop := {
  popped_inv : inv s';
  popped_frame : frame s s';
  popped_pos : Pos s' = Pos s;
  popped_node : forall n, r = Some n ->
    wf n /\ R n /\ (length (NodeStack s') < length (NodeStack s))%nat
}.

(** An operation that reads characters: on success it has not moved back. *)
Record handled (R : Node -> Prop) (s : Demangler) (r : NodePointer) (s' : Demangler) : Prop := {
  handled_inv : inv s';
  handled_frame : frame s s';
  handled_node : forall n, r = Some n -> wf n /\ R n /\ (Pos s <= Pos s')%nat
}.

(** An operation that reads characters and returns no node. *)
Record read {A} (s : Demangler) (r : A) (s' : Demangler) : Prop := {
  read_inv : inv s';
  read_frame : frame s s';
  read_pos : (Pos s <= Pos s')%nat;
  read_stack : NodeStack s' = NodeStack s
}.

(** A number that was read: [-1000] stands for failure. *)
Definition numberRead (s : Demangler) (r : Z) (s' : Demangler) : Prop :=
  read s r s' /\ (- 2 ^ 31 <= r <= -1000 \/ (0 <= r < 2 ^ 31 /\ (Pos s < Pos s')%nat)).

(** A type and the label list that go with it. *)
Definition labelled (Type_ : NodePointer) (s : Demangler) (r : NodePointer * NodePointer)
    (s' : Demangler) : Prop :=
  inv s' /\ frame s s' /\ Pos s' = Pos s
  /\ (forall n, r.1 = Some n -> wf n /\ getKind n = K_LabelList)
  /\ (forall n, r.2 = Some n -> wf n /\ getKind n = K_Type)
  /\ (r.2 = None <-> Type_ = None)
  /\ (forall l, r.1 = Some l -> forall n, r.2 = Some n -> labelsFit l n = true)
  /\ (forall n, r.2 = Some n -> exists T, Type_ = Some T /\ forall k, typeOf k n = typeOf k T).

Lemma frame_refl s : frame s s.
Proof. by split. Qed.

Lemma frame_trans s1 s2 s3 : frame s1 s2 -> frame s2 s3 -> frame s1 s3.
Proof. intros [? ? ?] [? ? ?]. split; [congruence..|lia]. Qed.

Lemma inv_setPos p s : inv s -> (p <= length (Text s))%nat -> inv (setPos p s).
Proof. by intros [] ?. Qed.

Lemma inv_setNodeStack l s : inv s -> Forall wf l -> inv (setNodeStack l s).
Proof. by intros [] ?. Qed.

Lemma frame_setPos p s : frame s (setPos p s).
Proof. by split. Qed.

Lemma inv_substitution s n :
  inv s -> wf n -> substitutable n = true ->
  inv (setSubstitutions (Substitutions s ++ [n]) s).
Proof. intros [] ? ?. split; cbn; auto using Forall_app_2. Qed.

Lemma frame_lengths s s' :
  frame s s' -> length (Text s') = length (Text s)
                /\ (length (NodeStack s') <= length (NodeStack s))%nat.
Proof. intros [H ? ?]. by rewrite H. Qed.

Lemma inv_lengths s :
  inv s -> (0 < length (Text s))%nat /\ (Pos s <= length (Text s))%nat
           /\ (length (Words s) <= 26)%nat.
Proof. by intros []. Qed.

(** ** Automation *)

(** Facts about the loops, added where they are proved. *)
Ltac facts_hook := fail.

(** Turn the records of the specifications into their parts. *)
Ltac facts :=
  repeat match goal with
  | H : popped _ _ _ _ |- _ => destruct H as [? ? ? ?]
  | H : handled _ _ _ _ |- _ => destruct H as [? ? ?]
  | H : numberRead _ _ _ |- _ => destruct H
  | H : labelled _ _ _ _ |- _ => destruct H as (? & ? & ? & ? & ? & _ & ? & ?)
  | H : read _ _ _ |- _ => destruct H as [? ? ? ?]
  | H : _ /\ _ |- _ => destruct H
  | H : exists _, _ |- _ => destruct H
  | H : forall n, Some ?x = Some n -> _ |- _ => specialize (H x eq_refl)
  | H : forall n, None = Some n -> _ |- _ => clear H
  | H : Some _ = Some _ |- _ => injection H as ?; subst
  | H : Some _ = None |- _ => discriminate H
  | H : ?o = Some _ |- _ => is_var o; subst o
  | H : None = Some _ |- _ => discriminate H
  | H : ofKind _ _ = true |- _ => apply ofKind_true in H
  | H : Kind_eqb _ _ = true |- _ => apply Kind_eqb_eq in H
  | H : negb _ = true |- _ => apply negb_true_iff in H
  | H : negb _ = false |- _ => apply negb_false_iff in H
  | H : _ && _ = true |- _ => apply andb_true_iff in H
  | H : _ || _ = false |- _ => apply orb_false_iff in H
  | H : typeOf _ (mkNode _ _ _) = true |- _ => cbn in H
  | H : isSome ?o = true |- _ => destruct o; [clear H|discriminate H]
  | H : isSome ?o = false |- _ => destruct o; [discriminate H|clear H]
  | H : Z.ltb _ _ = true |- _ => apply Z.ltb_lt in H
  | H : Z.ltb _ _ = false |- _ => apply Z.ltb_ge in H
  | H : Z.leb _ _ = true |- _ => apply Z.leb_le in H
  | H : Z.leb _ _ = false |- _ => apply Z.leb_gt in H
  | H : Z.eqb _ _ = true |- _ => apply Z.eqb_eq in H
  | H : Z.eqb _ _ = false |- _ => apply Z.eqb_neq in H
  | H : Nat.ltb _ _ = true |- _ => apply Nat.ltb_lt in H
  | H : Nat.ltb _ _ = false |- _ => apply Nat.ltb_ge in H
  | H : Ascii.eqb _ _ = true |- _ => apply Ascii.eqb_eq in H
  | H : Ascii.eqb _ _ = false |- _ => apply Ascii.eqb_neq in H
  | H : @eq Demangler ?s' _ |- _ => subst s'
  | H : @eq ascii ?c _ |- _ => subst c
  | H : ?k = ?k |- _ => clear H
  | _ => facts_hook
  end.

(** Positions and stack sizes: linear arithmetic over the frames. *)
Ltac arith :=
  repeat match goal with
  | H : frame _ _ |- _ => apply frame_lengths in H as [? ?]
  | H : inv _ |- _ => apply inv_lengths in H as (? & ? & ?)
  end;
  cbn in *; lia.

Ltac solve_frame :=
  repeat match goal with H : frame _ _ |- _ => destruct H end;
  split; cbn in *; [congruence|congruence|lia].

(** ** Primitives *)

#[export] Instance spec_popNodeIf pred :
  Spec (popNodeIf pred) (popped (fun n => pred (getKind n) = true)).
Proof.
  intros s Hs. unfold wp, popNodeIf. destruct (NodeStack s) as [|n rest] eqn:E.
  { split; [done|apply frame_refl|done|done]. }
  pose proof (inv_stack _ Hs) as Hst. rewrite E in Hst. inversion Hst; subst.
  destruct (pred (getKind n)) eqn:Hp.
  - split; [by apply inv_setNodeStack|split; cbn; rewrite ?E; cbn; auto with lia|done|].
    intros ? [= <-]. cbn. rewrite E. cbn. auto with lia.
  - split; [done|apply frame_refl|done|done].
Qed.

Lemma popped_weaken (R R' : Node -> Prop) s r s' :
  popped R s r s' -> (forall n, R n -> R' n) -> popped R' s r s'.
Proof.
  intros [? ? ? Hn] HR. split; [done..|]. intros n ->.
  destruct (Hn n eq_refl) as (? & ? & ?). auto.
Qed.

#[export] Instance spec_popNodeKind k :
  Spec (popNodeKind k) (popped (fun n => getKind n = k)).
Proof.
  intros s Hs. eapply wp_mono; [apply spec_popNodeIf, Hs|]. cbn.
  intros r s' H. eapply popped_weaken; [exact H|]. cbn. intros n. apply Kind_eqb_eq.
Qed.

#[export] Instance spec_popNode : Spec popNode (popped (fun _ => True)).
Proof.
  intros s Hs. eapply wp_mono; [apply (spec_popNodeIf (fun _ => true)), Hs|].
  intros r s' H. eapply popped_weaken; [exact H|done].
Qed.

(** What a character read tells about the position. *)
Record charRead (s : Demangler) (c : ascii) (s' : Demangler) : Prop := {
  charRead_inv : inv s';
  charRead_frame : frame s s';
  charRead_char : c = default NUL (Text s !! Pos s);
  charRead_stack : NodeStack s' = NodeStack s;
  charRead_pos : (c = NUL /\ Pos s = length (Text s) /\ Pos s' = Pos s)
                 \/ Pos s' = S (Pos s)
}.

Lemma charRead_some s c s' : charRead s c s' -> c <> NUL -> Pos s' = S (Pos s).
Proof. intros [_ _ _ _ [(-> & _)|]]; done. Qed.

Lemma lookup_inv_pos s c : Text s !! Pos s = Some c -> (Pos s < length (Text s))%nat.
Proof. intros H. by apply lookup_lt_Some in H. Qed.

#[export] Instance spec_nextChar : Spec nextChar charRead.
Proof.
  intros s Hs. unfold wp, nextChar. destruct (Text s !! Pos s) eqn:E.
  - pose proof (lookup_inv_pos _ _ E).
    split; [apply inv_setPos; [done|lia]|by split|by rewrite E|done|cbn; right; lia].
  - split; [done|apply frame_refl|by rewrite E|done|left]. split; [done|].
    apply lookup_ge_None in E. pose proof (inv_pos _ Hs). lia.
Qed.

#[export] Instance spec_peekChar :
  Spec peekChar (fun s c s' => s' = s /\ c = default NUL (Text s !! Pos s)).
Proof. by intros s Hs. Qed.

#[export] Instance spec_gets {A} (f : Demangler -> A) :
  Spec (gets f) (fun s r s' => s' = s /\ r = f s).
Proof. by intros s Hs. Qed.

Lemma peek_pos s c : default NUL (Text s !! Pos s) = c -> c <> NUL -> (Pos s < length (Text s))%nat.
Proof. destruct (Text s !! Pos s) eqn:E; cbn; intros <- ?; [by eapply lookup_inv_pos|done]. Qed.

#[export] Instance spec_nextIf c :
  TCEq (Ascii.eqb c NUL) false ->
  Spec (nextIf c) (fun s r s' => read s r s' /\ Pos s' = (Pos s + if r then 1 else 0)%nat).
Proof.
  intros Hc s Hs. apply TCEq_eq, Ascii.eqb_neq in Hc.
  apply wp_bind, wp_gets. destruct (Ascii.eqb_spec (default NUL (Text s !! Pos s)) c) as [He|He].
  - apply wp_bind, wp_modify, wp_ret. pose proof (peek_pos _ _ He Hc).
    split; [split; cbn; [apply inv_setPos; [done|lia]|apply frame_setPos|lia|done]|done].
  - apply wp_ret. split; [split; auto using frame_refl|lia].
Qed.

(** A push-back after a read: back where the read started, or, at the end of the
    text, one character before the end. *)
Lemma spec_pushBack s0 c s Q :
  inv s0 -> charRead s0 c s ->
  (forall s', inv s' -> frame s0 s' -> NodeStack s' = NodeStack s0 ->
     (Pos s' = Nat.min (Pos s0) (length (Text s0) - 1))%nat -> Q tt s') ->
  wp parse_crash pushBack Q s.
Proof.
  intros Hs0 [Hs Hf _ Hst Hpos] HQ. pose proof (frame_lengths _ _ Hf) as [Hlen _].
  destruct (inv_lengths _ Hs0) as (? & ? & _). destruct (inv_lengths _ Hs) as (? & ? & _).
  apply wp_bind, wp_gets, wp_bind, wp_assert; [apply Nat.ltb_lt; lia|].
  apply wp_modify, HQ; cbn.
  - apply inv_setPos; [done|lia].
  - eapply frame_trans; [done|apply frame_setPos].
  - done.
  - lia.
Qed.

Lemma wp_addSubstitution Nd s (Q : unit -> Demangler -> Prop) :
  inv s -> (forall n, Nd = Some n -> wf n /\ substitutable n = true) ->
  (forall s', inv s' -> frame s s' -> Pos s' = Pos s -> NodeStack s' = NodeStack s -> Q tt s') ->
  wp parse_crash (addSubstitution Nd) Q s.
Proof.
  intros Hs HN HQ. destruct Nd as [n|].
  - destruct (HN n eq_refl) as [Hw Hsub]. apply wp_modify. apply HQ; [|by split|done..].
    by apply inv_substitution.
  - apply wp_ret. apply HQ; auto using frame_refl.
Qed.

#[export] Instance spec_pushNode n : 
  TCNoBackTrack (wf n) ->
  Spec (pushNode n) (fun s _ s' => inv s' /\ Text s' = Text s /\ Pos s' = Pos s
     /\ IsOldFunctionTypeMangling s' = IsOldFunctionTypeMangling s
     /\ length (NodeStack s') = S (length (NodeStack s))).
Proof.
  intros [Hn] s Hs. apply wp_modify. split; [|done].
  apply inv_setNodeStack; [done|]. constructor; [done|apply Hs].
Qed.

(** ** Symbolic execution of a handler *)

#[global] Arguments isContext !kind /.
#[global] Arguments isDeclName !kind /.
#[global] Arguments isAnyGeneric !kind /.
#[global] Arguments isBoundGeneric !k /.
#[global] Arguments isEntity !kind /.
#[global] Arguments isRequirement !kind /.
#[global] Arguments isSignature !k /.
#[global] Arguments isLabel !k /.
#[global] Arguments isTypeChild !k /.
#[global] Arguments isFunctionAttr !kind /.
#[global] Arguments Kind_eqb !k1 !k2 /.

Section accessor_rules.
Context {E : crash -> Prop} (k : Kind) (p : Payload) (s : Demangler).

Lemma wp_getFirstChild c cs (Q : Node -> Demangler -> Prop) :
  Q c s -> wp E (getFirstChild (mkNode k p (c :: cs))) Q s.
Proof. done. Qed.

Lemma wp_getChild i c cs (Q : Node -> Demangler -> Prop) :
  cs !! i = Some c -> Q c s -> wp E (getChild (mkNode k p cs) i) Q s.
Proof. intros H ?. unfold wp, getChild. cbn. by rewrite H. Qed.

Lemma wp_getText t cs (Q : str -> Demangler -> Prop) :
  Q t s -> wp E (getText (mkNode k (TextPayload t) cs)) Q s.
Proof. done. Qed.

Lemma wp_getIndex i cs (Q : Z -> Demangler -> Prop) :
  Q i s -> wp E (getIndex (mkNode k (IndexPayload i) cs)) Q s.
Proof. done. Qed.
End accessor_rules.

Lemma wp_getText_wf {E} n s (Q : str -> Demangler -> Prop) :
  wf n -> payload_shape (getKind n) NoPayload = false ->
  payload_shape (getKind n) (IndexPayload 0) = false ->
  (forall t, payload n = TextPayload t -> Q t s) -> wp E (getText n) Q s.
Proof.
  destruct n as [k p cs]. intros Hs%wf_shape H1 H2 HQ. unfold shape in Hs. cbn in *.
  rewrite !andb_true_iff in Hs. destruct Hs as [[Hp _] _].
  destruct p; [congruence|by apply HQ|]. destruct k; discriminate.
Qed.

Lemma wp_reverseChildren {E} n i s (Q : Node -> Demangler -> Prop) :
  (i <= getNumChildren n)%nat ->
  Q (mkNode (getKind n) (payload n) (take i (children n) ++ reverse (drop i (children n)))) s ->
  wp E (reverseChildren n i) Q s.
Proof. intros Hi HQ. by apply wp_bind, wp_assert; [apply Nat.leb_le|apply wp_ret]. Qed.

(** Invert the shape of a node of known kind. *)
Ltac invert_shape Hw Hk :=
  match type of Hw with
  | wf ?n =>
      let p := fresh "p" in let cs := fresh "cs" in
      destruct n as [? p cs]; cbn in Hk; subst; apply wf_inv in Hw as [Hk Hw]; [|reflexivity]; cbn in Hw;
      destruct p; try discriminate Hk
  end.

Lemma wf_Identifier n :
  wf n -> getKind n = K_Identifier -> exists t, n = mkNode K_Identifier (TextPayload t) [].
Proof. intros Hw Hk. invert_shape Hw Hk. destruct cs; [eauto|discriminate]. Qed.

Lemma wf_Type n :
  wf n -> getKind n = K_Type -> exists c, n = mkNode K_Type NoPayload [c] /\ wf c /\ isTypeChild (getKind c) = true.
Proof.
  intros Hw Hk. invert_shape Hw Hk. unfold shape in Hk. cbn -[isTypeChild] in Hk.
  destruct cs as [|c [|]]; try discriminate; [|by rewrite andb_false_r in Hk].
  rewrite andb_true_r, orb_false_r in Hk. inversion Hw. eauto.
Qed.

(** The nodes whose structure the handlers inspect, taken apart. *)
Ltac open_nodes :=
  repeat match goal with
  | Hw : wf ?n, Hk : getKind ?n = K_Identifier |- _ =>
      is_var n; let t := fresh "text" in destruct (wf_Identifier n Hw Hk) as [t ->]; cbn in Hk
  | Hw : wf ?n, Hk : getKind ?n = K_Type |- _ =>
      is_var n; let c := fresh "child" in
      destruct (wf_Type n Hw Hk) as (c & -> & ? & ?); cbn in Hk
  end.

(** What the characters that were read tell. *)
Ltac chars :=
  repeat match goal with
  | H : charRead ?s0 ?c ?s1 |- _ =>
      first
        [ assert (Pos s1 = S (Pos s0)) by
            (apply (charRead_some _ _ _ H);
             first [discriminate | assumption | congruence | by intros ->])
        | pose proof (charRead_pos _ _ _ H) ];
      pose proof (charRead_inv _ _ _ H); pose proof (charRead_frame _ _ _ H);
      pose proof (charRead_stack _ _ _ H); clear H
  end.

Ltac solve_inv :=
  match goal with
  | |- inv _ => assumption
  | H : charRead _ _ ?s |- inv ?s => exact (charRead_inv _ _ _ H)
  end.

(** Pushing substitutions is the one way the stack grows inside a handler. *)
Record grown (s s' : Demangler) : Prop := {
  grown_inv : inv s';
  grown_text : Text s' = Text s;
  grown_old : IsOldFunctionTypeMangling s' = IsOldFunctionTypeMangling s;
  grown_pos : (Pos s <= Pos s')%nat;
  grown_stack : Z.of_nat (length (NodeStack s'))
    <= Z.of_nat (length (NodeStack s)) + 2048 * (Z.of_nat (Pos s') - Z.of_nat (Pos s))
}.

Lemma grown_refl s : inv s -> grown s s.
Proof. intros Hs. split; (done || lia). Qed.

Lemma grown_trans s1 s2 s3 : grown s1 s2 -> grown s2 s3 -> grown s1 s3.
Proof. intros [] []. split; [done|congruence|congruence|lia|lia]. Qed.

Lemma grown_frame s s' : inv s' -> frame s s' -> (Pos s <= Pos s')%nat -> grown s s'.
Proof. intros ? [] ?. split; [done..|lia]. Qed.

Ltac lengths :=
  repeat match goal with
  | H : frame _ _ |- _ => destruct H
  | H : grown _ _ |- _ => destruct H
  end;
  repeat match goal with
  | H : Text ?a = Text ?b |- _ =>
      lazymatch goal with
      | _ : length (Text a) = length (Text b) |- _ => fail
      | |- _ => assert (length (Text a) = length (Text b)) by (rewrite H; reflexivity)
      end
  end;
  repeat match goal with
  | H : inv ?s |- _ =>
      lazymatch goal with
      | _ : (Pos s <= length (Text s))%nat |- _ => fail
      | |- _ => pose proof (inv_pos _ H)
      end
  end.

Ltac solve_grown :=
  chars; lengths; split; cbn in *;
  [assumption || (apply inv_setNodeStack; [assumption|constructor; [auto|apply inv_stack; assumption]])
  |congruence|congruence|lia|lia].

(** Rewrite with what is known of kinds, and compute. *)
Ltac kinds :=
  unfold labelsFit', ofKind, kindIn, anyNode, isParent;
  repeat match goal with
  | H : getKind ?x = _ |- context [getKind ?x] => rewrite H
  | H : typeOf ?k ?x = true |- context [typeOf ?k ?x] => rewrite H
  | H : labelsFit ?l ?x = true |- context [labelsFit ?l ?x] => rewrite H
  | H : ?p (getKind ?x) = true |- context [?p (getKind ?x)] => rewrite H
  | H : ?p (getKind ?x) = false |- context [?p (getKind ?x)] => rewrite H
  end;
  cbn; unfold getNumChildren; rewrite ?orb_true_r, ?Z.eqb_refl; try done.

Ltac solve_wf :=
  repeat match goal with
  | |- wf _ => first [assumption | apply wf_intro; cbn [app]]
  | |- Forall wf [] => apply Forall_nil_2
  | |- Forall wf (_ :: _) => apply Forall_cons_2
  | |- Forall wf _ => assumption
  | |- Forall wf (_ ++ _) => first [apply Forall_app_2 | progress cbn]
  | |- Forall wf _ => progress (unfold BuiltinTypeName, createNode, createNodeText, createNodeIndex; cbn)
  | |- shape _ _ _ = true => unfold shape; cbn; kinds
  end.

(** The node a handler returns, from the nodes it was built of. *)
Ltac nodes :=
  unfold BuiltinTypeName, createSwiftType, createType, createWithChild, createWithChildren2,
    createWithChildren3, createWithChildren4, addChild, addChildTo, changeKind, nodeAddChild,
    createNode, createNodeText, createNodeIndex;
  cbn;
  repeat match goal with
  | |- context [match ?o with Some _ => _ | None => _ end] =>
      is_var o; destruct o; facts; cbn
  | |- context [isSome ?o] => is_var o; destruct o; facts; cbn
  | |- forall n, ?o = Some n -> _ => is_var o; destruct o; facts
  end;
  intros ? [= <-];
  facts; open_nodes; facts; cbn.

Ltac build :=
  nodes; split_and!;
  lazymatch goal with
  | |- wf _ => solve_wf
  | |- grown _ _ => solve_grown
  | |- _ => first [done | progress (cbn; kinds) | arith | by eauto]
  end.

#[global] Arguments labelsFit : simpl never.
#[global] Arguments addSubstitution : simpl never.
#[global] Arguments pushNode : simpl never.
#[global] Arguments reverseChildren : simpl never.
#[global] Arguments removeChildAt : simpl never.
#[global] Arguments getText : simpl never.
#[global] Arguments getChild : simpl never.
#[global] Arguments getFirstChild : simpl never.
#[global] Arguments getIndex : simpl never.

(** Operations with a precondition of their own, added where they are proved. *)
Ltac run_hook := fail.

(** One step; [spec] covers the operations. *)
Ltac run_step :=
  cbv beta zeta;
  match goal with
  | |- wp _ (bind _ _) _ _ => apply wp_bind
  | |- wp _ (ret _) _ _ => apply wp_ret
  | |- wp _ (gets _) _ _ => apply wp_gets
  | |- wp _ (addSubstitution _) _ _ =>
      apply wp_addSubstitution; [solve_inv|build|intros ? ? ? ? ?]
  | |- wp _ (switch _ _ _) _ _ =>
      apply switch_ind;
        [repeat (apply Forall_cons_2; [cbn [fst snd]; intros ->|]); try apply Forall_nil_2
        |cbn [fst snd]; intros ?]
  | |- wp _ (getFirstChild (mkNode _ _ (_ :: _))) _ _ => apply wp_getFirstChild
  | |- wp _ (getChild (mkNode _ _ _) _) _ _ => eapply wp_getChild; [reflexivity|]
  | |- wp _ (getFirstChild ?n) _ _ =>
      let n' := eval cbv [nodeAddChild createNode getKind payload children app] in n in
      progress change n with n'
  | |- wp _ (getText (mkNode _ (TextPayload _) _)) _ _ => apply wp_getText
  | Hw : wf ?n, Hk : getKind ?n = _ |- wp _ (getText ?n) _ _ =>
      apply (wp_getText_wf n); [exact Hw|rewrite Hk; reflexivity..|intros ? ?]
  | |- wp _ (getIndex (mkNode _ (IndexPayload _) _)) _ _ => apply wp_getIndex
  | H : charRead ?s0 _ ?s |- wp _ pushBack _ ?s =>
      eapply spec_pushBack; [|exact H|]; [solve_inv|intros ? ? ? ? ?]
  | |- wp _ (if ?b then _ else _) _ _ => destruct b eqn:?; cbn in *; facts; try discriminate
  | |- wp _ (match ?o with Some _ => _ | None => _ end) _ _ =>
      destruct o eqn:?; subst; facts; open_nodes; cbn
  | |- wp _ (let '(_, _) := ?p in _) _ _ => destruct p; cbn [fst snd] in *
  | |- _ => run_hook
  | |- wp _ _ _ _ =>       eapply wp_mono;
        [notypeclasses refine (@spec _ _ _ _ _ _); [typeclasses eauto|solve_inv]
        |intros ? ? ?; cbv beta in *; facts]
  end.

Ltac run := repeat run_step; facts.

Ltac finish :=
  cbv beta; facts; chars;
  lazymatch goal with
  | |- forall n, _ = Some n -> _ => build
  | |- popped _ _ _ _ => split; [assumption|solve_frame|arith|build]
  | |- handled _ _ _ _ => split; [assumption|solve_frame|build]
  | |- read _ _ _ => split; [assumption|solve_frame|arith|cbn in *; congruence]
  end.

(** ** Loops *)

(** [while_] with an invariant and a measure that the fuel covers on entry. *)
Lemma wp_while {A B} (I : A -> Demangler -> Prop) (f : A -> Demangler -> nat)
    (body : A -> DM (A + B)) (Q : B -> Demangler -> Prop) a s :
  I a s -> (f a s <= length (Text s) + length (NodeStack s))%nat ->
  (forall a s, I a s ->
    wp parse_crash (body a) (fun r s' =>
      match r with
      | inl a' => I a' s' /\ (f a' s' < f a s)%nat
      | inr b => Q b s'
      end) s) ->
  wp parse_crash (while_ body a) Q s.
Proof.
  intros HI Hf Hbody.
  assert (wp parse_crash (loop (loop_fuel s) body a) Q s) as H; [|exact H].
  apply (wp_loop I f); [exact HI|unfold loop_fuel; lia|exact Hbody].
Qed.

(** The characters left. *)
Definition rest (s : Demangler) : nat := length (Text s) - Pos s.
