(* ===== verification/DemanglerSafety.v ===== *)
(** * Every operator keeps the invariant *)

From Stdlib Require Import String.
From S2P Require Import Prelude Nodes ManglingUtils Punycode PunycodeSpecs IdentifierMangling Demangler NodeShape DemanglerSpecs.

#[export] Instance spec_popModule : Spec popModule (popped (fun n => getKind n = K_Module)).
Proof. intros s Hs. unfold popModule. run; finish. Qed.

#[export] Instance spec_popContext :
  Spec popContext (popped (fun n => isContext (getKind n) = true)).
Proof. intros s Hs. unfold popContext. run; finish. Qed.
#[export] Instance spec_popTypeAndGetChild :
  Spec popTypeAndGetChild (popped (fun n => isTypeChild (getKind n) = true)).
Proof. intros s Hs. unfold popTypeAndGetChild. run; finish. Qed.

#[export] Instance spec_popTypeAndGetAnyGeneric :
  Spec popTypeAndGetAnyGeneric (popped (fun n => isAnyGeneric (getKind n) = true)).
Proof. intros s Hs. unfold popTypeAndGetAnyGeneric. run; finish. Qed.

#[export] Instance spec_popProtocol :
  Spec popProtocol (popped (fun n => typeOf K_Protocol n = true /\ getKind n = K_Type)).
Proof. intros s Hs. unfold popProtocol. run; finish. Qed.

(** ** Numbers *)

Lemma isDigit_not_NUL c : isDigit c = true -> c <> NUL.
Proof. intros H ->. discriminate H. Qed.

#[export] Instance spec_demangleNatural : Spec demangleNatural numberRead.
Proof.
  intros s Hs. unfold demangleNatural. run.
  { split; [finish|lia]. }
  apply wp_while with
    (I := fun num s1 => read s num s1 /\ 0 <= num < 2 ^ 31
            /\ (Pos s1 = Pos s -> isDigit (default NUL (Text s1 !! Pos s1)) = true))
    (f := fun _ s1 => rest s1).
  - split; [finish|]. split; [lia|done].
  - unfold rest. lia.
  - intros num s1 [Hr [Hnum Hd]]. facts. unfold demangleNatural_step. run.
    + split; [finish|right]. split; [lia|].
      destruct (decide (Pos s1 = Pos s)) as [He|]; [|lia].
      rewrite (Hd He) in *. discriminate.
    + split; [finish|lia].
    + assert (Pos s' = S (Pos s1)) as Hpos.
      { eapply charRead_some; [done|]. destruct H1 as [_ _ -> _ _]. by apply isDigit_not_NUL. }
      destruct H1.
      unfold rest. split; [|arith]. split; [finish|split; [|arith]].
      pose proof (wrap_int_range (wrap_int (10 * num) + (ord (default NUL (Text s1 !! Pos s1)) - ord "0"))).
      lia.
Qed.

(** ** Indices *)

#[export] Instance spec_demangleIndex : Spec demangleIndex numberRead.
Proof.
  intros s Hs. unfold demangleIndex. run.
  - split; [finish|lia].
  - split; [finish|]. destruct (wrap_int_succ a0); lia.
  - split; [finish|lia].
  - split; [finish|lia].
Qed.

#[export] Instance spec_demangleIndexAsNode :
  Spec demangleIndexAsNode (fun s r s' =>
    handled (fun n => getKind n = K_Number) s r s' /\ (Pos s <= Pos s')%nat).
Proof. intros s Hs. unfold demangleIndexAsNode. run; (split; [finish|arith]). Qed.

(** ** Substitutions *)

Lemma pushRepeated_eq n Nd s :
  pushRepeated n Nd s = Ok (tt, setNodeStack (repeat Nd n ++ NodeStack s) s).
Proof.
  revert s. induction n as [|n IH]; intros s; [by destruct s|].
  cbn. unfold bind, pushNode, modify. rewrite IH. unfold setNodeStack. cbn.
  change (Nd :: NodeStack s) with ([Nd] ++ NodeStack s).
  rewrite app_assoc, <-repeat_cons. done.
Qed.

Lemma wp_pushRepeated n Nd s (Q : unit -> Demangler -> Prop) :
  inv s -> wf Nd ->
  (inv (setNodeStack (repeat Nd n ++ NodeStack s) s) ->
   Q tt (setNodeStack (repeat Nd n ++ NodeStack s) s)) ->
  wp parse_crash (pushRepeated n Nd) Q s.
Proof.
  intros Hs Hw HQ. unfold wp. rewrite pushRepeated_eq. apply HQ, inv_setNodeStack; [done|].
  apply Forall_app_2; [|apply Hs]. rewrite List.Forall_forall. intros x ->%repeat_spec. done.
Qed.

Lemma wf_substitution s i n : inv s -> Substitutions s !! i = Some n -> wf n.
Proof. intros Hs. apply Forall_lookup_1, inv_substs, Hs. Qed.

(** What [pushMultiSubstitutions] and the standard substitutions do. *)
Definition pushed (s : Demangler) (r : NodePointer) (s' : Demangler) : Prop :=
  inv s' /\ Text s' = Text s /\ Pos s' = Pos s
  /\ IsOldFunctionTypeMangling s' = IsOldFunctionTypeMangling s
  /\ Z.of_nat (length (NodeStack s')) <= Z.of_nat (length (NodeStack s)) + 2047
  /\ forall n, r = Some n -> wf n.

Lemma wp_pushRepeated_pushed RepeatCount Nd s :
  inv s -> wf Nd -> RepeatCount <= MaxRepeatCount ->
  wp parse_crash (pushRepeated (Z.to_nat (RepeatCount - 1)) Nd ;; ret (Some Nd)) (pushed s) s.
Proof.
  intros Hs Hw Hr. apply wp_bind, wp_pushRepeated; [done..|]. intros Hi. apply wp_ret.
  split; [done|]. repeat split; cbn.
  - rewrite length_app, repeat_length. unfold MaxRepeatCount in Hr. lia.
  - by intros ? [= <-].
Qed.

#[export] Instance spec_pushMultiSubstitutions RepeatCount SubstIdx :
  Spec (pushMultiSubstitutions RepeatCount SubstIdx) pushed.
Proof.
  intros s Hs. unfold pushMultiSubstitutions. apply wp_bind, wp_gets.
  assert (pushed s None s) as Hnone by (split_and!; (done || lia)).
  destruct (Substitutions s !! SubstIdx) as [Nd|] eqn:E; [|done].
  destruct (Z.ltb_spec MaxRepeatCount RepeatCount); [done|].
  apply wp_pushRepeated_pushed; [done| |done].
  by eapply wf_substitution.
Qed.

#[export] Instance spec_demangleMultiSubstitutions :
  Spec demangleMultiSubstitutions (fun s r s' => grown s s' /\ forall n, r = Some n -> wf n).
Proof.
  intros s Hs. unfold demangleMultiSubstitutions.
  apply wp_while with (I := fun _ s1 => grown s s1) (f := fun _ s1 => rest s1).
  - split; (done || lia).
  - unfold rest. lia.
  - intros num s1 Hg. unfold demangleMultiSubstitutions_step. pose proof (grown_inv _ _ Hg). run.
    all: unfold pushed in *; facts.
    all: split; [try solve_grown|try done].
    all: unfold rest; chars; lengths; cbn in *; try lia.
    intros n Hn. eapply wf_substitution; [|exact Hn]. assumption.
Qed.

Lemma standard_type_wf c n : createStandardSubstitution c = Some n -> wf n.
Proof.
  unfold createStandardSubstitution. destruct (find _ _) as [[[k c'] name]|] eqn:E; [|done].
  apply find_some in E as [Hin _]. intros [= <-].
  assert (forallb (fun e => match createSwiftType e.1.1 e.2 with Some n => wf_node n | None => true end)
            STANDARD_TYPES = true) as H by (vm_compute; reflexivity).
  rewrite forallb_forall in H. exact (H _ Hin).
Qed.

Lemma standard_type_not_NUL c n : createStandardSubstitution c = Some n -> c <> NUL.
Proof. by intros H ->. Qed.

#[export] Instance spec_demangleStandardSubstitution :
  Spec demangleStandardSubstitution (fun s r s' =>
    inv s' /\ forall n, r = Some n -> grown s s' /\ wf n).
Proof.
  intros s Hs. unfold demangleStandardSubstitution. run.
  all: try (split; [solve_inv|finish]).
  match goal with H : createStandardSubstitution _ = Some _ |- _ =>
    pose proof (standard_type_not_NUL _ _ H); pose proof (standard_type_wf _ _ H) end.
  apply wp_pushRepeated; [solve_inv|done|intros Hi]. apply wp_ret. split; [done|]. intros ? [= <-].
  split; [|done]. chars. lengths. unfold MaxRepeatCount in *.
  split; cbn in *; [assumption|congruence|congruence|lia|].
  rewrite length_app, repeat_length. cbn in *. lia.
Qed.

(** ** Identifiers *)

(** The index of a word letter is below 26. *)
Lemma isLetter_index c :
  isLetter c = true ->
  0 <= (if isLowerLetter c then ord c - ord "a" else ord c - ord "A") < 26.
Proof.
  unfold isLetter, isLowerLetter, isUpperLetter, inRange.
  change (ord "a") with 97. change (ord "z") with 122. change (ord "A") with 65. change (ord "Z") with 90.
  destruct (Z.leb_spec 97 (ord c)), (Z.leb_spec (ord c) 122), (Z.leb_spec 65 (ord c)),
    (Z.leb_spec (ord c) 90); cbn; (discriminate || lia).
Qed.

#[export] Instance spec_wordSubst st :
  Spec (while_ wordSubst_step st) (fun s r s' => read s r s').
Proof.
  intros s Hs. apply wp_while with (I := fun _ s1 => read s tt s1) (f := fun _ s1 => rest s1).
  - finish.
  - unfold rest. lia.
  - intros [hasWordSubsts Identifier] s1 Hr. facts. unfold wordSubst_step. run.
    1: match goal with H : charRead s1 ?a ?s' |- _ =>
         assert (isLetter a = true) as Ha by (rewrite (charRead_char _ _ _ H); assumption);
         assert (a <> NUL) by (by intros ->)
       end.
    2: finish.
    pose proof (isLetter_index _ Ha) as Hi.
    apply wp_assert; [exact Ha|]. do 2 run_step.
    match goal with |- wp _ (match ?l !! ?i with _ => _ end) _ _ => destruct (l !! i) as [Slice|] end.
    2: { apply wp_ret. finish. }
    apply wp_bind, wp_assert; [apply Z.ltb_lt; lia|]. apply wp_ret.
    split; [finish|]. unfold rest. chars. arith.
Qed.

#[export] Instance spec_decodePunycodeUTF8 (input : str) :
  Spec (decodePunycodeUTF8 input) (fun s _ s' => s' = s).
Proof. intros s Hs. by apply wp_decodePunycodeUTF8; [constructor|]. Qed.

Lemma scanWords_length n Slice Idx wordStartPos Words :
  (length Words <= 26)%nat -> (length (scanWords n Slice Idx wordStartPos Words) <= 26)%nat.
Proof.
  revert Idx wordStartPos Words. induction n as [|n IH]; intros Idx wsp Words Hw; [done|].
  cbn -[Nat.leb Nat.ltb]. destruct wsp as [wstart|]; [|by apply IH].
  destruct (isWordEnd _ _); [|by apply IH].
  apply IH. destruct (_ && _) eqn:Hb; [|done].
  apply andb_true_iff in Hb as [_ Hb%Nat.ltb_lt]. rewrite length_app. cbn. lia.
Qed.

Lemma inv_setWordList ws s : inv s -> (length ws <= 26)%nat -> inv (setWordList ws s).
Proof. by intros [] ?. Qed.

(** The end of a round: the slice of [n] characters is taken off the text. *)
Lemma wp_takeSlice s s1 s2 n (hasWordSubsts : bool) (Identifier : str) :
  read s tt s1 -> read s1 tt s2 -> (0 < n)%nat -> (Pos s2 + n <= length (Text s2))%nat ->
  wp parse_crash
    (modify (fun s => setPos (Pos s + n) s) ;;
     if hasWordSubsts then ret (inl (hasWordSubsts, Identifier))
     else ret (inr (Some Identifier)))
    (fun r s' => match r with
     | inl _ => read s tt s' /\ (rest s' < rest s1)%nat
     | inr b => read s b s' /\ (b <> None -> Pos s < Pos s')%nat
     end) s2.
Proof.
  intros H1 H2 Hn Hlen. facts. apply wp_bind, wp_modify.
  assert (inv (setPos (Pos s2 + n) s2)) by (apply inv_setPos; [done|lia]).
  destruct hasWordSubsts; apply wp_ret; (split; [finish|]).
  - unfold rest. cbn. arith.
  - intros _. cbn. arith.
Qed.

(** Each round of the identifier loop reads its characters. *)
#[export] Instance spec_identifierLoop isPunycoded st :
  Spec (while_ (demangleIdentifier_step isPunycoded) st) (fun s r s' =>
    read s r s' /\ (r <> None -> Pos s < Pos s')%nat).
Proof.
  intros s Hs. apply wp_while with (I := fun _ s1 => read s tt s1) (f := fun _ s1 => rest s1).
  - finish.
  - unfold rest. lia.
  - intros st' s1 Hr. facts. unfold demangleIdentifier_step. run.
    all: try solve [split; [finish|intros ?; (done || arith)]].
    + apply (wp_takeSlice s s1 s'2); [by split|finish|lia|lia].
    + apply wp_modify.
      match goal with |- wp _ _ _ (setWordList ?ws ?s2) =>
        assert (inv (setWordList ws s2)) by
          (apply inv_setWordList; [done|]; apply (scanWords_length (S _) _ 0 None), inv_words; done)
      end.
      apply wp_ret. apply (wp_takeSlice s s1); [by split|finish|lia|cbn; lia].
Qed.

#[export] Instance spec_demangleIdentifier :
  Spec demangleIdentifier (fun s r s' => handled (fun n => getKind n = K_Identifier) s r s'
    /\ forall n, r = Some n -> (Pos s < Pos s')%nat).
Proof.
  intros s Hs. unfold demangleIdentifier. run.
  all: split; [finish|intros ? [= <-]].
  all: match goal with H : Some _ <> None -> _ |- _ => specialize (H ltac:(discriminate)) end.
  all: chars; arith.
Qed.

#[export] Instance spec_appendInt v Number :
  Spec (appendInt v Number) (fun s _ s' => s' = s).
Proof.
  intros s Hs. unfold appendInt. apply wp_bind. unfold assert.
  destruct (_ && _); [done|apply crash_appendInt].
Qed.

Ltac handler h := intros s Hs; unfold h; run; try finish.

#[export] Instance spec_demangleOperatorIdentifier :
  Spec demangleOperatorIdentifier (handled (fun n => isDeclName (getKind n) = true)).
Proof. handler demangleOperatorIdentifier. Qed.

#[export] Instance spec_demangleLocalIdentifier :
  Spec demangleLocalIdentifier (handled (fun n => isDeclName (getKind n) = true)).
Proof. handler demangleLocalIdentifier. Qed.


#[export] Instance spec_demangleAnyGenericType kind :
  TCEq (isAnyGeneric kind) true ->
  Spec (demangleAnyGenericType kind) (handled (fun n => getKind n = K_Type)).
Proof.
  intros Hk%TCEq_eq. destruct kind; try discriminate Hk; handler demangleAnyGenericType.
Qed.

#[export] Instance spec_demangleExtensionContext :
  Spec demangleExtensionContext (handled (fun n => getKind n = K_Extension)).
Proof. handler demangleExtensionContext. Qed.

#[export] Instance spec_demangleBuiltinType :
  Spec demangleBuiltinType (handled (fun n => getKind n = K_Type)).
Proof. handler demangleBuiltinType. Qed.

(** ** Nodes with a list of children of one kind *)

Lemma matches_many p cs : matches [Many p] cs = forallb p cs.
Proof. induction cs as [|c cs IH]; cbn; [done|]. by destruct (p c); cbn. Qed.

(** The kinds whose children are any number of [p]s. *)
Definition listKind (k : Kind) (p : Node -> bool) : Prop :=
  children_shape k = Some [Many p] /\ payload_shape k NoPayload = true
  /\ truncatable k = false /\ hasDeepShape k = false /\ hasBare k = false.

Lemma wf_list k p cs :
  listKind k p -> Forall wf cs -> Forall (fun c => p c = true) cs -> wf (mkNode k NoPayload cs).
Proof.
  intros (Hk & Hp & _ & Hd & _) Hw Hc. apply wf_intro; [|done].
  unfold shape. rewrite Hk, Hp, matches_many, deep_shape_other by done. cbn.
  apply orb_true_iff. left. rewrite forallb_forall. by apply List.Forall_forall.
Qed.

Lemma wf_list_inv k p n :
  listKind k p -> wf n -> getKind n = k ->
  Forall wf (children n) /\ Forall (fun c => p c = true) (children n).
Proof.
  intros (Hk & _ & Ht & _ & Hg) Hw <-. apply wf_inv in Hw as [Hs Hw]; [|done]. split; [done|].
  unfold shape in Hs. rewrite Hk, matches_many, Ht, andb_true_iff, orb_false_r in Hs.
  destruct Hs as [_ Hs]. rewrite forallb_forall in Hs. by apply List.Forall_forall.
Qed.

(** [wf] nodes built as lists: adding a child, and reversing. *)
Record listNode (k : Kind) (p : Node -> bool) (n : Node) : Prop := {
  listNode_kind : getKind n = k;
  listNode_payload : payload n = NoPayload;
  listNode_wf : Forall wf (children n);
  listNode_children : Forall (fun c => p c = true) (children n)
}.

Lemma listNode_new k p : listNode k p (createNode k).
Proof. by split; constructor. Qed.

Lemma listNode_add k p n c : listNode k p n -> wf c -> p c = true -> listNode k p (nodeAddChild n c).
Proof. intros [] ? ?. split; cbn; auto using Forall_app_2. Qed.

Lemma listNode_done k p n : listKind k p -> listNode k p n -> wf n.
Proof.
  intros Hk [H1 H2 H3 H4]. destruct n as [k' p' cs]. cbn in *. subst. by eapply wf_list.
Qed.

Lemma wp_reverse_list k p n s (Q : Node -> Demangler -> Prop) :
  listNode k p n ->
  (forall n', listNode k p n' -> length (children n') = length (children n) -> Q n' s) ->
  wp parse_crash (reverseChildren n 0) Q s.
Proof.
  intros [H1 H2 H3 H4] HQ. apply wp_reverseChildren; [lia|].
  rewrite take_0, drop_0, app_nil_l.
  apply HQ; [|cbn [children]; by rewrite length_reverse].
  split; cbn [children getKind payload]; [done|done|by apply Forall_reverse..].
Qed.

Lemma listKind_Tuple : listKind K_Tuple (ofKind K_TupleElement). Proof. by repeat split. Qed.
Lemma listKind_LabelList : listKind K_LabelList (kindIn isLabel). Proof. by repeat split. Qed.
Lemma listKind_TypeList : listKind K_TypeList (ofKind K_Type). Proof. by repeat split. Qed.

(** ** Function types *)

#[export] Instance spec_popArgumentTuple :
  Spec (popFunctionParams K_ArgumentTuple) (popped (fun n => getKind n = K_ArgumentTuple)).
Proof. handler popFunctionParams. Qed.

#[export] Instance spec_popReturnType :
  Spec (popFunctionParams K_ReturnType) (popped (fun n => getKind n = K_ReturnType)).
Proof. handler popFunctionParams. Qed.

Definition isFunctionTypeKind (k : Kind) : bool :=
  match k with
  | K_AutoClosureType | K_FunctionType | K_ThinFunctionType | K_UncurriedFunctionType
  | K_ObjCBlock | K_CFunctionPointer => true
  | _ => false
  end.

#[export] Instance spec_popFunctionType kind :
  TCEq (isFunctionTypeKind kind) true ->
  Spec (popFunctionType kind) (popped (fun n => getKind n = K_Type /\ typeOf kind n = true)).
Proof.
  intros Hk%TCEq_eq. destruct kind; try discriminate Hk; handler popFunctionType.
Qed.

(** ** Labels *)

Lemma wf_TupleElement n :
  wf n -> getKind n = K_TupleElement ->
  exists variadic name ty, n = mkNode K_TupleElement NoPayload (variadic ++ name ++ [ty])
    /\ (variadic = [] \/ exists v, variadic = [v] /\ wf v /\ getKind v = K_VariadicMarker)
    /\ (name = [] \/ exists v, name = [v] /\ wf v /\ getKind v = K_TupleElementName)
    /\ wf ty /\ getKind ty = K_Type.
Proof.
  intros Hw Hk. invert_shape Hw Hk. unfold shape in Hk. cbn in Hk. rewrite orb_false_r in Hk.
  destruct cs as [|c1 cs]; [done|]. inversion_clear Hw as [|? ? Hw1 Hws].
  destruct (ofKind K_VariadicMarker c1) eqn:E1.
  - destruct cs as [|c2 cs]; [done|]. inversion_clear Hws as [|? ? Hw2 Hws'].
    destruct (ofKind K_TupleElementName c2) eqn:E2.
    + destruct cs as [|c3 [|? ?]]; try (by rewrite ?andb_false_r in Hk).
      rewrite andb_true_r in Hk. inversion_clear Hws'. rewrite ofKind_true in *.
      exists [c1], [c2], c3. split_and!; eauto.
    + destruct cs as [|? ?]; try (by rewrite ?andb_false_r in Hk).
      rewrite andb_true_r in Hk. rewrite ofKind_true in *.
      exists [c1], [], c2. split_and!; eauto.
  - destruct (ofKind K_TupleElementName c1) eqn:E2.
    + destruct cs as [|c3 [|? ?]]; try (by rewrite ?andb_false_r in Hk).
      rewrite andb_true_r in Hk. inversion_clear Hws. rewrite ofKind_true in *.
      exists [], [c1], c3. split_and!; eauto.
    + destruct cs as [|? ?]; try (by rewrite ?andb_false_r in Hk).
      rewrite andb_true_r in Hk. rewrite ofKind_true in *.
      exists [], [], c1. split_and!; eauto.
Qed.

Lemma wf_removeLabel Param Label i :
  wf Param -> getKind Param = K_TupleElement ->
  getChildIf Param K_TupleElementName = Some (Label, i) ->
  wf Label /\ getKind Label = K_TupleElementName /\ (i < getNumChildren Param)%nat
  /\ wf (mkNode (getKind Param) (payload Param) (take i (children Param) ++ drop (i + 1) (children Param))).
Proof.
  intros Hw Hk. destruct (wf_TupleElement _ Hw Hk) as (va & na & ty & -> & Hva & Hna & Hwt & Hkt).
  unfold getChildIf. cbn [children].
  destruct Hva as [->|(v & -> & Hwv & Hkv)], Hna as [->|(m & -> & Hwm & Hkm)];
    cbn; rewrite ?Hkt, ?Hkv, ?Hkm; cbn; rewrite ?Hkt, ?Hkv, ?Hkm; cbn;
    try discriminate; intros [= <- <-]; split_and!; try done; try lia; solve_wf.
Qed.

(** What the label loop keeps of the parameters: in an old-style function type
    they are a tuple of [N] elements, which is modified; else they are any node,
    which is not. *)
Definition paramsOf (old : bool) (N : nat) (Params0 Params : Node) : Prop :=
  if old then wf Params /\ getKind Params = K_Tuple /\ length (children Params) = N
  else Params = Params0.

Lemma wp_getLabel old N Params0 Params Idx s (Q : NodePointer * Node -> Demangler -> Prop) :
  inv s -> IsOldFunctionTypeMangling s = old ->
  paramsOf old N Params0 Params -> (old = true -> Idx < N)%nat ->
  (forall Label Params' s', inv s' -> frame s s' -> Pos s' = Pos s ->
     paramsOf old N Params0 Params' -> (forall n, Label = Some n -> wf n) ->
     Q (Label, Params') s') ->
  wp parse_crash (getLabel Params Idx) Q s.
Proof.
  intros Hs Hold HP Hi HQ. unfold getLabel. apply wp_bind, wp_gets. rewrite Hold.
  destruct old; [|run; apply HQ; [done..|by destruct a; intros ? [= <-]; facts]].
  destruct HP as (Hw & Hk & Hlen). specialize (Hi eq_refl).
  destruct (wf_list_inv _ _ _ listKind_Tuple Hw Hk) as [Hws Hks].
  destruct (lookup_lt_is_Some_2 (children Params) Idx) as [Param HParam]; [lia|].
  pose proof (Forall_lookup_1 _ _ _ _ Hws HParam) as HwP.
  pose proof (Forall_lookup_1 _ _ _ _ Hks HParam) as HkP%ofKind_true.
  destruct Params as [k p cs]. apply wp_bind, (wp_getChild _ _ _ _ Param); [done|].
  destruct (getChildIf Param K_TupleElementName) as [[Label i]|] eqn:El.
  - destruct (wf_removeLabel _ _ _ HwP HkP El) as (HwL & HkL & Hlt & HwR).
    apply wp_bind, wp_bind, wp_assert; [by apply Nat.ltb_lt|]. apply wp_ret.
    apply wp_bind. run_step. apply wp_ret. apply HQ; [done|apply frame_refl|done| |].
    + cbn in Hk. subst k. apply wf_shape in Hw as Hsh. destruct p; try discriminate Hsh.
      split_and!; [|done|cbn; by rewrite length_insert].
      unfold setChild. cbn. apply (wf_list _ _ _ listKind_Tuple); apply Forall_insert; try done.
      cbn. by rewrite HkP.
    + intros n [= <-]. by apply wf_intro.
  - apply wp_ret, HQ; [done|apply frame_refl|done..|]. intros n [= <-]. by apply wf_intro.
Qed.

Lemma wp_popLabels old N Params0 n i Params LabelList hasLabels s
    (Q : option (Node * bool) * Node -> Demangler -> Prop) :
  inv s -> IsOldFunctionTypeMangling s = old ->
  paramsOf old N Params0 Params -> (old = true -> n + i <= N)%nat ->
  listNode K_LabelList (kindIn isLabel) LabelList ->
  (forall r Params' s', inv s' -> frame s s' -> Pos s' = Pos s ->
     paramsOf old N Params0 Params' ->
     (forall l b, r = Some (l, b) -> listNode K_LabelList (kindIn isLabel) l
        /\ length (children l) = (length (children LabelList) + n)%nat) ->
     Q (r, Params') s') ->
  wp parse_crash (popLabels n i Params LabelList hasLabels) Q s.
Proof.
  intros Hs Hold HP Hi HL HQ. revert i Params LabelList hasLabels s Hs Hold HP Hi HL HQ.
  induction n as [|n IH]; intros i Params LabelList hasLabels s Hs Hold HP Hi HL HQ; cbn [popLabels].
  { apply wp_ret, HQ; [done|apply frame_refl|done|done|intros ? ? [= <- _]]. split; [done|lia]. }
  apply wp_bind, (wp_getLabel old N Params0); [done..|intros He; specialize (Hi He); lia|].
  intros Label Params' s1 Hs1 Hf1 Hp1 HP1 HwL.
  destruct Label as [label|]; [|by apply wp_ret, HQ].
  destruct (_ && _) eqn:Hk; [by apply wp_ret, HQ|].
  apply IH.
  - done.
  - rewrite (frame_old _ _ Hf1). done.
  - done.
  - intros He. specialize (Hi He). lia.
  - apply listNode_add; [done|by apply HwL|]. unfold kindIn.
    apply andb_false_iff in Hk as [Hk|Hk]; apply negb_false_iff, Kind_eqb_eq in Hk; by rewrite Hk.
  - intros r Params'' s2 ? Hf2 Hp2 ? Hr. apply HQ; [done| |congruence|done|].
    + by eapply frame_trans.
    + intros l b Hlb. destruct (Hr l b Hlb) as [? Hlen]. split; [done|].
      rewrite Hlen. unfold nodeAddChild. cbn. rewrite length_app. cbn. lia.
Qed.

Lemma wf_FunctionType n :
  wf n -> getKind n = K_FunctionType ->
  exists throws args result, n = mkNode K_FunctionType NoPayload (throws ++ [args; result])
    /\ (throws = [] \/ exists t, throws = [t] /\ wf t /\ getKind t = K_ThrowsAnnotation)
    /\ wf args /\ getKind args = K_ArgumentTuple /\ wf result /\ getKind result = K_ReturnType.
Proof.
  intros Hw Hk. invert_shape Hw Hk. unfold shape in Hk. cbn in Hk. rewrite orb_false_r in Hk.
  destruct cs as [|c1 cs]; [done|]. inversion_clear Hw as [|? ? Hw1 Hws].
  destruct (ofKind K_ThrowsAnnotation c1) eqn:E1.
  - destruct cs as [|c2 [|c3 [|? ?]]]; try (by rewrite ?andb_false_r in Hk).
    rewrite andb_true_r, andb_true_iff, !ofKind_true in *. destruct Hk.
    inversion_clear Hws as [|? ? ? Hws']. inversion_clear Hws'.
    exists [c1], c2, c3. split_and!; eauto.
  - destruct cs as [|c2 [|? ?]]; try (by rewrite ?andb_false_r in Hk).
    rewrite andb_true_r, andb_true_iff, !ofKind_true in *. destruct Hk.
    inversion_clear Hws. exists [], c1, c2. split_and!; eauto.
Qed.

Lemma wf_ArgumentTuple n :
  wf n -> getKind n = K_ArgumentTuple ->
  exists ty, n = mkNode K_ArgumentTuple (IndexPayload (wrap_u64 (numParams ty))) [ty]
    /\ wf ty /\ getKind ty = K_Type.
Proof.
  intros Hw Hk. invert_shape Hw Hk. unfold shape in Hk. cbn in Hk.
  rewrite orb_false_r, andb_true_iff in Hk. destruct Hk as [Hi Hk].
  destruct cs as [|c1 [|? ?]]; try (by rewrite ?andb_false_r in Hk).
  rewrite andb_true_r, ofKind_true in Hk. apply Z.eqb_eq in Hi as ->. inversion_clear Hw. eauto.
Qed.

Lemma wf_DependentGenericType n :
  wf n -> getKind n = K_DependentGenericType ->
  exists sig ty, n = mkNode K_DependentGenericType NoPayload [sig; ty]
    /\ wf sig /\ getKind sig = K_DependentGenericSignature /\ wf ty /\ getKind ty = K_Type.
Proof.
  intros Hw Hk. invert_shape Hw Hk. unfold shape in Hk. cbn in Hk. rewrite orb_false_r in Hk.
  destruct cs as [|c1 [|c2 [|? ?]]]; try (by rewrite ?andb_false_r in Hk).
  rewrite andb_true_r, andb_true_iff, !ofKind_true in Hk. destruct Hk.
  inversion_clear Hw as [|? ? ? Hw']. inversion_clear Hw'. eauto 10.
Qed.

(** The function type with its labels removed. *)
Lemma wf_unlabelled throws pty tuple tuple' result :
  (throws = [] \/ exists t, throws = [t] /\ wf t /\ getKind t = K_ThrowsAnnotation) ->
  wf result -> getKind result = K_ReturnType -> getKind tuple = K_Tuple ->
  wf tuple' -> getKind tuple' = K_Tuple -> length (children tuple') = length (children tuple) ->
  wf (mkNode K_FunctionType NoPayload
        (throws ++ [mkNode K_ArgumentTuple
                      (IndexPayload (wrap_u64 (numParams (mkNode K_Type pty [tuple]))))
                      [mkNode K_Type NoPayload [tuple']]; result])).
Proof.
  intros Ht Hw Hk Hkt Hwt' Hkt' Hlen.
  assert (numParams (mkNode K_Type pty [tuple]) = numParams (mkNode K_Type NoPayload [tuple'])) as ->.
  { unfold numParams, ofKind. cbn. by rewrite Hkt, Hkt', Hlen. }
  destruct Ht as [->|(t & -> & ? & ?)]; solve_wf; rewrite Z.eqb_refl; done.
Qed.

Lemma numParams_tuple p tuple :
  getKind tuple = K_Tuple ->
  (Z.to_nat (wrap_u32 (wrap_u64 (numParams (mkNode K_Type p [tuple])))) <= length (children tuple))%nat.
Proof.
  intros Hk. unfold numParams, ofKind. cbn. rewrite Hk. cbn. unfold wrap_u32, wrap_u64.
  pose proof (Z.mod_le (Z.of_nat (length (children tuple))) (2 ^ 64)).
  pose proof (Z.mod_pos_bound (Z.of_nat (length (children tuple))) (2 ^ 64)).
  pose proof (Z.mod_le (Z.of_nat (length (children tuple)) mod 2 ^ 64) (2 ^ 32)).
  pose proof (Z.mod_pos_bound (Z.of_nat (length (children tuple)) mod 2 ^ 64) (2 ^ 32)). lia.
Qed.

(** The end of [popFunctionParamLabels]. *)
Lemma wp_finishLabels (old : bool) N labels Type' s (Q : NodePointer * NodePointer -> Demangler -> Prop) :
  (forall l b, labels = Some (l, b) -> listNode K_LabelList (kindIn isLabel) l /\ length (children l) = N) ->
  (forall l, (forall n, l = Some n -> wf n /\ getKind n = K_LabelList
                /\ (children n = [] \/ length (children n) = N)) -> Q (l, Type') s) ->
  wp parse_crash
    (match labels with
     | None => ret (None, Type')
     | Some (LabelList, hasLabels) =>
         if negb hasLabels then ret (Some (createNode K_LabelList), Type')
         else if (old : bool) then ret (Some LabelList, Type')
         else LabelList <- reverseChildren LabelList 0 ;; ret (Some LabelList, Type')
     end) Q s.
Proof.
  intros Hl HQ. destruct labels as [[l b]|]; [|by apply wp_ret, HQ].
  specialize (Hl l b eq_refl) as [Hl Hn]. destruct b; cbn [negb].
  - destruct old.
    + apply wp_ret, HQ. intros n [= <-].
      split; [by eapply listNode_done, Hl; apply listKind_LabelList|split; [apply Hl|by right]].
    + eapply wp_bind, wp_reverse_list; [exact Hl|]. intros l' Hl' Hlen. apply wp_ret, HQ. intros n [= <-].
      split; [by eapply listNode_done, Hl'; apply listKind_LabelList|split; [apply Hl'|right; congruence]].
  - apply wp_ret, HQ. intros n [= <-]. split_and!; [done..|by left].
Qed.

Lemma paramCount_plain k p f :
  getKind f <> K_DependentGenericType -> paramCount (mkNode k p [f]) = functionParams f.
Proof. destruct f as [[] ? ?]; done. Qed.

Lemma labelsFit_nil l ty : children l = [] -> labelsFit l ty = true.
Proof. intros H. unfold labelsFit. by rewrite H. Qed.

Lemma labelsFit_length l ty i :
  paramCount ty = Some i -> length (children l) = Z.to_nat (wrap_u32 i) -> labelsFit l ty = true.
Proof.
  intros Hi Hl. unfold labelsFit. destruct (children l) as [|c cs] eqn:E; [done|].
  rewrite Hi, Hl, Z2Nat.id; [by apply Z.eqb_eq|].
  apply Z.mod_pos_bound. lia.
Qed.

Lemma functionParams_spec throws i ty result :
  (throws = [] \/ exists t, throws = [t] /\ wf t /\ getKind t = K_ThrowsAnnotation) ->
  functionParams (mkNode K_FunctionType NoPayload (throws ++ [mkNode K_ArgumentTuple (IndexPayload i) [ty]; result]))
  = Some i.
Proof.
  intros [->|(t & -> & _ & Hk)]; [done|]. unfold functionParams. cbn. unfold ofKind. by rewrite Hk.
Qed.

Lemma labelsFit_generic l p sig c :
  labelsFit l (mkNode K_Type p [c]) = true -> getKind c = K_FunctionType ->
  labelsFit l (mkNode K_Type NoPayload [mkNode K_DependentGenericType NoPayload [sig; mkNode K_Type NoPayload [c]]])
  = true.
Proof. unfold labelsFit. destruct (children l); [done|]. destruct c as [[]]; done. Qed.

(** From the function type on; [rebuild] puts it back into the type. *)
Lemma wp_functionLabels (rebuild : Node -> Node) (old : bool) FuncType Type0 s s1 :
  inv s -> inv s1 -> frame s s1 -> Pos s1 = Pos s -> IsOldFunctionTypeMangling s1 = old ->
  wf FuncType -> wf Type0 -> getKind Type0 = K_Type -> paramCount Type0 = functionParams FuncType ->
  (forall ft, wf ft -> getKind ft = K_FunctionType -> getKind FuncType = K_FunctionType ->
     wf (rebuild ft) /\ getKind (rebuild ft) = K_Type /\ paramCount (rebuild ft) = functionParams ft
     /\ forall k, typeOf k (rebuild ft) = typeOf k Type0) ->
  wp parse_crash
    (if negb (Kind_eqb (getKind FuncType) K_FunctionType) then ret (None, Some Type0) else
      First <- getFirstChild FuncType ;;
      let throws := Kind_eqb (getKind First) K_ThrowsAnnotation in
      ParameterType <- (if throws then getChild FuncType 1 else ret First) ;;
      _ <- assert "popFunctionParamLabels: ArgumentTuple"
             (Kind_eqb (getKind ParameterType) K_ArgumentTuple) ;;
      index <- getIndex ParameterType ;;
      if index =? 0 then ret (None, Some Type0) else
      ParamsTy <- getFirstChild ParameterType ;;
      Tuple <- getFirstChild ParamsTy ;;
      if old && negb (Kind_eqb (getKind Tuple) K_Tuple)
      then ret (Some (createNode K_LabelList), Some Type0) else
      r <- popLabels (Z.to_nat (wrap_u32 index)) 0 Tuple (createNode K_LabelList) false ;;
      let '(labels, Tuple') := r in
      let Type' :=
        if (old : bool) then
          Some (rebuild (setChild FuncType (if throws then 1 else 0)%nat
                           (setChild ParameterType 0 (setChild ParamsTy 0 Tuple'))))
        else Some Type0 in
      match labels with
      | None => ret (None, Type')
      | Some (LabelList, hasLabels) =>
          if negb hasLabels then ret (Some (createNode K_LabelList), Type')
          else if (old : bool) then ret (Some LabelList, Type')
          else LabelList <- reverseChildren LabelList 0 ;; ret (Some LabelList, Type')
      end) (labelled (Some Type0) s) s1.
Proof.
  intros Hs Hs1 Hf1 Hp1 Hold Hw Hw0 Hk0 Hpc Hre.
  assert (forall l T' s', inv s' -> frame s s' -> Pos s' = Pos s ->
    (forall n, l = Some n -> wf n /\ getKind n = K_LabelList
       /\ forall ty, T' = Some ty -> labelsFit n ty = true) ->
    (exists n, T' = Some n /\ wf n /\ getKind n = K_Type /\ forall k, typeOf k n = typeOf k Type0) -> labelled (Some Type0) s (l, T') s') as Hdone.
  { intros l T' s' ? ? ? Hl (n & -> & ? & ? & ?). split_and!; cbn; try done.
    - intros x ->. by destruct (Hl x eq_refl) as (? & ? & _).
    - by intros ? [= <-].
    - intros x -> ty Hty. by apply (Hl x eq_refl).
    - intros ? [= <-]. by eauto. }
  assert (exists n, Some Type0 = Some n /\ wf n /\ getKind n = K_Type /\ forall k, typeOf k n = typeOf k Type0)
    as HT0 by eauto.
  destruct (Kind_eqb (getKind FuncType) K_FunctionType) eqn:Ek; cbn [negb];
    [|apply wp_ret, Hdone; done].
  apply Kind_eqb_eq in Ek. specialize (fun ft H1 H2 => Hre ft H1 H2 Ek).
  destruct (wf_FunctionType _ Hw Ek) as (throws & args & result & -> & Ht & Hwa & Hka & Hwr & Hkr).
  destruct (wf_ArgumentTuple _ Hwa Hka) as (ty & -> & Hwt & Hkt).
  destruct (wf_Type _ Hwt Hkt) as (tuple & -> & Hwtu & Hktu).
  rewrite functionParams_spec in Hpc by done.
  set (index := wrap_u64 (numParams (mkNode K_Type NoPayload [tuple]))) in *.
  set (args := mkNode K_ArgumentTuple _ _) in *.
  apply wp_bind.
  assert (exists First cs, throws ++ [args; result] = First :: cs
     /\ (if Kind_eqb (getKind First) K_ThrowsAnnotation then (First :: cs) !! 1%nat = Some args else First = args)
     /\ forall a, mkNode K_FunctionType NoPayload (throws ++ [a; result])
          = setChild (mkNode K_FunctionType NoPayload (First :: cs))
             (if Kind_eqb (getKind First) K_ThrowsAnnotation then 1 else 0)%nat a)
    as (First & cs & -> & Hat & Hset).
  { destruct Ht as [->|(t & -> & ? & Hkth)].
    - exists args, [result]. by split_and!.
    - exists t, [args; result]. rewrite Hkth. by split_and!. }
  apply wp_getFirstChild. apply wp_bind.
  assert (forall Q, Q args s1 -> wp parse_crash
    (if Kind_eqb (getKind First) K_ThrowsAnnotation
     then getChild (mkNode K_FunctionType NoPayload (First :: cs)) 1 else ret First) Q s1) as Hparam.
  { intros Q HQ. destruct (Kind_eqb (getKind First) K_ThrowsAnnotation).
    - by eapply wp_getChild.
    - apply wp_ret. by subst First. }
  apply Hparam. clear Hparam. apply wp_bind, wp_assert; [done|]. apply wp_bind, wp_getIndex.
  destruct (_ =? 0); [apply wp_ret, Hdone; done|].
  do 2 apply wp_bind, wp_getFirstChild.
  destruct (old && _) eqn:Eold; [apply wp_ret, Hdone; [done..| |done]; intros ? [= <-]; done|].
  apply wp_bind, (wp_popLabels old (length (children tuple)) tuple).
  - done.
  - done.
  - destruct old; [|done]. apply negb_false_iff, Kind_eqb_eq in Eold. done.
  - intros ->. apply negb_false_iff, Kind_eqb_eq in Eold.
    rewrite Nat.add_0_r. by apply numParams_tuple.
  - apply listNode_new.
  - intros labels tuple' s2 Hs2 Hf2 Hp2 HP Hl. apply (wp_finishLabels _ (Z.to_nat (wrap_u32 index))); [exact Hl|].
    intros l Hl'.
    assert (forall T', (exists n, T' = Some n /\ wf n /\ getKind n = K_Type
        /\ paramCount n = Some index /\ forall k, typeOf k n = typeOf k Type0) -> labelled (Some Type0) s (l, T') s2)
      as Hfit.
    { intros T' (n & -> & ? & ? & Hi & ?). apply Hdone; [done|by eapply frame_trans|congruence| |by eauto].
      intros x ->. destruct (Hl' x eq_refl) as (? & ? & Hx). split_and!; [done..|]. intros ty [= <-].
      destruct Hx as [Hx|Hx]; [by apply labelsFit_nil|by eapply labelsFit_length]. }
    apply Hfit. destruct old; [|eauto 10]. destruct HP as (Hwt' & Hkt' & Hlen).
    apply negb_false_iff, Kind_eqb_eq in Eold.
    eexists. split; [reflexivity|]. rewrite <-Hset.
    pose proof (wf_unlabelled throws NoPayload tuple tuple' result Ht Hwr Hkr Eold Hwt' Hkt' Hlen) as Hwu.
    destruct (Hre _ Hwu eq_refl) as (? & ? & Hpc' & ?).
    split_and!; [done..| |done]. rewrite functionParams_spec in Hpc' by done. exact Hpc'.
Qed.

Lemma wp_popFunctionParamLabels Type_ s :
  inv s -> (forall n, Type_ = Some n -> wf n /\ getKind n = K_Type) ->
  wp parse_crash (popFunctionParamLabels Type_) (labelled Type_ s) s.
Proof.
  intros Hs HT. unfold popFunctionParamLabels. apply wp_bind, wp_gets.
  remember (IsOldFunctionTypeMangling s) as old eqn:Hold.
  assert (forall l s', inv s' -> frame s s' -> Pos s' = Pos s ->
    (forall n, l = Some n -> wf n /\ getKind n = K_LabelList /\ children n = []) -> labelled Type_ s (l, Type_) s') as Hsame.
  { intros l s' ? ? ? Hl. split_and!; cbn; try done.
    - intros n ->. by destruct (Hl n eq_refl) as (? & ? & _).
    - intros n -> ty _. by apply labelsFit_nil, Hl.
    - intros ? ->. by eauto. }
  apply wp_bind. eapply wp_mono with
    (Q := fun (e : NodePointer) s' => inv s' /\ frame s s' /\ Pos s' = Pos s).
  { destruct old; [by apply wp_ret|]. eapply wp_mono; [by apply spec_popNodeKind|].
    by intros ? ? []. }
  intros e s1 (Hs1 & Hf1 & Hp1).
  destruct (isSome e); [apply wp_ret, Hsame; try done; by intros n [= <-]|].
  destruct Type_ as [type|]; [|by apply wp_ret, Hsame].
  destruct (HT _ eq_refl) as [Hw Hk]. rewrite Hk. cbn [Kind_eqb negb].
  destruct (wf_Type _ Hw Hk) as (c & -> & Hwc & Hkc).
  apply wp_bind, wp_getFirstChild.
  destruct (Kind_eqb (getKind c) K_DependentGenericType) eqn:Eg.
  - apply Kind_eqb_eq in Eg.
    destruct (wf_DependentGenericType _ Hwc Eg) as (sig & ty & -> & Hws & Hks & Hwt & Hkt).
    destruct (wf_Type _ Hwt Hkt) as (ft & -> & Hwf & Hkf).
    apply wp_bind. eapply wp_getChild; [reflexivity|]. apply wp_bind, wp_getFirstChild.
    apply (wp_functionLabels (fun ft' => setChild (mkNode K_Type NoPayload _) 0
             (setChild (mkNode K_DependentGenericType NoPayload _) 1
                (setChild (mkNode K_Type NoPayload _) 0 ft'))));
      [done..|by rewrite (frame_old _ _ Hf1)|done|done|done|done|].
    intros ft' Hw' Hk' _. unfold setChild. cbn. split_and!; [solve_wf|done..].
  - apply wp_bind, wp_ret, wp_bind, wp_ret.
    apply (wp_functionLabels (fun ft' => setChild (mkNode K_Type NoPayload _) 0 ft'));
      [done..|by rewrite (frame_old _ _ Hf1)|done|done|done| |].
    { apply (paramCount_plain K_Type NoPayload). intros E. by rewrite E in Eg. }
    intros ft' Hw' Hk' Hkc'. unfold setChild. cbn. split_and!; [solve_wf|done| |].
    + apply (paramCount_plain K_Type NoPayload). by rewrite Hk'.
    + intros k. unfold typeOf, ofKind. cbn. by rewrite Hk', Hkc'.
Qed.


Ltac run_hook ::=
  match goal with
  | |- wp _ (popFunctionParamLabels _) _ _ =>
      eapply wp_mono;
        [apply wp_popFunctionParamLabels; [solve_inv|intros ? ->; facts; auto]
        |intros ? ? ?; facts]
  end.

#[export] Instance spec_demanglePlainFunction :
  Spec demanglePlainFunction (handled (fun n => getKind n = K_Function)).
Proof.
  handler demanglePlainFunction.
  match goal with H : forall k, typeOf k (mkNode _ _ [?c]) = _ |- _ => specialize (H K_FunctionType) end.
  rewrite (labelsFit_generic _ NoPayload); [done|done|]. apply ofKind_true. cbn in *. rewrite <-ofKind_true in *. congruence.
Qed.

#[export] Instance spec_demangleTypeMangling :
  Spec demangleTypeMangling (handled (fun _ => True)).
Proof. handler demangleTypeMangling. Qed.

#[export] Instance spec_demangleEntity kind :
  TCOr (TCEq kind K_Variable) (TCEq kind K_GenericTypeParamDecl) ->
  Spec (demangleEntity kind) (handled (fun n => getKind n = kind)).
Proof. intros [->%TCEq_eq | ->%TCEq_eq]; handler demangleEntity. Qed.

(** An accessor of a variable or subscript [child], or that entity itself. *)
Lemma wp_demangleAccessor child s :
  inv s -> (forall n, child = Some n -> wf n /\ ofKind K_Variable n || ofKind K_Subscript n = true) ->
  wp parse_crash (demangleAccessor child)
    (handled (fun n => isEntity (getKind n) = true /\ exists c, child = Some c) s) s.
Proof.
  intros Hs Hc. unfold demangleAccessor.
  destruct child as [child|]; [destruct (Hc _ eq_refl) as [Hw Hk%orb_true_iff]|clear Hc];
    [rewrite !ofKind_true in Hk; destruct Hk|]; run; finish.
Qed.

Ltac run_hook ::=
  match goal with
  | |- wp _ (popFunctionParamLabels _) _ _ =>
      eapply wp_mono;
        [apply wp_popFunctionParamLabels; [solve_inv|intros ? ->; facts; auto]
        |intros ? ? ?; facts]
  | |- wp _ (demangleAccessor _) _ _ =>
      eapply wp_mono;
        [apply wp_demangleAccessor; [solve_inv|build]
        |intros ? ? ?; facts]
  end.

#[export] Instance spec_demangleVariable :
  Spec demangleVariable (handled (fun n => isEntity (getKind n) = true)).
Proof. handler demangleVariable. Qed.

#[export] Instance spec_demangleSubscript :
  Spec demangleSubscript (handled (fun n => isEntity (getKind n) = true)).
Proof. handler demangleSubscript. Qed.

#[export] Instance spec_demangleFunctionEntity :
  Spec demangleFunctionEntity (handled (fun _ => True)).
Proof.
  handler demangleFunctionEntity;
  unfold functionEntityNone, functionEntityTypeAndMaybePrivateName, functionEntityTypeAndIndex,
    functionEntityIndex; run; finish.
Qed.


(** ** Tuples and lists *)

(** The invariant of the loops that fill a list node from the stack. *)
Definition filling (k : Kind) (p : Node -> bool) (s : Demangler) (n : Node) (s1 : Demangler) : Prop :=
  inv s1 /\ frame s s1 /\ Pos s1 = Pos s /\ listNode k p n.

(** What they leave with: the list, filled. *)
Definition filled (k : Kind) (p : Node -> bool) (s : Demangler) (r : NodePointer) (s1 : Demangler) : Prop :=
  inv s1 /\ frame s s1 /\ Pos s1 = Pos s /\ forall n, r = Some n -> listNode k p n.

Lemma wp_fill k p (body : Node -> DM (Node + NodePointer)) s :
  inv s ->
  (forall n s1, filling k p s n s1 -> wp parse_crash (body n) (fun r s' =>
     match r with
     | inl n' => filling k p s n' s' /\ (length (NodeStack s') < length (NodeStack s1))%nat
     | inr b => filled k p s b s'
     end) s1) ->
  wp parse_crash (while_ body (createNode k)) (filled k p s) s.
Proof.
  intros Hs Hbody. apply wp_while with (I := filling k p s) (f := fun _ s1 => length (NodeStack s1)).
  - split_and!; [done|apply frame_refl|done|apply listNode_new].
  - lia.
  - exact Hbody.
Qed.

Lemma filling_add k p s n s1 c s2 :
  filling k p s n s1 -> inv s2 -> frame s1 s2 -> Pos s2 = Pos s1 -> wf c -> p c = true ->
  filling k p s (nodeAddChild n c) s2.
Proof.
  intros (? & ? & ? & ?) ? ? ? ? ?. split_and!; [done|by eapply frame_trans|congruence|].
  by apply listNode_add.
Qed.

Ltac filled :=
  match goal with H : filling _ _ _ _ _ |- _ =>
    let Hi := fresh "Hi" in pose proof H as Hi; destruct Hi as (? & ? & ? & ?) end;
  run;
  try match goal with
  | E : addChild _ _ = Some ?n |- _ => revert n E; nodes
  end;
  unfold filled;
  match goal with
  | |- filling _ _ _ _ _ /\ _ =>
      split; [eapply filling_add; [eassumption|assumption|solve_frame|arith|solve_wf|by cbn; kinds]|arith]
  | |- _ =>
      split_and!; [assumption|solve_frame|arith|intros ? [= <-];
        try (apply listNode_add; [assumption|solve_wf|by cbn; kinds])]
  end.

#[export] Instance spec_popTuple_loop :
  Spec (while_ popTuple_step (createNode K_Tuple)) (filled K_Tuple (ofKind K_TupleElement)).
Proof.
  intros s Hs. apply wp_fill; [done|]. intros n s1 Hf. unfold popTuple_step. filled.
Qed.

#[export] Instance spec_popTypeList_loop :
  Spec (while_ popTypeList_step (createNode K_TypeList)) (filled K_TypeList (ofKind K_Type)).
Proof.
  intros s Hs. apply wp_fill; [done|]. intros n s1 Hf. unfold popTypeList_step. filled.
Qed.

#[export] Instance spec_demangleProtocolList_loop :
  Spec (while_ demangleProtocolList_step (createNode K_TypeList)) (filled K_TypeList (ofKind K_Type)).
Proof.
  intros s Hs. apply wp_fill; [done|]. intros n s1 Hf. unfold demangleProtocolList_step. filled.
Qed.

#[export] Instance spec_assocTypePath_loop :
  Spec (while_ assocTypePath_step (createNode K_AssocTypePath)) (filled K_AssocTypePath (kindIn isDeclName)).
Proof.
  intros s Hs. apply wp_fill; [done|]. intros n s1 Hf. unfold assocTypePath_step. filled.
Qed.


Ltac facts_hook ::=
  match goal with
  | H : filled _ _ _ _ _ |- _ => destruct H as (? & ? & ? & ?)
  end.

Ltac list_done n H :=
  pose proof (listNode_kind _ _ _ H);
  try (assert (wf n) by (eapply listNode_done; [|exact H]; by repeat split)).

Ltac run_hook ::=
  match goal with
  | |- wp _ (popFunctionParamLabels _) _ _ =>
      eapply wp_mono;
        [apply wp_popFunctionParamLabels; [solve_inv|intros ? ->; facts; auto]
        |intros ? ? ?; facts]
  | |- wp _ (demangleAccessor _) _ _ =>
      eapply wp_mono;
        [apply wp_demangleAccessor; [solve_inv|build]
        |intros ? ? ?; facts]
  | H : listNode _ _ ?n |- wp _ (reverseChildren ?n 0) _ _ =>
      let n' := fresh "n" in let H' := fresh "Hlist" in
      eapply wp_reverse_list; [exact H|intros n' H' ?; list_done n' H']
  end.

#[export] Instance spec_popTuple : Spec popTuple (handled (fun n => getKind n = K_Type)).
Proof. handler popTuple. Qed.

#[export] Instance spec_popTypeList :
  Spec popTypeList (handled (fun n => listNode K_TypeList (ofKind K_Type) n)).
Proof. handler popTypeList. Qed.

#[export] Instance spec_demangleProtocolList :
  Spec demangleProtocolList (handled (fun n => getKind n = K_ProtocolList)).
Proof. handler demangleProtocolList. Qed.

#[export] Instance spec_demangleProtocolListType :
  Spec demangleProtocolListType (handled (fun n => getKind n = K_Type)).
Proof. handler demangleProtocolListType. Qed.

(** ** Bound generic types *)

#[export] Instance spec_popTypes_loop :
  Spec (while_ popTypes_step (createNode K_TypeList))
    (fun s n s' => filling K_TypeList (ofKind K_Type) s n s').
Proof.
  intros s Hs. apply wp_while with (I := filling K_TypeList (ofKind K_Type) s) (f := fun _ s1 => length (NodeStack s1)).
  - split_and!; [done|apply frame_refl|done|apply listNode_new].
  - lia.
  - intros n s1 Hf. unfold popTypes_step.
  match goal with H : filling _ _ _ _ _ |- _ =>
    let Hi := fresh "Hi" in pose proof H as Hi; destruct Hi as (? & ? & ? & ?) end.
  run.
  + split; [eapply filling_add; [eassumption|assumption|solve_frame|arith|solve_wf|by cbn; kinds]|arith].
  + split_and!; [assumption|solve_frame|arith|assumption].
Qed.

(** The declarations that [demangleBoundGenericArgs] rebuilds around a new parent. *)
Lemma shape_rebuild k p c0 c1 cs c0' :
  shape k p (c0 :: c1 :: cs) = true -> isParent k = true -> k <> K_Extension ->
  isBoundGeneric k = false -> isParent (getKind c0') = true ->
  isParent (getKind c0) = true /\ shape k NoPayload [c0'; c1] = true.
Proof.
  intros Hs Hk Hext Hb Hc. destruct k; try discriminate Hk; try discriminate Hb; try done;
    unfold shape in *; cbn -[isParent] in *; destruct p; try discriminate Hs;
    unfold kindIn, anyNode in *; cbn -[isParent] in *;
    try (by rewrite ?andb_false_r in Hs);
    rewrite Hc; cbn -[isParent]; rewrite ?orb_true_r;
    destruct (isParent (getKind c0)); cbn in *; rewrite ?andb_false_r in Hs; try discriminate Hs;
    (split; [done|]);
    repeat match goal with
    | |- context [ofKind ?k c1] => destruct (ofKind k c1)
    | |- context [isDeclName (getKind c1)] => destruct (isDeclName (getKind c1))
    end; try done; cbn in Hs; rewrite ?andb_false_r in Hs; done.
Qed.

Lemma wf_Extension n :
  wf n -> getKind n = K_Extension ->
  exists m t sig, n = mkNode K_Extension NoPayload (m :: t :: sig)
    /\ wf m /\ getKind m = K_Module /\ wf t
    /\ isAnyGeneric (getKind t) || isBoundGeneric (getKind t) = true
    /\ (sig = [] \/ exists g, sig = [g] /\ wf g /\ getKind g = K_DependentGenericSignature).
Proof.
  intros Hw Hk. invert_shape Hw Hk. unfold shape in Hk. cbn in Hk. rewrite orb_false_r in Hk.
  destruct cs as [|m [|t sig]]; [done|by rewrite andb_false_r in Hk|].
  rewrite !andb_true_iff, ofKind_true in Hk. destruct Hk as (Hkm & Hkt & Hsig).
  inversion_clear Hw as [|? ? ? Hw']. inversion_clear Hw' as [|? ? ? Hw].
  exists m, t, sig. split_and!; try done.
  destruct sig as [|g sig]; [by left|right]. destruct (ofKind _ g) eqn:Hg; [|done].
  destruct sig; [|done]. rewrite ofKind_true in Hg. inversion_clear Hw. eauto.
Qed.

(** What [demangleBoundGenericArgs] is called with, and what it returns. *)
Definition nominal (n : Node) : Prop :=
  wf n /\ (getKind n = K_Type \/ isParent (getKind n) = true /\ getKind n <> K_Extension).

Definition boundTo (n r : Node) : Prop :=
  wf r /\ (getKind r = getKind n \/ isBoundGeneric (getKind r) = true)
  /\ getKind n <> K_Type.

Lemma anyGeneric_nominal n :
  wf n -> isAnyGeneric (getKind n) || isBoundGeneric (getKind n) = true -> nominal n.
Proof.
  intros Hw Hk. split; [done|right]. destruct (getKind n); try discriminate Hk; done.
Qed.

(** The last step: the arguments are bound to the nominal type, if there are any. *)
Lemma wp_bindArguments n Nominal args s (Q : NodePointer -> Demangler -> Prop) :
  getKind n <> K_Type -> wf Nominal -> getKind Nominal = getKind n -> wf args ->
  getKind args = K_TypeList ->
  (forall r, (forall x, r = Some x -> boundTo n x) -> Q r s) ->
  wp parse_crash
    (if (getNumChildren args =? 0)%nat then ret (Some Nominal)
     else
       match getKind Nominal with
       | K_Class =>
           ret (createWithChildren2 K_BoundGenericClass (createType (Some Nominal)) (Some args))
       | K_Structure =>
           ret (createWithChildren2 K_BoundGenericStructure (createType (Some Nominal)) (Some args))
       | K_Enum =>
           ret (createWithChildren2 K_BoundGenericEnum (createType (Some Nominal)) (Some args))
       | _ => ret None
       end) Q s.
Proof.
  intros Hn Hw Hk Hwa Hka HQ. destruct (_ =? 0)%nat.
  { apply wp_ret, HQ. intros x [= <-]. split_and!; auto. }
  destruct (getKind Nominal) eqn:E; apply wp_ret, HQ; intros x [= <-]; split_and!; auto; cbn; solve_wf.
Qed.

Lemma bound_first_child k p c0 cs :
  shape k p (c0 :: cs) = true -> isBoundGeneric k = true -> getKind c0 = K_Type.
Proof.
  intros Hs Hb. destruct k; try discriminate Hb; unfold shape in Hs; cbn in Hs;
    rewrite ?orb_false_r, !andb_true_iff in Hs; unfold typeOf in Hs;
    rewrite andb_true_iff, ofKind_true in Hs; tauto.
Qed.

Lemma Kind_eqb_false k1 k2 : Kind_eqb k1 k2 = false -> k1 <> k2.
Proof. intros H ->. by rewrite (proj2 (Kind_eqb_eq k2 k2) eq_refl) in H. Qed.

(** The extension around the bound extended type. *)
Lemma wp_boundExtension m t sig r (s : Demangler) (P : Prop) (HP : P) :
  wf m -> getKind m = K_Module -> isAnyGeneric (getKind t) || isBoundGeneric (getKind t) = true ->
  (sig = [] \/ exists g, sig = [g] /\ wf g /\ getKind g = K_DependentGenericSignature) ->
  (forall x, r = Some x -> boundTo t x) ->
  wp parse_crash
    (let BoundParent := createWithChildren2 K_Extension (Some m) r in
     if (getNumChildren (mkNode K_Extension NoPayload (m :: t :: sig)) =? 3)%nat then
       GenSig <- getChild (mkNode K_Extension NoPayload (m :: t :: sig)) 2 ;;
       ret (addChildTo BoundParent (Some GenSig))
     else ret BoundParent)
    (fun r s' => s' = s /\ forall x, r = Some x -> P /\ wf x /\ isParent (getKind x) = true) s.
Proof.
  intros Hwm Hkm Hkt Hsig Hr.
  assert (forall x, r = Some x ->
    wf x /\ isAnyGeneric (getKind x) || isBoundGeneric (getKind x) = true) as Hr'.
  { intros x Hx. destruct (Hr x Hx) as (Hwx & [->|Hkx] & _); [done|].
    by rewrite Hkx, orb_true_r. }
  destruct Hsig as [->|(g & -> & Hwg & Hkg)]; cbn -[wp].
  - apply wp_ret. split; [done|]. destruct r as [x|]; cbn; [|done].
    destruct (Hr' x eq_refl) as [Hwx Hkx]. intros ? [= <-]. split_and!; try done.
    solve_wf; by rewrite Hkx.
  - apply wp_bind. eapply wp_getChild; [reflexivity|]. apply wp_ret. split; [done|].
    destruct r as [x|]; cbn; [|done].
    destruct (Hr' x eq_refl) as [Hwx Hkx]. intros ? [= <-]. split_and!; try done.
    solve_wf; by rewrite Hkx.
Qed.

Lemma wp_demangleBoundGenericArgs TypeLists Nominal s (Q : NodePointer -> Demangler -> Prop) :
  Forall (fun l => wf l /\ getKind l = K_TypeList) TypeLists -> nominal Nominal ->
  (forall r, (forall x, r = Some x -> boundTo Nominal x) -> Q r s) ->
  wp parse_crash (demangleBoundGenericArgs (Some Nominal) TypeLists) Q s.
Proof.
  intros Hl. revert Nominal Q. induction Hl as [|args TypeLists [Hwa Hka] Hl IH]; intros Nominal Q [Hw Hk] HQ;
    cbn [demangleBoundGenericArgs]; (destruct (getNumChildren Nominal <? 2)%nat eqn:Hn; [by apply wp_ret, HQ|]).
  { by apply wp_ret, HQ. }
  destruct Nominal as [k p cs]. cbn in Hk, Hn.
  apply wf_inv in Hw as [Hs Hwc]; [|by destruct Hk as [->|[Hk _]]; [|destruct k]]. cbn in Hs, Hwc.
  destruct cs as [|c0 [|c1 cs]]; try discriminate Hn.
  inversion_clear Hwc as [|? ? Hw0 Hw']. inversion_clear Hw' as [|? ? Hw1 Hwc].
  assert (k <> K_Type) as Hkt.
  { intros ->. unfold shape in Hs. cbn in Hs. by rewrite ?andb_false_r in Hs. }
  destruct Hk as [?|[Hk Hext]]; [done|].
  apply wp_bind, wp_getFirstChild, wp_bind.
  destruct TypeLists as [|args' TypeLists'].
  { eapply wp_ret, wp_bindArguments; [..|exact HQ]; try done. by apply wf_intro; repeat constructor. }
  set (TypeLists := args' :: TypeLists') in *.
  eapply wp_bind, (wp_mono _ (fun r s' => s' = s /\ forall x, r = Some x ->
    isBoundGeneric k = false /\ wf x /\ isParent (getKind x) = true)).
  - destruct (isBoundGeneric k) eqn:Hb.
    + (* the parent of a bound generic type is a type, and stays unbound *)
      assert (getKind c0 = K_Type) as Hk0 by (by eapply bound_first_child).
      rewrite Hk0. cbn [Kind_eqb]. apply IH; [by split; [|left]|].
      intros r Hr. split; [done|]. intros x ->. by destruct (Hr x eq_refl) as (_ & _ & ?).
    + assert (isParent (getKind c0) = true) as Hp0.
      { by destruct (shape_rebuild k p c0 c1 cs (createNode K_Module) Hs Hk Hext Hb eq_refl) as [? _]. }
      destruct (Kind_eqb (getKind c0) K_Extension) eqn:Ek.
      * apply Kind_eqb_eq in Ek.
        destruct (wf_Extension _ Hw0 Ek) as (m & t & sig & -> & Hwm & Hkm & Hwt & Hkt' & Hsig).
        apply wp_bind. eapply wp_getChild; [reflexivity|].
        apply wp_bind, IH; [by apply anyGeneric_nominal|]. intros r Hr.
        apply wp_bind, wp_getFirstChild. by apply wp_boundExtension with (t := t).
      * apply IH; [split; [done|right; split; [done|by apply Kind_eqb_false]]|].
        intros r Hr. split; [done|]. intros x ->. destruct (Hr x eq_refl) as (? & Hkx & _).
        split_and!; [done..|]. destruct Hkx as [->|Hkx]; [done|]. unfold isParent. by rewrite Hkx, orb_true_r.
  - cbn beta. intros r s' [-> Hr]. apply wp_bind. eapply wp_getChild; [reflexivity|]. apply wp_ret.
    destruct r as [bp|]; [|by apply wp_ret, HQ].
    destruct (Hr bp eq_refl) as (Hb & Hwb & Hkb).
    destruct (shape_rebuild k p c0 c1 cs bp Hs Hk Hext Hb Hkb) as [_ Hs'].
    eapply wp_bindArguments; [..|exact HQ]; try done. by apply wf_intro; repeat constructor.
Qed.

Definition typeLists (s : Demangler) (ls : list Node) (s1 : Demangler) : Prop :=
  inv s1 /\ frame s s1 /\ Pos s1 = Pos s /\ Forall (fun l => wf l /\ getKind l = K_TypeList) ls.

Ltac facts_hook ::=
  match goal with
  | H : filled _ _ _ _ _ |- _ => destruct H as (? & ? & ? & ?)
  | H : filling _ _ _ _ _ |- _ => destruct H as (? & ? & ? & ?)
  | H : typeLists _ _ _ |- _ => destruct H as (? & ? & ? & ?)
  end.

#[export] Instance spec_popTypeLists_loop :
  Spec (while_ popTypeLists_step []) (fun s r s' => typeLists s (default [] r) s').
Proof.
  intros s Hs. apply wp_while with (I := typeLists s) (f := fun _ s1 => length (NodeStack s1)).
  - split_and!; [done|apply frame_refl|done|constructor].
  - lia.
  - intros ls s1 (Hs1 & Hf1 & Hp1 & Hls). unfold popTypeLists_step. run.
    all: try (assert (Forall (fun l => wf l /\ getKind l = K_TypeList) (ls ++ [n]))
                by (apply Forall_app_2; auto)).
    all: try (split; [|arith]); split_and!; try assumption; try solve_frame; try arith; constructor.
Qed.

#[export] Instance spec_demangleBoundGenericType :
  Spec demangleBoundGenericType (handled (fun n => getKind n = K_Type)).
Proof.
  intros s Hs. unfold demangleBoundGenericType. run; try finish.
  destruct a as [Nominal|]; [|destruct l; run; finish].
  match goal with H : forall n, Some Nominal = Some n -> _ |- _ => destruct (H _ eq_refl) as (Hw & Hk & _) end.
  apply wp_demangleBoundGenericArgs; [done|by apply anyGeneric_nominal; [|rewrite Hk]|].
  intros r Hr. destruct r as [x|]; [|run; finish].
  destruct (Hr x eq_refl) as (Hwx & Hkx & _).
  assert (isAnyGeneric (getKind x) || isBoundGeneric (getKind x) = true) as Hx.
  { destruct Hkx as [->| ->]; [by rewrite Hk|by rewrite orb_true_r]. }
  assert (isTypeChild (getKind x) = true) as Htx by by destruct (getKind x).
  apply wp_bind, wp_addSubstitution; [done| |].
  { intros ? [= <-]. split; [solve_wf|]. cbn. by rewrite Hx. }
  intros s2 ? ? ? ?. run. finish.
Qed.

(** ** Lowered function types *)

(** A parameter or result whose type is still to come. *)
Definition half (k : Kind) (n : Node) : Prop :=
  exists attr, n = mkNode k NoPayload [createNodeText K_ImplConvention attr].

Definition isImplValue (k : Kind) : bool :=
  match k with K_ImplParameter | K_ImplResult | K_ImplErrorResult => true | _ => false end.

Lemma half_complete k n ty :
  isImplValue k = true -> half k n -> wf ty -> getKind ty = K_Type ->
  wf (nodeAddChild n ty) /\ getKind (nodeAddChild n ty) = k.
Proof.
  intros Hk [attr ->] Hw Ht. destruct k; try discriminate Hk; (split; [|done]);
    unfold nodeAddChild, createNodeText; cbn; solve_wf.
Qed.

(** A convention that was read, or pushed back. *)
Definition convention (k : Kind) (s : Demangler) (r : NodePointer) (s' : Demangler) : Prop :=
  inv s' /\ frame s s' /\ NodeStack s' = NodeStack s
  /\ match r with
     | Some n => half k n /\ Pos s' = S (Pos s)
     | None => (Pos s' = Nat.min (Pos s) (length (Text s) - 1))%nat
     end.

Ltac solve_convention :=
  cbv beta; chars; unfold convention, implConvention, createWithChild, nodeAddChild; cbn;
  split_and!; try assumption; try congruence; try (eexists; reflexivity).

#[export] Instance spec_demangleImplParamConvention :
  Spec demangleImplParamConvention (convention K_ImplParameter).
Proof. intros s Hs. unfold demangleImplParamConvention. run; solve_convention. Qed.

#[export] Instance spec_demangleImplResultConvention k :
  Spec (demangleImplResultConvention k) (convention k).
Proof. intros s Hs. unfold demangleImplResultConvention. run; solve_convention. Qed.

(** The state of the loops over the conventions: [vs] were read, of kind [k]. *)
Definition conventions (k : Kind) (s : Demangler) (st : Node * nat) (st' : Node * nat)
    (s' : Demangler) : Prop :=
  inv s' /\ frame s s' /\ NodeStack s' = NodeStack s
  /\ (Nat.min (Pos s) (length (Text s) - 1) <= Pos s')%nat
  /\ exists vs, Forall (half k) vs /\ st'.2 = (st.2 + length vs)%nat
     /\ st'.1 = mkNode (getKind st.1) (payload st.1) (children st.1 ++ vs).

Lemma spec_implConventions_loop k body st s :
  Spec body (convention k) -> inv s ->
  wp parse_crash (while_ (implConventions_step body) st) (conventions k s st) s.
Proof.
  intros Hbody Hs.
  apply wp_while with (I := fun st' s1 => conventions k s st st' s1 /\ (Pos s1 <= length (Text s1))%nat)
    (f := fun _ s1 => rest s1).
  - split; [|apply Hs]. split_and!; [done|apply frame_refl|done|lia|].
    exists []. rewrite app_nil_r. split; [apply Forall_nil_2|split; [cbn; lia|by destruct st as [[]]]].
  - unfold rest. lia.
  - intros [ty n] s1 [(Hs1 & Hf1 & Hst1 & Hp1 & vs & Hvs & Hn & Hty) _]. unfold implConventions_step.
    apply wp_bind. eapply wp_mono; [by apply Hbody|].
    intros r s2 (Hs2 & Hf2 & Hst2 & Hr). destruct r as [v|]; apply wp_ret.
    + destruct Hr as [Hv Hp2]. split; [split; [|apply Hs2]|unfold rest; arith].
      split_and!; [done|by eapply frame_trans|congruence|lia|].
      exists (vs ++ [v]). cbn in *. subst ty n. cbn.
      split_and!; [by apply Forall_app_2; [|constructor]|rewrite length_app; cbn; lia|].
      unfold nodeAddChild. cbn. by rewrite app_assoc.
    + cbn in *. split_and!; [done|by eapply frame_trans|congruence| |by exists vs].
      pose proof (frame_lengths _ _ Hf1). lia.
Qed.

(** A child list that is split into the parts that each pattern takes; what an
    [Opt] or [Many] takes must not occur in a later part. *)
Fixpoint parts (ps : list pat) (css : list (list Node)) : Prop :=
  match ps, css with
  | [], [] => True
  | One p :: ps, cs :: css => (exists c, cs = [c]) /\ Forall (fun c => p c = true) cs /\ parts ps css
  | Opt p :: ps, cs :: css =>
      (cs = [] \/ exists c, cs = [c]) /\ Forall (fun c => p c = true) cs
      /\ Forall (fun c => p c = false) (concat css) /\ parts ps css
  | Many p :: ps, cs :: css =>
      Forall (fun c => p c = true) cs
      /\ Forall (fun c => p c = false) (concat css) /\ parts ps css
  | _, _ => False
  end.

Lemma matches_parts ps css : parts ps css -> matches ps (concat css) = true.
Proof.
  revert css. induction ps as [|[p|p|p] ps IH]; intros [|cs css]; cbn [parts concat];
    try done.
  - intros ((c & ->) & Hp & Hps%IH). inversion_clear Hp as [|? ? Hc _]. cbn. by rewrite Hc.
  - intros ([->|(c & ->)] & Hp & Hd & Hps%IH); cbn [app matches].
    + destruct (concat css) as [|x l]; [done|]. inversion_clear Hd as [|? ? Hx _]. by rewrite Hx.
    + inversion_clear Hp as [|? ? Hc _]. by rewrite Hc.
  - intros (Hp & Hd & Hps%IH). induction Hp as [|c cs Hc _ IHcs]; cbn [app matches] in *.
    + destruct (concat css) as [|x l]; [done|]. inversion_clear Hd as [|? ? Hx _]. by rewrite Hx.
    + by rewrite Hc.
Qed.

(** At most one node, of a kind in [q]. *)
Definition atMostOne (q : Kind -> bool) (cs : list Node) : Prop :=
  (cs = [] \/ exists c, cs = [c]) /\ Forall (fun c => q (getKind c) = true) cs.

Definition isKind (k : Kind) : Kind -> bool := fun k' => Kind_eqb k' k.

(** The children in front of the parameters. *)
Definition implPrefix (cs : list Node) : Prop :=
  Forall wf cs /\ exists e c a g, cs = e ++ [c] ++ a ++ g
    /\ atMostOne (isKind K_ImplEscaping) e /\ isKind K_ImplConvention (getKind c) = true
    /\ atMostOne (isKind K_ImplFunctionAttribute) a /\ atMostOne isSignature g.

Definition implShape : list pat :=
  [Opt (ofKind K_ImplEscaping); One (ofKind K_ImplConvention); Opt (ofKind K_ImplFunctionAttribute);
   Opt (kindIn isSignature); Many (ofKind K_ImplParameter); Many (ofKind K_ImplResult);
   Opt (ofKind K_ImplErrorResult)].

Lemma matches_impl pre ps rs es :
  implPrefix pre -> Forall (fun c => isKind K_ImplParameter (getKind c) = true) ps ->
  Forall (fun c => isKind K_ImplResult (getKind c) = true) rs ->
  atMostOne (isKind K_ImplErrorResult) es ->
  matches implShape (pre ++ ps ++ rs ++ es) = true.
Proof.
  intros (_ & e & c & a & g & -> & [He He'] & Hc & [Ha Ha'] & [Hg Hg']) Hps Hrs [Hes Hes'].
  assert (Forall (fun c => isKind K_ImplConvention (getKind c) = true) [c]) as Hc' by by constructor.
  assert ((e ++ [c] ++ a ++ g) ++ ps ++ rs ++ es = concat [e; [c]; a; g; ps; rs; es]) as ->.
  { cbn [concat]. by rewrite app_nil_r, <-!app_assoc. }
  apply matches_parts. cbn [parts implShape concat].
  split_and!; try done; try (by eexists); try assumption;
    repeat apply Forall_app_2; try apply Forall_nil_2;
    (eapply Forall_impl; [|eassumption]; unfold kindIn, ofKind, isKind; intros x; cbn beta;
     destruct (getKind x); done).
Qed.

(** [addImplTypes] completes the last [n] children, and keeps their kinds. *)
Lemma wp_addImplTypes n Idx k p pre todo finished s (Q : NodePointer -> Demangler -> Prop) :
  inv s -> length todo = n -> length finished = Idx ->
  Forall (fun c => exists k, isImplValue k = true /\ half k c) todo ->
  (forall s', inv s' -> frame s s' -> Pos s' = Pos s -> Q None s') ->
  (forall todo' s', inv s' -> frame s s' -> Pos s' = Pos s ->
     Forall wf todo' -> map getKind todo' = map getKind todo ->
     Q (Some (mkNode k p (pre ++ todo' ++ finished))) s') ->
  wp parse_crash (addImplTypes n Idx (mkNode k p (pre ++ todo ++ finished))) Q s.
Proof.
  revert Idx todo finished s Q.
  induction n as [|n IH]; intros Idx todo finished s Q Hs Hn Hi Hhalf HNone HQ; cbn [addImplTypes].
  { destruct todo; [|done]. apply wp_ret, (HQ []); [done|apply frame_refl|done..]. }
  run; [|by apply HNone].
  destruct (List.exists_last (l := todo)) as (todo' & v & ->); [by intros ->|].
  rename todo' into todo. rewrite length_app in Hn. cbn in Hn.
  apply Forall_app in Hhalf as [Hhalf Hlast].
  inversion_clear Hlast as [|? ? (kv & Hkv & Hv) _].
  assert (Hlook : (pre ++ (todo ++ [v]) ++ finished)
            !! (length (pre ++ (todo ++ [v]) ++ finished) - length finished - 1)%nat = Some v).
  { rewrite !length_app. cbn.
    replace (_ - length finished - 1)%nat with (length pre + length todo)%nat by lia.
    rewrite lookup_app_r by lia. rewrite <-app_assoc, lookup_app_r by lia.
    by replace (_ - _ - _)%nat with 0%nat by lia. }
  eapply wp_getChild; [exact Hlook|].
  set (ty := mkNode K_Type NoPayload [child]) in *.
  destruct (half_complete kv v ty Hkv Hv) as [Hwv Hkv']; [subst ty; solve_wf|done|].
  unfold setChild. cbn [getKind payload children].
  replace (<[_ := _]> (pre ++ (todo ++ [v]) ++ finished))
    with (pre ++ todo ++ (nodeAddChild v ty :: finished)).
  2: { rewrite !length_app. cbn.
    replace (_ - length finished - 1)%nat with (length pre + length todo)%nat by lia.
    rewrite <-(app_assoc todo), (insert_app_r_alt pre) by lia.
    rewrite (insert_app_r_alt todo) by lia.
    by replace (_ - _ - _)%nat with 0%nat by lia. }
  apply IH; [done|lia|cbn; lia|done| |].
  - intros s2 ? ? ?. apply HNone; [done|by eapply frame_trans|congruence].
  - intros todo' s2 ? ? ? Hw Hk. 
    replace (todo' ++ nodeAddChild v ty :: finished) with ((todo' ++ [nodeAddChild v ty]) ++ finished)
      by (by rewrite <-app_assoc).
    apply HQ; [done|by eapply frame_trans|congruence|by apply Forall_app_2; [|constructor]|].
    destruct Hv as [attr ->]. rewrite !map_app, Hk. cbn. by cbn in Hkv'.
Qed.

(** From the parameters on. *)
Lemma wp_implValues pre s0 s :
  inv s -> frame s0 s -> (Pos s0 <= Pos s)%nat -> implPrefix pre ->
  wp parse_crash
    (r <- while_ (implConventions_step demangleImplParamConvention)
            (mkNode K_ImplFunctionType NoPayload pre, 0%nat) ;;
     r <- while_ (implConventions_step (demangleImplResultConvention K_ImplResult)) r ;;
     let '(type, NumTypesToAdd) := r in
     z <- nextIf "z" ;;
     r <-
       (if (z : bool) then
          ErrorResult <- demangleImplResultConvention K_ImplErrorResult ;;
          match ErrorResult with
          | None => ret None
          | Some e => ret (Some (nodeAddChild type e, (NumTypesToAdd + 1)%nat))
          end
        else ret (Some (type, NumTypesToAdd))) ;;
     match r with
     | None => ret None
     | Some (type, NumTypesToAdd) =>
         u <- nextIf "_" ;;
         if negb u then ret None
         else type <- addImplTypes NumTypesToAdd 0 type ;; ret (createType type)
     end) (handled (fun n => getKind n = K_Type) s0) s.
Proof.
  intros Hs Hf Hp Hpre.
  apply wp_bind. eapply wp_mono; [by apply (spec_implConventions_loop K_ImplParameter); [apply _|]|].
  intros [t1 n1] s1 (Hs1 & Hf1 & Hst1 & Hp1 & ps & Hps & Hn1 & Ht1).
  apply wp_bind. eapply wp_mono; [by apply (spec_implConventions_loop K_ImplResult); [apply _|]|].
  intros [t2 n2] s2 (Hs2 & Hf2 & Hst2 & Hp2 & rs & Hrs & Hn2 & Ht2).
  cbn in Ht1, Hn1, Ht2, Hn2. subst t1 n1 t2 n2. cbn [getKind payload children].
  apply wp_bind. eapply wp_mono; [apply spec_nextIf; [reflexivity|done]|].
  intros z s3 [[Hs3 Hf3 Hp3 Hst3] Hz]. cbv beta in *.
  apply wp_bind. eapply wp_mono with (Q := fun r s4 =>
    inv s4 /\ frame s0 s4 /\ (Nat.min (Pos s0) (length (Text s0) - 1) <= Pos s4)%nat /\
    forall t n, r = Some (t, n) -> exists es,
      t = mkNode K_ImplFunctionType NoPayload (pre ++ (ps ++ rs ++ es) ++ [])
      /\ n = length (ps ++ rs ++ es) /\ Forall (half K_ImplErrorResult) es
      /\ (es = [] \/ exists e, es = [e])).
  { destruct z.
    - apply wp_bind. eapply wp_mono; [by apply spec_demangleImplResultConvention|].
      intros r s4 (Hs4 & Hf4 & Hst4 & Hr). destruct r as [e|]; apply wp_ret.
      + destruct Hr as [He Hp4]. split_and!; [done|solve_frame|arith|].
        intros t n [= <- <-]. exists [e]. split_and!.
        * unfold nodeAddChild. cbn [getKind payload children]. by rewrite app_nil_r, <-!app_assoc.
        * rewrite !length_app. cbn. lia.
        * by constructor.
        * right. by eexists.
      + split_and!; [done|solve_frame|arith|done].
    - apply wp_ret. split_and!; [done|solve_frame|arith|]. intros t n [= <- <-]. exists [].
      split; [by rewrite !app_nil_r, <-app_assoc|split; [rewrite !length_app; cbn; lia|]].
      split; [apply Forall_nil_2|by left]. }
  intros r s4 (Hs4 & Hf4 & Hp4 & Hr). destruct r as [[t n]|]; [|run; finish].
  destruct (Hr t n eq_refl) as (es & -> & -> & Hes & Hes1).
  apply wp_bind. eapply wp_mono; [apply spec_nextIf; [reflexivity|done]|].
  intros u s5 [[Hs5 Hf5 Hp5 Hst5] Hu]. cbv beta in *. destruct u; cbn [negb]; [|run; finish].
  apply wp_bind, wp_addImplTypes; [done|done|done| | |].
  { repeat apply Forall_app_2; (eapply Forall_impl; [|eassumption]); intros x Hx;
      (eexists; split; [|exact Hx]; reflexivity). }
  { intros s6 ? ? ?. apply wp_ret. split; [done|solve_frame|done]. }
  intros vs s6 Hs6 Hf6 Hp6 Hw Hk. apply wp_ret. split; [done|solve_frame|].
  intros x [= <-]. split_and!; [|done|arith].
  apply wf_intro; [done|]. apply Forall_cons_2; [|by apply Forall_nil_2].
  rewrite app_nil_r. apply wf_intro; [|by apply Forall_app_2; [apply Hpre|]].
  rewrite !map_app in Hk. apply map_eq_app in Hk as (ps' & v' & -> & Hps' & Hk).
  apply map_eq_app in Hk as (rs' & es' & -> & Hrs' & Hes').
  assert (forall k (l l' : list Node), Forall (half k) l -> map getKind l' = map getKind l ->
    Forall (fun c => isKind k (getKind c) = true) l') as Hkinds.
  { intros k l l' Hl. revert l'. induction Hl as [|c l [attr ->] _ IH]; intros [|c' l']; try done.
    cbn. intros [= Hc Hl']. constructor; [|by apply IH]. unfold isKind. rewrite Hc. by apply Kind_eqb_eq. }
  unfold shape. cbn [payload_shape deep_shape truncatable children_shape andb].
  rewrite orb_false_r. apply matches_impl; [done|by eapply Hkinds|by eapply Hkinds|].
  split; [|by eapply Hkinds]. destruct Hes1 as [->|(e & ->)].
  - left. by apply map_eq_nil in Hes'.
  - right. destruct es' as [|e' [|]]; try done. by eexists.
Qed.

Definition option_nodes (o : NodePointer) : list Node := match o with Some n => [n] | None => [] end.

Lemma implPrefix_intro (escaping : bool) CAttr (FAttr : option str) (sig : NodePointer) :
  (forall n, sig = Some n -> wf n /\ isSignature (getKind n) = true) ->
  implPrefix ((if escaping then [createNode K_ImplEscaping] else [])
    ++ [createNodeText K_ImplConvention CAttr]
    ++ option_nodes (createNodeText K_ImplFunctionAttribute <$> FAttr) ++ option_nodes sig).
Proof.
  intros Hsig. split.
  - destruct escaping, FAttr, sig as [g|]; cbn; unfold createNode, createNodeText; solve_wf;
      by destruct (Hsig g eq_refl).
  - exists (if escaping then [createNode K_ImplEscaping] else []), (createNodeText K_ImplConvention CAttr),
      (option_nodes (createNodeText K_ImplFunctionAttribute <$> FAttr)), (option_nodes sig).
    split_and!; [done| |done| |].
    + destruct escaping; (split; [eauto|repeat constructor]).
    + destruct FAttr; (split; [eauto|repeat constructor]).
    + destruct sig as [g|]; (split; [eauto|repeat constructor]). by destruct (Hsig g eq_refl).
Qed.

Lemma wf_pseudogeneric n :
  wf n -> getKind n = K_DependentGenericSignature ->
  wf (mkNode K_DependentPseudogenericSignature (payload n) (children n)).
Proof. destruct n as [k p cs]. rewrite !wf_iff. intros [Hs Hw] Hk. cbn in *. by subst k. Qed.

Lemma wp_unbind {A B} (m : DM A) (k : A -> DM B) Q s :
  wp parse_crash (bind m k) Q s -> wp parse_crash m (fun a s' => wp parse_crash (k a) Q s') s.
Proof. unfold wp, bind. by destruct (m s) as [[? ?]|]. Qed.

#[export] Instance spec_demangleImplFunctionType :
  Spec demangleImplFunctionType (handled (fun n => getKind n = K_Type)).
Proof.
  intros s Hs. unfold demangleImplFunctionType. run; try finish; try (destruct a; run; finish).
  all: repeat match goal with b : bool |- _ => destruct b end; cbn [default addChildTo];
    unfold nodeAddChild, createNode, createNodeText; cbn [getKind payload children app].
  all: chars; apply wp_unbind, wp_implValues; [assumption|solve_frame|arith|].
  all: first
    [ eapply (implPrefix_intro true _ (Some _) (Some _)) | eapply (implPrefix_intro true _ (Some _) None)
    | eapply (implPrefix_intro true _ None (Some _)) | eapply (implPrefix_intro true _ None None)
    | eapply (implPrefix_intro false _ (Some _) (Some _)) | eapply (implPrefix_intro false _ (Some _) None)
    | eapply (implPrefix_intro false _ None (Some _)) | eapply (implPrefix_intro false _ None None) ];
    intros x Hx; try discriminate Hx; injection Hx as <-;
    (split; [first [assumption|by apply wf_pseudogeneric]|cbn; kinds]).
Qed.

(** ** Generic parameters, associated types and conformances *)

#[export] Instance spec_getDependentGenericParamType depth index :
  Spec (getDependentGenericParamType depth index)
    (fun s r s' => s' = s /\ forall n, r = Some n ->
       wf n /\ getKind n = K_DependentGenericParamType /\ 0 <= index).
Proof.
  intros s Hs. unfold getDependentGenericParamType. run; (split; [done|]); try done; build.
Qed.

#[export] Instance spec_demangleGenericParamIndex :
  Spec demangleGenericParamIndex (fun s r s' => handled (fun n => getKind n = K_DependentGenericParamType) s r s'
    /\ forall n, r = Some n -> (Pos s < Pos s')%nat).
Proof.
  intros s Hs. unfold demangleGenericParamIndex. run; (split; [finish|]).
  - intros n ->. arith.
  - intros n ->. arith.
  - intros n ->. facts.
    match goal with H : 0 <= wrap_int (?i + 1) |- _ =>
      assert (0 <= i) by
        (destruct (decide (0 <= i)); [done|]; rewrite wrap_int_id in H by lia; lia) end.
    arith.
Qed.

#[export] Instance spec_popAssocTypeName :
  Spec popAssocTypeName (popped (fun n => getKind n = K_DependentAssociatedTypeRef)).
Proof. handler popAssocTypeName. Qed.

(** The names of a compound associated type that were popped. *)
Definition assocNames (s : Demangler) (ns : list Node) (s1 : Demangler) : Prop :=
  inv s1 /\ frame s s1 /\ Pos s1 = Pos s
  /\ Forall (fun n => wf n /\ getKind n = K_DependentAssociatedTypeRef) ns.

#[export] Instance spec_popAssocTypeNames_loop :
  Spec (while_ popAssocTypeNames_step []) (fun s r s' => assocNames s (default [] r) s' /\ r <> Some []).
Proof.
  intros s Hs. apply wp_while with (I := assocNames s) (f := fun _ s1 => length (NodeStack s1)).
  - split_and!; [done|apply frame_refl|done|constructor].
  - lia.
  - intros ns s1 (Hs1 & Hf1 & Hp1 & Hns). unfold popAssocTypeNames_step. run.
    all: try (assert (Forall (fun n => wf n /\ getKind n = K_DependentAssociatedTypeRef) (n :: ns))
                by (constructor; auto)).
    all: unfold assocNames; split_and!; try assumption; try solve_frame; try arith; try done; constructor.
Qed.

(** A [Type] node that stands for a member of [base], which exists. *)
Definition memberType (base : NodePointer) (n : Node) : Prop :=
  getKind n = K_Type /\ substitutable n = true /\ exists b, base = Some b.

Lemma buildMemberType_spec names base :
  Forall (fun n => wf n /\ getKind n = K_DependentAssociatedTypeRef) names ->
  (forall n, base = Some n -> wf n /\ isTypeChild (getKind n) = true) ->
  forall n, buildMemberType names base = Some n ->
    wf n /\ (exists b, base = Some b) /\ (names <> [] -> getKind n = K_DependentMemberType).
Proof.
  intros Hns. revert base. induction Hns as [|name names [Hw Hk] Hns IH]; intros base Hb n; cbn [buildMemberType].
  { intros ->. split_and!; [by apply Hb|eauto|done]. }
  destruct base as [b|]; cbn.
  - destruct (Hb b eq_refl) as [Hwb Hkb]. intros Hn. eapply IH in Hn as Hn'; [destruct Hn' as (Hwn & _ & Hkn)|].
    2: { intros ? [= <-]. unfold nodeAddChild. cbn. split; [solve_wf|done]. }
    split_and!; [done|eauto|]. intros _. destruct names as [|? ?]; [|by apply Hkn].
    cbn in Hn. by injection Hn as <-.
  - intros Hn. exfalso. by apply IH in Hn as (_ & [? ?] & _).
Qed.

Lemma wp_demangleAssociatedTypeSimple base s :
  inv s -> (forall n, base = Some n -> wf n /\ isTypeChild (getKind n) = true) ->
  wp parse_crash (demangleAssociatedTypeSimple base) (popped (memberType base) s) s.
Proof.
  intros Hs Hb. unfold demangleAssociatedTypeSimple, memberType.
  destruct base as [b|]; [destruct (Hb b eq_refl)|clear Hb]; run; finish.
Qed.

Lemma wp_demangleAssociatedTypeCompound base s :
  inv s -> (forall n, base = Some n -> wf n /\ isTypeChild (getKind n) = true) ->
  wp parse_crash (demangleAssociatedTypeCompound base) (handled (memberType base) s) s.
Proof.
  intros Hs Hb. unfold demangleAssociatedTypeCompound. run; unfold assocNames in *; facts.
  - split; [assumption|solve_frame|].
    match goal with H : Forall _ (default [] (Some ?l)) |- _ => cbn in H;
      pose proof (buildMemberType_spec l base H Hb) as Hbuild; destruct (buildMemberType l base) as [m|] end;
      [|done].
    destruct (Hbuild m eq_refl) as (Hwm & Hbase & Hkm). cbn. intros ? [= <-].
    specialize (Hkm ltac:(congruence)).
    split; [cbn; solve_wf|split; [|arith]]. split; [done|split; [cbn; kinds|done]].
  - finish.
Qed.

Ltac run_hook ::=
  match goal with
  | |- wp _ (popFunctionParamLabels _) _ _ =>
      eapply wp_mono;
        [apply wp_popFunctionParamLabels; [solve_inv|intros ? ->; facts; auto]
        |intros ? ? ?; facts]
  | |- wp _ (demangleAccessor _) _ _ =>
      eapply wp_mono;
        [apply wp_demangleAccessor; [solve_inv|build]
        |intros ? ? ?; facts]
  | H : listNode _ _ ?n |- wp _ (reverseChildren ?n 0) _ _ =>
      let n' := fresh "n" in let H' := fresh "Hlist" in
      eapply wp_reverse_list; [exact H|intros n' H' ?; list_done n' H']
  | |- wp _ (demangleAssociatedTypeSimple _) _ _ =>
      eapply wp_mono;
        [apply wp_demangleAssociatedTypeSimple; [solve_inv|intros ? ->; facts; split; [assumption|by kinds]]
        |intros ? ? ?; facts]
  | |- wp _ (demangleAssociatedTypeCompound _) _ _ =>
      eapply wp_mono;
        [apply wp_demangleAssociatedTypeCompound; [solve_inv|intros ? ->; facts; split; [assumption|by kinds]]
        |intros ? ? ?; facts]
  | |- wp _ (substituted _) _ _ => unfold substituted
  end.

#[export] Instance spec_popProtocolConformance :
  Spec popProtocolConformance (handled (fun n => getKind n = K_ProtocolConformance)).
Proof. handler popProtocolConformance. Qed.

Ltac facts_hook ::=
  match goal with
  | H : filled _ _ _ _ _ |- _ => destruct H as (? & ? & ? & ?)
  | H : filling _ _ _ _ _ |- _ => destruct H as (? & ? & ? & ?)
  | H : typeLists _ _ _ |- _ => destruct H as (? & ? & ? & ?)
  | H : memberType _ _ |- _ => destruct H as (? & ? & ?)
  end.

#[export] Instance spec_demangleArchetype :
  Spec demangleArchetype (handled (fun n => getKind n = K_Type)).
Proof. handler demangleArchetype. Qed.

#[export] Instance spec_demangleMetatype :
  Spec demangleMetatype (handled (fun _ => True)).
Proof. unfold demangleMetatype, createWithPoppedType. handler demangleMetatype. Qed.

(** ** Specializations *)

#[export] Instance spec_bridgedMethodParams_loop Str :
  Spec (while_ demangleBridgedMethodParams_step Str) (fun s r s' => read s r s').
Proof.
  intros s Hs. apply wp_while with (I := fun _ s1 => read s tt s1) (f := fun _ s1 => rest s1).
  - finish.
  - unfold rest. lia.
  - intros Str' s1 Hr. facts. unfold demangleBridgedMethodParams_step. run; try finish.
    match goal with H : charRead _ ?c _ |- _ => assert (c <> NUL) by by intros -> end.
    split; [finish|]. unfold rest. chars. arith.
Qed.

#[export] Instance spec_demangleBridgedMethodParams :
  Spec demangleBridgedMethodParams (fun s r s' => inv s' /\ frame s s' /\ (r <> [] -> Pos s <= Pos s')%nat).
Proof.
  intros s Hs. unfold demangleBridgedMethodParams. run; chars;
    (split_and!; [assumption|solve_frame|intros _; arith]).
Qed.

(** The attributes of a specialization. *)
Definition specAttributes (kind : Kind) (unique : bool) (n : Node) : Prop :=
  exists p fragile pass, n = mkNode kind p (fragile ++ [pass])
    /\ (p = NoPayload \/ unique = true /\ exists i, p = IndexPayload i)
    /\ (fragile = [] \/ fragile = [createNode K_SpecializationIsFragile])
    /\ wf pass /\ getKind pass = K_SpecializationPassID.

#[export] Instance spec_demangleSpecAttributes kind unique :
  Spec (demangleSpecAttributes kind unique) (fun s r s' =>
    inv s' /\ frame s s' /\ NodeStack s' = NodeStack s
    /\ forall n, r = Some n -> specAttributes kind unique n /\ (Pos s < Pos s')%nat).
Proof.
  intros s Hs. unfold demangleSpecAttributes. run.
  all: try match goal with
    | Hc : charRead ?s1 ?c ?s2, Hn : 0 <= (if 128 <=? ord ?c then _ else _) - _ |- _ =>
        assert (c <> NUL) by (intros ->; apply Hn; reflexivity)
    end.
  all: chars; (split_and!; [assumption|solve_frame|congruence|]); try done; intros ? [= <-];
    (split; [|arith]); unfold specAttributes, createNode, createNodeIndex, nodeAddChild;
    repeat match goal with |- context [if ?b then _ else _] => destruct b end;
    cbn [getKind payload children app].
  all: match goal with
  | |- exists p f x, mkNode _ ?p0 [?a; ?b] = _ /\ _ => exists p0, [a], b
  | |- exists p f x, mkNode _ ?p0 [?b] = _ /\ _ => exists p0, [], b
  end; split_and!; try done; eauto.
Qed.

(** The specialization node with its parameters. *)
Lemma wf_specialization kind unique n params ps :
  specAttributes kind unique n -> Forall (wf_child kind) params ->
  payload_shape kind NoPayload = true ->
  (unique = true -> forall i, payload_shape kind (IndexPayload i) = true) ->
  children_shape kind = Some (specializationShape ps) -> hasDeepShape kind = false ->
  (forall fragile pass, fragile = [] \/ fragile = [createNode K_SpecializationIsFragile] ->
     getKind pass = K_SpecializationPassID ->
     matches (specializationShape ps) (fragile ++ [pass] ++ params) = true) ->
  wf (mkNode kind (payload n) (children n ++ params)).
Proof.
  intros (p & fr & pass & -> & Hp & Hfr & Hw & Hk) Hps Hpay Hpay' Hshape Hd Hm. cbn [payload children].
  apply wf_iff. split.
  - unfold shape. rewrite Hshape, <-app_assoc, Hm, deep_shape_other by done. cbn.
    destruct Hp as [->|(Hu & i & ->)]; [by rewrite Hpay|by rewrite Hpay'].
  - rewrite <-app_assoc. apply Forall_app_2; [|by apply Forall_cons_2; [left|]].
    destruct Hfr as [->| ->]; [by apply Forall_nil_2|]. by repeat constructor.
Qed.

Lemma matches_specialization p fragile pass params :
  fragile = [] \/ fragile = [createNode K_SpecializationIsFragile] ->
  getKind pass = K_SpecializationPassID -> Forall (fun c => p c = true) params ->
  matches (specializationShape [Many p]) (fragile ++ [pass] ++ params) = true.
Proof.
  intros Hf Hk Hp. assert (matches [Many p] params = true) as Hm.
  { rewrite matches_many, forallb_forall. by apply List.Forall_forall. }
  destruct Hf as [->| ->]; cbn -[matches]; unfold specializationShape.
  - cbn [matches]. unfold ofKind. rewrite Hk. exact Hm.
  - cbn [matches]. unfold ofKind. cbn. rewrite Hk. exact Hm.
Qed.

Lemma fold_addChild (f : Node -> Node) cs n :
  fold_left (fun n c => nodeAddChild n (f c)) cs n
  = mkNode (getKind n) (payload n) (children n ++ map f cs).
Proof.
  revert n. induction cs as [|c cs IH]; intros [k p l]; cbn; [by rewrite app_nil_r|].
  rewrite IH. cbn. by rewrite <-app_assoc.
Qed.

Definition isGenericSpecialization (k : Kind) : bool :=
  match k with K_GenericSpecialization | K_GenericSpecializationNotReAbstracted => true | _ => false end.

#[export] Instance spec_demangleGenericSpecialization kind :
  TCEq (isGenericSpecialization kind) true ->
  Spec (demangleGenericSpecialization kind) (handled (fun _ => True)).
Proof.
  intros Hk%TCEq_eq s Hs. unfold demangleGenericSpecialization. run; try solve [finish].
  split; [assumption|solve_frame|]. intros ? [= <-]. split; [|split; [done|arith]].
  match goal with H : listNode _ _ ?n |- _ => destruct H as [_ _ Hw Hc] end.
  match goal with |- wf (fold_left _ (children ?l) ?n) =>
    change (wf (fold_left (fun n Ty => nodeAddChild n
      ((fun Ty => nodeAddChild (createNode K_GenericSpecializationParam) Ty) Ty)) (children l) n)) end.
  rewrite fold_addChild.
  match goal with H : specAttributes _ _ ?n |- _ =>
    assert (getKind n = kind) as -> by (by destruct H as (? & ? & ? & -> & _)); 
    eapply (wf_specialization kind _ n _ [Many (ofKind K_GenericSpecializationParam)] H) end.
  - apply Forall_map. apply List.Forall_forall. intros ty Hin. left. cbn.
    rewrite List.Forall_forall in Hw, Hc. specialize (Hw ty Hin). specialize (Hc ty Hin).
    unfold nodeAddChild, createNode. cbn. rewrite ofKind_true in Hc. solve_wf.
  - by destruct kind.
  - done.
  - by destruct kind.
  - by destruct kind.
  - intros fr pass Hfr Hpass. apply matches_specialization; [done..|].
    apply Forall_map. by apply List.Forall_forall.
Qed.

Definition isPartialSpecialization (k : Kind) : bool :=
  match k with
  | K_GenericPartialSpecialization | K_GenericPartialSpecializationNotReAbstracted => true
  | _ => false
  end.

#[export] Instance spec_demanglePartialSpecialization kind :
  TCEq (isPartialSpecialization kind) true ->
  Spec (demanglePartialSpecialization kind) (handled (fun _ => True)).
Proof.
  intros Hk%TCEq_eq s Hs. unfold demanglePartialSpecialization. run.
  split; [assumption|solve_frame|].
  repeat match goal with o : NodePointer |- _ => destruct o; facts end; try done.
  open_nodes. intros ? [= <-]. split; [|split; [done|arith]].
  unfold nodeAddChild. 
  match goal with H : specAttributes _ _ ?n |- _ =>
    assert (getKind n = kind) as -> by (by destruct H as (? & ? & ? & -> & _)); 
    eapply (wf_specialization kind _ n _ [One (ofKind K_GenericSpecializationParam)] H) end.
  - apply Forall_cons_2; [|by apply Forall_nil_2]. left. cbn. solve_wf.
  - by destruct kind.
  - done.
  - by destruct kind.
  - by destruct kind.
  - intros fr pass Hfr Hpass. unfold specializationShape. 
    destruct Hfr as [->| ->]; cbn; unfold ofKind; cbn; rewrite Hpass; done.
Qed.

(** What follows the kind of a parameter of a function signature specialization
    before the switch over the parameters adds its payload. *)
Definition freshParts (k : Z) (pays : list Node) : Prop :=
  In k [0; 1; 5] /\ pays = []
  \/ In k [2; 3; 4] /\ (exists t, pays = [paramPayloadNode t])
  \/ In k [6; 7; 64; 128; 192; 256; 320; 384; 448] /\ pays = [].

(** The parameters that the switch completes. *)
Definition needsPayload (k : Z) : bool :=
  (k =? ConstantPropFunction) || (k =? ConstantPropGlobal) || (k =? ConstantPropString) || (k =? ClosureProp).

Definition freshParam (n : Node) : Prop :=
  exists i, n = createNodeIndex K_FunctionSignatureSpecializationParam i
    \/ exists k pays, n = mkNode K_FunctionSignatureSpecializationParam (IndexPayload (wrap_u64 i))
                            (paramKindNode k :: pays) /\ freshParts k pays.

Lemma freshParts_payload k pays : freshParts k pays -> Forall (fun c => exists t, c = paramPayloadNode t) pays.
Proof. intros [[_ ->]|[[_ [t ->]]|[_ ->]]]; repeat constructor. by eexists. Qed.

(** The kinds, one by one. *)
Ltac fresh_kinds H :=
  destruct H as [[Hk ->]|[[Hk [? ->]]|[Hk ->]]];
  repeat (destruct Hk as [<-|Hk]; [|]); try contradiction Hk.

Lemma freshParts_kind k pays : freshParts k pays -> wrap_u32 (wrap_u64 k) = k.
Proof. intros H. fresh_kinds H; reflexivity. Qed.

Lemma freshParts_done k pays :
  freshParts k pays -> needsPayload k = false -> specParamShape (paramKindNode k :: pays) = true.
Proof. intros H. fresh_kinds H; intros Hn; done. Qed.

Lemma freshParts_add k pays t types :
  freshParts k pays -> needsPayload k = true -> Forall (fun c => getKind c = K_Type) types ->
  types = [] \/ k = ClosureProp ->
  specParamShape (paramKindNode k :: (pays ++ [paramPayloadNode t]) ++ types) = true.
Proof.
  intros H Hn Ht Hc.
  assert (matches [Many (ofKind K_Type)] types = true) as Hm.
  { rewrite matches_many, forallb_forall. intros x Hx. apply ofKind_true.
    rewrite List.Forall_forall in Ht. by apply Ht. }
  fresh_kinds H; try discriminate Hn; (destruct Hc as [->|Hc]; [done|try discriminate Hc]). exact Hm.
Qed.

Lemma wf_specParam p k pays types :
  Forall (fun c => exists t, c = paramPayloadNode t) pays ->
  Forall wf types -> Forall (fun c => getKind c = K_Type) types ->
  specParamShape (paramKindNode k :: pays ++ types) = true ->
  wf (mkNode K_FunctionSignatureSpecializationParam (IndexPayload p) (paramKindNode k :: pays ++ types)).
Proof.
  intros Hp Hw Ht Hd. apply wf_intro.
  - unfold shape. cbn [payload_shape deep_shape andb children_shape]. rewrite Hd. cbn [andb].
    rewrite orb_false_r.
    replace (paramKindNode k :: pays ++ types) with (concat [[paramKindNode k]; pays; types])
      by (cbn; by rewrite app_nil_r).
    apply matches_parts. cbn [parts concat]. rewrite !app_nil_r.
    assert (Forall (fun c => getKind c = K_FunctionSignatureSpecializationParamPayload) pays) as Hp'.
    { eapply Forall_impl; [|exact Hp]. by intros c [t ->]. }
    split_and!; try done; eauto; try (by repeat constructor);
      repeat apply Forall_app_2;
      (eapply Forall_impl; [|eassumption]; intros x Hx; unfold ofKind; cbn in Hx; by rewrite Hx).
  - apply Forall_cons_2; [done|]. apply Forall_app_2; [|done].
    eapply Forall_impl; [|exact Hp]. by intros c [t ->].
Qed.

Lemma freshParam_kind n : freshParam n -> getKind n = K_FunctionSignatureSpecializationParam.
Proof. by intros [i [->|(k & pays & -> & _)]]. Qed.

Lemma wf_freshParts i k pays :
  freshParts k pays -> needsPayload k = false ->
  wf (mkNode K_FunctionSignatureSpecializationParam (IndexPayload i) (paramKindNode k :: pays)).
Proof.
  intros H Hn. rewrite <-(app_nil_r pays).
  apply wf_specParam; [by eapply freshParts_payload|constructor..|].
  rewrite app_nil_r. by apply freshParts_done.
Qed.

(** A fresh parameter that was read. *)
Definition paramRead (s : Demangler) (r : NodePointer) (s' : Demangler) : Prop :=
  inv s' /\ frame s s' /\ NodeStack s' = NodeStack s
  /\ forall n, r = Some n -> freshParam n /\ (Pos s < Pos s')%nat.

#[export] Instance spec_specNumber_loop Str :
  Spec (while_ specNumber_step Str) (fun s r s' => read s r s').
Proof.
  intros s Hs. apply wp_while with (I := fun _ s1 => read s tt s1) (f := fun _ s1 => rest s1).
  - finish.
  - unfold rest. lia.
  - intros Str' s1 Hr. facts. unfold specNumber_step. run; [|finish].
    match goal with H : charRead _ ?c _ |- _ => assert (c <> NUL) by
      (rewrite (charRead_char _ _ _ H); by apply isDigit_not_NUL) end.
    split; [finish|]. unfold rest. chars. arith.
Qed.

#[export] Instance spec_demangleFuncSpecParam ParamIdx :
  Spec (demangleFuncSpecParam ParamIdx) paramRead.
Proof.
  intros s Hs. unfold demangleFuncSpecParam, addFuncSpecParamNumber. run; chars; unfold paramRead;
    (split; [assumption|split; [solve_frame|split; [congruence|]]]); try done; intros ? [= <-];
    (split; [|arith]); exists ParamIdx;
    repeat match goal with |- context [if ?b then _ else _] => is_var b; destruct b end;
    first [by left | right; unfold createNodeIndex, nodeAddChild; cbn [getKind payload children app];
      do 2 eexists; (split; [reflexivity|]); unfold freshParts;
      first [left; split; [solve [vm_compute; auto 15]|reflexivity]
            |right; left; split; [solve [vm_compute; auto 15]|eexists; reflexivity]
            |right; right; split; [solve [vm_compute; auto 15]|reflexivity]]].
Qed.

(** The specialization node while its parameters are read. *)
Definition withParams (spec0 : Node) (params : list Node) : Node :=
  mkNode (getKind spec0) (payload spec0) (children spec0 ++ params).

Definition reading (s : Demangler) (o : NodePointer) (s' : Demangler) : Prop :=
  inv s' /\ frame s s' /\ NodeStack s' = NodeStack s
  /\ forall n, o = Some n -> (Pos s <= Pos s')%nat /\ exists spec0 params, n = withParams spec0 params
       /\ specAttributes K_FunctionSignatureSpecialization true spec0 /\ Forall freshParam params.

Lemma reading_add s o s' r s'' :
  reading s o s' -> paramRead s' r s'' -> reading s (addChild o r) s''.
Proof.
  intros (? & ? & ? & Ho) (? & ? & ? & Hr). split_and!; [done|solve_frame|congruence|].
  intros n Hn. destruct o as [o|]; [|done]. destruct r as [r|]; [|done]. injection Hn as <-.
  destruct (Ho o eq_refl) as (? & spec0 & params & -> & ? & ?). destruct (Hr r eq_refl) as [? ?].
  split; [lia|]. exists spec0, (params ++ [r]). split_and!; [|done|by apply Forall_app_2; [|constructor]].
  unfold nodeAddChild, withParams. cbn [getKind payload children]. by rewrite app_assoc.
Qed.

Lemma wp_funcSpecParams_loop Spec ParamIdx s0 s :
  reading s0 Spec s -> (isSome Spec = true -> 0 < Pos s)%nat ->
  wp parse_crash (while_ funcSpecParams_step (Spec, ParamIdx)) (reading s0) s.
Proof.
  intros HSpec Hpos. pose proof (inv_text _ (proj1 HSpec)) as Ht.
  apply wp_while with (I := fun st s1 => reading s0 st.1 s1)
    (f := fun st s1 => if isSome st.1 then S (rest s1) else 0%nat).
  - done.
  - cbn [fst]. unfold rest. destruct (isSome Spec); [specialize (Hpos eq_refl)|]; lia.
  - intros [o i] s1 Ho. cbn [fst] in *. pose proof (proj1 Ho) as Hs1. unfold funcSpecParams_step.
    destruct o as [n|]; cbn [isSome].
    + apply wp_bind. eapply wp_mono; [apply spec_nextIf; [reflexivity|done]|].
      intros stop s2 [[Hs2 Hf2 Hp2 Hst2] _]. cbv beta.
      assert (reading s0 (Some n) s2) as Ho2.
      { destruct Ho as (? & ? & ? & Ho). split_and!; [done|solve_frame|congruence|].
        intros x Hx. destruct (Ho x Hx) as (? & ?). split; [lia|done]. }
      destruct stop; [by apply wp_ret|].
      apply wp_bind. eapply wp_mono; [by apply spec_demangleFuncSpecParam|]. intros r s3 Hr.
      apply wp_ret. cbn [fst]. split; [by eapply reading_add|].
      destruct r as [r|]; cbn; [|lia]. destruct Hr as (Hs3 & Hf3 & _ & Hr).
      destruct (Hr r eq_refl) as [_ Hp3]. unfold rest. arith.
    + apply wp_bind, wp_ret, wp_ret. done.
Qed.

(** What adding the payloads does to one child. *)
Definition payloadAdded (c c' : Node) : Prop :=
  c' = c /\ getKind c <> K_FunctionSignatureSpecializationParam
  \/ freshParam c /\ wf_child K_FunctionSignatureSpecialization c'
     /\ getKind c' = K_FunctionSignatureSpecializationParam.

#[export] Instance spec_popPayloadTypes_loop ParamKind Param :
  Spec (while_ (popPayloadTypes_step ParamKind) Param) (fun s r s' => inv s' /\ frame s s' /\ Pos s' = Pos s
    /\ forall n, r = Some n -> exists types, n = mkNode (getKind Param) (payload Param) (children Param ++ types)
        /\ Forall wf types /\ Forall (fun c => getKind c = K_Type) types
        /\ (types = [] \/ ParamKind = ClosureProp)).
Proof.
  intros s Hs. apply wp_while with
    (I := fun n s1 => inv s1 /\ frame s s1 /\ Pos s1 = Pos s
       /\ exists types, n = mkNode (getKind Param) (payload Param) (children Param ++ types)
        /\ Forall wf types /\ Forall (fun c => getKind c = K_Type) types
        /\ (types = [] \/ ParamKind = ClosureProp))
    (f := fun _ s1 => length (NodeStack s1)).
  - split_and!; [done|apply frame_refl|done|]. exists []. rewrite app_nil_r.
    split; [by destruct Param|split_and!; [apply Forall_nil_2..|by left]].
  - lia.
  - intros n s1 (Hs1 & Hf1 & Hp1 & types & -> & Hw & Hk & Hc). unfold popPayloadTypes_step. run.
    + split_and!; [done|solve_frame|arith|done].
    + split; [|arith]. split_and!; [done|solve_frame|arith|].
      exists (types ++ [mkNode K_Type NoPayload [child]]). split_and!.
      * unfold nodeAddChild. cbn [getKind payload children]. by rewrite app_assoc.
      * apply Forall_app_2; [done|]. constructor; [|constructor]. solve_wf.
      * apply Forall_app_2; [done|by repeat constructor].
      * by right.
    + split_and!; [done|solve_frame|arith|]. intros ? [= <-]. by exists types.
Qed.

Lemma wp_addParamPayload i k pays s (Q : NodePointer -> Demangler -> Prop) :
  let Param := mkNode K_FunctionSignatureSpecializationParam (IndexPayload (wrap_u64 i)) (paramKindNode k :: pays) in
  inv s -> freshParts k pays ->
  (forall r s', inv s' -> frame s s' -> Pos s' = Pos s ->
     (forall n, r = Some n -> payloadAdded Param n) -> Q r s') ->
  wp parse_crash (addParamPayload k Param) Q s.
Proof.
  intros Param Hs HP HQ. unfold addParamPayload. fold (needsPayload k).
  assert (freshParam Param) as Hfresh by (exists i; right; by eexists _, _).
  destruct (needsPayload k) eqn:Hn.
  2: { apply wp_ret, HQ; [done|apply frame_refl|done|]. intros n [= <-]. right.
       split_and!; [done|left; by apply wf_freshParts|done]. }
  cbv zeta. run; try (apply HQ; [assumption|solve_frame|arith|done]).
  match goal with |- context [paramPayloadNode ?t] => generalize t end. intros t.
  unfold nodeAddChild, Param. cbn [getKind payload children].
  match goal with |- context [paramKindNode k :: pays ++ ?x] =>
    change (paramKindNode k :: pays ++ x) with ((paramKindNode k :: pays) ++ x) end.
  change (S (length pays)) with (length (paramKindNode k :: pays)). set (pre := paramKindNode k :: pays).
  apply wp_reverseChildren; unfold getNumChildren; cbn [getKind payload children];
    [rewrite !length_app; lia|].
  rewrite <-app_assoc, take_app_length, drop_app_length, reverse_snoc.
  apply wp_ret, HQ; [assumption|solve_frame|arith|]. intros ? [= <-].
  right. subst pre. split_and!; [done|left|done]. cbn [getKind payload children app].
  match goal with H : Forall wf ?l |- _ => rename l into types end.
  replace (pays ++ paramPayloadNode t :: reverse types)
    with ((pays ++ [paramPayloadNode t]) ++ reverse types) by (by rewrite <-app_assoc).
  apply wf_specParam; [|by apply Forall_reverse..|].
  - apply Forall_app_2; [by eapply freshParts_payload|]. repeat constructor. by eexists.
  - apply freshParts_add; [done|done|by apply Forall_reverse|].
    match goal with H : types = [] \/ _ |- _ => destruct H as [->| ->] end; [by left|by right].
Qed.

(** The children below position [n] still wait for their payload. *)
Lemma wp_addParamPayloads n k p pre post s (Q : NodePointer -> Demangler -> Prop) :
  inv s -> length pre = n ->
  Forall (fun c => getKind c <> K_FunctionSignatureSpecializationParam \/ freshParam c) pre ->
  (forall s', inv s' -> frame s s' -> Pos s' = Pos s -> Q None s') ->
  (forall pre' s', inv s' -> frame s s' -> Pos s' = Pos s -> Forall2 payloadAdded pre pre' ->
     Q (Some (mkNode k p (pre' ++ post))) s') ->
  wp parse_crash (addParamPayloads n (mkNode k p (pre ++ post))) Q s.
Proof.
  revert pre post s Q. induction n as [|n IH]; intros pre post s Q Hs Hn Hpre HN HQ; cbn [addParamPayloads].
  { destruct pre; [|done]. apply wp_ret, (HQ []); [done|apply frame_refl|done|constructor]. }
  destruct (List.exists_last (l := pre)) as (pre' & c & ->); [by intros ->|].
  rename pre' into pre. rewrite length_app in Hn. cbn in Hn.
  apply Forall_app in Hpre as [Hpre Hlast]. inversion_clear Hlast as [|? ? Hc _].
  assert (n = length pre) as -> by lia. clear Hn.
  rewrite <-app_assoc. cbn [app].
  apply wp_bind. eapply wp_getChild; [apply list_lookup_middle; reflexivity|].
  assert (forall s' c', inv s' -> frame s s' -> Pos s' = Pos s -> payloadAdded c c' ->
    wp parse_crash (addParamPayloads (length pre) (mkNode k p (pre ++ c' :: post))) Q s') as Hnext.
  { intros s1 c' ? ? ? Hc'. apply IH; [done|done|done| |].
    - intros s2 ? ? ?. apply HN; [done|by eapply frame_trans|congruence].
    - intros pre' s2 ? ? ? Hpre'. 
      replace (pre' ++ c' :: post) with ((pre' ++ [c']) ++ post) by (by rewrite <-app_assoc).
      apply HQ; [done|by eapply frame_trans|congruence|].
      by apply Forall2_app; [|constructor]. }
  destruct Hc as [Hc|Hc].
  { assert (Kind_eqb (getKind c) K_FunctionSignatureSpecializationParam = false) as ->
      by (by apply not_true_iff_false; rewrite Kind_eqb_eq).
    apply Hnext; [done|apply frame_refl|done|by left]. }
  pose proof Hc as [i [->|(kd & pays & -> & Hparts)]].
  { apply Hnext; [done|apply frame_refl|done|right; split_and!; [done|by right|done]]. }
  apply wp_bind, wp_getFirstChild, wp_bind, wp_assert; [done|].
  apply wp_bind, wp_getIndex, wp_bind. rewrite (freshParts_kind _ _ Hparts). apply wp_addParamPayload; [done..|].
  intros r s1 Hs1 Hf1 Hp1 Hr. destruct r as [c'|]; [|by apply wp_ret, HN].
  unfold setChild. cbn [getKind payload children].
  rewrite insert_app_r_alt, Nat.sub_diag by lia. cbn [insert list_insert].
  apply Hnext; auto.
Qed.

Lemma addParamPayloads_wf spec0 params cs :
  specAttributes K_FunctionSignatureSpecialization true spec0 -> Forall freshParam params ->
  Forall2 payloadAdded (children spec0 ++ params) cs ->
  wf (mkNode (getKind spec0) (payload spec0) cs).
Proof.
  intros Hspec Hparams Hcs. apply Forall2_app_inv_l in Hcs as (attrs & params' & Hattrs & Hparams' & ->).
  assert (attrs = children spec0) as ->.
  { destruct Hspec as (p & fr & pass & -> & _ & Hfr & _ & Hpass). cbn [children] in *.
    assert (forall c c', payloadAdded c c' -> getKind c <> K_FunctionSignatureSpecializationParam -> c' = c) as Hsame.
    { intros c c' [[-> _]|[Hc _]] Hk; [done|]. by apply freshParam_kind in Hc. }
    destruct Hfr as [->| ->]; cbn [app] in *.
    - inversion_clear Hattrs as [|? ? ? ? H1 H2]. inversion_clear H2.
      f_equal. apply Hsame; [done|by rewrite Hpass].
    - inversion_clear Hattrs as [|? ? ? ? H1 H2]. inversion_clear H2 as [|? ? ? ? H3 H4]. inversion_clear H4.
      f_equal; [by apply Hsame|f_equal; apply Hsame; [done|by rewrite Hpass]]. }
  assert (Forall (fun c => wf_child K_FunctionSignatureSpecialization c
                       /\ getKind c = K_FunctionSignatureSpecializationParam) params') as Hw.
  { clear -Hparams Hparams'. induction Hparams' as [|c c' l l' Hc _ IH]; [constructor|].
    inversion_clear Hparams as [|? ? Hf Hl]. constructor; [|by apply IH].
    destruct Hc as [[-> Hc]|(_ & ? & ?)]; [by apply freshParam_kind in Hf|done]. }
  assert (getKind spec0 = K_FunctionSignatureSpecialization) as -> by (by destruct Hspec as (? & ? & ? & -> & _)).
  apply (wf_specialization _ _ _ _ [Many (ofKind K_FunctionSignatureSpecializationParam)] Hspec); try done.
  - eapply Forall_impl; [|exact Hw]. by intros ? [? _].
  - intros fr pass Hfr Hpass. apply matches_specialization; [done..|].
    eapply Forall_impl; [|exact Hw]. intros ? [_ ?]. by apply ofKind_true.
Qed.

#[export] Instance spec_demangleFunctionSpecialization :
  Spec demangleFunctionSpecialization (handled (fun _ => True)).
Proof.
  intros s Hs. unfold demangleFunctionSpecialization.
  apply wp_bind. eapply wp_mono; [by apply spec_demangleSpecAttributes|].
  intros o s1 (Hs1 & Hf1 & Hst1 & Ho).
  apply wp_bind. eapply wp_mono; [apply (wp_funcSpecParams_loop _ _ s)|].
  { split_and!; [done..|]. intros n ->. destruct (Ho n eq_refl) as [Hn ?].
    split; [lia|]. exists n, []. split_and!; [|done|constructor].
    unfold withParams. rewrite app_nil_r. by destruct n. }
  { destruct o as [n|]; [|done]. intros _. destruct (Ho n eq_refl). lia. }
  intros o2 s2 Ho2. pose proof (proj1 Ho2) as Hs2.
  apply wp_bind. eapply wp_mono; [apply spec_nextIf; [reflexivity|done]|].
  intros stop s3 [[Hs3 Hf3 Hp3 Hst3] _]. cbv beta.
  assert (reading s o2 s3) as Ho3.
  { destruct Ho2 as (? & ? & ? & Ho2). split_and!; [done|solve_frame|congruence|].
    intros x Hx. destruct (Ho2 x Hx) as (? & ?). split; [lia|done]. }
  apply wp_bind. eapply wp_mono with (Q := reading s).
  { destruct stop; [by apply wp_ret|]. apply wp_bind.
    eapply wp_mono; [by apply spec_demangleFuncSpecParam|].
    intros r s4 Hr. apply wp_ret. by eapply reading_add. }
  intros o4 s4 (Hs4 & Hf4 & Hst4 & Ho4). destruct o4 as [n|]; [|apply wp_ret; finish].
  destruct (Ho4 n eq_refl) as (Hp4 & spec0 & params & -> & Hspec & Hparams).
  unfold withParams, getNumChildren. cbn [children].
  rewrite <-(app_nil_r (children spec0 ++ params)) at 2.
  apply wp_addParamPayloads; [done|done| | |].
  - apply Forall_app_2.
    + destruct Hspec as (p & fr & pass & -> & _ & Hfr & _ & Hpass). cbn [children].
      destruct Hfr as [->| ->]; cbn [app]; repeat apply Forall_cons_2; try apply Forall_nil_2;
        left; (done || by rewrite Hpass).
    + eapply Forall_impl; [|exact Hparams]. auto.
  - intros s5 ? ? ?. split; [done|solve_frame|done].
  - intros cs s5 ? ? ? Hcs. rewrite app_nil_r. split; [done|solve_frame|].
    intros ? [= <-]. split_and!; [by eapply addParamPayloads_wf|done|arith].
Qed.

(** ** Key path thunks *)

Definition areTypes (ts : list Node) : Prop := Forall wf ts /\ Forall (fun c => getKind c = K_Type) ts.

Lemma areTypes_app ts ts' : areTypes ts -> areTypes ts' -> areTypes (ts ++ ts').
Proof. intros [] []. split; by apply Forall_app_2. Qed.

Lemma areTypes_one t : wf t -> getKind t = K_Type -> areTypes [t].
Proof. by repeat constructor. Qed.

Lemma areTypes_reverse ts : areTypes ts -> areTypes (reverse ts).
Proof. intros []. split; by apply Forall_reverse. Qed.

#[export] Instance spec_keyPathTypes_loop n :
  TCNoBackTrack (wf n /\ getKind n = K_Type) ->
  Spec (while_ keyPathTypes_step ([], n)) (fun s r s' => inv s' /\ frame s s' /\ Pos s' = Pos s
    /\ areTypes r.1 /\ r.1 <> [] /\ forall x, r.2 = Some x -> wf x /\ getKind x <> K_Type).
Proof.
  intros [[Hw Hk]] s Hs. apply wp_while with
    (I := fun st s1 => inv s1 /\ frame s s1 /\ Pos s1 = Pos s /\ areTypes st.1
       /\ wf st.2 /\ getKind st.2 = K_Type)
    (f := fun _ s1 => length (NodeStack s1)).
  - split_and!; try done; apply frame_refl.
  - lia.
  - intros [ts t] s1 (Hs1 & Hf1 & Hp1 & Hts & Hwt & Hkt). cbn [fst snd] in *.
    assert (areTypes (ts ++ [t])) by (apply areTypes_app; [done|by apply areTypes_one]).
    assert (ts ++ [t] <> []) by (by destruct ts).
    unfold keyPathTypes_step. apply wp_bind. eapply wp_mono; [by apply spec_popNode|].
    intros o s2 [Hs2 Hf2 Hp2 Ho]. destruct o as [x|]; [destruct (Ho x eq_refl) as (Hwx & _ & Hlen)|].
    + destruct (Kind_eqb (getKind x) K_Type) eqn:Ek; apply wp_ret; cbn [fst snd].
      * apply Kind_eqb_eq in Ek. split; [|done]. split_and!; try done; try solve_frame; arith.
      * apply Kind_eqb_false in Ek. split_and!; try done; try solve_frame; try arith. by intros ? [= <-].
    + apply wp_ret; cbn [fst snd]. split_and!; try done; try solve_frame; arith.
Qed.

#[export] Instance spec_keyPathIndexTypes_loop ts :
  TCNoBackTrack (areTypes ts) ->
  Spec (while_ keyPathIndexTypes_step ts) (fun s r s' => inv s' /\ frame s s' /\ Pos s' = Pos s
    /\ areTypes (default [] r) /\ (ts <> [] -> r <> Some [])).
Proof.
  intros [Hts] s Hs. apply wp_while with
    (I := fun ts' s1 => inv s1 /\ frame s s1 /\ Pos s1 = Pos s /\ areTypes ts' /\ (ts <> [] -> ts' <> []))
    (f := fun _ s1 => length (NodeStack s1)).
  - split_and!; try done; apply frame_refl.
  - lia.
  - intros ts' s1 (Hs1 & Hf1 & Hp1 & Hts' & Hne). unfold keyPathIndexTypes_step.
    apply wp_bind. eapply wp_mono; [by apply spec_popNode|].
    intros o s2 [Hs2 Hf2 Hp2 Ho]. destruct o as [x|]; [destruct (Ho x eq_refl) as (Hwx & _ & Hlen)|].
    + destruct (Kind_eqb (getKind x) K_Type) eqn:Ek; apply wp_ret.
      * apply Kind_eqb_eq in Ek. split; [|done].
        split_and!; [done|solve_frame|arith|apply areTypes_app; [done|by apply areTypes_one]|by destruct ts'].
      * split_and!; [done|solve_frame|arith|split; constructor|done].
    + apply wp_ret. split_and!; try done; try solve_frame; try arith. intros H [= ->]. by apply Hne.
Qed.

Definition isKeyPathAccessor (k : Kind) : bool :=
  match k with K_KeyPathGetterThunkHelper | K_KeyPathSetterThunkHelper => true | _ => false end.
Definition isKeyPathIndex (k : Kind) : bool :=
  match k with K_KeyPathEqualsThunkHelper | K_KeyPathHashThunkHelper => true | _ => false end.

(** A signature, if any, before or after the types. *)
Definition sigNodes (sig : list Node) : Prop :=
  sig = [] \/ exists g, sig = [g] /\ wf g /\ getKind g = K_DependentGenericSignature.

Lemma forall_ofKind k l : Forall (fun c => getKind c = k) l -> Forall (fun c => ofKind k c = true) l.
Proof. intros H. eapply Forall_impl; [|exact H]. intros c. apply ofKind_true. Qed.

Lemma forall_not_ofKind k k' l :
  k <> k' -> Forall (fun c => getKind c = k) l -> Forall (fun c => ofKind k' c = false) l.
Proof. intros Hne H. eapply Forall_impl; [|exact H]. intros c <-. by apply ofKind_false. Qed.

Lemma wf_keyPathAccessor k decl sig ts :
  isKeyPathAccessor k = true -> wf decl -> sigNodes sig -> areTypes ts -> ts <> [] ->
  wf (mkNode k NoPayload ([decl] ++ sig ++ ts)).
Proof.
  intros Hk Hw Hsig [Hts Htk] Hne. destruct ts as [|t ts]; [done|]. inversion_clear Htk as [|? ? Ht Htk'].
  apply wf_intro.
  - assert (matches [One anyNode; Opt (ofKind K_DependentGenericSignature); One (ofKind K_Type); Many (ofKind K_Type)]
      ([decl] ++ sig ++ t :: ts) = true) as Hm.
    { replace ([decl] ++ sig ++ t :: ts) with (concat [[decl]; sig; [t]; ts]) by (cbn; by rewrite app_nil_r).
      apply matches_parts. cbn [parts concat]. rewrite !app_nil_r.
      split_and!; eauto; try (by repeat constructor); try (by apply forall_ofKind).
      - destruct Hsig as [->|(g & -> & _)]; eauto.
      - destruct Hsig as [->|(g & -> & _ & Hg)]; repeat constructor. by apply ofKind_true.
      - apply (forall_not_ofKind K_Type); [done|]. by constructor.
      - constructor; [by apply ofKind_true|constructor]. }
    destruct k; try discriminate Hk; unfold shape; cbn [payload_shape deep_shape children_shape andb];
      by rewrite Hm.
  - apply Forall_app_2; [by repeat constructor|]. apply Forall_app_2; [|done].
    destruct Hsig as [->|(g & -> & ? & _)]; by repeat constructor.
Qed.

Lemma wf_keyPathIndex k sig ts :
  isKeyPathIndex k = true -> sigNodes sig -> areTypes ts -> ts ++ sig <> [] ->
  wf (mkNode k NoPayload (ts ++ sig)).
Proof.
  intros Hk Hsig [Hts Htk] Hne. apply wf_intro.
  - assert (matches [Many (ofKind K_Type); Opt (ofKind K_DependentGenericSignature)] (ts ++ sig) = true) as Hm.
    { replace (ts ++ sig) with (concat [ts; sig]) by (cbn; by rewrite app_nil_r).
      apply matches_parts. cbn [parts concat]. rewrite !app_nil_r.
      split_and!; try done; try (by apply forall_ofKind).
      - destruct Hsig as [->|(g & -> & _ & Hg)]; [constructor|].
        apply (forall_not_ofKind K_DependentGenericSignature); [done|]. by repeat constructor.
      - destruct Hsig as [->|(g & -> & _)]; eauto.
      - destruct Hsig as [->|(g & -> & _ & Hg)]; repeat constructor. by apply ofKind_true. }
    destruct k; try discriminate Hk; unfold shape; cbn [payload_shape deep_shape children_shape andb];
      rewrite Hm; by destruct (ts ++ sig).
  - apply Forall_app_2; [done|]. destruct Hsig as [->|(g & -> & ? & _)]; by repeat constructor.
Qed.

Lemma fold_addChildren cs n :
  fold_left nodeAddChild cs n = mkNode (getKind n) (payload n) (children n ++ cs).
Proof.
  revert n. induction cs as [|c cs IH]; intros [k p l]; cbn; [by rewrite app_nil_r|].
  rewrite IH. cbn. by rewrite <-app_assoc.
Qed.

#[export] Instance spec_demangleKeyPathAccessorThunk k :
  TCEq (isKeyPathAccessor k) true ->
  Spec (demangleKeyPathAccessorThunk k) (handled (fun _ => True)).
Proof.
  intros Hk%TCEq_eq s Hs. unfold demangleKeyPathAccessorThunk.
  apply wp_bind. eapply wp_mono; [by apply spec_popNode|].
  intros o s1 [Hs1 Hf1 Hp1 Ho]. destruct o as [n|]; [|apply wp_ret; finish].
  destruct (Ho n eq_refl) as (Hw & _ & _).
  destruct (Kind_eqb (getKind n) K_Type) eqn:Ek; cbn [negb]; [|apply wp_ret; split; [done|solve_frame|done]].
  apply Kind_eqb_eq in Ek. apply wp_bind.
  eapply wp_mono; [apply spec_keyPathTypes_loop; [by split|done]|].
  intros [ts x] s2 (Hs2 & Hf2 & Hp2 & Hts & Hne & Hx). cbn [fst snd] in *.
  destruct x as [x|]; [|apply wp_ret; split; [done|solve_frame|done]].
  destruct (Hx x eq_refl) as [Hwx Hkx].
  assert (forall decl sig s', wf decl -> sigNodes sig -> inv s' -> frame s s' -> Pos s' = Pos s ->
    handled (fun _ => True) s (Some (fold_left nodeAddChild (reverse ts) (mkNode k NoPayload ([decl] ++ sig)))) s')
    as Hdone.
  { intros decl sig s' Hd Hsig ? ? ?. split; [done..|]. intros ? [= <-]. split; [|split; [done|lia]].
    rewrite fold_addChildren.
    change (wf (mkNode k NoPayload (([decl] ++ sig) ++ reverse ts))). rewrite <-app_assoc.
    apply wf_keyPathAccessor; [done..|by apply areTypes_reverse|].
    intros He. apply Hne. by apply (f_equal reverse) in He; rewrite reverse_involutive in He. }
  destruct (Kind_eqb (getKind x) K_DependentGenericSignature) eqn:Es.
  - apply Kind_eqb_eq in Es. apply wp_bind, wp_bind. eapply wp_mono; [by apply spec_popNode|].
    intros decl s3 [Hs3 Hf3 Hp3 Hdecl]. apply wp_ret.
    destruct decl as [decl|]; cbn [createWithChildren2]; [|apply wp_fail, crash_keyPath].
    destruct (Hdecl decl eq_refl) as (Hwd & _). apply wp_ret.
    apply (Hdone decl [x]); [done| |done|solve_frame|arith]. right. eauto.
  - apply wp_bind, wp_ret. cbn [createWithChild]. apply wp_ret.
    apply (Hdone x []); [done|by left|done|solve_frame|arith].
Qed.

#[export] Instance spec_demangleKeyPathIndexThunk k :
  TCEq (isKeyPathIndex k) true ->
  Spec (demangleKeyPathIndexThunk k) (handled (fun _ => True)).
Proof.
  intros Hk%TCEq_eq s Hs. unfold demangleKeyPathIndexThunk.
  apply wp_bind. eapply wp_mono; [by apply spec_popNode|].
  intros o s1 [Hs1 Hf1 Hp1 Ho]. destruct o as [n|]; [|apply wp_ret; finish].
  destruct (Ho n eq_refl) as (Hw & _ & _).
  destruct (negb _ && negb _) eqn:Ek; [apply wp_ret; split; [done|solve_frame|done]|].
  set (isSig := Kind_eqb (getKind n) K_DependentGenericSignature) in *.
  assert (areTypes (if isSig then [] else [n]) /\ sigNodes (if isSig then [n] else [])) as [Hts Hsig].
  { destruct isSig eqn:Es.
    - apply Kind_eqb_eq in Es. split; [split; constructor|right; eauto].
    - cbn in Ek. apply negb_false_iff, Kind_eqb_eq in Ek. split; [by apply areTypes_one|by left]. }
  apply wp_bind. eapply wp_mono; [apply spec_keyPathIndexTypes_loop; [by split|done]|].
  intros r s2 (Hs2 & Hf2 & Hp2 & Hr & Hne). destruct r as [ts|]; [|apply wp_ret; split; [done|solve_frame|done]].
  apply wp_ret. split; [done|solve_frame|]. intros ? [= <-]. split; [|split; [done|arith]].
  rewrite fold_addChildren. unfold nodeAddChild. cbn [getKind payload children createNode app].
  assert (reverse ts ++ (if isSig then [n] else []) <> []) as Hne'.
  { destruct isSig; [by destruct (reverse ts)|]. rewrite app_nil_r. intros He.
    apply (f_equal reverse) in He. rewrite reverse_involutive in He. subst ts. by apply Hne. }
  pose proof (wf_keyPathIndex k _ (reverse ts) Hk Hsig (areTypes_reverse _ Hr) Hne') as Hwk.
  destruct isSig; [exact Hwk|]. by rewrite app_nil_r in Hwk.
Qed.

#[export] Instance spec_demangleThunkOrSpecialization :
  Spec demangleThunkOrSpecialization (handled (fun _ => True)).
Proof.
  unfold demangleThunkOrSpecialization, createWithPoppedType. handler demangleThunkOrSpecialization.
  match goal with H : ?l <> [] -> _ |- _ => assert (l <> []) as Hne by (by intros ->); specialize (H Hne) end.
  finish.
Qed.

(** ** Witnesses *)

#[export] Instance spec_demangleMetatypeRepresentation :
  Spec demangleMetatypeRepresentation (handled (fun n => getKind n = K_MetatypeRepresentation)).
Proof. handler demangleMetatypeRepresentation. Qed.

#[export] Instance spec_demangleWitness :
  Spec demangleWitness (handled (fun _ => True)).
Proof.
  unfold demangleWitness, createWithPoppedType. handler demangleWitness.
Qed.

Definition isBoxField (n : Node) : bool := ofKind K_SILBoxMutableField n || ofKind K_SILBoxImmutableField n.

Lemma wf_InOut n :
  wf n -> getKind n = K_InOut ->
  exists c, n = mkNode K_InOut NoPayload [c] /\ wf c /\ isTypeChild (getKind c) = true.
Proof.
  intros Hw Hk. invert_shape Hw Hk. unfold shape in Hk. cbn -[isTypeChild] in Hk.
  destruct cs as [|c [|]]; try discriminate; [|by rewrite andb_false_r in Hk].
  rewrite andb_true_r, orb_false_r in Hk. inversion Hw. eauto.
Qed.

Lemma wp_addBoxFields tys layout s (Q : Node -> Demangler -> Prop) :
  areTypes tys -> listNode K_SILBoxLayout isBoxField layout ->
  (forall l, listNode K_SILBoxLayout isBoxField l -> Q l s) ->
  wp parse_crash (addBoxFields tys layout) Q s.
Proof.
  intros [Hw Hk]. revert layout. induction Hw as [|ty tys Hwt Hw IH]; intros layout Hl HQ; cbn [addBoxFields].
  { by apply wp_ret, HQ. }
  inversion_clear Hk as [|? ? Hkt Hk']. rewrite Hkt.
  destruct (wf_Type ty Hwt Hkt) as (c & -> & Hwc & Hkc).
  apply wp_bind, wp_assert; [done|]. apply wp_bind. eapply wp_getChild; [reflexivity|]. apply wp_bind.
  destruct (Kind_eqb (getKind c) K_InOut) eqn:Ek.
  - apply Kind_eqb_eq in Ek. destruct (wf_InOut c Hwc Ek) as (inner & -> & Hwi & Hki).
    apply wp_bind. eapply wp_getChild; [reflexivity|]. apply wp_ret.
    apply IH; [done| |done]. apply listNode_add; [done| |done]. unfold nodeAddChild, createNode. cbn. solve_wf.
  - apply wp_ret, IH; [done| |done]. apply listNode_add; [done| |done].
    unfold nodeAddChild, createNode. cbn. solve_wf.
Qed.

#[export] Instance spec_demangleSILBox sig :
  Spec (demangleSILBox sig) (handled (fun n => getKind n = K_Type)).
Proof.
  handler demangleSILBox.
  all: match goal with H : listNode K_TypeList _ ?n |- wp _ (addBoxFields (children ?n) _) _ _ =>
      apply wp_addBoxFields; [|apply listNode_new|];
      [split; [apply (listNode_wf _ _ _ H)|];
       eapply Forall_impl; [|apply (listNode_children _ _ _ H)]; intros c; apply ofKind_true|]
    end;
    intros l Hl;
    assert (wf l) by (eapply listNode_done; [|exact Hl]; by repeat split);
    pose proof (listNode_kind _ _ _ Hl).
  all: repeat match goal with H : listNode K_TypeList _ _ |- _ => apply listNode_kind in H end.
  all: run; finish.
Qed.

#[export] Instance spec_demangleSpecialType :
  Spec demangleSpecialType (handled (fun n => getKind n = K_Type)).
Proof. handler demangleSpecialType. Qed.

(** ** Generic signatures *)

(** A signature under construction: counts, then requirements. *)
Definition signature (counts reqs : list Node) : Node :=
  mkNode K_DependentGenericSignature NoPayload (counts ++ reqs).

Definition areCounts (cs : list Node) : Prop :=
  Forall (fun c => bareChild K_DependentGenericSignature c = true) cs.
Definition areRequirements (rs : list Node) : Prop :=
  Forall wf rs /\ Forall (fun c => isRequirement (getKind c) = true) rs.

Lemma wf_signature counts reqs :
  areCounts counts -> areRequirements reqs -> wf (signature counts reqs).
Proof.
  intros Hc [Hwr Hr]. apply wf_iff. split.
  2: { apply Forall_app_2; [eapply Forall_impl; [|exact Hc]|eapply Forall_impl; [|exact Hwr]]; intros c ?;
       [by right|by left]. }
  unfold shape. cbn [payload_shape deep_shape children_shape andb].
  assert (matches [Many (ofKind K_DependentGenericParamCount); Many (kindIn isRequirement)]
    (concat [counts; reqs]) = true) as Hm.
  { apply matches_parts. cbn [parts concat]. rewrite app_nil_r. split_and!; try done; try apply Forall_nil_2.
    - eapply Forall_impl; [|exact Hc]. by intros [[] ? ?].
    - eapply Forall_impl; [|exact Hr]. intros c. unfold ofKind. by destruct (getKind c). }
  cbn [concat] in Hm. rewrite app_nil_r in Hm. by rewrite Hm.
Qed.

#[export] Instance spec_paramCounts_loop :
  Spec (while_ paramCounts_step (createNode K_DependentGenericSignature)) (fun s r s' =>
    inv s' /\ frame s s' /\ (Pos s <= Pos s')%nat
    /\ forall n, r = Some n -> exists counts, n = signature counts [] /\ areCounts counts).
Proof.
  intros s Hs. apply wp_while with
    (I := fun n s1 => inv s1 /\ frame s s1 /\ (Pos s <= Pos s1)%nat
       /\ exists counts, n = signature counts [] /\ areCounts counts)
    (f := fun _ s1 => rest s1).
  - split_and!; [done|apply frame_refl|done|]. exists []. split; [done|constructor].
  - unfold rest. lia.
  - intros n s1 (Hs1 & Hf1 & Hp1 & counts & -> & Hc). unfold paramCounts_step. run.
    all: try (split_and!; [assumption|solve_frame|arith|]; first [done | intros ? [= <-]; by exists counts]).
    all: try match goal with H : 0 <= wrap_int (?i + 1) |- _ =>
      assert (0 <= i) by
        (destruct (decide (0 <= i)); [done|]; rewrite wrap_int_id in H by lia; lia) end.
    all: split; [|unfold rest; arith].
    all: split_and!; [assumption|solve_frame|arith|].
    all: match goal with |- context [nodeAddChild _ ?c] => exists (counts ++ [c]) end.
    all: unfold signature, nodeAddChild; cbn [getKind payload children]; rewrite !app_nil_r.
    all: split; [done|]; (apply Forall_app_2; [done|by repeat constructor]).
Qed.

#[export] Instance spec_popRequirements_loop Sig :
  Spec (while_ popRequirements_step Sig) (fun s n s' => inv s' /\ frame s s' /\ Pos s' = Pos s
    /\ exists reqs, n = mkNode (getKind Sig) (payload Sig) (children Sig ++ reqs) /\ areRequirements reqs).
Proof.
  intros s Hs. apply wp_while with
    (I := fun n s1 => inv s1 /\ frame s s1 /\ Pos s1 = Pos s
      /\ exists reqs, n = mkNode (getKind Sig) (payload Sig) (children Sig ++ reqs) /\ areRequirements reqs)
    (f := fun _ s1 => length (NodeStack s1)).
  - split_and!; [done|apply frame_refl|done|]. exists []. rewrite app_nil_r.
    split; [by destruct Sig|split; constructor].
  - lia.
  - intros n s1 (Hs1 & Hf1 & Hp1 & reqs & -> & Hw & Hk). unfold popRequirements_step. run.
    + split; [|arith]. split_and!; [done|solve_frame|arith|].
      match goal with |- context [nodeAddChild _ ?c] => exists (reqs ++ [c]) end.
      unfold nodeAddChild. cbn [getKind payload children]. rewrite app_assoc.
      split; [done|split; apply Forall_app_2; try done; by repeat constructor].
    + split_and!; [done|solve_frame|arith|by exists reqs].
Qed.

(** The requirements, in the order of the mangling. *)
Lemma wp_finishSignature counts s0 s :
  inv s -> frame s0 s -> (Pos s0 <= Pos s)%nat -> areCounts counts ->
  wp parse_crash
    (let NumCounts := getNumChildren (signature counts []) in
     Sig <- while_ popRequirements_step (signature counts []) ;;
     Sig <- reverseChildren Sig NumCounts ;;
     ret (Some Sig)) (handled (fun n => getKind n = K_DependentGenericSignature) s0) s.
Proof.
  intros Hs Hf Hp Hc. cbv zeta. apply wp_bind. eapply wp_mono; [by apply spec_popRequirements_loop|].
  intros n s1 (Hs1 & Hf1 & Hp1 & reqs & -> & Hr). apply wp_bind.
  unfold getNumChildren, signature. cbn [getKind payload children]. rewrite app_nil_r.
  apply wp_reverseChildren; unfold getNumChildren; cbn [getKind payload children]; [rewrite length_app; lia|].
  rewrite take_app_length, drop_app_length. apply wp_ret. split; [done|solve_frame|].
  intros ? [= <-]. split; [|split; [done|arith]].
  apply wf_signature; [done|]. destruct Hr. split; by apply Forall_reverse.
Qed.

#[export] Instance spec_demangleGenericSignature hasParamCounts :
  Spec (demangleGenericSignature hasParamCounts) (handled (fun n => getKind n = K_DependentGenericSignature)).
Proof.
  intros s Hs. unfold demangleGenericSignature. cbv zeta. apply wp_bind. destruct hasParamCounts.
  - eapply wp_mono; [by apply spec_paramCounts_loop|].
    intros o s1 (Hs1 & Hf1 & Hp1 & Ho). destruct o as [n|]; [|run; finish].
    destruct (Ho n eq_refl) as (counts & -> & Hc). by apply wp_finishSignature.
  - apply wp_ret.
    apply (wp_finishSignature [createNodeIndex K_DependentGenericParamCount 1]); [done|apply frame_refl|done|].
    by repeat constructor.
Qed.

(** The constraints of a layout requirement. *)
Lemma wp_demangleLayoutConstraint ty s :
  inv s -> (forall n, ty = Some n -> wf n /\ getKind n = K_Type) ->
  wp parse_crash (demangleLayoutConstraint ty)
    (handled (fun n => isRequirement (getKind n) = true /\ exists t, ty = Some t) s) s.
Proof.
  intros Hs Ht. unfold demangleLayoutConstraint.
  destruct ty as [t|]; [destruct (Ht t eq_refl) as [Hw Hk]|clear Ht]; open_nodes; run; finish.
Qed.

(** A generic parameter is read from one character at least. *)
#[export] Instance spec_demangleConstrainedType k :
  Spec (demangleConstrainedType k) (fun s r s' => handled (fun n => getKind n = K_Type) s r s'
    /\ forall n, r = Some n -> (Pos s + match k with Generic => 1 | _ => 0 end <= Pos s')%nat).
Proof.
  intros s Hs. destruct k; unfold demangleConstrainedType; run; (split; [finish|]).
  all: match goal with |- forall n, ?X = Some n -> _ => destruct X eqn:E; [|done] end.
  all: intros ? _; repeat match goal with o : NodePointer |- _ => destruct o; facts end;
    try discriminate; arith.
Qed.

#[export] Instance spec_demangleGenericRequirement :
  Spec demangleGenericRequirement (handled (fun n => isRequirement (getKind n) = true)).
Proof.
  intros s Hs. unfold demangleGenericRequirement. run; try solve [finish].
  all: eapply wp_mono; [apply wp_demangleLayoutConstraint; [assumption|intros ? ->; facts; done]|].
  all: intros r s3 Hr; destruct r as [r|]; facts; finish.
Qed.

#[export] Instance spec_demangleGenericType :
  Spec demangleGenericType (handled (fun n => getKind n = K_Type)).
Proof. handler demangleGenericType. Qed.

Lemma decodeValueWitnessKind_range CodeStr : -1 <= decodeValueWitnessKind CodeStr < 24.
Proof.
  unfold decodeValueWitnessKind. destruct (list_find _ _) as [[i m]|] eqn:H; [|lia].
  apply list_find_Some in H as (Hi & _). apply lookup_lt_Some in Hi. cbn in Hi. lia.
Qed.

#[export] Instance spec_demangleValueWitness :
  Spec demangleValueWitness (handled (fun _ => True)).
Proof.
  handler demangleValueWitness. pose proof (decodeValueWitnessKind_range [a; a0]).
  rewrite wrap_u64_id, andb_true_r by lia. apply andb_true_iff.
  rewrite Z.leb_le, Z.ltb_lt. lia.
Qed.



(** ** Operators *)

(** One operator: on success it has read a character at least, and the stack,
    with the node that is returned, has grown by 2048 nodes for each at most. *)
Definition stepped (s : Demangler) (r : NodePointer) (s' : Demangler) : Prop :=
  inv s' /\ forall n, r = Some n ->
    wf n /\ (Pos s < Pos s')%nat /\ Text s' = Text s
    /\ Z.of_nat (length (NodeStack s')) + 1
       <= Z.of_nat (length (NodeStack s)) + 2048 * (Z.of_nat (Pos s') - Z.of_nat (Pos s)).

Lemma handled_stepped R s c s1 r s' :
  charRead s c s1 -> c <> NUL -> handled R s1 r s' -> stepped s r s'.
Proof.
  intros Hc Hn [Hs' Hf' Hr]. split; [done|]. intros n ->. destruct (Hr n eq_refl) as (? & _ & ?).
  chars. lengths. split_and!; [done|lia|congruence|]. cbn in *. lia.
Qed.

Lemma grown_stepped s c s1 r s' :
  charRead s c s1 -> c <> NUL -> inv s' -> (forall n, r = Some n -> grown s1 s' /\ wf n) -> stepped s r s'.
Proof.
  intros Hc Hn Hs' Hr. split; [done|]. intros n ->. destruct (Hr n eq_refl) as [Hg Hw].
  chars. lengths. split_and!; [done|lia|congruence|cbn in *; lia].
Qed.

Lemma wp_demangleOperator s :
  inv s -> (Pos s < length (Text s))%nat -> wp parse_crash demangleOperator (stepped s) s.
Proof.
  intros Hs Hpos. unfold demangleOperator, demangleOperatorFor, createWithPoppedType. run.
  all: try match goal with
    | H : charRead ?s ?c ?s1 |- stepped ?s ?r ?s' =>
        apply (handled_stepped (fun _ => True) s c s1 r s' H); [discriminate|solve [finish]]
    end.
  - match goal with H : charRead _ _ _ |- _ => eapply (grown_stepped _ _ _ _ _ H); [discriminate|by eapply grown_inv|eauto] end.
  - match goal with H : charRead _ _ _ |- _ =>
      eapply (grown_stepped _ _ _ _ _ H); [discriminate|assumption|assumption] end.
  - unfold wp, consumeAll, ret. chars. lengths.
    split; [apply inv_setPos; [assumption|lia]|]. intros ? [= <-].
    split_and!; [done|cbn; lia|cbn; congruence|cbn in *; lia].
  - chars. split; [assumption|]. intros n ->. facts. lengths.
    split_and!; [done|lia|congruence|cbn in *; lia].
Qed.

(** ** The whole mangling *)

(** The state between two operators, for a text [t]: the stack is bounded by
    the characters read. *)
Definition between (t : str) (s : Demangler) : Prop :=
  inv s /\ Text s = t
  /\ Z.of_nat (length (NodeStack s)) <= 2048 * Z.of_nat (Pos s).

Lemma wp_parseAndPushNodes s (Q : bool -> Demangler -> Prop) :
  between (Text s) s ->
  (forall s', between (Text s) s' -> Pos s' = length (Text s) -> Q true s') ->
  (forall s', inv s' -> Q false s') ->
  wp parse_crash parseAndPushNodes Q s.
Proof.
  intros Hs HQt HQf. generalize dependent (Text s). intros t Hs HQt.
  apply wp_while with (I := fun _ s1 => between t s1) (f := fun _ s1 => rest s1).
  - done.
  - unfold rest. lia.
  - intros [] s1 (Hs1 & Ht1 & Hlen). unfold parseAndPushNodes_step. apply wp_bind, wp_gets.
    rewrite Ht1. destruct (Nat.ltb_spec (Pos s1) (length t)) as [Hp|Hp]; cbn [negb].
    + apply wp_bind. eapply wp_mono; [by apply wp_demangleOperator; rewrite ?Ht1|].
      intros r s' [Hs' Hr]. destruct r as [n|]; [|by apply wp_ret, HQf].
      destruct (Hr n eq_refl) as (Hw & Hp' & Ht' & Hlen'). apply wp_bind, wp_modify, wp_ret.
      split; [|unfold rest; cbn; rewrite Ht', Ht1; lia].
      split_and!; [|cbn; congruence|cbn; lia]. apply inv_setNodeStack; [done|].
      constructor; [done|]. apply Hs'.
    + apply wp_ret, HQt; [done|]. pose proof (inv_pos _ Hs1). rewrite Ht1 in *. lia.
Qed.

(** ** Symbols *)

(** A node of the spine below [Global]: [Global] or a partial apply forwarder. *)
Definition isSpine (k : Kind) : bool :=
  match k with K_Global | K_PartialApplyForwarder | K_PartialApplyObjCForwarder => true | _ => false end.

Record spine (n : Node) : Prop := {
  spine_kind : isSpine (getKind n) = true;
  spine_payload : payload n = NoPayload;
  spine_children : Forall wf (children n)
}.

Lemma spine_wf n : spine n -> wf n.
Proof.
  intros [Hk Hp Hc]. destruct n as [k p cs]. cbn in *. subst p.
  apply wf_intro; [|done]. assert (matches [Many anyNode] cs = true) as Hm.
  { rewrite matches_many. by apply forallb_forall. }
  destruct k; try discriminate Hk; unfold shape; cbn [payload_shape deep_shape children_shape andb];
    by rewrite Hm.
Qed.

Lemma wf_spine n : wf n -> isSpine (getKind n) = true -> spine n.
Proof.
  destruct n as [k p cs]. intros Hw Hk. cbn in *.
  apply wf_inv in Hw as [Hs Hw]; [|by destruct k]. cbn in *. split; [done| |done].
  destruct k; try discriminate Hk; destruct p; (done || discriminate Hs).
Qed.

Lemma spine_add n c : spine n -> wf c -> spine (nodeAddChild n c).
Proof. intros [] ?. split; cbn; auto using Forall_app_2. Qed.

(** The spine that is open: [outer], whose last child is still to come, and the
    parent being filled. It starts at [Global]. *)
Definition spines (st : list Node * Node) : Prop :=
  Forall spine st.1 /\ spine st.2
  /\ exists n l, st.1 ++ [st.2] = n :: l /\ getKind n = K_Global.

Lemma spines_add outer p c : spines (outer, p) -> wf c -> spines (outer, nodeAddChild p c).
Proof.
  intros (Ho & Hp & n & l & He & Hk) Hw. split_and!; [done|by apply spine_add|]. cbn [fst snd] in *.
  destruct outer as [|o outer]; injection He as -> _; eauto.
Qed.

Lemma spines_push outer p q : spines (outer, p) -> spine q -> spines (outer ++ [p], q).
Proof.
  intros (Ho & Hp & n & l & He & Hk) Hq. cbn [fst snd] in *. split_and!; [|done|].
  - apply Forall_app_2; [done|]. by constructor.
  - cbn [fst snd]. rewrite He. exists n, (l ++ [q]). done.
Qed.

Lemma closeParents_wf outer p :
  spines (outer, p) -> wf (closeParents outer p) /\ getKind (closeParents outer p) = K_Global.
Proof.
  intros (Ho & Hp & n & l & He & Hk). cbn [fst snd] in *. split.
  - apply spine_wf. unfold closeParents. clear He. induction Ho as [|o outer Ho _ IH]; cbn; [done|].
    apply spine_add; [done|]. by apply spine_wf.
  - destruct outer as [|o outer]; cbn in *; by injection He as -> _.
Qed.

Lemma wp_funcAttrs_loop s (Q : list Node * Node -> Demangler -> Prop) :
  inv s -> (forall st s', inv s' -> spines st -> Q st s') ->
  wp parse_crash (while_ funcAttrs_step ([], createNode K_Global)) Q s.
Proof.
  intros Hs HQ. apply wp_while with (I := fun st s1 => inv s1 /\ spines st)
    (f := fun _ s1 => length (NodeStack s1)).
  - split; [done|]. split_and!; [constructor|by repeat constructor|]. by eexists _, _.
  - lia.
  - intros [outer p] s1 [Hs1 Hst]. unfold funcAttrs_step. apply wp_bind.
    eapply wp_mono; [by apply spec_popNodeIf|]. intros o s2 [Hs2 Hf2 Hp2 Ho].
    destruct o as [attr|]; [|by apply wp_ret, HQ]. destruct (Ho attr eq_refl) as (Hw & _ & Hlen).
    destruct (_ || _) eqn:Ek; apply wp_ret; (split; [split; [done|]|done]).
    + apply spines_push; [done|]. apply wf_spine; [done|].
      apply orb_true_iff in Ek as [Ek|Ek]; apply Kind_eqb_eq in Ek; by rewrite Ek.
    + by apply spines_add.
Qed.

Lemma wp_addStackNodes outer Nds p s (Q : Node -> Demangler -> Prop) :
  Forall wf Nds -> spines (outer, p) -> (forall p', spines (outer, p') -> Q p' s) ->
  wp parse_crash (addStackNodes Nds p) Q s.
Proof.
  intros Hw. revert p. induction Hw as [|n Nds Hn Hw IH]; intros p Hp HQ; cbn [addStackNodes].
  { by apply wp_ret, HQ. }
  destruct (Kind_eqb (getKind n) K_Type) eqn:Ek.
  - apply Kind_eqb_eq in Ek. destruct (wf_Type n Hn Ek) as (c & -> & Hc & _).
    apply wp_bind, wp_getFirstChild, IH; [|done]. by apply spines_add.
  - apply IH; [|done]. by apply spines_add.
Qed.

(** What a symbol demangles to. *)
Definition symbolTree (r : NodePointer) : Prop :=
  forall n, r = Some n -> wf n /\ getKind n = K_Global /\ getNumChildren n <> 0%nat.

Lemma startswith_length s t : startswith s t = true -> (length t <= length s)%nat.
Proof.
  unfold startswith. unfold str_eqb. intros H%bool_decide_eq_true. apply (f_equal length) in H.
  rewrite length_take in H. lia.
Qed.

Lemma wp_demangleObjCTypeName s :
  inv s -> wp parse_crash demangleObjCTypeName (fun r _ => symbolTree r) s.
Proof.
  intros Hs. unfold demangleObjCTypeName. run; unfold symbolTree; try done;
    unfold createWithChild, changeKind, nodeAddChild, createNode, createNodeText in *; cbn in *; facts.
  all: try match goal with H : match ?o with Some _ => _ | None => _ end = Some ?n |- _ =>
         is_var o; destruct o; facts; open_nodes; cbn in *; facts end.
  all: intros ? [= <-]; (split_and!; [solve_wf|done|done]).
Qed.

(** The crashes that demangling a symbol can end in. *)
Inductive symbol_crash : crash -> Prop :=
  | crash_parse c : parse_crash c -> symbol_crash c
  | crash_prefix : symbol_crash (OutOfRange "getManglingPrefixLength").

Lemma wp_crash_mono {S A} (E E' : crash -> Prop) (m : M S A) (Q : A -> S -> Prop) s :
  (forall c, E c -> E' c) -> wp E m Q s -> wp E' m Q s.
Proof. intros HE. unfold wp. destruct (m s) as [[? ?]|c]; auto. Qed.

Lemma wp_getManglingPrefixLength {S} name (s : S) (Q : nat -> S -> Prop) :
  (forall n, (n <= length name)%nat -> Q n s) -> wp symbol_crash (getManglingPrefixLength name) Q s.
Proof.
  intros HQ. unfold getManglingPrefixLength.
  destruct (length name =? 0)%nat; [apply wp_ret, HQ; lia|].
  destruct (startswith name (lit "_T0")) eqn:Hst.
  { apply wp_ret, HQ. apply (startswith_length name (lit "_T0")). done. }
  assert (forall i (k : ascii -> M S nat), (forall c, (i < length name)%nat -> wp symbol_crash (k c) Q s) ->
    wp symbol_crash (c <- charAt "getManglingPrefixLength" name i ;; k c) Q s) as Hchar.
  { intros i k Hk. apply wp_bind. unfold charAt. destruct (name !! i) as [c|] eqn:E.
    - apply wp_ret, Hk. by apply lookup_lt_Some in E.
    - apply wp_fail, crash_prefix. }
  apply Hchar. intros c _. cbv zeta. set (Offset := if Ascii.eqb c "_" then 1%nat else 0%nat).
  destruct (_ <? _)%nat; [apply wp_ret, HQ; lia|]. apply Hchar. intros c1 _.
  destruct (negb _); [apply wp_ret, HQ; lia|]. apply Hchar. intros c2 Hlen.
  destruct (Ascii.eqb c2 "S"); apply wp_ret, HQ; lia.
Qed.

Lemma wp_demangleSymbol MangledName s :
  wp symbol_crash (demangleSymbol MangledName) (fun r _ => symbolTree r) s.
Proof.
  unfold demangleSymbol. apply wp_bind, wp_modify, wp_bind.
  set (s0 := init MangledName s).
  destruct (decide (MangledName = [])) as [->|Hne]; [by apply wp_ret|].
  assert (0 < length MangledName)%nat as Hlen by (destruct MangledName; [done|cbn; lia]).
  assert (inv s0) as Hs0 by (split; cbn; try constructor; lia).
  unfold wp at 1, nextIfStr. destruct (startswith _ _) eqn:Hst.
  - cbn [Pos s0 init] in *. apply (wp_crash_mono parse_crash); [apply crash_parse|].
    apply wp_demangleObjCTypeName, inv_setPos; [done|].
    apply startswith_length in Hst. rewrite length_drop in Hst. cbn in *. lia.
  - apply wp_bind, wp_getManglingPrefixLength. intros n Hn.
    destruct (n =? 0)%nat; [by apply wp_ret|].
    apply wp_bind, wp_modify, wp_bind, wp_modify.
    apply (wp_crash_mono parse_crash); [apply crash_parse|]. apply wp_bind.
    set (s1 := setPos _ _).
    assert (between MangledName s1) as Hs1.
    { split_and!; [|done|cbn; lia]. destruct Hs0. by split; cbn in *; try lia. }
    apply wp_parseAndPushNodes; [done| |by intros; apply wp_ret].
    intros s2 [Hs2 _] _. cbn [negb]. apply wp_bind, wp_funcAttrs_loop; [done|].
    intros [outer p] s3 Hs3 Hst3. apply wp_bind, wp_gets, wp_bind.
    apply (wp_addStackNodes outer); [apply Forall_reverse, Hs3|done|].
    intros p' Hp'. destruct (closeParents_wf _ _ Hp') as [Hw Hk].
    destruct (_ =? 0)%nat eqn:En; apply wp_ret; [done|].
    intros ? [= <-]. split_and!; [done|done|by apply Nat.eqb_neq].
Qed.

Lemma wp_demangleType MangledName s :
  wp parse_crash (demangleType MangledName) (fun r _ => exists n, r = Some n /\ wf n) s.
Proof.
  unfold demangleType. apply wp_bind, wp_modify, wp_bind. set (s0 := init MangledName s).
  destruct (decide (MangledName = [])) as [->|Hne].
  { eexists. by split. }
  assert (0 < length MangledName)%nat as Hlen by (destruct MangledName; [done|cbn; lia]).
  assert (inv s0) as Hs0 by (split; cbn; try constructor; lia).
  assert (forall s', inv s' -> wp parse_crash
    (Result <- popNode ;;
     match Result with
     | Some r => ret (Some r)
     | None => ret (Some (createNodeText K_Suffix MangledName))
     end) (fun r _ => exists n, r = Some n /\ wf n) s') as Hpop.
  { intros s' Hs'. apply wp_bind. eapply wp_mono; [by apply spec_popNode|].
    intros o s2 [_ _ _ Ho]. destruct o as [n|]; apply wp_ret; [|by eexists].
    destruct (Ho n eq_refl) as (Hw & _). eauto. }
  apply wp_parseAndPushNodes; [|intros s' [Hs' _] _; by apply Hpop|by intros; apply Hpop].
  split_and!; [done|done|cbn; lia].
Qed.
