(* ===== verification/Numbers.v ===== *)
(** * Decimal numbers: what is printed is read back

    Lemmas on [decimal] (the printing of numbers by [DemanglerPrinter]) and on
    [demangleNatural] and [demangleIndex], and the vocabulary for running the
    demangler on an input whose next characters are known. *)

From Stdlib Require Import String.
From S2P Require Import Prelude Nodes ManglingUtils Punycode IdentifierMangling Demangler.

(** ** Numerals *)

Definition digitValue (c : ascii) : Z := ord c - ord "0".

(** The value of a numeral read after the digits of [num]. *)
Definition numeral (num : Z) (ds : str) : Z :=
  fold_left (fun num c => 10 * num + digitValue c) ds num.

Definition digits (ds : str) : Prop := Forall (fun c => isDigit c = true) ds.

Lemma isDigit_spec c : isDigit c = true <-> 48 <= ord c <= 57.
Proof. unfold isDigit, inRange. cbn [ord]. rewrite andb_true_iff, !Z.leb_le. done. Qed.

Lemma digit_chr d : 0 <= d < 10 -> isDigit (chr (ord "0" + d)) = true /\ digitValue (chr (ord "0" + d)) = d.
Proof.
  intros H. change (ord "0") with 48. rewrite isDigit_spec. unfold digitValue.
  rewrite ord_chr by lia. change (ord "0") with 48. lia.
Qed.

Lemma numeral_app num ds ds' : numeral num (ds ++ ds') = numeral (numeral num ds) ds'.
Proof. apply fold_left_app. Qed.

Lemma digitValue_range c : isDigit c = true -> 0 <= digitValue c < 10.
Proof. rewrite isDigit_spec. unfold digitValue. change (ord "0") with 48. lia. Qed.

Lemma numeral_ge num ds : 0 <= num -> digits ds -> num <= numeral num ds.
Proof.
  intros H Hd. revert num H. induction Hd as [|c ds Hc Hd IH]; intros num H; cbn; [lia|].
  apply digitValue_range in Hc. specialize (IH (10 * num + digitValue c)). unfold numeral in IH. lia.
Qed.

Lemma decimal_digits_spec fuel n acc :
  0 <= n < 2 ^ Z.of_nat (S fuel) ->
  exists c ds, decimal_digits (S fuel) n acc = c :: ds ++ acc
    /\ digits (c :: ds) /\ numeral 0 (c :: ds) = n /\ (0 < n -> c <> "0"%char).
Proof.
  revert n acc. induction fuel as [|fuel IH]; intros n acc Hn.
  - assert (n = 0 \/ n = 1) as Hn01 by lia.
    exists (chr (ord "0" + n)), []. unfold digits. destruct Hn01 as [-> | ->]; vm_compute decimal_digits;
      (split_and!; [done| |done|done]); by repeat constructor.
  - remember (S fuel) as f eqn:Ef. cbn [decimal_digits].
    destruct (digit_chr (n mod 10)) as [Hd Hv]; [by apply Z.mod_pos_bound|].
    pose proof (Z.div_mod n 10) as Hdm. destruct (Z.ltb_spec n 10) as [Hlt|Hge].
    + exists (chr (ord "0" + n mod 10)), []. split_and!; [done|by repeat constructor| |].
      * unfold numeral. cbn [fold_left]. rewrite Hv, Z.mod_small; lia.
      * intros Hpos Hc. apply (f_equal digitValue) in Hc. rewrite Hv, Z.mod_small in Hc by lia.
        vm_compute in Hc. lia.
    + subst f. destruct (IH (n / 10) (chr (ord "0" + n mod 10) :: acc)) as (c & ds & He & Hds & Hnum & Hc).
      { rewrite Nat2Z.inj_succ, Z.pow_succ_r in Hn by lia. split; [apply Z.div_pos; lia|].
        apply Z.div_lt_upper_bound; lia. }
      exists c, (ds ++ [chr (ord "0" + n mod 10)]). rewrite He. split_and!.
      * by rewrite <-app_assoc.
      * apply (Forall_app_2 _ (c :: ds)); [done|by repeat constructor].
      * rewrite app_comm_cons, numeral_app, Hnum. unfold numeral. cbn [fold_left]. rewrite Hv. lia.
      * intros _. apply Hc. apply Z.div_str_pos. lia.
Qed.

(** A number is printed as a nonempty numeral for it, without leading zeros. *)
Lemma decimal_spec n :
  0 <= n -> exists c ds, decimal n = c :: ds /\ digits (c :: ds) /\ numeral 0 (c :: ds) = n
    /\ (0 < n -> c <> "0"%char).
Proof.
  intros Hn. unfold decimal.
  destruct (decimal_digits_spec (Z.to_nat (Z.log2 n)) n []) as (c & ds & He & H).
  { rewrite Nat2Z.inj_succ, Z2Nat.id by apply Z.log2_nonneg. split; [done|].
    destruct (decide (n = 0)) as [->|]; [done|]. apply Z.log2_spec. lia. }
  exists c, ds. by rewrite He, app_nil_r.
Qed.

(** ** Running the demangler *)

(** The input that is left. *)
Definition left (s : Demangler) : str := drop (Pos s) (Text s).

Definition advance (n : nat) (s : Demangler) : Demangler := setPos (Pos s + n) s.

Lemma left_advance n s : left (advance n s) = drop n (left s).
Proof. unfold left, advance. cbn. by rewrite drop_drop. Qed.

Lemma advance_advance m n s : advance n (advance m s) = advance (m + n) s.
Proof. unfold advance, setPos. cbn. by rewrite Nat.add_assoc. Qed.

Lemma advance_0 s : advance 0 s = s.
Proof. unfold advance, setPos. rewrite Nat.add_0_r. by destruct s. Qed.

Lemma lookup_left s : Text s !! Pos s = head (left s).
Proof. unfold left. rewrite head_lookup, lookup_drop. by rewrite Nat.add_0_r. Qed.

Lemma peekChar_left s : peekChar s = Ok (default NUL (head (left s)), s).
Proof. unfold peekChar, gets. by rewrite lookup_left. Qed.

Lemma nextChar_left s c rest : left s = c :: rest -> nextChar s = Ok (c, advance 1 s).
Proof. intros H. unfold nextChar. by rewrite lookup_left, H. Qed.

Lemma nextIf_left s c rest : left s = c :: rest -> nextIf c s = Ok (true, advance 1 s).
Proof.
  intros H. unfold nextIf. rewrite (bind_ok _ _ _ _ _ (peekChar_left s)), H. cbn.
  by rewrite Ascii.eqb_refl.
Qed.

Lemma nextIf_other s c : head (left s) <> Some c -> c <> NUL -> nextIf c s = Ok (false, s).
Proof.
  intros H Hc. unfold nextIf. rewrite (bind_ok _ _ _ _ _ (peekChar_left s)).
  destruct (Ascii.eqb_spec (default NUL (head (left s))) c) as [He|]; [|done].
  destruct (head (left s)); cbn in He; congruence.
Qed.

Lemma length_left s : (length (left s) <= length (Text s))%nat.
Proof. unfold left. rewrite length_drop. lia. Qed.

(** ** Reading a numeral *)

Definition startsWithDigit (t : str) : bool := isDigit (default NUL (head t)).

Lemma demangleNatural_loop ds rest fuel num s :
  left s = ds ++ rest -> digits ds -> startsWithDigit rest = false ->
  0 <= num -> numeral num ds < 2 ^ 31 -> (length ds < fuel)%nat ->
  loop fuel demangleNatural_step num s = Ok (numeral num ds, advance (length ds) s).
Proof.
  intros Hl Hd Hr. revert num fuel s Hl. induction Hd as [|c ds Hc Hd IH]; intros num fuel s Hl Hn Hlt Hf;
    (destruct fuel as [|fuel]; [cbn in Hf; lia|]); cbn [loop]; unfold bind at 1, demangleNatural_step at 1;
    rewrite (bind_ok _ _ _ _ _ (peekChar_left s)), Hl.
  - cbn [app]. unfold startsWithDigit in Hr. rewrite Hr. cbn. by rewrite advance_0.
  - cbn [app head default negb length]. unfold id. rewrite Hc. cbn [negb]. fold (digitValue c).
    pose proof (digitValue_range c Hc). pose proof (numeral_ge (10 * num + digitValue c) ds) as Hge.
    cbn [numeral fold_left] in Hlt. fold (numeral (10 * num + digitValue c) ds) in Hlt.
    rewrite (wrap_int_id (10 * num)), (wrap_int_id (10 * num + digitValue c)) by (specialize (Hge ltac:(lia) Hd); lia).
    destruct (Z.ltb_spec (10 * num + digitValue c) num) as [|_]; [lia|].
    rewrite (bind_ok _ _ _ _ _ (nextChar_left _ _ _ Hl)). cbn [ret].
    rewrite IH; [by rewrite advance_advance|rewrite left_advance, Hl; done|lia|done|cbn in Hf; lia].
Qed.

Lemma demangleNatural_numeral ds rest s :
  left s = ds ++ rest -> ds <> [] -> digits ds -> startsWithDigit rest = false ->
  numeral 0 ds < 2 ^ 31 ->
  demangleNatural s = Ok (numeral 0 ds, advance (length ds) s).
Proof.
  intros Hl Hne Hd Hr Hlt. unfold demangleNatural. rewrite (bind_ok _ _ _ _ _ (peekChar_left s)), Hl.
  destruct ds as [|c ds]; [done|]. cbn [app head default]. unfold id.
  assert (isDigit c = true) as -> by (by inversion_clear Hd). cbn [negb].
  unfold while_. apply (demangleNatural_loop _ rest); [done..|lia|done|].
  pose proof (length_left s) as H. rewrite Hl, length_app in H. unfold loop_fuel. lia.
Qed.

(** [demangleNatural] reads back a number that [Buffer << n] has written. *)
Lemma demangleNatural_decimal n rest s :
  left s = decimal n ++ rest -> 0 <= n < 2 ^ 31 -> startsWithDigit rest = false ->
  demangleNatural s = Ok (n, advance (length (decimal n)) s).
Proof.
  intros Hl Hn Hr. destruct (decimal_spec n) as (c & ds & He & Hd & Hv & _); [lia|].
  rewrite He in *. pose proof (demangleNatural_numeral (c :: ds) rest s Hl) as H. rewrite Hv in H.
  apply H; [done..|lia].
Qed.
