(* ===== verification/DemanglerTheorems.v ===== *)
(** * The demangler: theorems

    Safety and termination of the entry points on every string, the bound on
    the node stack, the independence of a symbol's result from what the
    demangler was used for before, and the inverses of the small encodings. *)

From Stdlib Require Import String.
From S2P Require Import Prelude Nodes ManglingUtils Punycode PunycodeSpecs IdentifierMangling Demangler NodeShape DemanglerSpecs DemanglerSafety Numbers.

(** ** Inputs for the witnesses *)

(** A demangler that is about to read [MangledName], before its prefix. *)
Definition reading_from (MangledName : str) : Demangler := init MangledName newDemangler.

Lemma inv_reading_from name : (0 < length name)%nat -> inv (reading_from name).
Proof. intros H. split; cbn; try constructor; lia. Qed.

(** ** Operations that do not look at the old-style flag *)

Class Oblivious {A} (m : DM A) : Prop :=
  oblivious : forall b s, m (setOld b s) = mapState (setOld b) (m s).

Section oblivious.
#[local] Instance oblivious_ret {A} (a : A) : Oblivious (ret a).
Proof. done. Qed.

#[local] Instance oblivious_fail {A} c : Oblivious (@fail _ A c).
Proof. done. Qed.

#[local] Instance oblivious_bind {A B} (m : DM A) (k : A -> DM B) :
  Oblivious m -> (forall a, Oblivious (k a)) -> Oblivious (bind m k).
Proof.
  intros Hm Hk b s. unfold bind. rewrite (oblivious b s). destruct (m s) as [[a s']|c]; cbn; [|done].
  apply oblivious.
Qed.

#[local] Instance oblivious_if {A} (b : bool) (m1 m2 : DM A) :
  Oblivious m1 -> Oblivious m2 -> Oblivious (if b then m1 else m2).
Proof. by destruct b. Qed.

Lemma oblivious_loop {A B} (body : A -> DM (A + B)) :
  (forall a, Oblivious (body a)) -> forall fuel a, Oblivious (loop fuel body a).
Proof.
  intros Hbody fuel. induction fuel as [|fuel IH]; intros a; cbn [loop]; [apply _|].
  apply oblivious_bind; [apply _|]. intros [a'|b]; [apply IH|apply _].
Qed.

#[local] Instance oblivious_while {A B} (body : A -> DM (A + B)) a :
  (forall a, Oblivious (body a)) -> Oblivious (while_ body a).
Proof. intros Hbody b s. by apply oblivious_loop. Qed.

#[local] Instance oblivious_assert site b : Oblivious (assert site b).
Proof. by destruct b. Qed.

#[local] Instance oblivious_gets_NodeStack : Oblivious (gets NodeStack).
Proof. done. Qed.
#[local] Instance oblivious_gets_Pos : Oblivious (gets Pos).
Proof. done. Qed.
#[local] Instance oblivious_gets_Text : Oblivious (gets Text).
Proof. done. Qed.
#[local] Instance oblivious_gets_Words : Oblivious (gets Words).
Proof. done. Qed.
#[local] Instance oblivious_more : Oblivious (gets (fun s => (Pos s <? length (Text s))%nat)).
Proof. done. Qed.
#[local] Instance oblivious_peekChar : Oblivious peekChar.
Proof. done. Qed.
#[local] Instance oblivious_nextChar : Oblivious nextChar.
Proof. intros b s. unfold nextChar. cbn. by destruct (Text s !! Pos s). Qed.
#[local] Instance oblivious_setPos f : Oblivious (modify (fun s => setPos (Pos s + f) s)).
Proof. done. Qed.
#[local] Instance oblivious_setWords Slice n i :
  Oblivious (modify (fun s => setWordList (scanWords n Slice i None (Words s)) s)).
Proof. done. Qed.
#[local] Instance oblivious_nextIf c : Oblivious (nextIf c).
Proof. unfold nextIf. apply _. Qed.
#[local] Instance oblivious_addSubstitution o : Oblivious (addSubstitution o).
Proof. by destruct o. Qed.

#[local] Instance oblivious_stateless {A} (m : DM A) : Stateless m -> Oblivious m.
Proof.
  intros Hm b s. rewrite (stateless (setOld b s) s), (stateless s s).
  by destruct (m s) as [[a s']|c].
Qed.

Ltac oblivious_tac :=
  repeat lazymatch goal with
  | |- forall _, _ => intros ?
  | |- Oblivious (bind _ _) => apply oblivious_bind
  | |- Oblivious (if _ then _ else _) => apply oblivious_if
  | |- Oblivious (while_ _ _) => apply oblivious_while
  | |- Oblivious (match ?x with _ => _ end) => destruct x
  | |- Oblivious _ => apply _
  end.

#[local] Instance oblivious_demangleNatural : Oblivious demangleNatural.
Proof. unfold demangleNatural, demangleNatural_step. oblivious_tac. Qed.

#[local] Instance oblivious_wordSubst_step st : Oblivious (wordSubst_step st).
Proof. unfold wordSubst_step. oblivious_tac. Qed.

#[local] Instance oblivious_demangleIdentifier : Oblivious demangleIdentifier.
Proof. unfold demangleIdentifier, demangleIdentifier_step. oblivious_tac. Qed.

Lemma oblivious_demangleObjCTypeName : Oblivious demangleObjCTypeName.
Proof. unfold demangleObjCTypeName. oblivious_tac. Qed.
End oblivious.

#[export] Instance stateless_charAt {S} site name i : Stateless (S := S) (charAt site name i).
Proof. unfold charAt. destruct (name !! i); apply _. Qed.

#[export] Instance stateless_getManglingPrefixLength name :
  Stateless (S := Demangler) (getManglingPrefixLength name).
Proof. unfold getManglingPrefixLength. apply _. Qed.

(** ** Operators and standard types: character tables *)

(** The characters of an operator: those with a letter for them, and the bytes
    of the non-ASCII ones. *)
Definition operatorChar (c : ascii) : bool :=
  (128 <=? ord c) || negb (Ascii.eqb (translateOperatorChar c) c).

(** [translateToOperator] on one character. *)
Definition operatorOf (c : ascii) : option ascii :=
  if 128 <=? ord c then Some c
  else if negb (isLowerLetter c) then None
  else
    let o := default NUL (op_char_table !! Z.to_nat (ord c - ord "a")) in
    if Ascii.eqb o " " then None else Some o.

Definition option_ascii_eqb (o o' : option ascii) : bool :=
  match o, o' with
  | Some a, Some b => Ascii.eqb a b
  | None, None => true
  | _, _ => false
  end.

Lemma operatorOf_translate c :
  operatorOf (translateOperatorChar c) = (if operatorChar c then Some c else operatorOf c).
Proof.
  assert (option_ascii_eqb (operatorOf (translateOperatorChar c))
    (if operatorChar c then Some c else operatorOf c) = true) as H.
  { revert c. apply ascii_forall. vm_compute. reflexivity. }
  revert H. destruct (operatorOf _), (if operatorChar c then _ else _); cbn; try done.
  by intros ->%Ascii.eqb_eq.
Qed.

Lemma translate_operatorOf c o :
  operatorOf c = Some o -> translateOperatorChar o = c /\ operatorChar o = true.
Proof.
  assert (match operatorOf c with
    | Some o => Ascii.eqb (translateOperatorChar o) c && operatorChar o
    | None => true end = true) as H.
  { revert c. apply ascii_forall. vm_compute. reflexivity. }
  intros Ho. rewrite Ho in H. apply andb_true_iff in H as [?%Ascii.eqb_eq ?]. done.
Qed.

Lemma translateToOperator_cons c t :
  translateToOperator (c :: t) =
  match operatorOf c with Some o => cons o <$> translateToOperator t | None => None end.
Proof.
  cbn [translateToOperator]. unfold operatorOf. destruct (128 <=? ord c); [done|].
  destruct (negb _); [done|]. cbv zeta. by destruct (Ascii.eqb _ " ").
Qed.

Lemma demangleSymbol_wp_crash MangledName s :
  match demangleSymbol MangledName s with Ok _ => True | Crash c => symbol_crash c end.
Proof.
  pose proof (wp_demangleSymbol MangledName s) as H. unfold wp in H.
  by destruct (demangleSymbol MangledName s) as [[r s']|c].
Qed.

(** The state of the demangler does not matter for a symbol. *)
Lemma demangleSymbol_any_state MangledName s s' :
  result (demangleSymbol MangledName s) = result (demangleSymbol MangledName s').
Proof.
  unfold demangleSymbol, bind, modify. cbn -[getManglingPrefixLength nextIfStr].
  change (init MangledName s) with (setOld (IsOldFunctionTypeMangling s) (init MangledName s')).
  set (b := IsOldFunctionTypeMangling s). set (s0 := init MangledName s'). clearbody b s0.
  unfold nextIfStr. cbn [Text Pos setOld]. destruct (startswith _ _).
  - change (setPos (Pos s0 + length (lit "_Tt")) (setOld b s0))
      with (setOld b (setPos (Pos s0 + length (lit "_Tt")) s0)).
    rewrite (oblivious_demangleObjCTypeName b). by destruct (demangleObjCTypeName _) as [[? ?]|].
  - pose proof (stateless_getManglingPrefixLength MangledName) as Hst.
    rewrite (Hst (setOld b s0) s0), (Hst s0 s0).
    destruct (getManglingPrefixLength MangledName s0) as [[n s1]|c]; cbn [mapState]; [|done].
    destruct (n =? 0)%nat; [done|]. done.
Qed.

(** ** Properties *)

(** C4. Whatever the string and whatever state the demangler is in,
    [demangleSymbol] ends, and returns null or a [Global] node with children
    that follows the grammar of demangling trees, unless it runs into one of
    the four crashes of [symbol_crash]: no other assertion, null pointer or
    out-of-range access can be reached. *)
Theorem demangleSymbol_safe MangledName s :
  match demangleSymbol MangledName s with
  | Ok (Some n, _) => wf_node n = true /\ getKind n = K_Global /\ hasChildren n = true
  | Ok (None, _) => True
  | Crash c => symbol_crash c
  end.
Proof.
  pose proof (wp_demangleSymbol MangledName s) as H. unfold wp in H.
  destruct (demangleSymbol MangledName s) as [[[n|] s']|c]; [|done|done].
  destruct (H n eq_refl) as (Hw & Hk & Hc). split_and!; [done|done|].
  unfold hasChildren. by apply negb_true_iff, Nat.eqb_neq.
Qed.

(** C25. On every string [demangleType] ends with a well-formed tree, never with
    null, unless it runs into one of the three crashes of [parse_crash]. *)
Theorem demangleType_total MangledName s :
  match demangleType MangledName s with
  | Ok (r, _) => exists n, r = Some n /\ wf_node n = true
  | Crash c => parse_crash c
  end.
Proof.
  pose proof (wp_demangleType MangledName s) as H. unfold wp in H.
  by destruct (demangleType MangledName s) as [[r s']|c].
Qed.

(** C19. Parsing a whole mangled name stays within its resources: when it
    succeeds every character has been read, every node on the stack and every
    substitution is well formed, there are at most 26 words, and the stack has
    at most 2048 nodes for each character, so that memory is linear in the input
    although repeat counts multiply nodes. *)
Theorem parseAndPushNodes_bounded MangledName s :
  wp parse_crash parseAndPushNodes
    (fun ok s' => ok = true ->
       Pos s' = length MangledName
       /\ Z.of_nat (length (NodeStack s')) <= 2048 * Z.of_nat (length MangledName)
       /\ (length (Words s') <= 26)%nat
       /\ Forall wf (NodeStack s') /\ Forall wf (Substitutions s'))
    (init MangledName s).
Proof.
  destruct (decide (MangledName = [])) as [->|Hne].
  { intros _. cbn. split_and!; (done || lia). }
  assert (0 < length MangledName)%nat as Hlen by (destruct MangledName; [done|cbn; lia]).
  apply wp_parseAndPushNodes.
  - split_and!; [|done|cbn; lia]. split; cbn; try constructor; lia.
  - intros s' (Hinv & Ht & Hst) Hp _. cbn in *. rewrite Hp in Hst.
    destruct Hinv. by split_and!.
  - done.
Qed.

(** C18. One operator keeps the invariant of the demangler, and when it returns a
    node it has read at least one character and has grown the stack by at most
    2048 nodes for each character read. *)
Theorem demangleOperator_progress s :
  inv s -> (Pos s < length (Text s))%nat ->
  wp parse_crash demangleOperator
    (fun r s' => inv s' /\ forall n, r = Some n ->
       wf n /\ (Pos s < Pos s')%nat
       /\ Z.of_nat (length (NodeStack s')) + 1
          <= Z.of_nat (length (NodeStack s)) + 2048 * (Z.of_nat (Pos s') - Z.of_nat (Pos s))) s.
Proof.
  intros Hs Hp. eapply wp_mono; [by apply wp_demangleOperator|].
  intros r s' [Hinv Hr]. split; [done|]. intros n Hn. by destruct (Hr n Hn) as (? & ? & _ & ?).
Qed.

(** C24. The result of [demangleSymbol] depends on the string only, not on the
    symbols this demangler has seen before, although [init] does not reset
    [IsOldFunctionTypeMangling]. *)
Theorem demangleSymbol_history_independent MangledName s s' :
  result (demangleSymbol MangledName s) = result (demangleSymbol MangledName s').
Proof. apply demangleSymbol_any_state. Qed.

Lemma demangleOperator_progress_witness :
  wp parse_crash demangleOperator
    (fun r s' => inv s' /\ forall n, r = Some n ->
       wf n /\ (2 < Pos s')%nat
       /\ Z.of_nat (length (NodeStack s')) + 1 <= 0 + 2048 * (Z.of_nat (Pos s') - 2))
    (setPos 2 (reading_from (lit "$SSi"))).
Proof.
  apply (demangleOperator_progress (setPos 2 (reading_from (lit "$SSi")))).
  - apply inv_setPos; [apply inv_reading_from|]; vm_compute; lia.
  - vm_compute. lia.
Defined.

(** What [demangleType] returns, in contrast, depends on what the object has
    demangled before, but only through [IsOldFunctionTypeMangling], which [init] does
    not reset: two demanglers that agree on it return the same for every string, and
    there are a symbol and a type that tell the difference, whatever came before the
    symbol. *)
Theorem demangleType_history MangledName s s' :
  (IsOldFunctionTypeMangling s = IsOldFunctionTypeMangling s' ->
   result (demangleType MangledName s) = result (demangleType MangledName s'))
  /\ exists Symbol Type_ r s1, demangleSymbol Symbol s = Ok (r, s1)
       /\ result (demangleType Type_ s1) <> result (demangleType Type_ newDemangler).
Proof.
  split.
  - intros H. unfold demangleType, bind, modify. unfold init. by rewrite H.
  - exists (lit "_T04main1fySiF"), (lit "4main1fyySiF"). eexists _, _. split; [vm_compute; reflexivity|]. by vm_compute.
Qed.

Lemma demangleType_history_witness :
  result (demangleType (lit "4main1fyySiF") (setPos 7 newDemangler)) = result (demangleType (lit "4main1fyySiF") newDemangler)
  /\ exists Symbol Type_ r s1, demangleSymbol Symbol (setPos 7 newDemangler) = Ok (r, s1)
       /\ result (demangleType Type_ s1) <> result (demangleType Type_ newDemangler).
Proof.
  destruct (demangleType_history (lit "4main1fyySiF") (setPos 7 newDemangler) newDemangler) as [H H'].
  split; [by apply H|exact H'].
Defined.

(** C33. [getManglingPrefixLength] reads past the end of exactly two strings, the
    ones that end with the dollar sign of the prefix: the check before the read
    of the second character only covers the first one. *)
Theorem getManglingPrefixLength_out_of_range MangledName (s : Demangler) :
  getManglingPrefixLength MangledName s = Crash (OutOfRange "getManglingPrefixLength")
  <-> MangledName = lit "$" \/ MangledName = lit "_$".
Proof.
  split; [|by intros [-> | ->]]. unfold getManglingPrefixLength.
  destruct MangledName as [|a t]; [done|]. cbn [length Nat.eqb].
  destruct (startswith _ _); [done|]. cbn. destruct (Ascii.eqb_spec a "_") as [->|Ha].
  - destruct t as [|b t]; [done|]. cbn. destruct (Ascii.eqb_spec b "$") as [->|]; cbn; [|done].
    destruct t as [|c t]; [by right|]. cbn. by destruct (Ascii.eqb c "S").
  - cbn. destruct (Ascii.eqb_spec a "$") as [->|]; cbn; [|done].
    destruct t as [|c t]; [by left|]. cbn. by destruct (Ascii.eqb c "S").
Qed.

(** C27. [demangleNatural] reads back every number below 2 ^ 31 that the mangler
    prints, and stops in front of the next character, whatever it is. *)
Theorem demangleNatural_roundtrip n rest s :
  drop (Pos s) (Text s) = decimal n ++ rest -> 0 <= n < 2 ^ 31 ->
  isDigit (default NUL (head rest)) = false ->
  demangleNatural s = Ok (n, setPos (Pos s + length (decimal n)) s).
Proof. apply demangleNatural_decimal. Qed.

Lemma demangleNatural_roundtrip_witness :
  demangleNatural (setPos 2 (reading_from (lit "xx1204_y"))) =
    Ok (1204, setPos 6 (reading_from (lit "xx1204_y"))).
Proof.
  apply (demangleNatural_roundtrip 1204 (lit "_y") (setPos 2 (reading_from (lit "xx1204_y"))));
    [reflexivity|lia|reflexivity].
Defined.

(** The overflow check of [demangleNatural] does not detect overflow: a
    numeral above 2 ^ 32 can wrap round to a larger [int] than the one before. *)
Theorem demangleNatural_overflow_unnoticed :
  result (demangleNatural (reading_from (lit "9999999999_"))) = Ok 1410065407.
Proof. reflexivity. Qed.

(** C28. The translation of operators is a bijection: a text is the translation of
    an operator exactly when translating it back gives that operator and the
    operator consists of operator characters (or non-ASCII bytes). *)
Theorem translateOperator_bijection text op :
  translateToOperator text = Some op
  <-> translateOperator op = text /\ Forall (fun c => operatorChar c = true) op.
Proof.
  revert op. induction text as [|c text IH]; intros op.
  - cbn. split; [by intros [= <-]|]. intros [H _]. by destruct op.
  - rewrite translateToOperator_cons. split.
    + destruct (operatorOf c) as [o|] eqn:Ho; [|done].
      destruct (translateToOperator text) as [op'|]; [|done]. intros [= <-].
      apply translate_operatorOf in Ho as [Ho1 Ho2]. destruct (proj1 (IH op') eq_refl) as [H1 H2].
      unfold translateOperator in *. cbn [map]. rewrite Ho1, H1. split; [done|by constructor].
    + intros [H1 H2]. destruct op as [|o op]; [done|]. injection H1 as <- <-.
      inversion_clear H2 as [|? ? Ho Hop]. rewrite operatorOf_translate, Ho.
      by rewrite (proj2 (IH op)).
Qed.

(** C26. The crashes that mangled names can cause are exactly those of
    [symbol_crash], each of which a short symbol reaches: a read past the end of
    [$], a null dereference for a key path thunk whose type is no type, an
    assertion on a number of eight digits, and a division by zero in the Punycode
    bias function after the decoder's delta has wrapped round. *)
Theorem demangleSymbol_crashes c :
  symbol_crash c <-> exists MangledName s, demangleSymbol MangledName s = Crash c.
Proof.
  split.
  - intros [c' []|].
    + exists (lit "$SlxTK"), newDemangler. by vm_compute.
    + exists (lit "$SBi99999999_"), newDemangler. by vm_compute.
    + exists (lit "$S009lFIJBHBGa"), newDemangler. by vm_compute.
    + exists (lit "$"), newDemangler. by vm_compute.
  - intros (name & s & H). pose proof (demangleSymbol_wp_crash name s) as Hw. by rewrite H in Hw.
Qed.

(** C29. The names of the standard types and their one-letter manglings determine
    one another: [createStandardSubstitution] builds the type of this name
    exactly for the letter that [getStandardTypeSubst] gives it. *)
Theorem standard_type_roundtrip name Subst :
  (Subst <> NUL /\ getStandardTypeSubst name = Subst)
  <-> exists kind, createStandardSubstitution Subst = createSwiftType kind name
        /\ createStandardSubstitution Subst <> None.
Proof.
  split.
  - intros [Hne He]. unfold getStandardTypeSubst in He.
    destruct (find _ _) as [[[k m] n]|] eqn:Hf; [|congruence]. subst m.
    apply find_some in Hf as [Hin Hn]. apply bool_decide_eq_true in Hn. cbn in Hn. subst n.
    exists k. cbn in Hin. repeat (destruct Hin as [[= <- <- <-]|Hin]; [by split|]). done.
  - intros (kind & He & Hne). unfold createStandardSubstitution in *.
    destruct (find _ _) as [[[k m] n]|] eqn:Hf; [|done]. injection He as -> ->.
    apply find_some in Hf as [Hin Hm]. cbn in Hm. apply Ascii.eqb_eq in Hm as ->.
    cbn in Hin. repeat (destruct Hin as [[= <- <- <-]|Hin]; [by split|]). done.
Qed.
