(* ===== verification/PunycodeRoundtrip.v ===== *)
(** * Punycode: decoding inverts encoding

    The two directions of lib/Demangling/Punycode.cpp step by step: digits,
    variable-length integers, the bias function, one round of the encoder, and
    the UTF-8 conversions. *)

From Stdlib Require Import String.
From S2P Require Import Prelude Nodes ManglingUtils Punycode PunycodeSpecs IdentifierMangling Demangler Numbers.

(** ** Digits *)

(** The characters of the variable-length integers: [a-zA-J]. *)
Definition isPunycodeDigit (c : ascii) : bool := inRange "a" c "z" || inRange "A" c "J".

Lemma digit_value_spec d :
  0 <= d < 36 -> exists c, (forall S (s : S), digit_value d s = Ok (c, s))
    /\ digit_index c = d /\ isPunycodeDigit c = true.
Proof.
  intros Hd. exists (if d <? 26 then chr (ord "a" + d) else chr (ord "A" - 26 + d)). split.
  - intros S s. unfold digit_value, bind, assert, base. destruct (Z.ltb_spec d 36); [|lia]. cbn.
    by destruct (d <? 26).
  - unfold isPunycodeDigit, digit_index, inRange.
    change (ord "a") with 97. change (ord "A") with 65. change (ord "z") with 122. change (ord "J") with 74.
    destruct (Z.ltb_spec d 26); rewrite ord_chr by lia;
      repeat (match goal with |- context [?a <=? ?b] => destruct (Z.leb_spec a b) end; try lia);
      split; cbn [andb orb]; (reflexivity || lia).
Qed.

Lemma isPunycodeDigit_delimiter c : isPunycodeDigit c = true -> c <> delimiter.
Proof. by intros H ->. Qed.

(** ** Variable-length integers *)

Lemma threshold_range k bias : 1 <= threshold k bias <= 26.
Proof.
  unfold threshold, tmin, tmax. destruct (Z.leb_spec k bias); [lia|].
  destruct (Z.leb_spec (bias + 26) k); lia.
Qed.

(** What [encode_delta] writes for [q], [decode_delta] reads back, whatever
    follows; the weight [w] may have wrapped round only when [q] is 0. *)
Lemma delta_roundtrip fuel q k bias :
  0 <= q < 10 ^ Z.of_nat fuel -> 0 <= k <= 2 ^ 20 - 36 * Z.of_nat fuel ->
  exists ds, (forall S out (s : S), encode_delta (Datatypes.S fuel) q k bias out s = Ok (out ++ ds, s))
    /\ ds <> [] /\ Forall (fun c => isPunycodeDigit c = true) ds
    /\ forall rest i w, 0 <= i -> 0 <= q * w -> i + q * w < 2 ^ 31 -> (0 < q -> 0 <= w < 2 ^ 31) ->
       decode_delta (ds ++ rest) i w k bias = Some (i + q * w, rest).
Proof.
  revert q k. induction fuel as [|fuel IH]; intros q k Hq Hk; pose proof (threshold_range k bias) as Ht.
  - assert (q = 0) as -> by (cbn in Hq; lia).
    destruct (digit_value_spec 0) as (c & Hv & Hi & Hc); [lia|]. exists [c]. split_and!.
    + intros S out s. cbn [encode_delta]. destruct (Z.ltb_spec 0 (threshold k bias)); [|lia].
      by rewrite (bind_ok _ _ _ _ _ (Hv _ s)).
    + done.
    + by repeat constructor.
    + intros rest i w Hi0 _ Hlt _. cbn [app decode_delta]. rewrite Hi. cbn [Z.ltb].
      destruct (Z.ltb_spec 0 0); [lia|]. destruct (Z.ltb_spec 0 (threshold k bias)); [|lia].
      rewrite !Z.mul_0_l, (wrap_int_id 0), wrap_int_id by lia. done.
  - destruct (Z.lt_decidable q (threshold k bias)) as [Hlt|Hge].
    + destruct (digit_value_spec q) as (c & Hv & Hi & Hc); [lia|]. exists [c]. split_and!.
      * intros S out s. cbn [encode_delta]. destruct (Z.ltb_spec q (threshold k bias)); [|lia].
        by rewrite (bind_ok _ _ _ _ _ (Hv _ s)).
      * done.
      * by repeat constructor.
      * intros rest i w Hi0 Hqw Hb Hw. cbn [app decode_delta]. rewrite Hi.
        destruct (Z.ltb_spec q 0); [lia|]. destruct (Z.ltb_spec q (threshold k bias)); [|lia].
        rewrite (wrap_int_id (q * w)), wrap_int_id by lia. done.
    + set (t := threshold k bias) in *. set (r := (q - t) mod (36 - t)). set (q' := (q - t) / (36 - t)).
      assert (0 <= r < 36 - t) as Hr by (apply Z.mod_pos_bound; lia).
      assert (q - t = (36 - t) * q' + r) as Hdm by (apply Z.div_mod; lia).
      assert (0 <= q') as Hq'0 by (apply Z.div_pos; lia).
      assert (q' < 10 ^ Z.of_nat fuel) as Hq'.
      { apply Z.div_lt_upper_bound; [lia|]. rewrite Nat2Z.inj_succ, Z.pow_succ_r in Hq by lia. nia. }
      destruct (digit_value_spec (t + r)) as (c & Hv & Hi & Hc); [lia|].
      destruct (IH q' (k + 36)) as (ds & He & Hne & Hds & Hd); [lia|lia|]. exists (c :: ds). split_and!.
      * intros S out s. remember (Datatypes.S fuel) as f eqn:Ef. cbn [encode_delta]. fold t.
        destruct (Z.ltb_spec q t); [lia|]. unfold base. rewrite Z.rem_mod_nonneg, Z.quot_div_nonneg by lia.
        fold r q'. rewrite (bind_ok _ _ _ _ _ (Hv _ s)). subst f. rewrite He. by rewrite <-app_assoc.
      * done.
      * by constructor.
      * intros rest i w Hi0 Hqw Hb Hw. assert (0 <= w < 2 ^ 31) as Hw' by (apply Hw; lia).
        assert (q * w = (t + r) * w + q' * ((36 - t) * w)) as Hsum by nia.
        cbn [app decode_delta]. rewrite Hi. fold t. destruct (Z.ltb_spec (t + r) 0); [lia|].
        destruct (Z.ltb_spec (t + r) t); [lia|]. unfold base.
        rewrite (wrap_int_id ((t + r) * w)), (wrap_int_id (i + (t + r) * w)) by nia.
        rewrite (wrap_int_id (k + 36)) by lia. replace (w * (36 - t)) with ((36 - t) * w) by lia.
        destruct (decide (q' = 0)) as [Hz|Hz].
        { rewrite Hd by nia. rewrite Hz in *. do 2 f_equal. lia. }
        rewrite (wrap_int_id ((36 - t) * w)) by nia. rewrite Hd by nia. do 2 f_equal. lia.
Qed.

(** ** The bias function *)

(** It does not depend on the state, nor on the type of the state. *)
Lemma adapt_loop_unit {S} fuel delta k (s : S) :
  adapt_loop fuel delta k s = mapState (fun _ => s) (adapt_loop fuel delta k tt).
Proof.
  revert delta k. induction fuel as [|fuel IH]; intros delta k; cbn [adapt_loop]; [done|].
  by destruct (_ <? delta).
Qed.

Lemma adapt_unit {S} delta numpoints firsttime (s : S) :
  adapt delta numpoints firsttime s
  = mapState (fun _ => s) (adapt delta numpoints firsttime tt).
Proof.
  unfold adapt, bind. destruct (numpoints =? 0); [done|]. cbn [ret]. rewrite adapt_loop_unit.
  destruct (adapt_loop _ _ _ tt) as [[[d k] []]|c]; cbn [mapState]; [|done]. by destruct (_ =? 0).
Qed.

Lemma wp_adapt_small {S} delta numpoints firsttime (s : S) :
  0 <= delta < 2 ^ 31 -> 0 < numpoints ->
  wp no_crash (adapt delta numpoints firsttime) (fun _ _ => True) s.
Proof.
  intros Hd Hn. unfold adapt. set (d := if firsttime then _ else _). apply wp_bind.
  destruct (Z.eqb_spec numpoints 0); [lia|]. apply wp_ret, wp_bind.
  assert (0 <= d /\ 2 * d <= delta) as [Hd0 Hd1].
  { unfold d, damp. destruct firsttime; rewrite Z.quot_div_nonneg by lia;
      pose proof (Z.div_mod delta 700); pose proof (Z.mod_pos_bound delta 700);
      pose proof (Z.div_mod delta 2); pose proof (Z.mod_pos_bound delta 2); lia. }
  rewrite Z.quot_div_nonneg by lia.
  assert (0 <= d / numpoints <= d) by (split; [apply Z.div_pos; lia|apply Z.div_le_upper_bound; nia]).
  rewrite wrap_int_id by lia. apply wp_adapt_loop.
  - assert (2 ^ 31 < 456 * 35 ^ Z.of_nat 7) by reflexivity. lia.
  - intros delta' k' _ Hd' _. unfold skew. by destruct (Z.eqb_spec (delta' + 38) 0); [lia|].
Qed.

(** [adapt] returns for every [delta] that has not overflowed. *)
Lemma adapt_returns delta numpoints firsttime :
  0 <= delta < 2 ^ 31 -> 0 < numpoints ->
  exists bias, forall S (s : S), adapt delta numpoints firsttime s = Ok (bias, s).
Proof.
  intros Hd Hn. pose proof (wp_adapt_small delta numpoints firsttime tt Hd Hn) as H. unfold wp in H.
  destruct (adapt _ _ _ tt) as [[bias []]|c] eqn:E; [|done].
  exists bias. intros S s. by rewrite adapt_unit, E.
Qed.

(** ** The encoder, one code point and one round at a time *)

(** The decoder's state, less its input: [n], [i], [bias] and the output. *)
Record decoding := mkDecoding { dec_n : Z; dec_i : Z; dec_bias : Z; dec_out : list Z }.

(** [decode_loop] from this state. *)
Definition decode_from {S} (fuel : nat) (input : str) (d : decoding) : M S (list Z) :=
  decode_loop fuel input (dec_n d) (dec_i d) (dec_bias d) (dec_out d).

(** Reading the digits [ds] takes the decoder from [d] to [d']. *)
Definition decodes (ds : str) (d d' : decoding) : Prop :=
  Forall (fun c => isPunycodeDigit c = true) ds /\
  forall rest fuel, (length (ds ++ rest) < fuel)%nat ->
    exists fuel', (length rest < fuel')%nat
      /\ forall S (s : S), decode_from fuel (ds ++ rest) d s = decode_from fuel' rest d' s.

Lemma decodes_nil d : decodes [] d d.
Proof. split; [constructor|]. intros rest fuel Hf. by exists fuel. Qed.

Lemma decodes_app ds ds' d d' d'' :
  decodes ds d d' -> decodes ds' d' d'' -> decodes (ds ++ ds') d d''.
Proof.
  intros [Hc H] [Hc' H']. split; [by apply Forall_app_2|]. intros rest fuel Hf.
  rewrite <-app_assoc in *. destruct (H (ds' ++ rest) fuel Hf) as (fuel1 & Hf1 & He1).
  destruct (H' rest fuel1 Hf1) as (fuel2 & Hf2 & He2). exists fuel2. split; [done|].
  intros S s. by rewrite He1.
Qed.

(** The code points below [n] in front of the one to be inserted, and all. *)
Definition below (n : Z) (cps : list Z) : list Z := base.filter (fun c => c < n) cps.

(** One code point [m] inserted at [pos]: the encoder writes [delta], from which
    the decoder finds [m] and [pos], and both adapt to the same bias. *)
Lemma insert_roundtrip d m delta pos :
  let h := Z.of_nat (length (dec_out d)) in
  0 <= dec_i d -> 0 <= delta -> dec_i d + delta = (m - dec_n d) * (h + 1) + Z.of_nat pos ->
  dec_i d + delta < 2 ^ 31 -> h + 1 < 2 ^ 31 -> (pos <= length (dec_out d))%nat ->
  128 <= dec_n d <= m -> m < 2 ^ 31 ->
  exists ds bias,
    (forall S out (s : S), encode_delta encode_delta_fuel delta base (dec_bias d) out s = Ok (out ++ ds, s))
    /\ (forall S (s : S), adapt delta (wrap_int (h + 1)) (dec_i d =? 0) s = Ok (bias, s))
    /\ decodes ds d (mkDecoding m (Z.of_nat pos + 1) bias
                       (take pos (dec_out d) ++ m :: drop pos (dec_out d))).
Proof.
  intros h Hi Hdelta Heq Hlt Hh Hpos Hn Hm.
  destruct (delta_roundtrip 10 delta 36 (dec_bias d)) as (ds & He & Hne & Hds & Hd);
    [split; [lia|]; assert (2 ^ 31 < 10 ^ Z.of_nat 10) by reflexivity; lia|lia|].
  destruct (adapt_returns delta (wrap_int (h + 1)) (dec_i d =? 0)) as (bias & Hb);
    [lia|rewrite wrap_int_id; lia|].
  exists ds, bias. split; [exact He|]. split; [exact Hb|]. split; [done|].
  intros rest fuel Hf. destruct fuel as [|fuel]; [lia|]. exists fuel.
  destruct ds as [|c ds]; [done|]. rewrite length_app in Hf. cbn in Hf. split; [lia|].
  intros S s. unfold decode_from at 1. cbn [app decode_loop]. rewrite (app_comm_cons ds rest c).
  rewrite Hd by lia. rewrite Z.mul_1_r. fold h.
  replace (dec_i d + delta - dec_i d) with delta by lia. rewrite (wrap_int_id delta) by lia.
  rewrite (bind_ok _ _ _ _ _ (Hb _ s)). rewrite (wrap_u64_id (dec_i d + delta)) by lia. rewrite Heq.
  replace ((m - dec_n d) * (h + 1) + Z.of_nat pos) with (Z.of_nat pos + (m - dec_n d) * (h + 1)) by lia.
  rewrite Z.div_add, Z.mod_add, Z.div_small, Z.mod_small by lia.
  rewrite (wrap_u32_id (dec_n d + _)) by lia. replace (dec_n d + (0 + (m - dec_n d))) with m by lia.
  destruct (Z.ltb_spec m 128); [lia|]. rewrite (wrap_int_id (Z.of_nat pos)), wrap_int_id by lia.
  by rewrite Nat2Z.id.
Qed.

(** In the middle of the encoder's round for [m]: [before] has been visited,
    [after] not, and the decoder has inserted what the encoder has written. *)
Record encoding_round (m : Z) (b : nat) (before after : list Z)
    (delta bias : Z) (h : nat) (d : decoding) : Prop := {
  round_out : dec_out d = below (m + 1) before ++ below m after;
  round_h : h = length (dec_out d);
  round_bias : dec_bias d = bias;
  round_first : (dec_i d =? 0) = (h =? b)%nat;
  round_b : (b <= h)%nat;
  round_i : 0 <= dec_i d;
  round_delta : 0 <= delta;
  round_n : 128 <= dec_n d <= m;
  round_eq : dec_i d + delta
             = (m - dec_n d) * (Z.of_nat h + 1) + Z.of_nat (length (below (m + 1) before))
}.

Lemma below_app n l l' : below n (l ++ l') = below n l ++ below n l'.
Proof. apply list.filter_app. Qed.

Lemma below_cons_lt n c l : c < n -> below n (c :: l) = c :: below n l.
Proof. intros H. unfold below. by rewrite filter_cons_True. Qed.

Lemma below_cons_ge n c l : n <= c -> below n (c :: l) = below n l.
Proof. intros H. unfold below. rewrite filter_cons_False; [done|lia]. Qed.

Lemma length_below n l : (length (below n l) <= length l)%nat.
Proof. apply list.length_filter. Qed.

(** Inputs this short cannot make [delta] overflow. *)
Definition MAX_CODE_POINTS : Z := 1926.

Lemma encode_round_roundtrip m b after : forall before delta bias h d,
  encoding_round m b before after delta bias h d ->
  Z.of_nat (length (before ++ after)) <= MAX_CODE_POINTS -> m <= 0x10FFFF ->
  exists ds delta' bias' h' d',
    (forall S out (s : S),
       encode_round after m b delta bias h out s = Ok ((delta', bias', h', out ++ ds), s))
    /\ decodes ds d d'
    /\ encoding_round m b (before ++ after) [] delta' bias' h' d'.
Proof.
  unfold MAX_CODE_POINTS.
  induction after as [|c after IH]; intros before delta bias h d Hr HN Hm.
  { exists [], delta, bias, h, d. rewrite app_nil_r. split_and!; [|apply decodes_nil|done].
    intros S out s. cbn. by rewrite app_nil_r. }
  rewrite length_app in HN. cbn [length] in HN.
  assert (Z.of_nat (length ((before ++ [c]) ++ after)) <= 1926) as HN'.
  { rewrite !length_app. cbn [length]. lia. }
  replace (before ++ c :: after) with ((before ++ [c]) ++ after) by by rewrite <-app_assoc.
  destruct Hr as [Hout Hh Hbias Hfirst Hb Hi Hdelta Hn Heq].
  assert (length (dec_out d) <= length before + length (c :: after))%nat as Hlen.
  { rewrite Hout, length_app. pose proof (length_below (m + 1) before).
    pose proof (length_below m (c :: after)). lia. }
  assert (length (below (m + 1) before) <= h)%nat as Hpos by (rewrite Hh, Hout, length_app; lia).
  assert (dec_i d + delta < 2 ^ 31 - 1) as Hsum.
  { rewrite Heq. cbn [length] in Hlen. nia. }
  destruct (Z.lt_trichotomy c m) as [Hc|[->|Hc]].
  - rewrite below_cons_lt in Hout by done.
    destruct (IH (before ++ [c]) (delta + 1) bias h d) as (ds & delta' & bias' & h' & d' & He & Hrest);
      [|done|done|].
    { split; try done; try lia.
      - rewrite Hout, below_app, below_cons_lt, <-app_assoc by lia. done.
      - rewrite below_app, below_cons_lt, length_app by lia. cbn. lia. }
    exists ds, delta', bias', h', d'. split; [|done]. intros S out s. cbn [encode_round].
    destruct (Z.ltb_spec c m); [|lia]. destruct (Z.eqb_spec c m); [lia|].
    rewrite wrap_int_id by lia. apply He.
  - rewrite below_cons_ge in Hout by lia.
    destruct (insert_roundtrip d m delta (length (below (m + 1) before)))
      as (ds & bias1 & Henc & Had & Hdec); [done|done|by rewrite <-Hh|lia|cbn [length] in Hlen; lia|lia|done|lia|].
    destruct (IH (before ++ [m]) 0 bias1 (Datatypes.S h)
      (mkDecoding m (Z.of_nat (length (below (m + 1) before)) + 1) bias1
        (take (length (below (m + 1) before)) (dec_out d)
         ++ m :: drop (length (below (m + 1) before)) (dec_out d))))
      as (ds' & delta' & bias' & h' & d' & He & Hdec' & Hr'); [|done|done|].
    { split; cbn [dec_out dec_i dec_n dec_bias]; try done; try lia.
      - rewrite Hout, take_app_length, drop_app_length, below_app, below_cons_lt, <-app_assoc by lia. done.
      - rewrite length_app, length_take, length_cons, length_drop. lia.
      - destruct (Z.eqb_spec (Z.of_nat (length (below (m + 1) before)) + 1) 0); [lia|].
        symmetry. apply Nat.eqb_neq. lia.
      - rewrite below_app, below_cons_lt, length_app by lia. cbn. lia. }
    exists (ds ++ ds'), delta', bias', h', d'. split_and!; [|by eapply decodes_app|done].
    intros S out s. cbn [encode_round]. rewrite Z.ltb_irrefl, Z.eqb_refl, <-Hbias, <-Hfirst.
    rewrite (bind_ok _ _ _ _ _ (Henc S out s)), Hh, (bind_ok _ _ _ _ _ (Had S s)), <-Hh, He.
    by rewrite <-app_assoc.
  - rewrite below_cons_ge in Hout by lia.
    destruct (IH (before ++ [c]) delta bias h d) as (ds & delta' & bias' & h' & d' & He & Hrest);
      [|done|done|].
    { assert (below (m + 1) (before ++ [c]) = below (m + 1) before) as Hbelow.
      { rewrite below_app, (below_cons_ge (m + 1) c []) by lia. apply app_nil_r. }
      by split; rewrite ?Hbelow. }
    exists ds, delta', bias', h', d'. split; [|done]. intros S out s. cbn [encode_round].
    destruct (Z.ltb_spec c m); [lia|]. destruct (Z.eqb_spec c m); [lia|]. apply He.
Qed.

(** ** The rounds of the encoder *)

Lemma min_code_point_fold input n : forall m0,
  let m := fold_left (fun m c => if (n <=? c) && (c <? m) then c else m) input m0 in
  (m = m0 \/ (In m input /\ n <= m)) /\ m <= m0 /\ (forall c, In c input -> n <= c -> m <= c).
Proof.
  induction input as [|c input IH]; intros m0; cbn [fold_left]; [split_and!; [by left|lia|done]|].
  destruct (IH (if (n <=? c) && (c <? m0) then c else m0)) as (H1 & H2 & H3).
  set (m := fold_left _ _ _) in *.
  destruct (Z.leb_spec n c), (Z.ltb_spec c m0); cbn [andb] in *; split_and!; try lia;
    try (intros c' [<-|Hin] Hc'; [lia|by apply H3]).
  all: destruct H1 as [->|[? ?]]; [|right; split; [by right|done]]; try (by left).
  right. split; [by left|done].
Qed.

Lemma below_step m n input :
  n <= m -> (forall c, In c input -> n <= c -> m <= c) -> below m input = below n input.
Proof.
  intros Hnm H. induction input as [|c input IH]; [done|].
  assert (below m input = below n input) as He by (apply IH; intros c' ?; apply H; by right).
  destruct (Z.lt_decidable c n) as [Hc|Hc].
  - rewrite !below_cons_lt by lia. by rewrite He.
  - assert (m <= c) by (apply H; [by left|lia]). by rewrite !below_cons_ge by lia.
Qed.

Lemma below_full n input : length (below n input) = length input -> below n input = input.
Proof.
  induction input as [|c input IH]; [done|]. intros H.
  destruct (Z.lt_decidable c n) as [Hc|Hc].
  - rewrite below_cons_lt in * by done. injection H as H. by rewrite IH.
  - rewrite below_cons_ge in H by lia. pose proof (length_below n input). cbn in H. lia.
Qed.

Lemma below_partial n input :
  (length (below n input) < length input)%nat -> exists c, In c input /\ n <= c.
Proof.
  induction input as [|c input IH]; cbn [length]; intros H; [cbn in H; lia|].
  destruct (Z.lt_decidable c n) as [Hc|Hc].
  - rewrite below_cons_lt in H by done. cbn in H. destruct IH as (c' & ? & ?); [lia|].
    exists c'. split; [by right|done].
  - exists c. split; [by left|lia].
Qed.

Lemma below_more m input :
  In m input -> (length (below m input) < length (below (m + 1) input))%nat.
Proof.
  induction input as [|c input IH]; [done|].
  assert (length (below m input) <= length (below (m + 1) input))%nat as Hle.
  { clear. induction input as [|c input IH]; [done|]. destruct (Z.lt_decidable c m).
    - rewrite !below_cons_lt by lia. cbn. lia.
    - rewrite (below_cons_ge m) by lia. destruct (Z.lt_decidable c (m + 1)).
      + rewrite below_cons_lt by lia. cbn. lia.
      + by rewrite below_cons_ge by lia. }
  intros [->|Hin].
  - rewrite below_cons_ge, below_cons_lt by lia. cbn. lia.
  - specialize (IH Hin). destruct (Z.lt_decidable c m).
    + rewrite !below_cons_lt by lia. cbn. lia.
    + rewrite (below_cons_ge m) by lia. destruct (Z.lt_decidable c (m + 1)).
      * rewrite below_cons_lt by lia. cbn. lia.
      * by rewrite below_cons_ge by lia.
Qed.

(** The next code point is the least one that is left. *)
Lemma min_code_point_spec input n :
  Forall (fun c => c <= 0x10FFFF) input -> (length (below n input) < length input)%nat ->
  In (min_code_point input n) input /\ n <= min_code_point input n <= 0x10FFFF
  /\ below (min_code_point input n) input = below n input.
Proof.
  intros Hmax Hlen. destruct (min_code_point_fold input n 0x10FFFF) as (H1 & H2 & H3).
  fold (min_code_point input n) in *. set (m := min_code_point input n) in *.
  destruct (below_partial n input Hlen) as (c & Hin & Hc).
  assert (m <= c) as Hmc by by apply H3.
  rewrite List.Forall_forall in Hmax. pose proof (Hmax c Hin) as Hc'.
  assert (In m input /\ n <= m) as [Hm Hnm].
  { destruct H1 as [H1|H1]; [|done]. assert (m = c) as -> by lia. done. }
  split_and!; [done|done|done|]. by apply below_step.
Qed.

(** Between two rounds: the code points below [n] are done. *)
Record encoding_loop (input : list Z) (b : nat) (n delta bias : Z) (h : nat) (d : decoding)
    : Prop := {
  loop_out : dec_out d = below n input;
  loop_h : h = length (dec_out d);
  loop_bias : dec_bias d = bias;
  loop_first : (dec_i d =? 0) = (h =? b)%nat;
  loop_b : (b <= h)%nat;
  loop_i : 0 <= dec_i d;
  loop_delta : 0 <= delta;
  loop_n : 128 <= dec_n d <= n;
  loop_eq : dec_i d + delta = (n - dec_n d) * (Z.of_nat h + 1)
}.

Lemma encode_loop_roundtrip fuel input b : forall n delta bias h d,
  encoding_loop input b n delta bias h d ->
  Z.of_nat (length input) <= MAX_CODE_POINTS -> Forall (fun c => c <= 0x10FFFF) input ->
  n <= 0x110000 -> (length input <= fuel + h)%nat ->
  exists ds d',
    (forall S out (s : S), encode_loop fuel input b n delta bias h out s = Ok (out ++ ds, s))
    /\ decodes ds d d' /\ dec_out d' = input.
Proof.
  unfold MAX_CODE_POINTS.
  induction fuel as [|fuel IH]; intros n delta bias h d Hl HN Hmax Hn0 Hf;
    pose proof (length_below n input) as Hle;
    destruct (decide (length (below n input) = length input)) as [Hfull|Hnot];
    assert (h = length (below n input)) as Hh by (rewrite (loop_h _ _ _ _ _ _ _ Hl); by rewrite (loop_out _ _ _ _ _ _ _ Hl));
    try (exists [], d; split_and!;
         [intros S out s; cbn [encode_loop]; rewrite Hh, Hfull, Nat.ltb_irrefl, app_nil_r; done
         |apply decodes_nil|rewrite (loop_out _ _ _ _ _ _ _ Hl); by apply below_full]); [lia|].
  destruct (min_code_point_spec input n) as (Hin & Hm & Hb'); [done|lia|].
  set (m := min_code_point input n) in *. destruct Hl as [Hout Hh' Hbias Hfirst Hb Hi Hdelta Hn Heq].
  assert (dec_i d + (delta + (m - n) * (Z.of_nat h + 1)) = (m - dec_n d) * (Z.of_nat h + 1)) as Hsum by nia.
  assert ((m - dec_n d) * (Z.of_nat h + 1) < 2 ^ 31 - 2000) as Hbound by nia.
  assert (0 <= (m - n) * (Z.of_nat h + 1)) as Hpos by nia.
  destruct (encode_round_roundtrip m b input [] (delta + (m - n) * (Z.of_nat h + 1)) bias h d)
    as (ds & delta1 & bias1 & h1 & d1 & He & Hdec & Hr); [split; try done; try lia|done|lia|].
  { rewrite Hb'. done. }
  { rewrite Hsum. cbn. lia. }
  destruct Hr as [Hout1 Hh1 Hbias1 Hfirst1 Hb1 Hi1 Hdelta1 Hn1 Heq1].
  cbn [app] in *. rewrite app_nil_r in Hout1.
  pose proof (below_more m input Hin) as Hmore. pose proof (length_below (m + 1) input) as Hle1.
  assert (h1 = length (below (m + 1) input)) as Hh1' by by rewrite Hh1, Hout1.
  destruct (IH (m + 1) (delta1 + 1) bias1 h1 d1) as (ds' & d' & He' & Hdec' & Hd');
    [split; (done || lia || idtac)|done|done|lia|rewrite Hb' in Hmore; lia|].
  exists (ds ++ ds'), d'. split_and!; [|by eapply decodes_app|done].
  intros S out s. cbn [encode_loop]. destruct (Nat.ltb_spec h (length input)); [|lia]. fold m. cbv zeta.
  rewrite (wrap_u64_id delta), (wrap_u32_id (m - n)), wrap_u64_id, wrap_int_id by nia.
  rewrite (bind_ok _ _ _ _ _ (He S out s)). cbv beta iota.
  rewrite wrap_u32_id, wrap_int_id by nia. rewrite He'. by rewrite <-app_assoc.
Qed.

(** ** Whole strings *)

Lemma find_last_of_none c s : Forall (fun x => x <> c) s -> find_last_of c s = None.
Proof.
  induction 1 as [|x s Hx Hs IH]; [done|]. cbn. rewrite IH. by destruct (Ascii.eqb_spec x c).
Qed.

Lemma find_last_of_app c s t :
  Forall (fun x => x <> c) t -> find_last_of c (s ++ c :: t) = Some (length s).
Proof.
  intros Ht. induction s as [|x s IH]; cbn; [|by rewrite IH].
  by rewrite find_last_of_none, Ascii.eqb_refl.
Qed.

Lemma copy_basic_chr cps out :
  Forall (fun c => 0 <= c < 0x80) cps -> copy_basic (map chr cps) out = (out ++ cps, true).
Proof.
  intros H. revert out. induction H as [|c cps Hc _ IH]; intros out; cbn; [by rewrite app_nil_r|].
  rewrite ord_chr by lia. destruct (Z.ltb_spec 127 c); [lia|]. rewrite IH. by rewrite <-app_assoc.
Qed.

(** A scalar that the encoder encodes and that does not keep it from ending. *)
Definition encodable (c : Z) : Prop := isValidUnicodeScalar c = true /\ 0 <= c <= 0x10FFFF.

Lemma encodable_basic cps :
  Forall encodable cps -> Forall (fun c => 0 <= c < 0x80) (below 128 cps).
Proof.
  induction 1 as [|c cps [_ Hc] _ IH]; [constructor|]. destruct (Z.lt_decidable c 128).
  - rewrite below_cons_lt by done. constructor; [lia|done].
  - by rewrite below_cons_ge by lia.
Qed.

(** The encoding of [cps] and its parts. *)
Lemma encodePunycode_parts cps :
  Forall encodable cps -> Z.of_nat (length cps) <= MAX_CODE_POINTS ->
  let basic := below 128 cps in
  exists ds d',
    (forall S (s : S), encodePunycode cps s =
       Ok (Some ((map chr basic ++ (if (0 <? length basic)%nat then [delimiter] else [])) ++ ds), s))
    /\ decodes ds (mkDecoding initial_n 0 initial_bias basic) d' /\ dec_out d' = cps.
Proof.
  intros Hcps HN basic.
  destruct (encode_loop_roundtrip (length cps) cps (length basic) initial_n 0 initial_bias
    (length basic) (mkDecoding initial_n 0 initial_bias basic)) as (ds & d' & He & Hd & Hout);
    [|done|by eapply Forall_impl; [|exact Hcps]; intros c [_ ?]; lia|unfold initial_n; lia|lia|].
  { split; cbn [dec_out dec_i dec_n dec_bias]; try done; unfold initial_n; try lia.
    by rewrite Nat.eqb_refl. }
  exists ds, d'. split; [|done]. intros S s. unfold encodePunycode.
  assert (forallb isValidUnicodeScalar cps = true) as ->.
  { apply forallb_forall. apply List.Forall_forall. by eapply Forall_impl; [|exact Hcps]; intros c []. }
  change (base.filter (fun c => c < 128) cps) with basic. cbv zeta.
  by rewrite (bind_ok _ _ _ _ _ (He S _ s)).
Qed.

Lemma decode_from_end {S} fuel d (s : S) :
  (0 < fuel)%nat -> decode_from fuel [] d s = Ok (dec_out d, s).
Proof. by destruct fuel; [lia|]. Qed.

Lemma punycode_roundtrip cps :
  Forall encodable cps -> Z.of_nat (length cps) <= MAX_CODE_POINTS ->
  exists out, (forall S (s : S), encodePunycode cps s = Ok (Some out, s))
    /\ (forall S (s : S), decodePunycode out s = Ok (cps, s))
    /\ (cps <> [] -> out <> []).
Proof.
  intros Hcps HN. destruct (encodePunycode_parts cps Hcps HN) as (ds & d' & He & [Hc Hd] & Hout).
  eexists. split; [exact He|]. set (basic := below 128 cps) in *.
  assert (Forall (fun x => x <> delimiter) ds) as Hdel.
  { eapply Forall_impl; [|exact Hc]. apply isPunycodeDigit_delimiter. }
  assert (forall fuel S (s : S), (length ds < fuel)%nat ->
    decode_from fuel ds (mkDecoding initial_n 0 initial_bias basic) s = Ok (cps, s)) as Hdec.
  { intros fuel S s Hf. destruct (Hd [] fuel) as (fuel' & Hf' & He'); [by rewrite app_nil_r|].
    rewrite app_nil_r in He'. rewrite He', decode_from_end, Hout; [done|cbn in Hf'; lia]. }
  unfold decodePunycode. destruct (Nat.ltb_spec 0 (length basic)) as [Hb|Hb].
  - rewrite <-app_assoc. cbn [app]. rewrite find_last_of_app, length_map by done. split.
    + intros S s. rewrite <-(length_map chr basic), take_app_length.
      rewrite copy_basic_chr by by apply encodable_basic. cbv beta iota.
      rewrite drop_app_add. cbn [drop app]. rewrite drop_0. exact (Hdec _ S s (Nat.lt_succ_diag_r _)).
    + intros _. by destruct (map chr basic).
  - assert (basic = []) as Hnil by (destruct basic; [done|cbn in Hb; lia]).
    rewrite Hnil in *. cbn [map app]. rewrite find_last_of_none by done. split.
    + intros S s. exact (Hdec _ S s (Nat.lt_succ_diag_r _)).
    + intros Hne ->. apply Hne. assert (Ok ([], tt) = Ok (cps, tt)) as [= <-]; [|done].
      rewrite <-(Hdec 1%nat unit tt); [done|cbn; lia].
Qed.

(** ** UTF-8 *)

Lemma lor_disjoint a b k : 0 <= k -> 0 <= b < 2 ^ k -> Z.lor (a * 2 ^ k) b = a * 2 ^ k + b.
Proof.
  intros Hk Hb. symmetry. apply Z.add_nocarry_lor, Z.bits_inj'. intros n Hn.
  rewrite Z.land_spec, Z.bits_0. destruct (Z.lt_decidable n k).
  - by rewrite Z.mul_pow2_bits_low.
  - destruct (decide (b = 0)) as [->|]; [by rewrite Z.bits_0, andb_false_r|].
    rewrite (Z.bits_above_log2 b n), andb_false_r; [done|lia|].
    apply Z.log2_lt_pow2; [lia|]. eapply Z.lt_le_trans; [apply Hb|]. apply Z.pow_le_mono_r; lia.
Qed.

(** A continuation byte carries six bits. *)
Lemma cont_spec x : 0 <= x -> Z.land (Z.lor x 0x80) 0xBF = x mod 64 + 128.
Proof.
  intros Hx. change 64 with (2 ^ 6). rewrite <-Z.land_ones by lia. change (Z.ones 6) with 63.
  rewrite Z.add_nocarry_lor by (rewrite <-Z.land_assoc; apply Z.land_0_r).
  change 191 with (Z.lor 63 128). apply Z.bits_inj'. intros n _.
  rewrite !Z.land_spec, !Z.lor_spec, Z.land_spec.
  by destruct (Z.testbit x n), (Z.testbit 63 n), (Z.testbit 128 n).
Qed.

Lemma isContinuationByte_spec c : isContinuationByte c = ((128 <=? ord c) && (ord c <? 192)).
Proof.
  apply Bool.eqb_prop. revert c. apply ascii_forall. vm_compute. reflexivity.
Qed.

Lemma bits_spec c k : In k [3; 4; 5; 6] -> bits c (2 ^ k - 1) = ord c mod 2 ^ k.
Proof.
  intros Hk. apply Z.eqb_eq. revert c. apply ascii_forall.
  cbn [In] in Hk. destruct Hk as [<-|[<-|[<-|[<-|[]]]]]; vm_compute; reflexivity.
Qed.

(** The bytes of a scalar, arithmetically. *)
Lemma utf8_bytes_spec s :
  0 <= s < 0x200000 ->
  utf8_bytes s =
    if s <? 0x80 then [chr s]
    else if s <? 0x800 then [chr (192 + s / 64); chr (128 + s mod 64)]
    else if s <? 0x10000 then
      [chr (224 + s / 4096); chr (128 + s / 64 mod 64); chr (128 + s mod 64)]
    else
      [chr (240 + s / 262144); chr (128 + s / 4096 mod 64); chr (128 + s / 64 mod 64);
       chr (128 + s mod 64)].
Proof.
  intros Hs. unfold utf8_bytes. rewrite !Z.shiftr_div_pow2 by lia.
  change (2 ^ 6) with 64. change (2 ^ 12) with 4096. change (2 ^ 18) with 262144.
  rewrite !cont_spec by (first [lia|apply Z.div_pos; lia]).
  destruct (Z.ltb_spec s 0x80); [done|].
  rewrite !(Z.add_comm _ 128).
  destruct (Z.ltb_spec s 0x800); [|destruct (Z.ltb_spec s 0x10000)].
  - assert (0 <= s / 64 < 2 ^ 5) by (split; [apply Z.div_pos; lia|apply Z.div_lt_upper_bound; lia]).
    rewrite (Z.lor_comm _ 192). change 192 with (6 * 2 ^ 5) at 1. by rewrite lor_disjoint by lia.
  - assert (0 <= s / 4096 < 2 ^ 4) by (split; [apply Z.div_pos; lia|apply Z.div_lt_upper_bound; lia]).
    rewrite (Z.lor_comm _ 224). change 224 with (14 * 2 ^ 4) at 1. by rewrite lor_disjoint by lia.
  - assert (0 <= s / 262144 < 2 ^ 3) by (split; [apply Z.div_pos; lia|apply Z.div_lt_upper_bound; lia]).
    rewrite (Z.lor_comm _ 240). change 240 with (30 * 2 ^ 3) at 1. by rewrite lor_disjoint by lia.
Qed.

(** A Unicode scalar value, and the code point it is encoded as. *)
Definition unicode_scalar (c : Z) : Prop := 0 <= c < 0xD800 \/ 0xE000 <= c <= 0x10FFFF.

Definition mapNonSymbol (c : Z) : Z :=
  if (c <? 0x80) && negb (isValidSymbolChar (chr c)) then c + 0xD800 else c.

Definition utf8 (cps : list Z) : str := concat (map utf8_bytes cps).

Lemma unicode_scalar_encodable c : unicode_scalar c -> encodable (mapNonSymbol c).
Proof.
  unfold unicode_scalar, encodable, mapNonSymbol, isValidUnicodeScalar. intros H.
  destruct (Z.ltb_spec c 0x80); [|rewrite orb_true_iff, andb_true_iff, Z.ltb_lt, !Z.leb_le; cbn [andb]; lia].
  rewrite orb_true_iff, andb_true_iff, Z.ltb_lt, !Z.leb_le.
  destruct (isValidSymbolChar _); cbn [andb negb]; lia.
Qed.

Lemma cont_byte r :
  0 <= r < 64 ->
  isContinuationByte (chr (128 + r)) = true /\ bits (chr (128 + r)) 0x3F = r.
Proof.
  intros Hr. rewrite isContinuationByte_spec, (bits_spec _ 6), ord_chr by (cbn; lia || tauto).
  split; [apply andb_true_iff; rewrite Z.leb_le, Z.ltb_lt; lia|].
  rewrite <-(Z.mod_small r (2 ^ 6)) at 2 by lia. change 128 with (2 * 2 ^ 6).
  rewrite Z.add_comm. apply Z.mod_add. lia.
Qed.

(** A leading byte: its value and its payload of [k] bits. *)
Lemma lead_byte v a k :
  In k [3; 4; 5] -> 0 <= a < 2 ^ k -> 0 <= v -> v mod 2 ^ k = 0 -> v + 2 ^ k <= 256 ->
  ord (chr (v + a)) = v + a /\ bits (chr (v + a)) (2 ^ k - 1) = a.
Proof.
  intros Hk Ha Hv Hm Hle. assert (0 < 2 ^ k) by lia.
  rewrite bits_spec, ord_chr by (first [lia|cbn in *; tauto]). split; [done|].
  rewrite Z.add_mod, Hm by lia. rewrite Z.add_0_l, Z.mod_mod by lia. by apply Z.mod_small.
Qed.

(** The scalar put together from its groups of six bits. *)
Lemma group6 a r : 0 <= r < 64 -> Z.lor (Z.shiftl a 6) r = a * 64 + r.
Proof. intros Hr. rewrite Z.shiftl_mul_pow2 by lia. by apply (lor_disjoint a r 6). Qed.

Lemma group12 a b r :
  0 <= b < 64 -> 0 <= r < 64 ->
  Z.lor (Z.lor (Z.shiftl a 12) (Z.shiftl b 6)) r = (a * 64 + b) * 64 + r.
Proof.
  intros Hb Hr. replace (Z.shiftl a 12) with (Z.shiftl (Z.shiftl a 6) 6) by by rewrite Z.shiftl_shiftl.
  by rewrite <-Z.shiftl_lor, group6, group6.
Qed.

Lemma group18 a b c r :
  0 <= b < 64 -> 0 <= c < 64 -> 0 <= r < 64 ->
  Z.lor (Z.lor (Z.lor (Z.shiftl a 18) (Z.shiftl b 12)) (Z.shiftl c 6)) r
  = ((a * 64 + b) * 64 + c) * 64 + r.
Proof.
  intros Hb Hc Hr.
  replace (Z.shiftl a 18) with (Z.shiftl (Z.shiftl a 6) 12) by by rewrite Z.shiftl_shiftl.
  by rewrite <-Z.shiftl_lor, group6, group12.
Qed.

Ltac ltb_cases :=
  repeat match goal with
  | |- context [Z.ltb ?a ?b] => destruct (Z.ltb_spec a b); try lia
  end.

(** [convertUTF8toUTF32] reads one scalar. *)
Lemma convert_scalar c rest :
  unicode_scalar c ->
  convertUTF8toUTF32 (utf8_bytes c ++ rest) true = cons (mapNonSymbol c) <$> convertUTF8toUTF32 rest true.
Proof.
  intros Hc. assert (0 <= c < 0x110000) as Hr by (unfold unicode_scalar in Hc; lia).
  rewrite utf8_bytes_spec by lia. unfold mapNonSymbol.
  assert (forall x, x = 64 * (x / 64) + x mod 64 /\ 0 <= x mod 64 < 64) as Hdm.
  { intros x. split; [by apply Z.div_mod|by apply Z.mod_pos_bound]. }
  destruct (Hdm c) as [H1 H2], (Hdm (c / 64)) as [H3 H4], (Hdm (c / 4096)) as [H5 H6]. clear Hdm.
  rewrite Z.div_div in H3, H5 by lia. change (64 * 64) with 4096 in H3. change (4096 * 64) with 262144 in H5.
  destruct (cont_byte (c mod 64)) as [Hc0 Hb0]; [lia|].
  destruct (cont_byte (c / 64 mod 64)) as [Hc1 Hb1]; [lia|].
  destruct (cont_byte (c / 4096 mod 64)) as [Hc2 Hb2]; [lia|].
  destruct (Z.ltb_spec c 0x80); [|destruct (Z.ltb_spec c 0x800); [|destruct (Z.ltb_spec c 0x10000)]];
    cbn [app convertUTF8toUTF32 andb].
  - rewrite ord_chr by lia. ltb_cases. rewrite orb_false_r. cbn [andb]. by destruct (isValidSymbolChar (chr c)).
  - destruct (lead_byte 192 (c / 64) 5) as [Ho Hb]; [cbn; tauto|lia|lia|reflexivity|lia|]. change (2 ^ 5 - 1) with 31 in Hb.
    rewrite Ho. ltb_cases. rewrite Hc0, Hb, Hb0, group6 by lia. do 2 f_equal. lia.
  - destruct (lead_byte 224 (c / 4096) 4) as [Ho Hb]; [cbn; tauto|lia|lia|reflexivity|lia|]. change (2 ^ 4 - 1) with 15 in Hb.
    rewrite Ho. ltb_cases. rewrite Hc0, Hc1, Hb, Hb0, Hb1. cbn [andb].
    rewrite group12 by lia. do 2 f_equal. lia.
  - destruct (lead_byte 240 (c / 262144) 3) as [Ho Hb]; [cbn; tauto|lia|lia|reflexivity|lia|]. change (2 ^ 3 - 1) with 7 in Hb.
    rewrite Ho. ltb_cases. rewrite Hc0, Hc1, Hc2, Hb, Hb0, Hb1, Hb2. cbn [andb].
    rewrite group18 by lia. do 2 f_equal. lia.
Qed.

Lemma convert_utf8 cps :
  Forall unicode_scalar cps -> convertUTF8toUTF32 (utf8 cps) true = Some (map mapNonSymbol cps).
Proof.
  induction 1 as [|c cps Hc _ IH]; [done|]. unfold utf8 in *. cbn [map concat].
  by rewrite convert_scalar, IH.
Qed.

(** [encodeToUTF8] maps the marked ASCII characters back. *)
Lemma encode_scalar c :
  unicode_scalar c ->
  isValidUnicodeScalar (mapNonSymbol c) = true
  /\ (if (0xD800 <=? mapNonSymbol c) && (mapNonSymbol c <? 0xD880)
      then mapNonSymbol c - 0xD800 else mapNonSymbol c) = c.
Proof.
  intros Hc. split; [by apply unicode_scalar_encodable|]. unfold unicode_scalar, mapNonSymbol in *.
  destruct (Z.ltb_spec c 0x80); cbn [andb]; [destruct (negb _)|];
    repeat match goal with
    | |- context [Z.leb ?a ?b] => destruct (Z.leb_spec a b); try lia
    | |- context [Z.ltb ?a ?b] => destruct (Z.ltb_spec a b); try lia
    end; cbn [andb]; lia.
Qed.

Lemma encode_utf8 cps :
  Forall unicode_scalar cps -> encodeToUTF8 (map mapNonSymbol cps) = Some (utf8 cps).
Proof.
  induction 1 as [|c cps Hc _ IH]; [done|]. cbn [map encodeToUTF8].
  destruct (encode_scalar c Hc) as [-> He]. cbv zeta. by rewrite He, IH.
Qed.

(** An identifier survives the encoding and the decoding. *)
Lemma punycodeUTF8_roundtrip cps :
  Forall unicode_scalar cps -> Z.of_nat (length cps) <= MAX_CODE_POINTS ->
  exists out, (forall S (s : S), encodePunycodeUTF8 (utf8 cps) true s = Ok (Some out, s))
    /\ (forall S (s : S), decodePunycodeUTF8 out s = Ok (Some (utf8 cps), s))
    /\ (cps <> [] -> out <> []).
Proof.
  intros Hcps HN. destruct (punycode_roundtrip (map mapNonSymbol cps)) as (out & He & Hd & Hne).
  - apply Forall_map. by eapply Forall_impl; [|exact Hcps]; apply unicode_scalar_encodable.
  - by rewrite length_map.
  - exists out. split_and!.
    + intros S s. unfold encodePunycodeUTF8. by rewrite convert_utf8.
    + intros S s. unfold decodePunycodeUTF8. rewrite (bind_ok _ _ _ _ _ (Hd S s)).
      by rewrite encode_utf8.
    + intros H. apply Hne. by destruct cps.
Qed.
