(* ===== verification/PunycodeTermination.v ===== *)
(** * Punycode: the encoder ends

    On code points up to 0x10FFFF the encoder ends, however many they are: [delta] may
    wrap round and an assertion may stop it, but every round takes at least one code
    point. The texts for which that holds are closed under what the remangler does to
    a text before it encodes it. *)

From Stdlib Require Import String.
From S2P Require Import Prelude Nodes ManglingUtils Punycode PunycodeSpecs PunycodeRoundtrip.

Section encoder.
Context {S : Type} {E : crash -> Prop}.
Hypothesis E_adapt : E (DivisionByZero "adapt").
Hypothesis E_digit : E (AssertionFailed "digit_value").

Lemma wp_digit_value q (Q : ascii -> S -> Prop) s : (forall d, Q d s) -> wp E (digit_value q) Q s.
Proof.
  intros HQ. unfold digit_value, wp, bind, assert. destruct (q <? base); [|done]. destruct (q <? 26); apply HQ.
Qed.

(** Every digit divides by ten at least. *)
Lemma wp_encode_delta n : forall q k bias out (Q : str -> S -> Prop) s,
  q < 10 ^ Z.of_nat n -> (forall out, Q out s) -> wp E (encode_delta (Datatypes.S n) q k bias out) Q s.
Proof.
  induction n as [|n IH]; intros q k bias out Q s Hq HQ; pose proof (threshold_range k bias) as Ht;
    cbn [encode_delta]; cbv zeta;
    (destruct (Z.ltb_spec q (threshold k bias)); [apply wp_bind, wp_digit_value; intros d; by apply wp_ret|]).
  - cbn in Hq. lia.
  - apply wp_bind, wp_digit_value. intros d. apply IH; [|done].
    unfold base. rewrite Z.quot_div_nonneg by lia. apply Z.div_lt_upper_bound; [lia|].
    rewrite Nat2Z.inj_succ, Z.pow_succ_r in Hq by lia.
    assert (0 < 10 ^ Z.of_nat n) by (apply Z.pow_pos_nonneg; lia). nia.
Qed.

Lemma wp_encode_round m b input : forall delta bias h out (Q : Z * Z * nat * str -> S -> Prop) s,
  delta < 2 ^ 31 ->
  (forall delta' bias' out',
     Q (delta', bias', (h + (length (below (m + 1) input) - length (below m input)))%nat, out') s) ->
  wp E (encode_round input m b delta bias h out) Q s.
Proof.
  induction input as [|c input IH]; intros delta bias h out Q s Hd HQ; cbn [encode_round].
  { apply wp_ret. specialize (HQ delta bias out). cbn in HQ. by rewrite Nat.add_0_r in HQ. }
  assert ((if c <? m then wrap_int (delta + 1) else delta) < 2 ^ 31) as Hd'.
  { destruct (c <? m); [|done]. pose proof (wrap_int_range (delta + 1)). lia. }
  cbv zeta. assert (length (below m input) <= length (below (m + 1) input))%nat as Hmono.
  { clear. induction input as [|c input IH]; [done|]. unfold below in *. rewrite !filter_cons.
    repeat case_decide; cbn; lia. }
  destruct (Z.eqb_spec c m) as [->|Hc].
  - rewrite Z.ltb_irrefl in *. apply wp_bind. apply (wp_encode_delta 10); [cbn; lia|]. intros out'.
    apply wp_bind, wp_adapt; [done|]. intros bias'. apply IH; [lia|]. intros delta'' bias'' out''.
    specialize (HQ delta'' bias'' out''). rewrite (below_cons_ge m), (below_cons_lt (m + 1)) in HQ by lia.
    cbn [length] in HQ. replace (Datatypes.S h + (length (below (m + 1) input) - length (below m input)))%nat
      with (h + (Datatypes.S (length (below (m + 1) input)) - length (below m input)))%nat by lia. exact HQ.
  - apply IH; [exact Hd'|]. intros delta'' bias'' out''. specialize (HQ delta'' bias'' out'').
    destruct (Z.lt_decidable c m); [rewrite !below_cons_lt in HQ by lia|rewrite !below_cons_ge in HQ by lia]; exact HQ.
Qed.

Lemma wp_encode_loop fuel input b : forall n delta bias h out (Q : str -> S -> Prop) s,
  Forall (fun c => c <= 0x10FFFF) input -> 0 <= n -> h = length (below n input) -> (length input <= fuel + h)%nat ->
  (forall out, Q out s) -> wp E (encode_loop fuel input b n delta bias h out) Q s.
Proof.
  induction fuel as [|fuel IH]; intros n delta bias h out Q s Hmax Hn Hh Hf HQ; cbn [encode_loop];
    (destruct (Nat.ltb_spec h (length input)) as [Hlt|]; [|by apply wp_ret]); [lia|].
  destruct (min_code_point_spec input n) as (Hin & Hm & Hb); [done|lia|]. set (m := min_code_point input n) in *.
  pose proof (below_more m input Hin) as Hmore. cbv zeta.
  apply wp_bind, wp_encode_round.
  - match goal with |- wrap_int ?z < _ => pose proof (wrap_int_range z) end. lia.
  - intros delta' bias' out'. rewrite wrap_u32_id by lia. apply IH; [done|lia| |rewrite Hb in *; lia|done].
    rewrite Hb in *. lia.
Qed.

Lemma wp_encodePunycode input (Q : option str -> S -> Prop) s :
  Forall (fun c => c <= 0x10FFFF) input -> (forall r, Q r s) -> wp E (encodePunycode input) Q s.
Proof.
  intros Hmax HQ. unfold encodePunycode. destruct (forallb _ _); [|by apply wp_ret].
  apply wp_bind, wp_encode_loop; [|done|done|lia|intros out; apply wp_ret, HQ].
  exact Hmax.
Qed.
End encoder.

(** ** Texts *)

(** No code point of the text, which is UTF-8, is above 0x10FFFF; a text that is no
    UTF-8 is not encoded. *)
Definition unicodeText (text : str) : bool :=
  match convertUTF8toUTF32 text true with
  | Some cps => forallb (fun c => c <=? 0x10FFFF) cps
  | None => true
  end.

Lemma translateOperatorChar_high c : 128 <= ord c -> translateOperatorChar c = c.
Proof. destruct c as [[] [] [] [] [] [] [] []]; vm_compute; (reflexivity || (intros H; by destruct H)). Qed.

Lemma translateOperatorChar_low c : ord c < 128 -> ord (translateOperatorChar c) < 128.
Proof. destruct c as [[] [] [] [] [] [] [] []]; vm_compute; (reflexivity || discriminate). Qed.

Lemma translateOperatorChar_continuation c :
  isContinuationByte (translateOperatorChar c) = true -> translateOperatorChar c = c.
Proof.
  rewrite isContinuationByte_spec. intros [H%Z.leb_le _]%andb_true_iff.
  destruct (Z.ltb_spec (ord c) 128) as [Hc|Hc]; [apply translateOperatorChar_low in Hc; lia|by apply translateOperatorChar_high].
Qed.

(** Only what is ASCII is changed. *)
Lemma convert_translate n : forall text cps', (length text <= n)%nat ->
  convertUTF8toUTF32 (translateOperator text) true = Some cps' ->
  exists cps, convertUTF8toUTF32 text true = Some cps /\ Forall2 (fun c c' => c' = c \/ c' <= 0x10FFFF) cps cps'.
Proof.
  induction n as [|n IH]; intros [|first rest] cps' Hn H; try (by cbn in H; injection H as <-; exists []); [cbn in Hn; lia|].
  cbn [length] in Hn.
  assert (forall l cp cps', (length l < S n)%nat -> cons cp <$> convertUTF8toUTF32 (translateOperator l) true = Some cps' ->
    forall cp', cp = cp' \/ cp <= 0x10FFFF ->
    exists cps, cons cp' <$> convertUTF8toUTF32 l true = Some cps /\ Forall2 (fun c c' => c' = c \/ c' <= 0x10FFFF) cps cps') as Hcons.
  { intros l cp ? Hl Hc cp' Hcp. destruct (convertUTF8toUTF32 (translateOperator l) true) as [cps1|] eqn:E1; [|done].
    destruct (IH l cps1) as (cps & -> & HF); [lia|done|]. injection Hc as <-. exists (cp' :: cps). split; [done|by constructor]. }
  unfold translateOperator in H. cbn [map] in H. fold (translateOperator rest) in H.
  destruct (Z.ltb_spec (ord first) 128) as [Hlow|Hhigh].
  - cbn [convertUTF8toUTF32] in *. apply translateOperatorChar_low in Hlow as Hlow'. apply Z.ltb_lt in Hlow as ->, Hlow' as Hl.
    rewrite Hl in H. apply (Hcons rest _ _ ltac:(lia) H). right. destruct (_ || _); lia.
  - rewrite translateOperatorChar_high in H by done. cbn [convertUTF8toUTF32] in *.
    destruct (Z.ltb_spec (ord first) 128); [lia|]. destruct (ord first <? 192); [done|].
    destruct (ord first <? 224); [|destruct (ord first <? 240); [|destruct (ord first <? 248); [|done]]].
    all: destruct rest as [|second rest]; [done|]; unfold translateOperator in H; cbn [map length] in H, Hn; fold (translateOperator rest) in H.
    all: try (destruct rest as [|third rest]; [done|]; unfold translateOperator in H; cbn [map length] in H, Hn; fold (translateOperator rest) in H).
    all: try (destruct rest as [|fourth rest]; [done|]; unfold translateOperator in H; cbn [map length] in H, Hn; fold (translateOperator rest) in H).
    all: repeat match type of H with context [isContinuationByte (translateOperatorChar ?c)] =>
      let Ec := fresh "Ec" in destruct (isContinuationByte (translateOperatorChar c)) eqn:Ec; [|done || (rewrite ?andb_false_r in H; done)];
      apply translateOperatorChar_continuation in Ec as Ef; rewrite Ef in Ec, H; rewrite Ec; clear Ef end.
    all: cbn [andb] in *; (eapply Hcons; [|exact H|by left]); lia.
Qed.

Lemma unicodeText_translate text : unicodeText text = true -> unicodeText (translateOperator text) = true.
Proof.
  unfold unicodeText. intros H. destruct (convertUTF8toUTF32 (translateOperator text) true) as [cps'|] eqn:E'; [|done].
  destruct (convert_translate (length text) text cps') as (cps & E & HF); [lia|done|]. rewrite E in H. clear E E'.
  rewrite forallb_forall in *. induction HF as [|c c' cps cps' Hc _ IH]; [done|].
  intros x [<-|Hx]; [|apply IH; [intros y Hy; apply H; by right|done]].
  destruct Hc as [->|Hc]; [apply H; by left|by apply Z.leb_le].
Qed.

Lemma unicodeText_underscore text : unicodeText text = true -> unicodeText ("_"%char :: text) = true.
Proof.
  unfold unicodeText. intros H. change (convertUTF8toUTF32 ("_"%char :: text) true) with (cons 95 <$> convertUTF8toUTF32 text true).
  destruct (convertUTF8toUTF32 text true); [exact H|done].
Qed.
