(* ===== verification/PunycodeTheorems.v ===== *)
(** * Punycode: theorems

    Decoding inverts encoding, for code points and for UTF-8 identifiers; the
    encoding can be put into a symbol; the decoder ends on every input; the
    encoder does not end on code points above 0x10FFFF. *)

From Stdlib Require Import String.
From S2P Require Import Prelude Nodes ManglingUtils Punycode PunycodeSpecs IdentifierMangling Demangler Numbers PunycodeRoundtrip.

(** The code points of a German word, [Größe]. *)
Definition sample : list Z := [71; 114; 246; 223; 101].

Lemma sample_unicode : Forall unicode_scalar sample.
Proof. repeat (apply Forall_cons_2; [left; lia|]). apply Forall_nil_2. Qed.

Lemma sample_encodable : Forall encodable sample.
Proof. repeat (apply Forall_cons_2; [by split|]). apply Forall_nil_2. Qed.

(** C14. Decoding inverts encoding: every list of at most 1926 valid scalars up to
    0x10FFFF (the surrogates that stand for ASCII characters included) is
    encoded, without overflow and within the fuel, into a string which decodes to
    the list again. *)
Theorem decodePunycode_encodePunycode {S S'} cps (s : S) (s' : S') :
  Forall (fun c => isValidUnicodeScalar c = true /\ 0 <= c <= 0x10FFFF) cps ->
  Z.of_nat (length cps) <= 1926 ->
  exists out, encodePunycode cps s = Ok (Some out, s) /\ decodePunycode out s' = Ok (cps, s').
Proof.
  intros Hcps HN. destruct (punycode_roundtrip cps Hcps HN) as (out & He & Hd & _). by exists out.
Qed.

Lemma decodePunycode_encodePunycode_witness :
  exists out, encodePunycode sample tt = Ok (Some out, tt) /\ decodePunycode out tt = Ok (sample, tt).
Proof.
  apply (decodePunycode_encodePunycode sample tt tt); [exact sample_encodable|].
  apply Z.leb_le. reflexivity.
Defined.

(** C13. The same for identifiers in UTF-8: the string of every list of at most
    1926 Unicode scalar values, which may contain ASCII characters that are not
    allowed in a symbol, is encoded and decodes to the same string. *)
Theorem decodePunycodeUTF8_encodePunycodeUTF8 {S S'} cps (s : S) (s' : S') :
  Forall unicode_scalar cps -> Z.of_nat (length cps) <= 1926 ->
  exists out, encodePunycodeUTF8 (concat (map utf8_bytes cps)) true s = Ok (Some out, s)
    /\ decodePunycodeUTF8 out s' = Ok (Some (concat (map utf8_bytes cps)), s').
Proof.
  intros Hcps HN. destruct (punycodeUTF8_roundtrip cps Hcps HN) as (out & He & Hd & _). by exists out.
Qed.

Lemma decodePunycodeUTF8_encodePunycodeUTF8_witness :
  exists out, encodePunycodeUTF8 (concat (map utf8_bytes sample)) true tt = Ok (Some out, tt)
    /\ decodePunycodeUTF8 out tt = Ok (Some (concat (map utf8_bytes sample)), tt).
Proof.
  apply (decodePunycodeUTF8_encodePunycodeUTF8 sample tt tt); [exact sample_unicode|].
  apply Z.leb_le. reflexivity.
Defined.

(** ** The characters of an encoding *)

Lemma isPunycodeDigit_symbol c : isPunycodeDigit c = true -> isValidSymbolChar c = true.
Proof.
  assert (implb (isPunycodeDigit c) (isValidSymbolChar c) = true) as H.
  { revert c. apply ascii_forall. vm_compute. reflexivity. }
  by destruct (isPunycodeDigit c).
Qed.

Lemma basic_symbol cps :
  Forall unicode_scalar cps ->
  Forall (fun c => isValidSymbolChar (chr c) = true) (below 128 (map mapNonSymbol cps)).
Proof.
  induction 1 as [|c cps Hu _ IH]; [constructor|]. cbn [map].
  destruct (Z.lt_decidable (mapNonSymbol c) 128) as [Hc|Hc]; [|by rewrite below_cons_ge by lia].
  rewrite below_cons_lt by done. constructor; [|done]. unfold mapNonSymbol, unicode_scalar in *.
  destruct (Z.ltb_spec c 0x80); cbn [andb] in *; [|lia].
  destruct (isValidSymbolChar (chr c)) eqn:E; [done|]. cbn [negb] in *. lia.
Qed.

(** C30. The encoding of at most 1926 Unicode scalar values can stand in a symbol: it
    is nonempty when there are any, and consists of letters, digits, underscores and
    dollar signs. Without the bound [delta] overflows, and a digit is negative. *)
Theorem encodePunycodeUTF8_symbol {S} cps (s : S) :
  Forall unicode_scalar cps -> Z.of_nat (length cps) <= 1926 ->
  exists out, encodePunycodeUTF8 (concat (map utf8_bytes cps)) true s = Ok (Some out, s)
    /\ needsPunycodeEncoding out = false /\ (cps <> [] -> out <> []).
Proof.
  intros Hcps HN. destruct (punycodeUTF8_roundtrip cps Hcps HN) as (out & He & _ & Hne).
  exists out. split_and!; [done| |done].
  destruct (encodePunycode_parts (map mapNonSymbol cps)) as (ds & d' & He' & [Hds _] & _).
  { apply Forall_map. by eapply Forall_impl; [|exact Hcps]; apply unicode_scalar_encodable. }
  { by rewrite length_map. }
  specialize (He S s). unfold encodePunycodeUTF8 in He. fold (utf8 cps) in He.
  rewrite convert_utf8, He' in He by done. injection He as <-.
  apply not_true_iff_false. intros (c & Hin & Hc)%existsb_exists. apply negb_true_iff in Hc.
  assert (isValidSymbolChar c = true) as Hc'; [|congruence]. clear Hc.
  rewrite !in_app_iff in Hin. destruct Hin as [[Hin|Hin]|Hin].
  - apply in_map_iff in Hin as (x & <- & Hx). pose proof (basic_symbol cps Hcps) as H.
    rewrite List.Forall_forall in H. by apply H.
  - destruct (_ <? _)%nat; [|done]. by destruct Hin as [<-|[]].
  - rewrite List.Forall_forall in Hds. by apply isPunycodeDigit_symbol, Hds.
Qed.

Lemma encodePunycodeUTF8_symbol_witness :
  exists out, encodePunycodeUTF8 (concat (map utf8_bytes sample)) true tt = Ok (Some out, tt)
    /\ needsPunycodeEncoding out = false /\ (sample <> [] -> out <> []).
Proof.
  apply (encodePunycodeUTF8_symbol sample tt); [exact sample_unicode|]. apply Z.leb_le. reflexivity.
Defined.

(** C31. The decoder ends on every input and leaves its caller's state alone; the
    only crash is a division by zero in the bias function. *)
Theorem decodePunycodeUTF8_total {S} InputPunycode (s : S) :
  decodePunycodeUTF8 InputPunycode s = Crash (DivisionByZero "adapt")
  \/ exists r, decodePunycodeUTF8 InputPunycode s = Ok (r, s).
Proof.
  pose proof (wp_decodePunycodeUTF8 (E := fun c => c = DivisionByZero "adapt") InputPunycode
    (fun _ _ => True) s eq_refl ltac:(done)) as H.
  unfold wp in H. pose proof (stateless (m := decodePunycodeUTF8 InputPunycode) s s) as Hs.
  destruct (decodePunycodeUTF8 InputPunycode s) as [[r s']|c]; [right|left; by subst].
  exists r. cbn in Hs. congruence.
Qed.

(** ** Code points above 0x10FFFF *)




