(* ===== verification/IdentifierTokens.v ===== *)
(** * The words of an identifier

    [mangleIdentifier] and [demangleIdentifier] both cut strings into words,
    with loops over positions. Here the cutting is a function on strings,
    [tokens]; both loops are shown to follow it, and it is shown to cut the
    pieces between two words in the same way as the whole identifier. *)

From Stdlib Require Import String.
From S2P Require Import Prelude Nodes ManglingUtils Punycode IdentifierMangling Demangler.

(** ** Tokens *)

(** A character outside of words, or a word. *)
Inductive token := Gap (c : ascii) | Word (w : str).

Definition tokenText (t : token) : str := match t with Gap c => [c] | Word w => w end.
Definition tokensText (ts : list token) : str := concat (map tokenText ts).

(** The tokens of [s], when [cur] is the part of a word read already. *)
Fixpoint tokens (cur : option str) (s : str) : list token :=
  match s with
  | [] => match cur with Some w => [Word w] | None => [] end
  | c :: s =>
      let start := if isWordStart c then tokens (Some [c]) s else Gap c :: tokens None s in
      match cur with
      | Some w => if isWordEnd c (last w NUL) then Word w :: start else tokens (Some (w ++ [c])) s
      | None => start
      end
  end.

Lemma tokensText_app ts ts' : tokensText (ts ++ ts') = tokensText ts ++ tokensText ts'.
Proof. unfold tokensText. by rewrite map_app, concat_app. Qed.

Lemma tokens_text cur s : tokensText (tokens cur s) = default [] cur ++ s.
Proof.
  revert cur. induction s as [|c s IH]; intros cur; cbn [tokens].
  - destruct cur as [w|]; [|done]. unfold tokensText. cbn. by rewrite !app_nil_r.
  - assert (tokensText (if isWordStart c then tokens (Some [c]) s else Gap c :: tokens None s) = c :: s)
      as Hstart.
    { destruct (isWordStart c); [by rewrite IH|]. unfold tokensText in *. cbn [map concat tokenText].
      by rewrite IH. }
    destruct cur as [w|]; cbn [default]; [|done]. unfold id. destruct (isWordEnd _ _).
    + unfold tokensText in *. cbn [map concat tokenText]. by rewrite Hstart.
    + rewrite IH. cbn. unfold id. by rewrite <-app_assoc.
Qed.

(** *** The lists of tokens that [tokens] returns *)

(** No character of [s] ends a word after [prev]. *)
Fixpoint continues (prev : ascii) (s : str) : Prop :=
  match s with
  | [] => True
  | c :: s => isWordEnd c prev = false /\ continues c s
  end.

Definition wordShaped (w : str) : Prop :=
  match w with [] => False | c :: w => isWordStart c = true /\ continues c w end.

(** A word ends in front of what follows it. *)
Definition endsBefore (w : str) (s : str) : Prop :=
  match s with [] => True | c :: _ => isWordEnd c (last w NUL) = true end.

Fixpoint valid (ts : list token) : Prop :=
  match ts with
  | [] => True
  | Gap c :: ts => isWordStart c = false /\ valid ts
  | Word w :: ts => wordShaped w /\ endsBefore w (tokensText ts) /\ valid ts
  end.

Lemma last_snoc (w : str) c : last (w ++ [c]) NUL = c.
Proof. by rewrite List.last_last. Qed.

Lemma continues_snoc prev w c :
  continues prev w -> isWordEnd c (last (prev :: w) NUL) = false -> continues prev (w ++ [c]).
Proof.
  revert prev. induction w as [|d w IH]; intros prev H He; [done|].
  destruct H as [Hd Hw]. split; [done|]. by apply IH.
Qed.

Lemma wordShaped_snoc w c :
  wordShaped w -> isWordEnd c (last w NUL) = false -> wordShaped (w ++ [c]).
Proof. destruct w as [|d w]; [done|]. intros [Hd Hw] He. split; [done|]. by apply continues_snoc. Qed.

Lemma tokens_valid cur s :
  (forall w, cur = Some w -> wordShaped w) -> valid (tokens cur s).
Proof.
  revert cur. induction s as [|c s IH]; intros cur Hcur; cbn [tokens].
  - destruct cur as [w|]; [|done]. split_and!; [by apply Hcur|done|done].
  - assert (valid (if isWordStart c then tokens (Some [c]) s else Gap c :: tokens None s)) as Hstart.
    { destruct (isWordStart c) eqn:E; [apply IH; by intros ? [= <-]|]. split; [done|by apply IH]. }
    destruct cur as [w|]; [|done]. specialize (Hcur w eq_refl). destruct (isWordEnd _ _) eqn:E.
    + split_and!; [done| |done].
      assert (tokensText (if isWordStart c then tokens (Some [c]) s else Gap c :: tokens None s) = c :: s)
        as ->; [|done].
      destruct (isWordStart c); [by rewrite tokens_text|]. unfold tokensText. cbn [map concat tokenText].
      fold (tokensText (tokens None s)). by rewrite tokens_text.
    + apply IH. intros ? [= <-]. by apply wordShaped_snoc.
Qed.

(** The rest of a word is read up to its end. *)
Lemma tokens_word w w' s :
  continues (last w NUL) w' -> w <> [] -> endsBefore (w ++ w') s ->
  tokens (Some w) (w' ++ s) = Word (w ++ w') :: tokens None s.
Proof.
  revert w. induction w' as [|c w' IH]; intros w Hw Hne He.
  - rewrite app_nil_r in *. destruct s as [|c s]; [done|]. cbn [app tokens endsBefore] in *. by rewrite He.
  - destruct Hw as [Hc Hw]. cbn [app tokens]. rewrite Hc. rewrite IH.
    + by rewrite <-app_assoc.
    + by rewrite last_snoc.
    + by destruct w.
    + by rewrite <-app_assoc.
Qed.

Lemma valid_tokens ts : valid ts -> tokens None (tokensText ts) = ts.
Proof.
  induction ts as [|[c|w] ts IH]; intros H; [done| |].
  - destruct H as [Hc H]. unfold tokensText in *. cbn [map concat tokenText app tokens].
    rewrite Hc. by rewrite IH.
  - destruct H as (Hw & He & H). destruct w as [|c w]; [done|]. destruct Hw as [Hc Hw].
    unfold tokensText in *. cbn [map concat tokenText app tokens]. rewrite Hc.
    by rewrite (tokens_word [c] w), IH.
Qed.

Lemma valid_app ts ts' : valid (ts ++ ts') -> valid ts /\ valid ts'.
Proof.
  induction ts as [|[c|w] ts IH]; intros H; [done| |]; cbn [app valid] in H.
  - destruct H as [Hc [H1 H2]%IH]. done.
  - destruct H as (Hw & He & [H1 H2]%IH). split; [|done]. split_and!; [done| |done].
    rewrite tokensText_app in He. by destruct (tokensText ts).
Qed.

(** What follows a word does not start with a digit. *)
Lemma endsBefore_digit w s : endsBefore w s -> isDigit (default NUL (head s)) = false.
Proof.
  destruct s as [|c s]; [done|]. cbn. unfold id.
  assert (forall b, isWordEnd c b = true -> isDigit c = false) as H; [|apply H].
  intros b. unfold isWordEnd.
  assert (implb (Ascii.eqb c "_" || Ascii.eqb c NUL || isUpperLetter c) (negb (isDigit c)) = true) as H.
  { revert c. apply ascii_forall. vm_compute. reflexivity. }
  revert H. destruct (Ascii.eqb c "_" || Ascii.eqb c NUL); cbn [orb implb].
  - by intros ?%negb_true_iff.
  - destruct (isUpperLetter c); [by intros ?%negb_true_iff|]. by rewrite andb_false_r.
Qed.

(** ** Recording words *)

Definition addWord (T : list str) (w : str) : list str :=
  if (2 <=? length w)%nat && (length T <? 26)%nat then T ++ [w] else T.

Definition addToken (T : list str) (t : token) : list str :=
  match t with Gap _ => T | Word w => addWord T w end.

Definition addTokens (T : list str) (ts : list token) : list str := fold_left addToken ts T.

Lemma addWord_length T w : (length T <= 26)%nat -> (length (addWord T w) <= 26)%nat.
Proof.
  intros H. unfold addWord. destruct (Nat.ltb_spec (length T) 26); [|by rewrite andb_false_r].
  destruct (_ <=? _)%nat; [|done]. cbn [andb]. rewrite length_app. cbn. lia.
Qed.

Lemma addTokens_length T ts : (length T <= 26)%nat -> (length (addTokens T ts) <= 26)%nat.
Proof.
  revert T. induction ts as [|[c|w] ts IH]; intros T H; [done|by apply IH|]. by apply IH, addWord_length.
Qed.

Lemma addTokens_app T ts ts' : addTokens T (ts ++ ts') = addTokens (addTokens T ts) ts'.
Proof. apply fold_left_app. Qed.

(** Where a scanning loop stands: in front of [s], after [pre] and the part
    [cur] of a word. *)
Definition wordStart (pre : str) (cur : option str) : option nat :=
  match cur with Some _ => Some (length pre) | None => None end.

Lemma lookup_scan (pre w s : str) :
  default NUL ((pre ++ w ++ s) !! (length pre + length w)%nat) = default NUL (head s).
Proof.
  rewrite lookup_app_r, lookup_app_r by lia.
  replace (length pre + length w - length pre - length w)%nat with 0%nat by lia. by destruct s.
Qed.

Lemma lookup_scan_prev (pre w s : str) :
  w <> [] ->
  default NUL ((pre ++ w ++ s) !! (length pre + length w - 1)%nat) = last w NUL.
Proof.
  intros Hw. destruct (exists_last Hw) as (w' & c & ->). rewrite last_snoc, length_app. cbn [length].
  rewrite lookup_app_r by lia. rewrite <-app_assoc, lookup_app_r by lia.
  by replace (length pre + (length w' + 1) - 1 - length pre - length w')%nat with 0%nat by lia.
Qed.

Lemma substr_scan (pre w s : str) : substr (pre ++ w ++ s) (length pre) (length w) = w.
Proof. unfold substr. by rewrite drop_app_length, take_app_length. Qed.

Lemma isWordStart_NUL : isWordStart NUL = false.
Proof. done. Qed.

(** The loop of [demangleIdentifier] that records the words of a slice. *)
Lemma scanWords_tokens s : forall pre cur W,
  (forall w, cur = Some w -> w <> []) ->
  scanWords (S (length s)) (pre ++ default [] cur ++ s) (length pre + length (default [] cur))
    (wordStart pre cur) W
  = addTokens W (tokens cur s).
Proof.
  induction s as [|c s IH]; intros pre cur W Hcur.
  - cbn [length scanWords]. rewrite lookup_scan. cbn [head default]. destruct cur as [w|]; [|done].
    cbn [wordStart default]. unfold id. rewrite Nat.add_sub', substr_scan.
    cbn [tokens addTokens fold_left addToken]. unfold addWord. done.
  - cbn [length]. remember (S (length s)) as n eqn:En. cbn [scanWords]. rewrite lookup_scan.
    cbn [head default]. unfold id at 1 2 3 4 5.
    assert (forall pre W, scanWords n (pre ++ c :: s) (length pre + 1)
        (if isWordStart c then Some (length pre) else None) W
      = addTokens W (if isWordStart c then tokens (Some [c]) s else Gap c :: tokens None s)) as Hstart.
    { intros pre' W'. destruct (isWordStart c).
      - apply (IH pre' (Some [c]) W'). by intros ? [= <-].
      - pose proof (IH (pre' ++ [c]) None W' ltac:(done)) as H. cbn [default app length wordStart] in H.
        unfold id in H. rewrite <-app_assoc, length_app, Nat.add_0_r in H. apply H. }
    destruct cur as [w|]; cbn [wordStart default tokens].
    + specialize (Hcur w eq_refl). rewrite lookup_scan_prev by done. unfold id.
      destruct (isWordEnd c (last w NUL)) eqn:E.
      * cbn [addTokens fold_left addToken]. rewrite Nat.add_sub', substr_scan. fold (addWord W w).
        specialize (Hstart (pre ++ w) (addWord W w)). rewrite <-app_assoc, length_app in Hstart.
        apply Hstart.
      * pose proof (IH pre (Some (w ++ [c])) W) as H. cbn [default wordStart] in H. unfold id in H.
        rewrite <-app_assoc, length_app in H. cbn [length app] in H. rewrite Nat.add_assoc in H.
        apply H. intros ? [= <-]. by destruct w.
    + specialize (Hstart pre W). cbn [app length]. rewrite Nat.add_0_r. apply Hstart.
Qed.

(** For a whole slice. *)
Lemma scanWords_slice Slice W :
  scanWords (S (length Slice)) Slice 0 None W = addTokens W (tokens None Slice).
Proof. by apply (scanWords_tokens Slice [] None W). Qed.
