(* ===== verification/IdentifierEncoding.v ===== *)
(** * How an identifier is encoded

    [mangleIdentifier] as a function on tokens: which words are replaced by
    references to earlier ones ([plan]) and what is written for the result
    ([render]). The loops of the code are shown to follow the two. *)

From Stdlib Require Import String.
From S2P Require Import Prelude Nodes ManglingUtils Punycode IdentifierMangling Demangler Numbers IdentifierTokens.

(** ** Finding words *)

(** The first index at which [T] holds [w]. *)
Fixpoint indexOf (w : str) (T : list str) : option nat :=
  match T with
  | [] => None
  | t :: T => if str_eqb w t then Some O else S <$> indexOf w T
  end.

Lemma indexOf_lookup w T i : indexOf w T = Some i -> T !! i = Some w.
Proof.
  revert i. induction T as [|t T IH]; intros i; cbn; [done|]. unfold str_eqb.
  destruct (bool_decide_reflect (w = t)) as [->|]; [by intros [= <-]|].
  destruct (indexOf w T) as [j|]; [|done]. intros [= <-]. by apply IH.
Qed.

Lemma indexOf_app w T T' :
  indexOf w (T ++ T') =
  match indexOf w T with Some i => Some i | None => Nat.add (length T) <$> indexOf w T' end.
Proof.
  induction T as [|t T IH]; cbn; [by destruct (indexOf w T')|]. destruct (str_eqb w t); [done|].
  rewrite IH. destruct (indexOf w T); [done|]. by destruct (indexOf w T').
Qed.

(** ** The words of the mangler *)

Definition wordText (s : str) (w : SubstitutionWord) : str := substr s (start w) (length_ w).

(** The texts of the words: the first [n] are in the buffer, the others in the
    identifier. *)
Definition wordTexts (buf ident : str) (n : nat) (ws : list SubstitutionWord) : list str :=
  map (wordText buf) (take n ws) ++ map (wordText ident) (drop n ws).

Lemma lookupWord_from_spec w s ws Idx :
  lookupWord_from w s ws Idx =
  match indexOf w (map (wordText s) ws) with Some i => Idx + Z.of_nat i | None => -1 end.
Proof.
  revert Idx. induction ws as [|x ws IH]; intros Idx; cbn [lookupWord_from map indexOf]; [done|].
  unfold wordText at 1. destruct (str_eqb w _); [lia|]. rewrite IH.
  destruct (indexOf w (map (wordText s) ws)); cbn; [lia|done].
Qed.

Lemma lookupWord_spec w buf ident ws n :
  (n <= length ws)%nat ->
  (let i := lookupWord w buf ws 0 n in if i <? 0 then lookupWord w ident ws n (length ws) else i)
  = match indexOf w (wordTexts buf ident n ws) with Some i => Z.of_nat i | None => -1 end.
Proof.
  intros Hn. unfold lookupWord, wordTexts. rewrite !lookupWord_from_spec, Nat.sub_0_r, drop_0, indexOf_app.
  rewrite (take_ge (drop n ws)) by (rewrite length_drop; lia).
  destruct (indexOf w (map (wordText buf) (take n ws))) as [i|]; cbv zeta.
  - destruct (Z.ltb_spec (Z.of_nat 0 + Z.of_nat i) 0); lia.
  - change (-1 <? 0) with true. cbv iota. rewrite length_map, length_take, Nat.min_l by done.
    destruct (indexOf w _) as [i|]; cbn; [lia|done].
Qed.

(** ** Planning *)

(** Words that are replaced split the tokens into segments: the tokens before
    the word, its index and its text. *)
Record segment := mkSegment { seg_before : list token; seg_index : nat; seg_word : str }.

Fixpoint plan (T : list str) (lits ts : list token) : list segment * list token :=
  match ts with
  | [] => ([], lits)
  | Gap c :: ts => plan T (lits ++ [Gap c]) ts
  | Word w :: ts =>
      match indexOf w T with
      | Some i => let '(segs, tail) := plan T [] ts in (mkSegment lits i w :: segs, tail)
      | None => plan (addWord T w) (lits ++ [Word w]) ts
      end
  end.

(** The words that the tokens at position [p] add. *)
Fixpoint newWords (T : list str) (p : nat) (ts : list token) : list SubstitutionWord :=
  match ts with
  | [] => []
  | Gap c :: ts => newWords T (p + 1) ts
  | Word w :: ts =>
      (if (2 <=? length w)%nat && (length T <? 26)%nat then [mkWord p (length w)] else [])
      ++ newWords (addWord T w) (p + length w) ts
  end.

Definition width (ts : list token) : nat := length (tokensText ts).

(** The words and the replacements of a plan at position [p]. *)
Fixpoint planWords (T : list str) (p : nat) (segs : list segment) (tail : list token)
    : list SubstitutionWord :=
  match segs with
  | [] => newWords T p tail
  | seg :: segs =>
      newWords T p (seg_before seg)
      ++ planWords (addTokens T (seg_before seg)) (p + width (seg_before seg) + length (seg_word seg))
           segs tail
  end.

Fixpoint planRepls (p : nat) (segs : list segment) : list WordReplacement :=
  match segs with
  | [] => []
  | seg :: segs =>
      mkRepl (p + width (seg_before seg)) (Z.of_nat (seg_index seg))
      :: planRepls (p + width (seg_before seg) + length (seg_word seg)) segs
  end.

Definition planText (segs : list segment) (tail : list token) : str :=
  concat (map (fun seg => tokensText (seg_before seg) ++ seg_word seg) segs) ++ tokensText tail.

(** The words known after a plan. *)
Definition planTexts (T : list str) (segs : list segment) (tail : list token) : list str :=
  addTokens (fold_left (fun T seg => addTokens T (seg_before seg)) segs T) tail.

(** Every reference of a plan is to a word that is known by then. *)
Fixpoint planned (T : list str) (segs : list segment) : Prop :=
  match segs with
  | [] => True
  | seg :: segs =>
      addTokens T (seg_before seg) !! seg_index seg = Some (seg_word seg)
      /\ planned (addTokens T (seg_before seg)) segs
  end.

(** The tokens of a plan, in the order of the identifier. *)
Definition planTokens (segs : list segment) (tail : list token) : list token :=
  concat (map (fun seg => seg_before seg ++ [Word (seg_word seg)]) segs) ++ tail.

Lemma planTokens_text segs tail : tokensText (planTokens segs tail) = planText segs tail.
Proof.
  unfold planTokens, planText. rewrite tokensText_app. f_equal.
  induction segs as [|seg segs IH]; [done|]. cbn [map concat]. rewrite !tokensText_app, IH. f_equal.
  unfold tokensText. cbn. by rewrite app_nil_r.
Qed.

Lemma plan_tokens T lits ts :
  planTokens (plan T lits ts).1 (plan T lits ts).2 = lits ++ ts.
Proof.
  revert T lits. induction ts as [|[c|w] ts IH]; intros T lits; cbn [plan].
  - by rewrite app_nil_r.
  - rewrite IH. by rewrite <-app_assoc.
  - destruct (indexOf w T) as [i|].
    + specialize (IH T []). destruct (plan T [] ts) as [segs tail]. cbn [fst snd] in *.
      unfold planTokens in *. cbn [map concat seg_before seg_word]. cbn [app] in IH.
      rewrite <-!app_assoc. cbn [app]. by rewrite IH.
    + rewrite IH. by rewrite <-app_assoc.
Qed.

Lemma plan_planned T0 lits ts :
  planned T0 (plan (addTokens T0 lits) lits ts).1.
Proof.
  revert T0 lits. induction ts as [|[c|w] ts IH]; intros T0 lits; cbn [plan].
  - done.
  - specialize (IH T0 (lits ++ [Gap c])). rewrite addTokens_app in IH. exact IH.
  - destruct (indexOf w (addTokens T0 lits)) as [i|] eqn:E.
    + specialize (IH (addTokens T0 lits) []). cbn [addTokens fold_left] in IH. fold (addTokens T0 lits) in IH.
      destruct (plan _ [] ts) as [segs tail]. cbn [fst planned seg_before seg_index seg_word] in *.
      split; [by apply indexOf_lookup|exact IH].
    + specialize (IH T0 (lits ++ [Word w])). rewrite addTokens_app in IH. exact IH.
Qed.

(** ** The search for words *)

(** The new words and the replacements for tokens at position [p]. *)
Fixpoint scanTokens (T : list str) (p : nat) (ts : list token)
    : list SubstitutionWord * list WordReplacement :=
  match ts with
  | [] => ([], [])
  | Gap c :: ts => scanTokens T (p + 1) ts
  | Word w :: ts =>
      match indexOf w T with
      | Some i =>
          let '(ws, rs) := scanTokens T (p + length w) ts in (ws, mkRepl p (Z.of_nat i) :: rs)
      | None =>
          let '(ws, rs) := scanTokens (addWord T w) (p + length w) ts in
          ((if (2 <=? length w)%nat && (length T <? 26)%nat then [mkWord p (length w)] else []) ++ ws, rs)
      end
  end.

Lemma width_app ts ts' : width (ts ++ ts') = (width ts + width ts')%nat.
Proof. unfold width. by rewrite tokensText_app, length_app. Qed.

Lemma newWords_app T p ts ts' :
  newWords T p (ts ++ ts') = newWords T p ts ++ newWords (addTokens T ts) (p + width ts) ts'.
Proof.
  revert T p. induction ts as [|[c|w] ts IH]; intros T p; cbn [app newWords].
  - unfold width. cbn. by rewrite Nat.add_0_r.
  - rewrite IH. change (Gap c :: ts) with ([Gap c] ++ ts). rewrite addTokens_app, width_app.
    change (width [Gap c]) with 1%nat. rewrite Nat.add_assoc. done.
  - rewrite IH. change (Word w :: ts) with ([Word w] ++ ts). rewrite addTokens_app, width_app.
    assert (width [Word w] = length w) as -> by (unfold width, tokensText; cbn; by rewrite app_nil_r).
    by rewrite Nat.add_assoc, app_assoc.
Qed.

Lemma scanTokens_plan ts : forall T0 p lits segs tail,
  plan (addTokens T0 lits) lits ts = (segs, tail) ->
  newWords T0 p lits ++ (scanTokens (addTokens T0 lits) (p + width lits) ts).1 = planWords T0 p segs tail
  /\ (scanTokens (addTokens T0 lits) (p + width lits) ts).2 = planRepls p segs.
Proof.
  induction ts as [|[c|w] ts IH]; intros T0 p lits segs tail Hp; cbn [plan scanTokens] in *.
  - injection Hp as <- <-. cbn. by rewrite app_nil_r.
  - destruct (IH T0 p (lits ++ [Gap c]) segs tail) as [H1 H2]; [by rewrite addTokens_app|].
    rewrite newWords_app, addTokens_app, width_app, Nat.add_assoc in *. cbn [newWords] in H1.
    rewrite app_nil_r in H1. done.
  - destruct (indexOf w (addTokens T0 lits)) as [i|] eqn:E.
    + destruct (plan (addTokens T0 lits) [] ts) as [segs' tail'] eqn:Hp'. injection Hp as <- <-.
      destruct (IH (addTokens T0 lits) (p + width lits + length w)%nat [] segs' tail' Hp') as [H1 H2].
      unfold width at 1 in H1. unfold width at 1 in H2. cbn [tokensText map concat length] in H1, H2.
      cbn [newWords app addTokens fold_left] in H1, H2. fold (addTokens T0 lits) in H1, H2.
      rewrite Nat.add_0_r in H1, H2. cbn [planWords planRepls seg_before seg_index seg_word].
      destruct (scanTokens _ _ ts) as [ws rs]. cbn [fst snd] in *. by rewrite H1, H2.
    + destruct (IH T0 p (lits ++ [Word w]) segs tail) as [H1 H2]; [by rewrite addTokens_app|].
      rewrite newWords_app, addTokens_app, width_app, Nat.add_assoc in *. cbn [newWords] in H1.
      assert (width [Word w] = length w) as Hw by (unfold width, tokensText; cbn; by rewrite app_nil_r).
      rewrite Hw in *. cbn [addTokens fold_left addToken] in H1, H2. fold (addTokens T0 lits) in *.
      destruct (scanTokens (addWord _ _) _ ts) as [ws rs]. cbn [fst snd] in *.
      rewrite app_nil_r, <-app_assoc in H1. done.
Qed.

Lemma wordText_scan pre w s : wordText (pre ++ w ++ s) (mkWord (length pre) (length w)) = w.
Proof. apply substr_scan. Qed.

Lemma wordTexts_snoc buf pre w s n ws :
  (n <= length ws)%nat ->
  wordTexts buf (pre ++ w ++ s) n (ws ++ [mkWord (length pre) (length w)])
  = wordTexts buf (pre ++ w ++ s) n ws ++ [w].
Proof.
  intros Hn. unfold wordTexts. rewrite take_app_le, drop_app_le, map_app, app_assoc by done.
  cbn [map]. by rewrite wordText_scan.
Qed.

Section scan.
Context {St : Type} `{Mangler St} (Hmax : MaxNumWords = 26%nat).

(** What the loop does at the end of a word. *)
Definition scanWord (T : list str) (p : nat) (w : str) (Words : list SubstitutionWord)
    (SubstWords : list WordReplacement) : list SubstitutionWord * list WordReplacement :=
  match indexOf w T with
  | Some i => (Words, SubstWords ++ [mkRepl p (Z.of_nat i)])
  | None =>
      (Words ++ (if (2 <=? length w)%nat && (length T <? 26)%nat then [mkWord p (length w)] else []),
       SubstWords)
  end.

Lemma scanTokens_cons T p w ts Words SubstWords :
  let T' := match indexOf w T with Some _ => T | None => addWord T w end in
  (Words ++ (scanTokens T p (Word w :: ts)).1, SubstWords ++ (scanTokens T p (Word w :: ts)).2)
  = ((scanWord T p w Words SubstWords).1 ++ (scanTokens T' (p + length w) ts).1,
     (scanWord T p w Words SubstWords).2 ++ (scanTokens T' (p + length w) ts).2).
Proof.
  cbn [scanTokens]. unfold scanWord. destruct (indexOf w T) as [i|]; destruct (scanTokens _ _ ts) as [ws rs];
    cbn [fst snd]; by rewrite <-app_assoc.
Qed.

Lemma scanWord_texts buf pre w s n T Words SubstWords :
  (n <= length Words)%nat -> wordTexts buf (pre ++ w ++ s) n Words = T ->
  let Words' := (scanWord T (length pre) w Words SubstWords).1 in
  (n <= length Words')%nat
  /\ wordTexts buf (pre ++ w ++ s) n Words'
     = match indexOf w T with Some _ => T | None => addWord T w end.
Proof.
  intros Hn HT. unfold scanWord, addWord. destruct (indexOf w T); cbn [fst]; [done|].
  destruct (_ && _); [|by rewrite app_nil_r]. rewrite length_app, wordTexts_snoc, HT by done.
  split; [lia|done].
Qed.

Lemma scanIdent_word pre w s n T Words SubstWords (st : St) :
  w <> [] -> (n <= length Words)%nat -> (length T <= 26)%nat ->
  wordTexts (getBuffer st) (pre ++ w ++ s) n Words = T ->
  (_ <- assert "mangleIdentifier: Pos > wordStartPos" (length pre <? length pre + length w)%nat ;;
   let wordLen := (length pre + length w - length pre)%nat in
   let Word := substr (pre ++ w ++ s) (length pre) wordLen in
   buf <- gets getBuffer ;;
   let WordIdx := lookupWord Word buf Words 0 n in
   let WordIdx :=
     if WordIdx <? 0
     then lookupWord Word (pre ++ w ++ s) Words n (length Words)
     else WordIdx in
   if 0 <=? WordIdx then
     _ <- assert "mangleIdentifier: WordIdx < 26" (WordIdx <? 26) ;;
     ret (@None nat, Words, SubstWords ++ [mkRepl (length pre) WordIdx])
   else if (2 <=? wordLen)%nat && (length Words <? MaxNumWords)%nat then
     ret (None, Words ++ [mkWord (length pre) wordLen], SubstWords)
   else ret (None, Words, SubstWords)) st
  = Ok ((None, (scanWord T (length pre) w Words SubstWords).1,
         (scanWord T (length pre) w Words SubstWords).2), st).
Proof.
  intros Hw Hn HT26 HT.
  assert (length pre <? length pre + length w = true)%nat as ->.
  { apply Nat.ltb_lt. destruct w; [done|cbn; lia]. }
  cbv zeta. rewrite Nat.add_sub', substr_scan. unfold bind at 1 2. cbn [assert ret gets].
  rewrite (lookupWord_spec w (getBuffer st) (pre ++ w ++ s) Words n) by done. rewrite HT.
  assert (length Words = length T) as Hlen.
  { rewrite <-HT. unfold wordTexts. rewrite length_app, !length_map, length_take, length_drop. lia. }
  unfold scanWord. destruct (indexOf w T) as [i|] eqn:E.
  - destruct (Z.leb_spec 0 (Z.of_nat i)); [|lia]. apply indexOf_lookup, lookup_lt_Some in E.
    destruct (Z.ltb_spec (Z.of_nat i) 26); [done|lia].
  - change (0 <=? -1) with false. cbv iota. rewrite Hmax, Hlen. destruct (_ && _); [done|].
    by rewrite app_nil_r.
Qed.

Lemma scanIdent_tokens s : forall pre cur n T Words SubstWords (st : St),
  (forall w, cur = Some w -> w <> []) -> (n <= length Words)%nat -> (length T <= 26)%nat ->
  wordTexts (getBuffer st) (pre ++ default [] cur ++ s) n Words = T ->
  scanIdent (S (length s)) (pre ++ default [] cur ++ s) n (length pre + length (default [] cur))
    (wordStart pre cur) Words SubstWords st
  = Ok ((Words ++ (scanTokens T (length pre) (tokens cur s)).1,
         SubstWords ++ (scanTokens T (length pre) (tokens cur s)).2), st).
Proof.
  induction s as [|c s IH]; intros pre cur n T Words SubstWords st Hcur Hn HT26 HT.
  - cbn [length]. unfold scanIdent. rewrite lookup_scan. cbn [head default].
    destruct cur as [w|]; cbn [wordStart default tokens] in *; [|by rewrite !app_nil_r].
    unfold id in *. change (isWordEnd NUL _) with true. cbv iota.
    rewrite (bind_ok _ _ _ _ _ (scanIdent_word pre w [] n T Words SubstWords st (Hcur w eq_refl) Hn HT26 HT)).
    cbv beta iota. unfold ret. f_equal. f_equal. rewrite (scanTokens_cons T _ w []). cbn [scanTokens fst snd].
    rewrite !app_nil_r. by destruct (scanWord _ _ _ _ _).
  - cbn [length]. remember (S (length s)) as k eqn:Ek. cbn [scanIdent]. rewrite lookup_scan.
    cbn [head default]. unfold id at 2 3 4.
    assert (forall pre T Words SubstWords, (n <= length Words)%nat -> (length T <= 26)%nat ->
      wordTexts (getBuffer st) (pre ++ c :: s) n Words = T ->
      scanIdent k (pre ++ c :: s) n (length pre + 1)
        (if isWordStart c then Some (length pre) else None) Words SubstWords st
      = Ok ((Words ++ (scanTokens T (length pre)
               (if isWordStart c then tokens (Some [c]) s else Gap c :: tokens None s)).1,
             SubstWords ++ (scanTokens T (length pre)
               (if isWordStart c then tokens (Some [c]) s else Gap c :: tokens None s)).2), st)) as Hstart.
    { clear pre cur T Words SubstWords Hcur Hn HT26 HT. intros pre T Words SubstWords Hn HT26 HT.
      destruct (isWordStart c).
      - apply (IH pre (Some [c]) n T Words SubstWords st); [by intros ? [= <-]|done..].
      - pose proof (IH (pre ++ [c]) None n T Words SubstWords st ltac:(done) Hn HT26) as H1.
        cbn [default app length wordStart] in H1. unfold id in H1.
        rewrite <-app_assoc, length_app, Nat.add_0_r in H1. by apply H1. }
    destruct cur as [w|]; cbn [wordStart default tokens] in *; unfold id in *.
    + specialize (Hcur w eq_refl). rewrite lookup_scan_prev by done.
      destruct (isWordEnd c (last w NUL)) eqn:E.
      * rewrite (bind_ok _ _ _ _ _ (scanIdent_word pre w (c :: s) n T Words SubstWords st Hcur Hn HT26 HT)).
        cbv beta iota. destruct (scanWord_texts (getBuffer st) pre w (c :: s) n T Words SubstWords Hn HT)
          as [Hn' HT']. cbv zeta in Hn', HT'.
        set (T' := match indexOf w T with Some _ => T | None => addWord T w end) in *.
        specialize (Hstart (pre ++ w) T' (scanWord T (length pre) w Words SubstWords).1
          (scanWord T (length pre) w Words SubstWords).2 Hn').
        rewrite <-app_assoc, length_app in Hstart. rewrite Hstart; [|unfold T'; destruct (indexOf w T); [done|by apply addWord_length]|done].
        do 2 f_equal. by rewrite scanTokens_cons.
      * pose proof (IH pre (Some (w ++ [c])) n T Words SubstWords st) as H1.
        cbn [default wordStart] in H1. unfold id in H1.
        rewrite <-app_assoc, length_app in H1. cbn [length app] in H1. rewrite Nat.add_assoc in H1.
        apply H1; [intros ? [= <-]; by destruct w|done..].
    + specialize (Hstart pre T Words SubstWords Hn HT26 HT). cbn [app length]. rewrite Nat.add_0_r.
      apply Hstart.
Qed.
End scan.

(** ** Writing *)

(** Words in the order of their positions, which lie in [lo, hi). *)
Fixpoint inOrder (lo hi : nat) (ws : list SubstitutionWord) : Prop :=
  match ws with
  | [] => True
  | w :: ws => (lo <= start w < hi)%nat /\ inOrder (S (start w)) hi ws
  end.

Lemma inOrder_weaken lo lo' hi ws : (lo' <= lo)%nat -> inOrder lo hi ws -> inOrder lo' hi ws.
Proof. destruct ws as [|w ws]; cbn; [done|]. intros ? [? ?]. split; [lia|done]. Qed.

(** The words that tokens add lie in the text of the tokens, wherever that is. *)
Lemma newWords_inOrder T p ts :
  inOrder p (p + width ts) (newWords T p ts)
  /\ Forall (fun w => (start w + length_ w <= p + width ts)%nat) (newWords T p ts).
Proof.
  revert T p. induction ts as [|[c|w] ts IH]; intros T p; cbn [newWords].
  - split; [done|constructor].
  - destruct (IH T (p + 1)%nat) as [H1 H2]. change (Gap c :: ts) with ([Gap c] ++ ts).
    rewrite width_app. change (width [Gap c]) with 1%nat. rewrite Nat.add_assoc. split; [|done].
    eapply inOrder_weaken; [|done]. lia.
  - destruct (IH (addWord T w) (p + length w)%nat) as [H1 H2]. change (Word w :: ts) with ([Word w] ++ ts).
    rewrite width_app. assert (width [Word w] = length w) as Hw by (unfold width, tokensText; cbn; by rewrite app_nil_r).
    rewrite Hw, Nat.add_assoc. destruct (Nat.leb_spec 2 (length w)); cbn [andb].
    + destruct (_ <? _)%nat; cbn [app].
      * split; [|constructor; [cbn; lia|done]]. split; [cbn; lia|]. eapply inOrder_weaken; [|done]. cbn. lia.
      * split; [|done]. eapply inOrder_weaken; [|done]. lia.
    + split; [|done]. eapply inOrder_weaken; [|done]. lia.
Qed.

(** Moved from position [p] to position [q]. *)
Definition shiftWord (p q : nat) (w : SubstitutionWord) : SubstitutionWord :=
  mkWord (q + (start w - p)) (length_ w).

Lemma newWords_shift T p q ts : map (shiftWord p q) (newWords T p ts) = newWords T q ts.
Proof.
  assert (forall d, map (shiftWord p q) (newWords T (p + d) ts) = newWords T (q + d) ts) as H.
  { revert T. induction ts as [|[c|w] ts IH]; intros T d; cbn [newWords]; [done| |].
    - by rewrite <-!Nat.add_assoc, IH.
    - rewrite map_app, <-!Nat.add_assoc, IH. f_equal. destruct (_ && _); [|done].
      cbn [map]. unfold shiftWord. cbn [start length_]. do 2 f_equal. lia. }
  specialize (H 0%nat). by rewrite !Nat.add_0_r in H.
Qed.

Lemma newWords_texts T pre ts post :
  addTokens T ts = T ++ map (wordText (pre ++ tokensText ts ++ post)) (newWords T (length pre) ts).
Proof.
  revert T pre. induction ts as [|[c|w] ts IH]; intros T pre; cbn [newWords].
  - by rewrite app_nil_r.
  - change (addTokens T (Gap c :: ts)) with (addTokens T ts). rewrite (IH T (pre ++ [c])).
    rewrite length_app, <-app_assoc. done.
  - change (addTokens T (Word w :: ts)) with (addTokens (addWord T w) ts).
    rewrite (IH (addWord T w) (pre ++ w)), length_app.
    change (tokensText (Word w :: ts)) with (w ++ tokensText ts). rewrite map_app, <-!app_assoc.
    unfold addWord at 1. destruct (_ && _); [|done]. cbn [map]. rewrite wordText_scan.
    by rewrite <-app_assoc.
Qed.

Lemma substr_app (s t : str) i n : (i + n <= length s)%nat -> substr (s ++ t) i n = substr s i n.
Proof.
  intros H. unfold substr. rewrite drop_app_le by lia. rewrite take_app_le; [done|].
  rewrite length_drop. lia.
Qed.

(** The words that are in the buffer, with their texts. *)
Definition inBuffer (buf : str) (ws : list SubstitutionWord) (T : list str) : Prop :=
  map (wordText buf) ws = T /\ Forall (fun w => (start w + length_ w <= length buf)%nat) ws.

Lemma inBuffer_app buf ws T t : inBuffer buf ws T -> inBuffer (buf ++ t) ws T.
Proof.
  intros [<- Hr]. split; [|eapply Forall_impl; [|exact Hr]; cbn; intros; rewrite length_app; lia].
  induction Hr as [|w ws Hw _ IH]; [done|]. cbn [map]. rewrite IH. f_equal. by apply substr_app.
Qed.

(** The words of tokens that have been copied to the buffer. *)
Lemma inBuffer_newWords buf ws T ts :
  inBuffer buf ws T ->
  inBuffer (buf ++ tokensText ts) (ws ++ newWords T (length buf) ts) (addTokens T ts).
Proof.
  intros H. pose proof (inBuffer_app _ _ _ (tokensText ts) H) as [H1 H2].
  pose proof (newWords_texts T buf ts []) as Ht. rewrite app_nil_r in Ht. split.
  - by rewrite map_app, H1, Ht.
  - apply Forall_app_2; [done|]. rewrite length_app.
    destruct (newWords_inOrder T (length buf) ts) as [_ Hr]. exact Hr.
Qed.

(** What is written for tokens that are not replaced, and for a plan. *)
Definition renderTokens (ts : list token) : str :=
  if (0 <? width ts)%nat then decimal (Z.of_nat (width ts)) ++ tokensText ts else [].

Fixpoint renderPlan (segs : list segment) (tail : list token) : str :=
  match segs with
  | [] => renderTokens tail
  | seg :: segs =>
      renderTokens (seg_before seg)
      ++ match segs with
         | [] => [chr (Z.of_nat (seg_index seg) + ord "A")] ++ (if (0 <? width tail)%nat then [] else lit "0")
         | _ => [chr (Z.of_nat (seg_index seg) + ord "a")]
         end
      ++ renderPlan segs tail
  end.

(** Whether what follows may be written after a number. *)
Definition noDigit (s : str) : Prop := isDigit (default NUL (head s)) = false.

Lemma inOrder_starts lo hi ws : inOrder lo hi ws -> Forall (fun w => (lo <= start w)%nat) ws.
Proof.
  revert lo. induction ws as [|w ws IH]; intros lo; cbn; [constructor|]. intros [Hw H].
  constructor; [lia|]. eapply Forall_impl; [|by apply IH in H]. cbn. lia.
Qed.

Lemma map_shift_succ p q hi ws :
  inOrder (p + 1) hi ws -> map (shiftWord (p + 1) (q + 1)) ws = map (shiftWord p q) ws.
Proof.
  intros H%inOrder_starts. apply map_ext_in. intros w Hw. rewrite List.Forall_forall in H.
  specialize (H w Hw). unfold shiftWord. f_equal. lia.
Qed.

Lemma newWords_starts T p ts : Forall (fun w => (p <= start w)%nat) (newWords T p ts).
Proof. by eapply inOrder_starts, newWords_inOrder. Qed.

Lemma planWords_starts T p segs tail : Forall (fun w => (p <= start w)%nat) (planWords T p segs tail).
Proof.
  revert T p. induction segs as [|seg segs IH]; intros T p; cbn [planWords]; [apply newWords_starts|].
  apply Forall_app_2; [apply newWords_starts|]. eapply Forall_impl; [|apply IH]. cbn. lia.
Qed.

Lemma newWords_empty T p ts : width ts = 0%nat -> newWords T p ts = [].
Proof.
  intros Hw. destruct (newWords_inOrder T p ts) as [H _]. rewrite Hw in H.
  destruct (newWords T p ts); [done|]. cbn in H. lia.
Qed.

Lemma length_addTokens T p ts : (length (addTokens T ts) = length T + length (newWords T p ts))%nat.
Proof.
  rewrite (newWords_texts T [] ts []), length_app, length_map. cbn [length].
  by rewrite <-(newWords_shift T p 0 ts), length_map.
Qed.

Lemma planText_cons seg segs tail :
  planText (seg :: segs) tail = tokensText (seg_before seg) ++ seg_word seg ++ planText segs tail.
Proof. unfold planText. cbn [map concat]. by rewrite <-!app_assoc. Qed.

Lemma planTokens_cons seg segs tail :
  planTokens (seg :: segs) tail = seg_before seg ++ Word (seg_word seg) :: planTokens segs tail.
Proof. unfold planTokens. cbn [map concat]. by rewrite <-!app_assoc. Qed.

(** The pieces of a valid plan are valid, and after a word comes no digit. *)
Lemma valid_plan_cons seg segs tail :
  valid (planTokens (seg :: segs) tail) ->
  valid (seg_before seg) /\ valid (planTokens segs tail) /\ noDigit (planText segs tail).
Proof.
  rewrite planTokens_cons. intros [Hb (_ & He & Hv)]%valid_app. split_and!; [done|done|].
  rewrite planTokens_text in He. by eapply endsBefore_digit.
Qed.

(** A known word has the length of its text. *)
Lemma inBuffer_lookup buf ws T i w :
  inBuffer buf ws T -> T !! i = Some w -> exists x, ws !! i = Some x /\ length_ x = length w.
Proof.
  intros [HT Hr] Hi. rewrite <-HT, list_lookup_fmap in Hi. destruct (ws !! i) as [x|] eqn:Hx; [|done].
  injection Hi as <-. exists x. split; [done|]. pose proof (Forall_lookup_1 _ _ _ _ Hr Hx) as H.
  cbn in H.
  unfold wordText, substr. rewrite length_take, length_drop. lia.
Qed.

Lemma length_planRepls p segs : length (planRepls p segs) = length segs.
Proof. revert p. induction segs as [|seg segs IH]; intros p; cbn; by rewrite ?IH. Qed.

Section write.
Context {St X : Type} `{Mangler St, !ManglerLaws St}.
(** The part of the state that a mangler keeps besides. *)
Context (other : St -> X).
Context (other_setBuffer : forall b s, other (setBuffer b s) = other s).
Context (other_setWords : forall w s, other (setWords w s) = other s).

Lemma emit_ok s (st : St) : emit s st = Ok (tt, setBuffer (getBuffer st ++ s) st).
Proof. done. Qed.

Lemma copySubstring_ok t : forall pre post st Done ws later,
  getWords st = Done ++ ws ++ later -> inOrder (length pre) (length pre + length t) ws ->
  Forall (fun w => (length pre + length t <= start w)%nat) later ->
  exists st', copySubstring (length t) (pre ++ t ++ post) (length pre) (length Done) st
                = Ok ((length Done + length ws)%nat, st')
    /\ getBuffer st' = getBuffer st ++ t
    /\ getWords st' = Done ++ map (shiftWord (length pre) (length (getBuffer st))) ws ++ later
    /\ other st' = other st.
Proof.
  induction t as [|c t IH]; intros pre post st Done ws later Hws Hord Hlater.
  - exists st. destruct ws as [|w ws]; [|cbn in Hord; lia]. cbn [length copySubstring app map].
    rewrite Nat.add_0_r, app_nil_r. done.
  - cbn [length copySubstring]. rewrite (bind_ok _ _ st (getWords st) st eq_refl).
    rewrite (bind_ok _ _ st (getBuffer st) st eq_refl).
    assert (default NUL ((pre ++ (c :: t) ++ post) !! length pre) = c) as Hc.
    { rewrite lookup_app_r, Nat.sub_diag by lia. done. }
    rewrite Hc. cbn [length] in Hord, Hlater.
    assert (forall st1 Done1 ws1, getWords st1 = Done1 ++ ws1 ++ later ->
      inOrder (length pre + 1) (length pre + S (length t)) ws1 ->
      exists st', (_ <- emit [c] ;; copySubstring (length t) (pre ++ (c :: t) ++ post) (length pre + 1) (length Done1)) st1
                  = Ok ((length Done1 + length ws1)%nat, st')
        /\ getBuffer st' = getBuffer st1 ++ c :: t
        /\ getWords st' = Done1 ++ map (shiftWord (length pre) (length (getBuffer st1))) ws1 ++ later
        /\ other st' = other st1) as Hrec.
    { intros st1 Done1 ws1 Hws1 Hord1. rewrite (bind_ok _ _ _ _ _ (emit_ok [c] st1)).
      destruct (IH (pre ++ [c]) post (setBuffer (getBuffer st1 ++ [c]) st1) Done1 ws1 later)
        as (st' & He & Hb & Hw & Ho).
      { by rewrite getWords_setBuffer. }
      { rewrite length_app. cbn [length]. by replace (length pre + 1 + length t)%nat with (length pre + S (length t))%nat by lia. }
      { eapply Forall_impl; [|exact Hlater]. cbn. intros w. rewrite length_app. cbn. lia. }
      rewrite <-app_assoc, length_app in He. exists st'. split; [exact He|].
      rewrite getBuffer_setBuffer in *. split; [by rewrite Hb, <-app_assoc|]. split; [|by rewrite Ho].
      rewrite Hw, !length_app. cbn [length]. by rewrite (map_shift_succ _ _ _ _ Hord1). }
    assert (((WordsInBuffer <-
          match getWords st !! length Done with
          | Some w =>
              if (start w =? length pre)%nat
              then modify (setWords (<[length Done:=mkWord (length (getBuffer st)) (length_ w)]> (getWords st))) ;;
                   ret (length Done + 1)%nat
              else ret (length Done)
          | None => ret (length Done)
          end ;;
          emit [c] ;;
          copySubstring (length t) (pre ++ (c :: t) ++ post) (length pre + 1) WordsInBuffer) st)
      = match ws with
        | w :: ws =>
            if (start w =? length pre)%nat
            then (emit [c] ;; copySubstring (length t) (pre ++ (c :: t) ++ post) (length pre + 1)
                    (length Done + 1))
                   (setWords (Done ++ mkWord (length (getBuffer st)) (length_ w) :: ws ++ later) st)
            else (emit [c] ;; copySubstring (length t) (pre ++ (c :: t) ++ post) (length pre + 1)
                    (length Done)) st
        | [] => (emit [c] ;; copySubstring (length t) (pre ++ (c :: t) ++ post) (length pre + 1)
                   (length Done)) st
        end) as ->.
    { rewrite Hws, lookup_app_r, Nat.sub_diag by lia. destruct ws as [|w ws].
      - cbn [app]. destruct Hlater as [|w later Hw _]; [done|]. cbn [lookup list_lookup].
        destruct (Nat.eqb_spec (start w) (length pre)); [lia|done].
      - cbn [app lookup list_lookup]. destruct (start w =? length pre)%nat; [|done].
        rewrite insert_app_r_alt, Nat.sub_diag by lia. done. }
    destruct ws as [|w ws]; [|destruct (Nat.eqb_spec (start w) (length pre)) as [Heq|Hne]].
    + by apply (Hrec st Done []).
    + destruct (Hrec (setWords (Done ++ mkWord (length (getBuffer st)) (length_ w) :: ws ++ later) st)
        (Done ++ [mkWord (length (getBuffer st)) (length_ w)]) ws) as (st' & He & Hb & Hw & Ho).
      { by rewrite getWords_setWords, <-app_assoc. }
      { destruct Hord as [_ Hord]. by rewrite Heq, <-Nat.add_1_r in Hord. }
      rewrite length_app in He. cbn [length] in *. rewrite getBuffer_setWords in *.
      exists st'. split; [rewrite He; do 2 f_equal; lia|]. split; [done|]. split; [|by rewrite Ho].
      rewrite Hw, <-app_assoc. cbn [app map]. unfold shiftWord at 2. by rewrite Heq, Nat.sub_diag, Nat.add_0_r.
    + apply (Hrec st Done (w :: ws)); [done|]. destruct Hord as [Hw Hord]. split; [lia|done].
Qed.

(** The sub-string in front of a replacement. *)
Lemma emitTokens_ok T ts pre post st Done later :
  getWords st = Done ++ newWords T (length pre) ts ++ later ->
  Forall (fun w => (length pre + width ts <= start w)%nat) later ->
  inBuffer (getBuffer st) Done T -> noDigit (tokensText ts ++ post) ->
  exists st' Done',
    (if (length pre <? length pre + width ts)%nat then
       _ <- emit (decimal (Z.of_nat (length pre + width ts - length pre))) ;;
       _ <- assert "mangleIdentifier: first char of sub-string may not be a digit"
              (negb (isDigit (default NUL ((pre ++ tokensText ts ++ post) !! length pre)))) ;;
       WordsInBuffer <- copySubstring (length pre + width ts - length pre)
                          (pre ++ tokensText ts ++ post) (length pre) (length Done) ;;
       ret ((length pre + width ts)%nat, WordsInBuffer)
     else ret (length pre, length Done)) st
    = Ok (((length pre + width ts)%nat, length Done'), st')
    /\ getBuffer st' = getBuffer st ++ renderTokens ts
    /\ getWords st' = Done' ++ later /\ inBuffer (getBuffer st') Done' (addTokens T ts)
    /\ other st' = other st.
Proof.
  intros Hws Hlater Hin Hnd. unfold renderTokens. destruct (Nat.ltb_spec 0 (width ts)) as [Hpos|Hz].
  - destruct (Nat.ltb_spec (length pre) (length pre + width ts)); [|lia].
    rewrite Nat.add_sub', (bind_ok _ _ _ _ _ (emit_ok _ st)).
    set (st1 := setBuffer _ st).
    assert (default NUL ((pre ++ tokensText ts ++ post) !! length pre) = default NUL (head (tokensText ts ++ post)))
      as -> by (rewrite lookup_app_r, Nat.sub_diag by lia; by destruct (tokensText ts ++ post)).
    rewrite Hnd. cbn [negb].
    destruct (copySubstring_ok (tokensText ts) pre post st1 Done (newWords T (length pre) ts) later)
      as (st' & He & Hb & Hw & Ho).
    { unfold st1. by rewrite getWords_setBuffer. }
    { apply newWords_inOrder. }
    { done. }
    exists st', (Done ++ newWords T (length (getBuffer st1)) ts).
    unfold bind at 1. cbn [assert ret]. fold (width ts) in He. rewrite (bind_ok _ _ _ _ _ He).
    rewrite length_app, <-(newWords_shift T (length pre) (length (getBuffer st1)) ts), length_map.
    split; [done|]. rewrite Hb. unfold st1 in *. rewrite getBuffer_setBuffer in *.
    split; [by rewrite app_assoc|]. split; [by rewrite Hw, <-app_assoc|]. split; [|by rewrite Ho].
    rewrite newWords_shift. by apply inBuffer_newWords, inBuffer_app.
  - assert (width ts = 0)%nat as Hz' by lia. rewrite Hz', Nat.add_0_r, Nat.ltb_irrefl.
    rewrite newWords_empty in Hws by done. exists st, Done. rewrite app_nil_r.
    split_and!; try done. rewrite (newWords_texts T pre ts post), newWords_empty, app_nil_r by done. done.
Qed.

(** The loop over the replacements. *)
Lemma emitReplacements_ok segs : forall tail T pre st Done,
  getWords st = Done ++ planWords T (length pre) segs tail ->
  inBuffer (getBuffer st) Done T -> (length T <= 26)%nat -> planned T segs ->
  valid (planTokens segs tail) -> noDigit (planText segs tail) ->
  exists st',
    emitReplacements (planRepls (length pre) segs ++ [mkRepl (length (pre ++ planText segs tail)) (-1)])
      (pre ++ planText segs tail) (length pre) (length Done) st = Ok (tt, st')
    /\ getBuffer st' = getBuffer st ++ renderPlan segs tail
    /\ inBuffer (getBuffer st') (getWords st') (planTexts T segs tail)
    /\ other st' = other st.
Proof.
  induction segs as [|seg segs IH]; intros tail T pre st Done Hws Hin H26 Hpl Hv Hnd.
  - destruct (emitTokens_ok T tail pre [] st Done []) as (st' & Done' & He & Hb & Hw & Hin' & Ho).
    { by rewrite app_nil_r. } { constructor. } { done. } { by rewrite app_nil_r. }
    unfold planText in *. cbn [map concat app] in *. rewrite app_nil_r in *.
    cbn [planRepls app emitReplacements StringPos WordIdx]. rewrite length_app. fold (width tail).
    rewrite (bind_ok _ _ _ _ _ He). cbv beta iota. exists st'. split; [done|].
    rewrite Hw. split_and!; done.
  - rewrite planText_cons in *. destruct (valid_plan_cons _ _ _ Hv) as (_ & Hv' & Hnd').
    cbn [planWords planned planRepls] in *. destruct Hpl as [Hidx Hpl].
    destruct seg as [b i w]. cbn [seg_before seg_index seg_word] in *.
    destruct (emitTokens_ok T b pre (w ++ planText segs tail) st Done
      (planWords (addTokens T b) (length pre + width b + length w) segs tail))
      as (st1 & Done1 & He & Hb & Hw & Hin1 & Ho); [done| |done|done|].
    { eapply Forall_impl; [|apply planWords_starts]. cbn. lia. }
    pose proof (addTokens_length T b H26) as H26'.
    destruct (inBuffer_lookup _ _ _ _ _ Hin1 Hidx) as (x & Hx & Hlen).
    assert (length Done1 = length (addTokens T b)) as Hd1 by (destruct Hin1 as [<- _]; by rewrite length_map).
    pose proof (lookup_lt_Some _ _ _ Hidx) as Hi.
    set (letter := match segs with
      | [] => [chr (Z.of_nat i + ord "A")] ++ (if (0 <? width tail)%nat then [] else lit "0")
      | _ => [chr (Z.of_nat i + ord "a")] end).
    destruct (IH tail (addTokens T b) (pre ++ tokensText b ++ w)
      (setBuffer (getBuffer st1 ++ letter) st1) Done1) as (st' & He' & Hb' & Hin' & Ho'); [| |done..|].
    { rewrite getWords_setBuffer, Hw, !length_app, Nat.add_assoc. done. }
    { rewrite getBuffer_setBuffer. by apply inBuffer_app. }
    exists st'. rewrite getBuffer_setBuffer in *. split.
    + cbn [app emitReplacements StringPos WordIdx]. rewrite (bind_ok _ _ _ _ _ He). cbv beta iota.
      destruct (Z.leb_spec 0 (Z.of_nat i)); [|lia]. destruct (Z.leb_spec (Z.of_nat i) (Z.of_nat (length Done1))); [|lia].
      rewrite (bind_ok _ _ st1 (length pre + width b + length w)%nat (setBuffer (getBuffer st1 ++ letter) st1)).
      { revert He'. rewrite !length_app, <-!app_assoc, !Nat.add_assoc. done. }
      unfold bind at 1 2. cbn [assert ret gets]. rewrite Hw, Nat2Z.id, lookup_app_l, Hx, Hlen by lia.
      rewrite length_app, length_planRepls. cbn [length]. unfold letter. destruct segs as [|seg segs].
      * unfold bind. change (1 <? length (@nil segment) + 1)%nat with false. cbv iota. cbv beta. rewrite emit_ok.
        assert ((length pre + width b + length w =? length (pre ++ tokensText b ++ w ++ planText [] tail))%nat
          = negb (0 <? width tail)%nat) as ->.
        { unfold planText, width. cbn [map concat app]. rewrite !length_app.
          destruct (Nat.ltb_spec 0 (length (tokensText tail))), (Nat.eqb_spec
            (length pre + length (tokensText b) + length w)
            (length pre + (length (tokensText b) + (length w + length (tokensText tail))))); done || lia. }
        destruct (0 <? width tail)%nat; cbn [negb when]; [done|].
        rewrite emit_ok, getBuffer_setBuffer, setBuffer_setBuffer. unfold ret. by rewrite <-app_assoc.
      * destruct (Nat.ltb_spec 1 (length (seg :: segs) + 1)) as [_|Hc]; [done|cbn in Hc; lia].
    + split; [|split; [done|by rewrite Ho', other_setBuffer]]. rewrite Hb', Hb.
      cbn [renderPlan seg_before seg_index]. fold letter. by rewrite <-!app_assoc.
Qed.
End write.
