(* ===== verification/Remangler.v ===== *)
(** * The remangler

    Models class [Remangler] (lib/Demangling/Remangler.cpp), which turns a
    demangling tree back into a mangled string: one definition per member
    function, with its name. [mangle##ID] for a node kind is [mangleID]; the
    overloads that C++ tells apart by their parameters are [mangleIndexNode]
    (the node kind [Index]) and [mangleProtocolListNode] (the node kind
    [ProtocolList]).

    The member functions call one another through [mangle]: they are written
    against a variable [mangle] for it, and [mangleWithFuel] ties the knot. *)

From Stdlib Require Import String.
From S2P Require Import Prelude Nodes ManglingUtils Punycode IdentifierMangling Demangler.

(** ** Substitutions *)

(** [SubstitutionEntry]. [StoredHash] is a [size_t]. *)
Record SubstitutionEntry := mkEntry {
  TheNode : Node;
  StoredHash : Z;
  treatAsIdentifier : bool
}.

Definition combineHash (hash newValue : Z) : Z := wrap_u64 (33 * hash + newValue).

(** [combineHash(StringRef)] *)
Definition combineHashText (hash : Z) (Text : str) : Z :=
  fold_left (fun h c => combineHash h (ord c)) Text hash.

(** The part of [deepHash] for a node that is no identifier. *)
Fixpoint deepHashNode (hash : Z) (node : Node) : Z :=
  match node with
  | mkNode kind payload children =>
      let hash := combineHash hash (kind_index kind) in
      let hash :=
        match payload with
        | IndexPayload i => combineHash hash i
        | TextPayload t => combineHashText hash t
        | NoPayload => hash
        end in
      (fix go (hash : Z) (cs : list Node) : Z :=
         match cs with
         | [] => hash
         | c :: cs => go (deepHashNode hash c) cs
         end) hash children
  end.

Section entries.
Context {S : Type}.

Definition deepHash (node : Node) (treatAsIdentifier : bool) : M S Z :=
  if treatAsIdentifier then
    text <- getText node ;;
    ret (combineHashText (combineHash 0 (kind_index K_Identifier)) text)
  else ret (deepHashNode 0 node).

(** [setNode] on a new entry. *)
Definition setNode (node : Node) (treatAsIdentifier : bool) : M S SubstitutionEntry :=
  hash <- deepHash node treatAsIdentifier ;;
  ret (mkEntry node hash treatAsIdentifier).
End entries.

Definition payload_eqb (p q : Payload) : bool :=
  match p, q with
  | NoPayload, NoPayload => true
  | TextPayload s, TextPayload t => str_eqb s t
  | IndexPayload i, IndexPayload j => i =? j
  | _, _ => false
  end.

Fixpoint deepEquals (lhs rhs : Node) : bool :=
  match lhs, rhs with
  | mkNode k p cs, mkNode k' p' cs' =>
      Kind_eqb k k' && payload_eqb p p'
      && (length cs =? length cs')%nat
      && (fix go (cs cs' : list Node) : bool :=
            match cs, cs' with
            | c :: cs, c' :: cs' => deepEquals c c' && go cs cs'
            | _, _ => true
            end) cs cs'
  end.

(** The text of a node, for entries that are treated as identifiers. *)
Definition nodeText (n : Node) : str := match payload n with TextPayload t => t | _ => [] end.

(** [operator==] *)
Definition entry_eqb (lhs rhs : SubstitutionEntry) : bool :=
  (StoredHash lhs =? StoredHash rhs)
  && Bool.eqb (treatAsIdentifier lhs) (treatAsIdentifier rhs)
  && (if treatAsIdentifier lhs then str_eqb (nodeText (TheNode lhs)) (nodeText (TheNode rhs))
      else deepEquals (TheNode lhs) (TheNode rhs)).

(** ** State *)

(** The members of [Remangler]. The unordered map [Substitutions] is the list of
    its keys, in the order of insertion: the value of a key is its position.
    [SubstWordsInIdent] is empty between two calls of [mangleIdentifier]. *)
Record Remangler := mkRemangler {
  Buffer : str;
  Words : list SubstitutionWord;
  Substitutions : list SubstitutionEntry;
  SubstMerging : SubstitutionMerging
}.

Definition newRemangler : Remangler := mkRemangler [] [] [] noMerging.

Definition setSubstMerging (m : SubstitutionMerging) (s : Remangler) : Remangler :=
  mkRemangler (Buffer s) (Words s) (Substitutions s) m.
Definition setSubstitutions (l : list SubstitutionEntry) (s : Remangler) : Remangler :=
  mkRemangler (Buffer s) (Words s) l (SubstMerging s).

#[export] Instance remangler_mangler : Mangler Remangler := {
  getBuffer := Buffer;
  setBuffer b s := mkRemangler b (Words s) (Substitutions s) (SubstMerging s);
  getWords := Words;
  setWords w s := mkRemangler (Buffer s) w (Substitutions s) (SubstMerging s);
  UsePunycode := true;
  MaxNumWords := 26
}.

#[export] Instance remangler_laws : ManglerLaws Remangler.
Proof. by split. Qed.

Abbreviation RM := (M Remangler).

(** [Buffer << "..."] *)
Definition put (s : string) : RM unit := emit (lit s).
Arguments put s%_string.

Definition unreachable {A} (message : string) : RM A := fail (Unreachable message).
Arguments unreachable {A} message%_string.

(** ** Helpers *)

Definition getSingleChild (node : Node) : RM Node :=
  _ <- assert "getSingleChild" (getNumChildren node =? 1)%nat ;;
  getFirstChild node.

(** [getSingleChild(node, kind)] *)
Definition getSingleChildKind (node : Node) (kind : Kind) : RM Node :=
  Child <- getSingleChild node ;;
  _ <- assert "getSingleChild: kind" (Kind_eqb (getKind Child) kind) ;;
  ret Child.

Definition skipType (node : Node) : RM Node :=
  if Kind_eqb (getKind node) K_Type then getSingleChild node else ret node.

Definition getChildOfType (node : Node) : RM Node :=
  _ <- assert "getChildOfType" (Kind_eqb (getKind node) K_Type) ;;
  getSingleChild node.

(** [mangleIndex(IndexType)]; an index is a [uint64_t]. *)
Definition mangleIndex (value : Z) : RM unit :=
  if value =? 0 then put "_"
  else _ <- emit (decimal (value - 1)) ;; put "_".

(** [mangleListSeparator(isFirstListItem)]: the flag after the call is false. *)
Definition mangleListSeparator (isFirstListItem : bool) : RM bool :=
  if isFirstListItem then _ <- put "_" ;; ret false else ret false.

Definition mangleEndOfList (isFirstListItem : bool) : RM unit :=
  when isFirstListItem (put "y").

(** These two are shared with the old remangler. *)
Section specialized.
Context {S : Type}.

(** [isSpecialized(node)] *)
Fixpoint isSpecialized (node : Node) : M S bool :=
  match node with
  | mkNode kind _ cs =>
      match kind with
      | K_BoundGenericStructure | K_BoundGenericEnum | K_BoundGenericClass => ret true
      | K_Structure | K_Enum | K_Class =>
          match cs with
          | c :: _ => isSpecialized c
          | _ => fail (AssertionFailed "Node::getChild")
          end
      | K_Extension =>
          match cs with
          | _ :: c :: _ => isSpecialized c
          | _ => fail (AssertionFailed "Node::getChild")
          end
      | _ => ret false
      end
  end.

(** [getUnspecialized(node, Factory)] *)
Fixpoint getUnspecialized (node : Node) : M S Node :=
  match node with
  | mkNode kind _ cs =>
      match kind with
      | K_Structure | K_Enum | K_Class =>
          match cs with
          | parentOrModule :: rest =>
              specialized <- isSpecialized parentOrModule ;;
              parent <- (if (specialized : bool) then getUnspecialized parentOrModule
                         else ret parentOrModule) ;;
              match rest with
              | name :: _ => ret (mkNode kind NoPayload [parent; name])
              | [] => fail (AssertionFailed "Node::getChild")
              end
          | [] => fail (AssertionFailed "Node::getChild")
          end
      | K_BoundGenericStructure | K_BoundGenericEnum | K_BoundGenericClass =>
          match cs with
          | unboundType :: _ =>
              _ <- assert "getUnspecialized: Type" (Kind_eqb (getKind unboundType) K_Type) ;;
              match unboundType with
              | mkNode _ _ (nominalType :: _) =>
                  specialized <- isSpecialized nominalType ;;
                  if (specialized : bool) then getUnspecialized nominalType else ret nominalType
              | _ => fail (AssertionFailed "Node::getChild")
              end
          | [] => fail (AssertionFailed "Node::getChild")
          end
      | K_Extension =>
          match cs with
          | first :: parent :: rest =>
              specialized <- isSpecialized parent ;;
              if negb specialized then ret node
              else
                parent <- getUnspecialized parent ;;
                ret (mkNode K_Extension NoPayload
                       (first :: parent ::
                        match rest with [signature] => [signature] | _ => [] end))
          | _ => fail (AssertionFailed "Node::getChild")
          end
      | _ => fail (Unreachable "bad nominal type kind")
      end
  end.
End specialized.

(** ** Substitutions of the remangler *)

(** [SubstMerging.tryMergeSubst] on this object. *)
Definition tryMerge (Subst : ascii) (isStandardSubst : bool) : RM bool :=
  m <- gets SubstMerging ;;
  r <- tryMergeSubst m Subst isStandardSubst ;;
  let '(merged, m) := r in
  _ <- modify (setSubstMerging m) ;;
  ret merged.

(** The standard substitution [Subst]: merged, or [S] and the letter. *)
Definition putStandardSubst (Subst : ascii) : RM unit :=
  merged <- tryMerge Subst true ;;
  when (negb merged) (_ <- put "S" ;; emit [Subst]).

(** The substitution with index [Idx]: [A] and a large index, merged, or [A] and
    the letter. *)
Definition putSubst (Idx : nat) : RM unit :=
  if (26 <=? Idx)%nat then _ <- put "A" ;; mangleIndex (Z.of_nat Idx - 26)
  else
    let Subst := chr (Z.of_nat Idx + ord "A") in
    merged <- tryMerge Subst false ;;
    when (negb merged) (_ <- put "A" ;; emit [Subst]).

Definition mangleStandardSubstitution (node : Node) : RM bool :=
  if negb (Kind_eqb (getKind node) K_Structure) && negb (Kind_eqb (getKind node) K_Enum)
  then ret false
  else
    context <- getFirstChild node ;;
    if negb (Kind_eqb (getKind context) K_Module) then ret false
    else
      text <- getText context ;;
      if negb (str_eqb text STDLIB_NAME) then ret false
      else
        name <- getChild node 1 ;;
        if negb (Kind_eqb (getKind name) K_Identifier) then ret false
        else
          text <- getText name ;;
          let Subst := getStandardTypeSubst text in
          if Ascii.eqb Subst NUL then ret false
          else _ <- putStandardSubst Subst ;; ret true.

(** The result, and the entry that [addSubstitution] is called with when it is
    [false]; [Substitutions.find(entry)] gives the position of the equal key. *)
Definition trySubstitution (node : Node) (treatAsIdentifier : bool)
    : RM (bool * option SubstitutionEntry) :=
  standard <- mangleStandardSubstitution node ;;
  if (standard : bool) then ret (true, None)
  else
    entry <- setNode node treatAsIdentifier ;;
    Substs <- gets Substitutions ;;
    match list_find (fun e => entry_eqb entry e = true) Substs with
    | None => ret (false, Some entry)
    | Some (Idx, _) => _ <- putSubst Idx ;; ret (true, Some entry)
    end.

(** [insert] adds nothing when there is an equal key, which the assertion
    forbids. *)
Definition addSubstitution (entry : option SubstitutionEntry) : RM unit :=
  match entry with
  | None => ret tt
  | Some entry =>
      Substs <- gets Substitutions ;;
      _ <- assert "addSubstitution: result.second"
             (negb (existsb (entry_eqb entry) Substs)) ;;
      modify (setSubstitutions (Substs ++ [entry]))
  end.

(** ** Identifiers *)

Definition mangleIdentifierImpl (node : Node) (isOperator : bool) : RM unit :=
  r <- trySubstitution node true ;;
  let '(found, entry) := r in
  if (found : bool) then ret tt
  else
    text <- getText node ;;
    _ <- mangleIdentifier (if isOperator then translateOperator text else text) ;;
    addSubstitution entry.

(** [mangleIdentifier] of a [Node]. *)
Definition mangleIdentifierNode (node : Node) : RM unit := mangleIdentifierImpl node false.

Definition mangleDependentGenericParamIndex (node : Node) (nonZeroPrefix : str) (zeroOp : ascii)
    : RM unit :=
  d <- getChild node 0 ;;
  depth <- getIndex d ;;
  i <- getChild node 1 ;;
  index <- getIndex i ;;
  if negb (depth =? 0) then
    _ <- emit nonZeroPrefix ;; _ <- put "d" ;;
    _ <- mangleIndex (depth - 1) ;; mangleIndex index
  else if negb (index =? 0) then
    _ <- emit nonZeroPrefix ;; mangleIndex (index - 1)
  else emit [zeroOp].

(** The [while] of [mangleConstrainedType]: the names of the chain, outermost
    first, and the node it ends in. *)
Fixpoint memberChain (node : Node) : RM (list Node * Node) :=
  match node with
  | mkNode K_DependentMemberType _ cs =>
      match cs with
      | mkNode kind _ base :: name :: _ =>
          _ <- assert "getChildOfType" (Kind_eqb kind K_Type) ;;
          match base with
          | [inner] => r <- memberChain inner ;; let '(Chain, last) := r in ret (name :: Chain, last)
          | _ => fail (AssertionFailed "getSingleChild")
          end
      | _ => fail (AssertionFailed "Node::getChild")
      end
  | _ => ret ([], node)
  end.

Section mangle.
(** [mangle(node)]: the dispatch over the kinds, defined below. *)
Variable mangle : Node -> RM unit.
(** [mangleAnyNominalType] on the unspecialized type it has made. *)
Variable mangleUnboundType : Node -> RM unit.

Fixpoint mangleNodes (nodes : list Node) : RM unit :=
  match nodes with
  | [] => ret tt
  | n :: nodes => _ <- mangle n ;; mangleNodes nodes
  end.

Definition mangleChildNodes (node : Node) : RM unit := mangleNodes (children node).

Definition mangleChildNodesReversed (node : Node) : RM unit :=
  mangleNodes (reverse (children node)).

Definition mangleSingleChildNode (node : Node) : RM unit :=
  _ <- assert "mangleSingleChildNode" (getNumChildren node =? 1)%nat ;;
  c <- getFirstChild node ;;
  mangle c.

Definition mangleChildNode (node : Node) (index : nat) : RM unit :=
  _ <- assert "mangleChildNode" (index <? getNumChildren node)%nat ;;
  c <- getChild node index ;;
  mangle c.

Definition manglePureProtocol (Proto : Node) : RM unit :=
  Proto <- skipType Proto ;; mangleChildNodes Proto.

Definition mangleFunctionSignature (FuncType : Node) : RM unit :=
  mangleChildNodesReversed FuncType.

(** [mangleSingleChildNode(node); Buffer << code;] and its variants, which most
    kinds consist of. *)
Definition singleChildThen (node : Node) (code : string) : RM unit :=
  _ <- mangleSingleChildNode node ;; put code.
Definition childrenThen (node : Node) (code : string) : RM unit :=
  _ <- mangleChildNodes node ;; put code.
Definition childrenReversedThen (node : Node) (code : string) : RM unit :=
  _ <- mangleChildNodesReversed node ;; put code.

(** The [for] over [Chain] in reverse order: a separator follows the first. *)
Fixpoint mangleChain (Chain : list Node) (ListSeparator : str) : RM unit :=
  match Chain with
  | [] => ret tt
  | DepAssocTyRef :: Chain =>
      _ <- mangle DepAssocTyRef ;; _ <- emit ListSeparator ;; mangleChain Chain []
  end.

(** The pair [(-1, nullptr)] for a substitution. *)
Definition mangleConstrainedType (node : Node) : RM (Z * option Node) :=
  node <- (if Kind_eqb (getKind node) K_Type then getChildOfType node else ret node) ;;
  r <- trySubstitution node false ;;
  let '(found, entry) := r in
  if (found : bool) then ret (-1, None)
  else
    r <- memberChain node ;;
    let '(Chain, node) := r in
    _ <- assert "mangleConstrainedType: DependentGenericParamType"
           (Kind_eqb (getKind node) K_DependentGenericParamType) ;;
    _ <- mangleChain (reverse Chain) (if (1 <? length Chain)%nat then lit "_" else []) ;;
    _ <- when (0 <? length Chain)%nat (addSubstitution entry) ;;
    ret (Z.of_nat (length Chain), Some node).

(** [mangleDependentGenericParamIndex] of the pair's node. *)
Definition mangleParamIndexOf (node : option Node) (nonZeroPrefix : str) (zeroOp : ascii)
    : RM unit :=
  match node with
  | Some n => mangleDependentGenericParamIndex n nonZeroPrefix zeroOp
  | None => fail (NullPointer "mangleDependentGenericParamIndex")
  end.

Definition mangleAnyGenericType (node : Node) (TypeOp : string) : RM unit :=
  r <- trySubstitution node false ;;
  let '(found, entry) := r in
  if (found : bool) then ret tt
  else
    _ <- mangleChildNodes node ;;
    _ <- put TypeOp ;;
    addSubstitution entry.

(** The separator after the call is the result. *)
Fixpoint mangleGenericArgs (node : Node) (Separator : str) : RM str :=
  match node with
  | mkNode kind _ cs =>
      match kind with
      | K_Structure | K_Enum | K_Class =>
          match cs with
          | parent :: _ =>
              Separator <- mangleGenericArgs parent Separator ;;
              _ <- emit Separator ;;
              ret (lit "_")
          | [] => fail (AssertionFailed "Node::getChild")
          end
      | K_BoundGenericStructure | K_BoundGenericEnum | K_BoundGenericClass =>
          match cs with
          | mkNode unboundKind _ unbound :: rest =>
              _ <- assert "mangleGenericArgs: Type" (Kind_eqb unboundKind K_Type) ;;
              match unbound with
              | mkNode _ _ (parentOrModule :: _) :: _ =>
                  Separator <- mangleGenericArgs parentOrModule Separator ;;
                  _ <- emit Separator ;;
                  match rest with
                  | args :: _ => _ <- mangleChildNodes args ;; ret (lit "_")
                  | [] => fail (AssertionFailed "Node::getChild")
                  end
              | _ => fail (AssertionFailed "Node::getChild")
              end
          | [] => fail (AssertionFailed "Node::getChild")
          end
      | K_Extension =>
          match cs with
          | _ :: extended :: _ => mangleGenericArgs extended Separator
          | _ => fail (AssertionFailed "Node::getChild")
          end
      | _ => ret Separator
      end
  end.

Definition mangleAnyNominalType (node : Node) : RM unit :=
  specialized <- isSpecialized node ;;
  if (specialized : bool) then
    r <- trySubstitution node false ;;
    let '(found, entry) := r in
    if (found : bool) then ret tt
    else
      unboundType <- getUnspecialized node ;;
      _ <- mangleUnboundType unboundType ;;
      _ <- mangleGenericArgs node (lit "y") ;;
      _ <- put "G" ;;
      addSubstitution entry
  else
    match getKind node with
    | K_Structure => mangleAnyGenericType node "V"
    | K_Enum => mangleAnyGenericType node "O"
    | K_Class => mangleAnyGenericType node "C"
    | _ => unreachable "bad nominal type kind"
    end.

Definition mangleAnyConstructor (node : Node) (kindOp : string) : RM unit :=
  _ <- mangleChildNodes node ;; _ <- put "f" ;; put kindOp.

Definition mangleAbstractStorage (node : Node) (accessorCode : string) : RM unit :=
  _ <- mangleChildNodes node ;;
  _ <- match getKind node with
       | K_Subscript => put "i"
       | K_Variable => put "v"
       | _ => unreachable "Not a storage node"
       end ;;
  put accessorCode.

(** [mangleAbstractStorage(node->getFirstChild(), accessorCode)]: the accessors. *)
Definition mangleAccessor (node : Node) (accessorCode : string) : RM unit :=
  c <- getFirstChild node ;; mangleAbstractStorage c accessorCode.

(** *** The kinds *)

Definition mangleAllocator (node : Node) : RM unit := mangleAnyConstructor node "C".

Definition mangleArgumentTuple (node : Node) : RM unit :=
  Child <- getSingleChild node ;;
  Child <- skipType Child ;;
  if Kind_eqb (getKind Child) K_Tuple && (getNumChildren Child =? 0)%nat then put "y"
  else mangle Child.

Definition mangleAssociatedType (node : Node) : RM unit := unreachable "unsupported node".

Definition mangleAssociatedTypeRef (node : Node) : RM unit :=
  r <- trySubstitution node false ;;
  let '(found, entry) := r in
  if (found : bool) then ret tt
  else _ <- mangleChildNodes node ;; _ <- put "Qa" ;; addSubstitution entry.

Definition mangleAssociatedTypeMetadataAccessor (node : Node) : RM unit := childrenThen node "Wt".
Definition mangleAssociatedTypeWitnessTableAccessor (node : Node) : RM unit :=
  childrenThen node "WT".
Definition mangleAutoClosureType (node : Node) : RM unit := childrenReversedThen node "XK".
Definition mangleBoundGenericClass (node : Node) : RM unit := mangleAnyNominalType node.

Definition mangleBoundGenericEnum (node : Node) : RM unit :=
  ty <- getChild node 0 ;;
  Enum <- getChild ty 0 ;;
  _ <- assert "mangleBoundGenericEnum" (Kind_eqb (getKind Enum) K_Enum) ;;
  Mod <- getChild Enum 0 ;;
  Id <- getChild Enum 1 ;;
  inStdlib <- (if Kind_eqb (getKind Mod) K_Module
               then t <- getText Mod ;; ret (str_eqb t STDLIB_NAME) else ret false) ;;
  isOptional <- (if inStdlib && Kind_eqb (getKind Id) K_Identifier
                 then t <- getText Id ;; ret (str_eqb t (lit "Optional")) else ret false) ;;
  if (isOptional : bool) then
    r <- trySubstitution node false ;;
    let '(found, entry) := r in
    if (found : bool) then ret tt
    else
      args <- getChild node 1 ;;
      _ <- mangleSingleChildNode args ;;
      _ <- put "Sg" ;;
      addSubstitution entry
  else mangleAnyNominalType node.

Definition mangleBoundGenericStructure (node : Node) : RM unit := mangleAnyNominalType node.

(** [stripPrefix(string, data)]: what follows the prefix. *)
Definition stripPrefix (string_ : str) (data : string) : option str :=
  if startswith string_ (lit data) then Some (drop (length (lit data)) string_) else None.

(** [text.split('x')]: the parts before and after the first separator. *)
Fixpoint split (text : str) (separator : ascii) : str * str :=
  match text with
  | [] => ([], [])
  | c :: text =>
      if Ascii.eqb c separator then ([], text)
      else let '(first, second) := split text separator in (c :: first, second)
  end.

Definition mangleBuiltinVector (text : str) : RM unit :=
  let '(first, second) := split text "x" in
  _ <- (if str_eqb second (lit "RawPointer") then put "p"
        else match stripPrefix second "Float" with
             | Some size => _ <- put "f" ;; _ <- emit size ;; put "_"
             | None =>
                 match stripPrefix second "Int" with
                 | Some size => _ <- put "i" ;; _ <- emit size ;; put "_"
                 | None => unreachable "unexpected builtin vector type"
                 end
             end) ;;
  _ <- put "Bv" ;; _ <- emit first ;; put "_".

Definition mangleBuiltinTypeName (node : Node) : RM unit :=
  _ <- put "B" ;;
  text <- getText node ;;
  if str_eqb text (lit "Builtin.BridgeObject") then put "b"
  else if str_eqb text (lit "Builtin.UnsafeValueBuffer") then put "B"
  else if str_eqb text (lit "Builtin.UnknownObject") then put "O"
  else if str_eqb text (lit "Builtin.NativeObject") then put "o"
  else if str_eqb text (lit "Builtin.RawPointer") then put "p"
  else if str_eqb text (lit "Builtin.SILToken") then put "t"
  else if str_eqb text (lit "Builtin.Word") then put "w"
  else
    match stripPrefix text "Builtin.Int" with
    | Some size => _ <- put "i" ;; _ <- emit size ;; put "_"
    | None =>
        match stripPrefix text "Builtin.Float" with
        | Some size => _ <- put "f" ;; _ <- emit size ;; put "_"
        | None =>
            match stripPrefix text "Builtin.Vec" with
            | Some vector => mangleBuiltinVector vector
            | None => unreachable "unexpected builtin type"
            end
        end
    end.

Definition mangleCFunctionPointer (node : Node) : RM unit := childrenReversedThen node "XC".
Definition mangleClass (node : Node) : RM unit := mangleAnyNominalType node.
Definition mangleConstructor (node : Node) : RM unit := mangleAnyConstructor node "c".
Definition mangleCoroutineContinuationPrototype (node : Node) : RM unit := childrenThen node "TC".
Definition mangleDeallocator (node : Node) : RM unit := childrenThen node "fD".
Definition mangleDeclContext (node : Node) : RM unit := mangleSingleChildNode node.

Definition mangleDefaultArgumentInitializer (node : Node) : RM unit :=
  _ <- mangleChildNode node 0 ;; _ <- put "fA" ;; mangleChildNode node 1.

Definition mangleDependentAssociatedTypeRef (node : Node) : RM unit :=
  _ <- mangleIdentifierNode node ;;
  when (negb (getNumChildren node =? 0)%nat) (mangleSingleChildNode node).

(** The [switch (NumMembersAndParamIdx.first)] of the requirements: the code
    for a substitution, and for chains of no, one and more members. *)
Definition memberCode (n : Z) (substitution none one many : string) : string :=
  if n =? -1 then substitution else if n =? 0 then none else if n =? 1 then one else many.

(** A constrained type, its code and, unless it was a substitution, the index
    of its generic parameter. *)
Definition mangleRequirement (constrained : Node) (substitution none one many : string)
    : RM unit :=
  r <- mangleConstrainedType constrained ;;
  let '(n, param) := r in
  _ <- put (memberCode n substitution none one many) ;;
  if n =? -1 then ret tt else mangleParamIndexOf param [] "z".

Definition mangleDependentGenericConformanceRequirement (node : Node) : RM unit :=
  ProtoOrClass <- getChild node 1 ;;
  first <- getFirstChild ProtoOrClass ;;
  if Kind_eqb (getKind first) K_Protocol then
    _ <- manglePureProtocol ProtoOrClass ;;
    constrained <- getChild node 0 ;;
    mangleRequirement constrained "RQ" "R" "Rp" "RP"
  else
    _ <- mangle ProtoOrClass ;;
    constrained <- getChild node 0 ;;
    mangleRequirement constrained "RB" "Rb" "Rc" "RC".

Definition mangleDependentGenericParamCount (node : Node) : RM unit :=
  unreachable "handled inline in DependentGenericSignature".

Definition mangleDependentGenericParamType (node : Node) : RM unit :=
  d <- getChild node 0 ;;
  depth <- getIndex d ;;
  isX <- (if depth =? 0 then i <- getChild node 1 ;; index <- getIndex i ;; ret (index =? 0)
          else ret false) ;;
  if (isX : bool) then put "x"
  else _ <- put "q" ;; mangleDependentGenericParamIndex node [] "z".

Definition mangleDependentGenericSameTypeRequirement (node : Node) : RM unit :=
  _ <- mangleChildNode node 1 ;;
  constrained <- getChild node 0 ;;
  mangleRequirement constrained "RS" "Rs" "Rt" "RT".

Definition mangleDependentGenericLayoutRequirement (node : Node) : RM unit :=
  constrained <- getChild node 0 ;;
  _ <- mangleRequirement constrained "RL" "Rl" "Rm" "RM" ;;
  name <- getChild node 1 ;;
  _ <- assert "mangleDependentGenericLayoutRequirement: Identifier"
         (Kind_eqb (getKind name) K_Identifier) ;;
  text <- getText name ;;
  _ <- assert "mangleDependentGenericLayoutRequirement: size" (length text =? 1)%nat ;;
  _ <- emit text ;;
  _ <- when (3 <=? getNumChildren node)%nat (mangleChildNode node 2) ;;
  when (4 <=? getNumChildren node)%nat (mangleChildNode node 3).

(** [ParamCountEnd] after the children from [Idx] on; the others are mangled. *)
Fixpoint mangleSignatureRequirements (children : list Node) (Idx ParamCountEnd : nat) : RM nat :=
  match children with
  | [] => ret ParamCountEnd
  | Child :: children =>
      if Kind_eqb (getKind Child) K_DependentGenericParamCount
      then mangleSignatureRequirements children (Idx + 1) (Idx + 1)
      else _ <- mangle Child ;; mangleSignatureRequirements children (Idx + 1) ParamCountEnd
  end.

Fixpoint mangleParamCounts (counts : list Node) : RM unit :=
  match counts with
  | [] => ret tt
  | Count :: counts =>
      index <- getIndex Count ;;
      _ <- (if 0 <? index then mangleIndex (index - 1) else put "z") ;;
      mangleParamCounts counts
  end.

Definition mangleDependentGenericSignature (node : Node) : RM unit :=
  ParamCountEnd <- mangleSignatureRequirements (children node) 0 0 ;;
  single <- (if (ParamCountEnd =? 1)%nat
             then c <- getChild node 0 ;; i <- getIndex c ;; ret (i =? 1) else ret false) ;;
  if (single : bool) then put "l"
  else
    _ <- put "r" ;;
    _ <- mangleParamCounts (take ParamCountEnd (children node)) ;;
    put "l".

Definition mangleDependentGenericType (node : Node) : RM unit := childrenReversedThen node "u".

Definition mangleDependentMemberType (node : Node) : RM unit :=
  r <- mangleConstrainedType node ;;
  let '(n, param) := r in
  if n =? -1 then ret tt
  else if n =? 0 then unreachable "wrong dependent member type"
  else if n =? 1 then _ <- put "Q" ;; mangleParamIndexOf param (lit "y") "z"
  else _ <- put "Q" ;; mangleParamIndexOf param (lit "Y") "Z".

Definition mangleDependentPseudogenericSignature (node : Node) : RM unit :=
  unreachable "handled inline".

Definition mangleDestructor (node : Node) : RM unit := childrenThen node "fd".
Definition mangleDidSet (node : Node) : RM unit := mangleAccessor node "W".

Definition mangleDirectness (node : Node) : RM unit :=
  index <- getIndex node ;;
  if index =? Directness_Direct then put "d"
  else
    _ <- assert "mangleDirectness" (index =? Directness_Indirect) ;;
    put "i".

Definition mangleDynamicAttribute (node : Node) : RM unit := put "TD".
Definition mangleDirectMethodReferenceAttribute (node : Node) : RM unit := put "Td".
Definition mangleDynamicSelf (node : Node) : RM unit := singleChildThen node "XD".
Definition mangleEnum (node : Node) : RM unit := mangleAnyNominalType node.
Definition mangleErrorType (node : Node) : RM unit := put "Xe".

Definition mangleExistentialMetatype (node : Node) : RM unit :=
  first <- getFirstChild node ;;
  if Kind_eqb (getKind first) K_MetatypeRepresentation then
    _ <- mangleChildNode node 1 ;; _ <- put "Xm" ;; mangleChildNode node 0
  else singleChildThen node "Xp".

Definition mangleExplicitClosure (node : Node) : RM unit :=
  _ <- mangleChildNode node 0 ;;
  _ <- mangleChildNode node 2 ;;
  _ <- put "fU" ;;
  mangleChildNode node 1.

Definition mangleExtension (node : Node) : RM unit :=
  _ <- mangleChildNode node 1 ;;
  _ <- mangleChildNode node 0 ;;
  _ <- when (getNumChildren node =? 3)%nat (mangleChildNode node 2) ;;
  put "E".

Definition mangleFieldOffset (node : Node) : RM unit :=
  _ <- mangleChildNode node 1 ;; _ <- put "Wv" ;; mangleChildNode node 0.

Definition mangleFullTypeMetadata (node : Node) : RM unit := singleChildThen node "Mf".

Definition mangleFunction (node : Node) : RM unit :=
  _ <- mangleChildNode node 0 ;;
  _ <- mangleChildNode node 1 ;;
  c <- getChild node 2 ;;
  let hasLabels := Kind_eqb (getKind c) K_LabelList in
  ty <- getChild node (if hasLabels then 3 else 2) ;;
  FuncType <- getSingleChild ty ;;
  _ <- when hasLabels (mangleChildNode node 2) ;;
  _ <- (if Kind_eqb (getKind FuncType) K_DependentGenericType then
          body <- getChild FuncType 1 ;;
          sig <- getSingleChild body ;;
          _ <- mangleFunctionSignature sig ;;
          mangleChildNode FuncType 0
        else mangleFunctionSignature FuncType) ;;
  put "F".

Definition mangleType (node : Node) : RM unit := mangleSingleChildNode node.

Fixpoint mangleTypes (nodes : list Node) : RM unit :=
  match nodes with
  | [] => ret tt
  | n :: nodes => _ <- mangleType n ;; mangleTypes nodes
  end.

(** *** Specializations *)

(** One parameter of the first loop of [mangleFunctionSignatureSpecialization]:
    the names and types of its payload. *)
Definition mangleParamPayload (Param : Node) : RM unit :=
  if Kind_eqb (getKind Param) K_FunctionSignatureSpecializationParam
     && (0 <? getNumChildren Param)%nat
  then
    KindNd <- getChild Param 0 ;;
    index <- getIndex KindNd ;;
    let kind := wrap_u32 index in
    if (kind =? ConstantPropFunction) || (kind =? ConstantPropGlobal) then
      name <- getChild Param 1 ;; mangleIdentifierNode name
    else if kind =? ConstantPropString then
      TextNd <- getChild Param 2 ;;
      Text <- getText TextNd ;;
      match Text with
      | c :: _ =>
          if isDigit c || Ascii.eqb c "_"
          then mangleIdentifierNode (createNodeText K_Identifier (lit "_" ++ Text))
          else mangleIdentifierNode TextNd
      | [] => mangleIdentifierNode TextNd
      end
    else if kind =? ClosureProp then
      name <- getChild Param 1 ;;
      _ <- mangleIdentifierNode name ;;
      mangleTypes (drop 2 (children Param))
    else ret tt
  else ret tt.

Fixpoint mangleParamPayloads (Params : list Node) : RM unit :=
  match Params with
  | [] => ret tt
  | Param :: Params => _ <- mangleParamPayload Param ;; mangleParamPayloads Params
  end.

(** The second loop: the result is [returnValMangled]. *)
Fixpoint mangleSpecParams (node : Node) (Children : list Node) (returnValMangled : bool)
    : RM bool :=
  match Children with
  | [] => ret returnValMangled
  | Child :: Children =>
      returnValMangled <-
        (if Kind_eqb (getKind Child) K_FunctionSignatureSpecializationParam then
           index <- getIndex Child ;;
           if index =? wrap_u64 (-1) then _ <- put "_" ;; ret true else ret returnValMangled
         else ret returnValMangled) ;;
      _ <- mangle Child ;;
      _ <- when (Kind_eqb (getKind Child) K_SpecializationPassID && hasIndex node)
             (index <- getIndex node ;; emit (decimal index)) ;;
      mangleSpecParams node Children returnValMangled
  end.

Definition mangleFunctionSignatureSpecialization (node : Node) : RM unit :=
  _ <- mangleParamPayloads (children node) ;;
  _ <- put "Tf" ;;
  returnValMangled <- mangleSpecParams node (children node) false ;;
  when (negb returnValMangled) (put "_n").

Definition mangleFunctionSignatureSpecializationParam (node : Node) : RM unit :=
  if negb (hasChildren node) then put "n"
  else
    KindNd <- getChild node 0 ;;
    index <- getIndex KindNd ;;
    let kindValue := wrap_u32 index in
    if kindValue =? ConstantPropFunction then put "pf"
    else if kindValue =? ConstantPropGlobal then put "pg"
    else if kindValue =? ConstantPropInteger then
      _ <- put "pi" ;; c <- getChild node 1 ;; text <- getText c ;; emit text
    else if kindValue =? ConstantPropFloat then
      _ <- put "pd" ;; c <- getChild node 1 ;; text <- getText c ;; emit text
    else if kindValue =? ConstantPropString then
      _ <- put "ps" ;;
      c <- getChild node 1 ;;
      encodingStr <- getText c ;;
      if str_eqb encodingStr (lit "u8") then put "b"
      else if str_eqb encodingStr (lit "u16") then put "w"
      else if str_eqb encodingStr (lit "objc") then put "c"
      else unreachable "Unknown encoding"
    else if kindValue =? ClosureProp then put "c"
    else if kindValue =? BoxToValue then put "i"
    else if kindValue =? BoxToStack then put "s"
    else if kindValue =? SROA then put "x"
    else
      _ <- (if negb (Z.land kindValue Dead =? 0) then
              _ <- put "d" ;;
              when (negb (Z.land kindValue OwnedToGuaranteed =? 0)) (put "G")
            else when (negb (Z.land kindValue OwnedToGuaranteed =? 0)) (put "g")) ;;
      when (negb (Z.land kindValue SROA =? 0)) (put "X").

Definition mangleFunctionSignatureSpecializationParamKind (node : Node) : RM unit :=
  unreachable "handled inline".
Definition mangleFunctionSignatureSpecializationParamPayload (node : Node) : RM unit :=
  unreachable "handled inline".

Definition mangleFunctionType (node : Node) : RM unit :=
  _ <- mangleFunctionSignature node ;; put "c".

Definition mangleGenericProtocolWitnessTable (node : Node) : RM unit := singleChildThen node "WG".
Definition mangleGenericProtocolWitnessTableInstantiationFunction (node : Node) : RM unit :=
  singleChildThen node "WI".

(** The children that are no [GenericSpecializationParam]. *)
Fixpoint mangleOtherChildren (nodes : list Node) : RM unit :=
  match nodes with
  | [] => ret tt
  | Child :: nodes =>
      _ <- when (negb (Kind_eqb (getKind Child) K_GenericSpecializationParam)) (mangle Child) ;;
      mangleOtherChildren nodes
  end.

Definition mangleGenericPartialSpecialization (node : Node) : RM unit :=
  _ <- match find (fun c => Kind_eqb (getKind c) K_GenericSpecializationParam) (children node) with
       | Some Child => mangleChildNode Child 0
       | None => ret tt
       end ;;
  _ <- put (if Kind_eqb (getKind node) K_GenericPartialSpecializationNotReAbstracted
            then "TP" else "Tp") ;;
  mangleOtherChildren (children node).

Definition mangleGenericPartialSpecializationNotReAbstracted (node : Node) : RM unit :=
  mangleGenericPartialSpecialization node.

(** The first loop: the result is [FirstParam]. *)
Fixpoint mangleGenericParams (nodes : list Node) (FirstParam : bool) : RM bool :=
  match nodes with
  | [] => ret FirstParam
  | Child :: nodes =>
      if Kind_eqb (getKind Child) K_GenericSpecializationParam then
        _ <- mangleChildNode Child 0 ;;
        FirstParam <- mangleListSeparator FirstParam ;;
        mangleGenericParams nodes FirstParam
      else mangleGenericParams nodes FirstParam
  end.

Definition mangleGenericSpecialization (node : Node) : RM unit :=
  FirstParam <- mangleGenericParams (children node) true ;;
  _ <- assert "generic specialization with no substitutions" (negb FirstParam) ;;
  _ <- put (if Kind_eqb (getKind node) K_GenericSpecializationNotReAbstracted
            then "TG" else "Tg") ;;
  mangleOtherChildren (children node).

Definition mangleGenericSpecializationNotReAbstracted (node : Node) : RM unit :=
  mangleGenericSpecialization node.

Definition mangleGenericSpecializationParam (node : Node) : RM unit :=
  unreachable "handled inline".
Definition mangleGenericTypeMetadataPattern (node : Node) : RM unit := singleChildThen node "MP".
Definition mangleGenericTypeParamDecl (node : Node) : RM unit := childrenThen node "fp".
Definition mangleGetter (node : Node) : RM unit := mangleAccessor node "g".

(** The children that [mangleGlobal] mangles after the one that follows them. *)
Definition isReversedAttribute (k : Kind) : bool :=
  match k with
  | K_FunctionSignatureSpecialization | K_GenericSpecialization
  | K_GenericSpecializationNotReAbstracted | K_GenericPartialSpecialization
  | K_GenericPartialSpecializationNotReAbstracted | K_OutlinedBridgedMethod
  | K_OutlinedVariable | K_ObjCAttribute | K_NonObjCAttribute | K_DynamicAttribute
  | K_VTableAttribute | K_DirectMethodReferenceAttribute | K_MergedFunction => true
  | _ => false
  end.

(** [before] are the children in front of [Iter], the last one first. *)
Fixpoint mangleGlobalChildren (before nodes : list Node) (mangleInReverseOrder : bool) : RM unit :=
  match nodes with
  | [] => ret tt
  | Child :: nodes =>
      if isReversedAttribute (getKind Child)
      then mangleGlobalChildren (Child :: before) nodes true
      else
        _ <- mangle Child ;;
        _ <- when mangleInReverseOrder (mangleNodes before) ;;
        mangleGlobalChildren (Child :: before) nodes false
  end.

Definition mangleGlobal (node : Node) : RM unit :=
  _ <- put "$S" ;; mangleGlobalChildren [] (children node) false.

Definition mangleGlobalGetter (node : Node) : RM unit := mangleAccessor node "G".
(** [mangleIdentifier(Node )] of the kind [Identifier] is [mangleIdentifierNode]. *)
Definition mangleIndexNode (node : Node) : RM unit := unreachable "handled inline".
Definition mangleIVarInitializer (node : Node) : RM unit := singleChildThen node "fe".
Definition mangleIVarDestroyer (node : Node) : RM unit := singleChildThen node "fE".
Definition mangleImplEscaping (node : Node) : RM unit := put "e".

(** [llvm::StringSwitch<char>(text).Case(...).Default(0)] *)
Fixpoint StringSwitch (text : str) (cases : list (string * ascii)) : ascii :=
  match cases with
  | [] => NUL
  | (s, c) :: cases => if str_eqb text (lit s) then c else StringSwitch text cases
  end.

(** The character of a [StringSwitch], with the assertion that there is one. *)
Definition mangleConvention (site : string) (node : Node) (cases : list (string * ascii)) : RM unit :=
  text <- getText node ;;
  let ConvCh := StringSwitch text cases in
  _ <- assert site (negb (Ascii.eqb ConvCh NUL)) ;;
  emit [ConvCh].

Definition calleeConventions : list (string * ascii) :=
  [("@callee_unowned"%string, "y"%char); ("@callee_guaranteed"%string, "g"%char);
   ("@callee_owned"%string, "x"%char)].

Definition mangleImplConvention (node : Node) : RM unit :=
  mangleConvention "invalid impl callee convention" node calleeConventions.

Definition mangleImplFunctionAttribute (node : Node) : RM unit := unreachable "handled inline".

Definition functionAttributes : list (string * ascii) :=
  [("@convention(block)"%string, "B"%char); ("@convention(c)"%string, "C"%char);
   ("@convention(method)"%string, "M"%char); ("@convention(objc_method)"%string, "O"%char);
   ("@convention(closure)"%string, "K"%char);
   ("@convention(witness_method)"%string, "W"%char)].

Definition paramConventions : list (string * ascii) :=
  [("@in"%string, "i"%char); ("@inout"%string, "l"%char);
   ("@inout_aliasable"%string, "b"%char); ("@in_guaranteed"%string, "n"%char);
   ("@in_constant"%string, "c"%char); ("@owned"%string, "x"%char);
   ("@guaranteed"%string, "g"%char); ("@deallocating"%string, "e"%char);
   ("@unowned"%string, "y"%char)].

Definition resultConventions : list (string * ascii) :=
  [("@out"%string, "r"%char); ("@owned"%string, "o"%char); ("@unowned"%string, "d"%char);
   ("@unowned_inner_pointer"%string, "u"%char); ("@autoreleased"%string, "a"%char)].

(** The first loop of [mangleImplFunctionType]: the types are mangled; the
    result is [PseudoGeneric] and [GenSig]. *)
Fixpoint mangleImplTypes (nodes : list Node) (PseudoGeneric : string) (GenSig : option Node)
    : RM (string * option Node) :=
  match nodes with
  | [] => ret (PseudoGeneric, GenSig)
  | Child :: nodes =>
      match getKind Child with
      | K_ImplParameter | K_ImplResult | K_ImplErrorResult =>
          _ <- mangleChildNode Child 1 ;; mangleImplTypes nodes PseudoGeneric GenSig
      | K_DependentPseudogenericSignature => mangleImplTypes nodes "P" (Some Child)
      | K_DependentGenericSignature => mangleImplTypes nodes PseudoGeneric (Some Child)
      | _ => mangleImplTypes nodes PseudoGeneric GenSig
      end
  end.

(** One child in the second loop. *)
Definition mangleImplChild (Child : Node) : RM unit :=
  match getKind Child with
  | K_ImplEscaping => put "e"
  | K_ImplConvention =>
      mangleConvention "invalid impl callee convention" Child
        (calleeConventions ++ [("@convention(thin)"%string, "t"%char)])
  | K_ImplFunctionAttribute =>
      mangleConvention "invalid impl function attribute" Child functionAttributes
  | K_ImplParameter =>
      c <- getFirstChild Child ;;
      mangleConvention "invalid impl parameter convention" c paramConventions
  | K_ImplErrorResult =>
      _ <- put "z" ;;
      c <- getFirstChild Child ;;
      mangleConvention "invalid impl parameter convention" c resultConventions
  | K_ImplResult =>
      c <- getFirstChild Child ;;
      mangleConvention "invalid impl parameter convention" c resultConventions
  | _ => ret tt
  end.

Fixpoint mangleImplChildren (nodes : list Node) : RM unit :=
  match nodes with
  | [] => ret tt
  | Child :: nodes => _ <- mangleImplChild Child ;; mangleImplChildren nodes
  end.

Definition mangleImplFunctionType (node : Node) : RM unit :=
  r <- mangleImplTypes (children node) "" None ;;
  let '(PseudoGeneric, GenSig) := r in
  _ <- match GenSig with Some sig => mangle sig | None => ret tt end ;;
  _ <- put "I" ;;
  _ <- put PseudoGeneric ;;
  _ <- mangleImplChildren (children node) ;;
  put "_".

Definition mangleImplicitClosure (node : Node) : RM unit :=
  _ <- mangleChildNode node 0 ;;
  _ <- mangleChildNode node 2 ;;
  _ <- put "fu" ;;
  mangleChildNode node 1.

Definition mangleImplParameter (node : Node) : RM unit := unreachable "handled inline".
Definition mangleImplResult (node : Node) : RM unit := unreachable "handled inline".
Definition mangleImplErrorResult (node : Node) : RM unit := unreachable "handled inline".
Definition mangleInOut (node : Node) : RM unit := singleChildThen node "z".
Definition mangleShared (node : Node) : RM unit := singleChildThen node "h".

Definition mangleInfixOperator (node : Node) : RM unit :=
  _ <- mangleIdentifierImpl node true ;; put "oi".

Definition mangleInitializer (node : Node) : RM unit := childrenThen node "fi".
Definition mangleLazyProtocolWitnessTableAccessor (node : Node) : RM unit := childrenThen node "Wl".
Definition mangleLazyProtocolWitnessTableCacheVariable (node : Node) : RM unit :=
  childrenThen node "WL".

Definition mangleLocalDeclName (node : Node) : RM unit :=
  _ <- mangleChildNode node 1 ;; _ <- put "L" ;; mangleChildNode node 0.

Definition mangleMaterializeForSet (node : Node) : RM unit := mangleAccessor node "m".

Definition mangleMetatype (node : Node) : RM unit :=
  first <- getFirstChild node ;;
  if Kind_eqb (getKind first) K_MetatypeRepresentation then
    _ <- mangleChildNode node 1 ;; _ <- put "XM" ;; mangleChildNode node 0
  else singleChildThen node "m".

Definition mangleMetatypeRepresentation (node : Node) : RM unit :=
  text <- getText node ;;
  if str_eqb text (lit "@thin") then put "t"
  else if str_eqb text (lit "@thick") then put "T"
  else if str_eqb text (lit "@objc_metatype") then put "o"
  else unreachable "wrong metatype representation".

Definition mangleMetaclass (node : Node) : RM unit := childrenThen node "Mm".

Definition mangleModule (node : Node) : RM unit :=
  text <- getText node ;;
  if str_eqb text STDLIB_NAME then put "s"
  else if str_eqb text MANGLING_MODULE_OBJC then put "So"
  else if str_eqb text MANGLING_MODULE_CLANG_IMPORTER then put "SC"
  else mangleIdentifierNode node.

Definition mangleNativeOwningAddressor (node : Node) : RM unit := mangleAccessor node "lo".
Definition mangleNativeOwningMutableAddressor (node : Node) : RM unit := mangleAccessor node "ao".
Definition mangleNativePinningAddressor (node : Node) : RM unit := mangleAccessor node "lp".
Definition mangleNativePinningMutableAddressor (node : Node) : RM unit := mangleAccessor node "aP".
Definition mangleClassMetadataBaseOffset (node : Node) : RM unit := singleChildThen node "Mo".
Definition mangleNominalTypeDescriptor (node : Node) : RM unit := singleChildThen node "Mn".
Definition mangleNonObjCAttribute (node : Node) : RM unit := put "TO".

(** The separator follows the first element: the result is [FirstElem]. *)
Fixpoint mangleListItems (items : list Node) (FirstElem : bool) : RM bool :=
  match items with
  | [] => ret FirstElem
  | n :: items =>
      _ <- mangle n ;;
      FirstElem <- mangleListSeparator FirstElem ;;
      mangleListItems items FirstElem
  end.

Definition mangleTypeList (node : Node) : RM unit :=
  FirstElem <- mangleListItems (children node) true ;; mangleEndOfList FirstElem.

Definition mangleTuple (node : Node) : RM unit := _ <- mangleTypeList node ;; put "t".

Definition mangleNumber (node : Node) : RM unit := index <- getIndex node ;; mangleIndex index.

Definition mangleObjCAttribute (node : Node) : RM unit := put "To".
Definition mangleObjCBlock (node : Node) : RM unit := childrenReversedThen node "XB".
Definition mangleOwningAddressor (node : Node) : RM unit := mangleAccessor node "lO".
Definition mangleOwningMutableAddressor (node : Node) : RM unit := mangleAccessor node "aO".
Definition manglePartialApplyForwarder (node : Node) : RM unit := childrenReversedThen node "TA".
Definition manglePartialApplyObjCForwarder (node : Node) : RM unit :=
  childrenReversedThen node "Ta".
Definition mangleMergedFunction (node : Node) : RM unit := put "Tm".

Definition manglePostfixOperator (node : Node) : RM unit :=
  _ <- mangleIdentifierImpl node true ;; put "oP".
Definition manglePrefixOperator (node : Node) : RM unit :=
  _ <- mangleIdentifierImpl node true ;; put "op".

Definition manglePrivateDeclName (node : Node) : RM unit :=
  _ <- mangleChildNodesReversed node ;;
  put (if (getNumChildren node =? 1)%nat then "Ll" else "LL").

Definition mangleProtocol (node : Node) : RM unit := mangleAnyGenericType node "P".

Definition mangleProtocolConformance (node : Node) : RM unit :=
  c <- getChild node 0 ;;
  Ty <- getChildOfType c ;;
  r <- (if Kind_eqb (getKind Ty) K_DependentGenericType then
          sig <- getFirstChild Ty ;; body <- getChild Ty 1 ;; ret (body, Some sig)
        else ret (Ty, None)) ;;
  let '(Ty, GenSig) := r in
  _ <- mangle Ty ;;
  _ <- when (getNumChildren node =? 4)%nat (mangleChildNode node 3) ;;
  proto <- getChild node 1 ;;
  _ <- manglePureProtocol proto ;;
  _ <- mangleChildNode node 2 ;;
  match GenSig with Some sig => mangle sig | None => ret tt end.

Definition mangleProtocolDescriptor (node : Node) : RM unit :=
  c <- getSingleChild node ;; _ <- manglePureProtocol c ;; put "Mp".

Definition mangleProtocolConformanceDescriptor (node : Node) : RM unit :=
  c <- getChild node 0 ;; _ <- mangleProtocolConformance c ;; put "Mc".

Fixpoint manglePureProtocols (protocols : list Node) (FirstElem : bool) : RM bool :=
  match protocols with
  | [] => ret FirstElem
  | Child :: protocols =>
      _ <- manglePureProtocol Child ;;
      FirstElem <- mangleListSeparator FirstElem ;;
      manglePureProtocols protocols FirstElem
  end.

Definition mangleProtocolList (node : Node) (superclass : option Node)
    (hasExplicitAnyObject : bool) : RM unit :=
  protocols <- getSingleChildKind node K_TypeList ;;
  FirstElem <- manglePureProtocols (children protocols) true ;;
  _ <- mangleEndOfList FirstElem ;;
  match superclass with
  | Some superclass => _ <- mangleType superclass ;; put "Xc"
  | None => if hasExplicitAnyObject then put "Xl" else put "p"
  end.

Definition mangleProtocolListNode (node : Node) : RM unit := mangleProtocolList node None false.

Definition mangleProtocolListWithClass (node : Node) : RM unit :=
  protocols <- getChild node 0 ;;
  superclass <- getChild node 1 ;;
  mangleProtocolList protocols (Some superclass) false.

Definition mangleProtocolListWithAnyObject (node : Node) : RM unit :=
  protocols <- getChild node 0 ;; mangleProtocolList protocols None true.

Definition mangleProtocolWitness (node : Node) : RM unit := childrenThen node "TW".
Definition mangleProtocolWitnessTable (node : Node) : RM unit := singleChildThen node "WP".
Definition mangleProtocolWitnessTableAccessor (node : Node) : RM unit := singleChildThen node "Wa".

Definition mangleQualifiedArchetype (node : Node) : RM unit :=
  _ <- mangleChildNode node 1 ;;
  _ <- put "Qq" ;;
  first <- getFirstChild node ;;
  mangleNumber first.

(** Both kinds of reabstraction thunks, with their codes. *)
Definition mangleReabstraction (node : Node) (code : string) : RM unit :=
  _ <- (if (getNumChildren node =? 3)%nat then
          _ <- mangleChildNode node 1 ;;
          _ <- mangleChildNode node 2 ;;
          mangleChildNode node 0
        else mangleChildNodes node) ;;
  put code.
Definition mangleReabstractionThunk (node : Node) : RM unit := mangleReabstraction node "Tr".
Definition mangleReabstractionThunkHelper (node : Node) : RM unit := mangleReabstraction node "TR".

Definition mangleKeyPathGetterThunkHelper (node : Node) : RM unit := childrenThen node "TK".
Definition mangleKeyPathSetterThunkHelper (node : Node) : RM unit := childrenThen node "Tk".
Definition mangleKeyPathEqualsThunkHelper (node : Node) : RM unit := childrenThen node "TH".
Definition mangleKeyPathHashThunkHelper (node : Node) : RM unit := childrenThen node "Th".
Definition mangleReturnType (node : Node) : RM unit := mangleArgumentTuple node.
Definition mangleSILBoxType (node : Node) : RM unit := singleChildThen node "Xb".
Definition mangleSetter (node : Node) : RM unit := mangleAccessor node "s".

Definition mangleSpecializationPassID (node : Node) : RM unit :=
  index <- getIndex node ;; emit (decimal index).
Definition mangleSpecializationIsFragile (node : Node) : RM unit := put "q".
Definition mangleStatic (node : Node) : RM unit := singleChildThen node "Z".
Definition mangleStructure (node : Node) : RM unit := mangleAnyNominalType node.
Definition mangleSubscript (node : Node) : RM unit := mangleAbstractStorage node "p".
Definition mangleSuffix (node : Node) : RM unit := text <- getText node ;; emit text.
Definition mangleThinFunctionType (node : Node) : RM unit :=
  _ <- mangleFunctionSignature node ;; put "Xf".
Definition mangleTupleElement (node : Node) : RM unit := mangleChildNodesReversed node.
Definition mangleTupleElementName (node : Node) : RM unit := mangleIdentifierNode node.
Definition mangleTypeAlias (node : Node) : RM unit := mangleAnyGenericType node "a".

Definition mangleLabelList (node : Node) : RM unit :=
  if (getNumChildren node =? 0)%nat then put "y" else mangleChildNodes node.

Definition mangleTypeMangling (node : Node) : RM unit := childrenThen node "D".
Definition mangleTypeMetadata (node : Node) : RM unit := singleChildThen node "N".
Definition mangleTypeMetadataAccessFunction (node : Node) : RM unit := singleChildThen node "Ma".
Definition mangleTypeMetadataLazyCache (node : Node) : RM unit := childrenThen node "ML".
Definition mangleUncurriedFunctionType (node : Node) : RM unit :=
  _ <- mangleFunctionSignature node ;; put "c".
Definition mangleUnmanaged (node : Node) : RM unit := singleChildThen node "Xu".
Definition mangleUnowned (node : Node) : RM unit := singleChildThen node "Xo".
Definition mangleUnsafeAddressor (node : Node) : RM unit := mangleAccessor node "lu".
Definition mangleUnsafeMutableAddressor (node : Node) : RM unit := mangleAccessor node "au".

(** [Code] stays null for an index that is no [ValueWitnessKind]. *)
Definition mangleValueWitness (node : Node) : RM unit :=
  _ <- mangleSingleChildNode node ;;
  index <- getIndex node ;;
  _ <- put "w" ;;
  match VALUE_WITNESSES !! Z.to_nat (wrap_u32 index) with
  | Some Code => emit Code
  | None => fail (NullPointer "mangleValueWitness: Code")
  end.

Definition mangleValueWitnessTable (node : Node) : RM unit := singleChildThen node "WV".
Definition mangleVariable (node : Node) : RM unit := mangleAbstractStorage node "p".
Definition mangleVTableAttribute (node : Node) : RM unit :=
  unreachable "Old-fashioned vtable thunk in new mangling format".
Definition mangleVTableThunk (node : Node) : RM unit := childrenThen node "TV".
Definition mangleWeak (node : Node) : RM unit := singleChildThen node "Xw".
Definition mangleWillSet (node : Node) : RM unit := mangleAccessor node "w".
Definition mangleReflectionMetadataBuiltinDescriptor (node : Node) : RM unit :=
  singleChildThen node "MB".
Definition mangleReflectionMetadataFieldDescriptor (node : Node) : RM unit :=
  singleChildThen node "MF".
Definition mangleReflectionMetadataAssocTypeDescriptor (node : Node) : RM unit :=
  singleChildThen node "MA".
Definition mangleReflectionMetadataSuperclassDescriptor (node : Node) : RM unit :=
  singleChildThen node "MC".
Definition mangleCurryThunk (node : Node) : RM unit := singleChildThen node "Tc".
Definition mangleDispatchThunk (node : Node) : RM unit := singleChildThen node "Tj".
Definition mangleThrowsAnnotation (node : Node) : RM unit := put "K".
Definition mangleEmptyList (node : Node) : RM unit := put "y".
Definition mangleFirstElementMarker (node : Node) : RM unit := put "_".
Definition mangleVariadicMarker (node : Node) : RM unit := put "d".
Definition mangleOutlinedCopy (node : Node) : RM unit := singleChildThen node "Wy".
Definition mangleOutlinedConsume (node : Node) : RM unit := singleChildThen node "We".
Definition mangleOutlinedRetain (node : Node) : RM unit := singleChildThen node "Wr".
Definition mangleOutlinedRelease (node : Node) : RM unit := singleChildThen node "Ws".

(** The outlined operations with an index: the type, the code and the index. *)
Definition mangleOutlinedIndexed (node : Node) (code : string) : RM unit :=
  _ <- mangleChildNode node 0 ;; _ <- put code ;; mangleChildNode node 1.
Definition mangleOutlinedInitializeWithTake (node : Node) : RM unit :=
  mangleOutlinedIndexed node "Wb".
Definition mangleOutlinedInitializeWithCopy (node : Node) : RM unit :=
  mangleOutlinedIndexed node "Wc".
Definition mangleOutlinedAssignWithTake (node : Node) : RM unit := mangleOutlinedIndexed node "Wd".
Definition mangleOutlinedAssignWithCopy (node : Node) : RM unit := mangleOutlinedIndexed node "Wf".
Definition mangleOutlinedDestroy (node : Node) : RM unit := mangleOutlinedIndexed node "Wh".

Definition mangleOutlinedVariable (node : Node) : RM unit :=
  _ <- put "Tv" ;; index <- getIndex node ;; mangleIndex index.

Definition mangleOutlinedBridgedMethod (node : Node) : RM unit :=
  _ <- put "Te" ;; text <- getText node ;; _ <- emit text ;; put "_".

(** [layoutTypeList], with the mutable fields as [InOut] types. *)
Fixpoint boxFieldTypes (fields : list Node) : RM (list Node) :=
  match fields with
  | [] => ret []
  | field :: fields =>
      let isMutable := Kind_eqb (getKind field) K_SILBoxMutableField in
      _ <- assert "mangleSILBoxTypeWithLayout: field"
             (Kind_eqb (getKind field) K_SILBoxImmutableField || isMutable) ;;
      fieldType <- getChild field 0 ;;
      _ <- assert "mangleSILBoxTypeWithLayout: fieldType"
             ((getNumChildren field =? 1)%nat && Kind_eqb (getKind fieldType) K_Type) ;;
      fieldType <-
        (if isMutable then
           inner <- getChild fieldType 0 ;;
           ret (mkNode K_Type NoPayload [mkNode K_InOut NoPayload [inner]])
         else ret fieldType) ;;
      rest <- boxFieldTypes fields ;;
      ret (fieldType :: rest)
  end.

Definition mangleSILBoxTypeWithLayout (node : Node) : RM unit :=
  _ <- assert "mangleSILBoxTypeWithLayout: children"
         ((getNumChildren node =? 1)%nat || (getNumChildren node =? 3)%nat) ;;
  layout <- getChild node 0 ;;
  _ <- assert "mangleSILBoxTypeWithLayout: layout" (Kind_eqb (getKind layout) K_SILBoxLayout) ;;
  types <- boxFieldTypes (children layout) ;;
  _ <- mangleTypeList (mkNode K_TypeList NoPayload types) ;;
  if (getNumChildren node =? 3)%nat then
    signature <- getChild node 1 ;;
    genericArgs <- getChild node 2 ;;
    _ <- assert "mangleSILBoxTypeWithLayout: signature"
           (Kind_eqb (getKind signature) K_DependentGenericSignature) ;;
    _ <- assert "mangleSILBoxTypeWithLayout: genericArgs"
           (Kind_eqb (getKind genericArgs) K_TypeList) ;;
    _ <- mangleTypeList genericArgs ;;
    _ <- mangleDependentGenericSignature signature ;;
    put "XX"
  else put "Xx".

Definition mangleSILBoxLayout (node : Node) : RM unit :=
  unreachable "should be part of SILBoxTypeWithLayout".
Definition mangleSILBoxMutableField (node : Node) : RM unit :=
  unreachable "should be part of SILBoxTypeWithLayout".
Definition mangleSILBoxImmutableField (node : Node) : RM unit :=
  unreachable "should be part of SILBoxTypeWithLayout".

Definition mangleAssocTypePath (node : Node) : RM unit :=
  _ <- mangleListItems (children node) true ;; ret tt.

(** The [switch (node->getKind())] of [mangle]. *)
Definition dispatch (node : Node) : RM unit :=
  match getKind node with
  | K_Allocator => mangleAllocator node
  | K_ArgumentTuple => mangleArgumentTuple node
  | K_AssociatedType => mangleAssociatedType node
  | K_AssociatedTypeRef => mangleAssociatedTypeRef node
  | K_AssociatedTypeMetadataAccessor => mangleAssociatedTypeMetadataAccessor node
  | K_AssociatedTypeWitnessTableAccessor => mangleAssociatedTypeWitnessTableAccessor node
  | K_AutoClosureType => mangleAutoClosureType node
  | K_BoundGenericClass => mangleBoundGenericClass node
  | K_BoundGenericEnum => mangleBoundGenericEnum node
  | K_BoundGenericStructure => mangleBoundGenericStructure node
  | K_BuiltinTypeName => mangleBuiltinTypeName node
  | K_CFunctionPointer => mangleCFunctionPointer node
  | K_Class => mangleClass node
  | K_ClassMetadataBaseOffset => mangleClassMetadataBaseOffset node
  | K_Constructor => mangleConstructor node
  | K_CoroutineContinuationPrototype => mangleCoroutineContinuationPrototype node
  | K_Deallocator => mangleDeallocator node
  | K_DeclContext => mangleDeclContext node
  | K_DefaultArgumentInitializer => mangleDefaultArgumentInitializer node
  | K_DependentAssociatedTypeRef => mangleDependentAssociatedTypeRef node
  | K_DependentGenericConformanceRequirement => mangleDependentGenericConformanceRequirement node
  | K_DependentGenericParamCount => mangleDependentGenericParamCount node
  | K_DependentGenericParamType => mangleDependentGenericParamType node
  | K_DependentGenericSameTypeRequirement => mangleDependentGenericSameTypeRequirement node
  | K_DependentGenericLayoutRequirement => mangleDependentGenericLayoutRequirement node
  | K_DependentGenericSignature => mangleDependentGenericSignature node
  | K_DependentGenericType => mangleDependentGenericType node
  | K_DependentMemberType => mangleDependentMemberType node
  | K_DependentPseudogenericSignature => mangleDependentPseudogenericSignature node
  | K_Destructor => mangleDestructor node
  | K_DidSet => mangleDidSet node
  | K_Directness => mangleDirectness node
  | K_DynamicAttribute => mangleDynamicAttribute node
  | K_DirectMethodReferenceAttribute => mangleDirectMethodReferenceAttribute node
  | K_DynamicSelf => mangleDynamicSelf node
  | K_Enum => mangleEnum node
  | K_ErrorType => mangleErrorType node
  | K_ExistentialMetatype => mangleExistentialMetatype node
  | K_ExplicitClosure => mangleExplicitClosure node
  | K_Extension => mangleExtension node
  | K_FieldOffset => mangleFieldOffset node
  | K_FullTypeMetadata => mangleFullTypeMetadata node
  | K_Function => mangleFunction node
  | K_FunctionSignatureSpecialization => mangleFunctionSignatureSpecialization node
  | K_FunctionSignatureSpecializationParam => mangleFunctionSignatureSpecializationParam node
  | K_FunctionSignatureSpecializationParamKind => mangleFunctionSignatureSpecializationParamKind node
  | K_FunctionSignatureSpecializationParamPayload => mangleFunctionSignatureSpecializationParamPayload node
  | K_FunctionType => mangleFunctionType node
  | K_GenericPartialSpecialization => mangleGenericPartialSpecialization node
  | K_GenericPartialSpecializationNotReAbstracted => mangleGenericPartialSpecializationNotReAbstracted node
  | K_GenericProtocolWitnessTable => mangleGenericProtocolWitnessTable node
  | K_GenericProtocolWitnessTableInstantiationFunction => mangleGenericProtocolWitnessTableInstantiationFunction node
  | K_GenericSpecialization => mangleGenericSpecialization node
  | K_GenericSpecializationNotReAbstracted => mangleGenericSpecializationNotReAbstracted node
  | K_GenericSpecializationParam => mangleGenericSpecializationParam node
  | K_GenericTypeMetadataPattern => mangleGenericTypeMetadataPattern node
  | K_Getter => mangleGetter node
  | K_Global => mangleGlobal node
  | K_GlobalGetter => mangleGlobalGetter node
  | K_Identifier => mangleIdentifierNode node
  | K_Index => mangleIndexNode node
  | K_IVarInitializer => mangleIVarInitializer node
  | K_IVarDestroyer => mangleIVarDestroyer node
  | K_ImplEscaping => mangleImplEscaping node
  | K_ImplConvention => mangleImplConvention node
  | K_ImplFunctionAttribute => mangleImplFunctionAttribute node
  | K_ImplFunctionType => mangleImplFunctionType node
  | K_ImplicitClosure => mangleImplicitClosure node
  | K_ImplParameter => mangleImplParameter node
  | K_ImplResult => mangleImplResult node
  | K_ImplErrorResult => mangleImplErrorResult node
  | K_InOut => mangleInOut node
  | K_InfixOperator => mangleInfixOperator node
  | K_Initializer => mangleInitializer node
  | K_KeyPathGetterThunkHelper => mangleKeyPathGetterThunkHelper node
  | K_KeyPathSetterThunkHelper => mangleKeyPathSetterThunkHelper node
  | K_KeyPathEqualsThunkHelper => mangleKeyPathEqualsThunkHelper node
  | K_KeyPathHashThunkHelper => mangleKeyPathHashThunkHelper node
  | K_LazyProtocolWitnessTableAccessor => mangleLazyProtocolWitnessTableAccessor node
  | K_LazyProtocolWitnessTableCacheVariable => mangleLazyProtocolWitnessTableCacheVariable node
  | K_LocalDeclName => mangleLocalDeclName node
  | K_MaterializeForSet => mangleMaterializeForSet node
  | K_MergedFunction => mangleMergedFunction node
  | K_Metatype => mangleMetatype node
  | K_MetatypeRepresentation => mangleMetatypeRepresentation node
  | K_Metaclass => mangleMetaclass node
  | K_Module => mangleModule node
  | K_NativeOwningAddressor => mangleNativeOwningAddressor node
  | K_NativeOwningMutableAddressor => mangleNativeOwningMutableAddressor node
  | K_NativePinningAddressor => mangleNativePinningAddressor node
  | K_NativePinningMutableAddressor => mangleNativePinningMutableAddressor node
  | K_NominalTypeDescriptor => mangleNominalTypeDescriptor node
  | K_NonObjCAttribute => mangleNonObjCAttribute node
  | K_Number => mangleNumber node
  | K_ObjCAttribute => mangleObjCAttribute node
  | K_ObjCBlock => mangleObjCBlock node
  | K_OwningAddressor => mangleOwningAddressor node
  | K_OwningMutableAddressor => mangleOwningMutableAddressor node
  | K_PartialApplyForwarder => manglePartialApplyForwarder node
  | K_PartialApplyObjCForwarder => manglePartialApplyObjCForwarder node
  | K_PostfixOperator => manglePostfixOperator node
  | K_PrefixOperator => manglePrefixOperator node
  | K_PrivateDeclName => manglePrivateDeclName node
  | K_Protocol => mangleProtocol node
  | K_ProtocolConformance => mangleProtocolConformance node
  | K_ProtocolDescriptor => mangleProtocolDescriptor node
  | K_ProtocolConformanceDescriptor => mangleProtocolConformanceDescriptor node
  | K_ProtocolList => mangleProtocolListNode node
  | K_ProtocolListWithClass => mangleProtocolListWithClass node
  | K_ProtocolListWithAnyObject => mangleProtocolListWithAnyObject node
  | K_ProtocolWitness => mangleProtocolWitness node
  | K_ProtocolWitnessTable => mangleProtocolWitnessTable node
  | K_ProtocolWitnessTableAccessor => mangleProtocolWitnessTableAccessor node
  | K_QualifiedArchetype => mangleQualifiedArchetype node
  | K_ReabstractionThunk => mangleReabstractionThunk node
  | K_ReabstractionThunkHelper => mangleReabstractionThunkHelper node
  | K_ReturnType => mangleReturnType node
  | K_Shared => mangleShared node
  | K_SILBoxType => mangleSILBoxType node
  | K_SILBoxTypeWithLayout => mangleSILBoxTypeWithLayout node
  | K_SILBoxLayout => mangleSILBoxLayout node
  | K_SILBoxMutableField => mangleSILBoxMutableField node
  | K_SILBoxImmutableField => mangleSILBoxImmutableField node
  | K_Setter => mangleSetter node
  | K_SpecializationPassID => mangleSpecializationPassID node
  | K_SpecializationIsFragile => mangleSpecializationIsFragile node
  | K_Static => mangleStatic node
  | K_Structure => mangleStructure node
  | K_Subscript => mangleSubscript node
  | K_Suffix => mangleSuffix node
  | K_ThinFunctionType => mangleThinFunctionType node
  | K_Tuple => mangleTuple node
  | K_TupleElement => mangleTupleElement node
  | K_TupleElementName => mangleTupleElementName node
  | K_Type => mangleType node
  | K_TypeAlias => mangleTypeAlias node
  | K_TypeList => mangleTypeList node
  | K_TypeMangling => mangleTypeMangling node
  | K_TypeMetadata => mangleTypeMetadata node
  | K_TypeMetadataAccessFunction => mangleTypeMetadataAccessFunction node
  | K_TypeMetadataLazyCache => mangleTypeMetadataLazyCache node
  | K_UncurriedFunctionType => mangleUncurriedFunctionType node
  | K_Unmanaged => mangleUnmanaged node
  | K_Unowned => mangleUnowned node
  | K_UnsafeAddressor => mangleUnsafeAddressor node
  | K_UnsafeMutableAddressor => mangleUnsafeMutableAddressor node
  | K_ValueWitness => mangleValueWitness node
  | K_ValueWitnessTable => mangleValueWitnessTable node
  | K_Variable => mangleVariable node
  | K_VTableThunk => mangleVTableThunk node
  | K_VTableAttribute => mangleVTableAttribute node
  | K_Weak => mangleWeak node
  | K_WillSet => mangleWillSet node
  | K_ReflectionMetadataBuiltinDescriptor => mangleReflectionMetadataBuiltinDescriptor node
  | K_ReflectionMetadataFieldDescriptor => mangleReflectionMetadataFieldDescriptor node
  | K_ReflectionMetadataAssocTypeDescriptor => mangleReflectionMetadataAssocTypeDescriptor node
  | K_ReflectionMetadataSuperclassDescriptor => mangleReflectionMetadataSuperclassDescriptor node
  | K_GenericTypeParamDecl => mangleGenericTypeParamDecl node
  | K_CurryThunk => mangleCurryThunk node
  | K_DispatchThunk => mangleDispatchThunk node
  | K_ThrowsAnnotation => mangleThrowsAnnotation node
  | K_EmptyList => mangleEmptyList node
  | K_FirstElementMarker => mangleFirstElementMarker node
  | K_VariadicMarker => mangleVariadicMarker node
  | K_OutlinedBridgedMethod => mangleOutlinedBridgedMethod node
  | K_OutlinedCopy => mangleOutlinedCopy node
  | K_OutlinedConsume => mangleOutlinedConsume node
  | K_OutlinedRetain => mangleOutlinedRetain node
  | K_OutlinedRelease => mangleOutlinedRelease node
  | K_OutlinedInitializeWithTake => mangleOutlinedInitializeWithTake node
  | K_OutlinedInitializeWithCopy => mangleOutlinedInitializeWithCopy node
  | K_OutlinedAssignWithTake => mangleOutlinedAssignWithTake node
  | K_OutlinedAssignWithCopy => mangleOutlinedAssignWithCopy node
  | K_OutlinedDestroy => mangleOutlinedDestroy node
  | K_OutlinedVariable => mangleOutlinedVariable node
  | K_AssocTypePath => mangleAssocTypePath node
  | K_LabelList => mangleLabelList node
  end.
End mangle.

(** ** The recursion *)

(** [mangle] and [mangleAnyNominalType] on an unspecialized type, each with one
    unit of fuel less in what they call. *)
Fixpoint mangleWithFuel (fuel : nat) (node : Node) : RM unit :=
  match fuel with
  | O => fail OutOfFuel
  | S fuel => dispatch (mangleWithFuel fuel) (mangleUnboundWithFuel fuel) node
  end
with mangleUnboundWithFuel (fuel : nat) (node : Node) : RM unit :=
  match fuel with
  | O => fail OutOfFuel
  | S fuel => mangleAnyNominalType (mangleWithFuel fuel) (mangleUnboundWithFuel fuel) node
  end.

Fixpoint node_size (n : Node) : nat :=
  match n with mkNode _ _ cs => S (list_sum (map node_size cs)) end.

(** Every call is on a smaller node, but that an unspecialized type takes one
    more. *)
Definition mangle_fuel (node : Node) : nat := 2 * node_size node + 1.

Definition mangle (node : Node) : RM unit := mangleWithFuel (mangle_fuel node) node.

(** [mangleNode(node)] *)
Definition mangleNode (node : NodePointer) : outcome str :=
  match node with
  | None => Ok []
  | Some n =>
      match mangle n newRemangler with
      | Ok (_, s) => Ok (Buffer s)
      | Crash c => Crash c
      end
  end.
