(* ===== verification/IdentifierRoundtrip.v ===== *)
(** * Identifiers are read back as they were written

    [demangleIdentifier] on what [mangleIdentifier] writes: the demangler side of
    the encoding of IdentifierEncoding.v, and the two sides put together. *)

From Stdlib Require Import String.
From S2P Require Import Prelude Nodes ManglingUtils Punycode PunycodeSpecs IdentifierMangling Demangler Numbers PunycodeRoundtrip IdentifierTokens IdentifierEncoding.

(** ** The loops of [demangleIdentifier] *)

(** The part of a round after the word substitutions. *)
Definition sliceStep (isPunycoded : bool) (st : bool * str) : DM (bool * str + option str) :=
  let '(hasWordSubsts, Identifier) := st in
  zero <- nextIf "0" ;;
  if zero then ret (inr (Some Identifier))
  else
    numChars <- demangleNatural ;;
    if numChars <=? 0 then ret (inr None)
    else
      _ <- (if isPunycoded then nextIf "_" else ret false) ;;
      pos <- gets Pos ;;
      text <- gets Text ;;
      if Z.of_nat (length text) <? Z.of_nat pos + numChars then ret (inr None)
      else
        let n := Z.to_nat numChars in
        let Slice := substr text pos n in
        r <- (if isPunycoded then
                decoded <- decodePunycodeUTF8 Slice ;;
                match decoded with
                | None => ret None
                | Some PunycodedString => ret (Some (Identifier ++ PunycodedString))
                end
              else
                _ <- modify (fun s =>
                       setWordList (scanWords (S (length Slice)) Slice 0 None (Words s)) s) ;;
                ret (Some (Identifier ++ Slice))) ;;
        match r with
        | None => ret (inr None)
        | Some Identifier =>
            _ <- modify (fun s => setPos (Pos s + n) s) ;;
            if hasWordSubsts then ret (inl (hasWordSubsts, Identifier))
            else ret (inr (Some Identifier))
        end.

Lemma demangleIdentifier_step_eq isPunycoded st :
  demangleIdentifier_step isPunycoded st =
  (r <- while_ wordSubst_step st ;;
   match r with None => ret (inr None) | Some st => sliceStep isPunycoded st end).
Proof. done. Qed.

(** The rest of the loop when the inner one is running with [f1] rounds left and
    the outer one has [f2] rounds left after this. *)
Definition readWords (f1 f2 : nat) (st : bool * str) : DM (option str) :=
  r <- loop f1 wordSubst_step st ;;
  r <- match r with None => ret (inr None) | Some st => sliceStep false st end ;;
  match r with
  | inl st => loop f2 (demangleIdentifier_step false) st
  | inr b => ret b
  end.

Lemma loop_readWords f2 st s :
  loop (S f2) (demangleIdentifier_step false) st s = readWords (loop_fuel s) f2 st s.
Proof.
  cbn [loop]. unfold readWords. rewrite demangleIdentifier_step_eq. unfold bind at 1 2, while_.
  unfold bind at 1. destruct (loop (loop_fuel s) wordSubst_step st s) as [[r s']|c]; [|done].
  done.
Qed.

(** What one letter does to the inner loop. *)
Definition refLetter (i : nat) (isLast : bool) : ascii :=
  chr (Z.of_nat i + ord (if isLast then "A" else "a")).

Lemma refLetter_spec i isLast :
  (i < 26)%nat ->
  isLetter (refLetter i isLast) = true /\ isLowerLetter (refLetter i isLast) = negb isLast
  /\ isUpperLetter (refLetter i isLast) = isLast
  /\ ord (refLetter i isLast) = Z.of_nat i + ord (if isLast then "A" else "a").
Proof.
  intros Hi. unfold refLetter.
  do 26 (destruct i as [|i]; [by destruct isLast|]). lia.
Qed.

Lemma wordSubst_letter f1 acc i w isLast rest s :
  left s = refLetter i isLast :: rest -> Words s !! i = Some w -> (length (Words s) <= 26)%nat ->
  loop (S f1) wordSubst_step (true, acc) s
  = loop f1 wordSubst_step (negb isLast, acc ++ w) (advance 1 s).
Proof.
  intros Hl Hw H26. pose proof (lookup_lt_Some _ _ _ Hw) as Hi.
  destruct (refLetter_spec i isLast) as (H1 & H2 & H3 & H4); [lia|].
  cbn [loop]. unfold bind at 1, wordSubst_step at 1.
  rewrite (bind_ok _ _ _ _ _ (peekChar_left s)), Hl. cbn [head default]. unfold id. rewrite H1.
  cbn [andb]. rewrite (bind_ok _ _ _ _ _ (nextChar_left s _ _ Hl)), H2, H3, H4.
  assert ((if negb isLast then Z.of_nat i + ord (if isLast then "A" else "a") - ord "a"
           else Z.of_nat i + ord (if isLast then "A" else "a") - ord "A") = Z.of_nat i) as ->.
  { destruct isLast; cbn [negb]; lia. }
  assert (negb isLast || isLast = true) as -> by by destruct isLast.
  unfold bind, assert, gets, ret. cbn [advance Words setPos]. rewrite Nat2Z.id, Hw.
  destruct (Z.ltb_spec (Z.of_nat i) 26); [done|lia].
Qed.

Lemma wordSubst_exit f1 b acc s :
  b && isLetter (default NUL (head (left s))) = false ->
  loop (S f1) wordSubst_step (b, acc) s = Ok (Some (b, acc), s).
Proof.
  intros H. cbn [loop]. unfold bind at 1, wordSubst_step at 1.
  by rewrite (bind_ok _ _ _ _ _ (peekChar_left s)), H.
Qed.

Lemma sliceStep_end b acc rest s :
  left s = lit "0" ++ rest -> sliceStep false (b, acc) s = Ok (inr (Some acc), advance 1 s).
Proof. intros Hl. unfold sliceStep. by rewrite (bind_ok _ _ _ _ _ (nextIf_left s _ _ Hl)). Qed.

(** Reading [n] characters whose number comes first. *)
Lemma substr_left s n t rest :
  left s = t ++ rest -> length t = n -> substr (Text s) (Pos s) n = t.
Proof. intros Hl <-. unfold substr. fold (left s). by rewrite Hl, take_app_length. Qed.

Lemma left_fits s t rest :
  left s = t ++ rest -> t <> [] -> (Pos s + length t <= length (Text s))%nat.
Proof.
  intros Hl Ht. unfold left in Hl. apply (f_equal length) in Hl.
  rewrite length_drop, length_app in Hl. destruct t; [done|]. cbn [length] in *. lia.
Qed.

Lemma head_decimal n :
  0 < n -> exists c, head (decimal n) = Some c /\ isDigit c = true /\ c <> "0"%char.
Proof.
  intros Hn. destruct (decimal_spec n) as (c & ds & -> & Hd & _ & H0); [lia|]. exists c.
  inversion_clear Hd. by auto.
Qed.

Lemma head_app_l {A} (l l' : list A) x : head l = Some x -> head (l ++ l') = Some x.
Proof. by destruct l. Qed.

(** The number of characters in front of them. *)
Lemma readLength t rest s :
  left s = decimal (Z.of_nat (length t)) ++ t ++ rest -> (0 < length t)%nat ->
  Z.of_nat (length t) < 2 ^ 31 -> noDigit (t ++ rest) ->
  nextIf "0" s = Ok (false, s)
  /\ demangleNatural s
     = Ok (Z.of_nat (length t), advance (length (decimal (Z.of_nat (length t)))) s).
Proof.
  intros Hl Ht Hlt Hnd. split.
  - apply nextIf_other; [|done]. destruct (head_decimal (Z.of_nat (length t))) as (c & Hc & _ & H0); [lia|].
    rewrite Hl, (head_app_l _ _ _ Hc). congruence.
  - by apply (demangleNatural_decimal _ (t ++ rest)); [|lia|].
Qed.

Lemma renderTokens_pos ts :
  (0 < width ts)%nat -> renderTokens ts = decimal (Z.of_nat (width ts)) ++ tokensText ts.
Proof. intros H. unfold renderTokens. by destruct (Nat.ltb_spec 0 (width ts)); [|lia]. Qed.

Lemma noDigit_app t rest : t <> [] -> noDigit t -> noDigit (t ++ rest).
Proof. by destruct t. Qed.

Lemma sliceStep_tokens ts rest b acc s :
  left s = renderTokens ts ++ rest -> (0 < width ts)%nat -> valid ts -> noDigit (tokensText ts) ->
  Z.of_nat (width ts) < 2 ^ 31 ->
  sliceStep false (b, acc) s
  = Ok (if b then inl (b, acc ++ tokensText ts) else inr (Some (acc ++ tokensText ts)),
        setWordList (addTokens (Words s) ts) (advance (length (renderTokens ts)) s)).
Proof.
  intros Hl Hw Hv Hnd Hlt. rewrite renderTokens_pos in * by done. rewrite <-app_assoc in Hl.
  unfold width in *.
  destruct (readLength (tokensText ts) rest s) as [H0 Hn]; try done.
  { apply noDigit_app; [|done]. by destruct (tokensText ts); [cbn in Hw; lia|]. }
  unfold sliceStep. rewrite (bind_ok _ _ _ _ _ H0). cbv iota. rewrite (bind_ok _ _ _ _ _ Hn).
  destruct (Z.leb_spec (Z.of_nat (length (tokensText ts))) 0); [lia|].
  set (s1 := advance (length (decimal (Z.of_nat (length (tokensText ts))))) s).
  assert (left s1 = tokensText ts ++ rest) as Hl1.
  { unfold s1. by rewrite left_advance, Hl, drop_app_length. }
  rewrite (bind_ok _ _ _ _ _ (eq_refl : ret false s1 = Ok (false, s1))).
  unfold bind at 1 2, gets at 1 2.
  destruct (Z.ltb_spec (Z.of_nat (length (Text s1))) (Z.of_nat (Pos s1) + Z.of_nat (length (tokensText ts)))).
  { pose proof (left_fits s1 (tokensText ts) rest Hl1). destruct (tokensText ts); [cbn in Hw; lia|].
    specialize (H2 ltac:(done)). lia. }
  rewrite Nat2Z.id, (substr_left s1 _ _ _ Hl1 eq_refl). unfold bind, modify, ret. cbv zeta beta iota.
  rewrite scanWords_slice, (valid_tokens ts Hv).
  rewrite length_app. unfold s1, advance, setWordList, setPos. cbn [Text Pos Words IsOldFunctionTypeMangling NodeStack Substitutions].
  rewrite Nat.add_assoc. by destruct b.
Qed.

(** ** Reading a plan *)

Definition isNil {A} (l : list A) : bool := match l with [] => true | _ => false end.

(** What is left of a plan's encoding after one of its letters. *)
Definition remaining (segs : list segment) (tail : list token) : str :=
  match segs with
  | [] => if (0 <? width tail)%nat then renderTokens tail else lit "0"
  | _ => renderPlan segs tail
  end.

Lemma renderPlan_cons seg segs tail :
  renderPlan (seg :: segs) tail =
  renderTokens (seg_before seg) ++ refLetter (seg_index seg) (isNil segs) :: remaining segs tail.
Proof.
  cbn [renderPlan]. f_equal. unfold remaining, refLetter. destruct segs as [|seg' segs]; [|done].
  cbn [isNil app renderPlan]. unfold renderTokens. by destruct (0 <? width tail)%nat; rewrite ?app_nil_r.
Qed.

Lemma remaining_length segs tail : (length segs < length (remaining segs tail))%nat.
Proof.
  induction segs as [|seg segs IH].
  - unfold remaining. cbn [length].
    destruct (Nat.ltb_spec 0 (width tail)) as [H|]; [|change (length (lit "0")) with 1%nat; lia].
    rewrite renderTokens_pos, length_app by done. fold (width tail). lia.
  - cbn [remaining]. rewrite renderPlan_cons, length_app. cbn [length]. lia.
Qed.

Lemma renderTokens_width ts : (width ts <= length (renderTokens ts))%nat.
Proof.
  destruct (Nat.ltb_spec 0 (width ts)) as [H|]; [|lia].
  rewrite renderTokens_pos, length_app by done. unfold width. lia.
Qed.

Lemma valid_empty ts : valid ts -> width ts = 0%nat -> ts = [].
Proof.
  destruct ts as [|[c|w] ts]; [done|done|]. intros (Hw & _) H. destruct w; [done|]. discriminate H.
Qed.

Lemma isDigit_not_letter c : isDigit c = true -> isLetter c = false.
Proof.
  assert (implb (isDigit c) (negb (isLetter c)) = true) as H.
  { revert c. apply ascii_forall. vm_compute. reflexivity. }
  destruct (isDigit c); [|done]. intros _. by apply negb_true_iff.
Qed.

Lemma renderTokens_head ts rest :
  (0 < width ts)%nat -> isLetter (default NUL (head (renderTokens ts ++ rest))) = false.
Proof.
  intros H. destruct (head_decimal (Z.of_nat (width ts))) as (c & Hc & Hd & _); [lia|].
  rewrite renderTokens_pos, <-app_assoc, (head_app_l _ _ _ Hc) by done.
  by apply isDigit_not_letter.
Qed.

Lemma readWords_exit f1 f2 b acc s :
  (0 < f1)%nat -> b && isLetter (default NUL (head (left s))) = false ->
  readWords f1 f2 (b, acc) s =
  (r <- sliceStep false (b, acc) ;;
   match r with
   | inl st => loop f2 (demangleIdentifier_step false) st
   | inr b => ret b
   end) s.
Proof.
  intros Hf H. destruct f1 as [|f1]; [lia|]. unfold readWords.
  by rewrite (bind_ok _ _ _ _ _ (wordSubst_exit f1 b acc s H)).
Qed.

Lemma readWords_letter f1 f2 acc i w isLast rest s :
  left s = refLetter i isLast :: rest -> Words s !! i = Some w -> (length (Words s) <= 26)%nat ->
  readWords (S f1) f2 (true, acc) s = readWords f1 f2 (negb isLast, acc ++ w) (advance 1 s).
Proof.
  intros Hl Hw H26. unfold readWords, bind at 1.
  rewrite (wordSubst_letter f1 acc i w isLast rest s Hl Hw H26). unfold bind at 2.
  done.
Qed.

Lemma readWords_plan segs : forall tail acc rest s f1 f2,
  left s = remaining segs tail ++ rest ->
  (length (Words s) <= 26)%nat -> planned (Words s) segs ->
  valid (planTokens segs tail) -> noDigit (planText segs tail) ->
  Z.of_nat (length (remaining segs tail)) < 2 ^ 31 ->
  (length segs < f1)%nat -> (length segs <= f2)%nat ->
  readWords f1 f2 (negb (isNil segs), acc) s
  = Ok (Some (acc ++ planText segs tail),
        setWordList (planTexts (Words s) segs tail) (advance (length (remaining segs tail)) s)).
Proof.
  induction segs as [|seg segs IH]; intros tail acc rest s f1 f2 Hl H26 Hpl Hv Hnd Hlt Hf1 Hf2.
  - cbn [isNil negb]. rewrite readWords_exit by (done || lia).
    unfold planTexts, planTokens, planText in *. cbn [map concat app fold_left remaining] in *.
    pose proof (renderTokens_width tail). destruct (Nat.ltb_spec 0 (width tail)) as [Hw|Hw].
    + rewrite (bind_ok _ _ _ _ _ (sliceStep_tokens tail rest false acc s Hl Hw Hv Hnd ltac:(lia))). done.
    + rewrite (bind_ok _ _ _ _ _ (sliceStep_end false acc rest s Hl)).
      rewrite (valid_empty tail) by (done || lia). cbn. rewrite app_nil_r. by destruct s.
  - destruct (valid_plan_cons _ _ _ Hv) as (Hvb & Hv' & Hnd'). destruct Hpl as [Hidx Hpl].
    cbn [remaining isNil negb] in *. rewrite renderPlan_cons in *. rewrite planText_cons in *.
    change (planTexts (Words s) (seg :: segs) tail)
      with (planTexts (addTokens (Words s) (seg_before seg)) segs tail).
    rewrite length_app in *. cbn [length] in *. rewrite <-app_assoc in Hl. cbn [app] in Hl.
    destruct (Nat.ltb_spec 0 (width (seg_before seg))) as [Hw|Hw].
    + pose proof (renderTokens_width (seg_before seg)).
      rewrite readWords_exit; [|lia|rewrite Hl; by rewrite renderTokens_head].
      assert (noDigit (tokensText (seg_before seg))) as Hndb.
      { revert Hnd. unfold width in Hw. by destruct (tokensText (seg_before seg)); [cbn in Hw; lia|]. }
      rewrite (bind_ok _ _ _ _ _ (sliceStep_tokens (seg_before seg) _ true acc s Hl Hw Hvb Hndb ltac:(lia))).
      destruct f2 as [|f2]; [lia|]. rewrite loop_readWords.
      set (s2 := setWordList _ _). unfold loop_fuel.
      assert (left s2 = refLetter (seg_index seg) (isNil segs) :: remaining segs tail ++ rest) as Hl2.
      { unfold s2. change (left (setWordList _ ?x)) with (left x).
        by rewrite left_advance, Hl, drop_app_length. }
      rewrite (readWords_letter _ _ _ _ _ _ _ _ Hl2 Hidx (addTokens_length _ _ H26)).
      pose proof (length_left s2) as Hlen. rewrite Hl2 in Hlen. cbn [length] in Hlen.
      rewrite length_app in Hlen. pose proof (remaining_length segs tail).
      rewrite (IH tail _ rest); try done; try lia.
      * rewrite <-!app_assoc. unfold s2, setWordList, advance, setPos.
        cbn [Text Pos Words IsOldFunctionTypeMangling NodeStack Substitutions].
        by rewrite <-!Nat.add_assoc.
      * by rewrite left_advance, Hl2.
      * by apply addTokens_length.
    + assert (seg_before seg = []) as Hb by (apply valid_empty; [done|lia]). rewrite Hb in *.
      destruct f1 as [|f1]; [lia|]. change (renderTokens []) with (@nil ascii) in *. cbn [app length] in *.
      rewrite (readWords_letter _ _ _ _ _ _ _ _ Hl Hidx H26).
      rewrite (IH tail _ rest); try done; try lia.
      * cbn. rewrite <-app_assoc. do 3 f_equal. rewrite advance_advance. done.
      * by rewrite left_advance, Hl.
Qed.

(** ** Plain identifiers *)

Section plain.
Context {St X : Type} `{Mangler St, !ManglerLaws St} (Hmax : MaxNumWords = 26%nat).
Context (other : St -> X).
Context (other_setBuffer : forall b s, other (setBuffer b s) = other s).
Context (other_setWords : forall w s, other (setWords w s) = other s).

Lemma mangleIdentifier_plan ident T segs tail (st : St) :
  UsePunycode && needsPunycodeEncoding ident = false -> noDigit ident ->
  inBuffer (getBuffer st) (getWords st) T -> (length T <= 26)%nat ->
  plan T [] (tokens None ident) = (segs, tail) ->
  exists st', mangleIdentifier ident st = Ok (tt, st')
    /\ getBuffer st' = getBuffer st ++ (if isNil segs then [] else lit "0") ++ renderPlan segs tail
    /\ inBuffer (getBuffer st') (getWords st') (planTexts T segs tail)
    /\ other st' = other st.
Proof.
  intros Hp Hnd Hin H26 Hplan.
  pose proof (plan_tokens T [] (tokens None ident)) as Htok. rewrite Hplan in Htok. cbn [fst snd app] in Htok.
  pose proof (plan_planned T [] (tokens None ident)) as Hpl. cbn [addTokens fold_left] in Hpl.
  rewrite Hplan in Hpl. cbn [fst] in Hpl.
  destruct (scanTokens_plan (tokens None ident) T 0 [] segs tail Hplan) as [Hw Hr].
  change (0 + width [])%nat with 0%nat in *. cbn [newWords app addTokens fold_left] in Hw, Hr.
  assert (planText segs tail = ident) as Htext.
  { by rewrite <-planTokens_text, Htok, tokens_text. }
  unfold mangleIdentifier. unfold bind at 1, gets at 1. rewrite Hp.
  pose proof (scanIdent_tokens Hmax ident [] None (length (getWords st)) T (getWords st) [] st ltac:(done)
    ltac:(done) H26) as Hscan. cbn [default app length wordStart] in Hscan. unfold id in Hscan.
  change (0 + 0)%nat with 0%nat in Hscan. rewrite Hw, Hr in Hscan.
  specialize (Hscan ltac:(unfold wordTexts; rewrite take_ge, drop_ge, app_nil_r by done; by destruct Hin)).
  rewrite (bind_ok _ _ _ _ _ Hscan).
  unfold bind at 1, modify at 1. rewrite length_planRepls.
  set (st1 := setWords (getWords st ++ planWords T 0 segs tail) st).
  set (zero := if isNil segs then [] else lit "0").
  assert (when (negb (length segs =? 0)%nat) (emit (lit "0")) st1
    = Ok (tt, if isNil segs then st1 else setBuffer (getBuffer st1 ++ zero) st1)) as Hwhen.
  { unfold zero. by destruct segs. }
  rewrite (bind_ok _ _ _ _ _ Hwhen). clear Hwhen Hscan.
  set (st2 := if isNil segs then st1 else _).
  assert (getBuffer st2 = getBuffer st ++ zero /\ getWords st2 = getWords st ++ planWords T 0 segs tail
    /\ other st2 = other st) as (Hb2 & Hw2 & Ho2).
  { unfold st2, st1, zero. destruct segs; cbn [isNil].
    - by rewrite getBuffer_setWords, getWords_setWords, app_nil_r, other_setWords.
    - by rewrite getBuffer_setBuffer, getBuffer_setWords, getWords_setBuffer, getWords_setWords,
        other_setBuffer, other_setWords. }
  destruct (emitReplacements_ok other other_setBuffer other_setWords segs tail T [] st2 (getWords st))
    as (st' & He & Hb & Hin' & Ho); try done.
  { rewrite Hb2. by apply inBuffer_app. }
  { rewrite Htok. by apply tokens_valid. }
  { by rewrite Htext. }
  cbn [app length] in He. rewrite Htext in He. exists st'. split; [done|].
  split_and!; [by rewrite Hb, Hb2, <-app_assoc|done|congruence].
Qed.

End plain.

(** What [demangleIdentifier] does to the state when it reads [Identifier] from
    [out], with the words [W] known afterwards. *)
Definition readIdentifier (Identifier out : str) (W : list str) (s : Demangler) : Demangler :=
  setSubstitutions (Substitutions s ++ [createNodeText K_Identifier Identifier])
    (setWordList W (advance (length out) s)).

(** The flags in front of an identifier: [hasWordSubsts] and [isPunycoded]. *)
Definition readFlags : DM (option (bool * bool)) :=
  c <- peekChar ;;
  if negb (isDigit c) then ret None
  else
    flags <-
      (if Ascii.eqb c "0" then
         _ <- nextChar ;;
         c <- peekChar ;;
         if Ascii.eqb c "0" then _ <- nextChar ;; ret (false, true)
         else ret (true, false)
       else ret (false, false)) ;;
    ret (Some flags).

Lemma demangleIdentifier_finish Identifier isPunycoded b s s' s'' :
  Identifier <> [] -> readFlags s = Ok (Some (b, isPunycoded), s') ->
  loop (loop_fuel s') (demangleIdentifier_step isPunycoded) (b, []) s' = Ok (Some Identifier, s'') ->
  demangleIdentifier s =
    Ok (Some (createNodeText K_Identifier Identifier),
        setSubstitutions (Substitutions s'' ++ [createNodeText K_Identifier Identifier]) s'').
Proof.
  intros Hne Hf Hloop. unfold demangleIdentifier, readFlags in *.
  rewrite (bind_ok _ _ _ _ _ (peekChar_left s)) in Hf. rewrite (bind_ok _ _ _ _ _ (peekChar_left s)).
  destruct (isDigit _); cbn [negb] in *; [|done].
  assert (forall m : DM (bool * bool), (flags <- m ;; ret (Some flags)) s = Ok (Some (b, isPunycoded), s') ->
    m s = Ok (b, isPunycoded, s')) as Hm.
  { intros m. unfold bind, ret. destruct (m s) as [[[? ?] ?]|]; congruence. }
  apply Hm in Hf. rewrite (bind_ok _ _ _ _ _ Hf). cbv beta iota.
  assert (while_ (demangleIdentifier_step isPunycoded) (b, []) s' = Ok (Some Identifier, s'')) as Hw by done.
  rewrite (bind_ok _ _ _ _ _ Hw). by destruct Identifier.
Qed.

Lemma readFlags_plain c s : head (left s) = Some c -> isDigit c = true -> c <> "0"%char ->
  readFlags s = Ok (Some (false, false), s).
Proof.
  intros Hh Hd Hc. unfold readFlags. rewrite (bind_ok _ _ _ _ _ (peekChar_left s)), Hh.
  cbn [default]. unfold id. rewrite Hd. by destruct (Ascii.eqb_spec c "0").
Qed.

Lemma readFlags_words rest s : left s = lit "0" ++ rest -> head rest <> Some "0"%char ->
  readFlags s = Ok (Some (true, false), advance 1 s).
Proof.
  intros Hl Hr. change (lit "0" ++ rest) with ("0"%char :: rest) in Hl.
  unfold readFlags. rewrite (bind_ok _ _ _ _ _ (peekChar_left s)), Hl.
  cbn [head default negb]. unfold id. change (isDigit "0") with true. cbn [negb].
  unfold bind at 1. change (Ascii.eqb "0" "0") with true. cbv iota.
  rewrite (bind_ok _ _ _ _ _ (nextChar_left s _ _ Hl)).
  rewrite (bind_ok _ _ _ _ _ (peekChar_left _)), left_advance, Hl. cbn [drop].
  destruct rest as [|c rest]; [done|]. change (default NUL (head (drop 0 (c :: rest)))) with c.
  destruct (Ascii.eqb_spec c "0") as [->|]; [by destruct Hr|done].
Qed.

Lemma readFlags_punycode rest s : left s = lit "00" ++ rest ->
  readFlags s = Ok (Some (false, true), advance 2 s).
Proof.
  intros Hl. change (lit "00" ++ rest) with ("0"%char :: "0"%char :: rest) in Hl.
  unfold readFlags. rewrite (bind_ok _ _ _ _ _ (peekChar_left s)), Hl.
  cbn [head default negb]. unfold id. change (isDigit "0") with true. cbn [negb].
  unfold bind at 1. change (Ascii.eqb "0" "0") with true. cbv iota.
  rewrite (bind_ok _ _ _ _ _ (nextChar_left s _ _ Hl)).
  rewrite (bind_ok _ _ _ _ _ (peekChar_left _)), left_advance, Hl.
  change (Ascii.eqb (default NUL (head (drop 1 ("0"%char :: "0"%char :: rest)))) "0") with true.
  cbv iota.
  assert (left (advance 1 s) = "0"%char :: rest) as Hl1 by by rewrite left_advance, Hl.
  rewrite (bind_ok _ _ _ _ _ (nextChar_left _ _ _ Hl1)), advance_advance. done.
Qed.

Lemma remaining_head seg segs tail rest :
  (seg_index seg < 26)%nat -> head (remaining (seg :: segs) tail ++ rest) <> Some "0"%char.
Proof.
  intros Hi. cbn [remaining]. rewrite renderPlan_cons.
  destruct (Nat.ltb_spec 0 (width (seg_before seg))) as [Hw|Hw].
  - destruct (head_decimal (Z.of_nat (width (seg_before seg)))) as (c & Hc & _ & Hne); [lia|].
    rewrite renderTokens_pos, <-!app_assoc, (head_app_l _ _ _ Hc) by done. congruence.
  - unfold renderTokens. destruct (Nat.ltb_spec 0 (width (seg_before seg))); [lia|].
    cbn [app head]. intros [= Hc]. destruct (refLetter_spec _ (isNil segs) Hi) as (Hl & _).
    rewrite Hc in Hl. discriminate Hl.
Qed.

Lemma demangleIdentifier_plan segs tail rest s :
  let out := (if isNil segs then [] else lit "0") ++ renderPlan segs tail in
  left s = out ++ rest -> (length (Words s) <= 26)%nat -> planned (Words s) segs ->
  valid (planTokens segs tail) -> noDigit (planText segs tail) -> planText segs tail <> [] ->
  Z.of_nat (length out) < 2 ^ 31 ->
  demangleIdentifier s =
    Ok (Some (createNodeText K_Identifier (planText segs tail)),
        readIdentifier (planText segs tail) out (planTexts (Words s) segs tail) s).
Proof.
  intros out Hl H26 Hpl Hv Hnd Hne Hlt.
  assert (exists n s', readFlags s = Ok (Some (negb (isNil segs), false), s')
    /\ s' = advance n s /\ left s' = remaining segs tail ++ rest
    /\ length out = (n + length (remaining segs tail))%nat) as (n & s' & Hf & Hs' & Hl' & Hlen).
  { destruct segs as [|seg segs]; cbn [isNil negb app remaining] in *.
    - unfold planText in Hne. cbn [map concat app] in Hne.
      assert (0 < width tail)%nat as Hw by (unfold width; destruct (tokensText tail); [done|cbn; lia]).
      destruct (head_decimal (Z.of_nat (width tail))) as (c & Hc & Hd & H0); [lia|].
      exists 0%nat, s. unfold out in *. cbn [renderPlan] in *.
      destruct (Nat.ltb_spec 0 (width tail)); [|lia]. rewrite advance_0. split_and!; try done.
      apply (readFlags_plain c); try done. by rewrite Hl, renderTokens_pos, <-app_assoc, (head_app_l _ _ _ Hc).
    - destruct Hpl as [Hidx _]. apply lookup_lt_Some in Hidx as Hi.
      pose proof (addTokens_length _ (seg_before seg) H26).
      exists 1%nat, (advance 1 s). unfold out in *. rewrite <-app_assoc in Hl. split_and!; try done.
      + apply (readFlags_words _ _ Hl). apply (remaining_head seg segs tail rest). lia.
      + by rewrite left_advance, Hl. }
  assert (Words s' = Words s) as HW by by subst s'.
  erewrite demangleIdentifier_finish; [| |exact Hf|].
  3:{ unfold loop_fuel. rewrite loop_readWords. rewrite (readWords_plan segs tail [] rest); rewrite ?HW; try done.
      all: pose proof (length_left s'); pose proof (remaining_length segs tail);
        rewrite Hl', length_app in *; unfold loop_fuel; lia. }
  - cbn [app]. unfold readIdentifier. subst s'. rewrite advance_advance, <-Hlen. done.
  - done.
Qed.

(** ** Identifiers in Punycode *)

(** What is written between the length and the Punycode. *)
Definition separator (pc : str) : str :=
  let c := default NUL (head pc) in
  if isDigit c || Ascii.eqb c "_" then lit "_" else [].

Definition renderPunycode (pc : str) : str :=
  lit "00" ++ decimal (Z.of_nat (length pc)) ++ separator pc ++ pc.

Lemma separator_noDigit pc rest : pc <> [] -> noDigit (separator pc ++ pc ++ rest).
Proof.
  destruct pc as [|c pc]; [done|]. intros _. unfold separator, noDigit. cbn [head default]. unfold id.
  destruct (isDigit c) eqn:Hd; [done|]. by destruct (Ascii.eqb c "_").
Qed.

Lemma nextIf_separator pc rest s :
  left s = separator pc ++ pc ++ rest -> pc <> [] ->
  exists b, nextIf "_" s = Ok (b, advance (length (separator pc)) s).
Proof.
  destruct pc as [|c pc]; [done|]. intros Hl _. unfold separator in *. cbn [head default app] in *.
  unfold id in *. destruct (isDigit c || Ascii.eqb c "_") eqn:E.
  - exists true. by apply (nextIf_left s "_" ((c :: pc) ++ rest)).
  - exists false. rewrite advance_0. apply nextIf_other; [|done]. rewrite Hl. intros [= ->].
    by rewrite orb_true_r in E.
Qed.

Lemma sliceStep_punycode pc text rest s :
  left s = decimal (Z.of_nat (length pc)) ++ separator pc ++ pc ++ rest -> pc <> [] ->
  Z.of_nat (length pc) < 2 ^ 31 ->
  (forall S (s : S), decodePunycodeUTF8 pc s = Ok (Some text, s)) ->
  sliceStep true (false, []) s
  = Ok (inr (Some text),
        advance (length (decimal (Z.of_nat (length pc)) ++ separator pc ++ pc)) s).
Proof.
  intros Hl Hne Hlt Hdec. assert (0 < length pc)%nat as Hpos by (destruct pc; [done|cbn; lia]).
  unfold sliceStep. rewrite (bind_ok _ _ _ false s).
  2:{ apply nextIf_other; [|done].
      destruct (head_decimal (Z.of_nat (length pc))) as (c & Hc & _ & H0); [lia|].
      rewrite Hl, (head_app_l _ _ _ Hc). congruence. }
  cbv iota. rewrite (bind_ok _ _ _ _ _ (demangleNatural_decimal _ _ s Hl ltac:(lia)
    (separator_noDigit pc rest Hne))).
  destruct (Z.leb_spec (Z.of_nat (length pc)) 0); [lia|].
  set (s1 := advance (length (decimal _)) s).
  assert (left s1 = separator pc ++ pc ++ rest) as Hl1.
  { unfold s1. by rewrite left_advance, Hl, drop_app_length. }
  destruct (nextIf_separator pc rest s1 Hl1 Hne) as [b Hsep]. rewrite (bind_ok _ _ _ _ _ Hsep).
  set (s2 := advance (length (separator pc)) s1).
  assert (left s2 = pc ++ rest) as Hl2.
  { unfold s2. by rewrite left_advance, Hl1, drop_app_length. }
  unfold bind at 1 2, gets at 1 2.
  pose proof (left_fits s2 pc rest Hl2 Hne).
  destruct (Z.ltb_spec (Z.of_nat (length (Text s2))) (Z.of_nat (Pos s2) + Z.of_nat (length pc))); [lia|].
  rewrite Nat2Z.id, (substr_left s2 _ _ _ Hl2 eq_refl). unfold bind. rewrite Hdec.
  unfold modify, ret. cbv zeta beta iota. cbn [app].
  unfold s2, s1, advance, setPos. cbn [Text Pos Words IsOldFunctionTypeMangling NodeStack Substitutions].
  rewrite !length_app, !Nat.add_assoc. done.
Qed.

Lemma demangleIdentifier_punycode pc text rest s :
  left s = renderPunycode pc ++ rest -> pc <> [] -> text <> [] ->
  Z.of_nat (length (renderPunycode pc)) < 2 ^ 31 ->
  (forall S (s : S), decodePunycodeUTF8 pc s = Ok (Some text, s)) ->
  demangleIdentifier s =
    Ok (Some (createNodeText K_Identifier text), readIdentifier text (renderPunycode pc) (Words s) s).
Proof.
  intros Hl Hpc Htext Hlt Hdec. unfold renderPunycode in *. rewrite <-!app_assoc in Hl.
  set (s' := advance 2 s).
  assert (left s' = decimal (Z.of_nat (length pc)) ++ separator pc ++ pc ++ rest) as Hl'.
  { unfold s'. by rewrite left_advance, Hl. }
  rewrite !length_app in Hlt.
  pose proof (sliceStep_punycode pc text rest s' Hl' Hpc ltac:(lia) Hdec) as Hs.
  erewrite demangleIdentifier_finish; [|done|exact (readFlags_punycode _ s Hl)|].
  2:{ unfold loop_fuel. cbn [loop]. rewrite demangleIdentifier_step_eq. unfold bind, while_.
      unfold loop_fuel at 1. rewrite wordSubst_exit by done. fold s'. rewrite Hs. done. }
  unfold readIdentifier, s'. by rewrite advance_advance, !length_app.
Qed.

(** The mangler's side. *)
Lemma mangleIdentifier_punycode {St} `{Mangler St, !ManglerLaws St} ident pc (st : St) :
  UsePunycode && needsPunycodeEncoding ident = true -> pc <> [] ->
  (forall S (s : S), encodePunycodeUTF8 ident true s = Ok (Some pc, s)) ->
  exists st', mangleIdentifier ident st = Ok (tt, st')
    /\ getBuffer st' = getBuffer st ++ renderPunycode pc /\ getWords st' = getWords st
    /\ forall X (other : St -> X), (forall b s, other (setBuffer b s) = other s) -> other st' = other st.
Proof.
  intros Hp Hne Henc. unfold mangleIdentifier. unfold bind at 1, gets at 1. rewrite Hp.
  rewrite (bind_ok _ _ _ _ _ (Henc St st)). cbv zeta. cbn [default]. unfold id.
  rewrite (bind_ok _ _ _ _ _ (emit_ok _ st)), (bind_ok _ _ _ _ _ (emit_ok _ _)).
  destruct pc as [|c pc]; [done|]. unfold renderPunycode, separator. cbn [head default]. unfold id.
  destruct (isDigit c || Ascii.eqb c "_"); cbn [when].
  - rewrite (bind_ok _ _ _ _ _ (emit_ok _ _)), emit_ok. eexists. split; [done|].
    rewrite ?getBuffer_setBuffer, ?getWords_setBuffer, <-!app_assoc. split_and!; [done..|].
    intros X other Ho. by rewrite !Ho.
  - rewrite (bind_ok _ _ _ _ _ (eq_refl : ret tt _ = Ok (tt, _))), emit_ok. eexists. split; [done|].
    rewrite ?getBuffer_setBuffer, ?getWords_setBuffer, <-!app_assoc. split_and!; [done..|].
    intros X other Ho. by rewrite !Ho.
Qed.

(** ** Both kinds *)

(** The words that a mangler knows. *)
Definition knows {St} `{Mangler St} (st : St) (T : list str) : Prop :=
  inBuffer (getBuffer st) (getWords st) T /\ (length T <= 26)%nat.

(** What the mangler is given: a nonempty identifier, which either is UTF-8 text
    of at most 1926 code points that has to go through Punycode, or consists of
    symbol characters and does not start with a digit. *)
Definition validIdentifier (ident : str) : Prop :=
  ident <> [] /\
  (if needsPunycodeEncoding ident
   then exists cps, Forall unicode_scalar cps /\ Z.of_nat (length cps) <= MAX_CODE_POINTS
          /\ ident = utf8 cps
   else noDigit ident).

Lemma left_readIdentifier ident out W s rest :
  left s = out ++ rest -> left (readIdentifier ident out W s) = rest.
Proof.
  intros Hl. change (left (readIdentifier ident out W s)) with (left (advance (length out) s)).
  by rewrite left_advance, Hl, drop_app_length.
Qed.

Lemma planTexts_length T segs tail : (length T <= 26)%nat -> (length (planTexts T segs tail) <= 26)%nat.
Proof.
  unfold planTexts. intros H. apply addTokens_length. revert T H.
  induction segs as [|seg segs IH]; intros T H; cbn [fold_left]; [done|].
  by apply IH, addTokens_length.
Qed.

Lemma utf8_ne cps : utf8 cps <> [] -> cps <> [].
Proof. by destruct cps. Qed.

Section roundtrip.
Context {St X : Type} `{Mangler St, !ManglerLaws St}.
Context (Huse : UsePunycode = true) (Hmax : MaxNumWords = 26%nat).
Context (other : St -> X).
Context (other_setBuffer : forall b s, other (setBuffer b s) = other s).
Context (other_setWords : forall w s, other (setWords w s) = other s).

Lemma identifier_roundtrip ident (st : St) T :
  validIdentifier ident -> knows st T ->
  exists out st' T', mangleIdentifier ident st = Ok (tt, st') /\ getBuffer st' = getBuffer st ++ out
    /\ knows st' T' /\ other st' = other st
    /\ forall s rest, Words s = T -> left s = out ++ rest -> Z.of_nat (length out) < 2 ^ 31 ->
         demangleIdentifier s =
           Ok (Some (createNodeText K_Identifier ident), readIdentifier ident out T' s).
Proof.
  intros [Hne Hvalid] [Hin H26]. destruct (needsPunycodeEncoding ident) eqn:Hp.
  - destruct Hvalid as (cps & Hcps & HN & ->).
    destruct (punycodeUTF8_roundtrip cps Hcps HN) as (pc & He & Hd & Hpc).
    specialize (Hpc (utf8_ne _ Hne)).
    destruct (mangleIdentifier_punycode (utf8 cps) pc st) as (st' & Hm & Hb & Hw & Ho);
      [by rewrite Huse, Hp|done..|].
    exists (renderPunycode pc), st', T. split_and!; [done..| |by apply Ho|].
    + split; [|done]. rewrite Hb, Hw. by apply inBuffer_app.
    + intros s rest <- Hl Hlt. by apply (demangleIdentifier_punycode pc _ rest).
  - destruct (plan T [] (tokens None ident)) as [segs tail] eqn:Hplan.
    destruct (mangleIdentifier_plan Hmax other other_setBuffer other_setWords ident T segs tail st)
      as (st' & Hm & Hb & Hw & Ho); [by rewrite Huse, Hp|done..|].
    exists ((if isNil segs then [] else lit "0") ++ renderPlan segs tail), st', (planTexts T segs tail).
    split_and!; [done..|by split; [|apply planTexts_length]|done|]. intros s rest HT Hl Hlt.
    pose proof (plan_tokens T [] (tokens None ident)) as Htok.
    pose proof (plan_planned T [] (tokens None ident)) as Hpl.
    cbn [addTokens fold_left] in Hpl. rewrite Hplan in Htok, Hpl. cbn [fst snd app] in Htok, Hpl.
    assert (planText segs tail = ident) as Htext by by rewrite <-planTokens_text, Htok, tokens_text.
    subst T. pose proof (demangleIdentifier_plan segs tail rest s Hl H26 Hpl) as Hdem.
    rewrite Htext in Hdem. apply Hdem; [rewrite Htok; by apply tokens_valid|done..].
Qed.
End roundtrip.
