(* ===== verification/IdentifierTheorems.v ===== *)
(** * Identifiers: theorems

    [demangleIdentifier] inverts [mangleIdentifier], for one identifier and for
    the identifiers of a whole symbol, whose words refer to each other. *)

From Stdlib Require Import String.
From S2P Require Import Prelude Nodes ManglingUtils Punycode PunycodeSpecs IdentifierMangling Demangler Numbers PunycodeRoundtrip IdentifierTokens IdentifierEncoding IdentifierRoundtrip Remangler.

Lemma remangler_identifier ident (st : Remangler) T :
  validIdentifier ident -> knows st T ->
  exists out st' T', mangleIdentifier ident st = Ok (tt, st') /\ getBuffer st' = getBuffer st ++ out
    /\ knows st' T' /\ (Substitutions st', SubstMerging st') = (Substitutions st, SubstMerging st)
    /\ forall s rest, Demangler.Words s = T -> left s = out ++ rest -> Z.of_nat (length out) < 2 ^ 31 ->
         demangleIdentifier s =
           Ok (Some (createNodeText K_Identifier ident), readIdentifier ident out T' s).
Proof.
  by apply (@identifier_roundtrip Remangler _ remangler_mangler remangler_laws eq_refl eq_refl
    (fun st => (Substitutions st, SubstMerging st))).
Qed.

(** C16. The demangler reads back every identifier that the mangler writes. Whatever
    has been written before: a mangler [st] and a demangler [s] that know the same
    words [T] still know the same words [T'] afterwards, the demangler stops
    behind the encoding [out], and the identifier is its next substitution. *)
Theorem demangleIdentifier_mangleIdentifier ident (st : Remangler) T :
  validIdentifier ident -> knows st T ->
  exists out st' T', mangleIdentifier ident st = Ok (tt, st') /\ getBuffer st' = getBuffer st ++ out
    /\ knows st' T' /\ Substitutions st' = Substitutions st
    /\ forall s rest, Demangler.Words s = T -> left s = out ++ rest -> Z.of_nat (length out) < 2 ^ 31 ->
         demangleIdentifier s =
           Ok (Some (createNodeText K_Identifier ident), readIdentifier ident out T' s).
Proof.
  intros Hv Hk. destruct (remangler_identifier ident st T Hv Hk) as (out & st' & T' & ? & ? & ? & [= ? _] & ?).
  by exists out, st', T'.
Qed.

Lemma validIdentifier_ascii ident :
  ident <> [] -> needsPunycodeEncoding ident = false -> noDigit ident -> validIdentifier ident.
Proof. intros H1 H2 H3. split; [done|]. by rewrite H2. Qed.

(** The first identifier of a symbol. *)
Lemma demangleIdentifier_mangleIdentifier_witness :
  exists out st' T', mangleIdentifier (lit "ViewControllerView") newRemangler = Ok (tt, st')
    /\ getBuffer st' = [] ++ out /\ knows st' T' /\ Substitutions st' = []
    /\ forall s rest, Demangler.Words s = [] -> left s = out ++ rest -> Z.of_nat (length out) < 2 ^ 31 ->
         demangleIdentifier s =
           Ok (Some (createNodeText K_Identifier (lit "ViewControllerView")),
               readIdentifier (lit "ViewControllerView") out T' s).
Proof.
  apply (demangleIdentifier_mangleIdentifier (lit "ViewControllerView") newRemangler []).
  - apply validIdentifier_ascii; [discriminate|reflexivity|reflexivity].
  - split; [split; [reflexivity|apply Forall_nil_2]|apply Nat.leb_le; reflexivity].
Defined.

(** ** The identifiers of a symbol *)

Fixpoint mangleIdentifiers (idents : list str) : RM unit :=
  match idents with
  | [] => ret tt
  | ident :: idents => _ <- mangleIdentifier ident ;; mangleIdentifiers idents
  end.

Fixpoint demangleIdentifiers (n : nat) : DM (list NodePointer) :=
  match n with
  | O => ret []
  | S n => Nd <- demangleIdentifier ;; Nds <- demangleIdentifiers n ;; ret (Nd :: Nds)
  end.

Lemma identifiers_roundtrip idents : forall (st : Remangler) T,
  Forall validIdentifier idents -> knows st T ->
  exists out st', mangleIdentifiers idents st = Ok (tt, st') /\ getBuffer st' = getBuffer st ++ out
    /\ forall s rest, Demangler.Words s = T -> left s = out ++ rest -> Z.of_nat (length out) < 2 ^ 31 ->
         exists s', demangleIdentifiers (length idents) s
             = Ok (map (fun ident => Some (createNodeText K_Identifier ident)) idents, s')
           /\ left s' = rest.
Proof.
  induction idents as [|ident idents IH]; intros st T Hv Hk.
  - exists [], st. rewrite app_nil_r. split_and!; [done..|]. intros s rest _ Hl _. by exists s.
  - inversion_clear Hv as [|? ? Hi Hv'].
    destruct (remangler_identifier ident st T Hi Hk) as (out & st1 & T1 & Hm & Hb & Hk1 & _ & Hd).
    destruct (IH st1 T1 Hv' Hk1) as (out' & st' & Hm' & Hb' & Hd').
    exists (out ++ out'), st'. cbn [mangleIdentifiers]. rewrite (bind_ok _ _ _ _ _ Hm), Hb', Hb, <-app_assoc.
    split_and!; [done..|]. intros s rest HT Hl Hlt. rewrite length_app in Hlt. rewrite <-app_assoc in Hl.
    cbn [length demangleIdentifiers map]. rewrite (bind_ok _ _ _ _ _ (Hd s _ HT Hl ltac:(lia))).
    destruct (Hd' (readIdentifier ident out T1 s) rest) as (s' & He & Hl'); [done| |lia|].
    + by apply left_readIdentifier.
    + exists s'. by rewrite (bind_ok _ _ _ _ _ He).
Qed.

(** C15. The identifiers of a symbol survive, although each of them may be written
    with references to words of those before it: what a new mangler writes for a
    list of identifiers is read back as this list by a new demangler. *)
Theorem demangleIdentifiers_mangleIdentifiers idents st :
  Forall validIdentifier idents -> mangleIdentifiers idents newRemangler = Ok (tt, st) ->
  Z.of_nat (length (Buffer st)) < 2 ^ 31 ->
  exists s', demangleIdentifiers (length idents) (init (Buffer st) newDemangler)
    = Ok (map (fun ident => Some (createNodeText K_Identifier ident)) idents, s').
Proof.
  intros Hv Hm Hlt.
  destruct (identifiers_roundtrip idents newRemangler [] Hv) as (out & st' & Hm' & Hb & Hd).
  { by split; [split|cbn; lia]. }
  rewrite Hm in Hm'. injection Hm' as <-. cbn [getBuffer remangler_mangler] in Hb.
  change (Buffer newRemangler) with (@nil ascii) in Hb. cbn [app] in Hb. subst out.
  destruct (Hd (init (Buffer st) newDemangler) []) as (s' & He & _); [done| |done|by exists s'].
  by rewrite app_nil_r.
Qed.

(** Three identifiers that share words, one of them in Punycode. *)
Definition sampleIdentifiers : list str :=
  [lit "ViewController"; lit "MyViewControllerView"; lit "a+b"; lit "Controller_view"].

Lemma sampleIdentifiers_valid : Forall validIdentifier sampleIdentifiers.
Proof.
  repeat apply Forall_cons_2; try apply Forall_nil_2;
    try (apply validIdentifier_ascii; [discriminate|reflexivity|reflexivity]).
  split; [discriminate|]. change (needsPunycodeEncoding (lit "a+b")) with true. cbv iota.
  exists [97; 43; 98]. split_and!; [|apply Z.leb_le; reflexivity|reflexivity].
  repeat (apply Forall_cons_2; [left; lia|]). apply Forall_nil_2.
Qed.

Lemma demangleIdentifiers_mangleIdentifiers_witness :
  exists s', demangleIdentifiers 4 (init (lit "14ViewController02MyabA0007ab_ohJk0B5_view") newDemangler)
    = Ok (map (fun ident => Some (createNodeText K_Identifier ident)) sampleIdentifiers, s').
Proof.
  apply (demangleIdentifiers_mangleIdentifiers sampleIdentifiers
    (match mangleIdentifiers sampleIdentifiers newRemangler with
     | Ok (_, st) => st | Crash _ => newRemangler end)).
  - exact sampleIdentifiers_valid.
  - vm_compute. reflexivity.
  - apply Z.ltb_lt. vm_compute. reflexivity.
Defined.
