(* ===== verification/SubstitutionGroups.v ===== *)
(** * Merged substitutions

    The remangler writes references to substitutions one after the other, and
    [SubstitutionMerging] merges them: [ABAB] becomes [AbB], [ABAC] becomes [AbC],
    [SiSi] becomes [S2i]. Here such a group is a list of runs; what the mangler
    does to the end of its buffer, and what the demangler makes of it, are
    functions of that list. *)

From Stdlib Require Import String.
From S2P Require Import Prelude Nodes ManglingUtils Punycode IdentifierMangling Demangler Numbers IdentifierTokens IdentifierEncoding PunycodeRoundtrip IdentifierRoundtrip.

(** ** Groups *)

(** How often a substitution is repeated, and its index. *)
Abbreviation subst_run := (Z * nat)%type.

Definition renderCount (n : Z) : str := if 1 <? n then decimal n else [].
Definition renderRun (isLast : bool) (r : subst_run) : str :=
  renderCount r.1 ++ [refLetter r.2 isLast].

(** A group has at least one run, the last one. *)
Definition renderInit (init : list subst_run) : str := concat (map (renderRun false) init).
Definition renderGroup (init : list subst_run) (final : subst_run) : str :=
  renderInit init ++ renderRun true final.

Definition goodRun (Substs : list Node) (r : subst_run) : Prop :=
  1 <= r.1 <= MaxRepeatCount /\ (r.2 < 26)%nat /\ (r.2 < length Substs)%nat.

(** The nodes that a run stands for. *)
Definition runNodes (Substs : list Node) (r : subst_run) : list Node :=
  match Substs !! r.2 with Some Nd => replicate (Z.to_nat r.1) Nd | None => [] end.

Definition groupNodes (Substs : list Node) (rs : list subst_run) : list Node :=
  concat (map (runNodes Substs) rs).

Lemma renderRun_length r : length (renderRun false r) = length (renderRun true r).
Proof. unfold renderRun. by rewrite !length_app. Qed.

Lemma renderRun_pos isLast r : (0 < length (renderRun isLast r))%nat.
Proof. unfold renderRun. rewrite length_app. cbn. lia. Qed.

Lemma renderInit_snoc init r : renderInit (init ++ [r]) = renderInit init ++ renderRun false r.
Proof. unfold renderInit. by rewrite map_app, concat_app; cbn; rewrite app_nil_r. Qed.

(** ** Reading a group *)

Lemma left_skip t rest s : left s = t ++ rest -> left (advance (length t) s) = rest.
Proof. intros Hl. by rewrite left_advance, Hl, drop_app_length. Qed.

Lemma pushRepeated_nodes n Nd s :
  pushRepeated n Nd s = Ok (tt, setNodeStack (replicate n Nd ++ NodeStack s) s).
Proof.
  revert s. induction n as [|n IH]; intros s; cbn [pushRepeated]; [by destruct s|].
  unfold bind, pushNode, modify. rewrite IH. cbn [NodeStack setNodeStack].
  unfold setNodeStack. cbn [Text Pos IsOldFunctionTypeMangling NodeStack Substitutions Words].
  assert (replicate (S n) Nd ++ NodeStack s = replicate n Nd ++ Nd :: NodeStack s) as ->; [|done].
  by rewrite replicate_S_end, <-app_assoc.
Qed.

Lemma pushMultiSubstitutions_run RepeatCount i Nd s :
  Substitutions s !! i = Some Nd -> RepeatCount <= MaxRepeatCount ->
  pushMultiSubstitutions RepeatCount i s
  = Ok (Some Nd, setNodeStack (replicate (Z.to_nat (RepeatCount - 1)) Nd ++ NodeStack s) s).
Proof.
  intros Hi Hle. unfold pushMultiSubstitutions. unfold bind at 1, gets at 1. rewrite Hi.
  destruct (Z.ltb_spec MaxRepeatCount RepeatCount); [lia|].
  by rewrite (bind_ok _ _ _ _ _ (pushRepeated_nodes _ _ _)).
Qed.

(** The letter of a run, after its count. *)
Definition afterLetter (isLast : bool) (r : subst_run) (Nd : Node) (s : Demangler)
    : (Z + NodePointer) * Demangler :=
  let s := advance 1 s in
  if isLast
  then (inr (Some Nd), setNodeStack (replicate (Z.to_nat (r.1 - 1)) Nd ++ NodeStack s) s)
  else (inl (-1), setNodeStack (replicate (Z.to_nat r.1) Nd ++ NodeStack s) s).

Lemma refLetter_not_NUL i isLast : (i < 26)%nat -> Ascii.eqb (refLetter i isLast) NUL = false.
Proof. intros Hi. do 26 (destruct i as [|i]; [by destruct isLast|]). lia. Qed.

Lemma multiSubstitutions_letter isLast r RepeatCount Nd rest s :
  goodRun (Substitutions s) r -> Substitutions s !! r.2 = Some Nd ->
  RepeatCount = r.1 \/ RepeatCount = -1 /\ r.1 = 1 ->
  left s = refLetter r.2 isLast :: rest ->
  demangleMultiSubstitutions_step RepeatCount s =
    Ok (afterLetter isLast r Nd s).
Proof.
  destruct r as [n i]. unfold goodRun. cbn [fst snd]. intros (Hn & Hi & _) HNd HR Hl.
  destruct (refLetter_spec i isLast Hi) as (H1 & H2 & H3 & H4).
  unfold demangleMultiSubstitutions_step. rewrite (bind_ok _ _ _ _ _ (nextChar_left s _ _ Hl)).
  rewrite refLetter_not_NUL, H2, H3, H4 by done. unfold afterLetter.
  assert (Z.to_nat (RepeatCount - 1) = Z.to_nat (n - 1)) as Hcount by lia.
  destruct isLast; cbn [negb fst].
  - rewrite Z.add_simpl_r, Nat2Z.id.
    rewrite (bind_ok _ _ _ _ _ (pushMultiSubstitutions_run RepeatCount i Nd (advance 1 s) HNd ltac:(unfold MaxRepeatCount in *; lia))).
    by rewrite Hcount.
  - rewrite Z.add_simpl_r, Nat2Z.id.
    rewrite (bind_ok _ _ _ _ _ (pushMultiSubstitutions_run RepeatCount i Nd (advance 1 s) HNd ltac:(unfold MaxRepeatCount in *; lia))).
    unfold bind, pushNode, modify, ret. rewrite Hcount.
    unfold setNodeStack, advance, setPos. cbn [Text Pos IsOldFunctionTypeMangling NodeStack Substitutions Words].
    do 4 f_equal. replace (Z.to_nat n) with (S (Z.to_nat (n - 1))) by lia. done.
Qed.

Lemma digit_step c :
  isDigit c = true ->
  Ascii.eqb c NUL = false /\ isLowerLetter c = false /\ isUpperLetter c = false /\ Ascii.eqb c "_" = false.
Proof.
  assert (implb (isDigit c) (negb (Ascii.eqb c NUL || isLowerLetter c || isUpperLetter c || Ascii.eqb c "_")) = true) as H.
  { revert c. apply ascii_forall. vm_compute. reflexivity. }
  intros Hc. rewrite Hc in H. cbn [implb] in H. apply negb_true_iff in H.
  rewrite !orb_false_iff in H. by destruct H as (((? & ?) & ?) & ?).
Qed.

Lemma pushBack_advance s : pushBack (advance 1 s) = Ok (tt, s).
Proof.
  unfold pushBack, bind, gets, assert, modify, advance. cbn [Pos setPos].
  destruct (Nat.ltb_spec 0 (Pos s + 1)); [|lia]. unfold ret, setPos.
  cbn [Text Pos IsOldFunctionTypeMangling NodeStack Substitutions Words]. rewrite Nat.add_sub. by destruct s.
Qed.

(** The count of a run. *)
Lemma multiSubstitutions_count n RepeatCount rest s :
  1 < n <= MaxRepeatCount -> startsWithDigit rest = false -> left s = decimal n ++ rest ->
  demangleMultiSubstitutions_step RepeatCount s = Ok (inl n, advance (length (decimal n)) s).
Proof.
  intros Hn Hr Hl. destruct (head_decimal n) as (c & Hc & Hd & _); [lia|].
  destruct (digit_step c Hd) as (H1 & H2 & H3 & H4).
  assert (exists t, left s = c :: t) as [t Ht].
  { rewrite Hl. destruct (decimal n) as [|d ds]; [done|]. injection Hc as ->. by eexists. }
  unfold demangleMultiSubstitutions_step. rewrite (bind_ok _ _ _ _ _ (nextChar_left s _ _ Ht)), H1, H2, H3, H4.
  rewrite (bind_ok _ _ _ _ _ (pushBack_advance s)).
  rewrite (bind_ok _ _ _ _ _ (demangleNatural_decimal n rest s Hl ltac:(unfold MaxRepeatCount in *; lia) Hr)).
  by destruct (Z.ltb_spec n 0); [lia|].
Qed.

Lemma refLetter_no_digit i isLast rest : (i < 26)%nat -> startsWithDigit (refLetter i isLast :: rest) = false.
Proof.
  intros Hi. destruct (refLetter_spec i isLast Hi) as (H & _). unfold startsWithDigit.
  cbn [head default]. unfold id. destruct (isDigit _) eqn:E; [|done].
  apply isDigit_not_letter in E. congruence.
Qed.

(** A whole run, in one or two rounds. *)
Lemma multiSubstitutions_run isLast r Nd rest s fuel :
  goodRun (Substitutions s) r -> Substitutions s !! r.2 = Some Nd ->
  left s = renderRun isLast r ++ rest -> (length (renderRun isLast r) <= fuel)%nat ->
  exists fuel', (fuel <= fuel' + length (renderRun isLast r))%nat /\
  loop fuel demangleMultiSubstitutions_step (-1) s =
  (let '(next, s') := afterLetter isLast r Nd (advance (length (renderCount r.1)) s) in
   match next with
   | inl RepeatCount => loop fuel' demangleMultiSubstitutions_step RepeatCount s'
   | inr b => Ok (b, s')
   end).
Proof.
  intros Hr HNd Hl Hf. pose proof Hr as (Hn & Hi & _). unfold renderRun in *. rewrite <-app_assoc in Hl.
  rewrite length_app in Hf |- *. cbn [app length] in *.
  unfold renderCount in *. destruct (Z.ltb_spec 1 r.1) as [H1|H1].
  - destruct (head_decimal r.1) as (c & Hc & _); [lia|].
    assert (0 < length (decimal r.1))%nat by (destruct (decimal r.1); [done|cbn; lia]).
    destruct fuel as [|[|fuel]]; [lia|lia|]. exists fuel. split; [lia|].
    cbn [loop]. unfold bind at 1.
    rewrite (multiSubstitutions_count r.1 _ _ s ltac:(lia) (refLetter_no_digit _ _ _ Hi) Hl).
    unfold bind at 1.
    rewrite (multiSubstitutions_letter isLast r r.1 Nd rest); [|done|done|by left|].
    2:{ by rewrite left_advance, Hl, drop_app_length. }
    unfold afterLetter. by destruct isLast.
  - cbn [app length] in *. destruct fuel as [|fuel]; [lia|]. exists fuel. split; [lia|].
    rewrite advance_0. cbn [loop]. unfold bind at 1.
    rewrite (multiSubstitutions_letter isLast r (-1) Nd rest); [|done|done|right; lia|done].
    unfold afterLetter. by destruct isLast.
Qed.

(** The whole group: all nodes but the last are pushed, which is returned. *)
Lemma multiSubstitutions_group init : forall final Nd rest s fuel,
  Forall (goodRun (Substitutions s)) (init ++ [final]) -> Substitutions s !! final.2 = Some Nd ->
  left s = renderGroup init final ++ rest -> (length (renderGroup init final) <= fuel)%nat ->
  loop fuel demangleMultiSubstitutions_step (-1) s
  = Ok (Some Nd,
        setNodeStack (replicate (Z.to_nat (final.1 - 1)) Nd
                      ++ reverse (groupNodes (Substitutions s) init) ++ NodeStack s)
          (advance (length (renderGroup init final)) s)).
Proof.
  induction init as [|r init IH]; intros final Nd rest s fuel Hgood HNd Hl Hf.
  - inversion_clear Hgood as [|? ? Hr _]. unfold renderGroup, renderInit in *. cbn [map concat app] in *.
    destruct (multiSubstitutions_run true final Nd rest s fuel Hr HNd Hl Hf) as (fuel' & _ & ->).
    cbn. rewrite advance_advance. unfold renderRun. rewrite length_app. done.
  - inversion_clear Hgood as [|? ? Hr Hgood']. unfold renderGroup, renderInit in *. cbn [map concat] in *.
    rewrite <-!app_assoc in Hl. rewrite <-app_assoc, length_app in Hf. rewrite <-app_assoc, length_app.
    destruct (Substitutions s !! r.2) as [Nd'|] eqn:HNd'; [|by destruct Hr as (_ & _ & ?); apply lookup_ge_None in HNd'; lia].
    destruct (multiSubstitutions_run false r Nd' _ s fuel Hr HNd' Hl ltac:(lia)) as (fuel' & Hf' & ->).
    cbn [afterLetter]. set (s' := setNodeStack _ _).
    rewrite (IH final Nd rest s' fuel'); [|done|done| |lia].
    2:{ unfold s'. change (left (setNodeStack _ ?x)) with (left x). rewrite advance_advance.
        replace (length (renderCount r.1) + 1)%nat with (length (renderRun false r)).
        - rewrite <-app_assoc. by apply left_skip.
        - unfold renderRun. by rewrite length_app. }
    unfold s', setNodeStack, advance, setPos, renderRun.
    cbn [Text Pos IsOldFunctionTypeMangling NodeStack Substitutions Words].
    rewrite !length_app. cbn [length]. rewrite <-!Nat.add_assoc.
    unfold groupNodes. cbn [map concat]. rewrite reverse_app, <-!app_assoc.
    assert (runNodes (Substitutions s) r = replicate (Z.to_nat r.1) Nd') as ->.
    { unfold runNodes. by rewrite HNd'. }
    by rewrite reverse_replicate.
Qed.

Lemma demangleMultiSubstitutions_group init final Nd rest s :
  Forall (goodRun (Substitutions s)) (init ++ [final]) -> Substitutions s !! final.2 = Some Nd ->
  left s = renderGroup init final ++ rest ->
  demangleMultiSubstitutions s
  = Ok (Some Nd,
        setNodeStack (replicate (Z.to_nat (final.1 - 1)) Nd
                      ++ reverse (groupNodes (Substitutions s) init) ++ NodeStack s)
          (advance (length (renderGroup init final)) s)).
Proof.
  intros Hgood HNd Hl. unfold demangleMultiSubstitutions, while_.
  apply (multiSubstitutions_group init final Nd rest); try done.
  pose proof (length_left s) as Hlen. rewrite Hl, length_app in Hlen. unfold loop_fuel. lia.
Qed.

(** ** Large indices *)

Lemma wrap_int_small z : 0 <= z < 2 ^ 31 -> wrap_int z = z.
Proof. intros H. apply wrap_int_id. lia. Qed.

(** The text of an index, as [mangleIndex] writes it. *)
Definition renderIndex (value : Z) : str :=
  (if value =? 0 then [] else decimal (value - 1)) ++ lit "_".

Lemma demangleIndex_render value rest s :
  0 <= value < 2 ^ 31 -> left s = renderIndex value ++ rest ->
  demangleIndex s = Ok (value, advance (length (renderIndex value)) s).
Proof.
  intros Hv Hl. unfold demangleIndex, renderIndex in *. destruct (Z.eqb_spec value 0) as [->|Hne].
  - by rewrite (bind_ok _ _ _ _ _ (nextIf_left s "_" rest Hl)).
  - rewrite <-app_assoc in Hl.
    assert (nextIf "_" s = Ok (false, s)) as Hno.
    { apply nextIf_other; [|done]. destruct (decimal_spec (value - 1)) as (c & ds & He & Hd & _); [lia|].
      rewrite Hl, He. inversion_clear Hd as [|? ? Hc _]. cbn. intros [= ->]. discriminate Hc. }
    rewrite (bind_ok _ _ _ _ _ Hno). cbv iota.
    rewrite (bind_ok _ _ _ _ _ (demangleNatural_decimal (value - 1) _ s Hl ltac:(lia) eq_refl)).
    destruct (Z.leb_spec 0 (value - 1)); [|lia].
    pose proof (left_skip _ _ _ Hl) as Hl'.
    rewrite (bind_ok _ _ _ _ _ (nextIf_left _ "_" rest Hl')). cbv iota.
    rewrite wrap_int_small by lia. unfold ret. rewrite advance_advance, length_app. by rewrite Z.sub_add.
Qed.

Lemma multiSubstitutions_end RepeatCount Nd rest s :
  left s = lit "_" ++ rest -> - 27 <= RepeatCount < 2 ^ 31 ->
  Substitutions s !! Z.to_nat (RepeatCount + 27) = Some Nd ->
  demangleMultiSubstitutions_step RepeatCount s = Ok (inr (Some Nd), advance 1 s).
Proof.
  intros Hl HR HNd. unfold demangleMultiSubstitutions_step.
  rewrite (bind_ok _ _ _ _ _ (nextChar_left s _ _ Hl)).
  change (Ascii.eqb "_" NUL) with false. change (isLowerLetter "_") with false.
  change (isUpperLetter "_") with false. change (Ascii.eqb "_" "_") with true. cbv iota zeta.
  rewrite wrap_u32_id by lia. unfold bind, gets, ret.
  change (Substitutions (advance 1 s)) with (Substitutions s).
  apply lookup_lt_Some in HNd as Hlt. destruct (Z.leb_spec (Z.of_nat (length (Substitutions s))) (RepeatCount + 27)); [lia|].
  by rewrite HNd.
Qed.

(** A reference to a substitution behind the first 26. *)
Lemma demangleMultiSubstitutions_index i Nd rest s :
  Substitutions s !! i = Some Nd -> (26 <= i)%nat -> Z.of_nat i < 2 ^ 31 ->
  left s = renderIndex (Z.of_nat i - 26) ++ rest ->
  demangleMultiSubstitutions s
  = Ok (Some Nd, advance (length (renderIndex (Z.of_nat i - 26))) s).
Proof.
  intros HNd H26 Hi Hl. unfold demangleMultiSubstitutions, while_.
  pose proof (length_left s) as Hlen. rewrite Hl, length_app in Hlen. unfold loop_fuel.
  unfold renderIndex in *. destruct (Z.eqb_spec (Z.of_nat i - 26) 0) as [H0|H0].
  - cbn [loop]. unfold bind. rewrite (multiSubstitutions_end (-1) Nd rest s Hl); [done|lia|].
    by replace (Z.to_nat (-1 + 27)) with i by lia.
  - set (n := Z.of_nat i - 26 - 1) in *. rewrite <-app_assoc in Hl. rewrite length_app in *.
    assert (0 < length (decimal n))%nat.
    { destruct (decimal_spec n) as (c & ds & -> & _); [lia|cbn; lia]. }
    destruct (length (Text s) + length (NodeStack s))%nat as [|k] eqn:Ek; [lia|]. cbn [loop].
    unfold bind at 1.
    assert (exists c t, decimal n = c :: t /\ isDigit c = true) as (c & t & Ht & Hd).
    { destruct (decimal_spec n) as (c & ds & He & Hd & _); [lia|]. exists c, ds.
      by inversion_clear Hd. }
    assert (demangleMultiSubstitutions_step (-1) s = Ok (inl n, advance (length (decimal n)) s)) as ->.
    { destruct (digit_step c Hd) as (H1 & H2 & H3 & H4). unfold demangleMultiSubstitutions_step.
      assert (left s = c :: t ++ lit "_" ++ rest) as Hc by by rewrite Hl, Ht.
      rewrite (bind_ok _ _ _ _ _ (nextChar_left s _ _ Hc)), H1, H2, H3, H4.
      rewrite (bind_ok _ _ _ _ _ (pushBack_advance s)).
      rewrite (bind_ok _ _ _ _ _ (demangleNatural_decimal n _ s Hl ltac:(lia) eq_refl)).
      by destruct (Z.ltb_spec n 0); [lia|]. }
    unfold bind at 1.
    rewrite (multiSubstitutions_end n Nd rest); [|by apply left_skip|lia|].
    + by rewrite advance_advance.
    + cbn. by replace (Z.to_nat (n + 27)) with i by lia.
Qed.

(** ** Standard substitutions *)

Lemma standard_letter c Nd :
  createStandardSubstitution c = Some Nd ->
  isDigit c = false /\ Ascii.eqb c "o" = false /\ Ascii.eqb c "C" = false /\ Ascii.eqb c "g" = false.
Proof.
  assert (match createStandardSubstitution c with
    | Some _ => negb (isDigit c || Ascii.eqb c "o" || Ascii.eqb c "C" || Ascii.eqb c "g")
    | None => true end = true) as H.
  { revert c. apply ascii_forall. vm_compute. reflexivity. }
  intros Hc. rewrite Hc in H. apply negb_true_iff in H. rewrite !orb_false_iff in H.
  by destruct H as (((? & ?) & ?) & ?).
Qed.

(** What follows the [switch] of [demangleStandardSubstitution]. *)
Lemma demangleNatural_none s : startsWithDigit (left s) = false -> demangleNatural s = Ok (-1000, s).
Proof.
  intros H. unfold demangleNatural. rewrite (bind_ok _ _ _ _ _ (peekChar_left s)).
  unfold startsWithDigit in H. by rewrite H.
Qed.

Lemma demangleStandardSubstitution_run n c Nd rest s :
  1 <= n <= MaxRepeatCount -> createStandardSubstitution c = Some Nd ->
  left s = renderCount n ++ c :: rest ->
  demangleStandardSubstitution s
  = Ok (Some Nd, setNodeStack (replicate (Z.to_nat (n - 1)) Nd ++ NodeStack s)
                   (advance (length (renderCount n) + 1) s)).
Proof.
  intros Hn HNd Hl. destruct (standard_letter c Nd HNd) as (H1 & H2 & H3 & H4).
  assert (exists d t, left s = d :: t /\ Ascii.eqb d "o" = false /\ Ascii.eqb d "C" = false
    /\ Ascii.eqb d "g" = false) as (d & t & Hd & H2' & H3' & H4').
  { unfold renderCount in Hl. destruct (Z.ltb_spec 1 n).
    - destruct (decimal_spec n) as (d & ds & He & Hds & _); [lia|]. rewrite He in Hl.
      exists d, (ds ++ c :: rest). split; [done|]. inversion_clear Hds as [|? ? Hd _].
      split_and!; apply Ascii.eqb_neq; intros ->; discriminate Hd.
    - by exists c, rest. }
  unfold demangleStandardSubstitution. rewrite (bind_ok _ _ _ _ _ (nextChar_left s _ _ Hd)).
  cbn [switch]. rewrite H2', H3', H4'. rewrite (bind_ok _ _ _ _ _ (pushBack_advance s)).
  assert (exists k, demangleNatural s = Ok (k, advance (length (renderCount n)) s)
    /\ k <= MaxRepeatCount /\ Z.to_nat (k - 1) = Z.to_nat (n - 1)) as (k & Hnat & Hk & Hkn).
  { unfold renderCount in *. unfold MaxRepeatCount in *. destruct (Z.ltb_spec 1 n).
    - exists n. split_and!; [|lia|done].
      apply (demangleNatural_decimal n (c :: rest)); [done|lia|].
      unfold startsWithDigit. cbn [head default]. by unfold id.
    - exists (-1000). split_and!; [|lia|lia]. rewrite advance_0. apply demangleNatural_none.
      rewrite Hl. unfold startsWithDigit. cbn [app head default]. by unfold id. }
  rewrite (bind_ok _ _ _ _ _ Hnat). destruct (Z.ltb_spec MaxRepeatCount k); [lia|].
  pose proof (left_skip _ _ _ Hl) as Hl'. rewrite (bind_ok _ _ _ _ _ (nextChar_left _ _ _ Hl')), HNd.
  by rewrite (bind_ok _ _ _ _ _ (pushRepeated_nodes _ _ _)), advance_advance, Hkn.
Qed.
