(* ===== verification/MergingSpecs.v ===== *)
(** * What the merging of substitutions writes

    [tryMergeSubst] in terms of the groups of SubstitutionGroups.v: the buffer
    ends with a group that is still open, or with something else. *)

From Stdlib Require Import String.
From S2P Require Import Prelude Nodes ManglingUtils Punycode IdentifierMangling Demangler Numbers IdentifierTokens IdentifierEncoding PunycodeRoundtrip IdentifierRoundtrip SubstitutionGroups.

(** The buffer ends with a group of [A] substitutions that can be extended. *)
Record openGroup (m : SubstitutionMerging) (buf pre : str) (init : list subst_run) (final : subst_run)
    : Prop := {
  group_buf : buf = pre ++ lit "A" ++ renderGroup init final;
  group_count : 1 <= final.1;
  group_index : (final.2 < 26)%nat;
  group_state : m = mkMerging (length pre + 1 + length (renderInit init))
                      (length (renderRun true final)) final.1 false
}.

(** The buffer ends with a standard substitution that can be repeated. *)
Record openStandard (m : SubstitutionMerging) (buf pre : str) (n : Z) (c : ascii) : Prop := {
  standard_buf : buf = pre ++ lit "S" ++ renderCount n ++ [c];
  standard_count : 1 <= n;
  standard_char : isLetter c = true;
  standard_state : m = mkMerging (length pre + 1) (length (renderCount n ++ [c])) n true
}.

(** Nothing that ends the buffer can be extended. *)
Definition closed (m : SubstitutionMerging) (buf : str) : Prop :=
  lastNumSubsts m = 0 \/ (lastSubstPosition m + lastSubstSize m < length buf)%nat.

Lemma closed_app m buf t : closed m buf -> closed m (buf ++ t).
Proof. unfold closed. rewrite length_app. intros [?|?]; [by left|right; lia]. Qed.

Lemma openGroup_size m buf pre init final :
  openGroup m buf pre init final -> (lastSubstPosition m + lastSubstSize m = length buf)%nat.
Proof.
  intros [-> _ _ ->]. cbn [lastSubstPosition lastSubstSize]. unfold renderGroup.
  rewrite !length_app. change (length (lit "A")) with 1%nat. lia.
Qed.

Lemma openStandard_size m buf pre n c :
  openStandard m buf pre n c -> (lastSubstPosition m + lastSubstSize m = length buf)%nat.
Proof.
  intros [-> _ _ ->]. cbn [lastSubstPosition lastSubstSize].
  rewrite !length_app. change (length (lit "S")) with 1%nat. lia.
Qed.

(** Whatever is written next closes a group. *)
Lemma closed_after m buf t :
  (lastSubstPosition m + lastSubstSize m = length buf)%nat -> t <> [] -> closed m (buf ++ t).
Proof. intros H Ht. right. rewrite length_app. destruct t; [done|cbn [length]; lia]. Qed.

(** One more substitution of a group. *)
Definition extendInit (init : list subst_run) (final : subst_run) (i : nat) : list subst_run :=
  if (final.2 =? i)%nat then init else init ++ [final].
Definition extendFinal (final : subst_run) (i : nat) : subst_run :=
  if (final.2 =? i)%nat then (final.1 + 1, i) else (1, i).

Lemma refLetter_upper i : (i < 26)%nat -> isUpperLetter (refLetter i true) = true.
Proof. intros Hi. by destruct (refLetter_spec i true Hi) as (_ & _ & ? & _). Qed.

Lemma refLetter_eqb i j :
  (i < 26)%nat -> (j < 26)%nat -> Ascii.eqb (refLetter i true) (refLetter j true) = (i =? j)%nat.
Proof.
  intros Hi Hj. destruct (refLetter_spec i true Hi) as (_ & _ & _ & H1).
  destruct (refLetter_spec j true Hj) as (_ & _ & _ & H2). rewrite ascii_eqb_ord, H1, H2.
  destruct (Z.eqb_spec (Z.of_nat i + ord (if true then "A" else "a")%char)
    (Z.of_nat j + ord (if true then "A" else "a")%char)), (Nat.eqb_spec i j); done || lia.
Qed.

Lemma last_renderRun isLast r : last (renderRun isLast r) NUL = refLetter r.2 isLast.
Proof. unfold renderRun. apply last_snoc. Qed.

Lemma last_app_r (s t : str) : t <> [] -> last (s ++ t) NUL = last t NUL.
Proof.
  intros Ht. destruct (exists_last Ht) as (t' & c & ->). by rewrite app_assoc, !last_snoc.
Qed.

(** The small letter in place of the capital one. *)
Lemma refLetter_lower i :
  (i < 26)%nat -> chr (ord (refLetter i true) - ord "A" + ord "a") = refLetter i false.
Proof.
  intros Hi. destruct (refLetter_spec i true Hi) as (_ & _ & _ & ->). unfold refLetter. f_equal. lia.
Qed.

Section merging.
Context {St : Type} `{Mangler St, !ManglerLaws St}.

(** The first test of [tryMergeSubst]. *)
Definition mergeable (m : SubstitutionMerging) (buf : str) (isStandardSubst : bool) : bool :=
  (0 <? lastNumSubsts m) && (lastNumSubsts m <? MaxRepeatCount)
  && (length buf =? lastSubstPosition m + lastSubstSize m)%nat
  && Bool.eqb (lastSubstIsStandardSubst m) isStandardSubst.

Lemma mergeable_closed m buf b : closed m buf -> mergeable m buf b = false.
Proof.
  unfold mergeable. intros [->|Hlt]; [done|].
  destruct (Nat.eqb_spec (length buf) (lastSubstPosition m + lastSubstSize m)); [lia|].
  by rewrite andb_false_r.
Qed.

Lemma tryMergeSubst_new m Subst isStandardSubst (st : St) :
  isUpperLetter Subst || (isStandardSubst && isLowerLetter Subst) = true ->
  mergeable m (getBuffer st) isStandardSubst = false ->
  tryMergeSubst m Subst isStandardSubst st
  = Ok ((false, mkMerging (length (getBuffer st) + 1) 1 1 isStandardSubst), st).
Proof.
  intros Hc Hm. unfold tryMergeSubst. rewrite Hc. unfold bind, assert, gets, ret.
  unfold mergeable in Hm. by rewrite Hm.
Qed.

Lemma resetBuffer_app (st : St) s t :
  getBuffer st = s ++ t -> resetBuffer (length s) st = Ok (tt, setBuffer s st).
Proof.
  intros Hb. unfold resetBuffer, bind, gets, assert, modify. rewrite Hb, length_app.
  destruct (Nat.leb_spec (length s) (length s + length t)); [|lia]. unfold ret.
  by rewrite take_app_length.
Qed.

(** The second part, when the last thing in the buffer can be extended. *)
Lemma tryMergeSubst_open m lastSubst Subst isStandardSubst (st : St) :
  let letter c := isUpperLetter c || (isStandardSubst && isLowerLetter c) in
  letter Subst = true -> letter lastSubst = true -> last (getBuffer st) NUL = lastSubst ->
  1 <= lastNumSubsts m < MaxRepeatCount -> lastSubstIsStandardSubst m = isStandardSubst ->
  (0 < lastSubstPosition m)%nat -> (0 < lastSubstSize m)%nat ->
  (lastSubstPosition m + lastSubstSize m = length (getBuffer st))%nat ->
  tryMergeSubst m Subst isStandardSubst st =
  (let BufferStr := getBuffer st in
   if negb (Ascii.eqb lastSubst Subst) && negb isStandardSubst then
     _ <- resetBuffer (length BufferStr - 1) ;;
     _ <- emit [chr (ord lastSubst - ord "A" + ord "a")] ;;
     _ <- emit [Subst] ;;
     ret (true, mkMerging (length BufferStr) 1 1 (lastSubstIsStandardSubst m))
   else if Ascii.eqb lastSubst Subst then
     let n := lastNumSubsts m + 1 in
     _ <- resetBuffer (lastSubstPosition m) ;;
     _ <- emit (decimal n) ;;
     _ <- emit [Subst] ;;
     b <- gets getBuffer ;;
     ret (true, mkMerging (lastSubstPosition m) (length b - lastSubstPosition m) n
                  (lastSubstIsStandardSubst m))
   else ret (false, mkMerging (length BufferStr + 1) 1 1 isStandardSubst)) st.
Proof.
  intros letter Hs Hl Hlast Hn Hb Hpos Hlen Hsize. unfold tryMergeSubst. unfold letter in *. rewrite Hs.
  unfold bind at 1 2. cbn [assert ret gets]. cbv zeta.
  assert (mergeable m (getBuffer st) isStandardSubst = true) as Hmerge.
  { unfold mergeable. rewrite Hb, Hsize, Nat.eqb_refl, Bool.eqb_reflx.
    destruct (Z.ltb_spec 0 (lastNumSubsts m)), (Z.ltb_spec (lastNumSubsts m) MaxRepeatCount); done || lia. }
  unfold mergeable in Hmerge. rewrite Hmerge.
  assert ((0 <? lastSubstPosition m)%nat && (lastSubstPosition m <? length (getBuffer st))%nat = true) as ->.
  { apply andb_true_iff. split; apply Nat.ltb_lt; lia. }
  assert ((0 <? lastSubstSize m)%nat = true) as -> by by apply Nat.ltb_lt.
  unfold bind at 1 2. cbn [assert ret]. rewrite Hlast, Hl. done.
Qed.

Lemma tryMergeSubst_group m pre init final i (st : St) :
  openGroup m (getBuffer st) pre init final -> final.1 < MaxRepeatCount -> (i < 26)%nat ->
  let init' := extendInit init final i in
  let final' := extendFinal final i in
  exists m' st', tryMergeSubst m (refLetter i true) false st = Ok ((true, m'), st')
    /\ st' = setBuffer (pre ++ lit "A" ++ renderGroup init' final') st
    /\ openGroup m' (getBuffer st') pre init' final'.
Proof.
  intros Hg Hmax Hi init' final'. pose proof (openGroup_size _ _ _ _ _ Hg) as Hsize.
  destruct Hg as [Hbuf Hcount Hindex Hm].
  assert (last (getBuffer st) NUL = refLetter final.2 true) as Hlast.
  { rewrite Hbuf. unfold renderGroup. rewrite !app_assoc, last_app_r; [apply last_renderRun|].
    unfold renderRun. by destruct (renderCount final.1). }
  pose proof (renderRun_pos true final).
  erewrite tryMergeSubst_open; [|by rewrite refLetter_upper| |exact Hlast|subst m; cbn; lia|by subst m
    |subst m; cbn; lia|by subst m|done]; [|by rewrite refLetter_upper].
  cbv zeta. rewrite refLetter_eqb by done.
  unfold init', final', extendInit, extendFinal. destruct (Nat.eqb_spec final.2 i) as [Heq|Hne]; cbn [negb andb].
  - subst m. cbn [lastSubstPosition lastSubstSize lastNumSubsts lastSubstIsStandardSubst] in *.
    assert (getBuffer st = (pre ++ lit "A" ++ renderInit init) ++ renderRun true final) as Hsplit.
    { rewrite Hbuf. unfold renderGroup. by rewrite !app_assoc. }
    rewrite (bind_ok _ _ _ tt (setBuffer (pre ++ lit "A" ++ renderInit init) st)).
    2:{ rewrite <-(resetBuffer_app _ _ _ Hsplit). f_equal. rewrite !length_app. change (length (lit "A")) with 1%nat. lia. }
    rewrite (bind_ok _ _ _ _ _ (emit_ok _ _)), (bind_ok _ _ _ _ _ (emit_ok _ _)).
    unfold bind, gets, ret. rewrite ?getBuffer_setBuffer, ?setBuffer_setBuffer.
    assert (((pre ++ lit "A" ++ renderInit init) ++ decimal (final.1 + 1)) ++ [refLetter i true]
      = pre ++ lit "A" ++ renderGroup init (final.1 + 1, i)) as ->.
    { unfold renderGroup, renderRun, renderCount. cbn [fst snd].
      destruct (Z.ltb_spec 1 (final.1 + 1)); [|lia]. by rewrite <-!app_assoc. }
    eexists _, _. split; [done|]. split; [done|]. rewrite getBuffer_setBuffer.
    split; cbn [fst snd]; [done|lia|done|]. f_equal. unfold renderGroup. rewrite !length_app.
    change (length (lit "A")) with 1%nat. lia.
  - subst m. cbn [lastSubstPosition lastSubstSize lastNumSubsts lastSubstIsStandardSubst] in *.
    assert (getBuffer st = (pre ++ lit "A" ++ renderInit init ++ renderCount final.1) ++ [refLetter final.2 true]) as Hsplit.
    { rewrite Hbuf. unfold renderGroup, renderRun. by rewrite <-!app_assoc. }
    rewrite (bind_ok _ _ _ tt (setBuffer (pre ++ lit "A" ++ renderInit init ++ renderCount final.1) st)).
    2:{ rewrite <-(resetBuffer_app _ _ _ Hsplit). f_equal. rewrite Hsplit, !length_app. cbn [length]. lia. }
    rewrite (bind_ok _ _ _ _ _ (emit_ok _ _)), (bind_ok _ _ _ _ _ (emit_ok _ _)).
    unfold ret. rewrite ?getBuffer_setBuffer, ?setBuffer_setBuffer, refLetter_lower by done.
    eexists _, _. split; [done|]. rewrite getBuffer_setBuffer.
    assert (((pre ++ lit "A" ++ renderInit init ++ renderCount final.1) ++ [refLetter final.2 false]) ++ [refLetter i true]
      = pre ++ lit "A" ++ renderGroup (init ++ [final]) (1, i)) as ->.
    { unfold renderGroup. rewrite renderInit_snoc. unfold renderRun. cbn [fst snd].
      change (renderCount 1) with (@nil ascii). by rewrite <-!app_assoc. }
    split; [done|]. split; cbn [fst snd]; [done|lia|done|].
    f_equal. rewrite renderInit_snoc, Hbuf. unfold renderGroup. rewrite !length_app, renderRun_length.
    change (length (lit "A")) with 1%nat. lia.
Qed.

Lemma tryMergeSubst_standard m pre n c (st : St) :
  openStandard m (getBuffer st) pre n c -> n < MaxRepeatCount ->
  exists m' st', tryMergeSubst m c true st = Ok ((true, m'), st')
    /\ st' = setBuffer (pre ++ lit "S" ++ renderCount (n + 1) ++ [c]) st
    /\ openStandard m' (getBuffer st') pre (n + 1) c.
Proof.
  intros Hg Hmax. pose proof (openStandard_size _ _ _ _ _ Hg) as Hsize.
  destruct Hg as [Hbuf Hcount Hc Hm].
  assert (last (getBuffer st) NUL = c) as Hlast.
  { rewrite Hbuf, !app_assoc. apply last_snoc. }
  assert (isUpperLetter c || true && isLowerLetter c = true) as Hcase by by rewrite orb_comm.
  assert (0 < length (renderCount n ++ [c]))%nat by (rewrite length_app; cbn; lia).
  erewrite tryMergeSubst_open; [|done| |exact Hlast|subst m; cbn; lia|by subst m
    |subst m; cbn; lia|by subst m|done]; [|done].
  cbv zeta. rewrite Ascii.eqb_refl. cbn [negb andb].
  subst m. cbn [lastSubstPosition lastSubstSize lastNumSubsts lastSubstIsStandardSubst] in *.
  assert (getBuffer st = (pre ++ lit "S") ++ renderCount n ++ [c]) as Hsplit.
  { rewrite Hbuf. by rewrite <-!app_assoc. }
  rewrite (bind_ok _ _ _ tt (setBuffer (pre ++ lit "S") st)).
  2:{ rewrite <-(resetBuffer_app _ _ _ Hsplit). f_equal. rewrite !length_app. done. }
  rewrite (bind_ok _ _ _ _ _ (emit_ok _ _)), (bind_ok _ _ _ _ _ (emit_ok _ _)).
  unfold bind, gets, ret. rewrite ?getBuffer_setBuffer, ?setBuffer_setBuffer.
  assert (((pre ++ lit "S") ++ decimal (n + 1)) ++ [c] = pre ++ lit "S" ++ renderCount (n + 1) ++ [c]) as ->.
  { unfold renderCount. destruct (Z.ltb_spec 1 (n + 1)); [|lia]. by rewrite <-!app_assoc. }
  eexists _, _. split; [done|]. split; [done|]. rewrite getBuffer_setBuffer.
  split; cbn [fst snd]; [done|lia|done|]. f_equal. rewrite !length_app.
  change (length (lit "S")) with 1%nat. lia.
Qed.

(** A standard substitution is not merged with another one. *)
Lemma tryMergeSubst_standard_other m pre n c d (st : St) :
  openStandard m (getBuffer st) pre n c -> n < MaxRepeatCount -> c <> d -> isLetter d = true ->
  tryMergeSubst m d true st = Ok ((false, mkMerging (length (getBuffer st) + 1) 1 1 true), st).
Proof.
  intros Hg Hmax Hne Hd. pose proof (openStandard_size _ _ _ _ _ Hg) as Hsize.
  destruct Hg as [Hbuf Hcount Hc Hm].
  assert (last (getBuffer st) NUL = c) as Hlast by (rewrite Hbuf, !app_assoc; apply last_snoc).
  assert (0 < length (renderCount n ++ [c]))%nat by (rewrite length_app; cbn; lia).
  assert (forall x, isLetter x = true -> isUpperLetter x || true && isLowerLetter x = true) as Hcase.
  { intros x Hx. by rewrite orb_comm. }
  erewrite tryMergeSubst_open; [|by apply Hcase| |exact Hlast|subst m; cbn; lia|by subst m
    |subst m; cbn; lia|by subst m|done]; [|by apply Hcase].
  by destruct (Ascii.eqb_spec c d).
Qed.
End merging.
