(* ===== verification/Simulation.v ===== *)
(** * The demangler follows the remangler

    While the remangler writes, the demangler that has read what is in the buffer
    so far is in a state that corresponds to the remangler's: it knows the same
    words and the same substitutions, and its stack holds what has been written.
    [Sim] is this correspondence; the lemmas below say that each way of writing
    to the buffer keeps it. The end of the buffer needs care, since a
    substitution at the end can still be merged with the next one. *)

From Stdlib Require Import String.
From S2P Require Import Prelude Nodes ManglingUtils Punycode IdentifierMangling Demangler Numbers IdentifierTokens IdentifierEncoding PunycodeRoundtrip IdentifierRoundtrip SubstitutionGroups MergingSpecs.

(** ** Views of the demangler *)

Record view := mkView { v_stack : list Node; v_substs : list Node; v_words : list str }.

Definition viewOf (s : Demangler) : view := mkView (NodeStack s) (Substitutions s) (Words s).
Definition setView (v : view) (s : Demangler) : Demangler :=
  mkDemangler (Text s) (Pos s) (IsOldFunctionTypeMangling s) (v_stack v) (v_substs v) (v_words v).

Definition emptyView : view := mkView [] [] [].
Definition pushView (Nds : list Node) (v : view) : view :=
  mkView (Nds ++ v_stack v) (v_substs v) (v_words v).
Definition addView (Nd : Node) (v : view) : view :=
  mkView (v_stack v) (v_substs v ++ [Nd]) (v_words v).
Definition wordsView (W : list str) (v : view) : view := mkView (v_stack v) (v_substs v) W.

Lemma setView_setView v v' s : setView v (setView v' s) = setView v s.
Proof. done. Qed.

Lemma setView_viewOf s : setView (viewOf s) s = s.
Proof. by destruct s. Qed.

(** The demangler can read what it is given: positions fit into an [int]. *)
Definition readable (s : Demangler) : Prop :=
  IsOldFunctionTypeMangling s = false /\ Z.of_nat (length (Text s)) < 2 ^ 31
  /\ Z.of_nat (length (Substitutions s)) < 2 ^ 31.

(** In the view [v], the operator [op] returns [Nd] and leaves the view [v1]. *)
Definition reads (op : str) (v : view) (Nd : Node) (v1 : view) : Prop :=
  op <> [] /\
  forall s rest, readable s -> viewOf s = v -> left s = op ++ rest ->
    demangleOperator s = Ok (Some Nd, setView v1 (advance (length op) s)).

(** [k] operators of [parseAndPushNodes]. *)
Inductive Steps : nat -> Demangler -> Demangler -> Prop :=
  | Steps_0 s : Steps 0 s s
  | Steps_S k s s1 Nd s2 :
      Steps k s s1 -> (Pos s1 < length (Text s1))%nat -> demangleOperator s1 = Ok (Some Nd, s2) ->
      Steps (S k) s (setNodeStack (Nd :: NodeStack s2) s2).

Lemma loop_Steps k s s' f :
  Steps k s s' ->
  loop (k + f) parseAndPushNodes_step tt s = loop f parseAndPushNodes_step tt s'.
Proof.
  intros H. revert f. induction H as [s|k s s1 Nd s2 H IH Hp He]; intros f; [done|].
  replace (S k + f)%nat with (k + S f)%nat by lia. rewrite IH. cbn [loop].
  unfold bind at 1, parseAndPushNodes_step at 1. unfold bind at 1, gets at 1.
  destruct (Nat.ltb_spec (Pos s1) (length (Text s1))); [|lia]. cbn [negb].
  by rewrite (bind_ok _ _ _ _ _ He).
Qed.

(** Reading [buf] from the beginning leads to the view [v]. *)
Definition run (buf : str) (v : view) : Prop :=
  (length (v_substs v) <= length buf)%nat /\
  exists k, (k <= length buf)%nat /\
    forall s rest, IsOldFunctionTypeMangling s = false -> Z.of_nat (length (Text s)) < 2 ^ 31 ->
      viewOf s = emptyView -> left s = buf ++ rest ->
      Steps k s (setView v (advance (length buf) s)).

Lemma run_nil : run [] emptyView.
Proof.
  split; [done|]. exists 0%nat. split; [done|]. intros s rest _ _ Hv _.
  cbn [length]. rewrite advance_0, <-Hv, setView_viewOf. constructor.
Qed.

Lemma run_op buf op v Nd v1 :
  run buf v -> reads op v Nd v1 -> (length (v_substs v1) <= S (length (v_substs v)))%nat ->
  run (buf ++ op) (pushView [Nd] v1).
Proof.
  intros (Hlen & k & Hk & Hrun) [Hop Hreads] Hs1.
  assert (0 < length op)%nat by (destruct op; [done|cbn; lia]).
  split; [cbn [pushView v_substs]; rewrite length_app; lia|].
  exists (S k). split; [rewrite length_app; lia|].
  intros s rest Hold Htext Hv Hl. rewrite <-app_assoc in Hl.
  set (s1 := setView v (advance (length buf) s)).
  assert (left s1 = op ++ rest) as Hl1.
  { change (left s1) with (left (advance (length buf) s)). by apply left_skip. }
  pose proof (left_fits s1 op rest Hl1 Hop) as Hfit. change (Text s1) with (Text s) in Hfit.
  pose proof (length_left s) as Hleft. rewrite Hl, length_app in Hleft.
  rewrite length_app, <-advance_advance.
  assert (demangleOperator s1 = Ok (Some Nd, setView v1 (advance (length op) s1))) as He.
  { apply (Hreads s1 rest); [|by destruct v|done]. split_and!; cbn; [done|done|lia]. }
  apply (Steps_S k s s1 Nd _ (Hrun s (op ++ rest) Hold Htext Hv Hl)) in He; [done|].
  change (Text s1) with (Text s). lia.
Qed.

(** Reading a whole text. *)
Lemma run_parse buf v s :
  run buf v -> IsOldFunctionTypeMangling s = false -> Z.of_nat (length (Text s)) < 2 ^ 31 ->
  viewOf s = emptyView -> left s = buf -> (Pos s <= length (Text s))%nat ->
  parseAndPushNodes s = Ok (true, setView v (advance (length buf) s)).
Proof.
  intros (_ & k & Hk & Hrun) Hold Htext Hv Hl Hp. unfold parseAndPushNodes, while_, loop_fuel.
  assert (length buf = length (Text s) - Pos s)%nat as Hlen.
  { rewrite <-Hl. unfold left. by rewrite length_drop. }
  replace (S (length (Text s) + length (NodeStack s)))%nat
    with (k + S (length (Text s) + length (NodeStack s) - k))%nat by lia.
  rewrite (loop_Steps k s _ _ (Hrun s [] Hold Htext Hv ltac:(by rewrite app_nil_r))).
  cbn [loop]. set (s1 := setView v _).
  assert (parseAndPushNodes_step tt s1 = Ok (inr true, s1)) as Hend; [|by rewrite (bind_ok _ _ _ _ _ Hend)].
  unfold parseAndPushNodes_step. unfold bind at 1, gets at 1.
  change (Text s1) with (Text s). change (Pos s1) with (Pos s + length buf)%nat.
  by destruct (Nat.ltb_spec (Pos s + length buf) (length (Text s))); [lia|].
Qed.

(** ** Operators *)

(** An operator of the demangler is a character and what is read after it. *)
Lemma reads_char c op v Nd v1 :
  (forall s rest, readable s -> viewOf s = v -> left s = op ++ rest ->
     demangleOperatorFor c s = Ok (Some Nd, setView v1 (advance (length op) s))) ->
  reads (c :: op) v Nd v1.
Proof.
  intros H. split; [done|]. intros s rest Hr Hv Hl. unfold demangleOperator.
  rewrite (bind_ok _ _ _ _ _ (nextChar_left s c (op ++ rest) Hl)).
  rewrite (H (advance 1 s) rest); [by rewrite advance_advance|done|done|].
  by apply (left_skip [c]).
Qed.

Lemma demangleOperatorFor_digit c :
  isDigit c = true -> demangleOperatorFor c = (_ <- pushBack ;; demangleIdentifier).
Proof. destruct c as [[] [] [] [] [] [] [] []]; intros H; first [discriminate H|reflexivity]. Qed.

(** Identifiers. *)
Lemma demangleIdentifier_digit s Nd s' :
  demangleIdentifier s = Ok (Some Nd, s') -> exists c t, left s = c :: t /\ isDigit c = true.
Proof.
  unfold demangleIdentifier. rewrite (bind_ok _ _ _ _ _ (peekChar_left s)).
  destruct (left s) as [|c t] eqn:Hl; [done|]. cbn [head default]. unfold id.
  destruct (isDigit c) eqn:Hc; [|done]. intros _. by exists c, t.
Qed.

Lemma reads_identifier ident out T' v :
  (forall s rest, Words s = v_words v -> left s = out ++ rest -> Z.of_nat (length out) < 2 ^ 31 ->
     demangleIdentifier s = Ok (Some (createNodeText K_Identifier ident), readIdentifier ident out T' s)) ->
  reads out v (createNodeText K_Identifier ident)
    (addView (createNodeText K_Identifier ident) (wordsView T' v)).
Proof.
  intros H. split.
  { intros ->. pose proof (H (setView v (init [] newDemangler)) [] eq_refl eq_refl ltac:(done)) as He.
    by destruct (demangleIdentifier_digit _ _ _ He) as (c & t & Hl & _). }
  intros s rest (Hold & Htext & Hsubsts) Hv Hl.
  assert (Words s = v_words v) as HW by by rewrite <-Hv.
  assert (Z.of_nat (length out) < 2 ^ 31) as Hlen.
  { pose proof (length_left s) as Hlen. rewrite Hl, length_app in Hlen. lia. }
  pose proof (H s rest HW Hl Hlen) as He. destruct (demangleIdentifier_digit _ _ _ He) as (c & t & Hc & Hd).
  unfold demangleOperator. rewrite (bind_ok _ _ _ _ _ (nextChar_left s c t Hc)).
  rewrite demangleOperatorFor_digit by done. rewrite (bind_ok _ _ _ _ _ (pushBack_advance s)), He.
  by subst v.
Qed.

(** Groups of substitutions. *)
Lemma reads_group init final Nd v :
  Forall (goodRun (v_substs v)) (init ++ [final]) -> v_substs v !! final.2 = Some Nd ->
  reads (lit "A" ++ renderGroup init final) v Nd
    (pushView (replicate (Z.to_nat (final.1 - 1)) Nd ++ reverse (groupNodes (v_substs v) init)) v).
Proof.
  intros Hgood HNd. apply (reads_char "A"). intros s rest _ <- Hl.
  change (demangleOperatorFor "A") with demangleMultiSubstitutions.
  rewrite (demangleMultiSubstitutions_group init final Nd rest s Hgood HNd Hl).
  unfold setView, pushView, setNodeStack, advance, setPos. cbn. by rewrite <-app_assoc.
Qed.

Lemma reads_index i Nd v :
  v_substs v !! i = Some Nd -> (26 <= i)%nat ->
  reads (lit "A" ++ renderIndex (Z.of_nat i - 26)) v Nd v.
Proof.
  intros HNd Hi. apply (reads_char "A"). intros s rest (_ & _ & Hlt) <- Hl.
  change (demangleOperatorFor "A") with demangleMultiSubstitutions.
  cbn [v_substs viewOf] in HNd. apply lookup_lt_Some in HNd as Hlen.
  rewrite (demangleMultiSubstitutions_index i Nd rest s HNd Hi ltac:(lia) Hl).
  done.
Qed.

Lemma reads_standard n c Nd v :
  1 <= n <= MaxRepeatCount -> createStandardSubstitution c = Some Nd ->
  reads (lit "S" ++ renderCount n ++ [c]) v Nd (pushView (replicate (Z.to_nat (n - 1)) Nd) v).
Proof.
  intros Hn HNd. apply (reads_char "S"). intros s rest _ <- Hl.
  rewrite <-app_assoc in Hl.
  change (demangleOperatorFor "S") with demangleStandardSubstitution.
  rewrite (demangleStandardSubstitution_run n c Nd rest s Hn HNd Hl), length_app. done.
Qed.
