(* ===== verification/RemanglerSpecs.v ===== *)
(** * The substitution table of the remangler

    Equality and hashing of [SubstitutionEntry]: two entries are equal exactly
    when they stand for the same tree, or for identifiers with the same text. *)

From Stdlib Require Import String.
From S2P Require Import Prelude Nodes ManglingUtils IdentifierMangling Remangler.

Lemma payload_eqb_eq p q : payload_eqb p q = true <-> p = q.
Proof.
  destruct p as [|s|i], q as [|t|j]; cbn; try (split; congruence); unfold str_eqb.
  - rewrite bool_decide_eq_true. split; congruence.
  - rewrite Z.eqb_eq. split; congruence.
Qed.

Lemma deepEquals_eq lhs rhs : deepEquals lhs rhs = true <-> lhs = rhs.
Proof.
  revert rhs. induction lhs as [k p cs IH] using Node_tree_ind. intros [k' p' cs'].
  cbn [deepEquals]. rewrite !andb_true_iff, Kind_eqb_eq, payload_eqb_eq, Nat.eqb_eq.
  split; [intros (((-> & ->) & Hlen) & Hgo)|intros [= -> -> <-]].
  - f_equal. revert cs' Hlen Hgo. induction IH as [|c cs Hc _ IH]; intros [|c' cs'] Hlen Hgo; try done.
    apply andb_true_iff in Hgo as [Hc' Hgo]. apply Hc in Hc' as ->. f_equal. apply IH; [by injection Hlen|done].
  - split_and!; try done. induction IH as [|c cs Hc _ IH]; [done|].
    apply andb_true_iff. split; [by apply Hc|done].
Qed.

(** The entry that [setNode] makes. *)
Definition entryOf (node : Node) (treatAsIdentifier : bool) : SubstitutionEntry :=
  mkEntry node
    (if treatAsIdentifier then combineHashText (combineHash 0 (kind_index K_Identifier)) (nodeText node)
     else deepHashNode 0 node) treatAsIdentifier.

Lemma setNode_node {S} node (s : S) : setNode node false s = Ok (entryOf node false, s).
Proof. done. Qed.

Lemma setNode_text {S} k t cs (s : S) :
  setNode (mkNode k (TextPayload t) cs) true s = Ok (entryOf (mkNode k (TextPayload t) cs) true, s).
Proof. done. Qed.

Lemma entry_eqb_spec a b i j :
  entry_eqb (entryOf a i) (entryOf b j) = true
  <-> i = j /\ (if i then nodeText a = nodeText b else a = b).
Proof.
  unfold entry_eqb, entryOf. cbn [StoredHash treatAsIdentifier TheNode].
  rewrite !andb_true_iff, Z.eqb_eq, Bool.eqb_true_iff.
  split; [intros ((Hh & ->) & He)|intros (-> & He)].
  - split; [done|]. destruct j; [by apply bool_decide_eq_true in He|by apply deepEquals_eq].
  - destruct j; [rewrite He|subst b]; split_and!; try done.
    + by apply bool_decide_eq_true.
    + by apply deepEquals_eq.
Qed.
