(* ===== verification/SymbolSimulation.v ===== *)
(** * The simulation between remangler and demangler

    [Sim pfx st v]: after the prefix [pfx], the remangler [st] has written what
    leads the demangler to the view [v]. *)

From Stdlib Require Import String.
From S2P Require Import Prelude Nodes ManglingUtils Punycode IdentifierMangling Demangler Numbers IdentifierTokens IdentifierEncoding PunycodeRoundtrip IdentifierRoundtrip SubstitutionGroups MergingSpecs Simulation Remangler RemanglerSpecs.

(** The demangler's substitution for an entry of the remangler. *)
Definition entryNode (e : SubstitutionEntry) : Node :=
  if treatAsIdentifier e then createNodeText K_Identifier (nodeText (TheNode e))
  else mkNode K_Type NoPayload [TheNode e].

Definition canonical (e : SubstitutionEntry) : Prop := e = entryOf (TheNode e) (treatAsIdentifier e).

Lemma canonical_entryOf n i : canonical (entryOf n i).
Proof. done. Qed.

(** Equal entries stand for the same node. *)
Lemma entryNode_eqb e e' : canonical e -> canonical e' -> entry_eqb e e' = true -> entryNode e = entryNode e'.
Proof.
  unfold canonical, entryNode. intros -> ->. intros [Hi He]%entry_eqb_spec.
  cbn [entryOf treatAsIdentifier TheNode]. rewrite Hi in *. destruct (treatAsIdentifier e'); by rewrite He.
Qed.

(** What the end of the buffer can be merged with. In the last two cases the
    words lie in front of the group, and the view comes from reading it. *)
Inductive mergeState (pfx : str) (st : Remangler) (buf : str) (v : view) : Prop :=
  | merge_closed : closed (SubstMerging st) (pfx ++ buf) -> mergeState pfx st buf v
  | merge_group pre init final v1 :
      openGroup (SubstMerging st) (pfx ++ buf) (pfx ++ pre) init final -> run pre v1 ->
      Forall (goodRun (v_substs v1)) (init ++ [final]) ->
      v = pushView (reverse (groupNodes (v_substs v1) (init ++ [final]))) v1 ->
      inBuffer (pfx ++ pre) (Words st) (v_words v) -> mergeState pfx st buf v
  | merge_standard pre n c Nd v1 :
      openStandard (SubstMerging st) (pfx ++ buf) (pfx ++ pre) n c -> run pre v1 ->
      n <= MaxRepeatCount -> createStandardSubstitution c = Some Nd ->
      v = pushView (replicate (Z.to_nat n) Nd) v1 ->
      inBuffer (pfx ++ pre) (Words st) (v_words v) -> mergeState pfx st buf v.

Record Sim (pfx : str) (st : Remangler) (v : view) : Prop := {
  sim_buffer : exists buf, Buffer st = pfx ++ buf /\ run buf v /\ mergeState pfx st buf v;
  sim_words : knows st (v_words v);
  sim_substs : v_substs v = map entryNode (Substitutions st);
  sim_canonical : Forall canonical (Substitutions st)
}.

(** ** Writing an operator *)

Lemma mergeState_after pfx st buf v st' op v' :
  mergeState pfx st buf v -> SubstMerging st' = SubstMerging st -> op <> [] ->
  mergeState pfx st' (buf ++ op) v'.
Proof.
  intros Hm He Hop. apply merge_closed. rewrite He, app_assoc. destruct Hm as [Hc|? ? ? ? Hg|? ? ? ? ? Hg].
  - by apply closed_app.
  - eapply closed_after; [by eapply openGroup_size|done].
  - eapply closed_after; [by eapply openStandard_size|done].
Qed.

Lemma Sim_op pfx st v op Nd v1 st' :
  Sim pfx st v -> reads op v Nd v1 -> Buffer st' = Buffer st ++ op ->
  SubstMerging st' = SubstMerging st -> knows st' (v_words v1) ->
  v_substs v1 = map entryNode (Substitutions st') -> Forall canonical (Substitutions st') ->
  (length (v_substs v1) <= S (length (v_substs v)))%nat ->
  Sim pfx st' (pushView [Nd] v1).
Proof.
  intros [(buf & Hb & Hrun & Hm) _ _ _] Hr Hb' Hm' Hk Hs Hc Hlen. split; [|done..].
  exists (buf ++ op). rewrite Hb', Hb, app_assoc. split_and!; [done|by eapply run_op|].
  eapply mergeState_after; [done..|]. by destruct Hr.
Qed.

(** Text that is appended, with nothing else changed. *)
Definition appended (t : str) (st : Remangler) : Remangler := setBuffer (Buffer st ++ t) st.

Lemma knows_appended t st T : knows st T -> knows (appended t st) T.
Proof. intros [Hin H26]. split; [|done]. by apply inBuffer_app. Qed.

Lemma put_appended s st : put s st = Ok (tt, appended (lit s) st).
Proof. done. Qed.

Lemma appended_appended t u st : appended u (appended t st) = appended (t ++ u) st.
Proof. unfold appended. cbn. by rewrite <-app_assoc. Qed.

Lemma Sim_put pfx st v op Nd v1 :
  Sim pfx st v -> reads op v Nd v1 -> v_words v1 = v_words v -> v_substs v1 = v_substs v ->
  Sim pfx (appended op st) (pushView [Nd] v1).
Proof.
  intros Hs Hr Hw Hss. eapply Sim_op; [done|done|done|done| | | |]; rewrite ?Hw, ?Hss.
  - apply knows_appended, Hs.
  - apply Hs.
  - apply Hs.
  - lia.
Qed.

(** ** References to substitutions *)

Lemma groupNodes_app Substs rs rs' :
  groupNodes Substs (rs ++ rs') = groupNodes Substs rs ++ groupNodes Substs rs'.
Proof. unfold groupNodes. by rewrite map_app, concat_app. Qed.

Lemma groupNodes_one Substs r Nd :
  Substs !! r.2 = Some Nd -> groupNodes Substs [r] = replicate (Z.to_nat r.1) Nd.
Proof. intros H. unfold groupNodes, runNodes. cbn [map concat]. by rewrite H, app_nil_r. Qed.

Lemma groupNodes_extend Substs init final i Nd :
  goodRun Substs final -> Substs !! i = Some Nd ->
  groupNodes Substs (extendInit init final i ++ [extendFinal final i])
  = groupNodes Substs (init ++ [final]) ++ [Nd].
Proof.
  intros (Hn & _) HNd. unfold extendInit, extendFinal.
  destruct (Nat.eqb_spec final.2 i) as [Hi|Hi]; rewrite !groupNodes_app.
  - rewrite <-app_assoc, (groupNodes_one _ (final.1 + 1, i) Nd), (groupNodes_one _ final Nd) by (cbn; congruence).
    cbn [fst]. replace (Z.to_nat (final.1 + 1)) with (S (Z.to_nat final.1)) by lia.
    by rewrite replicate_S_end.
  - by rewrite (groupNodes_one _ (1, i) Nd).
Qed.

Lemma extend_good Substs init final i :
  Forall (goodRun Substs) (init ++ [final]) -> final.1 < MaxRepeatCount -> (i < 26)%nat ->
  (i < length Substs)%nat ->
  Forall (goodRun Substs) (extendInit init final i ++ [extendFinal final i]).
Proof.
  intros Hg Hmax Hi Hlt. pose proof Hg as [Hinit Hfinal]%Forall_app.
  inversion_clear Hfinal as [|? ? (Hn & _ & _) _]. unfold extendInit, extendFinal.
  destruct (Nat.eqb_spec final.2 i); apply Forall_app_2; try done;
    apply Forall_cons_2; try apply Forall_nil_2; split_and!; cbn [fst snd]; unfold MaxRepeatCount in *; try done; lia.
Qed.

(** Reading a group from where it begins. *)
Lemma run_group pre v1 init final :
  run pre v1 -> Forall (goodRun (v_substs v1)) (init ++ [final]) ->
  run (pre ++ lit "A" ++ renderGroup init final)
    (pushView (reverse (groupNodes (v_substs v1) (init ++ [final]))) v1).
Proof.
  intros Hrun Hg. pose proof Hg as [_ Hfinal]%Forall_app.
  inversion_clear Hfinal as [|? ? (Hn & _ & Hlt) _].
  destruct (v_substs v1 !! final.2) as [Nd|] eqn:HNd; [|apply lookup_ge_None in HNd; lia].
  assert (pushView (reverse (groupNodes (v_substs v1) (init ++ [final]))) v1
    = pushView [Nd] (pushView (replicate (Z.to_nat (final.1 - 1)) Nd ++ reverse (groupNodes (v_substs v1) init)) v1))
    as ->; [|eapply run_op; [done|by apply reads_group|cbn; lia]].
  unfold pushView. cbn [v_stack v_substs v_words]. f_equal.
  rewrite groupNodes_app, reverse_app, (groupNodes_one _ final Nd), reverse_replicate, <-!app_assoc by done.
  replace (Z.to_nat final.1) with (S (Z.to_nat (final.1 - 1))) by lia. done.
Qed.

Lemma run_standard pre v1 n c Nd :
  run pre v1 -> 1 <= n <= MaxRepeatCount -> createStandardSubstitution c = Some Nd ->
  run (pre ++ lit "S" ++ renderCount n ++ [c]) (pushView (replicate (Z.to_nat n) Nd) v1).
Proof.
  intros Hrun Hn HNd.
  assert (pushView (replicate (Z.to_nat n) Nd) v1 = pushView [Nd] (pushView (replicate (Z.to_nat (n - 1)) Nd) v1))
    as ->; [|eapply run_op; [done|by apply reads_standard|cbn; lia]].
  unfold pushView. cbn [v_stack v_substs v_words].
  by replace (Z.to_nat n) with (S (Z.to_nat (n - 1))) by lia.
Qed.

Lemma mangleIndex_appended value st : mangleIndex value st = Ok (tt, appended (renderIndex value) st).
Proof.
  unfold mangleIndex, renderIndex. destruct (value =? 0); [done|].
  rewrite (bind_ok _ _ _ _ _ (emit_ok _ _)), put_appended. f_equal. f_equal. apply appended_appended.
Qed.

(** What a reference leaves behind. *)
Definition referenced (pfx : str) (st st' : Remangler) (v : view) (Nd : Node) : Prop :=
  Sim pfx st' (pushView [Nd] v) /\ Substitutions st' = Substitutions st.

(** A new group after the buffer. *)
Lemma Sim_newGroup pfx st v i Nd :
  Sim pfx st v -> v_substs v !! i = Some Nd -> (i < 26)%nat ->
  referenced pfx st
    (appended (lit "A" ++ [refLetter i true])
       (setSubstMerging (mkMerging (length (Buffer st) + 1) 1 1 false) st)) v Nd.
Proof.
  intros [(buf & Hb & Hrun & Hm) [Hin H26] Hs Hc] HNd Hi. apply lookup_lt_Some in HNd as Hlt.
  assert (Forall (goodRun (v_substs v)) ([] ++ [(1, i)])) as Hgood.
  { apply Forall_cons_2; [|apply Forall_nil_2]. by split_and!; cbn; unfold MaxRepeatCount; try lia. }
  assert (pushView (reverse (groupNodes (v_substs v) ([] ++ [(1, i)]))) v = pushView [Nd] v) as Hpush.
  { cbn [app]. by rewrite (groupNodes_one _ (1, i) Nd). }
  split; [|done]. split; [|by apply knows_appended|done|done].
  exists (buf ++ lit "A" ++ renderGroup [] (1, i)). split_and!.
  - cbn. by rewrite Hb, <-app_assoc.
  - rewrite <-Hpush. by apply run_group.
  - apply (merge_group _ _ _ _ buf [] (1, i) v); try done; [|by rewrite <-Hb].
    split; cbn [fst snd]; [by rewrite <-app_assoc|lia|done|]. cbn. rewrite Hb. f_equal. lia.
Qed.

Lemma tryMerge_eq Subst b m' r st st' :
  tryMergeSubst (SubstMerging st) Subst b st = Ok ((r, m'), st') ->
  tryMerge Subst b st = Ok (r, setSubstMerging m' st').
Proof.
  intros H. unfold tryMerge. unfold bind at 1, gets. by rewrite (bind_ok _ _ _ _ _ H).
Qed.

Lemma mergeable_flag m buf b : lastSubstIsStandardSubst m <> b -> mergeable m buf b = false.
Proof.
  intros H. unfold mergeable. destruct (Bool.eqb_spec (lastSubstIsStandardSubst m) b); [done|].
  apply andb_false_r.
Qed.

Lemma mergeable_count m buf b : mergeable m buf b = true -> lastNumSubsts m < MaxRepeatCount.
Proof. unfold mergeable. rewrite !andb_true_iff, !Z.ltb_lt. intuition. Qed.

(** The open group with one more reference. *)
Lemma Sim_extendGroup pfx st v i Nd :
  Sim pfx st v -> v_substs v !! i = Some Nd -> (i < 26)%nat ->
  mergeable (SubstMerging st) (Buffer st) false = true ->
  exists st', tryMerge (refLetter i true) false st = Ok (true, st') /\ referenced pfx st st' v Nd.
Proof.
  intros [(buf & Hb & Hrun & Hm) [Hin H26] Hs Hc] HNd Hi E.
  destruct Hm as [Hcl|pre init final v1 Hg Hrun1 Hgood -> Hin1|? ? ? ? ? Hg].
  { rewrite <-Hb in Hcl. by rewrite mergeable_closed in E. }
  2:{ rewrite mergeable_flag in E; [done|]. by destruct Hg as [_ _ _ ->]. }
  pose proof (mergeable_count _ _ _ E) as Hmax. pose proof Hg as [_ _ _ Hg4].
  assert (final.1 < MaxRepeatCount) as Hcount by by rewrite Hg4 in Hmax.
  rewrite <-Hb in Hg. change (Buffer st) with (getBuffer st) in Hg.
  destruct (tryMergeSubst_group _ _ _ _ i st Hg Hcount Hi) as (m' & st' & He & -> & Hg').
  eexists. split; [by apply (tryMerge_eq _ _ _ _ _ _ He)|]. split; [|done].
  pose proof Hgood as [_ Hgf]%Forall_app. inversion_clear Hgf as [|? ? Hgf' _].
  cbn [v_substs v_words pushView] in *.
  assert (pushView [Nd] (pushView (reverse (groupNodes (v_substs v1) (init ++ [final]))) v1)
    = pushView (reverse (groupNodes (v_substs v1) (extendInit init final i ++ [extendFinal final i]))) v1)
    as -> by by rewrite (groupNodes_extend _ _ _ _ Nd Hgf' HNd), reverse_app.
  apply lookup_lt_Some in HNd as Hlt.
  pose proof (extend_good (v_substs v1) init final i Hgood Hcount Hi Hlt) as Hgood'.
  split; [|split; [|done]|done|done].
  - exists (pre ++ lit "A" ++ renderGroup (extendInit init final i) (extendFinal final i)).
    split_and!; [cbn; by rewrite <-!app_assoc|by apply run_group|].
    apply (merge_group _ _ _ _ pre (extendInit init final i) (extendFinal final i) v1); try done.
    cbn in Hg'. by rewrite <-app_assoc in Hg' at 1.
  - cbn. by apply (inBuffer_app (pfx ++ pre)).
Qed.

Lemma Sim_putSubst pfx st v i Nd :
  Sim pfx st v -> v_substs v !! i = Some Nd ->
  exists st', putSubst i st = Ok (tt, st') /\ referenced pfx st st' v Nd.
Proof.
  intros Hsim HNd. unfold putSubst. destruct (Nat.leb_spec 26 i) as [Hi|Hi].
  - rewrite (bind_ok _ _ _ _ _ (put_appended _ _)), mangleIndex_appended, appended_appended.
    eexists. split; [done|]. split; [|done]. by eapply Sim_put; [done|by apply reads_index|..].
  - cbv zeta. change (chr (Z.of_nat i + ord "A")) with (refLetter i true).
    assert (isUpperLetter (refLetter i true) || false && isLowerLetter (refLetter i true) = true) as Hup.
    { by rewrite refLetter_upper. }
    destruct (mergeable (SubstMerging st) (Buffer st) false) eqn:E.
    + destruct (Sim_extendGroup pfx st v i Nd Hsim HNd Hi E) as (st' & He & Hr).
      exists st'. by rewrite (bind_ok _ _ _ _ _ He).
    + change (Buffer st) with (getBuffer st) in E.
      rewrite (bind_ok _ _ _ _ _ (tryMerge_eq _ _ _ _ _ _ (tryMergeSubst_new _ _ false st Hup E))).
      cbn [negb when].
      rewrite (bind_ok _ _ _ _ _ (put_appended _ _)), emit_ok.
      eexists. split; [done|]. pose proof (Sim_newGroup pfx st v i Nd Hsim HNd Hi) as Hnew.
      unfold appended in *. cbn in *. by rewrite <-app_assoc.
Qed.

(** The open standard substitution, repeated once more. *)
Lemma Sim_repeatStandard pfx st v c Nd pre n v1 :
  Sim pfx st v -> openStandard (SubstMerging st) (Buffer st) (pfx ++ pre) n c -> run pre v1 ->
  n < MaxRepeatCount -> createStandardSubstitution c = Some Nd ->
  v = pushView (replicate (Z.to_nat n) Nd) v1 -> inBuffer (pfx ++ pre) (Words st) (v_words v) ->
  exists st', tryMerge c true st = Ok (true, st') /\ referenced pfx st st' v Nd.
Proof.
  intros [_ [Hin H26] Hs Hc] Hg Hrun Hn HNd -> Hin1. pose proof Hg as [_ Hcount _ _].
  change (Buffer st) with (getBuffer st) in Hg.
  destruct (tryMergeSubst_standard _ _ _ _ st Hg Hn) as (m' & st' & He & -> & Hg').
  eexists. split; [by apply (tryMerge_eq _ _ _ _ _ _ He)|]. split; [|done].
  assert (pushView [Nd] (pushView (replicate (Z.to_nat n) Nd) v1)
    = pushView (replicate (Z.to_nat (n + 1)) Nd) v1) as ->.
  { unfold pushView. cbn [v_stack v_substs v_words].
    by replace (Z.to_nat (n + 1)) with (S (Z.to_nat n)) by lia. }
  split; [|split; [|done]|done|done].
  - exists (pre ++ lit "S" ++ renderCount (n + 1) ++ [c]).
    split_and!; [cbn; by rewrite <-!app_assoc|apply run_standard; [done|lia|done]|].
    apply (merge_standard _ _ _ _ pre (n + 1) c Nd v1); try done; [|lia].
    cbn in Hg'. by rewrite <-app_assoc in Hg' at 1.
  - cbn. by apply (inBuffer_app (pfx ++ pre)).
Qed.

Lemma Sim_newStandard pfx st v c Nd :
  Sim pfx st v -> createStandardSubstitution c = Some Nd -> isLetter c = true ->
  referenced pfx st
    (appended (lit "S" ++ [c])
       (setSubstMerging (mkMerging (length (Buffer st) + 1) 1 1 true) st)) v Nd.
Proof.
  intros [(buf & Hb & Hrun & Hm) [Hin H26] Hs Hc] HNd Hletter.
  split; [|done]. split; [|by apply knows_appended|done|done].
  exists (buf ++ lit "S" ++ renderCount 1 ++ [c]). split_and!.
  - cbn. by rewrite Hb, <-app_assoc.
  - by apply (run_standard buf v 1 c Nd).
  - apply (merge_standard _ _ _ _ buf 1 c Nd v); try done; [|by rewrite <-Hb].
    split; [by rewrite <-app_assoc|done|done|]. cbn. rewrite Hb. done.
Qed.

Lemma Sim_putStandardSubst pfx st v c Nd :
  Sim pfx st v -> createStandardSubstitution c = Some Nd -> isLetter c = true ->
  exists st', putStandardSubst c st = Ok (tt, st') /\ referenced pfx st st' v Nd.
Proof.
  intros Hsim HNd Hc. unfold putStandardSubst.
  assert (forall st1, tryMerge c true st = Ok (false, st1) ->
    st1 = setSubstMerging (mkMerging (length (Buffer st) + 1) 1 1 true) st ->
    exists st', (merged <- tryMerge c true ;; when (negb merged) (_ <- put "S" ;; emit [c])) st = Ok (tt, st')
      /\ referenced pfx st st' v Nd) as Hnew.
  { intros st1 He ->. rewrite (bind_ok _ _ _ _ _ He). cbn [negb when].
    rewrite (bind_ok _ _ _ _ _ (put_appended _ _)), emit_ok. eexists. split; [done|].
    pose proof (Sim_newStandard pfx st v c Nd Hsim HNd Hc) as Hnew.
    unfold appended in *. cbn in *. by rewrite <-app_assoc. }
  assert (isUpperLetter c || true && isLowerLetter c = true) as Hcase by by rewrite orb_comm.
  destruct (mergeable (SubstMerging st) (getBuffer st) true) eqn:E.
  2:{ by apply (Hnew _ (tryMerge_eq _ _ _ _ _ _ (tryMergeSubst_new _ _ true st Hcase E))). }
  pose proof (mergeable_count _ _ _ E) as Hmax.
  pose proof Hsim as [(buf & Hb & Hrun & Hm) _ _ _].
  destruct Hm as [Hcl|? ? ? ? Hg|pre n d Nd' v1 Hg Hrun1 Hn HNd' Hv Hin1].
  { rewrite <-Hb in Hcl. change (Buffer st) with (getBuffer st) in Hcl. by rewrite mergeable_closed in E. }
  { rewrite mergeable_flag in E; [done|]. by destruct Hg as [_ _ _ ->]. }
  rewrite <-Hb in Hg. assert (n < MaxRepeatCount) as Hcount.
  { destruct Hg as [_ _ _ Hst]. by rewrite Hst in Hmax. }
  destruct (decide (d = c)) as [->|Hne].
  - assert (Nd' = Nd) as -> by congruence.
    destruct (Sim_repeatStandard pfx st v c Nd pre n v1) as (st' & He & Hr); try done.
    exists st'. by rewrite (bind_ok _ _ _ _ _ He).
  - change (Buffer st) with (getBuffer st) in Hg.
    by apply (Hnew _ (tryMerge_eq _ _ _ _ _ _ (tryMergeSubst_standard_other _ _ _ _ _ st Hg Hcount Hne Hc))).
Qed.

(** ** The substitution table *)

(** The letter of a standard type, as [mangleStandardSubstitution] finds it. *)
Definition standardSubst (n : Node) : option ascii :=
  match n with
  | mkNode k _ [mkNode K_Module (TextPayload m) _; mkNode K_Identifier (TextPayload name) _] =>
      if (Kind_eqb k K_Structure || Kind_eqb k K_Enum) && str_eqb m STDLIB_NAME
         && negb (Ascii.eqb (getStandardTypeSubst name) NUL)
      then Some (getStandardTypeSubst name) else None
  | _ => None
  end.

(** What [mangleStandardSubstitution] relies on to find its letter. *)
Definition nominalShape (n : Node) : bool :=
  match n with
  | mkNode k _ cs =>
      negb (Kind_eqb k K_Structure || Kind_eqb k K_Enum)
      || match cs with
         | [mkNode ck cp _; mkNode nk np _] =>
             (negb (Kind_eqb ck K_Module) || match cp with TextPayload _ => true | _ => false end)
             && (negb (Kind_eqb nk K_Identifier) || match np with TextPayload _ => true | _ => false end)
         | _ => false
         end
  end.

Lemma mangleStandardSubstitution_spec n st :
  nominalShape n = true ->
  mangleStandardSubstitution n st =
  match standardSubst n with
  | Some c => (_ <- putStandardSubst c ;; ret true) st
  | None => Ok (false, st)
  end.
Proof.
  destruct n as [k p cs]. unfold mangleStandardSubstitution, nominalShape, standardSubst. cbn [getKind].
  rewrite <-negb_orb. destruct (Kind_eqb k K_Structure || Kind_eqb k K_Enum); cbn [negb orb andb].
  2:{ intros _. repeat case_match; try done. }
  destruct cs as [|[ck cp ccs] [|[nk np ncs] [|]]]; try done.
  intros [Hc Hn]%andb_true_iff. unfold bind at 1, getFirstChild, getChild, ret. cbn [children lookup list_lookup].
  cbn [getKind]. destruct (Kind_eqb_spec ck K_Module) as [->|Hck]; cbn [negb].
  2:{ by destruct ck. }
  destruct cp; try done. unfold bind at 1, getText, ret. cbn [payload].
  destruct (str_eqb text STDLIB_NAME) eqn:Hm; cbn [negb].
  2:{ repeat case_match; try done. }
  unfold bind at 1, getChild, ret. cbn [children lookup list_lookup getKind].
  destruct (Kind_eqb_spec nk K_Identifier) as [->|Hnk]; cbn [negb].
  2:{ by destruct nk. }
  destruct np as [|name|]; try done. unfold bind at 1. cbn [payload].
  by destruct (Ascii.eqb (getStandardTypeSubst name) NUL).
Qed.

Lemma standardSubst_letter c Nd : createStandardSubstitution c = Some Nd -> isLetter c = true.
Proof.
  unfold createStandardSubstitution. destruct (find _ STANDARD_TYPES) as [[[k d] name]|] eqn:Hf; [|done].
  apply find_some in Hf as [Hin Heq]. cbn in Heq. apply Ascii.eqb_eq in Heq as ->. intros _.
  by repeat destruct Hin as [[= <- <- <-]|Hin].
Qed.

(** A node that the demangler gets back from its standard substitution. *)
Definition standardOk (n : Node) : Prop :=
  match standardSubst n with
  | Some c => createStandardSubstitution c = Some (mkNode K_Type NoPayload [n])
  | None => True
  end.

(** The nodes that are looked up, with or without [treatAsIdentifier]. *)
Definition substOk (n : Node) (treatAsIdentifier : bool) : Prop :=
  nominalShape n = true /\ standardOk n
  /\ if treatAsIdentifier then standardSubst n = None /\ exists t, payload n = TextPayload t else True.

Lemma setNode_entryOf n b (st : Remangler) : substOk n b -> setNode n b st = Ok (entryOf n b, st).
Proof.
  destruct n as [k p cs]. intros (_ & _ & Ht). destruct b; [|done].
  destruct Ht as (_ & t & Hp). cbn [payload] in Hp. by subst p.
Qed.

Definition fresh (e : SubstitutionEntry) (es : list SubstitutionEntry) : Prop :=
  Forall (fun e' => entry_eqb e e' = false) es.

Lemma trySubstitution_spec pfx st v n b :
  Sim pfx st v -> substOk n b ->
  (exists st' o, trySubstitution n b st = Ok ((true, o), st')
     /\ referenced pfx st st' v (entryNode (entryOf n b)))
  \/ trySubstitution n b st = Ok ((false, Some (entryOf n b)), st)
     /\ fresh (entryOf n b) (Substitutions st).
Proof.
  intros Hsim Hok. pose proof Hok as (Hshape & Hstd & Hb). unfold trySubstitution.
  destruct (standardSubst n) as [c|] eqn:Hc.
  - left. unfold standardOk in Hstd. rewrite Hc in Hstd.
    assert (b = false) as -> by (destruct b; [by destruct Hb|done]).
    destruct (Sim_putStandardSubst pfx st v c _ Hsim Hstd (standardSubst_letter _ _ Hstd)) as (st' & He & Hr).
    exists st', None. split; [|done].
    rewrite (bind_ok _ _ _ true st'); [done|].
    rewrite mangleStandardSubstitution_spec, Hc by done. by rewrite (bind_ok _ _ _ _ _ He).
  - rewrite (bind_ok _ _ _ false st); [|by rewrite mangleStandardSubstitution_spec, Hc].
    rewrite (bind_ok _ _ _ _ _ (setNode_entryOf n b st Hok)).
    rewrite (bind_ok (gets Substitutions) _ st _ _ eq_refl).
    destruct (list_find _ _) as [[i e]|] eqn:Hf.
    + left. apply list_find_Some in Hf as (Hi & Heq & _). pose proof Hsim as [_ _ Hss Hcan].
      assert (v_substs v !! i = Some (entryNode (entryOf n b))) as HNd.
      { rewrite Hss, list_lookup_fmap, Hi. change (Some (entryNode e) = Some (entryNode (entryOf n b))).
        f_equal. symmetry. apply entryNode_eqb; [done|by eapply (Forall_lookup_1 _ _ _ _ Hcan)|done]. }
      destruct (Sim_putSubst pfx st v i _ Hsim HNd) as (st' & He & Hr).
      exists st', (Some (entryOf n b)). by rewrite (bind_ok _ _ _ _ _ He).
    + right. apply list_find_None in Hf. split; [done|].
      eapply Forall_impl; [|exact Hf]. intros e He. by apply not_true_is_false.
Qed.

Lemma addSubstitution_fresh e (st : Remangler) :
  fresh e (Substitutions st) ->
  addSubstitution (Some e) st = Ok (tt, setSubstitutions (Substitutions st ++ [e]) st).
Proof.
  intros Hf. unfold addSubstitution. unfold bind at 1, gets. unfold bind, assert.
  assert (existsb (entry_eqb e) (Substitutions st) = false) as ->; [|done].
  apply not_true_is_false. intros (e' & Hin & He)%existsb_exists.
  by rewrite (proj1 (Forall_forall _ _) Hf e' Hin) in He.
Qed.
