(* ===== verification/SymbolWriting.v ===== *)
(** * Writing nodes

    [writes sz m Nds]: the remangler's computation [m] writes what the demangler
    reads as the nodes [Nds], the last one first. The lemmas follow the shapes in
    which the handlers of the remangler are written: one thing after the other,
    an operator behind what it takes from the stack, and a node that may be
    replaced by a substitution. *)

From Stdlib Require Import String.
From S2P Require Import Prelude Nodes ManglingUtils Punycode IdentifierMangling Demangler Numbers IdentifierTokens IdentifierEncoding PunycodeRoundtrip IdentifierRoundtrip SubstitutionGroups MergingSpecs Simulation Remangler RemanglerSpecs IdentifierTheorems SymbolSimulation.

(** Entries of the substitution table that cannot be the entry of a larger node. *)
Definition small (sz : nat) (e : SubstitutionEntry) : Prop :=
  treatAsIdentifier e = true \/ (node_size (TheNode e) <= sz)%nat.

Definition writes (sz : nat) (m : RM unit) (Nds : list Node) : Prop :=
  forall pfx st v, Sim pfx st v ->
    exists st' v' new, m st = Ok (tt, st') /\ Sim pfx st' v' /\ v_stack v' = Nds ++ v_stack v
      /\ Substitutions st' = Substitutions st ++ new /\ Forall (small sz) new.

Lemma small_weaken sz sz' e : (sz <= sz')%nat -> small sz e -> small sz' e.
Proof. intros Hle [H|H]; [by left|right; lia]. Qed.

Lemma writes_weaken sz sz' m Nds : (sz <= sz')%nat -> writes sz m Nds -> writes sz' m Nds.
Proof.
  intros Hle Hm pfx st v Hsim. destruct (Hm pfx st v Hsim) as (st' & v' & new & ? & ? & ? & ? & Hnew).
  exists st', v', new. split_and!; try done. eapply Forall_impl; [|exact Hnew]. intros e. by apply small_weaken.
Qed.

Lemma writes_ret sz : writes sz (ret tt) [].
Proof. intros pfx st v Hsim. exists st, v, []. by rewrite app_nil_r. Qed.

Lemma writes_bind sz m1 m2 Nds1 Nds2 :
  writes sz m1 Nds1 -> writes sz m2 Nds2 -> writes sz (_ <- m1 ;; m2) (Nds2 ++ Nds1).
Proof.
  intros H1 H2 pfx st v Hsim. destruct (H1 pfx st v Hsim) as (st1 & v1 & new1 & E1 & Hs1 & Hv1 & Hn1 & Hf1).
  destruct (H2 pfx st1 v1 Hs1) as (st2 & v2 & new2 & E2 & Hs2 & Hv2 & Hn2 & Hf2).
  exists st2, v2, (new1 ++ new2). rewrite (bind_ok _ _ _ _ _ E1), Hv2, Hv1, Hn2, Hn1, !app_assoc.
  split_and!; try done. by apply Forall_app_2.
Qed.

Lemma writes_ext sz m m' Nds : (forall st, m st = m' st) -> writes sz m' Nds -> writes sz m Nds.
Proof.
  intros He Hm pfx st v Hsim. destruct (Hm pfx st v Hsim) as (st' & v' & new & H).
  exists st', v', new. by rewrite He.
Qed.

(** ** Operators *)

Definition stackView (stk : list Node) (v : view) : view := mkView stk (v_substs v) (v_words v).

(** The operator takes [Nds] from the stack and leaves [Nd]. *)
Definition pops (op : str) (Nds : list Node) (Nd : Node) : Prop :=
  forall v stk, v_stack v = Nds ++ stk -> reads op v Nd (stackView stk v).

(** It also makes [Nd] a substitution. *)
Definition popsAdding (op : str) (Nds : list Node) (Nd : Node) : Prop :=
  forall v stk, v_stack v = Nds ++ stk -> reads op v Nd (addView Nd (stackView stk v)).

Definition appends (w : RM unit) (op : str) : Prop := forall st, w st = Ok (tt, appended op st).

Lemma appends_put s : appends (put s) (lit s).
Proof. intros st. done. Qed.

Lemma appends_emit s : appends (emit s) s.
Proof. intros st. done. Qed.

Lemma appends_mangleIndex value : appends (mangleIndex value) (renderIndex value).
Proof. intros st. apply mangleIndex_appended. Qed.

Lemma appends_bind w w' op op' : appends w op -> appends w' op' -> appends (_ <- w ;; w') (op ++ op').
Proof. intros H H' st. by rewrite (bind_ok _ _ _ _ _ (H st)), H', appended_appended. Qed.

Lemma writes_op sz m w op Nds Nd :
  writes sz m Nds -> appends w op -> pops op Nds Nd -> writes sz (_ <- m ;; w) [Nd].
Proof.
  intros Hm Hw Hop pfx st v Hsim.
  destruct (Hm pfx st v Hsim) as (st1 & v1 & new & E1 & Hs1 & Hv1 & Hn1 & Hf1).
  exists (appended op st1), (pushView [Nd] (stackView (v_stack v) v1)), new.
  rewrite (bind_ok _ _ _ _ _ E1), Hw. split_and!; try done.
  apply Sim_put with v1; [done|by apply Hop|done|done].
Qed.

Lemma writes_constant sz w op Nd : appends w op -> pops op [] Nd -> writes sz w [Nd].
Proof.
  intros Hw Hop. apply (writes_ext _ _ (_ <- ret tt ;; w)); [done|].
  by eapply writes_op; [apply writes_ret| |].
Qed.

(** ** Substitutions *)

Lemma fresh_app e es es' : fresh e es -> fresh e es' -> fresh e (es ++ es').
Proof. apply Forall_app_2. Qed.

Lemma fresh_small n sz es :
  (sz < node_size n)%nat -> Forall (small sz) es -> Forall canonical es -> fresh (entryOf n false) es.
Proof.
  intros Hlt Hs Hc. apply Forall_forall. intros e He. pose proof (proj1 (Forall_forall _ _) Hs e He) as Hse.
  rewrite (proj1 (Forall_forall _ _) Hc e He). apply not_true_is_false. intros [Hb Heq]%entry_eqb_spec.
  destruct Hse as [Hse|Hse]; [congruence|]. cbn in Heq. subst n. lia.
Qed.

(** A node that may have been written before: if not, it is written by [m] and
    [w], and becomes a substitution. *)
Definition orSubstitution (n : Node) (m w : RM unit) : RM unit :=
  r <- trySubstitution n false ;;
  let '(found, entry) := r in
  if (found : bool) then ret tt else _ <- m ;; _ <- w ;; addSubstitution entry.

Lemma Sim_adding pfx st v op Nd v1 e :
  Sim pfx st v -> reads op v Nd (addView Nd v1) -> v_words v1 = v_words v -> v_substs v1 = v_substs v ->
  canonical e -> entryNode e = Nd ->
  Sim pfx (setSubstitutions (Substitutions st ++ [e]) (appended op st)) (pushView [Nd] (addView Nd v1)).
Proof.
  intros Hsim Hr Hw Hs Hc He. pose proof Hsim as [_ Hk Hss Hcan].
  eapply Sim_op; [done|done|done|done|..]; cbn.
  - rewrite Hw. by apply (knows_appended op).
  - by rewrite Hs, Hss, map_app, <-He.
  - by apply Forall_app_2; [|apply Forall_cons_2; [|apply Forall_nil_2]].
  - rewrite Hs, length_app. cbn. lia.
Qed.

Lemma writes_orSubstitution sz n m w op Nds :
  substOk n false -> writes sz m Nds -> (sz < node_size n)%nat -> appends w op ->
  popsAdding op Nds (mkNode K_Type NoPayload [n]) ->
  writes (node_size n) (orSubstitution n m w) [mkNode K_Type NoPayload [n]].
Proof.
  intros Hok Hm Hlt Hw Hop pfx st v Hsim. unfold orSubstitution.
  destruct (trySubstitution_spec pfx st v n false Hsim Hok) as [(st' & o & He & Hsim' & Hss)|[He Hfresh]].
  - exists st', (pushView [mkNode K_Type NoPayload [n]] v), []. rewrite (bind_ok _ _ _ _ _ He), app_nil_r.
    by split_and!.
  - rewrite (bind_ok _ _ _ _ _ He).
    destruct (Hm pfx st v Hsim) as (st1 & v1 & new & E1 & Hs1 & Hv1 & Hn1 & Hf1).
    assert (fresh (entryOf n false) (Substitutions st1)) as Hfresh1.
    { pose proof Hs1 as [_ _ _ Hcan]. rewrite Hn1 in *. apply Forall_app in Hcan as [_ Hcan].
      apply fresh_app; [done|]. by eapply fresh_small. }
    exists (setSubstitutions (Substitutions st1 ++ [entryOf n false]) (appended op st1)),
      (pushView [mkNode K_Type NoPayload [n]] (addView (mkNode K_Type NoPayload [n]) (stackView (v_stack v) v1))),
      (new ++ [entryOf n false]).
    rewrite (bind_ok _ _ _ _ _ E1), (bind_ok _ _ _ _ _ (Hw st1)), addSubstitution_fresh by done.
    split_and!; try done.
    + eapply Sim_adding; [done|by apply Hop|done|done|done|done].
    + cbn. by rewrite Hn1, app_assoc.
    + apply Forall_app_2; [|apply Forall_cons_2; [by right|apply Forall_nil_2]].
      eapply Forall_impl; [|exact Hf1]. intros e. apply small_weaken. lia.
Qed.

(** ** Identifiers *)

Lemma writes_identifier sz n text :
  payload n = TextPayload text -> validIdentifier text -> nominalShape n = true -> standardSubst n = None ->
  writes sz (mangleIdentifierNode n) [createNodeText K_Identifier text].
Proof.
  intros Hp Hv Hshape Hstd pfx st v Hsim.
  assert (substOk n true) as Hok.
  { split_and!; [done|unfold standardOk; by rewrite Hstd|done|by exists text]. }
  assert (entryNode (entryOf n true) = createNodeText K_Identifier text) as Hnode.
  { unfold entryNode, entryOf, nodeText. cbn. by rewrite Hp. }
  unfold mangleIdentifierNode, mangleIdentifierImpl.
  destruct (trySubstitution_spec pfx st v n true Hsim Hok) as [(st' & o & He & Hsim' & Hss)|[He Hfresh]].
  - exists st', (pushView [createNodeText K_Identifier text] v), []. rewrite (bind_ok _ _ _ _ _ He), app_nil_r.
    rewrite Hnode in Hsim'. by split_and!.
  - rewrite (bind_ok _ _ _ _ _ He).
    assert (getText n st = Ok (text, st)) as Ht by (unfold getText; by rewrite Hp).
    rewrite (bind_ok _ _ _ _ _ Ht). pose proof Hsim as [_ Hk Hsubsts Hcan].
    destruct (remangler_identifier text st (v_words v) Hv Hk) as (out & st1 & T' & Em & Hb & Hk1 & [= Hss Hmerging] & Hread).
    rewrite (bind_ok _ _ _ _ _ Em), addSubstitution_fresh by by rewrite Hss.
    eexists _, (pushView [_] (addView (createNodeText K_Identifier text) (wordsView T' v))), [entryOf n true].
    split; [done|]. split_and!; [|done|cbn; by rewrite Hss|by apply Forall_cons_2; [left|apply Forall_nil_2]].
    eapply Sim_op; [done|by apply (reads_identifier text out T' v)|done|done|done|..]; cbn.
    + by rewrite Hss, map_app, Hsubsts, <-Hnode.
    + rewrite Hss. by apply Forall_app_2; [|apply Forall_cons_2; [|apply Forall_nil_2]].
    + rewrite length_app. cbn. lia.
Qed.
