(* ===== verification/OperatorReads.v ===== *)
(** * What operators take from the stack

    [pops op Nds Nd] and [popsAdding op Nds Nd] for the operators of types,
    declarations and symbols. *)

From Stdlib Require Import String.
From S2P Require Import Prelude Nodes ManglingUtils Punycode IdentifierMangling Remangler Demangler Numbers IdentifierTokens IdentifierEncoding PunycodeRoundtrip IdentifierRoundtrip SubstitutionGroups MergingSpecs Simulation SymbolSimulation SymbolWriting.

(** [Type] around a node. *)
Definition typed (n : Node) : Node := mkNode K_Type NoPayload [n].

Lemma pops_char c op Nds Nd :
  (forall s stk rest, readable s -> NodeStack s = Nds ++ stk -> left s = op ++ rest ->
     demangleOperatorFor c s = Ok (Some Nd, setNodeStack stk (advance (length op) s))) ->
  pops (c :: op) Nds Nd.
Proof. intros H v stk Hv. apply reads_char. intros s rest Hr <- Hl. by rewrite (H s stk rest). Qed.

Lemma popsAdding_char c op Nds Nd :
  (forall s stk rest, readable s -> NodeStack s = Nds ++ stk -> left s = op ++ rest ->
     demangleOperatorFor c s
     = Ok (Some Nd, setSubstitutions (Substitutions s ++ [Nd]) (setNodeStack stk (advance (length op) s)))) ->
  popsAdding (c :: op) Nds Nd.
Proof. intros H v stk Hv. apply reads_char. intros s rest Hr <- Hl. by rewrite (H s stk rest). Qed.

(** An operator that reads nothing but its character. *)
Lemma pops_alone c Nds Nd :
  (forall s stk, IsOldFunctionTypeMangling s = false -> NodeStack s = Nds ++ stk ->
     demangleOperatorFor c s = Ok (Some Nd, setNodeStack stk s)) ->
  pops [c] Nds Nd.
Proof.
  intros H. apply pops_char. intros s stk rest (Hold & _) Hs _. cbn [length].
  rewrite advance_0. by apply H.
Qed.

(** An operator with a second character. *)
Lemma pops_second c d (f : ascii -> DM NodePointer) Nds Nd :
  demangleOperatorFor c = (x <- nextChar ;; f x) ->
  (forall s stk, IsOldFunctionTypeMangling s = false -> NodeStack s = Nds ++ stk ->
     f d s = Ok (Some Nd, setNodeStack stk s)) ->
  pops [c; d] Nds Nd.
Proof.
  intros Hc H. apply pops_char. intros s stk rest (Hold & _) Hs Hl. rewrite Hc.
  rewrite (bind_ok _ _ _ _ _ (nextChar_left s d rest Hl)). by apply H.
Qed.

(** A concrete part of the stack is popped by computation. *)
Ltac run_stack :=
  let s := fresh "s" in let stk := fresh "stk" in let Hold := fresh "Hold" in let Hs := fresh "Hs" in
  intros s stk Hold Hs; destruct s; cbn in Hold, Hs; subst; reflexivity.

Ltac pops_tac :=
  first [ apply pops_alone; run_stack
        | eapply pops_second; [reflexivity|run_stack] ].

(** ** Types that wrap a type *)

Definition wrappingTypes : list (Kind * string) :=
  [(K_Metatype, "m"); (K_Unowned, "Xo"); (K_Unmanaged, "Xu"); (K_Weak, "Xw"); (K_SILBoxType, "Xb");
   (K_DynamicSelf, "XD"); (K_ExistentialMetatype, "Xp")]%string.

Lemma pops_wrappingTypes :
  Forall (fun e => forall x, pops (lit e.2) [typed x] (typed (mkNode e.1 NoPayload [typed x]))) wrappingTypes.
Proof. repeat (apply Forall_cons_2; [intros x; pops_tac|]). apply Forall_nil_2. Qed.

(** Types that take what is in a [Type]. *)
Definition unwrappingTypes : list (Kind * string) := [(K_InOut, "z"); (K_Shared, "h")]%string.

Lemma pops_unwrappingTypes :
  Forall (fun e => forall x, pops (lit e.2) [typed x] (typed (mkNode e.1 NoPayload [x]))) unwrappingTypes.
Proof. repeat (apply Forall_cons_2; [intros x; pops_tac|]). apply Forall_nil_2. Qed.

(** Symbols for a type. *)
Definition typeSymbols : list (Kind * string) :=
  [(K_TypeMetadata, "N"); (K_FullTypeMetadata, "Mf"); (K_GenericTypeMetadataPattern, "MP");
   (K_TypeMetadataAccessFunction, "Ma"); (K_TypeMetadataLazyCache, "ML"); (K_Metaclass, "Mm");
   (K_NominalTypeDescriptor, "Mn"); (K_ClassMetadataBaseOffset, "Mo");
   (K_ReflectionMetadataBuiltinDescriptor, "MB"); (K_ReflectionMetadataFieldDescriptor, "MF");
   (K_ValueWitnessTable, "WV"); (K_OutlinedCopy, "Wy"); (K_OutlinedConsume, "We");
   (K_OutlinedRetain, "Wr"); (K_OutlinedRelease, "Ws")]%string.

Lemma pops_typeSymbols :
  Forall (fun e => forall x, pops (lit e.2) [typed x] (mkNode e.1 NoPayload [typed x])) typeSymbols.
Proof. repeat (apply Forall_cons_2; [intros x; pops_tac|]). apply Forall_nil_2. Qed.

(** ** Constants *)

Definition constantNodes : list (Node * string) :=
  [(createNodeText K_Module STDLIB_NAME, "s"); (createNodeText K_Module MANGLING_MODULE_OBJC, "So");
   (createNodeText K_Module MANGLING_MODULE_CLANG_IMPORTER, "SC"); (createNode K_EmptyList, "y");
   (createNode K_FirstElementMarker, "_"); (createNode K_VariadicMarker, "d");
   (createNode K_ThrowsAnnotation, "K"); (typed (createNode K_ErrorType), "Xe");
   (typed (mkNode K_DependentGenericParamType (TextPayload (lit "A"))
      [createNodeIndex K_Index 0; createNodeIndex K_Index 0]), "x")]%string.

Lemma setNodeStack_id s stk : NodeStack s = stk -> s = setNodeStack stk s.
Proof. destruct s; cbn. by intros ->. Qed.

Lemma setNodeStack_advance n s stk : NodeStack s = stk -> setNodeStack stk (advance n s) = advance n s.
Proof. destruct s; cbn. by intros ->. Qed.

Lemma pops_constantNodes : Forall (fun e => pops (lit e.2) [] e.1) constantNodes.
Proof. repeat (apply Forall_cons_2; [pops_tac|]). apply Forall_nil_2. Qed.

(** ** What a node leaves on the stack *)

(** Kinds of types: they are read together with the [Type] around them. *)
Definition typeKind (k : Kind) : bool :=
  match k with
  | K_Structure | K_Class | K_Enum | K_Protocol | K_TypeAlias
  | K_BoundGenericStructure | K_BoundGenericClass | K_BoundGenericEnum
  | K_Tuple | K_FunctionType | K_ThinFunctionType | K_AutoClosureType | K_ObjCBlock
  | K_CFunctionPointer | K_Metatype | K_ExistentialMetatype | K_Unowned | K_Unmanaged | K_Weak
  | K_SILBoxType | K_DynamicSelf | K_InOut | K_Shared | K_ErrorType | K_BuiltinTypeName
  | K_DependentGenericParamType | K_AssociatedTypeRef | K_QualifiedArchetype
  | K_ProtocolList | K_ProtocolListWithClass | K_ProtocolListWithAnyObject => true
  | _ => false
  end.

(** The modules with a mangling of their own. *)
Definition specialModule (text : str) : bool :=
  str_eqb text STDLIB_NAME || str_eqb text MANGLING_MODULE_OBJC
  || str_eqb text MANGLING_MODULE_CLANG_IMPORTER.

(** An argument or result type; the empty tuple is written as an empty list. *)
Definition paramsNode (n : Node) : Node :=
  if Kind_eqb (getKind n) K_Tuple && (getNumChildren n =? 0)%nat then createNode K_EmptyList
  else typed n.

(** The nodes, the last one first. *)
Definition stackOf (n : Node) : list Node :=
  match n with
  | mkNode K_Module (TextPayload t) _ =>
      [if specialModule t then n else createNodeText K_Identifier t]
  | mkNode K_TupleElementName (TextPayload t) _ => [createNodeText K_Identifier t]
  | mkNode k _ _ => [if typeKind k then typed n else n]
  end.

Lemma stackOf_typeKind n : typeKind (getKind n) = true -> stackOf n = [typed n].
Proof. destruct n as [k p cs]. by destruct k. Qed.

Lemma stackOf_declName n : isDeclName (getKind n) = true -> stackOf n = [n].
Proof. destruct n as [k p cs]. by destruct k. Qed.

(** A module is its name. *)
Definition moduleShape (n : Node) : bool :=
  match n with
  | mkNode K_Module (TextPayload _) [] => true
  | mkNode K_Module _ _ => false
  | _ => true
  end.

Lemma popNodeIf_top pred Nd stk s :
  NodeStack s = Nd :: stk -> pred (getKind Nd) = true ->
  popNodeIf pred s = Ok (Some Nd, setNodeStack stk s).
Proof. unfold popNodeIf. by intros -> ->. Qed.

Lemma popContext_stackOf ctx stk s :
  isContext (getKind ctx) = true -> moduleShape ctx = true -> NodeStack s = stackOf ctx ++ stk ->
  popContext s = Ok (Some ctx, setNodeStack stk s).
Proof.
  destruct ctx as [k p cs], s as [t pos old ns subs ws]. cbn [getKind NodeStack].
  intros Hk Hm ->.
  destruct k; try discriminate Hk; try reflexivity. destruct p as [|text|]; try discriminate Hm.
  destruct cs; [|discriminate Hm]. cbn [stackOf app]. by destruct (specialModule text).
Qed.

Lemma pops_nominal c k ctx name :
  demangleOperatorFor c = demangleAnyGenericType k ->
  isContext (getKind ctx) = true -> moduleShape ctx = true -> isDeclName (getKind name) = true ->
  popsAdding [c] (stackOf name ++ stackOf ctx) (typed (mkNode k NoPayload [ctx; name])).
Proof.
  intros Hc Hctx Hm Hname. apply popsAdding_char. intros s stk rest _ Hs _. rewrite Hc.
  rewrite stackOf_declName in Hs by done. cbn [length]. rewrite advance_0.
  unfold demangleAnyGenericType. rewrite (bind_ok _ _ _ _ _ (popNodeIf_top _ _ _ _ Hs Hname)).
  rewrite (bind_ok _ _ _ _ _ (popContext_stackOf ctx stk (setNodeStack (stackOf ctx ++ stk) s) Hctx Hm eq_refl)).
  done.
Qed.

(** ** Function types *)

(** [ArgumentTuple] and [ReturnType] around a type. *)
Definition argumentTuple (n : Node) : Node :=
  mkNode K_ArgumentTuple
    (IndexPayload (wrap_u64 (if Kind_eqb (getKind n) K_Tuple then Z.of_nat (getNumChildren n) else 1))) [typed n].
Definition returnType (n : Node) : Node := mkNode K_ReturnType NoPayload [typed n].

(** The empty tuple comes back without a payload. *)
Definition paramsShape (n : Node) : bool :=
  negb (Kind_eqb (getKind n) K_Tuple) || match payload n with NoPayload => true | _ => false end.

Lemma popFunctionParams_spec kind n stk s :
  paramsShape n = true -> NodeStack s = paramsNode n :: stk ->
  popFunctionParams kind s = Ok (Some (if Kind_eqb kind K_ArgumentTuple
    then mkNode kind (payload (argumentTuple n)) [typed n] else mkNode kind NoPayload [typed n]), setNodeStack stk s).
Proof.
  destruct n as [k p cs], s as [t pos old ns subs ws]. unfold paramsShape, paramsNode.
  cbn [getKind payload NodeStack]. intros Hp ->.
  destruct (Kind_eqb_spec k K_Tuple) as [->|Hk]; cbn [andb negb orb] in *.
  - destruct p; try discriminate Hp.
    destruct cs; cbn [getNumChildren length children Nat.eqb]; cbv iota; unfold popFunctionParams;
      (destruct (Kind_eqb kind K_ArgumentTuple) eqn:E; [apply Kind_eqb_eq in E as ->|]; reflexivity).
  - unfold popFunctionParams. rewrite (bind_ok _ _ _ None (mkDemangler t pos old (typed (mkNode k p cs) :: stk) subs ws)) by done.
    cbn [isSome]. rewrite (bind_ok _ _ _ (Some (typed (mkNode k p cs))) (mkDemangler t pos old stk subs ws)) by done.
    destruct (Kind_eqb kind K_ArgumentTuple) eqn:E; [apply Kind_eqb_eq in E as ->|done].
    cbn. destruct (Kind_eqb_spec k K_Tuple); [done|]. reflexivity.
Qed.

Definition throwsNodes (throws : bool) : list Node :=
  if throws then [createNode K_ThrowsAnnotation] else [].

Definition functionType (kind : Kind) (throws : bool) (a r : Node) : Node :=
  mkNode kind NoPayload (throwsNodes throws ++ [argumentTuple a; returnType r]).

Lemma popFunctionType_spec kind throws a r stk s :
  paramsShape a = true -> paramsShape r = true ->
  NodeStack s = throwsNodes throws ++ [paramsNode a; paramsNode r] ++ stk ->
  popFunctionType kind s = Ok (Some (typed (functionType kind throws a r)), setNodeStack stk s).
Proof.
  intros Ha Hr Hs. unfold popFunctionType.
  assert (popNodeKind K_ThrowsAnnotation s
    = Ok (if throws then Some (createNode K_ThrowsAnnotation) else None,
          setNodeStack ([paramsNode a; paramsNode r] ++ stk) s)) as Ht.
  { destruct s. cbn in Hs. subst. destruct throws; [reflexivity|]. unfold paramsNode. by case_match. }
  rewrite (bind_ok _ _ _ _ _ Ht).
  rewrite (bind_ok _ _ _ _ _ (popFunctionParams_spec K_ArgumentTuple a (paramsNode r :: stk)
    (setNodeStack ([paramsNode a; paramsNode r] ++ stk) s) Ha eq_refl)).
  rewrite (bind_ok _ _ _ _ _ (popFunctionParams_spec K_ReturnType r stk
    (setNodeStack (paramsNode r :: stk) s) Hr eq_refl)).
  by destruct throws.
Qed.

Definition functionKinds : list (Kind * string) :=
  [(K_FunctionType, "c"); (K_ThinFunctionType, "Xf"); (K_AutoClosureType, "XK"); (K_ObjCBlock, "XB");
   (K_CFunctionPointer, "XC")]%string.

Lemma pops_functionKinds :
  Forall (fun e => forall throws a r, paramsShape a = true -> paramsShape r = true ->
    pops (lit e.2) (throwsNodes throws ++ [paramsNode a; paramsNode r]) (typed (functionType e.1 throws a r)))
    functionKinds.
Proof.
  repeat (apply Forall_cons_2; [intros throws a r Ha Hr|]); [..|apply Forall_nil_2].
  1: apply pops_alone; intros s stk _ Hs; rewrite <-app_assoc in Hs; by apply popFunctionType_spec.
  all: eapply pops_second; [reflexivity|]; intros s stk _ Hs; rewrite <-app_assoc in Hs;
    by apply popFunctionType_spec.
Qed.

(** ** Lists *)

(** A list on the stack: the marker is above its first item. *)
Definition listStack {E} (nodes : E -> list Node) (items : list E) : list Node :=
  match items with
  | [] => [createNode K_EmptyList]
  | e :: es => concat (map nodes (reverse es)) ++ createNode K_FirstElementMarker :: nodes e
  end.

Section lists.
Context {E : Type} (good : E -> Prop) (nodes : E -> list Node) (node : E -> Node).
Context (step : Node -> DM (Node + NodePointer)).

(** One round takes an item, and the marker when it is there. *)
Hypothesis nodes_nonempty : forall e, nodes e <> [].
Hypothesis step_spec : forall first e Root s stk,
  good e -> NodeStack s = (if (first : bool) then [createNode K_FirstElementMarker] else []) ++ nodes e ++ stk ->
  step Root s = Ok (if first then inr (Some (nodeAddChild Root (node e))) else inl (nodeAddChild Root (node e)),
                    setNodeStack stk s).

Lemma loop_items e l : forall fuel Root s stk,
  good e -> Forall good l -> (length l < fuel)%nat ->
  NodeStack s = concat (map nodes l) ++ createNode K_FirstElementMarker :: nodes e ++ stk ->
  loop fuel step Root s =
    Ok (Some (mkNode (getKind Root) (payload Root) (children Root ++ map node l ++ [node e])), setNodeStack stk s).
Proof.
  induction l as [|e' l IH]; intros [|fuel] Root s stk He Hl Hf Hs; cbn [length] in Hf; try lia; cbn [loop].
  - by rewrite (bind_ok _ _ _ _ _ (step_spec true e Root s stk He Hs)).
  - cbn [map concat] in Hs. rewrite <-app_assoc in Hs.
    inversion_clear Hl as [|? ? He' Hl']. rewrite (bind_ok _ _ _ _ _ (step_spec false e' Root s _ He' Hs)).
    rewrite (IH fuel _ _ stk); [|done|done|lia|done]. cbn [nodeAddChild getKind payload children map].
    by rewrite <-app_assoc.
Qed.

Lemma concat_length_nodes l : (length l <= length (concat (map nodes l)))%nat.
Proof.
  induction l as [|e l IH]; [done|]. cbn. rewrite length_app. pose proof (nodes_nonempty e).
  destruct (nodes e); [done|cbn; lia].
Qed.

(** The loop of a nonempty list, with the children turned round. *)
Lemma while_items e es Root s stk :
  Forall good (e :: es) -> NodeStack s = listStack nodes (e :: es) ++ stk ->
  while_ step Root s =
    Ok (Some (mkNode (getKind Root) (payload Root) (children Root ++ reverse (map node (e :: es)))), setNodeStack stk s).
Proof.
  intros Hgood Hs. inversion_clear Hgood as [|? ? He Hes]. unfold while_. unfold listStack in Hs. rewrite <-app_assoc in Hs.
  rewrite (loop_items e (reverse es) _ Root s stk); [|done|by apply Forall_reverse| |done].
  - cbn [map]. rewrite reverse_cons. by rewrite (fmap_reverse node es : map node (reverse es) = _).
  - unfold loop_fuel. rewrite Hs, length_app. pose proof (concat_length_nodes (reverse es)). lia.
Qed.
End lists.

(** *** Tuples *)

Record element := mkElement { variadic : bool; label : option str; elementType : Node }.

Definition elementLabel (e : element) (k : Kind) : list Node :=
  match label e with Some t => [createNodeText k t] | None => [] end.

Definition tupleElement (e : element) : Node :=
  mkNode K_TupleElement NoPayload
    ((if variadic e then [createNode K_VariadicMarker] else []) ++ elementLabel e K_TupleElementName
     ++ [typed (elementType e)]).

Definition elementStack (e : element) : list Node :=
  (if variadic e then [createNode K_VariadicMarker] else []) ++ elementLabel e K_Identifier
  ++ [typed (elementType e)].

Lemma elementStack_nonempty e : elementStack e <> [].
Proof. unfold elementStack. destruct (variadic e), (elementLabel e K_Identifier); done. Qed.

Lemma popTuple_step_spec first e Root s stk :
  True -> NodeStack s = (if (first : bool) then [createNode K_FirstElementMarker] else []) ++ elementStack e ++ stk ->
  popTuple_step Root s =
    Ok (if first then inr (Some (nodeAddChild Root (tupleElement e)))
        else inl (nodeAddChild Root (tupleElement e)), setNodeStack stk s).
Proof.
  intros _. destruct s as [t pos old ns subs ws], e as [v l ty]. cbn [NodeStack]. intros ->.
  by destruct first, v, l.
Qed.

Definition tupleType (es : list element) : Node := mkNode K_Tuple NoPayload (map tupleElement es).

Lemma popNodeKind_other k Nd stk s :
  NodeStack s = Nd :: stk -> getKind Nd <> k -> popNodeKind k s = Ok (None, s).
Proof.
  unfold popNodeKind, popNodeIf. intros -> Hk. by destruct (Kind_eqb_spec (getKind Nd) k).
Qed.

(** A nonempty list does not look like the empty one. *)
Lemma listStack_top {E} (good : E -> Prop) (nodes : E -> list Node) e es stk s :
  (forall e, good e -> exists Nd l, nodes e = Nd :: l /\ getKind Nd <> K_EmptyList) -> Forall good (e :: es) ->
  NodeStack s = listStack nodes (e :: es) ++ stk -> popNodeKind K_EmptyList s = Ok (None, s).
Proof.
  intros Hnodes Hgood Hs. unfold listStack in Hs. rewrite <-app_assoc in Hs.
  inversion_clear Hgood as [|? ? _ Hes]. apply Forall_reverse in Hes.
  destruct (reverse es) as [|e' l]; cbn [map concat app] in Hs.
  { by apply (popNodeKind_other _ _ _ _ Hs). }
  inversion_clear Hes as [|? ? He' _].
  destruct (Hnodes e' He') as (Nd & l' & He & Hk). rewrite He in Hs. cbn [app] in Hs. by eapply popNodeKind_other.
Qed.

Lemma reverseChildren_all {S} k p cs (s : S) :
  reverseChildren (mkNode k p (reverse cs)) 0 s = Ok (mkNode k p cs, s).
Proof.
  assert (take 0 (reverse cs) ++ reverse (drop 0 (reverse cs)) = cs) as E.
  { rewrite take_0, drop_0. apply reverse_involutive. }
  unfold reverseChildren, bind, assert, ret. cbn [getNumChildren children getKind payload Nat.leb].
  by rewrite E.
Qed.

Lemma popTuple_spec es stk s :
  NodeStack s = listStack elementStack es ++ stk ->
  popTuple s = Ok (Some (typed (tupleType es)), setNodeStack stk s).
Proof.
  destruct es as [|e es]; intros Hs; unfold popTuple; cbv zeta.
  - by rewrite (bind_ok _ _ _ _ _ (popNodeIf_top (fun k => Kind_eqb k K_EmptyList) (createNode K_EmptyList) stk s Hs eq_refl)).
  - rewrite (bind_ok _ _ _ None s). 2:{
      eapply (listStack_top (fun _ => True) elementStack); [|by apply Forall_true|done].
      intros [v l ty] _. destruct v, l; by eexists _, _. }
    cbn [isSome].
    rewrite (bind_ok _ _ _ _ _ (while_items (fun _ => True) elementStack tupleElement popTuple_step
      elementStack_nonempty popTuple_step_spec e es _ s stk ltac:(by apply Forall_true) Hs)).
    cbn [getKind payload createNode children app].
    by rewrite (bind_ok _ _ _ _ _ (reverseChildren_all K_Tuple NoPayload (map tupleElement (e :: es)) _)).
Qed.

Lemma pops_tuple es : pops (lit "t") (listStack elementStack es) (typed (tupleType es)).
Proof. apply pops_alone. intros s stk _ Hs. by apply popTuple_spec. Qed.

(** ** Names *)

Lemma pops_privateName d name :
  isDeclName (getKind name) = true -> getKind d = K_Identifier ->
  pops (lit "LL") (stackOf d ++ stackOf name) (mkNode K_PrivateDeclName NoPayload [d; name]).
Proof.
  intros Hname Hd. apply (pops_char "L" ["L"%char]). intros s stk rest _ Hs Hl.
  rewrite (stackOf_declName d), (stackOf_declName name) in Hs by (done || by rewrite Hd).
  change (demangleOperatorFor "L") with demangleLocalIdentifier. unfold demangleLocalIdentifier.
  rewrite (bind_ok _ _ _ _ _ (nextIf_left s "L" rest Hl)).
  rewrite (bind_ok _ _ _ _ _ (popNodeIf_top (fun k => Kind_eqb k K_Identifier) d (name :: stk) (advance 1 s) Hs
    ltac:(by rewrite Hd))).
  by rewrite (bind_ok _ _ _ _ _ (popNodeIf_top isDeclName name stk (setNodeStack (name :: stk) (advance 1 s)) eq_refl Hname)).
Qed.

Lemma pops_privateDiscriminator d :
  getKind d = K_Identifier -> pops (lit "Ll") (stackOf d) (mkNode K_PrivateDeclName NoPayload [d]).
Proof.
  intros Hd. apply (pops_char "L" ["l"%char]). intros s stk rest _ Hs Hl.
  rewrite stackOf_declName in Hs by by rewrite Hd.
  change (demangleOperatorFor "L") with demangleLocalIdentifier. unfold demangleLocalIdentifier.
  assert (nextIf "L" s = Ok (false, s)) as Hno by by apply nextIf_other; [rewrite Hl|].
  rewrite (bind_ok _ _ _ _ _ Hno), (bind_ok _ _ _ _ _ (nextIf_left s "l" rest Hl)).
  by rewrite (bind_ok _ _ _ _ _ (popNodeIf_top (fun k => Kind_eqb k K_Identifier) d stk (advance 1 s) Hs
    ltac:(by rewrite Hd))).
Qed.

(** An index starts with no letter. *)
Lemma nextIf_index c value rest s :
  isLetter c = true -> 0 <= value -> left s = renderIndex value ++ rest -> nextIf c s = Ok (false, s).
Proof.
  intros Hc Hv Hl. apply nextIf_other; [|by intros ->]. rewrite Hl. unfold renderIndex.
  destruct (Z.eqb_spec value 0) as [->|Hne]; [cbn; intros [= <-]; discriminate Hc|].
  destruct (decimal_spec (value - 1)) as (d & ds & -> & Hd & _); [lia|]. inversion_clear Hd as [|? ? Hd' _].
  cbn. intros [= ->]. by rewrite isDigit_not_letter in Hc.
Qed.

Lemma demangleIndexAsNode_render value rest s :
  0 <= value < 2 ^ 31 -> left s = renderIndex value ++ rest ->
  demangleIndexAsNode s = Ok (Some (createNodeIndex K_Number value), advance (length (renderIndex value)) s).
Proof.
  intros Hv Hl. unfold demangleIndexAsNode. rewrite (bind_ok _ _ _ _ _ (demangleIndex_render value rest s Hv Hl)).
  by destruct (Z.leb_spec 0 value); [|lia].
Qed.

Lemma pops_localName value name :
  isDeclName (getKind name) = true -> 0 <= value < 2 ^ 31 ->
  pops (lit "L" ++ renderIndex value) (stackOf name)
    (mkNode K_LocalDeclName NoPayload [createNodeIndex K_Number value; name]).
Proof.
  intros Hname Hv. apply (pops_char "L"). intros s stk rest _ Hs Hl. rewrite stackOf_declName in Hs by done.
  change (demangleOperatorFor "L") with demangleLocalIdentifier. unfold demangleLocalIdentifier.
  rewrite (bind_ok _ _ _ _ _ (nextIf_index "L" value rest s eq_refl ltac:(lia) Hl)).
  rewrite (bind_ok _ _ _ _ _ (nextIf_index "l" value rest s eq_refl ltac:(lia) Hl)).
  rewrite (bind_ok _ _ _ _ _ (demangleIndexAsNode_render value rest s Hv Hl)).
  by rewrite (bind_ok _ _ _ _ _ (popNodeIf_top isDeclName name stk (advance _ s) Hs Hname)).
Qed.

(** ** Generic parameters *)

Definition paramName (depth index : Z) : str :=
  indexName 7 index [] ++ (if depth =? 0 then [] else decimal depth).

Definition genericParam (depth index : Z) : Node :=
  mkNode K_DependentGenericParamType (TextPayload (paramName depth index))
    [createNodeIndex K_Index depth; createNodeIndex K_Index index].

(** What [mangleDependentGenericParamIndex] writes. *)
Definition renderParamIndex (depth index : Z) : str :=
  if depth =? 0 then if index =? 0 then lit "z" else renderIndex (index - 1)
  else lit "d" ++ renderIndex (depth - 1) ++ renderIndex index.

Lemma decimal_digits_length k : forall fuel n acc,
  0 <= n < 10 ^ (Z.of_nat k + 1) -> (length (decimal_digits fuel n acc) <= S k + length acc)%nat.
Proof.
  induction k as [|k IH]; intros [|fuel] n acc Hn; cbn [decimal_digits]; try lia;
    destruct (Z.ltb_spec n 10); cbn [length]; try lia.
  etrans; [apply IH|cbn [length]; lia]. split; [apply Z.div_pos; lia|].
  apply Z.div_lt_upper_bound; [lia|]. rewrite Nat2Z.inj_succ in Hn.
  replace (Z.succ (Z.of_nat k) + 1) with (Z.succ (Z.of_nat k + 1)) in Hn by lia.
  rewrite Z.pow_succ_r in Hn by lia. lia.
Qed.

(** Seven digits are the most that [append(int)] takes. *)
Lemma appendInt_ok v n (s : Demangler) : 0 <= n < 10 ^ 7 -> appendInt v n s = Ok (v ++ decimal n, s).
Proof.
  intros Hn. unfold appendInt, decimal_signed. destruct (Z.ltb_spec n 0); [lia|].
  pose proof (decimal_digits_length 6 (S (Z.to_nat (Z.log2 n))) n [] Hn) as Hlen.
  fold (decimal n) in Hlen. destruct (decimal_spec n) as (c & ds & He & _); [lia|].
  rewrite He in *. cbn [length] in *. unfold bind, assert.
  destruct (Nat.ltb_spec (S (length ds)) 8); [done|lia].
Qed.

Lemma getDependentGenericParamType_ok depth index s :
  0 <= depth < 10 ^ 7 -> 0 <= index -> getDependentGenericParamType depth index s = Ok (Some (genericParam depth index), s).
Proof.
  intros Hd Hi. unfold getDependentGenericParamType, genericParam, paramName.
  destruct (Z.ltb_spec depth 0); [lia|]. destruct (Z.ltb_spec index 0); [lia|]. cbn [orb].
  destruct (Z.eqb_spec depth 0) as [->|Hne]; cbn [negb].
  - unfold bind, ret. by rewrite app_nil_r.
  - by rewrite (bind_ok _ _ _ _ _ (appendInt_ok _ depth s Hd)).
Qed.

Lemma pops_genericParam depth index :
  0 <= depth < 10 ^ 7 -> 0 <= index < 2 ^ 31 ->
  pops (lit "q" ++ renderParamIndex depth index) [] (typed (genericParam depth index)).
Proof.
  intros Hd Hi. apply (pops_char "q"). intros s stk rest _ Hs Hl. apply setNodeStack_id in Hs.
  unfold renderParamIndex in *.
  assert (demangleGenericParamIndex s = Ok (Some (genericParam depth index), advance (length
    (if depth =? 0 then if index =? 0 then lit "z" else renderIndex (index - 1)
     else lit "d" ++ renderIndex (depth - 1) ++ renderIndex index)) s)) as He.
  2:{ change (demangleOperatorFor "q") with (GPI <- demangleGenericParamIndex ;; ret (createType GPI)).
      rewrite (bind_ok _ _ _ _ _ He). by rewrite Hs at 1. }
  unfold demangleGenericParamIndex. destruct (Z.eqb_spec depth 0) as [->|Hne].
  - destruct (Z.eqb_spec index 0) as [->|Hni].
    + assert (nextIf "d" s = Ok (false, s)) as Hno by by apply nextIf_other; [rewrite Hl|].
      rewrite (bind_ok _ _ _ _ _ Hno), (bind_ok _ _ _ _ _ (nextIf_left s "z" rest Hl)).
      by apply getDependentGenericParamType_ok.
    + rewrite (bind_ok _ _ _ _ _ (nextIf_index "d" (index - 1) rest s eq_refl ltac:(lia) Hl)).
      rewrite (bind_ok _ _ _ _ _ (nextIf_index "z" (index - 1) rest s eq_refl ltac:(lia) Hl)).
      rewrite (bind_ok _ _ _ _ _ (demangleIndex_render (index - 1) rest s ltac:(lia) Hl)).
      rewrite wrap_int_id by lia. replace (index - 1 + 1) with index by lia.
      apply getDependentGenericParamType_ok; lia.
  - rewrite <-!app_assoc in Hl. rewrite (bind_ok _ _ _ _ _ (nextIf_left s "d" _ Hl)).
    pose proof (left_skip (lit "d") _ s Hl) as Hl1. change (length (lit "d")) with 1%nat in Hl1.
    rewrite (bind_ok _ _ _ _ _ (demangleIndex_render (depth - 1) _ _ ltac:(lia) Hl1)).
    pose proof (left_skip _ _ _ Hl1) as Hl2.
    rewrite (bind_ok _ _ _ _ _ (demangleIndex_render index rest _ ltac:(lia) Hl2)).
    rewrite wrap_int_id by lia. replace (depth - 1 + 1) with depth by lia.
    rewrite getDependentGenericParamType_ok by lia.
    by rewrite !advance_advance, !length_app, Nat.add_assoc.
Qed.

(** ** Builtin types *)

Definition builtinTypes : list (string * string) :=
  [("Builtin.BridgeObject", "b"); ("Builtin.UnsafeValueBuffer", "B"); ("Builtin.UnknownObject", "O");
   ("Builtin.NativeObject", "o"); ("Builtin.RawPointer", "p"); ("Builtin.SILToken", "t"); ("Builtin.Word", "w")]%string.

Definition builtinType (name : str) : Node := createNodeText K_BuiltinTypeName name.

Lemma pops_builtinTypes :
  Forall (fun e => pops (lit "B" ++ lit e.2) [] (typed (builtinType (lit e.1)))) builtinTypes.
Proof. repeat (apply Forall_cons_2; [cbn [fst snd]; eapply (pops_second "B"); [reflexivity|run_stack]|]). apply Forall_nil_2. Qed.

(** The builtin numbers, with their size. *)
Definition builtinNumbers : list (string * ascii) := [("Builtin.Int"%string, "i"%char); ("Builtin.Float"%string, "f"%char)].

(** The case of [demangleBuiltinType] for them. *)
Lemma builtinNumber_read name size rest s :
  1 <= size < 10 ^ 7 -> left s = renderIndex (size + 1) ++ rest ->
  (i <- demangleIndex ;;
   let size := wrap_int (i - 1) in
   if size <=? 0 then ret None
   else name <- appendInt (lit name) size ;; ret (BuiltinTypeName name)) s
  = Ok (Some (typed (builtinType (lit name ++ decimal size))), advance (length (renderIndex (size + 1))) s).
Proof.
  intros Hsize Hl. rewrite (bind_ok _ _ _ _ _ (demangleIndex_render (size + 1) rest s ltac:(lia) Hl)).
  cbv zeta. rewrite wrap_int_id by lia. replace (size + 1 - 1) with size by lia.
  destruct (Z.leb_spec size 0); [lia|].
  by rewrite (bind_ok _ _ _ _ _ (appendInt_ok (lit name) size _ ltac:(lia))).
Qed.

Lemma pops_builtinNumbers size :
  1 <= size < 10 ^ 7 ->
  Forall (fun e => pops (lit "B" ++ [e.2] ++ decimal size ++ lit "_") [] (typed (builtinType (lit e.1 ++ decimal size))))
    builtinNumbers.
Proof.
  intros Hsize. assert (decimal size ++ lit "_" = renderIndex (size + 1)) as ->.
  { unfold renderIndex. destruct (Z.eqb_spec (size + 1) 0); [lia|]. by replace (size + 1 - 1) with size by lia. }
  repeat (apply Forall_cons_2; [|]); [..|apply Forall_nil_2]; apply (pops_char "B"); intros s stk rest _ Hs Hl;
    change (demangleOperatorFor "B") with demangleBuiltinType; unfold demangleBuiltinType;
    rewrite setNodeStack_advance by done; rewrite <-app_assoc in Hl; rewrite length_app, <-advance_advance;
    rewrite (bind_ok _ _ _ _ _ (nextChar_left s _ _ Hl)); pose proof (left_skip [_] _ s Hl) as Hl1;
    pose proof (fun name => builtinNumber_read name size rest _ Hsize Hl1) as Hread.
  - apply (Hread "Builtin.Int"%string).
  - apply (Hread "Builtin.Float"%string).
Qed.
