(* ===== verification/EntityReads.v ===== *)
(** * Operators of declarations

    What the operators of functions, variables, initializers and closures take
    from the stack. *)

From Stdlib Require Import String.
From S2P Require Import Prelude Nodes ManglingUtils Punycode IdentifierMangling Remangler Demangler Numbers IdentifierTokens IdentifierEncoding PunycodeRoundtrip IdentifierRoundtrip SubstitutionGroups MergingSpecs Simulation SymbolSimulation SymbolWriting OperatorReads.

(** ** Parameter labels *)

Definition isLabel (n : Node) : bool :=
  Kind_eqb (getKind n) K_Identifier || Kind_eqb (getKind n) K_FirstElementMarker.

(** The number of parameters of a function type; other types have none. *)
Definition numParams (t : Node) : Z :=
  match t with
  | mkNode K_FunctionType _ (mkNode K_ThrowsAnnotation _ _ :: mkNode _ (IndexPayload i) _ :: _) => i
  | mkNode K_FunctionType _ (mkNode _ (IndexPayload i) _ :: _) => i
  | _ => 0
  end.

(** A function type as [functionType] builds it, or another type without a
    signature. *)
Definition signatureShape (t : Node) : Prop :=
  getKind t <> K_DependentGenericType
  /\ (getKind t = K_FunctionType -> exists throws a r, t = functionType K_FunctionType throws a r).

Definition labelNodes (labels : option (list Node)) : list Node :=
  match labels with Some ls => [mkNode K_LabelList NoPayload ls] | None => [] end.

Definition labelStack (labels : option (list Node)) : list Node :=
  match labels with
  | Some [] => [createNode K_EmptyList]
  | Some ls => reverse ls
  | None => []
  end.

(** Labels that are read back: one for each parameter, and not all of them
    missing; or an empty list; or, without parameters, no list at all. *)
Definition labelsOk (labels : option (list Node)) (t : Node) : Prop :=
  match labels with
  | None => numParams t = 0
  | Some [] => True
  | Some ls => Z.of_nat (length ls) = numParams t /\ numParams t < 2 ^ 32 /\ Forall (fun l => isLabel l = true) ls
      /\ Exists (fun l => getKind l = K_Identifier) ls
  end.

Lemma popLabels_spec ls : forall i Params List hasLabels stk s,
  IsOldFunctionTypeMangling s = false -> Forall (fun l => isLabel l = true) ls -> NodeStack s = ls ++ stk ->
  popLabels (length ls) i Params List hasLabels s =
    Ok ((Some (mkNode (getKind List) (payload List) (children List ++ ls),
               hasLabels || existsb (fun l => Kind_eqb (getKind l) K_Identifier) ls), Params), setNodeStack stk s).
Proof.
  induction ls as [|l ls IH]; intros i Params List hasLabels stk s Hold Hls Hs; cbn [length popLabels existsb].
  - rewrite app_nil_r, orb_false_r. destruct List as [k p cs]. by rewrite <-(setNodeStack_id s stk Hs).
  - inversion_clear Hls as [|? ? Hl Hls']. unfold getLabel.
    rewrite (bind_ok _ _ s (Some l, Params) (setNodeStack (ls ++ stk) s)).
    2:{ rewrite (bind_ok (gets IsOldFunctionTypeMangling) _ s _ _ eq_refl), Hold.
        by rewrite (bind_ok _ _ s (Some l) (setNodeStack (ls ++ stk) s)) by by unfold popNode; rewrite Hs. }
    unfold isLabel in Hl. rewrite <-negb_orb, Hl. cbn [negb].
    rewrite (IH (i + 1)%nat Params _ _ stk) by done. cbn [nodeAddChild getKind payload children].
    rewrite <-app_assoc, orb_assoc.
    assert (negb (Kind_eqb (getKind l) K_FirstElementMarker) = Kind_eqb (getKind l) K_Identifier) as ->; [|done].
    destruct (Kind_eqb_spec (getKind l) K_Identifier) as [->|]; [done|]. cbn [orb] in Hl. by rewrite Hl.
Qed.

Lemma functionType_kind throws a r : getKind (functionType K_FunctionType throws a r) = K_FunctionType.
Proof. done. Qed.

Lemma numParams_functionType throws a r :
  numParams (functionType K_FunctionType throws a r)
  = wrap_u64 (if Kind_eqb (getKind a) K_Tuple then Z.of_nat (getNumChildren a) else 1).
Proof. by destruct throws. Qed.

(** Without an empty list, there is a label for each parameter. *)
Lemma popFunctionParamLabels_function throws a r s :
  let t := functionType K_FunctionType throws a r in
  IsOldFunctionTypeMangling s = false -> popNodeKind K_EmptyList s = Ok (None, s) ->
  popFunctionParamLabels (Some (typed t)) s =
  (if numParams t =? 0 then ret (None, Some (typed t))
   else
     r <- popLabels (Z.to_nat (wrap_u32 (numParams t))) 0 a (createNode K_LabelList) false ;;
     let '(labels, _) := r in
     match labels with
     | None => ret (None, Some (typed t))
     | Some (LabelList, hasLabels) =>
         if negb hasLabels then ret (Some (createNode K_LabelList), Some (typed t))
         else LabelList <- reverseChildren LabelList 0 ;; ret (Some LabelList, Some (typed t))
     end) s.
Proof.
  intros t Hold He. unfold popFunctionParamLabels.
  rewrite (bind_ok (gets IsOldFunctionTypeMangling) _ s _ _ eq_refl), Hold. cbv iota.
  rewrite (bind_ok _ _ _ _ _ He). cbn [isSome].
  assert (numParams t = wrap_u64 (if Kind_eqb (getKind a) K_Tuple then Z.of_nat (getNumChildren a) else 1)) as ->
    by apply numParams_functionType.
  by destruct throws.
Qed.

(** The labels of a type, when what is below them is no empty list. *)
Lemma popFunctionParamLabels_spec labels t stk s :
  IsOldFunctionTypeMangling s = false -> signatureShape t -> labelsOk labels t ->
  (labels = None -> exists Nd stk', stk = Nd :: stk' /\ getKind Nd <> K_EmptyList) ->
  NodeStack s = labelStack labels ++ stk ->
  popFunctionParamLabels (Some (typed t)) s =
    Ok ((head (labelNodes labels), Some (typed t)), setNodeStack stk s).
Proof.
  intros Hold [Hgen Hshape] Hok Hstk Hs.
  destruct labels as [[|l ls]|]; cbn [labelStack labelNodes head] in *.
  - unfold popFunctionParamLabels. rewrite (bind_ok (gets IsOldFunctionTypeMangling) _ s _ _ eq_refl), Hold.
    by rewrite (bind_ok _ _ _ _ _ (popNodeIf_top (fun k => Kind_eqb k K_EmptyList) _ _ _ Hs eq_refl)).
  - destruct Hok as (Hn & Hlt & Hls & Hex).
    assert (popNodeKind K_EmptyList s = Ok (None, s)) as He.
    { assert (exists l' ls', reverse (l :: ls) = l' :: ls') as (l' & ls' & Hrev).
      { destruct (reverse (l :: ls)) as [|l' ls'] eqn:E; [|by exists l', ls'].
        apply (f_equal length) in E. by rewrite length_reverse in E. }
      rewrite Hrev in Hs. eapply popNodeKind_other; [exact Hs|]. intros Hk.
      apply Forall_reverse in Hls. rewrite Hrev in Hls. inversion_clear Hls as [|? ? Hl _].
      unfold isLabel in Hl. by rewrite Hk in Hl. }
    destruct (decide (getKind t = K_FunctionType)) as [Hk|Hk].
    2:{ destruct t as [k p cs]. cbn [getKind] in Hk. cbn [length] in Hn.
        assert (numParams (mkNode k p cs) = 0) by by destruct k. lia. }
    destruct (Hshape Hk) as (throws & a & r & ->).
    rewrite popFunctionParamLabels_function by done. rewrite <-Hn. cbv zeta.
    destruct (Z.eqb_spec (Z.of_nat (length (l :: ls))) 0); [cbn [length] in *; lia|].
    rewrite wrap_u32_id, Nat2Z.id by lia. rewrite <-(length_reverse (l :: ls)) at 1.
    rewrite (bind_ok _ _ _ _ _ (popLabels_spec (reverse (l :: ls)) 0 a _ false stk s Hold
      ltac:(by apply Forall_reverse) Hs)).
    assert (existsb (fun l => Kind_eqb (getKind l) K_Identifier) (reverse (l :: ls)) = true) as ->.
    { apply existsb_exists. apply List.Exists_exists in Hex as (x & Hin & Hx). exists x.
      split; [|by rewrite Hx]. unfold reverse. by rewrite <-rev_alt, <-in_rev. }
    cbn [orb negb getKind payload children createNode app].
    by rewrite (bind_ok _ _ _ _ _ (reverseChildren_all K_LabelList NoPayload (l :: ls) _)).
  - destruct (Hstk eq_refl) as (Nd & stk' & -> & Hk). cbn [app] in Hs.
    pose proof (popNodeKind_other K_EmptyList Nd stk' s Hs Hk) as He.
    assert (setNodeStack (Nd :: stk') s = s) as -> by by rewrite <-(setNodeStack_id s _ Hs).
    destruct (decide (getKind t = K_FunctionType)) as [Hkt|Hkt].
    + destruct (Hshape Hkt) as (throws & a & r & ->).
        rewrite popFunctionParamLabels_function by done. by rewrite Hok.
    + unfold popFunctionParamLabels. rewrite (bind_ok (gets IsOldFunctionTypeMangling) _ s _ _ eq_refl), Hold.
      cbv iota. rewrite (bind_ok _ _ _ _ _ He). cbn [isSome].
      change (negb (Kind_eqb (getKind (typed t)) K_Type)) with false. cbv iota.
      rewrite (bind_ok (getFirstChild (typed t)) _ s t s eq_refl). cbv zeta.
      destruct (Kind_eqb_spec (getKind t) K_DependentGenericType) as [|_]; [done|].
      rewrite (bind_ok (ret t) _ s t s eq_refl), (bind_ok (ret t) _ s t s eq_refl).
      by destruct (Kind_eqb_spec (getKind t) K_FunctionType).
Qed.

(** ** Functions and variables *)

(** A context or a name lies on the stack as one node, which is no list. *)
Lemma stackOf_top n :
  isContext (getKind n) = true \/ isDeclName (getKind n) = true ->
  exists Nd, stackOf n = [Nd] /\ getKind Nd <> K_EmptyList.
Proof.
  destruct n as [k p cs]. intros H.
  assert (k <> K_EmptyList) as Hk by by intros ->; destruct H.
  destruct k; try (by eexists; split; [reflexivity|]); destruct p; try (by eexists; split; [reflexivity|]).
  cbn [stackOf]. eexists. split; [reflexivity|]. by destruct (specialModule text).
Qed.

(** A declaration with a type, and labels for the parameters of the type. *)
Definition entityNode (k : Kind) (ctx name : Node) (labels : option (list Node)) (t : Node) : Node :=
  mkNode k NoPayload ([ctx; name] ++ labelNodes labels ++ [typed t]).

Definition entityStack (ctx name : Node) (labels : option (list Node)) (t : Node) : list Node :=
  typed t :: labelStack labels ++ stackOf name ++ stackOf ctx.

(** The first of several computations returns what [H] says. *)
Ltac step H := cbv beta iota; erewrite bind_ok; [|eapply H; try done; try reflexivity; try done].

Definition contextOk (ctx : Node) : Prop := isContext (getKind ctx) = true /\ moduleShape ctx = true.

Lemma popContext_ok ctx stk s :
  contextOk ctx -> NodeStack s = stackOf ctx ++ stk -> popContext s = Ok (Some ctx, setNodeStack stk s).
Proof. intros [? ?]. by apply popContext_stackOf. Qed.

Lemma popDeclName_ok name stk s :
  isDeclName (getKind name) = true -> NodeStack s = stackOf name ++ stk ->
  popNodeIf isDeclName s = Ok (Some name, setNodeStack stk s).
Proof. intros Hn Hs. rewrite stackOf_declName in Hs by done. by apply popNodeIf_top. Qed.

Lemma demangleEntity_spec k ctx name labels t stk s :
  IsOldFunctionTypeMangling s = false -> signatureShape t -> labelsOk labels t ->
  contextOk ctx -> isDeclName (getKind name) = true ->
  NodeStack s = entityStack ctx name labels t ++ stk ->
  demangleEntity k s = Ok (Some (entityNode k ctx name labels t), setNodeStack stk s).
Proof.
  intros Hold Hsig Hlabels Hctx Hname Hs. unfold demangleEntity, entityStack in *. cbn [app] in Hs.
  rewrite <-!app_assoc in Hs.
  step (popNodeIf_top (fun k => Kind_eqb k K_Type)).
  step popFunctionParamLabels_spec.
  2:{ intros _. destruct (stackOf_top name) as (Nd & -> & Hk); [by right|]. by eexists _, _. }
  step popDeclName_ok. step popContext_ok. by destruct labels.
Qed.

(** ** Accessors *)

Definition accessors : list (option Kind * string) :=
  [(None, "p"); (Some K_MaterializeForSet, "m"); (Some K_Setter, "s"); (Some K_Getter, "g");
   (Some K_GlobalGetter, "G"); (Some K_WillSet, "w"); (Some K_DidSet, "W");
   (Some K_OwningMutableAddressor, "aO"); (Some K_NativeOwningMutableAddressor, "ao");
   (Some K_NativePinningMutableAddressor, "aP"); (Some K_UnsafeMutableAddressor, "au");
   (Some K_OwningAddressor, "lO"); (Some K_NativeOwningAddressor, "lo");
   (Some K_NativePinningAddressor, "lp"); (Some K_UnsafeAddressor, "lu")]%string.

(** The accessor of a variable or subscript, or this itself. *)
Definition accessorNode (k : option Kind) (n : Node) : Node :=
  match k with Some k => mkNode k NoPayload [n] | None => n end.

Lemma demangleAccessor_spec k code n rest s :
  In (k, code) accessors -> left s = lit code ++ rest ->
  demangleAccessor (Some n) s = Ok (Some (accessorNode k n), advance (length (lit code)) s).
Proof.
  intros Hin Hl. unfold demangleAccessor.
  repeat destruct Hin as [[= <- <-]|Hin]; [..|destruct Hin];
    rewrite (bind_ok _ _ _ _ _ (nextChar_left s _ _ Hl)); try reflexivity;
    pose proof (left_skip [_] _ s Hl) as Hl1;
    refine (eq_trans (bind_ok nextChar _ _ _ _ (nextChar_left _ _ _ Hl1)) _);
    rewrite advance_advance; reflexivity.
Qed.

Lemma pops_variable ctx name labels t k code :
  In (k, code) accessors -> signatureShape t -> labelsOk labels t -> contextOk ctx ->
  isDeclName (getKind name) = true ->
  pops (lit "v" ++ lit code) (entityStack ctx name labels t) (accessorNode k (entityNode K_Variable ctx name labels t)).
Proof.
  intros Hin Hsig Hlabels Hctx Hname. apply (pops_char "v"). intros s stk rest (Hold & _) Hs Hl.
  change (demangleOperatorFor "v") with demangleVariable. unfold demangleVariable.
  step demangleEntity_spec. by apply (demangleAccessor_spec k code _ rest).
Qed.

(** ** Subscripts, initializers and functions *)

(** A declaration without a name of its own, but for a private one. *)
Definition initializerNode (k : Kind) (ctx : Node) (labels : option (list Node)) (t : Node) (privateName : option Node) : Node :=
  mkNode k NoPayload ([ctx] ++ labelNodes labels ++ [typed t] ++ option_list privateName).

Definition initializerStack (ctx : Node) (labels : option (list Node)) (t : Node) (privateName : option Node) : list Node :=
  option_list privateName ++ typed t :: labelStack labels ++ stackOf ctx.

Definition privateOk (privateName : option Node) : Prop :=
  match privateName with Some n => getKind n = K_PrivateDeclName | None => True end.

Lemma popPrivateName_ok privateName Nd stk s :
  privateOk privateName -> getKind Nd <> K_PrivateDeclName -> NodeStack s = option_list privateName ++ Nd :: stk ->
  popNodeKind K_PrivateDeclName s = Ok (privateName, setNodeStack (Nd :: stk) s).
Proof.
  destruct privateName as [n|]; cbn; intros Hp Hk Hs.
  - apply popNodeIf_top; [done|]. by rewrite Hp.
  - rewrite <-(setNodeStack_id s _ Hs). by eapply popNodeKind_other.
Qed.

Lemma stackOf_context_top ctx stk :
  contextOk ctx -> exists Nd stk', stackOf ctx ++ stk = Nd :: stk' /\ getKind Nd <> K_EmptyList.
Proof. intros [H _]. destruct (stackOf_top ctx) as (Nd & -> & Hk); [by left|]. by eexists _, _. Qed.

Lemma pops_subscript ctx labels t privateName k code :
  In (k, code) accessors -> signatureShape t -> labelsOk labels t -> contextOk ctx -> privateOk privateName ->
  pops (lit "i" ++ lit code) (initializerStack ctx labels t privateName)
    (accessorNode k (initializerNode K_Subscript ctx labels t privateName)).
Proof.
  intros Hin Hsig Hlabels Hctx Hp. apply (pops_char "i"). intros s stk rest (Hold & _) Hs Hl.
  change (demangleOperatorFor "i") with demangleSubscript. unfold demangleSubscript.
  unfold initializerStack in Hs. rewrite <-app_assoc in Hs. cbn [app] in Hs. rewrite <-app_assoc in Hs.
  step popPrivateName_ok. step (popNodeIf_top (fun k => Kind_eqb k K_Type)).
  step popFunctionParamLabels_spec. 2:{ intros _. by apply stackOf_context_top. }
  step popContext_ok. cbv beta iota zeta.
  match goal with |- demangleAccessor ?n _ = _ =>
    assert (n = Some (initializerNode K_Subscript ctx labels t privateName)) as -> by by destruct labels, privateName
  end.
  by apply (demangleAccessor_spec k code _ rest).
Qed.

Definition initializerKinds : list (Kind * string) := [(K_Allocator, "fC"); (K_Constructor, "fc")]%string.

Lemma functionEntityTypeAndMaybePrivateName_spec k ctx labels t privateName stk s :
  IsOldFunctionTypeMangling s = false -> signatureShape t -> labelsOk labels t -> contextOk ctx ->
  privateOk privateName -> NodeStack s = initializerStack ctx labels t privateName ++ stk ->
  functionEntityTypeAndMaybePrivateName k s
  = Ok (Some (initializerNode k ctx labels t privateName), setNodeStack stk s).
Proof.
  intros Hold Hsig Hlabels Hctx Hp Hs. unfold functionEntityTypeAndMaybePrivateName.
  unfold initializerStack in Hs. rewrite <-app_assoc in Hs. cbn [app] in Hs. rewrite <-app_assoc in Hs.
  step popPrivateName_ok. step (popNodeIf_top (fun k => Kind_eqb k K_Type)).
  step popFunctionParamLabels_spec. 2:{ intros _. by apply stackOf_context_top. }
  step popContext_ok. by destruct labels, privateName.
Qed.

Lemma pops_initializer ctx labels t privateName :
  signatureShape t -> labelsOk labels t -> contextOk ctx -> privateOk privateName ->
  Forall (fun e => pops (lit e.2) (initializerStack ctx labels t privateName)
    (initializerNode e.1 ctx labels t privateName)) initializerKinds.
Proof.
  intros Hsig Hlabels Hctx Hp.
  repeat (apply Forall_cons_2; [|]); [..|apply Forall_nil_2]; eapply (pops_second "f"); try reflexivity;
    intros s stk Hold Hs; by apply functionEntityTypeAndMaybePrivateName_spec.
Qed.

(** A function: its type is on the stack in parts. *)
Definition functionStack (ctx name : Node) (labels : option (list Node)) (throws : bool) (a r : Node) : list Node :=
  throwsNodes throws ++ [paramsNode a; paramsNode r] ++ labelStack labels ++ stackOf name ++ stackOf ctx.

Lemma pops_function ctx name labels throws a r :
  let t := functionType K_FunctionType throws a r in
  paramsShape a = true -> paramsShape r = true -> labelsOk labels t -> contextOk ctx ->
  isDeclName (getKind name) = true ->
  pops (lit "F") (functionStack ctx name labels throws a r) (entityNode K_Function ctx name labels t).
Proof.
  intros t Ha Hr Hlabels Hctx Hname. apply pops_alone. intros s stk Hold Hs.
  change (demangleOperatorFor "F") with demanglePlainFunction. unfold demanglePlainFunction.
  assert (popNodeKind K_DependentGenericSignature s = Ok (None, s)) as Hsig.
  { unfold functionStack in Hs. destruct throws; cbn [throwsNodes app] in Hs;
      [by eapply popNodeKind_other|eapply popNodeKind_other; [exact Hs|]].
    unfold paramsNode. by case_match. }
  rewrite (bind_ok _ _ _ _ _ Hsig). unfold functionStack in Hs.
  rewrite <-!app_assoc in Hs. cbn [app] in Hs.
  rewrite (bind_ok _ _ _ _ _ (popFunctionType_spec K_FunctionType throws a r
    (labelStack labels ++ stackOf name ++ stackOf ctx ++ stk) s Ha Hr Hs)).
  step popFunctionParamLabels_spec.
  2:{ split; [done|]. by exists throws, a, r. }
  2:{ intros _. destruct (stackOf_top name) as (Nd & -> & Hk); [by right|]. by eexists _, _. }
  step popDeclName_ok. step popContext_ok. by destruct labels.
Qed.

(** ** Declarations in a context *)

Definition contextKinds : list (Kind * string) :=
  [(K_Deallocator, "fD"); (K_Destructor, "fd"); (K_IVarDestroyer, "fE"); (K_IVarInitializer, "fe");
   (K_Initializer, "fi")]%string.

Lemma pops_contextKinds ctx :
  contextOk ctx -> Forall (fun e => pops (lit e.2) (stackOf ctx) (mkNode e.1 NoPayload [ctx])) contextKinds.
Proof.
  intros Hctx.
  repeat (apply Forall_cons_2; [|]); [..|apply Forall_nil_2]; eapply (pops_second "f"); try reflexivity;
    intros s stk Hold Hs; cbv beta iota; unfold functionEntityNone;
    refine (eq_trans (bind_ok popContext _ _ _ _ (popContext_ok ctx stk s Hctx Hs)) _); reflexivity.
Qed.

Definition closureKinds : list (Kind * string) := [(K_ExplicitClosure, "fU"); (K_ImplicitClosure, "fu")]%string.

Definition closureNode (k : Kind) (ctx : Node) (value : Z) (t : Node) : Node :=
  mkNode k NoPayload [ctx; createNodeIndex K_Number value; typed t].

(** An operator with a second character and an index behind it. *)
Lemma pops_index c d f value Nds Nd :
  0 <= value < 2 ^ 31 -> demangleOperatorFor c = (x <- nextChar ;; f x) ->
  (forall s stk rest, IsOldFunctionTypeMangling s = false -> NodeStack s = Nds ++ stk -> left s = renderIndex value ++ rest ->
     f d s = Ok (Some Nd, setNodeStack stk (advance (length (renderIndex value)) s))) ->
  pops ([c; d] ++ renderIndex value) Nds Nd.
Proof.
  intros Hv Hc H. apply (pops_char c ([d] ++ renderIndex value)). intros s stk rest (Hold & _) Hs Hl. rewrite Hc.
  rewrite <-app_assoc in Hl. rewrite (bind_ok _ _ _ _ _ (nextChar_left s d _ Hl)).
  rewrite (H (advance 1 s) stk rest Hold Hs); [by rewrite advance_advance|]. by apply (left_skip [d]).
Qed.

Lemma functionEntityTypeAndIndex_spec k ctx value t stk rest s :
  0 <= value < 2 ^ 31 -> contextOk ctx -> NodeStack s = (typed t :: stackOf ctx) ++ stk ->
  left s = renderIndex value ++ rest ->
  functionEntityTypeAndIndex k s
  = Ok (Some (closureNode k ctx value t), setNodeStack stk (advance (length (renderIndex value)) s)).
Proof.
  intros Hv Hctx Hs Hl. unfold functionEntityTypeAndIndex.
  rewrite (bind_ok _ _ _ _ _ (demangleIndexAsNode_render value rest s Hv Hl)).
  step (popNodeIf_top (fun k => Kind_eqb k K_Type)). step popContext_ok. done.
Qed.

Lemma pops_closure ctx value t :
  0 <= value < 2 ^ 31 -> contextOk ctx ->
  Forall (fun e => pops (lit e.2 ++ renderIndex value) (typed t :: stackOf ctx) (closureNode e.1 ctx value t)) closureKinds.
Proof.
  intros Hv Hctx.
  repeat (apply Forall_cons_2; [|]); [..|apply Forall_nil_2]; eapply (pops_index "f"); try done; try reflexivity;
    intros s stk rest Hold Hs Hl; (etransitivity; [|by apply functionEntityTypeAndIndex_spec with (rest := rest)]);
    reflexivity.
Qed.

Definition defaultArgument (ctx : Node) (value : Z) : Node :=
  mkNode K_DefaultArgumentInitializer NoPayload [ctx; createNodeIndex K_Number value].

Lemma pops_defaultArgument ctx value :
  0 <= value < 2 ^ 31 -> contextOk ctx ->
  pops (lit "fA" ++ renderIndex value) (stackOf ctx) (defaultArgument ctx value).
Proof.
  intros Hv Hctx. eapply (pops_index "f"); try done. intros s stk rest Hold Hs Hl.
  refine (eq_trans (bind_ok demangleIndexAsNode _ _ _ _ (demangleIndexAsNode_render value rest s Hv Hl)) _).
  by step popContext_ok.
Qed.

(** A declaration that is on the stack as it is. *)
Definition entityOk (n : Node) : Prop :=
  isContext (getKind n) = true /\ typeKind (getKind n) = false /\ getKind n <> K_Module.

Lemma stackOf_entity n : entityOk n -> stackOf n = [n].
Proof. destruct n as [k p cs]. intros (Hc & Ht & Hm). cbn [getKind] in *.
  by destruct k; try discriminate Hc; try discriminate Ht. Qed.

Lemma pops_static n : entityOk n -> pops (lit "Z") (stackOf n) (mkNode K_Static NoPayload [n]).
Proof.
  intros Hn. apply pops_alone. intros s stk _ Hs. rewrite stackOf_entity in Hs by done.
  assert (isEntity (getKind n) = true) as He.
  { unfold isEntity. case_match; [done|]. apply Hn. }
  refine (eq_trans (bind_ok (popNodeIf isEntity) _ _ _ _ (popNodeIf_top isEntity n stk s Hs He)) _). done.
Qed.

Lemma pops_extension m t :
  getKind m = K_Module -> moduleShape m = true -> isAnyGeneric (getKind t) = true ->
  pops (lit "E") (stackOf m ++ [typed t]) (mkNode K_Extension NoPayload [m; t]).
Proof.
  intros Hm Hshape Ht. apply pops_alone. intros s stk _ Hs. destruct s as [tx pos old ns subs ws]. cbn in Hs. subst ns.
  destruct m as [k p cs], t as [kt pt ct]. cbn in Hm. subst k.
  destruct p as [|text|]; try discriminate Hshape. destruct cs; [|discriminate Hshape].
  cbn [stackOf app]. by destruct (specialModule text), kt.
Qed.
