(* ===== verification/GenericReads.v ===== *)
(** * Operators of generic types, protocols and metatypes *)

From Stdlib Require Import String.
From S2P Require Import Prelude Nodes ManglingUtils Punycode IdentifierMangling Remangler Demangler Numbers IdentifierTokens IdentifierEncoding PunycodeRoundtrip IdentifierRoundtrip SubstitutionGroups MergingSpecs Simulation SymbolSimulation SymbolWriting OperatorReads EntityReads.

(** ** Metatypes with a representation *)

Definition representations : list (string * string) :=
  [("@thin", "t"); ("@thick", "T"); ("@objc_metatype", "o")]%string.
Definition metatypeKinds : list (Kind * string) := [(K_Metatype, "XM"); (K_ExistentialMetatype, "Xm")]%string.

Definition metatypeNode (k : Kind) (repr : str) (t : Node) : Node :=
  mkNode k NoPayload [createNodeText K_MetatypeRepresentation repr; typed t].

Lemma pops_third c d e f Nds Nd :
  demangleOperatorFor c = (x <- nextChar ;; f x) ->
  (forall s stk rest, IsOldFunctionTypeMangling s = false -> NodeStack s = Nds ++ stk -> left s = e :: rest ->
     f d s = Ok (Some Nd, setNodeStack stk (advance 1 s))) ->
  pops [c; d; e] Nds Nd.
Proof.
  intros Hc H. apply (pops_char c [d; e]). intros s stk rest (Hold & _) Hs Hl. rewrite Hc.
  rewrite (bind_ok _ _ _ _ _ (nextChar_left s d _ Hl)).
  rewrite (H (advance 1 s) stk rest Hold Hs); [by rewrite advance_advance|]. by apply (left_skip [d] _ s Hl).
Qed.

Lemma metatype_spec k repr c t stk rest s :
  In (repr, String c "") representations -> NodeStack s = typed t :: stk -> left s = c :: rest ->
  (MTR <- demangleMetatypeRepresentation ;; Type_ <- popNodeKind K_Type ;;
   ret (createType (createWithChildren2 k MTR Type_))) s
  = Ok (Some (typed (metatypeNode k (lit repr) t)), setNodeStack stk (advance 1 s)).
Proof.
  intros Hr Hs Hl.
  rewrite (bind_ok _ _ s (Some (createNodeText K_MetatypeRepresentation (lit repr))) (advance 1 s)).
  - by step (popNodeIf_top (fun k => Kind_eqb k K_Type)).
  - unfold demangleMetatypeRepresentation. rewrite (bind_ok _ _ _ _ _ (nextChar_left s c rest Hl)).
    by repeat destruct Hr as [[= <- <-]|Hr].
Qed.

Lemma pops_metatype k kcode repr c t :
  In (k, kcode) metatypeKinds -> In (repr, String c "") representations ->
  pops (lit kcode ++ [c]) [typed t] (typed (metatypeNode k (lit repr) t)).
Proof.
  intros Hk Hr. repeat destruct Hk as [[= <- <-]|Hk]; [..|destruct Hk];
    (eapply (pops_third "X"); [reflexivity|]); intros s stk rest _ Hs Hl;
    (etransitivity; [|by apply (metatype_spec _ repr c t stk rest)]); reflexivity.
Qed.

(** ** Protocol lists *)

(** A protocol as it is written: its context and its name. *)
Record protocol := mkProtocol { protocolContext : Node; protocolName : Node }.

Definition protocolNode (p : protocol) : Node := typed (mkNode K_Protocol NoPayload [protocolContext p; protocolName p]).
Definition protocolStack (p : protocol) : list Node := stackOf (protocolName p) ++ stackOf (protocolContext p).

Definition protocolOk (p : protocol) : Prop :=
  contextOk (protocolContext p) /\ isDeclName (getKind (protocolName p)) = true.

Lemma popProtocol_spec p stk s :
  protocolOk p -> NodeStack s = protocolStack p ++ stk -> popProtocol s = Ok (Some (protocolNode p), setNodeStack stk s).
Proof.
  intros [Hctx Hname] Hs. unfold protocolStack in Hs. rewrite <-app_assoc in Hs. unfold popProtocol.
  step popDeclName_ok. step popContext_ok. done.
Qed.

Lemma protocolStack_top p : protocolOk p -> exists Nd l, protocolStack p = Nd :: l /\ isDeclName (getKind Nd) = true.
Proof.
  intros [_ Hname]. unfold protocolStack. rewrite stackOf_declName by done. by eexists _, _.
Qed.

Lemma protocolStack_nonempty p : protocolStack p <> [].
Proof. unfold protocolStack. destruct (protocolName p) as [k pl cs]. by destruct k, pl. Qed.

Lemma demangleProtocolList_step_spec first p Root stk s :
  protocolOk p -> NodeStack s = (if (first : bool) then [createNode K_FirstElementMarker] else []) ++ protocolStack p ++ stk ->
  demangleProtocolList_step Root s =
    Ok (if first then inr (Some (nodeAddChild Root (protocolNode p)))
        else inl (nodeAddChild Root (protocolNode p)), setNodeStack stk s).
Proof.
  intros Hp Hs. unfold demangleProtocolList_step.
  rewrite (bind_ok _ _ s (if first then Some (createNode K_FirstElementMarker) else None)
    (setNodeStack (protocolStack p ++ stk) s)).
  - rewrite (bind_ok _ _ _ _ _ (popProtocol_spec p stk (setNodeStack (protocolStack p ++ stk) s) Hp eq_refl)). by destruct first.
  - destruct first; [by apply popNodeIf_top|]. destruct (protocolStack_top p Hp) as (Nd & l & He & Hk).
    cbn [app] in Hs. rewrite <-(setNodeStack_id s _ Hs). rewrite He in Hs. eapply popNodeKind_other; [exact Hs|].
    by intros Hk'; rewrite Hk' in Hk.
Qed.

Definition protocolList (ps : list protocol) : Node :=
  mkNode K_ProtocolList NoPayload [mkNode K_TypeList NoPayload (map protocolNode ps)].

Lemma demangleProtocolList_spec ps stk s :
  Forall protocolOk ps -> NodeStack s = listStack protocolStack ps ++ stk ->
  demangleProtocolList s = Ok (Some (protocolList ps), setNodeStack stk s).
Proof.
  destruct ps as [|p ps]; intros Hps Hs; unfold demangleProtocolList; cbv zeta.
  - by rewrite (bind_ok _ _ _ _ _ (popNodeIf_top (fun k => Kind_eqb k K_EmptyList) (createNode K_EmptyList) stk s Hs eq_refl)).
  - rewrite (bind_ok _ _ _ None s). 2:{
      eapply (listStack_top protocolOk protocolStack p ps stk); [|done..]. intros q Hq.
      destruct (protocolStack_top q Hq) as (Nd & l & He & Hk). exists Nd, l. split; [done|].
      by intros Hk'; rewrite Hk' in Hk. }
    cbn [isSome].
    rewrite (bind_ok _ _ _ _ _ (while_items protocolOk protocolStack protocolNode demangleProtocolList_step
      protocolStack_nonempty (fun first p Root s stk => demangleProtocolList_step_spec first p Root stk s) p ps _ s stk Hps Hs)).
    cbn [getKind payload createNode children app].
    by rewrite (bind_ok _ _ _ _ _ (reverseChildren_all K_TypeList NoPayload (map protocolNode (p :: ps)) _)).
Qed.

Lemma pops_protocolList ps :
  Forall protocolOk ps -> pops (lit "p") (listStack protocolStack ps) (typed (protocolList ps)).
Proof.
  intros Hps. apply pops_alone. intros s stk _ Hs.
  change (demangleOperatorFor "p") with demangleProtocolListType. unfold demangleProtocolListType.
  by rewrite (bind_ok _ _ _ _ _ (demangleProtocolList_spec ps stk s Hps Hs)).
Qed.

Lemma pops_protocolListWithAnyObject ps :
  Forall protocolOk ps ->
  pops (lit "Xl") (listStack protocolStack ps) (typed (mkNode K_ProtocolListWithAnyObject NoPayload [protocolList ps])).
Proof.
  intros Hps. eapply (pops_second "X"); [reflexivity|]. intros s stk _ Hs.
  by refine (eq_trans (bind_ok demangleProtocolList _ _ _ _ (demangleProtocolList_spec ps stk s Hps Hs)) _).
Qed.

Lemma pops_protocolListWithClass ps t :
  Forall protocolOk ps ->
  pops (lit "Xc") (typed t :: listStack protocolStack ps)
    (typed (mkNode K_ProtocolListWithClass NoPayload [protocolList ps; typed t])).
Proof.
  intros Hps. eapply (pops_second "X"); [reflexivity|]. intros s stk _ Hs.
  refine (eq_trans (bind_ok (popNodeKind K_Type) _ _ _ _ (popNodeIf_top (fun k => Kind_eqb k K_Type) _ _ _ Hs eq_refl)) _).
  by rewrite (bind_ok _ _ _ _ _ (demangleProtocolList_spec ps stk (setNodeStack _ s) Hps eq_refl)).
Qed.

(** ** Bound generic types *)

Definition typeList (ts : list Node) : Node := mkNode K_TypeList NoPayload (map typed ts).

(** [Optional] has an operator of its own. *)
Definition optionalEnum : Node :=
  mkNode K_Enum NoPayload [createNodeText K_Module STDLIB_NAME; createNodeText K_Identifier (lit "Optional")].
Definition optionalType (t : Node) : Node := mkNode K_BoundGenericEnum NoPayload [typed optionalEnum; typeList [t]].

Lemma pops_optional t : popsAdding (lit "Sg") [typed t] (typed (optionalType t)).
Proof.
  apply (popsAdding_char "S" ["g"%char]). intros s stk rest _ Hs Hl.
  change (demangleOperatorFor "S") with demangleStandardSubstitution. unfold demangleStandardSubstitution.
  rewrite (bind_ok _ _ _ _ _ (nextChar_left s _ _ Hl)).
  refine (eq_trans (bind_ok (popNodeKind K_Type) _ _ _ _ (popNodeIf_top (fun k => Kind_eqb k K_Type) _ stk (advance 1 s) Hs eq_refl)) _).
  done.
Qed.

Definition boundKind (k : Kind) : Kind :=
  match k with K_Class => K_BoundGenericClass | K_Enum => K_BoundGenericEnum | _ => K_BoundGenericStructure end.
Definition nominalKind (k : Kind) : bool := match k with K_Class | K_Enum | K_Structure => true | _ => false end.

Definition boundType (nominal : Node) (ts : list Node) : Node :=
  mkNode (boundKind (getKind nominal)) NoPayload [typed nominal; typeList ts].

(** The number of types around a type that could have generic arguments. *)
Fixpoint genericDepth (n : Node) : nat :=
  match n with
  | mkNode k _ cs =>
      match k, cs with
      | (K_Structure | K_Enum | K_Class), parent :: _ => S (genericDepth parent)
      | K_Extension, _ :: extended :: _ => genericDepth extended
      | _, _ => 0%nat
      end
  end.

(** A chain of types and extensions that is rebuilt as it was. *)
Fixpoint chainShape (n : Node) : Prop :=
  match n with
  | mkNode k p cs =>
      match k with
      | K_Structure | K_Enum | K_Class =>
          match cs with [parent; _] => p = NoPayload /\ chainShape parent | _ => False end
      | K_Extension =>
          match cs with
          | [_; extended] => p = NoPayload /\ getKind extended <> K_Extension /\ chainShape extended
          | _ => False
          end
      | _ => True
      end
  end.

Definition argumentStack (ctx : Node) (ts : list Node) : list Node :=
  reverse (map typed ts) ++ replicate (genericDepth ctx) (createNode K_FirstElementMarker) ++ [createNode K_EmptyList].

Lemma loop_popTypes ts : forall fuel k p cs Nd stk s,
  (length ts < fuel)%nat -> getKind Nd <> K_Type -> NodeStack s = map typed ts ++ Nd :: stk ->
  loop fuel popTypes_step (mkNode k p cs) s = Ok (mkNode k p (cs ++ map typed ts), setNodeStack (Nd :: stk) s).
Proof.
  induction ts as [|t ts IH]; intros [|fuel] k p cs Nd stk s Hf Hk Hs; cbn [length] in Hf; try lia; cbn [loop map app] in *.
  - unfold popTypes_step at 1. rewrite bind_assoc, (bind_ok _ _ _ _ _ (popNodeKind_other K_Type Nd stk s Hs Hk)).
    rewrite app_nil_r. by rewrite <-(setNodeStack_id s _ Hs).
  - unfold popTypes_step at 1.
    rewrite bind_assoc, (bind_ok _ _ _ _ _ (popNodeIf_top (fun k => Kind_eqb k K_Type) _ _ _ Hs eq_refl)).
    rewrite (bind_ok (ret _) _ _ _ _ eq_refl). unfold nodeAddChild. cbn [getKind payload children].
    rewrite (IH fuel k p _ Nd stk) by (done || lia). by rewrite <-app_assoc.
Qed.

Lemma while_popTypes ts Nd stk s :
  getKind Nd <> K_Type -> NodeStack s = reverse (map typed ts) ++ Nd :: stk ->
  (TList <- while_ popTypes_step (createNode K_TypeList) ;; reverseChildren TList 0) s
  = Ok (typeList ts, setNodeStack (Nd :: stk) s).
Proof.
  intros Hk Hs. assert (reverse (map typed ts) = map typed (reverse ts)) as E by by rewrite (fmap_reverse typed ts : map typed _ = _).
  rewrite E in Hs. unfold while_. 
  rewrite (bind_ok _ _ _ (mkNode K_TypeList NoPayload (map typed (reverse ts))) (setNodeStack (Nd :: stk) s)).
  - rewrite <-E. apply reverseChildren_all.
  - apply (loop_popTypes (reverse ts) _ K_TypeList NoPayload []); [|done|done].
    unfold loop_fuel. rewrite Hs, length_app, length_map. lia.
Qed.

Lemma popTypeLists_step_spec (last : bool) acc ts stk s :
  NodeStack s = reverse (map typed ts)
    ++ createNode (if last then K_EmptyList else K_FirstElementMarker) :: stk ->
  popTypeLists_step acc s
  = Ok (if last then inr (Some (acc ++ [typeList ts])) else inl (acc ++ [typeList ts]), setNodeStack stk s).
Proof.
  intros Hs. unfold popTypeLists_step.
  rewrite <-(bind_assoc (while_ popTypes_step (createNode K_TypeList)) (fun TList => reverseChildren TList 0)).
  assert (getKind (createNode (if last then K_EmptyList else K_FirstElementMarker)) <> K_Type) as Hk by by destruct last.
  rewrite (bind_ok _ _ _ _ _ (while_popTypes ts _ stk s Hk Hs)). by destruct last.
Qed.

(** The lists of the types around the innermost one are empty. *)
Lemma loop_popTypeLists d : forall fuel acc ts stk s,
  (d < fuel)%nat ->
  NodeStack s = reverse (map typed ts) ++ replicate d (createNode K_FirstElementMarker) ++ createNode K_EmptyList :: stk ->
  loop fuel popTypeLists_step acc s
  = Ok (Some (acc ++ typeList ts :: replicate d (typeList [])), setNodeStack stk s).
Proof.
  induction d as [|d IH]; intros [|fuel] acc ts stk s Hf Hs; try lia; cbn [loop replicate app] in *.
  - by rewrite (bind_ok _ _ _ _ _ (popTypeLists_step_spec true acc ts stk s Hs)).
  - rewrite (bind_ok _ _ _ _ _ (popTypeLists_step_spec false acc ts _ s Hs)).
    rewrite (IH fuel _ [] stk) by (done || lia). by rewrite <-app_assoc.
Qed.

(** One type of the chain is the parent of the next one. *)
Lemma demangleBoundGenericArgs_step k parent name args l s :
  demangleBoundGenericArgs (Some (mkNode k NoPayload [parent; name])) (args :: typeList [] :: l) s =
  (BoundParent <-
     (if Kind_eqb (getKind parent) K_Extension then
        ExtType <- getChild parent 1 ;;
        BoundParent <- demangleBoundGenericArgs (Some ExtType) (typeList [] :: l) ;;
        Module_ <- getFirstChild parent ;;
        let BoundParent := createWithChildren2 K_Extension (Some Module_) BoundParent in
        if (getNumChildren parent =? 3)%nat then
          GenSig <- getChild parent 2 ;; ret (addChildTo BoundParent (Some GenSig))
        else ret BoundParent
      else demangleBoundGenericArgs (Some parent) (typeList [] :: l)) ;;
   demangleBoundGenericArgs (createWithChildren2 k BoundParent (Some name)) [args]) s.
Proof.
  cbn [demangleBoundGenericArgs]. cbn [getNumChildren children length Nat.ltb Nat.leb getKind].
  rewrite (bind_ok (getFirstChild (mkNode k NoPayload [parent; name])) _ s parent s eq_refl).
  rewrite bind_assoc. apply bind_ext. intros BoundParent s1. rewrite bind_assoc.
  rewrite (bind_ok (getChild (mkNode k NoPayload [parent; name]) 1) _ s1 name s1 eq_refl). by destruct BoundParent.
Qed.

Definition chainOk (n : Node) : Prop := forall s,
  match n with
  | mkNode K_Extension _ [_; e] => demangleBoundGenericArgs (Some e) (replicate (genericDepth e) (typeList [])) s = Ok (Some e, s)
  | _ => demangleBoundGenericArgs (Some n) (replicate (genericDepth n) (typeList [])) s = Ok (Some n, s)
  end.

(** The parent of a type with arguments is rebuilt. *)
Lemma boundParent_chain k parent name args s :
  chainShape parent -> chainOk parent -> (0 < genericDepth parent)%nat ->
  demangleBoundGenericArgs (Some (mkNode k NoPayload [parent; name])) (args :: replicate (genericDepth parent) (typeList [])) s
  = demangleBoundGenericArgs (Some (mkNode k NoPayload [parent; name])) [args] s.
Proof.
  intros Hshape Hok Hd. destruct (genericDepth parent) as [|d] eqn:Ed; [lia|]. cbn [replicate].
  rewrite demangleBoundGenericArgs_step. 
  rewrite (bind_ok _ _ s (Some parent) s); [done|].
  specialize (Hok s). destruct parent as [pk pp pcs]. cbn [getKind].
  destruct (Kind_eqb_spec pk K_Extension) as [->|Hk].
  - cbn in Hshape. destruct pcs as [|m [|e [|]]]; try done. destruct Hshape as (-> & _).
    change (genericDepth e = S d) in Ed. cbv beta iota in Hok. rewrite Ed in Hok. cbn [replicate] in Hok.
    rewrite (bind_ok (getChild (mkNode K_Extension NoPayload [m; e]) 1) _ s e s eq_refl), (bind_ok _ _ _ _ _ Hok).
    done.
  - assert (demangleBoundGenericArgs (Some (mkNode pk pp pcs)) (replicate (S d) (typeList [])) s = Ok (Some (mkNode pk pp pcs), s)).
    { rewrite <-Ed. by destruct pk. }
    done.
Qed.

Lemma chain_ok n : chainShape n -> (0 < genericDepth n)%nat -> chainOk n.
Proof.
  induction n as [k p cs IH] using Node_tree_ind. intros Hc Hd s.
  destruct (Kind_eqb_spec k K_Extension) as [->|Hk].
  - cbn in Hc. destruct cs as [|m [|e [|]]]; try done. destruct Hc as (-> & Hk & Hc).
    inversion_clear IH as [|? ? _ IH']. inversion_clear IH' as [|? ? IHe _]. cbn in Hd.
    specialize (IHe Hc Hd s). destruct e as [ek ep ecs]. cbn [getKind] in Hk. by destruct ek.
  - assert (nominalKind k = true /\ exists parent name, cs = [parent; name] /\ p = NoPayload /\ chainShape parent
      /\ genericDepth (mkNode k p cs) = S (genericDepth parent)) as (Hn & parent & name & -> & -> & Hparent & Ed).
    { destruct k; cbn in Hd; try lia; try done; destruct cs as [|parent [|name [|]]]; try done;
        (split; [done|]; exists parent, name; by destruct Hc). }
    inversion_clear IH as [|? ? IHparent _].
    enough (demangleBoundGenericArgs (Some (mkNode k NoPayload [parent; name]))
      (replicate (genericDepth (mkNode k NoPayload [parent; name])) (typeList [])) s
      = Ok (Some (mkNode k NoPayload [parent; name]), s)) by by destruct k.
    rewrite Ed. cbn [replicate]. destruct (genericDepth parent) as [|d] eqn:Ep.
    { done. }
    rewrite <-Ep, boundParent_chain; [done|done|apply IHparent; [done|lia]|lia].
Qed.

Lemma demangleBoundGenericArgs_bound k ctx name t ts s :
  nominalKind k = true -> chainShape ctx ->
  demangleBoundGenericArgs (Some (mkNode k NoPayload [ctx; name]))
    (typeList (t :: ts) :: replicate (genericDepth ctx) (typeList [])) s
  = Ok (Some (boundType (mkNode k NoPayload [ctx; name]) (t :: ts)), s).
Proof.
  intros Hk Hc. destruct (genericDepth ctx) as [|d] eqn:Ed.
  - by destruct k.
  - rewrite <-Ed, boundParent_chain; [by destruct k|done|apply chain_ok; [done|lia]|lia].
Qed.

Lemma pops_bound k ctx name t ts :
  nominalKind k = true -> chainShape ctx ->
  let n := mkNode k NoPayload [ctx; name] in
  popsAdding (lit "G") (argumentStack ctx (t :: ts) ++ [typed n]) (typed (boundType n (t :: ts))).
Proof.
  intros Hk Hc n. apply (popsAdding_char "G"). intros s stk rest _ Hs _. cbn [length]. rewrite advance_0.
  change (demangleOperatorFor "G") with demangleBoundGenericType. unfold demangleBoundGenericType.
  unfold argumentStack in Hs. rewrite <-!app_assoc in Hs. cbn [app] in Hs.
  assert (genericDepth ctx < loop_fuel s)%nat as Hfuel.
  { unfold loop_fuel. rewrite Hs, !length_app, length_replicate. lia. }
  rewrite (bind_ok (while_ popTypeLists_step []) _ _ _ _ (loop_popTypeLists (genericDepth ctx) _ [] (t :: ts) (typed n :: stk) s Hfuel Hs)).
  rewrite (bind_ok _ _ _ (Some n) (setNodeStack stk s)).
  - unfold n. by rewrite (bind_ok _ _ _ _ _ (demangleBoundGenericArgs_bound k ctx name t ts _ Hk Hc)).
  - by destruct k.
Qed.
