(* ===== verification/Mangleable.v ===== *)
(** * Trees that survive mangling

    [mangleable]: the trees for which the remangler and the demangler are proved
    to be inverse to each other. They are the names, modules, types, generic
    types, declarations and accessors below; what is left out is listed in the
    header of the development. *)

From Stdlib Require Import String.
From S2P Require Import Prelude Nodes ManglingUtils IdentifierMangling Demangler IdentifierRoundtrip Simulation Remangler SymbolSimulation OperatorReads EntityReads GenericReads NodeShape.

(** A table of kinds is gone through. *)
Ltac kinds Hin := repeat destruct Hin as [[= <- <-]|Hin]; [..|destruct Hin]; try reflexivity.

(** An element is a type, and its label an identifier. *)
Definition elementOk (e : element) : Prop :=
  typeKind (getKind (elementType e)) = true /\ match label e with Some t => validIdentifier t | None => True end.

(** A label is an identifier or the marker for a missing one. *)
Definition labelOk (l : Node) : Prop :=
  l = createNode K_FirstElementMarker \/ exists t, validIdentifier t /\ l = createNodeText K_Identifier t.

(** The names of the nominal types, with their operators. *)
Definition nominalCodes : list (Kind * string) :=
  [(K_Structure, "V"); (K_Enum, "O"); (K_Class, "C"); (K_Protocol, "P"); (K_TypeAlias, "a")]%string.

Inductive mangleable : Node -> Prop :=
  (* names and modules *)
  | mangleable_identifier text :
      validIdentifier text -> mangleable (createNodeText K_Identifier text)
  | mangleable_privateName d name :
      getKind d = K_Identifier -> mangleable d -> isDeclName (getKind name) = true -> mangleable name ->
      mangleable (mkNode K_PrivateDeclName NoPayload [d; name])
  | mangleable_privateDiscriminator d :
      getKind d = K_Identifier -> mangleable d -> mangleable (mkNode K_PrivateDeclName NoPayload [d])
  | mangleable_localName value name :
      0 <= value < 2 ^ 31 -> isDeclName (getKind name) = true -> mangleable name ->
      mangleable (mkNode K_LocalDeclName NoPayload [createNodeIndex K_Number value; name])
  | mangleable_module text :
      specialModule text = true \/ validIdentifier text -> mangleable (createNodeText K_Module text)
  (* types *)
  | mangleable_nominal k code ctx name :
      In (k, code) nominalCodes -> isContext (getKind ctx) = true -> mangleable ctx ->
      isDeclName (getKind name) = true -> mangleable name ->
      standardOk (mkNode k NoPayload [ctx; name]) -> mangleable (mkNode k NoPayload [ctx; name])
  | mangleable_type n : typeKind (getKind n) = true -> mangleable n -> mangleable (typed n)
  | mangleable_wrapping k code n :
      In (k, code) wrappingTypes -> typeKind (getKind n) = true -> mangleable n ->
      mangleable (mkNode k NoPayload [typed n])
  | mangleable_unwrapping k code n :
      In (k, code) unwrappingTypes -> typeKind (getKind n) = true -> mangleable n ->
      mangleable (mkNode k NoPayload [n])
  | mangleable_error : mangleable (createNode K_ErrorType)
  | mangleable_param depth index :
      0 <= depth < 10 ^ 7 -> 0 <= index < 2 ^ 31 -> mangleable (genericParam depth index)
  | mangleable_builtin name code :
      In (name, code) builtinTypes -> mangleable (builtinType (lit name))
  | mangleable_builtinNumber name code size :
      In (name, code) builtinNumbers -> 1 <= size < 10 ^ 7 ->
      mangleable (builtinType (lit name ++ decimal size))
  | mangleable_tuple es :
      Forall mangleable (map elementType es) -> Forall elementOk es -> mangleable (tupleType es)
  | mangleable_functionType k code throws a r :
      In (k, code) functionKinds -> typeKind (getKind a) = true -> mangleable a ->
      typeKind (getKind r) = true -> mangleable r ->
      mangleable (functionType k throws a r)
  | mangleable_metatype k kcode repr c t :
      In (k, kcode) metatypeKinds -> In (repr, String c "") representations ->
      typeKind (getKind t) = true -> mangleable t -> mangleable (metatypeNode k (lit repr) t)
  | mangleable_protocolList ps :
      Forall protocolOk ps -> Forall mangleable (map protocolContext ps) -> Forall mangleable (map protocolName ps) ->
      mangleable (protocolList ps)
  | mangleable_protocolListWithAnyObject ps :
      mangleable (protocolList ps) -> mangleable (mkNode K_ProtocolListWithAnyObject NoPayload [protocolList ps])
  | mangleable_protocolListWithClass ps t :
      mangleable (protocolList ps) -> typeKind (getKind t) = true -> mangleable t ->
      mangleable (mkNode K_ProtocolListWithClass NoPayload [protocolList ps; typed t])
  | mangleable_optional t : typeKind (getKind t) = true -> mangleable t -> mangleable (optionalType t)
  | mangleable_bound k ctx name t ts :
      nominalKind k = true -> mangleable (mkNode k NoPayload [ctx; name]) -> mkNode k NoPayload [ctx; name] <> optionalEnum ->
      Forall mangleable (t :: ts) -> Forall (fun t => typeKind (getKind t) = true) (t :: ts) ->
      mangleable (boundType (mkNode k NoPayload [ctx; name]) (t :: ts))
  (* declarations *)
  | mangleable_extension m t :
      getKind m = K_Module -> mangleable m -> isAnyGeneric (getKind t) = true -> mangleable t ->
      mangleable (mkNode K_Extension NoPayload [m; t])
  | mangleable_variable k code ctx name labels t :
      In (k, code) accessors -> isContext (getKind ctx) = true -> mangleable ctx ->
      isDeclName (getKind name) = true -> mangleable name -> typeKind (getKind t) = true -> mangleable t ->
      Forall labelOk (default [] labels) -> labelsOk labels t ->
      mangleable (accessorNode k (entityNode K_Variable ctx name labels t))
  | mangleable_subscript k code ctx labels t privateName :
      In (k, code) accessors -> isContext (getKind ctx) = true -> mangleable ctx ->
      typeKind (getKind t) = true -> mangleable t -> Forall labelOk (default [] labels) -> labelsOk labels t ->
      privateOk privateName -> Forall mangleable (option_list privateName) ->
      mangleable (accessorNode k (initializerNode K_Subscript ctx labels t privateName))
  | mangleable_initializer k code ctx labels t privateName :
      In (k, code) initializerKinds -> isContext (getKind ctx) = true -> mangleable ctx ->
      typeKind (getKind t) = true -> mangleable t -> Forall labelOk (default [] labels) -> labelsOk labels t ->
      privateOk privateName -> Forall mangleable (option_list privateName) ->
      mangleable (initializerNode k ctx labels t privateName)
  | mangleable_function ctx name labels throws a r :
      isContext (getKind ctx) = true -> mangleable ctx -> isDeclName (getKind name) = true -> mangleable name ->
      typeKind (getKind a) = true -> mangleable a -> typeKind (getKind r) = true -> mangleable r ->
      Forall labelOk (default [] labels) -> labelsOk labels (functionType K_FunctionType throws a r) ->
      mangleable (entityNode K_Function ctx name labels (functionType K_FunctionType throws a r))
  | mangleable_context k code ctx :
      In (k, code) contextKinds -> isContext (getKind ctx) = true -> mangleable ctx -> mangleable (mkNode k NoPayload [ctx])
  | mangleable_closure k code ctx value t :
      In (k, code) closureKinds -> 0 <= value < 2 ^ 31 -> isContext (getKind ctx) = true -> mangleable ctx ->
      typeKind (getKind t) = true -> mangleable t -> mangleable (closureNode k ctx value t)
  | mangleable_defaultArgument ctx value :
      0 <= value < 2 ^ 31 -> isContext (getKind ctx) = true -> mangleable ctx -> mangleable (defaultArgument ctx value)
  | mangleable_static n : entityOk n -> mangleable n -> mangleable (mkNode K_Static NoPayload [n])
  (* symbols *)
  | mangleable_symbol k code t :
      In (k, code) typeSymbols -> typeKind (getKind t) = true -> mangleable t -> mangleable (mkNode k NoPayload [typed t]).

(** ** Their shapes *)

(** The cases that are in a table. *)
Ltac tables := repeat match goal with H : In (_, _) _ |- _ => kinds H end.

Lemma mangleable_moduleShape n : mangleable n -> moduleShape n = true.
Proof. intros H. destruct H; try reflexivity; tables. by destruct k. Qed.

Lemma mangleable_paramsShape n : mangleable n -> paramsShape n = true.
Proof. intros H. destruct H; try reflexivity; unfold paramsShape; try apply orb_true_r; tables. Qed.

Lemma mangleable_contextOk n : mangleable n -> isContext (getKind n) = true -> contextOk n.
Proof. intros H Hk. split; [done|]. by apply mangleable_moduleShape. Qed.

(** A context is never a bound generic type. *)
Lemma isContext_unbound k : isContext k = true -> isBoundGeneric k = false.
Proof. by destruct k. Qed.

Lemma isAnyGeneric_unbound k : isAnyGeneric k = true -> isBoundGeneric k = false.
Proof. by destruct k. Qed.

Lemma mangleable_unspecialized n (st : Remangler) :
  mangleable n -> isBoundGeneric (getKind n) = false -> isSpecialized n st = Ok (false, st).
Proof.
  intros H. induction H; intros Hb; try reflexivity; try discriminate Hb; tables; cbn [isSpecialized getKind] in *;
    try by destruct k.
  all: by auto using isContext_unbound, isAnyGeneric_unbound.
Qed.

Lemma mangleable_chainShape n : mangleable n -> chainShape n.
Proof.
  intros H. induction H; try exact I; tables; cbn [chainShape]; try by auto.
  - by destruct k.
  - split_and!; [done| |done]. by destruct t as [[] ? ?].
Qed.

Lemma mangleable_signatureShape n : mangleable n -> typeKind (getKind n) = true -> signatureShape n.
Proof.
  intros H Hk. split; [by destruct n as [[] ? ?]|]. intros Hf.
  destruct H; try discriminate Hf; tables; try discriminate Hf; try by destruct k.
  by eexists _, _, _.
Qed.

#[export] Instance protocolNode_inj : Inj (=) (=) protocolNode.
Proof. intros [c n] [c' n'] [= -> ->]. done. Qed.

Lemma mangleable_protocols ps :
  mangleable (protocolList ps) ->
  Forall protocolOk ps /\ Forall mangleable (map protocolContext ps) /\ Forall mangleable (map protocolName ps).
Proof.
  remember (protocolList ps) as n eqn:E. intros H.
  destruct H; try discriminate E; tables; try discriminate E; try by destruct k.
  injection E as E. apply (inj (fmap protocolNode)) in E. by subst.
Qed.

Lemma mangleable_identifierShape n :
  mangleable n -> getKind n = K_Identifier -> exists text, n = createNodeText K_Identifier text /\ validIdentifier text.
Proof.
  intros H Hk. destruct H; try discriminate Hk; tables; try discriminate Hk; [by eexists|by destruct k].
Qed.

Lemma mangleable_parts k ctx name :
  mangleable (mkNode k NoPayload [ctx; name]) -> nominalKind k = true ->
  isContext (getKind ctx) = true /\ mangleable ctx /\ mangleable name.
Proof.
  remember (mkNode k NoPayload [ctx; name]) as n eqn:E. intros H Hk.
  destruct H; try discriminate E; tables; try discriminate E; try (by destruct labels); try (by destruct throws);
    injection E; intros; subst; try discriminate Hk; try done. by destruct k0.
Qed.
