(* ===== verification/TypeWriting.v ===== *)
(** * Writing types

    The handlers of the remangler for names, modules and types write what the
    demangler reads as these nodes, provided that [mangle] does so on the parts. *)

From Stdlib Require Import String.
From S2P Require Import Prelude Nodes ManglingUtils Punycode IdentifierMangling Demangler Numbers IdentifierRoundtrip SubstitutionGroups Simulation Remangler SymbolSimulation SymbolWriting OperatorReads EntityReads GenericReads NodeShape Mangleable.

(** ** Writing several nodes *)

Lemma node_size_child k p cs c : In c cs -> (node_size c < node_size (mkNode k p cs))%nat.
Proof.
  intros Hin. cbn [node_size]. enough (node_size c <= list_sum (map node_size cs))%nat by lia.
  induction cs as [|c' cs IH]; [done|]. change (list_sum (map node_size (c' :: cs)))
    with (node_size c' + list_sum (map node_size cs))%nat.
  destruct Hin as [->|Hin]; [lia|]. specialize (IH Hin). lia.
Qed.

Lemma node_size_one k p a : node_size (mkNode k p [a]) = S (node_size a).
Proof. cbn. lia. Qed.

Lemma node_size_typed n : node_size (typed n) = S (node_size n).
Proof. apply node_size_one. Qed.

Lemma node_size_two k p a b : node_size (mkNode k p [a; b]) = S (node_size a + node_size b).
Proof. cbn. lia. Qed.

Definition stacks (ns : list Node) : list Node := concat (map stackOf (reverse ns)).

Lemma writes_nodes sz (mangle : Node -> RM unit) ns :
  Forall (fun n => writes sz (mangle n) (stackOf n)) ns -> writes sz (mangleNodes mangle ns) (stacks ns).
Proof.
  unfold stacks. induction 1 as [|n ns Hn _ IH]; [apply writes_ret|]. cbn [mangleNodes].
  rewrite reverse_cons, map_app, concat_app. cbn [map concat]. rewrite app_nil_r. by apply writes_bind.
Qed.

Lemma mangleNodes_app (mangle : Node -> RM unit) ns ns' st :
  mangleNodes mangle (ns ++ ns') st = (_ <- mangleNodes mangle ns ;; mangleNodes mangle ns') st.
Proof.
  revert st. induction ns as [|n ns IH]; intros st; [done|]. cbn [app mangleNodes].
  rewrite bind_assoc. apply bind_ext. intros [] st'. apply IH.
Qed.

Lemma mangleListItems_rest (mangle : Node -> RM unit) ns st :
  mangleListItems mangle ns false st = (_ <- mangleNodes mangle ns ;; ret false) st.
Proof.
  revert st. induction ns as [|n ns IH]; intros st; [done|]. cbn [mangleListItems mangleNodes].
  rewrite bind_assoc. apply bind_ext. intros [] st'. apply IH.
Qed.

Lemma writes_items {E} sz (mangle : Node -> RM unit) (node : E -> Node) (nodes : E -> list Node) es :
  Forall (fun e => writes sz (mangle (node e)) (nodes e)) es ->
  writes sz (mangleNodes mangle (map node es)) (concat (map nodes (reverse es))).
Proof.
  induction 1 as [|e es He _ IH]; [apply writes_ret|]. cbn [mangleNodes map].
  rewrite reverse_cons, map_app, concat_app. cbn [map concat]. rewrite app_nil_r. by apply writes_bind.
Qed.

Lemma pops_constant Nd code : In (Nd, code) constantNodes -> pops (lit code) [] Nd.
Proof. intros Hin. by apply (proj1 (List.Forall_forall _ _) pops_constantNodes (Nd, code)). Qed.

Lemma writes_put sz Nd code : In (Nd, code) constantNodes -> writes sz (put code) [Nd].
Proof. intros Hin. by eapply writes_constant; [apply appends_put|apply pops_constant]. Qed.

Lemma manglePureProtocols_items (mangle : Node -> RM unit) ns : forall b st,
  manglePureProtocols mangle ns b st = mangleListItems (manglePureProtocol mangle) ns b st.
Proof.
  induction ns as [|n ns IH]; intros b st; [done|]. cbn [manglePureProtocols mangleListItems].
  apply bind_ext. intros [] st1. apply bind_ext. intros b' st2. apply IH.
Qed.

(** A list with its marker or, when there is nothing in it, the empty list. *)
Lemma writes_list {E} sz (mangle : Node -> RM unit) (node : E -> Node) (nodes : E -> list Node) k p es :
  Forall (fun e => writes sz (mangle (node e)) (nodes e)) es ->
  writes sz (mangleTypeList mangle (mkNode k p (map node es))) (listStack nodes es).
Proof.
  intros Hes. unfold mangleTypeList. cbn [children]. destruct Hes as [|e es He Hes].
  - apply (writes_ext _ _ (put "y")); [done|]. apply writes_put. cbn. tauto.
  - apply (writes_ext _ _ (_ <- (_ <- mangle (node e) ;; put "_") ;; mangleNodes mangle (map node es))).
    + intros st. cbn [map mangleListItems]. rewrite !bind_assoc. apply bind_ext. intros [] st1.
      cbn [mangleListSeparator]. rewrite !bind_assoc. apply bind_ext. intros [] st2.
      rewrite (bind_ok (ret false) _ st2 _ _ eq_refl). unfold bind at 1. rewrite mangleListItems_rest.
      unfold bind, ret. by destruct (mangleNodes mangle (map node es) st2) as [[[] st3]|].
    + apply writes_bind; [|by apply writes_items].
      change (createNode K_FirstElementMarker :: nodes e) with ([createNode K_FirstElementMarker] ++ nodes e).
      apply writes_bind; [done|]. apply writes_put. cbn. tauto.
Qed.

(** The separators in front of the arguments of the innermost type. *)
Fixpoint putSeparators (d : nat) : RM unit :=
  match d with
  | O => ret tt
  | S d => _ <- putSeparators d ;; put (if (d =? 0)%nat then "y" else "_")
  end.

Lemma mangleGenericArgs_separators (mangle : Node -> RM unit) n :
  mangleable n -> isBoundGeneric (getKind n) = false -> forall st,
  mangleGenericArgs mangle n (lit "y") st
  = (_ <- putSeparators (genericDepth n) ;; ret (if (genericDepth n =? 0)%nat then lit "y" else lit "_")) st.
Proof.
  intros H. induction H; intros Hb st; try reflexivity; try discriminate Hb; tables;
    cbn [mangleGenericArgs genericDepth putSeparators]; try by destruct k.
  4: apply IHmangleable2; by auto using isAnyGeneric_unbound.
  all: unfold bind at 1; rewrite IHmangleable1 by (by auto using isContext_unbound); rewrite bind_assoc; unfold bind;
    (destruct (putSeparators (genericDepth ctx) st) as [[[] st1]|]; [|done]);
    by destruct (genericDepth ctx =? 0)%nat.
Qed.

Lemma writes_separators sz d :
  writes sz (putSeparators (S d)) (replicate d (createNode K_FirstElementMarker) ++ [createNode K_EmptyList]).
Proof.
  induction d as [|d IH].
  - apply (writes_ext _ _ (put "y")); [done|]. apply writes_put. cbn. tauto.
  - change (replicate (S d) (createNode K_FirstElementMarker) ++ [createNode K_EmptyList])
      with ([createNode K_FirstElementMarker] ++ replicate d (createNode K_FirstElementMarker) ++ [createNode K_EmptyList]).
    cbn [putSeparators]. apply writes_bind; [exact IH|]. apply writes_put. cbn. tauto.
Qed.

(** ** The handlers *)

Section handlers.
Context (fuel : nat).
(** The nodes with less fuel. *)
Hypothesis IH : forall g n, (g < fuel)%nat -> mangleable n -> (node_size n < g)%nat ->
  writes (node_size n) (mangleWithFuel g n) (stackOf n).

Lemma writes_child sz g n :
  (g < fuel)%nat -> mangleable n -> (node_size n < g)%nat -> (node_size n <= sz)%nat ->
  writes sz (mangleWithFuel g n) (stackOf n).
Proof. intros Hg Hn Hlt Hle. eapply writes_weaken; [exact Hle|]. by apply IH. Qed.

(** A [Type] is written as what is in it. *)
Lemma writes_typed sz g n :
  (S g < fuel)%nat -> typeKind (getKind n) = true -> mangleable n -> (node_size n < g)%nat ->
  (node_size n <= sz)%nat -> writes sz (mangleWithFuel (S g) (typed n)) [typed n].
Proof.
  intros Hg Hk Hn Hlt Hle. apply (writes_ext _ _ (mangleWithFuel g n)); [done|].
  rewrite <-stackOf_typeKind by done. apply writes_child; (done || lia).
Qed.


Lemma writes_singleChild sz g k p n code nds Nd :
  writes sz (mangleWithFuel g n) nds -> pops (lit code) nds Nd ->
  writes sz (singleChildThen (mangleWithFuel g) (mkNode k p [n]) code) [Nd].
Proof.
  intros Hn Hop. apply (writes_ext _ _ (_ <- mangleWithFuel g n ;; put code)); [done|].
  by eapply writes_op; [|apply appends_put|].
Qed.

Lemma pops_table {A B} (table : list (A * B)) (P : A -> B -> Prop) k code :
  Forall (fun e => P e.1 e.2) table -> In (k, code) table -> P k code.
Proof. intros H Hin. by apply (proj1 (List.Forall_forall _ _) H (k, code)). Qed.

Lemma writes_wrapping g k code n :
  (S (S g) <= fuel)%nat -> In (k, code) wrappingTypes -> typeKind (getKind n) = true -> mangleable n ->
  (S (S (node_size n)) < S (S g))%nat ->
  writes (S (S (node_size n))) (mangleWithFuel (S (S g)) (mkNode k NoPayload [typed n]))
    [typed (mkNode k NoPayload [typed n])].
Proof.
  intros Hg Hin Hk Hn Hlt.
  apply (writes_ext _ _ (singleChildThen (mangleWithFuel (S g)) (mkNode k NoPayload [typed n]) code)).
  { intros st. kinds Hin. }
  eapply writes_singleChild; [apply writes_typed; (done || lia)|].
  by apply (pops_table _ (fun k code => forall x, pops (lit code) [typed x] (typed (mkNode k NoPayload [typed x]))) k code pops_wrappingTypes).
Qed.

Lemma writes_unwrapping g k code n :
  (S g <= fuel)%nat -> In (k, code) unwrappingTypes -> typeKind (getKind n) = true -> mangleable n ->
  (S (node_size n) < S g)%nat ->
  writes (S (node_size n)) (mangleWithFuel (S g) (mkNode k NoPayload [n])) [typed (mkNode k NoPayload [n])].
Proof.
  intros Hg Hin Hk Hn Hlt.
  apply (writes_ext _ _ (singleChildThen (mangleWithFuel g) (mkNode k NoPayload [n]) code)).
  { intros st. kinds Hin. }
  eapply writes_singleChild; [apply writes_child; (done || lia)|].
  rewrite stackOf_typeKind by done.
  by apply (pops_table _ (fun k code => forall x, pops (lit code) [typed x] (typed (mkNode k NoPayload [x]))) k code pops_unwrappingTypes).
Qed.

(** *** Nominal types *)

Lemma nominalShape_ok k ctx name :
  mangleable ctx -> mangleable name -> nominalShape (mkNode k NoPayload [ctx; name]) = true.
Proof.
  intros Hctx Hname. cbn [nominalShape]. apply orb_true_iff. right.
  destruct ctx as [ck cp ccs], name as [nk np ncs]. apply andb_true_iff. split.
  - destruct (Kind_eqb_spec ck K_Module) as [->|]; [|done]. cbn. apply mangleable_moduleShape in Hctx.
    by destruct cp.
  - destruct (Kind_eqb_spec nk K_Identifier) as [->|]; [|done]. cbn.
    by destruct (mangleable_identifierShape _ Hname eq_refl) as (text & [= -> ->] & _).
Qed.

Lemma stacks_two a b : stacks [a; b] = stackOf b ++ stackOf a.
Proof. unfold stacks. cbn. by rewrite app_nil_r. Qed.

Lemma writes_two g a b :
  (g < fuel)%nat -> mangleable a -> mangleable b -> (node_size a + node_size b < g)%nat ->
  writes (node_size a + node_size b) (mangleNodes (mangleWithFuel g) [a; b]) (stackOf b ++ stackOf a).
Proof.
  intros Hg Ha Hb Hlt. rewrite <-stacks_two. apply writes_nodes.
  repeat apply Forall_cons_2; try apply Forall_nil_2; apply writes_child; (done || lia).
Qed.

Lemma writes_nominal g k code ctx name :
  (S g <= fuel)%nat -> In (k, code) nominalCodes -> isContext (getKind ctx) = true -> mangleable ctx ->
  isDeclName (getKind name) = true -> mangleable name -> standardOk (mkNode k NoPayload [ctx; name]) ->
  (node_size (mkNode k NoPayload [ctx; name]) < S g)%nat ->
  writes (node_size (mkNode k NoPayload [ctx; name])) (mangleWithFuel (S g) (mkNode k NoPayload [ctx; name]))
    [typed (mkNode k NoPayload [ctx; name])].
Proof.
  intros Hg Hin Hcctx Hctx Hnname Hname Hstd Hlt.
  set (n := mkNode k NoPayload [ctx; name]) in *.
  apply (writes_ext _ _ (orSubstitution n (mangleNodes (mangleWithFuel g) [ctx; name]) (put code))).
  { intros st. assert (isSpecialized ctx st = Ok (false, st)) as Hs.
    { apply mangleable_unspecialized; [done|]. by destruct ctx as [[] ? ?]. }
    kinds Hin; cbn [mangleWithFuel dispatch getKind n]; unfold mangleStructure, mangleEnum, mangleClass, mangleAnyNominalType;
      by rewrite (bind_ok (isSpecialized n) _ st false st). }
  assert (node_size n = S (node_size ctx + node_size name)) as Hsize by (cbn; lia).
  eapply (writes_orSubstitution (node_size ctx + node_size name)).
  - split_and!; [by apply nominalShape_ok|done|done].
  - apply writes_two; (done || lia).
  - lia.
  - apply appends_put.
  - assert (moduleShape ctx = true) as Hshape by by apply mangleable_moduleShape.
    by kinds Hin; apply pops_nominal.
Qed.

(** *** Names and modules *)

Lemma writes_identifierNode sz g text :
  validIdentifier text ->
  writes sz (mangleWithFuel (S g) (createNodeText K_Identifier text)) [createNodeText K_Identifier text].
Proof. intros Hv. by apply (writes_identifier sz (createNodeText K_Identifier text) text). Qed.

Lemma writes_module sz g text :
  specialModule text = true \/ validIdentifier text ->
  writes sz (mangleWithFuel (S g) (createNodeText K_Module text)) (stackOf (createNodeText K_Module text)).
Proof.
  intros Hv. cbn [stackOf createNodeText]. unfold specialModule in *.
  apply (writes_ext _ _
    (if str_eqb text STDLIB_NAME then put "s"
     else if str_eqb text MANGLING_MODULE_OBJC then put "So"
     else if str_eqb text MANGLING_MODULE_CLANG_IMPORTER then put "SC"
     else mangleIdentifierNode (createNodeText K_Module text))).
  { done. }
  destruct (str_eqb_spec text STDLIB_NAME) as [E|_]; [rewrite E; apply writes_put; cbn; tauto|].
  destruct (str_eqb_spec text MANGLING_MODULE_OBJC) as [E|_]; [rewrite E; apply writes_put; cbn; tauto|].
  destruct (str_eqb_spec text MANGLING_MODULE_CLANG_IMPORTER) as [E|_]; [rewrite E; apply writes_put; cbn; tauto|].
  destruct Hv as [Hv|Hv]; [done|]. by apply writes_identifier.
Qed.

Lemma writes_privateName g d name :
  (S g <= fuel)%nat -> getKind d = K_Identifier -> mangleable d -> isDeclName (getKind name) = true ->
  mangleable name -> (node_size (mkNode K_PrivateDeclName NoPayload [d; name]) < S g)%nat ->
  writes (node_size (mkNode K_PrivateDeclName NoPayload [d; name]))
    (mangleWithFuel (S g) (mkNode K_PrivateDeclName NoPayload [d; name])) [mkNode K_PrivateDeclName NoPayload [d; name]].
Proof.
  intros Hg Hkd Hd Hkname Hname Hlt. rewrite node_size_two in *.
  apply (writes_ext _ _ (_ <- mangleNodes (mangleWithFuel g) [name; d] ;; put "LL")); [done|].
  eapply writes_op; [|apply appends_put|by apply pops_privateName].
  eapply writes_weaken; [|apply writes_two]; (done || lia).
Qed.

Lemma writes_privateDiscriminator g d :
  (S g <= fuel)%nat -> getKind d = K_Identifier -> mangleable d -> (S (node_size d) < S g)%nat ->
  writes (S (node_size d)) (mangleWithFuel (S g) (mkNode K_PrivateDeclName NoPayload [d]))
    [mkNode K_PrivateDeclName NoPayload [d]].
Proof.
  intros Hg Hkd Hd Hlt.
  apply (writes_ext _ _ (_ <- mangleNodes (mangleWithFuel g) [d] ;; put "Ll")); [done|].
  eapply writes_op; [|apply appends_put|by apply pops_privateDiscriminator].
  replace (stackOf d) with (stacks [d]) by by unfold stacks; cbn; rewrite app_nil_r.
  apply writes_nodes. apply Forall_cons_2; [|apply Forall_nil_2]. apply writes_child; (done || lia).
Qed.

(** A [Number] is written as an index. *)
Lemma appends_number g k value :
  0 <= value < 2 ^ 31 ->
  appends (_ <- put k ;; mangleWithFuel (S g) (createNodeIndex K_Number value)) (lit k ++ renderIndex value).
Proof.
  intros Hv. apply appends_bind; [apply appends_put|]. intros st.
  change (mangleWithFuel (S g) (createNodeIndex K_Number value) st) with (mangleIndex (wrap_u64 value) st).
  rewrite wrap_u64_id by lia. apply mangleIndex_appended.
Qed.

Lemma writes_localName g value name :
  (S (S g) <= fuel)%nat -> 0 <= value < 2 ^ 31 -> isDeclName (getKind name) = true -> mangleable name ->
  (S (S (node_size name)) < S (S g))%nat ->
  writes (S (S (node_size name)))
    (mangleWithFuel (S (S g)) (mkNode K_LocalDeclName NoPayload [createNodeIndex K_Number value; name]))
    [mkNode K_LocalDeclName NoPayload [createNodeIndex K_Number value; name]].
Proof.
  intros Hg Hv Hk Hname Hlt.
  apply (writes_ext _ _ (_ <- mangleWithFuel (S g) name ;; _ <- put "L" ;;
    mangleWithFuel (S g) (createNodeIndex K_Number value))); [done|].
  eapply writes_op; [|by apply appends_number|by apply pops_localName].
  apply writes_child; (done || lia).
Qed.

(** *** Constants, generic parameters and builtin types *)

Lemma appends_paramIndex depth index :
  0 <= depth < 2 ^ 31 -> 0 <= index < 2 ^ 31 ->
  appends (mangleDependentGenericParamIndex (genericParam depth index) [] "z") (renderParamIndex depth index).
Proof.
  intros Hd Hi st. unfold mangleDependentGenericParamIndex, renderParamIndex.
  rewrite (bind_ok _ _ st (createNodeIndex K_Index depth) st eq_refl), (bind_ok _ _ st (wrap_u64 depth) st eq_refl).
  rewrite (bind_ok _ _ st (createNodeIndex K_Index index) st eq_refl), (bind_ok _ _ st (wrap_u64 index) st eq_refl).
  rewrite !wrap_u64_id by lia.
  destruct (Z.eqb_spec depth 0), (Z.eqb_spec index 0); cbn [negb]; [by apply appends_emit|..].
  { by rewrite (bind_ok _ _ _ _ _ (appends_emit [] st)), mangleIndex_appended, appended_appended. }
  all: rewrite (bind_ok _ _ _ _ _ (appends_emit [] st));
    rewrite (bind_ok _ _ _ _ _ (appends_put "d" _)), (bind_ok _ _ _ _ _ (mangleIndex_appended _ _)), mangleIndex_appended;
    by rewrite !appended_appended.
Qed.

Lemma writes_param sz g depth index :
  0 <= depth < 10 ^ 7 -> 0 <= index < 2 ^ 31 ->
  writes sz (mangleWithFuel (S g) (genericParam depth index)) [typed (genericParam depth index)].
Proof.
  intros Hd Hi. set (n := genericParam depth index).
  apply (writes_ext _ _ (if (depth =? 0) && (index =? 0) then put "x"
    else _ <- put "q" ;; mangleDependentGenericParamIndex n [] "z")).
  { intros st. change (mangleWithFuel (S g) n st) with (mangleDependentGenericParamType n st).
    unfold mangleDependentGenericParamType.
    rewrite (bind_ok _ _ st (createNodeIndex K_Index depth) st eq_refl), (bind_ok _ _ st (wrap_u64 depth) st eq_refl).
    rewrite wrap_u64_id by lia. destruct (Z.eqb_spec depth 0); [|done]. cbn [andb].
    rewrite (bind_ok _ _ st (index =? 0) st); [by destruct (index =? 0)|].
    rewrite (bind_ok _ _ st (createNodeIndex K_Index index) st eq_refl), (bind_ok _ _ st (wrap_u64 index) st eq_refl).
    by rewrite wrap_u64_id by lia. }
  destruct (Z.eqb_spec depth 0) as [->|Hne], (Z.eqb_spec index 0) as [->|Hni]; cbn [andb].
  1: apply writes_put; cbn; tauto.
  all: eapply writes_constant;
    [apply appends_bind; [apply appends_put|apply appends_paramIndex; lia]|by apply pops_genericParam].
Qed.

(** The builtin names are compared with the name one by one. *)
Lemma writes_builtin sz g name code :
  In (name, code) builtinTypes ->
  writes sz (mangleWithFuel (S g) (builtinType (lit name))) [typed (builtinType (lit name))].
Proof.
  intros Hin. apply (writes_ext _ _ (_ <- put "B" ;; put code)); [intros st; kinds Hin|].
  eapply writes_constant; [apply appends_bind; apply appends_put|].
  apply (pops_table _ (fun name code => pops (lit "B" ++ lit code) [] (typed (builtinType (lit name)))) name code pops_builtinTypes Hin).
Qed.

Lemma writes_builtinNumber sz g name code size :
  In (name, code) builtinNumbers -> 1 <= size < 10 ^ 7 ->
  writes sz (mangleWithFuel (S g) (builtinType (lit name ++ decimal size)))
    [typed (builtinType (lit name ++ decimal size))].
Proof.
  intros Hin Hs.
  apply (writes_ext _ _ (_ <- put "B" ;; _ <- emit [code] ;; _ <- emit (decimal size) ;; put "_")).
  { intros st. kinds Hin. }
  eapply writes_constant.
  { apply appends_bind; [apply appends_put|]. apply appends_bind; [apply appends_emit|].
    apply appends_bind; [apply appends_emit|apply appends_put]. }
  apply (pops_table _ (fun name code => pops (lit "B" ++ [code] ++ decimal size ++ lit "_") []
    (typed (builtinType (lit name ++ decimal size)))) name code (pops_builtinNumbers size Hs) Hin).
Qed.

(** *** Tuples and functions *)

Lemma writes_label sz g e k (H : match label e with Some t => validIdentifier t | None => True end) :
  k = K_TupleElementName ->
  writes sz (mangleNodes (mangleWithFuel (S g)) (elementLabel e k)) (elementLabel e K_Identifier).
Proof.
  intros ->. unfold elementLabel. destruct (label e) as [t|]; [|apply writes_ret].
  change [createNodeText K_Identifier t] with ([] ++ [createNodeText K_Identifier t]).
  apply writes_bind; [|apply writes_ret].
  by apply (writes_identifier sz (createNodeText K_TupleElementName t) t).
Qed.

Lemma writes_element sz g e :
  (S (S (S g)) < fuel)%nat -> elementOk e -> mangleable (elementType e) ->
  (node_size (elementType e) < S g)%nat -> (node_size (elementType e) <= sz)%nat ->
  writes sz (mangleWithFuel (S (S (S g))) (tupleElement e)) (elementStack e).
Proof.
  intros Hg [Hk Hlabel] He Hlt Hle. unfold elementStack.
  apply (writes_ext _ _ (_ <- (_ <- mangleNodes (mangleWithFuel (S (S g))) [typed (elementType e)] ;;
      mangleNodes (mangleWithFuel (S (S g))) (elementLabel e K_TupleElementName)) ;;
    mangleNodes (mangleWithFuel (S (S g))) (if variadic e then [createNode K_VariadicMarker] else []))).
  { intros st. change (mangleWithFuel (S (S (S g))) (tupleElement e) st)
      with (mangleNodes (mangleWithFuel (S (S g))) (reverse (children (tupleElement e))) st).
    unfold tupleElement. cbn [children]. rewrite !reverse_app.
    assert (reverse (elementLabel e K_TupleElementName) = elementLabel e K_TupleElementName) as ->
      by (unfold elementLabel; by destruct (label e)).
    assert (reverse (if variadic e then [createNode K_VariadicMarker] else [])
      = if variadic e then [createNode K_VariadicMarker] else []) as -> by by destruct (variadic e).
    rewrite mangleNodes_app. unfold bind at 1 2. by rewrite mangleNodes_app. }
  apply writes_bind; [apply writes_bind|].
  - change [typed (elementType e)] with ([] ++ [typed (elementType e)]) at 2.
    apply writes_bind; [apply writes_typed; (done || lia)|apply writes_ret].
  - by apply writes_label.
  - destruct (variadic e); [|apply writes_ret]. 
    change [createNode K_VariadicMarker] with ([] ++ [createNode K_VariadicMarker]) at 2.
    apply writes_bind; [|apply writes_ret]. apply (writes_ext _ _ (put "d")); [done|].
    apply writes_put. cbn. tauto.
Qed.

Lemma node_size_element e : (S (node_size (elementType e)) < node_size (tupleElement e))%nat.
Proof. destruct e as [v [l|] t]; unfold tupleElement; destruct v; cbn; lia. Qed.

Lemma node_size_elements es e :
  In e es -> (node_size (tupleElement e) < node_size (tupleType es))%nat.
Proof. intros Hin. apply node_size_child, in_map, Hin. Qed.

Lemma writes_tuple g es :
  (S g <= fuel)%nat -> Forall mangleable (map elementType es) -> Forall elementOk es ->
  (node_size (tupleType es) < S g)%nat ->
  writes (node_size (tupleType es)) (mangleWithFuel (S g) (tupleType es)) [typed (tupleType es)].
Proof.
  intros Hg Hes Hok Hlt.
  apply (writes_ext _ _ (_ <- mangleTypeList (mangleWithFuel g) (tupleType es) ;; put "t")); [done|].
  eapply writes_op; [|apply appends_put|apply pops_tuple]. apply writes_list.
  apply List.Forall_forall. intros e Hin. 
  pose proof (proj1 (List.Forall_forall _ _) Hes _ (in_map elementType _ _ Hin)) as He.
  pose proof (proj1 (List.Forall_forall _ _) Hok e Hin) as Hoke.
  pose proof (node_size_elements es e Hin). pose proof (node_size_element e).
  destruct g as [|[|[|g]]]; [lia..|]. apply writes_element; (done || lia).
Qed.


Lemma writes_params sz g k p n :
  (S g < fuel)%nat -> k = K_ArgumentTuple \/ k = K_ReturnType -> typeKind (getKind n) = true -> mangleable n ->
  (node_size n < g)%nat -> (node_size n <= sz)%nat ->
  writes sz (mangleWithFuel (S g) (mkNode k p [typed n])) [paramsNode n].
Proof.
  intros Hg Hk Hkn Hn Hlt Hle. unfold paramsNode.
  apply (writes_ext _ _ (if Kind_eqb (getKind n) K_Tuple && (getNumChildren n =? 0)%nat then put "y"
    else mangleWithFuel g n)).
  { intros st. by destruct Hk as [-> | ->]. }
  case_match; [apply writes_put; cbn; tauto|].
  rewrite <-stackOf_typeKind by done. apply writes_child; (done || lia).
Qed.

Lemma writes_throws sz g throws :
  writes sz (mangleNodes (mangleWithFuel (S g)) (throwsNodes throws)) (throwsNodes throws).
Proof.
  destruct throws; [|apply writes_ret].
  change (throwsNodes true) with ([] ++ [createNode K_ThrowsAnnotation]) at 2.
  apply writes_bind; [|apply writes_ret]. apply (writes_ext _ _ (put "K")); [done|]. apply writes_put. cbn. tauto.
Qed.

(** The nodes of a function type in the order in which they are written. *)
Lemma writes_signature sz g k throws a r :
  (S g < fuel)%nat -> typeKind (getKind a) = true -> mangleable a ->
  typeKind (getKind r) = true -> mangleable r -> (node_size a < g)%nat -> (node_size r < g)%nat ->
  (node_size a <= sz)%nat -> (node_size r <= sz)%nat ->
  writes sz (mangleFunctionSignature (mangleWithFuel (S g)) (functionType k throws a r))
    (throwsNodes throws ++ [paramsNode a; paramsNode r]).
Proof.
  intros Hg Hka Ha Hkr Hr Hla Hlr Hsa Hsr.
  apply (writes_ext _ _ (_ <- (_ <- mangleWithFuel (S g) (returnType r) ;; mangleWithFuel (S g) (argumentTuple a)) ;;
    mangleNodes (mangleWithFuel (S g)) (throwsNodes throws))).
  { intros st. unfold mangleFunctionSignature, mangleChildNodesReversed, functionType. cbn [children].
    rewrite reverse_app, mangleNodes_app.
    assert (reverse (throwsNodes throws) = throwsNodes throws) as -> by by destruct throws.
    change (reverse [argumentTuple a; returnType r]) with [returnType r; argumentTuple a]. cbn [mangleNodes].
    rewrite !bind_assoc. apply bind_ext. intros [] st1. by rewrite !bind_assoc. }
  apply writes_bind; [|apply writes_throws].
  change [paramsNode a; paramsNode r] with ([paramsNode a] ++ [paramsNode r]).
  apply writes_bind; apply writes_params; by auto.
Qed.

Lemma node_size_function k throws a r :
  (3 + node_size a + 2 + node_size r <= node_size (functionType k throws a r))%nat.
Proof. unfold functionType. destruct throws; cbn; lia. Qed.

Lemma writes_function g k code throws a r :
  (S g <= fuel)%nat -> In (k, code) functionKinds -> typeKind (getKind a) = true -> mangleable a ->
  typeKind (getKind r) = true -> mangleable r -> (node_size (functionType k throws a r) < S g)%nat ->
  writes (node_size (functionType k throws a r)) (mangleWithFuel (S g) (functionType k throws a r))
    [typed (functionType k throws a r)].
Proof.
  intros Hg Hin Hka Ha Hkr Hr Hlt. pose proof (node_size_function k throws a r) as Hsize.
  apply (writes_ext _ _ (_ <- mangleFunctionSignature (mangleWithFuel g) (functionType k throws a r) ;; put code)).
  { intros st. kinds Hin. }
  destruct g as [|g]; [lia|].
  eapply writes_op; [apply writes_signature; (done || lia)|apply appends_put|].
  by apply (pops_table _ (fun k code => forall throws a r, paramsShape a = true -> paramsShape r = true ->
    pops (lit code) (throwsNodes throws ++ [paramsNode a; paramsNode r]) (typed (functionType k throws a r)))
    k code pops_functionKinds); [|apply mangleable_paramsShape..].
Qed.

(** *** Metatypes and protocol lists *)

Lemma writes_metatype g k kcode repr c t :
  (S (S g) <= fuel)%nat -> In (k, kcode) metatypeKinds -> In (repr, String c "") representations ->
  typeKind (getKind t) = true -> mangleable t -> (node_size (metatypeNode k (lit repr) t) < S (S g))%nat ->
  writes (node_size (metatypeNode k (lit repr) t)) (mangleWithFuel (S (S g)) (metatypeNode k (lit repr) t))
    [typed (metatypeNode k (lit repr) t)].
Proof.
  intros Hg Hk Hr Hkt Ht Hlt. unfold metatypeNode in Hlt |- *. rewrite node_size_two in *.
  change (node_size (createNodeText K_MetatypeRepresentation (lit repr))) with 1%nat in *.
  rewrite node_size_typed in *.
  apply (writes_ext _ _ (_ <- mangleWithFuel (S g) (typed t) ;; _ <- put kcode ;; put (String c ""))).
  { intros st. kinds Hk; kinds Hr. }
  eapply writes_op; [|apply appends_bind; apply appends_put|by apply pops_metatype].
  apply writes_typed; (done || lia).
Qed.

Lemma node_size_protocols ps p :
  In p ps -> (node_size (protocolContext p) + node_size (protocolName p) + 3 < node_size (protocolList ps))%nat.
Proof.
  intros Hin. unfold protocolList. rewrite node_size_one.
  pose proof (node_size_child K_TypeList NoPayload (map protocolNode ps) (protocolNode p) (in_map _ _ _ Hin)) as H.
  unfold protocolNode at 1 in H. rewrite node_size_typed, node_size_two in H. lia.
Qed.

(** The protocols are written in parts, without the [Type] and the operator. *)
Lemma writes_protocols sz g ps :
  (g < fuel)%nat -> Forall mangleable (map protocolContext ps) -> Forall mangleable (map protocolName ps) ->
  (node_size (protocolList ps) <= g)%nat -> (node_size (protocolList ps) <= sz)%nat ->
  writes sz (FirstElem <- manglePureProtocols (mangleWithFuel g) (map protocolNode ps) true ;; mangleEndOfList FirstElem)
    (listStack protocolStack ps).
Proof.
  intros Hg Hctxs Hnames Hlt Hle.
  apply (writes_ext _ _ (mangleTypeList (manglePureProtocol (mangleWithFuel g)) (mkNode K_TypeList NoPayload (map protocolNode ps)))).
  { intros st. unfold bind at 1. by rewrite manglePureProtocols_items. }
  apply writes_list. apply List.Forall_forall. intros p Hin.
  pose proof (proj1 (List.Forall_forall _ _) Hctxs _ (in_map protocolContext _ _ Hin)) as Hctx.
  pose proof (proj1 (List.Forall_forall _ _) Hnames _ (in_map protocolName _ _ Hin)) as Hname.
  pose proof (node_size_protocols ps p Hin).
  apply (writes_ext _ _ (mangleNodes (mangleWithFuel g) [protocolContext p; protocolName p])); [done|].
  eapply writes_weaken; [|apply writes_two]; (done || lia).
Qed.

Lemma mangleProtocolList_eq (mangle : Node -> RM unit) ps superclass any st :
  mangleProtocolList mangle (protocolList ps) superclass any st =
  (_ <- (FirstElem <- manglePureProtocols mangle (map protocolNode ps) true ;; mangleEndOfList FirstElem) ;;
   match superclass with
   | Some superclass => _ <- mangleType mangle superclass ;; put "Xc"
   | None => if any then put "Xl" else put "p"
   end) st.
Proof.
  unfold mangleProtocolList.
  rewrite (bind_ok (getSingleChildKind (protocolList ps) K_TypeList) _ st _ st eq_refl).
  by rewrite bind_assoc.
Qed.

Lemma writes_protocolList g ps :
  (S g <= fuel)%nat -> mangleable (protocolList ps) -> (node_size (protocolList ps) < S g)%nat ->
  writes (node_size (protocolList ps)) (mangleWithFuel (S g) (protocolList ps)) [typed (protocolList ps)].
Proof.
  intros Hg Hps Hlt. apply mangleable_protocols in Hps as (Hok & Hctxs & Hnames).
  eapply writes_ext; [intros st; apply (mangleProtocolList_eq (mangleWithFuel g) ps None false)|].
  eapply writes_op; [apply writes_protocols; (done || lia)|apply appends_put|by apply pops_protocolList].
Qed.

Lemma writes_protocolListWithAnyObject g ps :
  let n := mkNode K_ProtocolListWithAnyObject NoPayload [protocolList ps] in
  (S g <= fuel)%nat -> mangleable (protocolList ps) -> (node_size n < S g)%nat ->
  writes (node_size n) (mangleWithFuel (S g) n) [typed n].
Proof.
  intros n Hg Hps Hlt. apply mangleable_protocols in Hps as (Hok & Hctxs & Hnames).
  unfold n in Hlt |- *. rewrite node_size_one in *.
  eapply writes_ext; [intros st; apply (mangleProtocolList_eq (mangleWithFuel g) ps None true)|].
  eapply writes_op; [apply writes_protocols; (done || lia)|apply appends_put|by apply pops_protocolListWithAnyObject].
Qed.

Lemma writes_protocolListWithClass g ps t :
  let n := mkNode K_ProtocolListWithClass NoPayload [protocolList ps; typed t] in
  (S g <= fuel)%nat -> mangleable (protocolList ps) -> typeKind (getKind t) = true -> mangleable t ->
  (node_size n < S g)%nat -> writes (node_size n) (mangleWithFuel (S g) n) [typed n].
Proof.
  intros n Hg Hps Hk Ht Hlt. apply mangleable_protocols in Hps as (Hok & Hctxs & Hnames).
  unfold n in Hlt |- *. rewrite node_size_two, node_size_typed in *.
  eapply writes_ext; [intros st; apply (mangleProtocolList_eq (mangleWithFuel g) ps (Some (typed t)) false)|].
  set (m := FirstElem <- _ ;; mangleEndOfList FirstElem).
  apply (writes_ext _ _ (_ <- (_ <- m ;; mangleWithFuel g t) ;; put "Xc")).
  { intros st. by rewrite bind_assoc. }
  eapply writes_op; [|apply appends_put|by apply pops_protocolListWithClass].
  change (typed t :: listStack protocolStack ps) with ([typed t] ++ listStack protocolStack ps).
  apply writes_bind; [apply writes_protocols; (done || lia)|].
  rewrite <-stackOf_typeKind by done. apply writes_child; (done || lia).
Qed.

(** *** Generic types *)

Lemma writes_optional g t :
  (S g <= fuel)%nat -> typeKind (getKind t) = true -> mangleable t -> (node_size (optionalType t) < S g)%nat ->
  writes (node_size (optionalType t)) (mangleWithFuel (S g) (optionalType t)) [typed (optionalType t)].
Proof.
  intros Hg Hk Ht Hlt.
  assert (node_size (optionalType t) = 7 + node_size t)%nat as Hsize by (cbn; lia).
  destruct g as [|g]; [lia|].
  apply (writes_ext _ _ (orSubstitution (optionalType t) (mangleWithFuel (S g) (typed t)) (put "Sg"))); [done|].
  eapply (writes_orSubstitution (node_size t)).
  - by split_and!.
  - apply writes_typed; (done || lia).
  - lia.
  - apply appends_put.
  - apply pops_optional.
Qed.

Lemma isSpecialized_bound n ts (st : Remangler) : isSpecialized (boundType n ts) st = Ok (true, st).
Proof. unfold boundType. by destruct (getKind n). Qed.

Lemma getUnspecialized_bound n ts (st : Remangler) :
  isSpecialized n st = Ok (false, st) -> getUnspecialized (boundType n ts) st = Ok (n, st).
Proof.
  intros Hs. unfold boundType. cbn [getUnspecialized typed].
  assert (forall k, k = boundKind (getKind n) ->
    (specialized <- isSpecialized n ;; if (specialized : bool) then getUnspecialized n else ret n) st = Ok (n, st)) as H.
  { intros _ _. by rewrite (bind_ok _ _ _ _ _ Hs). }
  destruct (boundKind (getKind n)) eqn:E; try (by destruct (getKind n)); apply (H _ eq_refl).
Qed.

Lemma mangleGenericArgs_bound (mangle : Node -> RM unit) k ctx name ts st :
  nominalKind k = true -> mangleable ctx -> isContext (getKind ctx) = true ->
  (_ <- mangleGenericArgs mangle (boundType (mkNode k NoPayload [ctx; name]) ts) (lit "y") ;; put "G") st
  = (_ <- (_ <- putSeparators (S (genericDepth ctx)) ;; mangleNodes mangle (map typed ts)) ;; put "G") st.
Proof.
  intros Hk Hctx Hc.
  assert (mangleGenericArgs mangle (boundType (mkNode k NoPayload [ctx; name]) ts) (lit "y") st
    = (Separator <- mangleGenericArgs mangle ctx (lit "y") ;; _ <- emit Separator ;;
       _ <- mangleNodes mangle (map typed ts) ;; ret (lit "_")) st) as E.
  { unfold boundType. by destruct k. }
  unfold bind at 1. rewrite E. unfold bind at 1.
  rewrite mangleGenericArgs_separators by (by auto using isContext_unbound).
  cbn [putSeparators]. rewrite !bind_assoc. unfold bind.
  destruct (putSeparators (genericDepth ctx) st) as [[[] st1]|]; [|done].
  destruct (genericDepth ctx =? 0)%nat; cbn [ret put emit modify];
    [set (st2 := setBuffer (getBuffer st1 ++ lit "y") st1)|set (st2 := setBuffer (getBuffer st1 ++ lit "_") st1)];
    by destruct (mangleNodes mangle (map typed ts) st2) as [[[] st3]|].
Qed.

Lemma writes_types sz g ts :
  (g < fuel)%nat -> Forall mangleable ts -> Forall (fun t => typeKind (getKind t) = true) ts ->
  Forall (fun t => S (node_size t) < g /\ node_size t <= sz)%nat ts ->
  writes sz (mangleNodes (mangleWithFuel g) (map typed ts)) (reverse (map typed ts)).
Proof.
  intros Hg Hts Hk Hlt.
  assert (reverse (map typed ts) = concat (map (fun t => [typed t]) (reverse ts))) as ->.
  { transitivity (map typed (reverse ts)); [symmetry; apply fmap_reverse|].
    by induction (reverse ts) as [|t l IHl]; [|cbn; rewrite IHl]. }
  apply writes_items. apply List.Forall_forall. intros t Hin.
  rewrite List.Forall_forall in Hts, Hk, Hlt. specialize (Hts t Hin). specialize (Hk t Hin). specialize (Hlt t Hin).
  destruct g as [|g]; [lia|]. apply writes_typed; (done || lia).
Qed.

(** The optional has a handler of its own. *)
Lemma mangleBoundGenericEnum_spec (mangle mangleUnbound : Node -> RM unit) ctx name ts st :
  mangleable ctx -> mangleable name -> mkNode K_Enum NoPayload [ctx; name] <> optionalEnum ->
  let n := boundType (mkNode K_Enum NoPayload [ctx; name]) ts in
  mangleBoundGenericEnum mangle mangleUnbound n st = mangleAnyNominalType mangle mangleUnbound n st.
Proof.
  intros Hctx Hname Hopt n. unfold mangleBoundGenericEnum.
  rewrite (bind_ok (getChild n 0) _ st (typed (mkNode K_Enum NoPayload [ctx; name])) st eq_refl).
  set (e := mkNode K_Enum NoPayload [ctx; name]).
  rewrite (bind_ok (getChild (typed e) 0) _ st e st eq_refl).
  rewrite (bind_ok (assert _ (Kind_eqb (getKind e) K_Enum)) _ st tt st eq_refl).
  rewrite (bind_ok (getChild e 0) _ st ctx st eq_refl), (bind_ok (getChild e 1) _ st name st eq_refl).
  destruct (Kind_eqb_spec (getKind ctx) K_Module) as [Hk|Hk].
  2:{ rewrite (bind_ok (ret false) _ st false st eq_refl). cbv beta iota delta [andb].
      by rewrite (bind_ok (ret false) _ st false st eq_refl). }
  assert (exists text, ctx = createNodeText K_Module text) as [text ->].
  { destruct Hctx; try discriminate Hk; tables; try discriminate Hk; [by eexists|by destruct k]. }
  cbn [createNodeText]. rewrite bind_assoc, (bind_ok (getText (mkNode K_Module (TextPayload text) [])) _ st text st eq_refl).
  rewrite (bind_ok (ret _) _ st _ st eq_refl).
  destruct (str_eqb_spec text STDLIB_NAME) as [Ht|Ht]; cbv beta iota delta [andb].
  2: by rewrite (bind_ok (ret false) _ st false st eq_refl).
  destruct (Kind_eqb_spec (getKind name) K_Identifier) as [Hn|Hn].
  2: by rewrite (bind_ok (ret false) _ st false st eq_refl).
  destruct (mangleable_identifierShape _ Hname Hn) as (t & -> & _).
  rewrite bind_assoc, (bind_ok (getText (createNodeText K_Identifier t)) _ st t st eq_refl), (bind_ok (ret _) _ st _ st eq_refl).
  destruct (str_eqb_spec t (lit "Optional")) as [->|]; [by rewrite Ht in Hopt|done].
Qed.

Lemma node_size_bound n ts :
  (node_size n + 3 <= node_size (boundType n ts))%nat
  /\ forall t, In t ts -> (node_size t + 4 <= node_size (boundType n ts))%nat.
Proof.
  unfold boundType. rewrite node_size_two, node_size_typed. split.
  - unfold typeList. cbn [node_size]. lia.
  - intros t Hin. pose proof (node_size_child K_TypeList NoPayload (map typed ts) (typed t) (in_map _ _ _ Hin)) as H.
    rewrite node_size_typed in H. fold (typeList ts) in H. assert (1 <= node_size n)%nat by (destruct n; cbn; lia). lia.
Qed.

(** [mangleAnyNominalType] on a type with arguments. *)
Lemma mangleAnyNominalType_bound (mangle mangleUnbound : Node -> RM unit) k ctx name ts st :
  let n := mkNode k NoPayload [ctx; name] in
  nominalKind k = true -> mangleable ctx -> isContext (getKind ctx) = true -> mangleable n ->
  mangleAnyNominalType mangle mangleUnbound (boundType n ts) st
  = orSubstitution (boundType n ts)
      (_ <- mangleUnbound n ;; _ <- putSeparators (S (genericDepth ctx)) ;; mangleNodes mangle (map typed ts))
      (put "G") st.
Proof.
  intros n Hk Hctx Hc Hn. unfold mangleAnyNominalType, orSubstitution.
  rewrite (bind_ok _ _ _ _ _ (isSpecialized_bound n ts st)). apply bind_ext. intros [found entry] st1.
  destruct found; [done|].
  assert (isSpecialized n st1 = Ok (false, st1)) as Hs.
  { apply mangleable_unspecialized; [done|]. by destruct k. }
  rewrite (bind_ok _ _ _ _ _ (getUnspecialized_bound n ts st1 Hs)). rewrite bind_assoc.
  apply bind_ext. intros [] st2.
  transitivity ((_ <- (_ <- mangleGenericArgs mangle (boundType n ts) (lit "y") ;; put "G") ;; addSubstitution entry) st2).
  { by rewrite bind_assoc. }
  unfold bind at 1. unfold n. rewrite mangleGenericArgs_bound by done.
  transitivity ((_ <- (_ <- (_ <- putSeparators (S (genericDepth ctx)) ;; mangleNodes mangle (map typed ts)) ;; put "G") ;;
    addSubstitution entry) st2); [done|].
  by rewrite !bind_assoc.
Qed.

Lemma writes_bound g k ctx name t ts :
  let n := mkNode k NoPayload [ctx; name] in
  (S g <= fuel)%nat -> nominalKind k = true -> isContext (getKind ctx) = true -> mangleable ctx -> mangleable name ->
  mangleable n -> n <> optionalEnum -> Forall mangleable (t :: ts) ->
  Forall (fun t => typeKind (getKind t) = true) (t :: ts) -> (node_size (boundType n (t :: ts)) < S g)%nat ->
  writes (node_size (boundType n (t :: ts))) (mangleWithFuel (S g) (boundType n (t :: ts)))
    [typed (boundType n (t :: ts))].
Proof.
  intros n Hg Hk Hc Hctx Hname Hn Hopt Hts Hkts Hlt. destruct (node_size_bound n (t :: ts)) as [Hsn Hst].
  apply (writes_ext _ _ (mangleAnyNominalType (mangleWithFuel g) (mangleUnboundWithFuel g) (boundType n (t :: ts)))).
  { intros st. destruct k; try discriminate Hk; try done. by apply mangleBoundGenericEnum_spec. }
  eapply writes_ext; [intros st; by apply mangleAnyNominalType_bound|].
  eapply (writes_orSubstitution (node_size (boundType n (t :: ts)) - 3)).
  - by destruct k.
  - apply writes_bind; [|apply writes_bind].
    + destruct g as [|g]; [lia|]. apply (writes_ext _ _ (mangleWithFuel (S g) n)); [by destruct k|].
      apply writes_child; (done || lia).
    + apply writes_separators.
    + apply writes_types; [done..|]. apply List.Forall_forall. intros u Hu. specialize (Hst u Hu). lia.
  - fold n. lia.
  - apply appends_put.
  - replace (stackOf n) with [typed n] by by destruct k.
    apply (pops_bound k ctx name t ts Hk). by apply mangleable_chainShape.
Qed.

End handlers.
