(* ===== verification/EntityWriting.v ===== *)
(** * Writing declarations

    The handlers of the remangler for declarations, accessors and the symbols of
    types write what the demangler reads as these nodes, provided that [mangle]
    does so on the parts. *)

From Stdlib Require Import String.
From S2P Require Import Prelude Nodes ManglingUtils Punycode IdentifierMangling Demangler Numbers IdentifierRoundtrip SubstitutionGroups Simulation Remangler SymbolSimulation SymbolWriting OperatorReads EntityReads GenericReads NodeShape Mangleable TypeWriting.

(** ** Lists of nodes *)

Lemma writes_app sz (mangle : Node -> RM unit) ns ns' A B :
  writes sz (mangleNodes mangle ns) A -> writes sz (mangleNodes mangle ns') B ->
  writes sz (mangleNodes mangle (ns ++ ns')) (B ++ A).
Proof.
  intros HA HB. eapply writes_ext; [intros st; apply mangleNodes_app|]. by apply writes_bind.
Qed.

Lemma writes_single sz (mangle : Node -> RM unit) n A :
  writes sz (mangle n) A -> writes sz (mangleNodes mangle [n]) A.
Proof.
  intros H. apply (writes_ext _ _ (_ <- mangle n ;; ret tt)); [done|].
  change A with ([] ++ A). apply writes_bind; [done|apply writes_ret].
Qed.

Lemma mangleChildNode_at (mangle : Node -> RM unit) n i c st :
  children n !! i = Some c -> mangleChildNode mangle n i st = mangle c st.
Proof.
  intros H. unfold mangleChildNode, getNumChildren, getChild. rewrite H.
  apply lookup_lt_Some in H. by destruct (Nat.ltb_spec i (length (children n))); [|lia].
Qed.

(** ** The parts of declarations *)

(** A child of [n] that is not the root of what is written. *)
Definition within (n c : Node) : Prop := (node_size c < node_size n)%nat.

Lemma within_child k p cs c : In c cs -> within (mkNode k p cs) c.
Proof. apply node_size_child. Qed.

Lemma within_typed n t : within n (typed t) -> within n t.
Proof. unfold within. rewrite node_size_typed. lia. Qed.

Section handlers.
Context (fuel : nat).
(** The nodes with less fuel. *)
Hypothesis IH : forall g n, (g < fuel)%nat -> mangleable n -> (node_size n < g)%nat ->
  writes (node_size n) (mangleWithFuel g n) (stackOf n).

(** What is mangled as part of [n] with the fuel [g]. *)
Lemma writes_part n g c :
  (g < fuel)%nat -> (node_size n < S g)%nat -> mangleable c -> within n c ->
  writes (node_size n) (mangleWithFuel g c) (stackOf c).
Proof.
  unfold within. intros Hg Hlt Hc Hin. apply (writes_child fuel IH); (done || lia).
Qed.

Lemma writes_typedPart n g t :
  (g < fuel)%nat -> (node_size n < S g)%nat -> typeKind (getKind t) = true -> mangleable t -> within n (typed t) ->
  writes (node_size n) (mangleWithFuel g (typed t)) [typed t].
Proof.
  unfold within. rewrite node_size_typed. intros Hg Hlt Hk Ht Hin.
  destruct g as [|g]; [lia|]. apply (writes_typed fuel IH); (done || lia).
Qed.

Lemma writes_labelNode sz g l :
  labelOk l -> writes sz (mangleWithFuel (S g) l) [l].
Proof.
  intros [->|(text & Hv & ->)].
  - apply (writes_ext _ _ (put "_")); [done|]. apply writes_put. cbn. tauto.
  - by apply writes_identifierNode.
Qed.

Lemma writes_labels sz g labels :
  Forall labelOk (default [] labels) ->
  writes sz (mangleNodes (mangleWithFuel (S (S g))) (labelNodes labels)) (labelStack labels).
Proof.
  intros Hl. destruct labels as [ls|]; [|apply writes_ret]. apply writes_single.
  apply (writes_ext _ _ (if (length ls =? 0)%nat then put "y" else mangleNodes (mangleWithFuel (S g)) ls)); [done|].
  destruct ls as [|l ls]; [apply writes_put; cbn; tauto|].
  cbn [length Nat.eqb labelStack default] in *.
  replace (reverse (l :: ls)) with (concat (map (fun l => [l]) (reverse (l :: ls)))).
  - rewrite <-(map_id (l :: ls)) at 1. apply writes_items. eapply Forall_impl; [|exact Hl].
    intros x Hx. by apply writes_labelNode.
  - by induction (reverse (l :: ls)) as [|x xs IHxs]; [|cbn; rewrite IHxs].
Qed.

(** Two parts in front, the labels and the type. *)
Lemma writes_entity n g ctx name labels t :
  (S (S g) < fuel)%nat -> (node_size n < S (S (S g)))%nat ->
  mangleable ctx -> within n ctx -> mangleable name -> within n name ->
  typeKind (getKind t) = true -> mangleable t -> within n (typed t) -> Forall labelOk (default [] labels) ->
  writes (node_size n) (mangleNodes (mangleWithFuel (S (S g))) ([ctx; name] ++ labelNodes labels ++ [typed t]))
    (entityStack ctx name labels t).
Proof.
  intros Hg Hlt Hctx Hictx Hname Hiname Hk Ht Hit Hl. unfold entityStack.
  replace (typed t :: labelStack labels ++ stackOf name ++ stackOf ctx)
    with (([typed t] ++ labelStack labels) ++ stackOf name ++ stackOf ctx) by by rewrite <-app_assoc.
  apply writes_app; [|apply writes_app].
  - change [ctx; name] with ([ctx] ++ [name]). apply writes_app; apply writes_single; by apply writes_part.
  - by apply writes_labels.
  - by apply writes_single, writes_typedPart.
Qed.

(** One part in front and an optional one behind. *)
Lemma writes_initializerNodes n g ctx labels t privateName :
  (S (S g) < fuel)%nat -> (node_size n < S (S (S g)))%nat -> mangleable ctx -> within n ctx ->
  typeKind (getKind t) = true -> mangleable t -> within n (typed t) -> Forall labelOk (default [] labels) ->
  privateOk privateName -> Forall mangleable (option_list privateName) -> Forall (within n) (option_list privateName) ->
  writes (node_size n) (mangleNodes (mangleWithFuel (S (S g))) ([ctx] ++ labelNodes labels ++ [typed t] ++ option_list privateName))
    (initializerStack ctx labels t privateName).
Proof.
  intros Hg Hlt Hctx Hictx Hk Ht Hit Hl Hp Hmp Hip. unfold initializerStack.
  replace (option_list privateName ++ typed t :: labelStack labels ++ stackOf ctx)
    with (((option_list privateName ++ [typed t]) ++ labelStack labels) ++ stackOf ctx) by by rewrite <-!app_assoc.
  apply writes_app; [|apply writes_app; [|apply writes_app]].
  - by apply writes_single, writes_part.
  - by apply writes_labels.
  - by apply writes_single, writes_typedPart.
  - destruct privateName as [p|]; [|apply writes_ret]. cbn [option_list] in *.
    inversion_clear Hmp. inversion_clear Hip. apply writes_single.
    change (option_list (Some p)) with [p].
    rewrite <-(stackOf_declName p) by by cbn in Hp; rewrite Hp. by apply writes_part.
Qed.

(** ** Variables, subscripts and initializers *)

(** The accessors differ in the code only. *)
Lemma mangle_accessor g k code n st :
  In (k, code) accessors -> getKind n = K_Variable \/ getKind n = K_Subscript ->
  mangleWithFuel (S g) (accessorNode k n) st
  = (_ <- mangleNodes (mangleWithFuel g) (children n) ;;
     _ <- put (if Kind_eqb (getKind n) K_Variable then "v" else "i") ;; put code) st.
Proof.
  intros Hin Hn. destruct n as [kind p cs]. cbn [getKind] in Hn.
  repeat destruct Hin as [[= <- <-]|Hin]; [..|destruct Hin]; by destruct Hn as [-> | ->].
Qed.

Lemma stackOf_accessor k code n :
  In (k, code) accessors -> getKind n = K_Variable \/ getKind n = K_Subscript ->
  stackOf (accessorNode k n) = [accessorNode k n].
Proof.
  intros Hin Hn. destruct n as [kind p cs]. cbn [getKind] in Hn.
  repeat destruct Hin as [[= <- <-]|Hin]; [..|destruct Hin]; by destruct Hn as [-> | ->].
Qed.

Lemma node_size_accessor k n : (node_size n <= node_size (accessorNode k n))%nat.
Proof. destruct k; cbn [accessorNode]; [rewrite node_size_one|]; lia. Qed.

Lemma within_accessor k n c : within n c -> within (accessorNode k n) c.
Proof. unfold within. pose proof (node_size_accessor k n). lia. Qed.

Lemma writes_variable g k code ctx name labels t :
  let n := accessorNode k (entityNode K_Variable ctx name labels t) in
  (S g <= fuel)%nat -> In (k, code) accessors -> isContext (getKind ctx) = true -> mangleable ctx ->
  isDeclName (getKind name) = true -> mangleable name -> typeKind (getKind t) = true -> mangleable t ->
  Forall labelOk (default [] labels) -> labelsOk labels t -> (node_size n < S g)%nat ->
  writes (node_size n) (mangleWithFuel (S g) n) (stackOf n).
Proof.
  intros n Hg Hin Hcctx Hctx Hkname Hname Hkt Ht Hl Hlabels Hlt. unfold n at 3.
  rewrite (stackOf_accessor k code) by (done || by left).
  eapply writes_ext; [intros st; apply mangle_accessor; [done|by left]|].
  assert (3 < node_size n)%nat.
  { pose proof (node_size_accessor k (entityNode K_Variable ctx name labels t)) as Hs. unfold n, entityNode in *.
    cbn [node_size app map list_sum fold_right] in Hs. destruct ctx, name, labels; cbn in *; lia. }
  destruct g as [|[|g]]; [lia..|].
  eapply writes_op; [|apply appends_bind; apply appends_put|].
  - apply (writes_entity n g ctx name labels t); try done; try lia; apply within_accessor, within_child;
      cbn [In app]; rewrite ?in_app_iff; cbn [In]; tauto.
  - apply (pops_variable ctx name labels t k code); try done.
    + by apply mangleable_signatureShape.
    + by apply mangleable_contextOk.
Qed.

Lemma writes_subscript g k code ctx labels t privateName :
  let n := accessorNode k (initializerNode K_Subscript ctx labels t privateName) in
  (S g <= fuel)%nat -> In (k, code) accessors -> isContext (getKind ctx) = true -> mangleable ctx ->
  typeKind (getKind t) = true -> mangleable t -> Forall labelOk (default [] labels) -> labelsOk labels t ->
  privateOk privateName -> Forall mangleable (option_list privateName) -> (node_size n < S g)%nat ->
  writes (node_size n) (mangleWithFuel (S g) n) (stackOf n).
Proof.
  intros n Hg Hin Hcctx Hctx Hkt Ht Hl Hlabels Hp Hmp Hlt. unfold n at 3.
  rewrite (stackOf_accessor k code) by (done || by right).
  eapply writes_ext; [intros st; apply mangle_accessor; [done|by right]|].
  assert (forall c, In c ([ctx] ++ labelNodes labels ++ [typed t] ++ option_list privateName) -> within n c) as Hw.
  { intros c Hc. by apply within_accessor, within_child. }
  assert (within n (typed t)) as Hwt by (apply Hw; rewrite !in_app_iff; cbn [In]; tauto).
  assert (1 < node_size (typed t))%nat by (rewrite node_size_typed; destruct t; cbn; lia).
  unfold within in Hwt. destruct g as [|[|g]]; [lia..|].
  eapply writes_op; [|apply appends_bind; apply appends_put|].
  - apply (writes_initializerNodes n g ctx labels t privateName); try done; try lia.
    + apply Hw. rewrite !in_app_iff. cbn [In]. tauto.
    + apply List.Forall_forall. intros x Hx. apply Hw. rewrite !in_app_iff. tauto.
  - apply (pops_subscript ctx labels t privateName k code); try done.
    + by apply mangleable_signatureShape.
    + by apply mangleable_contextOk.
Qed.

Lemma writes_initializer g k code ctx labels t privateName :
  let n := initializerNode k ctx labels t privateName in
  (S g <= fuel)%nat -> In (k, code) initializerKinds -> isContext (getKind ctx) = true -> mangleable ctx ->
  typeKind (getKind t) = true -> mangleable t -> Forall labelOk (default [] labels) -> labelsOk labels t ->
  privateOk privateName -> Forall mangleable (option_list privateName) -> (node_size n < S g)%nat ->
  writes (node_size n) (mangleWithFuel (S g) n) (stackOf n).
Proof.
  intros n Hg Hin Hcctx Hctx Hkt Ht Hl Hlabels Hp Hmp Hlt.
  assert (stackOf n = [n]) as -> by by kinds Hin.
  assert (exists c, code = String "f" (String c "")) as [c ->].
  { kinds Hin; by eexists. }
  apply (writes_ext _ _ (_ <- mangleNodes (mangleWithFuel g) (children n) ;; _ <- put "f" ;; put (String c ""))).
  { intros st. kinds Hin. }
  assert (forall x, In x ([ctx] ++ labelNodes labels ++ [typed t] ++ option_list privateName) -> within n x) as Hw.
  { intros x Hx. by apply within_child. }
  assert (within n (typed t)) as Hwt by (apply Hw; rewrite !in_app_iff; cbn [In]; tauto).
  assert (1 < node_size (typed t))%nat by (rewrite node_size_typed; destruct t; cbn; lia).
  unfold within in Hwt. destruct g as [|[|g]]; [lia..|].
  eapply writes_op; [|apply appends_bind; apply appends_put|].
  - apply (writes_initializerNodes n g ctx labels t privateName); try done; try lia.
    + apply Hw. rewrite !in_app_iff. cbn [In]. tauto.
    + apply List.Forall_forall. intros x Hx. apply Hw. rewrite !in_app_iff. tauto.
  - by apply (pops_table _ (fun k code => pops (lit code) (initializerStack ctx labels t privateName)
      (initializerNode k ctx labels t privateName)) k (String "f" (String c "")) (pops_initializer ctx labels t privateName
      (mangleable_signatureShape t Ht Hkt) Hlabels (mangleable_contextOk ctx Hctx Hcctx) Hp)).
Qed.

(** ** Functions *)

Lemma mangleFunction_eq (mangle : Node -> RM unit) ctx name labels throws a r st :
  let t := functionType K_FunctionType throws a r in
  mangleFunction mangle (entityNode K_Function ctx name labels t) st
  = (_ <- (_ <- mangleNodes mangle [ctx; name] ;; mangleNodes mangle (labelNodes labels)) ;;
     _ <- mangleFunctionSignature mangle t ;; put "F") st.
Proof.
  intros t. unfold mangleFunction. cbn [mangleNodes]. rewrite !bind_assoc.
  unfold bind at 1. rewrite (mangleChildNode_at mangle _ 0 ctx) by done. apply bind_ext. intros [] st1.
  rewrite !bind_assoc. unfold bind at 1. rewrite (mangleChildNode_at mangle _ 1 name) by done.
  apply bind_ext. intros [] st2. rewrite (bind_ok (ret tt) _ st2 tt st2 eq_refl).
  destruct labels as [ls|]; cbn [labelNodes mangleNodes].
  - rewrite (bind_ok (getChild (entityNode K_Function ctx name (Some ls) t) 2) _ st2 (mkNode K_LabelList NoPayload ls) st2 eq_refl).
    cbv zeta. change (Kind_eqb (getKind (mkNode K_LabelList NoPayload ls)) K_LabelList) with true. cbv iota.
    rewrite (bind_ok (getChild (entityNode K_Function ctx name (Some ls) t) 3) _ st2 (typed t) st2 eq_refl).
    rewrite (bind_ok (getSingleChild (typed t)) _ st2 t st2 eq_refl). cbn [when]. rewrite !bind_assoc.
    unfold bind at 1. rewrite (mangleChildNode_at mangle _ 2 (mkNode K_LabelList NoPayload ls)) by done.
    apply bind_ext. intros [] st3. by rewrite (bind_ok (ret tt) _ st3 tt st3 eq_refl).
  - rewrite (bind_ok (getChild (entityNode K_Function ctx name None t) 2) _ st2 (typed t) st2 eq_refl).
    cbv zeta. change (Kind_eqb (getKind (typed t)) K_LabelList) with false. cbv iota.
    by rewrite (bind_ok (getChild (entityNode K_Function ctx name None t) 2) _ st2 (typed t) st2 eq_refl).
Qed.

Lemma writes_functionEntity g ctx name labels throws a r :
  let t := functionType K_FunctionType throws a r in
  let n := entityNode K_Function ctx name labels t in
  (S g <= fuel)%nat -> isContext (getKind ctx) = true -> mangleable ctx -> isDeclName (getKind name) = true ->
  mangleable name -> typeKind (getKind a) = true -> mangleable a -> typeKind (getKind r) = true -> mangleable r ->
  Forall labelOk (default [] labels) -> labelsOk labels t -> (node_size n < S g)%nat ->
  writes (node_size n) (mangleWithFuel (S g) n) [n].
Proof.
  intros t n Hg Hcctx Hctx Hkname Hname Hka Ha Hkr Hr Hl Hlabels Hlt.
  eapply writes_ext; [intros st; apply (mangleFunction_eq (mangleWithFuel g))|].
  pose proof (node_size_function K_FunctionType throws a r) as Ht. fold t in Ht.
  assert (forall x, In x ([ctx; name] ++ labelNodes labels ++ [typed t]) -> within n x) as Hw.
  { intros x Hx. by apply within_child. }
  assert (within n (typed t)) as Hwt by (apply Hw; rewrite !in_app_iff; cbn [In]; tauto).
  unfold within in Hwt. rewrite node_size_typed in Hwt. destruct g as [|[|g]]; [lia..|].
  apply (writes_ext _ _ (_ <- (_ <- (_ <- mangleNodes (mangleWithFuel (S (S g))) [ctx; name] ;;
      mangleNodes (mangleWithFuel (S (S g))) (labelNodes labels)) ;;
    mangleFunctionSignature (mangleWithFuel (S (S g))) t) ;; put "F")).
  { intros st. by rewrite !bind_assoc. }
  eapply writes_op; [|apply appends_put|].
  - apply writes_bind; [apply writes_bind|].
    + change [ctx; name] with ([ctx] ++ [name]).
      apply writes_app; apply writes_single; apply writes_part; try done; try lia; apply Hw; cbn [In app]; tauto.
    + by apply writes_labels.
    + apply (writes_signature fuel IH); (done || lia).
  - replace ((throwsNodes throws ++ [paramsNode a; paramsNode r]) ++ labelStack labels ++ stackOf name ++ stackOf ctx)
      with (functionStack ctx name labels throws a r) by by unfold functionStack; rewrite <-app_assoc.
    apply pops_function; try done; [by apply mangleable_paramsShape..|by apply mangleable_contextOk].
Qed.

(** ** Declarations in a context *)

Lemma writes_context g k code ctx :
  let n := mkNode k NoPayload [ctx] in
  (S g <= fuel)%nat -> In (k, code) contextKinds -> isContext (getKind ctx) = true -> mangleable ctx ->
  (node_size n < S g)%nat -> writes (node_size n) (mangleWithFuel (S g) n) (stackOf n).
Proof.
  intros n Hg Hin Hcctx Hctx Hlt. assert (stackOf n = [n]) as -> by by kinds Hin.
  apply (writes_ext _ _ (_ <- mangleNodes (mangleWithFuel g) [ctx] ;; put code)).
  { intros st. kinds Hin; cbn [mangleNodes]; rewrite bind_assoc; reflexivity. }
  eapply writes_op; [|apply appends_put|].
  - apply writes_single, writes_part; try done; try lia. apply within_child. by left.
  - by apply (pops_table _ (fun k code => pops (lit code) (stackOf ctx) (mkNode k NoPayload [ctx])) k code
      (pops_contextKinds ctx (mangleable_contextOk ctx Hctx Hcctx))).
Qed.

Lemma writes_closure g k code ctx value t :
  let n := closureNode k ctx value t in
  (S g <= fuel)%nat -> In (k, code) closureKinds -> 0 <= value < 2 ^ 31 -> isContext (getKind ctx) = true ->
  mangleable ctx -> typeKind (getKind t) = true -> mangleable t -> (node_size n < S g)%nat ->
  writes (node_size n) (mangleWithFuel (S g) n) (stackOf n).
Proof.
  intros n Hg Hin Hv Hcctx Hctx Hkt Ht Hlt. assert (stackOf n = [n]) as -> by by kinds Hin.
  assert (within n ctx) as Hwc by (apply within_child; cbn [In]; tauto).
  assert (within n (typed t)) as Hwt by (apply within_child; cbn [In]; tauto).
  assert (1 < node_size (typed t))%nat by (rewrite node_size_typed; destruct t; cbn; lia).
  destruct g as [|g]; [unfold within in Hwt; lia|].
  apply (writes_ext _ _ (_ <- (_ <- mangleWithFuel (S g) ctx ;; mangleWithFuel (S g) (typed t)) ;;
    _ <- put code ;; mangleWithFuel (S g) (createNodeIndex K_Number value))).
  { intros st. by kinds Hin; rewrite bind_assoc. }
  eapply writes_op; [|by apply appends_number|].
  - apply writes_bind; [apply writes_part|apply writes_typedPart]; (done || lia).
  - by apply (pops_table _ (fun k code => pops (lit code ++ renderIndex value) (typed t :: stackOf ctx)
      (closureNode k ctx value t)) k code (pops_closure ctx value t Hv (mangleable_contextOk ctx Hctx Hcctx))).
Qed.

Lemma writes_defaultArgument g ctx value :
  let n := defaultArgument ctx value in
  (S g <= fuel)%nat -> 0 <= value < 2 ^ 31 -> isContext (getKind ctx) = true -> mangleable ctx ->
  (node_size n < S g)%nat -> writes (node_size n) (mangleWithFuel (S g) n) [n].
Proof.
  intros n Hg Hv Hcctx Hctx Hlt. assert (within n ctx) as Hwc by (apply within_child; cbn [In]; tauto).
  destruct g as [|g]; [unfold within in Hwc; lia|].
  apply (writes_ext _ _ (_ <- mangleWithFuel (S g) ctx ;;
    _ <- put "fA" ;; mangleWithFuel (S g) (createNodeIndex K_Number value))); [done|].
  eapply writes_op; [apply writes_part; (done || lia)|by apply appends_number|].
  apply pops_defaultArgument; [done|by apply mangleable_contextOk].
Qed.

Lemma writes_static g m :
  let n := mkNode K_Static NoPayload [m] in
  (S g <= fuel)%nat -> entityOk m -> mangleable m -> (node_size n < S g)%nat ->
  writes (node_size n) (mangleWithFuel (S g) n) [n].
Proof.
  intros n Hg Hok Hm Hlt. apply (writes_ext _ _ (singleChildThen (mangleWithFuel g) n "Z")); [done|].
  eapply (writes_singleChild _ g K_Static NoPayload m); [|by apply pops_static].
  apply writes_part; try done; try lia. apply within_child. by left.
Qed.

Lemma writes_extension g m t :
  let n := mkNode K_Extension NoPayload [m; t] in
  (S g <= fuel)%nat -> getKind m = K_Module -> mangleable m -> isAnyGeneric (getKind t) = true -> mangleable t ->
  (node_size n < S g)%nat -> writes (node_size n) (mangleWithFuel (S g) n) [n].
Proof.
  intros n Hg Hkm Hm Hkt Ht Hlt.
  apply (writes_ext _ _ (_ <- (_ <- mangleWithFuel g t ;; mangleWithFuel g m) ;; put "E")).
  { intros st. by rewrite bind_assoc. }
  eapply writes_op; [|apply appends_put|apply pops_extension].
  - apply writes_bind; [|apply writes_part; try done; try lia; apply within_child; cbn [In]; tauto].
    rewrite <-(stackOf_typeKind t) by by destruct t as [[] ? ?].
    apply writes_part; try done; try lia. apply within_child. cbn [In]. tauto.
  - done.
  - by apply mangleable_moduleShape.
  - done.
Qed.

(** ** Symbols of types *)

Lemma writes_symbol g k code t :
  let n := mkNode k NoPayload [typed t] in
  (S g <= fuel)%nat -> In (k, code) typeSymbols -> typeKind (getKind t) = true -> mangleable t ->
  (node_size n < S g)%nat -> writes (node_size n) (mangleWithFuel (S g) n) (stackOf n).
Proof.
  intros n Hg Hin Hk Ht Hlt. assert (stackOf n = [n]) as -> by by kinds Hin.
  apply (writes_ext _ _ (_ <- mangleNodes (mangleWithFuel g) [typed t] ;; put code)).
  { intros st. kinds Hin; cbn [mangleNodes]; rewrite bind_assoc; reflexivity. }
  eapply writes_op; [|apply appends_put|].
  - apply writes_single, writes_typedPart; try done; try lia. apply within_child. by left.
  - by apply (pops_table _ (fun k code => forall x, pops (lit code) [typed x] (mkNode k NoPayload [typed x])) k code
      pops_typeSymbols).
Qed.

End handlers.
