(* ===== verification/SymbolRoundtrip.v ===== *)
(** * Mangling and demangling whole symbols

    The induction over the trees of [Mangleable.v], and what it means for whole
    symbols: [demangleSymbol] inverts [mangleNode]. *)

From Stdlib Require Import String.
From S2P Require Import Prelude Nodes ManglingUtils Punycode IdentifierMangling Demangler Numbers IdentifierTokens IdentifierEncoding IdentifierRoundtrip SubstitutionGroups MergingSpecs Simulation Remangler RemanglerSpecs SymbolSimulation SymbolWriting OperatorReads EntityReads GenericReads NodeShape Mangleable TypeWriting EntityWriting.

Lemma node_size_index k p i c : node_size (mkNode k p [createNodeIndex K_Number i; c]) = S (S (node_size c)).
Proof. rewrite node_size_two. reflexivity. Qed.

Lemma writes_mangleable fuel : forall n,
  mangleable n -> (node_size n < fuel)%nat -> writes (node_size n) (mangleWithFuel fuel n) (stackOf n).
Proof.
  induction fuel as [fuel IH] using lt_wf_ind. intros n Hn Hlt.
  assert (forall g n, (g < fuel)%nat -> mangleable n -> (node_size n < g)%nat ->
    writes (node_size n) (mangleWithFuel g n) (stackOf n)) as IH' by by intros; apply IH.
  destruct fuel as [|f]; [lia|]. pose proof (le_n (S f)) as Hf.
  destruct Hn.
  - by apply writes_identifierNode.
  - by apply (writes_privateName (S f)).
  - rewrite node_size_one in *. by apply (writes_privateDiscriminator (S f)).
  - rewrite node_size_index in *. destruct f as [|f]; [lia|]. by apply (writes_localName (S (S f))).
  - by apply writes_module.
  - rewrite stackOf_typeKind by kinds H. by apply (writes_nominal (S f) IH' f k code).
  - rewrite node_size_typed in *. destruct f as [|f]; [lia|].
    apply (writes_ext _ _ (mangleWithFuel (S f) n)); [done|].
    change (stackOf (typed n)) with [typed n]. rewrite <-(stackOf_typeKind n H). eapply writes_weaken; [|apply IH]; (done || lia).
  - rewrite stackOf_typeKind by kinds H. unfold typed in Hlt |- *. rewrite !node_size_one in *. fold (typed n).
    destruct f as [|f]; [lia|]. by apply (writes_wrapping (S (S f)) IH' f k code).
  - rewrite stackOf_typeKind by kinds H. rewrite !node_size_one in *. by apply (writes_unwrapping (S f) IH' f k code).
  - apply (writes_ext _ _ (put "Xe")); [done|]. apply writes_put. cbn. tauto.
  - by apply writes_param.
  - by apply (writes_builtin _ _ name code).
  - by apply (writes_builtinNumber _ _ name code).
  - by apply (writes_tuple (S f)).
  - rewrite stackOf_typeKind by kinds H. by apply (writes_function (S f) IH' f k code).
  - rewrite stackOf_typeKind by kinds H. destruct f as [|f].
    { unfold metatypeNode in Hlt. rewrite node_size_two, node_size_typed in Hlt. lia. }
    by apply (writes_metatype (S (S f)) IH' f k kcode repr c).
  - apply (writes_protocolList (S f)); try done. by apply mangleable_protocolList.
  - by apply (writes_protocolListWithAnyObject (S f)).
  - by apply (writes_protocolListWithClass (S f)).
  - by apply (writes_optional (S f)).
  - rewrite stackOf_typeKind by by destruct k. destruct (mangleable_parts k ctx name Hn H) as (? & ? & ?).
    by apply (writes_bound (S f) IH' f k).
  - by apply (writes_extension (S f)).
  - by apply (writes_variable (S f) IH' f k code).
  - by apply (writes_subscript (S f) IH' f k code).
  - by apply (writes_initializer (S f) IH' f k code).
  - by apply (writes_functionEntity (S f) IH' f).
  - by apply (writes_context (S f) IH' f k code).
  - by apply (writes_closure (S f) IH' f k code).
  - by apply (writes_defaultArgument (S f) IH' f).
  - by apply (writes_static (S f) IH' f).
  - by apply (writes_symbol (S f) IH' f k code).
Qed.

(** ** Whole symbols *)

(** No tree of the fragment is an attribute. *)
Lemma mangleable_attribute n :
  mangleable n -> isReversedAttribute (getKind n) = false /\ isFunctionAttr (getKind n) = false.
Proof.
  intros H. destruct H; try (by split); tables; try (by split).
  by match goal with H : nominalKind ?k = true |- _ => destruct k end.
Qed.

(** What can stand in a [Global]: a type without its [Type], which the demangler
    strips, and no name of a module, which it reads as an identifier. *)
Definition topLevel (n : Node) : Prop :=
  getKind n <> K_Type /\ getKind n <> K_TupleElementName /\ getKind n <> K_Module.

Lemma stackOf_topLevel n : topLevel n -> stackOf n = [if typeKind (getKind n) then typed n else n].
Proof. intros (_ & Ht & Hm). destruct n as [k p cs]. by destruct k. Qed.

Lemma Sim_start pfx st :
  Buffer st = pfx -> Words st = [] -> Substitutions st = [] -> SubstMerging st = noMerging -> Sim pfx st emptyView.
Proof.
  intros Hb Hw Hs Hm. split.
  - exists []. rewrite app_nil_r. split_and!; [done|apply run_nil|]. apply merge_closed. left. by rewrite Hm.
  - split; [|cbn; lia]. cbn [emptyView v_words]. unfold inBuffer. cbn. rewrite Hw. split; [done|apply Forall_nil_2].
  - by rewrite Hs.
  - rewrite Hs. apply Forall_nil_2.
Qed.

Lemma mangleGlobalChildren_nodes (mangle : Node -> RM unit) cs : forall before st,
  Forall mangleable cs -> mangleGlobalChildren mangle before cs false st = mangleNodes mangle cs st.
Proof.
  induction cs as [|c cs IH]; intros before st Hcs; [done|]. inversion_clear Hcs as [|? ? Hc Hcs'].
  cbn [mangleGlobalChildren mangleNodes]. destruct (mangleable_attribute c Hc) as [-> _].
  apply bind_ext. intros [] st1. by apply IH.
Qed.

(** What the remangler writes, with the demangler's view of it. *)
Lemma mangleNode_run cs :
  Forall mangleable cs ->
  exists buf v, mangleNode (Some (mkNode K_Global NoPayload cs)) = Ok (lit "$S" ++ buf)
    /\ run buf v /\ v_stack v = stacks cs.
Proof.
  intros Hcs. set (st := setBuffer (lit "$S") newRemangler).
  assert (Sim (lit "$S") st emptyView) as Hsim by by apply Sim_start.
  assert (writes (node_size (mkNode K_Global NoPayload cs))
    (mangleNodes (mangleWithFuel (2 * node_size (mkNode K_Global NoPayload cs))) cs) (stacks cs)) as Hw.
  { apply writes_nodes. apply List.Forall_forall. intros c Hin.
    pose proof (proj1 (List.Forall_forall _ _) Hcs c Hin) as Hc.
    pose proof (node_size_child K_Global NoPayload cs c Hin).
    eapply writes_weaken; [|apply writes_mangleable]; (done || lia). }
  destruct (Hw (lit "$S") st emptyView Hsim) as (st' & v' & new & Hm & [(buf & Hb & Hrun & _) _ _ _] & Hv & _).
  exists buf, v'. rewrite app_nil_r in Hv. split_and!; [|done|done].
  unfold mangleNode, mangle, mangle_fuel. rewrite Nat.add_1_r. cbn [mangleWithFuel].
  change (dispatch ?m ?u (mkNode K_Global NoPayload cs) newRemangler) with (mangleGlobalChildren m [] cs false st).
  by rewrite mangleGlobalChildren_nodes, Hm, Hb.
Qed.

Lemma addStackNodes_global cs : forall acc s,
  Forall topLevel cs ->
  addStackNodes (map (fun n => if typeKind (getKind n) then typed n else n) cs) (mkNode K_Global NoPayload acc) s
  = Ok (mkNode K_Global NoPayload (acc ++ cs), s).
Proof.
  induction cs as [|c cs IH]; intros acc s Hcs; [by rewrite app_nil_r|].
  inversion_clear Hcs as [|? ? Hc Hcs']. cbn [map addStackNodes].
  assert (forall Parent, (if Kind_eqb (getKind (if typeKind (getKind c) then typed c else c)) K_Type
    then x <- getFirstChild (if typeKind (getKind c) then typed c else c) ;; Parent x
    else Parent (if typeKind (getKind c) then typed c else c)) s = Parent c s) as ->.
  { intros Parent. destruct (typeKind (getKind c)) eqn:Hk; [done|].
    destruct Hc as [Hk' _]. by destruct (Kind_eqb_spec (getKind c) K_Type). }
  unfold nodeAddChild. cbn [getKind payload children]. rewrite IH by done. by rewrite <-app_assoc.
Qed.

Lemma stacks_topLevel cs :
  Forall topLevel cs -> reverse (stacks cs) = map (fun n => if typeKind (getKind n) then typed n else n) cs.
Proof.
  unfold stacks. induction 1 as [|c cs Hc _ IH]; [done|].
  rewrite reverse_cons, map_app, concat_app. cbn [map concat]. rewrite app_nil_r, reverse_app, IH.
  by rewrite stackOf_topLevel.
Qed.

(** The loop over the attributes stops at once. *)
Lemma while_funcAttrs st s :
  Forall (fun n => isFunctionAttr (getKind n) = false) (NodeStack s) ->
  while_ funcAttrs_step st s = Ok (st, s).
Proof.
  intros Hs. unfold while_, loop_fuel. rewrite Nat.add_comm. cbn [loop].
  assert (funcAttrs_step st s = Ok (inr st, s)) as He; [|by rewrite (bind_ok _ _ _ _ _ He)].
  destruct st as [outer Parent]. unfold funcAttrs_step.
  rewrite (bind_ok _ _ s None s); [done|]. unfold popNodeIf.
  destruct Hs as [|n l Hn _]; [done|]. by rewrite Hn.
Qed.

Lemma demangleSymbol_run buf v cs s :
  run buf v -> reverse (v_stack v) = map (fun n => if typeKind (getKind n) then typed n else n) cs ->
  Forall mangleable cs -> Forall topLevel cs -> cs <> [] -> Z.of_nat (length (lit "$S" ++ buf)) < 2 ^ 31 ->
  exists s', demangleSymbol (lit "$S" ++ buf) s = Ok (Some (mkNode K_Global NoPayload cs), s').
Proof.
  intros Hrun Hv Hcs Htop Hne Hlt. set (text := lit "$S" ++ buf).
  set (s1 := setPos 2 (setOld false (init text s))).
  assert (parseAndPushNodes s1 = Ok (true, setView v (advance (length buf) s1))) as Hparse.
  { apply run_parse; try done. change (2 <= 2 + length buf)%nat. lia. }
  set (s2 := setView v (advance (length buf) s1)) in *.
  assert (demangleSymbol text s = (ok <- parseAndPushNodes ;;
      if negb ok then ret None
      else
        r <- while_ funcAttrs_step ([], createNode K_Global) ;;
        let '(outer, Parent) := r in
        Nds <- gets (fun s => reverse (NodeStack s)) ;;
        Parent <- addStackNodes Nds Parent ;;
        let topLevel := closeParents outer Parent in
        if (getNumChildren topLevel =? 0)%nat then ret None else ret (Some topLevel)) s1) as -> by done.
  rewrite (bind_ok _ _ _ _ _ Hparse). cbn [negb].
  rewrite (bind_ok _ _ s2 ([], createNode K_Global) s2).
  2:{ apply while_funcAttrs. change (NodeStack s2) with (v_stack v). apply Forall_reverse. rewrite Hv.
      apply List.Forall_forall. intros x Hx. apply in_map_iff in Hx as (c & <- & Hc).
      pose proof (proj1 (List.Forall_forall _ _) Hcs c Hc) as [_ Ha]%mangleable_attribute.
      by destruct (typeKind (getKind c)). }
  rewrite (bind_ok (gets _) _ s2 (reverse (NodeStack s2)) s2 eq_refl).
  change (NodeStack s2) with (v_stack v). rewrite Hv.
  rewrite (bind_ok _ _ _ _ _ (addStackNodes_global cs [] s2 Htop)). exists s2. by destruct cs.
Qed.

(** What is mangled is read back by every demangler. *)
Lemma mangled_symbol_read cs :
  Forall mangleable cs -> Forall topLevel cs -> cs <> [] ->
  exists symbol, mangleNode (Some (mkNode K_Global NoPayload cs)) = Ok symbol
    /\ (Z.of_nat (length symbol) < 2 ^ 31 -> forall s,
          exists s', demangleSymbol symbol s = Ok (Some (mkNode K_Global NoPayload cs), s')).
Proof.
  intros Hcs Htop Hne. destruct (mangleNode_run cs Hcs) as (buf & v & Hm & Hrun & Hv).
  exists (lit "$S" ++ buf). split; [done|]. intros Hlt s.
  apply (demangleSymbol_run buf v); try done. by rewrite Hv, stacks_topLevel.
Qed.

(** C1. The demangler reads back every symbol of the fragment: the declarations,
    types and symbols of types of [mangleable] are mangled without a crash, and
    whatever a demangler was used for before, demangling the text, provided that
    its length fits into an [int], gives the same tree. The text may use words of
    earlier identifiers, substitutions, and runs of merged substitutions. *)
Theorem demangleSymbol_mangleNode cs :
  Forall mangleable cs -> Forall topLevel cs -> cs <> [] ->
  exists symbol, mangleNode (Some (mkNode K_Global NoPayload cs)) = Ok symbol
    /\ (Z.of_nat (length symbol) < 2 ^ 31 -> forall s,
          exists s', demangleSymbol symbol s = Ok (Some (mkNode K_Global NoPayload cs), s')).
Proof. apply mangled_symbol_read. Qed.

(** C2. The demangler reads back every type of the fragment: a type is mangled
    without a crash, and the mangling, provided that its length fits into an
    [int], is demangled as this type by a new demangler. *)
Theorem demangleType_mangleNode t :
  typeKind (getKind t) = true -> mangleable t ->
  exists text, mangleNode (Some (typed t)) = Ok text
    /\ (Z.of_nat (length text) < 2 ^ 31 ->
        exists s', demangleType text newDemangler = Ok (Some (typed t), s')).
Proof.
  intros Hk Ht. assert (Sim [] newRemangler emptyView) as Hsim by by apply Sim_start.
  destruct (writes_mangleable (mangle_fuel (typed t)) (typed t) (mangleable_type t Hk Ht) ltac:(unfold mangle_fuel; lia)
    [] newRemangler emptyView Hsim) as (st' & v & new & Hm & [(buf & Hb & Hrun & _) _ _ _] & Hv & _).
  exists buf. split; [unfold mangleNode, mangle; by rewrite Hm, Hb|]. intros Hlt.
  set (s1 := init buf newDemangler).
  assert (parseAndPushNodes s1 = Ok (true, setView v (advance (length buf) s1))) as Hparse.
  { by apply run_parse; [..|cbn; lia]. }
  unfold demangleType. rewrite (bind_ok (modify _) _ newDemangler tt s1 eq_refl), (bind_ok _ _ _ _ _ Hparse).
  eexists. unfold popNode. change (NodeStack (setView v _)) with (v_stack v). unfold bind at 1. cbn.
  by rewrite Hv.
Qed.

(** ** A symbol *)

(** A method in an extension: its names share words, its types are substituted,
    repeated and generic.
<<
    extension Views.ViewController {   // in ViewKit
      func makeController(view: ViewController, _: [Int]) throws -> ViewController?
    }
>> *)
Definition identifier (name : string) : Node := createNodeText K_Identifier (lit name).
Definition swiftType (k : Kind) (name : string) : Node :=
  mkNode k NoPayload [createNodeText K_Module STDLIB_NAME; identifier name].

Definition sampleClass : Node :=
  mkNode K_Class NoPayload [createNodeText K_Module (lit "Views"); identifier "ViewController"].
Definition sampleParameters : Node :=
  tupleType [mkElement false None sampleClass;
    mkElement false None (boundType (swiftType K_Structure "Array") [swiftType K_Structure "Int"])].
Definition sampleFunction : Node :=
  entityNode K_Function (mkNode K_Extension NoPayload [createNodeText K_Module (lit "ViewKit"); sampleClass])
    (identifier "makeController") (Some [identifier "view"; createNode K_FirstElementMarker])
    (functionType K_FunctionType true sampleParameters (optionalType sampleClass)).

Lemma identifier_mangleable name :
  lit name <> [] -> needsPunycodeEncoding (lit name) = false -> noDigit (lit name) -> mangleable (identifier name).
Proof. intros H1 H2 H3. apply mangleable_identifier. split; [done|]. by rewrite H2. Qed.

Lemma swiftType_mangleable k code name :
  In (k, code) nominalCodes -> mangleable (identifier name) -> standardOk (swiftType k name) ->
  mangleable (swiftType k name).
Proof.
  intros Hin Hname Hok. eapply mangleable_nominal; [exact Hin|..]; try done.
  apply mangleable_module. by left.
Qed.

Lemma sampleClass_mangleable : mangleable sampleClass.
Proof.
  apply (mangleable_nominal _ "C"); try done; [cbn; tauto| |by apply identifier_mangleable].
  apply mangleable_module. by right.
Qed.

Lemma sampleArray_mangleable :
  mangleable (boundType (swiftType K_Structure "Array") [swiftType K_Structure "Int"]).
Proof.
  apply mangleable_bound; try done.
  - apply (swiftType_mangleable _ "V"); [cbn; tauto|by apply identifier_mangleable|done].
  - apply Forall_cons_2; [|apply Forall_nil_2].
    apply (swiftType_mangleable _ "V"); [cbn; tauto|by apply identifier_mangleable|done].
  - by apply Forall_cons_2; [|apply Forall_nil_2].
Qed.

Lemma sampleFunction_mangleable : mangleable sampleFunction.
Proof.
  apply mangleable_function; try done.
  - apply mangleable_extension; try done; [|apply sampleClass_mangleable]. apply mangleable_module. by right.
  - by apply identifier_mangleable.
  - apply mangleable_tuple; repeat apply Forall_cons_2; try apply Forall_nil_2; try done;
      [apply sampleClass_mangleable|apply sampleArray_mangleable].
  - apply mangleable_optional; [done|apply sampleClass_mangleable].
  - repeat apply Forall_cons_2; try apply Forall_nil_2; [right; by exists (lit "view")|by left].
  - split_and!; try done.
    + repeat apply Forall_cons_2; by try apply Forall_nil_2.
    + by apply Exists_cons_hd.
Qed.

Lemma demangleSymbol_mangleNode_witness :
  exists s', demangleSymbol (lit "$S5Views14ViewControllerC0B3KitE04makeC04view_ACSgAC_SaySiGtKF") newDemangler
    = Ok (Some (mkNode K_Global NoPayload [sampleFunction]), s').
Proof.
  destruct (demangleSymbol_mangleNode [sampleFunction]) as (symbol & Hm & H).
  - apply Forall_cons_2; [exact sampleFunction_mangleable|apply Forall_nil_2].
  - apply Forall_cons_2; [by split|apply Forall_nil_2].
  - discriminate.
  - vm_compute in Hm. injection Hm as <-. apply (H eq_refl newDemangler).
Defined.

Lemma demangleType_mangleNode_witness :
  exists s', demangleType (lit "SaySiG") newDemangler
    = Ok (Some (typed (boundType (swiftType K_Structure "Array") [swiftType K_Structure "Int"])), s').
Proof.
  destruct (demangleType_mangleNode (boundType (swiftType K_Structure "Array") [swiftType K_Structure "Int"]))
    as (text & Hm & H).
  - reflexivity.
  - exact sampleArray_mangleable.
  - vm_compute in Hm. injection Hm as <-. apply (H eq_refl).
Defined.
