(* ===== verification/NodePrinter.v ===== *)
(** * The node printer

    The class [NodePrinter] of NodePrinter.cpp, which turns a demangling tree
    into text. The class's members are the state of the monad [PM]; the options
    and [demangleSymbolAsString], which the printer calls for the names inside
    specializations, are parameters of the section. [print] calls itself on
    parts of its node, and on the context that an entity could not be printed
    behind; it is open in the section, and tied with fuel at the end. *)

From Stdlib Require Import String.
From S2P Require Import Prelude Nodes ManglingUtils Demangler.

(** ** Options *)

Record DemangleOptions := mkOptions {
  SynthesizeSugarOnTypes : bool;
  DisplayDebuggerGeneratedModule : bool;
  QualifyEntities : bool;
  DisplayExtensionContexts : bool;
  DisplayUnmangledSuffix : bool;
  DisplayModuleNames : bool;
  DisplayGenericSpecializations : bool;
  DisplayProtocolConformances : bool;
  DisplayWhereClauses : bool;
  DisplayEntityTypes : bool;
  ShortenPartialApply : bool;
  ShortenThunk : bool;
  ShortenValueWitness : bool;
  ShortenArchetype : bool;
  ShowPrivateDiscriminators : bool;
  ShowFunctionArgumentTypes : bool
}.

(** The constructor [DemangleOptions()]. *)
Definition defaultDemangleOptions : DemangleOptions :=
  mkOptions false true true true true true true true true true false false false false true true.

Definition SimplifiedUIDemangleOptions : DemangleOptions :=
  mkOptions true true true false false false false false false false true true true true false false.

(** ** The state *)

Record NodePrinter := mkPrinter {
  Printer : str;
  SpecializationPrefixPrinted : bool;
  isValid : bool
}.

Abbreviation PM := (M NodePrinter).

Definition newNodePrinter : NodePrinter := mkPrinter [] false true.

(** [Printer << value], for a [StringRef] and for a string literal. *)
Definition print_str (value : str) : PM unit :=
  modify (fun p => mkPrinter (Printer p ++ value) (SpecializationPrefixPrinted p) (isValid p)).
Definition print_lit (value : string) : PM unit := print_str (lit value).
(** [Printer << n] for unsigned and signed numbers. *)
Definition print_unsigned (n : Z) : PM unit := print_str (decimal n).
Definition print_signed (n : Z) : PM unit := print_str (decimal_signed n).

Definition setInvalid : PM unit :=
  modify (fun p => mkPrinter (Printer p) (SpecializationPrefixPrinted p) false).
Definition setSpecializationPrefixPrinted : PM unit :=
  modify (fun p => mkPrinter (Printer p) true (isValid p)).

Definition printer_unreachable {A} (Message : string) : PM A := fail (Unreachable Message).

(** ** Names *)

(** The [do ... while (index)] of [archetypeName]; a [uint64_t] has at most
    fourteen digits in base 26. *)
Fixpoint archetypeLetters (fuel : nat) (index : Z) : str :=
  match fuel with
  | O => []
  | S fuel =>
      let rest := index / 26 in
      chr (ord "A" + index mod 26) :: (if rest =? 0 then [] else archetypeLetters fuel rest)
  end.

Definition archetypeName (index depth : Z) : str :=
  archetypeLetters 14 index ++ (if depth =? 0 then [] else decimal depth).

(** [Hexdigit[i]], where [i] is an [int] that is not checked. *)
Definition Hexdigit (i : Z) : PM ascii :=
  if (0 <=? i) && (i <? 16) then ret (default NUL (lit "0123456789ABCDEF" !! Z.to_nat i))
  else fail (OutOfRange "QuotedString: Hexdigit").

(** The value of a [char], which is signed. *)
Definition signed_char (c : ascii) : Z := if ord c <? 128 then ord c else ord c - 256.

(** One round of the loop over [QS.Value]. *)
Definition printQuotedChar (C : ascii) : PM unit :=
  if Ascii.eqb C "\" then print_lit "\\"
  else if ord C =? 9 then print_lit "\t"
  else if ord C =? 10 then print_lit "\n"
  else if ord C =? 13 then print_lit "\r"
  else if ord C =? 34 then print_str ["\"%char; C]
  else if ord C =? 39 then print_str [C]
  else if ord C =? 0 then print_lit "\0"
  else
    let c := signed_char C in
    if (c <? 0x20) || (c =? 0x7F) then
      h <- Hexdigit (Z.shiftr c 4) ;;
      l <- Hexdigit (Z.land c 0xF) ;;
      _ <- print_lit "\x" ;; _ <- print_str [h] ;; print_str [l]
    else print_str [C].

Fixpoint printQuotedChars (Value : str) : PM unit :=
  match Value with
  | [] => ret tt
  | C :: Value => _ <- printQuotedChar C ;; printQuotedChars Value
  end.

(** [Printer << QuotedString(Value)] *)
Definition printQuotedString (Value : str) : PM unit :=
  _ <- print_str [chr 34] ;; _ <- printQuotedChars Value ;; print_str [chr 34].

(** [toString(Directness)]; the enumerations have the type [int]. *)
Definition directnessString (d : Z) : PM string :=
  if d =? Directness_Direct then ret "direct"%string
  else if d =? Directness_Indirect then ret "indirect"%string
  else printer_unreachable "bad directness".

(** [toString(ValueWitnessKind)], in the order of the enumeration. *)
Definition valueWitnessNames : list string :=
  ["allocateBuffer"; "assignWithCopy"; "assignWithTake"; "deallocateBuffer"; "destroy"; "destroyBuffer";
   "destroyArray"; "initializeBufferWithCopyOfBuffer"; "initializeBufferWithCopy"; "initializeWithCopy";
   "initializeBufferWithTake"; "initializeWithTake"; "projectBuffer"; "initializeBufferWithTakeOfBuffer";
   "initializeArrayWithCopy"; "initializeArrayWithTakeFrontToBack"; "initializeArrayWithTakeBackToFront";
   "storeExtraInhabitant"; "getExtraInhabitantIndex"; "getEnumTag"; "destructiveProjectEnumData";
   "destructiveInjectEnumTag"; "getEnumTagSinglePayload"; "storeEnumTagSinglePayload"]%string.

Definition valueWitnessString (k : Z) : PM string :=
  match valueWitnessNames !! Z.to_nat k with
  | Some name => if 0 <=? k then ret name else printer_unreachable "bad value witness kind"
  | None => printer_unreachable "bad value witness kind"
  end.

(** ** Kinds of nodes *)

Inductive SugarType := Sugar_None | Sugar_Optional | Sugar_ImplicitlyUnwrappedOptional | Sugar_Array | Sugar_Dictionary.

Inductive TypePrinting := NoType | WithColon | FunctionStyle.

Definition isSwiftModule (node : Node) : PM bool :=
  if Kind_eqb (getKind node) K_Module then t <- getText node ;; ret (str_eqb t STDLIB_NAME) else ret false.

Definition isIdentifier (node : Node) (desired : string) : PM bool :=
  if Kind_eqb (getKind node) K_Identifier then t <- getText node ;; ret (str_eqb t (lit desired)) else ret false.

(** [LLDB_EXPRESSIONS_MODULE_NAME_PREFIX] *)
Definition LLDB_EXPRESSIONS_MODULE_NAME_PREFIX : str := lit "__lldb_expr_".

Definition isSimpleType (Node : Node) : PM bool :=
  match getKind Node with
  | K_AssociatedType | K_AssociatedTypeRef | K_BoundGenericClass | K_BoundGenericEnum | K_BoundGenericStructure
  | K_BuiltinTypeName | K_Class | K_DependentGenericType | K_DependentMemberType | K_DependentGenericParamType
  | K_DynamicSelf | K_Enum | K_ErrorType | K_ExistentialMetatype | K_Metatype | K_MetatypeRepresentation | K_Module
  | K_Tuple | K_Protocol | K_QualifiedArchetype | K_ReturnType | K_SILBoxType | K_SILBoxTypeWithLayout | K_Structure
  | K_TupleElementName | K_Type | K_TypeAlias | K_TypeList | K_LabelList => ret true
  | K_ProtocolList => c <- getChild Node 0 ;; ret (getNumChildren c <=? 1)%nat
  | K_ProtocolListWithAnyObject =>
      c <- getChild Node 0 ;; c <- getChild c 0 ;; ret (getNumChildren c =? 0)%nat
  | _ => ret false
  end.

(** The [&&] of the conditions on a sugared type. *)
Definition isSugar (unboundType typeArgs : Node) (name : string) (args : nat) : PM bool :=
  c <- getChild unboundType 1 ;;
  named <- isIdentifier c name ;;
  if (named : bool) && (getNumChildren typeArgs =? args)%nat then
    m <- getChild unboundType 0 ;; isSwiftModule m
  else ret false.

(** [findSugar] of a node that is no [Type] with one child. *)
Definition findBoundSugar (Node : Node) : PM SugarType :=
  if negb (getNumChildren Node =? 2)%nat then ret Sugar_None
  else if negb (Kind_eqb (getKind Node) K_BoundGenericEnum) && negb (Kind_eqb (getKind Node) K_BoundGenericStructure)
  then ret Sugar_None
  else
    c <- getChild Node 0 ;;
    unboundType <- getChild c 0 ;;
    typeArgs <- getChild Node 1 ;;
    if Kind_eqb (getKind Node) K_BoundGenericEnum then
      b <- isSugar unboundType typeArgs "Optional" 1 ;;
      if (b : bool) then ret Sugar_Optional
      else
        b <- isSugar unboundType typeArgs "ImplicitlyUnwrappedOptional" 1 ;;
        ret (if (b : bool) then Sugar_ImplicitlyUnwrappedOptional else Sugar_None)
    else
      _ <- assert "findSugar" (Kind_eqb (getKind Node) K_BoundGenericStructure) ;;
      b <- isSugar unboundType typeArgs "Array" 1 ;;
      if (b : bool) then ret Sugar_Array
      else
        b <- isSugar unboundType typeArgs "Dictionary" 2 ;;
        ret (if (b : bool) then Sugar_Dictionary else Sugar_None).

Fixpoint findSugar (Node : Node) : PM SugarType :=
  match Node with
  | mkNode K_Type _ [c] => findSugar c
  | _ => findBoundSugar Node
  end.

Definition isExistentialType (node : Node) : bool :=
  match getKind node with
  | K_ExistentialMetatype | K_ProtocolList | K_ProtocolListWithClass | K_ProtocolListWithAnyObject => true
  | _ => false
  end.

Definition isClassType (Node : Node) : bool := Kind_eqb (getKind Node) K_Class.

Fixpoint needSpaceBeforeType (Type_ : Node) : PM bool :=
  match Type_ with
  | mkNode kind _ cs =>
      match kind with
      | K_Type =>
          match cs with
          | c :: _ => needSpaceBeforeType c
          | [] => fail (AssertionFailed "Node::getFirstChild")
          end
      | K_FunctionType | K_UncurriedFunctionType | K_DependentGenericType => ret false
      | _ => ret true
      end
  end.

(** The [while] of [printEntity] over generic types. *)
Fixpoint skipGenericTypes (t : Node) : PM Node :=
  match t with
  | mkNode K_DependentGenericType _ cs =>
      match cs with
      | _ :: mkNode _ _ (c :: _) :: _ => skipGenericTypes c
      | _ => fail (AssertionFailed "Node::getChild")
      end
  | _ => ret t
  end.

(** [getChildIf] and [getFirstChildOfKind] *)
Definition getChildIf (Node : Node) (kind : Kind) : NodePointer :=
  find (fun child => Kind_eqb (getKind child) kind) (children Node).

Section print.
Context (Options : DemangleOptions).
(** [demangleSymbolAsString(text)] with the default options. *)
Variable demangleSymbolAsString : str -> outcome str.
(** [print(Node, asPrefixContext)], defined below. *)
Variable print : Node -> bool -> PM NodePointer.

(** [print(Node);] *)
Definition printNode (Node : Node) : PM unit := _ <- print Node false ;; ret tt.

(** [print(Node->getChild(i));] *)
Definition printChild (Node : Node) (i : nat) : PM unit := c <- getChild Node i ;; printNode c.

Definition printDemangledName (text : str) : PM unit := fun s =>
  match demangleSymbolAsString text with
  | Ok demangledName =>
      print_str (match demangledName with [] => text | _ => demangledName end) s
  | Crash c => Crash c
  end.

(** [printChildren(begin, end, sep)]: no separator is the empty one. *)
Fixpoint printNodes (nodes : list Node) (sep : string) : PM unit :=
  match nodes with
  | [] => ret tt
  | n :: nodes =>
      _ <- printNode n ;;
      _ <- when (negb (length nodes =? 0)%nat) (print_lit sep) ;;
      printNodes nodes sep
  end.

Definition printChildren (Node : Node) (sep : string) : PM unit := printNodes (children Node) sep.

Definition printBoundGenericNoSugar (Node : Node) : PM unit :=
  if (getNumChildren Node <? 2)%nat then ret tt
  else
    typelist <- getChild Node 1 ;;
    _ <- printChild Node 0 ;;
    _ <- print_lit "<" ;; _ <- printChildren typelist ", " ;; print_lit ">".

Definition printContext (Context : Node) : PM bool :=
  if negb (QualifyEntities Options) then ret false
  else if Kind_eqb (getKind Context) K_Module then
    text <- getText Context ;;
    if startswith text LLDB_EXPRESSIONS_MODULE_NAME_PREFIX
    then ret (DisplayDebuggerGeneratedModule Options) else ret true
  else ret true.

(** A type in parentheses, unless it is simple. *)
Definition printTypeInParens (type : Node) : PM unit :=
  simple <- isSimpleType type ;;
  let needs_parens := negb simple in
  _ <- when needs_parens (print_lit "(") ;;
  _ <- printNode type ;;
  when needs_parens (print_lit ")").

Definition printBoundGeneric (Node : Node) : PM unit :=
  if (getNumChildren Node <? 2)%nat then ret tt
  else if negb (getNumChildren Node =? 2)%nat then printBoundGenericNoSugar Node
  else if negb (SynthesizeSugarOnTypes Options) || Kind_eqb (getKind Node) K_BoundGenericClass
  then printBoundGenericNoSugar Node
  else
    sugarType <- findSugar Node ;;
    match sugarType with
    | Sugar_None => printBoundGenericNoSugar Node
    | Sugar_Optional | Sugar_ImplicitlyUnwrappedOptional =>
        args <- getChild Node 1 ;;
        type <- getChild args 0 ;;
        _ <- printTypeInParens type ;;
        print_lit (match sugarType with Sugar_Optional => "?" | _ => "!" end)
    | Sugar_Array =>
        args <- getChild Node 1 ;;
        type <- getChild args 0 ;;
        _ <- print_lit "[" ;; _ <- printNode type ;; print_lit "]"
    | Sugar_Dictionary =>
        args <- getChild Node 1 ;;
        keyType <- getChild args 0 ;;
        valueType <- getChild args 1 ;;
        _ <- print_lit "[" ;; _ <- printNode keyType ;; _ <- print_lit " : " ;;
        _ <- printNode valueType ;; print_lit "]"
    end.

(** ** Functions *)

(** [getLabelFor(Param, Index)] *)
Definition getLabelFor (LabelList : Node) (Index : nat) : PM str :=
  Label <- getChild LabelList Index ;;
  _ <- assert "getLabelFor"
         (Kind_eqb (getKind Label) K_Identifier || Kind_eqb (getKind Label) K_FirstElementMarker) ;;
  if Kind_eqb (getKind Label) K_Identifier then getText Label else ret (lit "_").

(** The function that is called for each [Param]; [hasLabels] holds the labels
    when there are some. *)
Definition printParameter (hasLabels : NodePointer) (showTypes : bool) (ParamIndex : nat) (Param : Node) : PM unit :=
  _ <- assert "printFunctionParameters: TupleElement" (Kind_eqb (getKind Param) K_TupleElement) ;;
  _ <- match hasLabels with
       | Some LabelList =>
           Label <- getLabelFor LabelList ParamIndex ;; _ <- print_str Label ;; print_lit ":"
       | None =>
           if negb showTypes then
             match getChildIf Param K_TupleElementName with
             | Some Label => text <- getText Label ;; _ <- print_str text ;; print_lit ":"
             | None => print_lit "_:"
             end
           else ret tt
       end ;;
  _ <- when (isSome hasLabels && showTypes) (print_lit " ") ;;
  when showTypes (printNode Param).

(** [interleave] over the parameters. *)
Fixpoint printParameters (hasLabels : NodePointer) (showTypes : bool) (ParamIndex : nat) (Params : list Node) : PM unit :=
  match Params with
  | [] => ret tt
  | Param :: Params =>
      _ <- when (0 <? ParamIndex)%nat (print_lit (if showTypes then ", " else "")) ;;
      _ <- printParameter hasLabels showTypes ParamIndex Param ;;
      printParameters hasLabels showTypes (ParamIndex + 1) Params
  end.

Definition printFunctionParameters (LabelList : NodePointer) (ParameterType : Node) (showTypes : bool) : PM unit :=
  if negb (Kind_eqb (getKind ParameterType) K_ArgumentTuple) then setInvalid
  else
    Parameters <- getFirstChild ParameterType ;;
    _ <- assert "printFunctionParameters: Type" (Kind_eqb (getKind Parameters) K_Type) ;;
    Parameters <- getFirstChild Parameters ;;
    if negb (Kind_eqb (getKind Parameters) K_Tuple) then
      if showTypes then _ <- print_lit "(" ;; _ <- printNode Parameters ;; print_lit ")"
      else print_lit "(_:)"
    else
      let hasLabels :=
        match LabelList with
        | Some labels => if (0 <? getNumChildren labels)%nat then LabelList else None
        | None => None
        end in
      _ <- print_lit "(" ;;
      _ <- printParameters hasLabels showTypes 0 (children Parameters) ;;
      print_lit ")".

Definition printFunctionType (LabelList : NodePointer) (node : Node) : PM unit :=
  if negb (getNumChildren node =? 2)%nat && negb (getNumChildren node =? 3)%nat then setInvalid
  else
    first <- getChild node 0 ;;
    let startIndex := if Kind_eqb (getKind first) K_ThrowsAnnotation then 1%nat else 0%nat in
    parameters <- getChild node startIndex ;;
    _ <- printFunctionParameters LabelList parameters (ShowFunctionArgumentTypes Options) ;;
    if negb (ShowFunctionArgumentTypes Options) then ret tt
    else
      _ <- when (startIndex =? 1)%nat (print_lit " throws") ;;
      printChild node (startIndex + 1).

(** The [enum State] of [printImplFunctionType] as a number. *)
Definition Attrs : nat := 0.
Definition Inputs : nat := 1.
Definition Results : nat := 2.

Fixpoint transitions (n curState : nat) : PM unit :=
  match n with
  | O => ret tt
  | S n =>
      _ <- (if (curState =? Attrs)%nat then print_lit "("
            else if (curState =? Inputs)%nat then print_lit ") -> ("
            else printer_unreachable "no state after Results") ;;
      transitions n (S curState)
  end.

Definition transitionTo (newState curState : nat) : PM unit :=
  _ <- assert "printImplFunctionType: transitionTo" (curState <=? newState)%nat ;;
  transitions (newState - curState) curState.

Fixpoint printImplChildren (nodes : list Node) (curState : nat) : PM nat :=
  match nodes with
  | [] => ret curState
  | child :: nodes =>
      match getKind child with
      | K_ImplParameter =>
          _ <- when (curState =? Inputs)%nat (print_lit ", ") ;;
          _ <- transitionTo Inputs curState ;;
          _ <- printNode child ;;
          printImplChildren nodes Inputs
      | K_ImplResult | K_ImplErrorResult =>
          _ <- when (curState =? Results)%nat (print_lit ", ") ;;
          _ <- transitionTo Results curState ;;
          _ <- printNode child ;;
          printImplChildren nodes Results
      | _ =>
          _ <- assert "printImplFunctionType: Attrs" (curState =? Attrs)%nat ;;
          _ <- printNode child ;;
          _ <- print_lit " " ;;
          printImplChildren nodes curState
      end
  end.

Definition printImplFunctionType (fn : Node) : PM unit :=
  curState <- printImplChildren (children fn) Attrs ;;
  _ <- transitionTo Results curState ;;
  print_lit ")".

(** ** Specializations *)

(** The loop over the types of a [ClosureProp]: [nodes] are the children from
    [Idx] on, and the result is the new [Idx]. *)
Fixpoint printClosureTypes (nodes : list Node) (Idx : nat) : PM nat :=
  match nodes with
  | [] => ret Idx
  | child :: nodes =>
      if negb (Kind_eqb (getKind child) K_Type) then ret Idx
      else
        _ <- printNode child ;;
        _ <- match nodes with n :: _ => when (hasText n) (print_lit ", ") | [] => ret tt end ;;
        printClosureTypes nodes (Idx + 1)
  end.

Definition printFunctionSigSpecializationParam (Node : Node) (Idx : nat) : PM nat :=
  firstChild <- getChild Node Idx ;;
  index <- getIndex firstChild ;;
  let V := wrap_u32 index in
  if (V =? BoxToValue) || (V =? BoxToStack) then
    _ <- printChild Node Idx ;; ret (Idx + 1)%nat
  else if (V =? ConstantPropFunction) || (V =? ConstantPropGlobal) then
    _ <- print_lit "[" ;; _ <- printChild Node Idx ;; _ <- print_lit " : " ;;
    c <- getChild Node (Idx + 1) ;;
    text <- getText c ;;
    _ <- printDemangledName text ;;
    _ <- print_lit "]" ;; ret (Idx + 2)%nat
  else if (V =? ConstantPropInteger) || (V =? ConstantPropFloat) then
    _ <- print_lit "[" ;; _ <- printChild Node Idx ;; _ <- print_lit " : " ;;
    _ <- printChild Node (Idx + 1) ;; _ <- print_lit "]" ;; ret (Idx + 2)%nat
  else if V =? ConstantPropString then
    _ <- print_lit "[" ;; _ <- printChild Node Idx ;; _ <- print_lit " : " ;;
    _ <- printChild Node (Idx + 1) ;; _ <- print_lit "'" ;;
    _ <- printChild Node (Idx + 2) ;; _ <- print_lit "'" ;;
    _ <- print_lit "]" ;; ret (Idx + 3)%nat
  else if V =? ClosureProp then
    _ <- print_lit "[" ;; _ <- printChild Node Idx ;; _ <- print_lit " : " ;;
    _ <- printChild Node (Idx + 1) ;; _ <- print_lit ", Argument Types : [" ;;
    Idx <- printClosureTypes (drop (Idx + 2) (children Node)) (Idx + 2) ;;
    _ <- print_lit "]" ;; ret Idx
  else
    _ <- assert "Invalid OptionSet"
           (negb (Z.land V OwnedToGuaranteed =? 0) || negb (Z.land V SROA =? 0) || negb (Z.land V Dead =? 0)) ;;
    _ <- printChild Node Idx ;; ret (Idx + 1)%nat.

(** The [for] over the parameters after the first one; every round takes a
    child, so that their number is enough fuel. *)
Fixpoint printSpecializationParams (fuel : nat) (Node : Node) (Idx : nat) : PM unit :=
  if (Idx <? getNumChildren Node)%nat then
    match fuel with
    | O => fail OutOfFuel
    | S fuel =>
        _ <- print_lit " and " ;;
        Idx <- printFunctionSigSpecializationParam Node Idx ;;
        printSpecializationParams fuel Node Idx
    end
  else ret tt.

Fixpoint printSpecializationChildren (nodes : list Node) (ParamPrefix Separator : string) : PM unit :=
  match nodes with
  | [] => ret tt
  | c :: nodes =>
      match getKind c with
      | K_SpecializationPassID => printSpecializationChildren nodes ParamPrefix Separator
      | K_SpecializationIsFragile =>
          _ <- print_lit Separator ;; _ <- printNode c ;;
          printSpecializationChildren nodes ParamPrefix ", "
      | _ =>
          if hasChildren c then
            _ <- print_lit Separator ;; _ <- print_lit ParamPrefix ;; _ <- printNode c ;;
            printSpecializationChildren nodes ParamPrefix ", "
          else printSpecializationChildren nodes ParamPrefix Separator
      end
  end.

Definition printSpecializationPrefix (node : Node) (Description ParamPrefix : string) : PM unit :=
  if negb (DisplayGenericSpecializations Options) then
    printed <- gets SpecializationPrefixPrinted ;;
    if negb printed then _ <- print_lit "specialized " ;; setSpecializationPrefixPrinted else ret tt
  else
    _ <- print_lit Description ;; _ <- print_lit " <" ;;
    _ <- printSpecializationChildren (children node) ParamPrefix "" ;;
    print_lit "> of ".

(** The text of a [FunctionSignatureSpecializationParamKind]. *)
Definition printParamKind (raw : Z) : PM unit :=
  let dead := negb (Z.land raw Dead =? 0) in
  let owned := negb (Z.land raw OwnedToGuaranteed =? 0) in
  _ <- when dead (print_lit "Dead") ;;
  _ <- when owned (_ <- when dead (print_lit " and ") ;; print_lit "Owned To Guaranteed") ;;
  if negb (Z.land raw SROA =? 0) then
    _ <- when (dead || owned) (print_lit " and ") ;; print_lit "Exploded"
  else if dead || owned then ret tt
  else
    let k := wrap_u32 raw in
    if k =? BoxToValue then print_lit "Value Promoted from Box"
    else if k =? BoxToStack then print_lit "Stack Promoted from Box"
    else if k =? ConstantPropFunction then print_lit "Constant Propagated Function"
    else if k =? ConstantPropGlobal then print_lit "Constant Propagated Global"
    else if k =? ConstantPropInteger then print_lit "Constant Propagated Integer"
    else if k =? ConstantPropFloat then print_lit "Constant Propagated Float"
    else if k =? ConstantPropString then print_lit "Constant Propagated String"
    else if k =? ClosureProp then print_lit "Closure Propagated"
    else if (k =? Dead) || (k =? OwnedToGuaranteed) || (k =? SROA)
    then printer_unreachable "option sets should have been handled earlier"
    else ret tt.

(** ** Generic signatures *)

(** The [for] over the parameters of one depth: [n] are left. *)
Fixpoint printGenericParams (n : nat) (index depth : Z) : PM unit :=
  match n with
  | O => ret tt
  | S n =>
      _ <- when (negb (index =? 0)) (print_lit ", ") ;;
      _ <- print_str (archetypeName index depth) ;;
      printGenericParams n (index + 1) depth
  end.

(** The loop over the parameter counts: the result is the rest of the children. *)
Fixpoint printParamCounts (nodes : list Node) (depth : Z) : PM (list Node) :=
  match nodes with
  | [] => ret []
  | c :: nodes' =>
      if Kind_eqb (getKind c) K_DependentGenericParamCount then
        _ <- when (negb (depth =? 0)) (print_lit "><") ;;
        index <- getIndex c ;;
        _ <- printGenericParams (Z.to_nat (wrap_u32 index)) 0 depth ;;
        printParamCounts nodes' (depth + 1)
      else ret nodes
  end.

Definition printGenericSignature (Node : Node) : PM unit :=
  _ <- print_lit "<" ;;
  requirements <- printParamCounts (children Node) 0 ;;
  _ <- when (negb (length requirements =? 0)%nat && DisplayWhereClauses Options)
         (_ <- print_lit " where " ;; printNodes requirements ", ") ;;
  print_lit ">".

(** The name of a layout constraint. *)
Definition layoutName (c : ascii) : string :=
  switch c
    [ "U" ~> "_UnknownLayout"; "R" ~> "_RefCountedObject"; "N" ~> "_NativeRefCountedObject";
      "C" ~> "AnyObject"; "D" ~> "_NativeClass"; "T" ~> "_Trivial"; "E" ~> "_Trivial"; "e" ~> "_Trivial";
      "M" ~> "_TrivialAtMost"; "m" ~> "_TrivialAtMost" ]%string
    ""%string.

Definition printLayoutRequirement (Node : Node) : PM unit :=
  type <- getChild Node 0 ;;
  layout <- getChild Node 1 ;;
  _ <- printNode type ;;
  _ <- print_lit ": " ;;
  _ <- assert "DependentGenericLayoutRequirement: Identifier" (Kind_eqb (getKind layout) K_Identifier) ;;
  text <- getText layout ;;
  _ <- assert "DependentGenericLayoutRequirement: size" (length text =? 1)%nat ;;
  _ <- print_lit (layoutName (default NUL (head text))) ;;
  if (2 <? getNumChildren Node)%nat then
    _ <- print_lit "(" ;;
    _ <- printChild Node 2 ;;
    _ <- when (3 <? getNumChildren Node)%nat (_ <- print_lit ", " ;; printChild Node 3) ;;
    print_lit ")"
  else ret tt.

(** ** Entities *)

(** The lambda [printEntityType(type)]. *)
Definition printEntityType (Entity type : Node) : PM unit :=
  match getChildIf Entity K_LabelList with
  | Some labelList =>
      type <-
        (if Kind_eqb (getKind type) K_DependentGenericType then
           _ <- printChild type 0 ;;
           dependentType <- getChild type 1 ;;
           space <- needSpaceBeforeType dependentType ;;
           _ <- when space (print_lit " ") ;;
           getFirstChild dependentType
         else ret type) ;;
      printFunctionType (Some labelList) type
  | None => printNode type
  end.

(** The name of an entity, which may be private. *)
Definition printEntityName (Entity : Node) : PM unit :=
  Name <- getChild Entity 1 ;;
  _ <- when (negb (Kind_eqb (getKind Name) K_PrivateDeclName)) (printNode Name) ;;
  match getChildIf Entity K_PrivateDeclName with
  | Some PrivateName => printNode PrivateName
  | None => ret tt
  end.

Definition isFunctionKind (k : Kind) : bool :=
  match k with
  | K_FunctionType | K_UncurriedFunctionType | K_CFunctionPointer | K_ThinFunctionType => true
  | _ => false
  end.

(** The context in prefix form: the result is what is left to be printed. *)
Definition printEntityContext (Context : Node) (MultiWordName : bool) : PM NodePointer :=
  print_ <- printContext Context ;;
  if negb print_ then ret None
  else if MultiWordName then ret (Some Context)
  else
    CurrentPos <- gets (fun p => length (Printer p)) ;;
    PostfixContext <- print Context true ;;
    Pos <- gets (fun p => length (Printer p)) ;;
    _ <- when (negb (Pos =? CurrentPos)%nat) (print_lit ".") ;;
    ret PostfixContext.

(** The name with [ExtraName] and [ExtraIndex]. *)
Definition printEntityNames (Entity : Node) (hasName MultiWordName : bool) (ExtraName : string) (ExtraIndex : Z)
    (OverwriteName : string) : PM unit :=
  let named := hasName || negb (String.eqb OverwriteName "") in
  let extra := negb (String.eqb ExtraName "") in
  ExtraName <-
    (if named then
       _ <- assert "Can't have a name and extra index" (ExtraIndex <? 0) ;;
       ExtraName <- (if extra && MultiWordName
                     then _ <- print_lit ExtraName ;; _ <- print_lit " of " ;; ret ""%string
                     else ret ExtraName) ;;
       CurrentPos <- gets (fun p => length (Printer p)) ;;
       _ <- (if negb (String.eqb OverwriteName "") then print_lit OverwriteName else printEntityName Entity) ;;
       Pos <- gets (fun p => length (Printer p)) ;;
       _ <- when (negb (Pos =? CurrentPos)%nat && negb (String.eqb ExtraName "")) (print_lit ".") ;;
       ret ExtraName
     else ret ExtraName) ;;
  if negb (String.eqb ExtraName "") then
    _ <- print_lit ExtraName ;; when (0 <=? ExtraIndex) (print_signed ExtraIndex)
  else ret tt.

(** The type of an entity: [false] when there is none and the tree is invalid. *)
Definition printEntityTypeAs (Entity : Node) (TypePr : TypePrinting) (MultiWordName : bool) : PM bool :=
  _ <- assert "malformed entity" (isSome (getChildIf Entity K_Type)) ;;
  match getChildIf Entity K_Type with
  | None => _ <- setInvalid ;; ret false
  | Some type =>
      type <- getChild type 0 ;;
      TypePr <-
        (match TypePr with
         | FunctionStyle =>
             t <- skipGenericTypes type ;;
             ret (if isFunctionKind (getKind t) then FunctionStyle else WithColon)
         | _ => ret TypePr
         end) ;;
      _ <- (match TypePr with
            | WithColon =>
                when (DisplayEntityTypes Options) (_ <- print_lit " : " ;; printEntityType Entity type)
            | _ =>
                space <- (if MultiWordName then ret true else needSpaceBeforeType type) ;;
                _ <- when space (print_lit " ") ;;
                printEntityType Entity type
            end) ;;
      ret true
  end.

Definition containsSpace (s : string) : bool := existsb (Ascii.eqb " ") (lit s).

Definition isNoType (TypePr : TypePrinting) : bool := match TypePr with NoType => true | _ => false end.

Definition printEntity (Entity : Node) (asPrefixContext : bool) (TypePr : TypePrinting) (hasName : bool)
    (ExtraName : string) (ExtraIndex : Z) (OverwriteName : string) : PM NodePointer :=
  local <- (if hasName then c <- getChild Entity 1 ;; ret (Kind_eqb (getKind c) K_LocalDeclName) else ret false) ;;
  let MultiWordName := containsSpace ExtraName || local in
  if asPrefixContext && (negb (isNoType TypePr) || MultiWordName) then ret (Some Entity)
  else
    Context <- getChild Entity 0 ;;
    PostfixContext <- printEntityContext Context MultiWordName ;;
    _ <- printEntityNames Entity hasName MultiWordName ExtraName ExtraIndex OverwriteName ;;
    valid <- (if isNoType TypePr then ret true else printEntityTypeAs Entity TypePr MultiWordName) ;;
    if negb valid then ret None
    else
      match PostfixContext with
      | Some context =>
          if negb asPrefixContext then
            _ <- print_lit (match getKind Entity with
                            | K_DefaultArgumentInitializer | K_Initializer => " of "
                            | _ => " in "
                            end) ;;
            _ <- printNode context ;;
            ret None
          else ret PostfixContext
      | None => ret None
      end.

Definition printAbstractStorage (Node : Node) (asPrefixContent : bool) (ExtraName : string) : PM NodePointer :=
  match getKind Node with
  | K_Variable => printEntity Node asPrefixContent WithColon true ExtraName (-1) ""
  | K_Subscript => printEntity Node asPrefixContent WithColon false ExtraName (-1) "subscript"
  | _ => printer_unreachable "Not an abstract storage node"
  end.

(** [printAbstractStorage(Node->getFirstChild(), asPrefixContext, ExtraName)] *)
Definition printAccessor (Node : Node) (asPrefixContext : bool) (ExtraName : string) : PM NodePointer :=
  c <- getFirstChild Node ;; printAbstractStorage c asPrefixContext ExtraName.

(** ** The kinds *)

(** [Printer << text; print(Node->getChild(0)); return nullptr;], which many
    kinds consist of; with a second part for two children. *)
Definition printPrefixed (text : string) (Node : Node) : PM NodePointer :=
  _ <- print_lit text ;; _ <- printChild Node 0 ;; ret None.

Definition printTwo (before : string) (first : nat) (between : string) (second : nat) (Node : Node) : PM NodePointer :=
  _ <- print_lit before ;; _ <- printChild Node first ;;
  _ <- print_lit between ;; _ <- printChild Node second ;; ret None.

(** The cases that only print. *)
Definition printed (m : PM unit) : PM NodePointer := _ <- m ;; ret None.

Definition printTextOf (Node : Node) : PM unit := text <- getText Node ;; print_str text.
Definition printIndexOf (Node : Node) : PM unit := index <- getIndex Node ;; print_unsigned index.

Definition printExtension (Node : Node) : PM unit :=
  _ <- assert "Extension expects 2 or 3 children."
         ((getNumChildren Node =? 2)%nat || (getNumChildren Node =? 3)%nat) ;;
  _ <- when (QualifyEntities Options && DisplayExtensionContexts Options)
         (_ <- print_lit "(extension in " ;;
          module <- getChild Node 0 ;; _ <- print module true ;;
          print_lit "):") ;;
  _ <- printChild Node 1 ;;
  when (getNumChildren Node =? 3)%nat (printChild Node 2).

Definition printClosure (Node : Node) (asPrefixContext : bool) (ExtraName : string) : PM NodePointer :=
  number <- getChild Node 1 ;;
  index <- getIndex number ;;
  printEntity Node asPrefixContext (if ShowFunctionArgumentTypes Options then FunctionStyle else NoType)
    false ExtraName (wrap_int (wrap_int index + 1)) "".

Definition printDefaultArgument (Node : Node) (asPrefixContext : bool) : PM NodePointer :=
  number <- getChild Node 1 ;;
  index <- getIndex number ;;
  printEntity Node asPrefixContext NoType false "default argument " (wrap_int index) "".

Definition printSuffix (Node : Node) : PM unit :=
  when (DisplayUnmangledSuffix Options)
    (_ <- print_lit " with unmangled suffix " ;; text <- getText Node ;; printQuotedString text).

Definition printTypeMangling (Node : Node) : PM unit :=
  first <- getChild Node 0 ;;
  if Kind_eqb (getKind first) K_LabelList then
    c <- getChild Node 1 ;; type <- getFirstChild c ;; printFunctionType (Some first) type
  else printNode first.

Definition printLocalDeclName (Node : Node) : PM unit :=
  _ <- printChild Node 1 ;;
  _ <- print_lit " #" ;;
  number <- getChild Node 0 ;;
  index <- getIndex number ;;
  print_unsigned (wrap_u64 (index + 1)).

Definition printPrivateDeclName (Node : Node) : PM unit :=
  if (1 <? getNumChildren Node)%nat then
    _ <- when (ShowPrivateDiscriminators Options) (print_lit "(") ;;
    _ <- printChild Node 1 ;;
    when (ShowPrivateDiscriminators Options)
      (_ <- print_lit " in " ;; c <- getChild Node 0 ;; _ <- printTextOf c ;; print_lit ")")
  else
    when (ShowPrivateDiscriminators Options)
      (_ <- print_lit "(in " ;; c <- getChild Node 0 ;; _ <- printTextOf c ;; print_lit ")").

Definition printTupleElement (Node : Node) : PM unit :=
  _ <- match getChildIf Node K_TupleElementName with
       | Some Label => _ <- printTextOf Label ;; print_lit ": "
       | None => ret tt
       end ;;
  match getChildIf Node K_Type with
  | None => fail (AssertionFailed "malformed Node::Kind::TupleElement")
  | Some Type_ =>
      _ <- printNode Type_ ;;
      when (isSome (getChildIf Node K_VariadicMarker)) (print_lit "...")
  end.

Definition printReturnType (Node : Node) : PM unit :=
  _ <- print_lit " -> " ;;
  if (getNumChildren Node =? 0)%nat then printTextOf Node else printChildren Node "".

(** The [for] over the conformances: [" with "] in front of the first one,
    [" and "] in front of the others. *)
Fixpoint printConformances (cs : list Node) (text : string) : PM unit :=
  match cs with
  | [] => ret tt
  | c :: cs => _ <- print_lit text ;; _ <- printNode c ;; printConformances cs " and "
  end.

Definition printGenericSpecializationParam (Node : Node) : PM unit :=
  _ <- printChild Node 0 ;; printConformances (drop 1 (children Node)) " with ".

Definition printSpecializationParam (Node : Node) : PM unit :=
  argNum <- getIndex Node ;;
  _ <- print_lit "Arg[" ;; _ <- print_unsigned argNum ;; _ <- print_lit "] = " ;;
  Idx <- printFunctionSigSpecializationParam Node 0 ;;
  printSpecializationParams (getNumChildren Node) Node Idx.

Definition printPartialApply (Node : Node) (name : string) : PM unit :=
  _ <- print_lit (if ShortenPartialApply Options then "partial apply" else name) ;;
  when (hasChildren Node) (_ <- print_lit " for " ;; c <- getFirstChild Node ;; printNode c).

Definition printKeyPathAccessor (Node : Node) (text : string) : PM unit :=
  _ <- print_lit text ;;
  _ <- printChild Node 0 ;;
  _ <- print_lit " : " ;;
  if (getNumChildren Node =? 2)%nat then printChild Node 1
  else _ <- printChild Node 1 ;; printChild Node 2.

Definition printKeyPathIndex (Node : Node) : PM unit :=
  _ <- print_lit "key path index " ;;
  _ <- print_lit (if Kind_eqb (getKind Node) K_KeyPathEqualsThunkHelper then "equality" else "hash") ;;
  _ <- print_lit " operator for " ;;
  _ <- assert "Node::getChild" (0 <? getNumChildren Node)%nat ;;
  lastChild <- getChild Node (getNumChildren Node - 1) ;;
  types <-
    (if Kind_eqb (getKind lastChild) K_DependentGenericSignature
     then _ <- printNode lastChild ;; ret (take (getNumChildren Node - 1) (children Node))
     else ret (children Node)) ;;
  _ <- print_lit "(" ;; _ <- printNodes types ", " ;; print_lit ")".

Definition printReabstractionThunk (Node : Node) : PM unit :=
  if ShortenThunk Options then
    _ <- print_lit "thunk for " ;;
    _ <- assert "Node::getChild" (2 <=? getNumChildren Node)%nat ;;
    printChild Node (getNumChildren Node - 2)
  else
    _ <- print_lit "reabstraction thunk " ;;
    _ <- when (Kind_eqb (getKind Node) K_ReabstractionThunkHelper) (print_lit "helper ") ;;
    let generics := getChildIf Node K_DependentGenericSignature in
    _ <- assert "ReabstractionThunk" (getNumChildren Node =? 2 + (if isSome generics then 1 else 0))%nat ;;
    _ <- match generics with
         | Some generics => _ <- printNode generics ;; print_lit " "
         | None => ret tt
         end ;;
    _ <- print_lit "from " ;;
    _ <- printChild Node (getNumChildren Node - 2) ;;
    _ <- print_lit " to " ;;
    printChild Node (getNumChildren Node - 1).

Definition printValueWitness (Node : Node) : PM unit :=
  index <- getIndex Node ;;
  name <- valueWitnessString (wrap_int index) ;;
  _ <- print_lit name ;;
  _ <- print_lit (if ShortenValueWitness Options then " for " else " value witness for ") ;;
  c <- getFirstChild Node ;;
  printNode c.

(** The representation of a metatype and its position. *)
Definition printMetatypeRepresentation (Node : Node) : PM nat :=
  if (getNumChildren Node =? 2)%nat then
    _ <- printChild Node 0 ;; _ <- print_lit " " ;; ret 1%nat
  else ret 0%nat.

Definition printMetatype (Node : Node) : PM unit :=
  Idx <- printMetatypeRepresentation Node ;;
  c <- getChild Node Idx ;;
  type <- getChild c 0 ;;
  _ <- printTypeInParens type ;;
  print_lit (if isExistentialType type then ".Protocol" else ".Type").

Definition printExistentialMetatype (Node : Node) : PM unit :=
  Idx <- printMetatypeRepresentation Node ;;
  _ <- printChild Node Idx ;;
  print_lit ".Type".

Definition printProtocolList (Node : Node) : PM unit :=
  type_list <- getChild Node 0 ;;
  if (getNumChildren type_list =? 0)%nat then print_lit "Any" else printChildren type_list " & ".

Definition printProtocolListWithClass (Node : Node) : PM unit :=
  if (getNumChildren Node <? 2)%nat then ret tt
  else
    protocols <- getChild Node 0 ;;
    _ <- printChild Node 1 ;;
    _ <- print_lit " & " ;;
    if (getNumChildren protocols <? 1)%nat then ret tt
    else type_list <- getChild protocols 0 ;; printChildren type_list " & ".

Definition printProtocolListWithAnyObject (Node : Node) : PM unit :=
  if (getNumChildren Node <? 1)%nat then ret tt
  else
    protocols <- getChild Node 0 ;;
    if (getNumChildren protocols <? 1)%nat then ret tt
    else
      type_list <- getChild protocols 0 ;;
      _ <- when (0 <? getNumChildren type_list)%nat
             (_ <- printChildren type_list " & " ;; print_lit " & ") ;;
      _ <- when (QualifyEntities Options) (print_lit "Swift.") ;;
      print_lit "AnyObject".

Definition printQualifiedArchetype (Node : Node) : PM unit :=
  if ShortenArchetype Options then print_lit "(archetype)"
  else if (getNumChildren Node <? 2)%nat then ret tt
  else
    number <- getChild Node 0 ;;
    decl_ctx <- getChild Node 1 ;;
    _ <- print_lit "(archetype " ;; _ <- printIndexOf number ;; _ <- print_lit " of " ;;
    _ <- printNode decl_ctx ;; print_lit ")".

Definition printProtocolConformance (Node : Node) : PM unit :=
  child0 <- getChild Node 0 ;;
  child1 <- getChild Node 1 ;;
  child2 <- getChild Node 2 ;;
  if (getNumChildren Node =? 4)%nat then
    _ <- print_lit "property behavior storage of " ;;
    _ <- printNode child2 ;; _ <- print_lit " in " ;; _ <- printNode child0 ;;
    _ <- print_lit " : " ;; printNode child1
  else
    _ <- printNode child0 ;;
    when (DisplayProtocolConformances Options)
      (_ <- print_lit " : " ;; _ <- printNode child1 ;; _ <- print_lit " in " ;; printNode child2).

Definition printDependentGenericType (Node : Node) : PM unit :=
  sig <- getChild Node 0 ;;
  depTy <- getChild Node 1 ;;
  _ <- printNode sig ;;
  space <- needSpaceBeforeType depTy ;;
  _ <- when space (print_lit " ") ;;
  printNode depTy.

Definition printSILBoxTypeWithLayout (Node : Node) : PM unit :=
  _ <- assert "SILBoxTypeWithLayout: children"
         ((getNumChildren Node =? 1)%nat || (getNumChildren Node =? 3)%nat) ;;
  layout <- getChild Node 0 ;;
  _ <- assert "SILBoxTypeWithLayout: SILBoxLayout" (Kind_eqb (getKind layout) K_SILBoxLayout) ;;
  if (getNumChildren Node =? 3)%nat then
    signature <- getChild Node 1 ;;
    _ <- assert "SILBoxTypeWithLayout: DependentGenericSignature"
           (Kind_eqb (getKind signature) K_DependentGenericSignature) ;;
    genericArgs <- getChild Node 2 ;;
    _ <- assert "SILBoxTypeWithLayout: TypeList" (Kind_eqb (getKind genericArgs) K_TypeList) ;;
    _ <- printNode signature ;; _ <- print_lit " " ;;
    _ <- printNode layout ;;
    _ <- print_lit " <" ;; _ <- printChildren genericArgs ", " ;; print_lit ">"
  else printNode layout.

(** The fields of a [SILBoxLayout], each with a space in front. *)
Fixpoint printFields (fields : list Node) (first : bool) : PM unit :=
  match fields with
  | [] => ret tt
  | field :: fields =>
      _ <- when (negb first) (print_lit ",") ;;
      _ <- print_lit " " ;; _ <- printNode field ;;
      printFields fields false
  end.

Definition printSILBoxField (Node : Node) : PM unit :=
  _ <- print_lit (if Kind_eqb (getKind Node) K_SILBoxImmutableField then "let " else "var ") ;;
  _ <- assert "SILBoxField: children" (getNumChildren Node =? 1)%nat ;;
  c <- getChild Node 0 ;;
  _ <- assert "SILBoxField: Type" (Kind_eqb (getKind c) K_Type) ;;
  printNode c.

(** The [switch (Node->getKind())] of [print]. *)
Definition printKind (Node : Node) (asPrefixContext : bool) : PM NodePointer :=
  match getKind Node with
  | K_Static => printPrefixed "static " Node
  | K_CurryThunk => printPrefixed "curry thunk of " Node
  | K_DispatchThunk => printPrefixed "dispatch thunk of " Node
  | K_OutlinedBridgedMethod =>
      printed (_ <- print_lit "outlined bridged method (" ;; _ <- printTextOf Node ;; print_lit ") of ")
  | K_OutlinedCopy => printPrefixed "outlined copy of " Node
  | K_OutlinedConsume => printPrefixed "outlined consume of " Node
  | K_OutlinedRetain => printPrefixed "outlined retain of " Node
  | K_OutlinedRelease => printPrefixed "outlined release of " Node
  | K_OutlinedInitializeWithTake => printPrefixed "outlined init with take of " Node
  | K_OutlinedInitializeWithCopy => printPrefixed "outlined init with copy of " Node
  | K_OutlinedAssignWithTake => printPrefixed "outlined assign with take of " Node
  | K_OutlinedAssignWithCopy => printPrefixed "outlined assign with copy of " Node
  | K_OutlinedDestroy => printPrefixed "outlined destroy of " Node
  | K_OutlinedVariable =>
      printed (_ <- print_lit "outlined variable #" ;; _ <- printIndexOf Node ;; print_lit " of ")
  | K_Directness =>
      printed (index <- getIndex Node ;; name <- directnessString (wrap_int index) ;;
               _ <- print_lit name ;; print_lit " ")
  | K_Extension => printed (printExtension Node)
  | K_Variable => printEntity Node asPrefixContext WithColon true "" (-1) ""
  | K_Function => printEntity Node asPrefixContext FunctionStyle true "" (-1) ""
  | K_Subscript => printEntity Node asPrefixContext FunctionStyle false "" (-1) "subscript"
  | K_GenericTypeParamDecl => printEntity Node asPrefixContext NoType true "" (-1) ""
  | K_ExplicitClosure => printClosure Node asPrefixContext "closure #"
  | K_ImplicitClosure => printClosure Node asPrefixContext "implicit closure #"
  | K_Global => printed (printChildren Node "")
  | K_Suffix => printed (printSuffix Node)
  | K_Initializer => printEntity Node asPrefixContext NoType false "variable initialization expression" (-1) ""
  | K_DefaultArgumentInitializer => printDefaultArgument Node asPrefixContext
  | K_DeclContext => printPrefixed "" Node
  | K_Type => printPrefixed "" Node
  | K_TypeMangling => printed (printTypeMangling Node)
  | K_Class | K_Structure | K_Enum | K_Protocol | K_TypeAlias =>
      printEntity Node asPrefixContext NoType true "" (-1) ""
  | K_LocalDeclName => printed (printLocalDeclName Node)
  | K_PrivateDeclName => printed (printPrivateDeclName Node)
  | K_Module => printed (when (DisplayModuleNames Options) (printTextOf Node))
  | K_Identifier => printed (printTextOf Node)
  | K_Index => printed (printIndexOf Node)
  | K_AutoClosureType => printed (_ <- print_lit "@autoclosure " ;; printFunctionType None Node)
  | K_ThinFunctionType => printed (_ <- print_lit "@convention(thin) " ;; printFunctionType None Node)
  | K_FunctionType | K_UncurriedFunctionType => printed (printFunctionType None Node)
  | K_ArgumentTuple => printed (printFunctionParameters None Node (ShowFunctionArgumentTypes Options))
  | K_Tuple => printed (_ <- print_lit "(" ;; _ <- printChildren Node ", " ;; print_lit ")")
  | K_TupleElement => printed (printTupleElement Node)
  | K_TupleElementName => printed (_ <- printTextOf Node ;; print_lit ": ")
  | K_ReturnType => printed (printReturnType Node)
  | K_Weak => printPrefixed "weak " Node
  | K_Unowned => printPrefixed "unowned " Node
  | K_Unmanaged => printPrefixed "unowned(unsafe) " Node
  | K_InOut => printPrefixed "inout " Node
  | K_Shared => printPrefixed "__shared " Node
  | K_NonObjCAttribute => printed (print_lit "@nonobjc ")
  | K_ObjCAttribute => printed (print_lit "@objc ")
  | K_DirectMethodReferenceAttribute => printed (print_lit "super ")
  | K_DynamicAttribute => printed (print_lit "dynamic ")
  | K_VTableAttribute => printed (print_lit "override ")
  | K_FunctionSignatureSpecialization =>
      printed (printSpecializationPrefix Node "function signature specialization" "")
  | K_GenericPartialSpecialization =>
      printed (printSpecializationPrefix Node "generic partial specialization" "Signature = ")
  | K_GenericPartialSpecializationNotReAbstracted =>
      printed (printSpecializationPrefix Node "generic not-reabstracted partial specialization" "Signature = ")
  | K_GenericSpecialization => printed (printSpecializationPrefix Node "generic specialization" "")
  | K_GenericSpecializationNotReAbstracted =>
      printed (printSpecializationPrefix Node "generic not re-abstracted specialization" "")
  | K_SpecializationIsFragile => printed (print_lit "preserving fragile attribute")
  | K_GenericSpecializationParam => printed (printGenericSpecializationParam Node)
  | K_FunctionSignatureSpecializationParam => printed (printSpecializationParam Node)
  | K_FunctionSignatureSpecializationParamPayload =>
      printed (text <- getText Node ;; printDemangledName text)
  | K_FunctionSignatureSpecializationParamKind => printed (raw <- getIndex Node ;; printParamKind raw)
  | K_SpecializationPassID => printed (printIndexOf Node)
  | K_BuiltinTypeName => printed (printTextOf Node)
  | K_Number => printed (printIndexOf Node)
  | K_InfixOperator => printed (_ <- printTextOf Node ;; print_lit " infix")
  | K_PrefixOperator => printed (_ <- printTextOf Node ;; print_lit " prefix")
  | K_PostfixOperator => printed (_ <- printTextOf Node ;; print_lit " postfix")
  | K_LazyProtocolWitnessTableAccessor =>
      printTwo "lazy protocol witness table accessor for type " 0 " and conformance " 1 Node
  | K_LazyProtocolWitnessTableCacheVariable =>
      printTwo "lazy protocol witness table cache variable for type " 0 " and conformance " 1 Node
  | K_ProtocolWitnessTableAccessor => printPrefixed "protocol witness table accessor for " Node
  | K_ProtocolWitnessTable => printPrefixed "protocol witness table for " Node
  | K_GenericProtocolWitnessTable => printPrefixed "generic protocol witness table for " Node
  | K_GenericProtocolWitnessTableInstantiationFunction =>
      printPrefixed "instantiation function for generic protocol witness table for " Node
  | K_VTableThunk => printTwo "vtable thunk for " 1 " dispatching to " 0 Node
  | K_ProtocolWitness => printTwo "protocol witness for " 1 " in conformance " 0 Node
  | K_PartialApplyForwarder => printed (printPartialApply Node "partial apply forwarder")
  | K_PartialApplyObjCForwarder => printed (printPartialApply Node "partial apply ObjC forwarder")
  | K_KeyPathGetterThunkHelper => printed (printKeyPathAccessor Node "key path getter for ")
  | K_KeyPathSetterThunkHelper => printed (printKeyPathAccessor Node "key path setter for ")
  | K_KeyPathEqualsThunkHelper | K_KeyPathHashThunkHelper => printed (printKeyPathIndex Node)
  | K_FieldOffset => printTwo "" 0 "field offset for " 1 Node
  | K_ReabstractionThunk | K_ReabstractionThunkHelper => printed (printReabstractionThunk Node)
  | K_MergedFunction => printed (when (negb (ShortenThunk Options)) (print_lit "merged "))
  | K_GenericTypeMetadataPattern => printPrefixed "generic type metadata pattern for " Node
  | K_Metaclass => printPrefixed "metaclass for " Node
  | K_ProtocolConformanceDescriptor => printPrefixed "protocol conformance descriptor for " Node
  | K_ProtocolDescriptor => printPrefixed "protocol descriptor for " Node
  | K_FullTypeMetadata => printPrefixed "full type metadata for " Node
  | K_TypeMetadata => printPrefixed "type metadata for " Node
  | K_TypeMetadataAccessFunction => printPrefixed "type metadata accessor for " Node
  | K_TypeMetadataLazyCache => printPrefixed "lazy cache variable for type metadata for " Node
  | K_AssociatedTypeMetadataAccessor => printTwo "associated type metadata accessor for " 1 " in " 0 Node
  | K_AssociatedTypeWitnessTableAccessor =>
      printed (_ <- print_lit "associated type witness table accessor for " ;; _ <- printChild Node 1 ;;
               _ <- print_lit " : " ;; _ <- printChild Node 2 ;; _ <- print_lit " in " ;; printChild Node 0)
  | K_ClassMetadataBaseOffset => printPrefixed "class metadata base offset for " Node
  | K_NominalTypeDescriptor => printPrefixed "nominal type descriptor for " Node
  | K_CoroutineContinuationPrototype => printPrefixed "coroutine continuation prototype for " Node
  | K_ValueWitness => printed (printValueWitness Node)
  | K_ValueWitnessTable => printPrefixed "value witness table for " Node
  | K_BoundGenericClass | K_BoundGenericStructure | K_BoundGenericEnum => printed (printBoundGeneric Node)
  | K_DynamicSelf => printed (print_lit "Self")
  | K_CFunctionPointer => printed (_ <- print_lit "@convention(c) " ;; printFunctionType None Node)
  | K_ObjCBlock => printed (_ <- print_lit "@convention(block) " ;; printFunctionType None Node)
  | K_SILBoxType => printPrefixed "@box " Node
  | K_Metatype => printed (printMetatype Node)
  | K_ExistentialMetatype => printed (printExistentialMetatype Node)
  | K_MetatypeRepresentation => printed (printTextOf Node)
  | K_AssociatedTypeRef =>
      printed (_ <- printChild Node 0 ;; _ <- print_lit "." ;; c <- getChild Node 1 ;; printTextOf c)
  | K_ProtocolList => printed (printProtocolList Node)
  | K_ProtocolListWithClass => printed (printProtocolListWithClass Node)
  | K_ProtocolListWithAnyObject => printed (printProtocolListWithAnyObject Node)
  | K_AssociatedType => ret None
  | K_QualifiedArchetype => printed (printQualifiedArchetype Node)
  | K_OwningAddressor => printAccessor Node asPrefixContext "owningAddressor"
  | K_OwningMutableAddressor => printAccessor Node asPrefixContext "owningMutableAddressor"
  | K_NativeOwningAddressor => printAccessor Node asPrefixContext "nativeOwningAddressor"
  | K_NativeOwningMutableAddressor => printAccessor Node asPrefixContext "nativeOwningMutableAddressor"
  | K_NativePinningAddressor => printAccessor Node asPrefixContext "nativePinningAddressor"
  | K_NativePinningMutableAddressor => printAccessor Node asPrefixContext "nativePinningMutableAddressor"
  | K_UnsafeAddressor => printAccessor Node asPrefixContext "unsafeAddressor"
  | K_UnsafeMutableAddressor => printAccessor Node asPrefixContext "unsafeMutableAddressor"
  | K_GlobalGetter => printAccessor Node asPrefixContext "getter"
  | K_Getter => printAccessor Node asPrefixContext "getter"
  | K_Setter => printAccessor Node asPrefixContext "setter"
  | K_MaterializeForSet => printAccessor Node asPrefixContext "materializeForSet"
  | K_WillSet => printAccessor Node asPrefixContext "willset"
  | K_DidSet => printAccessor Node asPrefixContext "didset"
  | K_Allocator =>
      c <- getChild Node 0 ;;
      printEntity Node asPrefixContext FunctionStyle false
        (if isClassType c then "__allocating_init" else "init") (-1) ""
  | K_Constructor =>
      printEntity Node asPrefixContext FunctionStyle (2 <? getNumChildren Node)%nat "init" (-1) ""
  | K_Destructor => printEntity Node asPrefixContext NoType false "deinit" (-1) ""
  | K_Deallocator =>
      c <- getChild Node 0 ;;
      printEntity Node asPrefixContext NoType false
        (if isClassType c then "__deallocating_deinit" else "deinit") (-1) ""
  | K_IVarInitializer => printEntity Node asPrefixContext NoType false "__ivar_initializer" (-1) ""
  | K_IVarDestroyer => printEntity Node asPrefixContext NoType false "__ivar_destroyer" (-1) ""
  | K_ProtocolConformance => printed (printProtocolConformance Node)
  | K_TypeList => printed (printChildren Node "")
  | K_LabelList => ret None
  | K_ImplEscaping => printed (print_lit "@escaping")
  | K_ImplConvention => printed (printTextOf Node)
  | K_ImplFunctionAttribute => printed (printTextOf Node)
  | K_ImplErrorResult => printed (_ <- print_lit "@error " ;; printChildren Node " ")
  | K_ImplParameter | K_ImplResult => printed (printChildren Node " ")
  | K_ImplFunctionType => printed (printImplFunctionType Node)
  | K_ErrorType => printed (print_lit "<ERROR TYPE>")
  | K_DependentPseudogenericSignature | K_DependentGenericSignature => printed (printGenericSignature Node)
  | K_DependentGenericParamCount =>
      printer_unreachable "should be printed as a child of a DependentGenericSignature"
  | K_DependentGenericConformanceRequirement => printTwo "" 0 ": " 1 Node
  | K_DependentGenericLayoutRequirement => printed (printLayoutRequirement Node)
  | K_DependentGenericSameTypeRequirement => printTwo "" 0 " == " 1 Node
  | K_DependentGenericParamType => printed (printTextOf Node)
  | K_DependentGenericType => printed (printDependentGenericType Node)
  | K_DependentMemberType => printTwo "" 0 "." 1 Node
  | K_DependentAssociatedTypeRef => printed (printTextOf Node)
  | K_ReflectionMetadataBuiltinDescriptor => printPrefixed "reflection metadata builtin descriptor " Node
  | K_ReflectionMetadataFieldDescriptor => printPrefixed "reflection metadata field descriptor " Node
  | K_ReflectionMetadataAssocTypeDescriptor => printPrefixed "reflection metadata associated type descriptor " Node
  | K_ReflectionMetadataSuperclassDescriptor => printPrefixed "reflection metadata superclass descriptor " Node
  | K_ThrowsAnnotation => printed (print_lit " throws ")
  | K_EmptyList => printed (print_lit " empty-list ")
  | K_FirstElementMarker => printed (print_lit " first-element-marker ")
  | K_VariadicMarker => printed (print_lit " variadic-marker ")
  | K_SILBoxTypeWithLayout => printed (printSILBoxTypeWithLayout Node)
  | K_SILBoxLayout =>
      printed (_ <- print_lit "{" ;; _ <- printFields (children Node) true ;; print_lit " }")
  | K_SILBoxImmutableField | K_SILBoxMutableField => printed (printSILBoxField Node)
  | K_AssocTypePath => printed (printChildren Node ".")
  end.
End print.

(** ** The recursion *)

Fixpoint printWithFuel (Options : DemangleOptions) (demangleSymbolAsString : str -> outcome str) (fuel : nat)
    (Node : Node) (asPrefixContext : bool) : PM NodePointer :=
  match fuel with
  | O => fail OutOfFuel
  | S fuel =>
      printKind Options demangleSymbolAsString
        (printWithFuel Options demangleSymbolAsString fuel) Node asPrefixContext
  end.

(** [printRoot(root)] on a new printer. *)
Definition printRoot (Options : DemangleOptions) (demangleSymbolAsString : str -> outcome str) (root : Node)
    : outcome str :=
  match printWithFuel Options demangleSymbolAsString (node_height root) root false newNodePrinter with
  | Ok (_, p) => Ok (if isValid p then Printer p else [])
  | Crash c => Crash c
  end.

Definition nodeToString (Options : DemangleOptions) (demangleSymbolAsString : str -> outcome str)
    (root : NodePointer) : outcome str :=
  match root with
  | None => Ok []
  | Some root => printRoot Options demangleSymbolAsString root
  end.
