(* ===== verification/PrinterSpecs.v ===== *)
(** * What the printer needs and what it returns

    The program logic for [NodePrinter]: a printing operation may crash only as
    [E] allows, whatever was printed before; the old remangler uses it too. With it, the termination of the
    printer on every tree whatsoever, well-formed or not. *)

From Stdlib Require Import String.
From S2P Require Import Prelude Nodes ManglingUtils Demangler NodePrinter.

(** ** The logic *)

Section rules.
Context {S : Type} (E : crash -> Prop).

(** [m] returns a value with [P] or crashes as [E] allows. *)
Definition prints {A} (m : M S A) (P : A -> Prop) : Prop := forall s, wp E m (fun a _ => P a) s.

Lemma prints_mono {A} (m : M S A) (P Q : A -> Prop) : prints m P -> (forall a, P a -> Q a) -> prints m Q.
Proof. intros Hm HPQ s. eapply wp_mono; [apply Hm|]. intros a s'. apply HPQ. Qed.

Lemma prints_ret {A} (a : A) (P : A -> Prop) : P a -> prints (ret a) P.
Proof. by intros ? s. Qed.

Lemma prints_bind {A B} (m : M S A) (k : A -> M S B) (P : A -> Prop) Q :
  prints m P -> (forall a, P a -> prints (k a) Q) -> prints (bind m k) Q.
Proof. intros Hm Hk s. apply wp_bind. eapply wp_mono; [apply Hm|]. intros a s' Ha. by apply Hk. Qed.

Lemma prints_fail {A} c (P : A -> Prop) : E c -> prints (fail c) P.
Proof. by intros ? s. Qed.

Lemma prints_gets {A} (f : S -> A) (P : A -> Prop) : (forall s, P (f s)) -> prints (gets f) P.
Proof. intros ? s. by apply wp_gets. Qed.

Lemma prints_modify f (P : unit -> Prop) : P tt -> prints (modify f) P.
Proof. by intros ? s. Qed.

Lemma prints_when b (m : M S unit) (P : unit -> Prop) : (b = true -> prints m P) -> P tt -> prints (when b m) P.
Proof. intros Hm Hp. destruct b; [by apply Hm|by apply prints_ret]. Qed.

Lemma prints_assert site b (P : unit -> Prop) : (b = false -> E (AssertionFailed site)) -> P tt -> prints (assert site b) P.
Proof. intros HE HP. destruct b; [by apply prints_ret|by apply prints_fail, HE]. Qed.
End rules.

#[global] Arguments prints {S} E {A} m P.

Section bind_rules.
Context {S : Type} (E : crash -> Prop).

Lemma prints_bind_ret {A B} (a : A) (k : A -> M S B) Q : prints E (k a) Q -> prints E (bind (ret a) k) Q.
Proof. done. Qed.

Lemma prints_bind_bind {A B C} (m : M S A) (k : A -> M S B) (l : B -> M S C) Q :
  prints E (bind m (fun a => bind (k a) l)) Q -> prints E (bind (bind m k) l) Q.
Proof. intros H s. unfold wp. rewrite bind_assoc. apply H. Qed.

Lemma prints_bind_fail {A B} c (k : A -> M S B) Q : E c -> prints E (bind (fail c) k) Q.
Proof. by intros ? s. Qed.

Lemma prints_unit {A} (m : M S unit) (k : unit -> M S A) Q :
  prints E m (fun _ => True) -> prints E (k tt) Q -> prints E (bind m k) Q.
Proof. intros Hm Hk. eapply prints_bind; [exact Hm|]. by intros [] _. Qed.
End bind_rules.

(** What [print] returns. *)
Definition returns (P : Node -> Prop) (r : NodePointer) : Prop := forall c, r = Some c -> P c.

Lemma returns_mono (P Q : Node -> Prop) r : (forall c, P c -> Q c) -> returns P r -> returns Q r.
Proof. intros H Hr c Hc. by apply H, Hr. Qed.

Lemma returns_none P : returns P None.
Proof. done. Qed.

Lemma returns_some (P : Node -> Prop) c : P c -> returns P (Some c).
Proof. by intros ? ? [= <-]. Qed.

Lemma getChildIf_In n k c : getChildIf n k = Some c -> In c (children n) /\ getKind c = k.
Proof. unfold getChildIf. intros H. apply List.find_some in H as [H1 H2%Kind_eqb_eq]. done. Qed.

(** The symbolic execution of a printing operation. The hints in [printer] are
    the operations that have a lemma and their conditions on nodes; [print_fail]
    closes what remains of a crash, and [print_side] the rest. *)
Create HintDb printer discriminated.
#[export] Hint Constants Opaque : printer.
#[export] Hint Resolve returns_none returns_some : printer.
Ltac print_spec := eauto with printer nocore.
Ltac print_fail := fail.
Ltac print_simpl := idtac.
Ltac print_side := first [done|assumption|print_spec].

(** A result that is known is replaced by what it is. *)
Ltac print_intro :=
  cbv beta; let a := fresh "a" in let H := fresh "H" in intros a H;
  lazymatch type of H with a = _ => subst a | _ => idtac end.

Ltac print_bind m :=
  lazymatch m with
  | ret _ => apply prints_bind_ret
  | bind _ _ => apply prints_bind_bind
  | if ?b then _ else _ => destruct b eqn:?
  | fail _ => apply prints_bind_fail; solve [print_fail]
  | printer_unreachable _ => apply prints_bind_fail; solve [print_fail]
  | gets _ => eapply (prints_bind _ _ _ (fun _ => True)); [by apply prints_gets|intros ? _]
  | _ =>
      lazymatch type of m with
      | M _ unit => apply prints_unit
      | M _ () => apply prints_unit
      | _ => first [eapply prints_bind; [solve [print_spec]|print_intro]
                   |lazymatch m with match ?x with _ => _ end => destruct x eqn:? end]
      end
  end.

Ltac print_step :=
  cbv beta zeta;
  repeat match goal with H : returns _ (Some ?c) |- _ => apply (fun H => H c eq_refl) in H; cbv beta in H end;
  print_simpl;
  try match goal with H : false = true |- _ => discriminate H | H : true = false |- _ => discriminate H end;
  lazymatch goal with
  | |- prints _ (bind ?m _) _ => print_bind m
  | |- prints _ (ret _) _ => apply prints_ret
  | |- prints _ (when _ _) _ => apply prints_when; [intros ?|]
  | |- prints _ (if ?b then _ else _) _ => destruct b eqn:?
  | |- prints _ (print_str _) _ => apply prints_modify
  | |- prints _ (print_lit _) _ => apply prints_modify
  | |- prints _ (print_unsigned _) _ => apply prints_modify
  | |- prints _ (print_signed _) _ => apply prints_modify
  | |- prints _ setInvalid _ => apply prints_modify
  | |- prints _ setSpecializationPrefixPrinted _ => apply prints_modify
  | |- prints _ (assert _ _) _ => apply prints_assert; [intros ?; solve [print_fail]|]
  | |- prints _ (fail _) _ => apply prints_fail; solve [print_fail]
  | |- prints _ (printer_unreachable _) _ => apply prints_fail; solve [print_fail]
  | |- prints _ _ _ =>
      first [eapply prints_mono; [solve [print_spec]|print_intro]
            |match goal with |- prints _ (match ?x with _ => _ end) _ => destruct x eqn:? end]
  | |- True => exact I
  | |- _ => solve [print_side]
  end.

Ltac prints := repeat print_step.

(** The parts that belong to one kind each. *)
Ltac unfold_part :=
  match goal with
  | |- context [printFunctionParameters] => unfold printFunctionParameters
  | |- context [printLayoutRequirement] => unfold printLayoutRequirement
  | |- context [printDependentGenericType] => unfold printDependentGenericType
  | |- context [printMetatype] => unfold printMetatype, printMetatypeRepresentation
  | |- context [printExistentialMetatype] => unfold printExistentialMetatype, printMetatypeRepresentation
  | |- context [printImplFunctionType] => unfold printImplFunctionType
  | |- context [printKeyPathAccessor] => unfold printKeyPathAccessor
  | |- context [printLocalDeclName] => unfold printLocalDeclName
  | |- context [printPartialApply] => unfold printPartialApply
  | |- context [printPrivateDeclName] => unfold printPrivateDeclName
  | |- context [printProtocolConformance] => unfold printProtocolConformance
  | |- context [printProtocolList] => unfold printProtocolList
  | |- context [printProtocolListWithClass] => unfold printProtocolListWithClass
  | |- context [printProtocolListWithAnyObject] => unfold printProtocolListWithAnyObject
  | |- context [printQualifiedArchetype] => unfold printQualifiedArchetype
  | |- context [printReabstractionThunk] => unfold printReabstractionThunk
  | |- context [printReturnType] => unfold printReturnType
  | |- context [printSILBoxTypeWithLayout] => unfold printSILBoxTypeWithLayout
  | |- context [printSILBoxField] => unfold printSILBoxField
  | |- context [printTupleElement] => unfold printTupleElement
  | |- context [printValueWitness] => unfold printValueWitness, valueWitnessString
  | |- context [printExtension] => unfold printExtension
  | |- context [printClosure] => unfold printClosure
  | |- context [printSuffix] => unfold printSuffix
  | |- context [printDefaultArgument] => unfold printDefaultArgument
  | |- context [printTypeMangling] => unfold printTypeMangling
  | |- context [printAccessor] => unfold printAccessor
  | |- context [directnessString] => unfold directnessString
  end.

(** ** The loops over nodes that may be printed *)

Section loops.
Context (E : crash -> Prop) (Options : DemangleOptions) (good : Node -> Prop).
Context (print : Node -> bool -> PM NodePointer).
Hypothesis Hprint : forall n b, good n -> prints E (print n b) (returns good).

Lemma prints_node n : good n -> prints E (printNode print n) (fun _ => True).
Proof. intros Hn. unfold printNode. eapply prints_bind; [by apply Hprint|]. intros ? _. prints. Qed.

#[local] Hint Resolve prints_node : printer.

Lemma prints_nodes ns sep : Forall good ns -> prints E (printNodes print ns sep) (fun _ => True).
Proof. induction 1; cbn [printNodes]; prints. Qed.

Lemma prints_fields ns first : Forall good ns -> prints E (printFields print ns first) (fun _ => True).
Proof. intros H. revert first. induction H; intros first; cbn [printFields]; prints. Qed.

Lemma prints_conformances ns text : Forall good ns -> prints E (printConformances print ns text) (fun _ => True).
Proof. intros H. revert text. induction H; intros text; cbn [printConformances]; prints. Qed.

(** A child of a specialization that is passed over, or printed. *)
Definition printedOrSkipped (c : Node) : Prop :=
  good c \/ children c = [] /\ getKind c <> K_SpecializationIsFragile.

Lemma prints_specializationChildren ns prefix sep :
  Forall printedOrSkipped ns -> prints E (printSpecializationChildren print ns prefix sep) (fun _ => True).
Proof.
  intros H. revert sep. induction H as [|c ns Hc H IH]; intros sep; cbn [printSpecializationChildren]; [prints|].
  unfold hasChildren, getNumChildren. destruct Hc as [Hc|[-> Hk]].
  - destruct (getKind c); prints.
  - cbn [length Nat.eqb negb]. destruct (getKind c); (done || prints).
Qed.

Lemma prints_specializationPrefix n description prefix :
  Forall printedOrSkipped (children n) ->
  prints E (printSpecializationPrefix Options print n description prefix) (fun _ => True).
Proof.
  intros H. unfold printSpecializationPrefix. pose proof (prints_specializationChildren _ prefix "" H). prints.
Qed.
End loops.

Lemma prints_genericParams E n index depth : prints E (printGenericParams n index depth) (fun _ => True).
Proof. revert index. induction n; intros index; cbn [printGenericParams]; prints. Qed.

(** ** Termination *)

(** The names that printing a tree demangles: the text of a payload, and the
    texts below a parameter of a specialization. *)
Definition ownText (n : Node) : list str := match payload n with TextPayload t => [t] | _ => [] end.

Fixpoint mentions (n : Node) : list str :=
  match n with
  | mkNode k _ cs =>
      match k with
      | K_FunctionSignatureSpecializationParamPayload => ownText n
      | K_FunctionSignatureSpecializationParam => concat (map ownText cs)
      | _ => []
      end ++ concat (map mentions cs)
  end.

(** The crash is one that [demangleSymbolAsString] raised for a name in [T], or
    the printer's own that is not the end of the fuel. *)
Definition terminates_with (dem : str -> outcome str) (T : str -> Prop) (c : crash) : Prop :=
  c <> OutOfFuel \/ exists t, T t /\ dem t = Crash c.

Lemma height_child n c : In c (children n) -> (node_height c < node_height n)%nat.
Proof.
  destruct n as [k p cs]. cbn. intros Hc.
  enough (node_height c <= list_max (map node_height cs))%nat by lia.
  assert (Forall (fun h => (h <= list_max (map node_height cs))%nat) (map node_height cs)) as H
    by by apply list_max_le.
  rewrite List.Forall_forall in H. apply H. by apply in_map.
Qed.

Lemma height_lookup n i c : children n !! i = Some c -> (node_height c < node_height n)%nat.
Proof. intros H. apply height_child, list_elem_of_In. by eapply list_elem_of_lookup_2. Qed.

(** A node below the height [h]. *)
Definition below (h : nat) (n : Node) : Prop := (node_height n <= h)%nat.

Lemma below_children h n : below (S h) n -> Forall (below h) (children n).
Proof. intros Hn. apply List.Forall_forall. intros c Hc%height_child. unfold below in *. lia. Qed.

Lemma below_S h n : below h n -> below (S h) n.
Proof. unfold below. lia. Qed.

Lemma below_child h k p cs c : below (S h) (mkNode k p cs) -> In c cs -> below h c.
Proof. intros Hn%below_children Hc. rewrite List.Forall_forall in Hn. by apply Hn. Qed.

(** A node further down than another one. *)
Definition within (c n : Node) : Prop := (node_height c < node_height n)%nat /\ incl (mentions c) (mentions n).

Lemma child_within n c : In c (children n) -> within c n.
Proof.
  intros Hc. split; [by apply height_child|]. destruct n as [k p cs]. cbn in *.
  intros t Ht. apply in_or_app. right. apply in_concat. exists (mentions c). split; [by apply in_map|done].
Qed.

Lemma within_lookup n i c : children n !! i = Some c -> within c n.
Proof. intros H. apply child_within, list_elem_of_In. by eapply list_elem_of_lookup_2. Qed.

Section termination.
Context (Options : DemangleOptions) (dem : str -> outcome str) (T : str -> Prop).
Abbreviation E := (terminates_with dem T).

(** A node below the height [h] that mentions names in [T] only. *)
Definition inside (h : nat) (n : Node) : Prop := below h n /\ Forall T (mentions n).

Lemma inside_within h n c : within c n -> inside (S h) n -> inside h c.
Proof.
  intros [Hh Hi] [Hb Ht]. split; [unfold below in *; lia|].
  rewrite List.Forall_forall in *. auto.
Qed.

Lemma inside_children h n : inside (S h) n -> Forall (inside h) (children n).
Proof. intros Hn. apply List.Forall_forall. intros c Hc. eapply inside_within; [by apply child_within|done]. Qed.

Lemma prints_getChild {S} n i : prints (S := S) E (getChild n i) (fun c => In c (children n)).
Proof.
  intros s. unfold wp, getChild. destruct (children n !! i) as [c|] eqn:H; cbn; [|by left].
  apply list_elem_of_In. by eapply list_elem_of_lookup_2.
Qed.

Lemma prints_getFirstChild {S} n : prints (S := S) E (getFirstChild n) (fun c => In c (children n)).
Proof.
  intros s. unfold wp, getFirstChild. destruct (children n) as [|c cs] eqn:H; cbn; [by left|by left].
Qed.

Lemma prints_getText {S} n : prints (S := S) E (getText n) (fun t => payload n = TextPayload t).
Proof. intros s. unfold wp, getText. destruct (payload n); (done || by left). Qed.

Lemma prints_getIndex {S} n : prints (S := S) E (getIndex n) (fun _ => True).
Proof. intros s. unfold wp, getIndex. destruct (payload n); (done || by left). Qed.

Lemma prints_demangledName t : T t -> prints E (printDemangledName dem t) (fun _ => True).
Proof. intros Ht s. unfold wp, printDemangledName. destruct (dem t) eqn:H; [done|]. right. by exists t. Qed.

#[local] Hint Resolve prints_getChild prints_getFirstChild prints_getText prints_getIndex
  prints_demangledName : printer.
Ltac print_fail ::= left; discriminate.

Lemma prints_Hexdigit i : prints E (Hexdigit i) (fun _ => True).
Proof. unfold Hexdigit. prints. Qed.

#[local] Hint Resolve prints_Hexdigit : printer.

Lemma prints_quotedChar c : prints E (printQuotedChar c) (fun _ => True).
Proof. unfold printQuotedChar. prints. Qed.

#[local] Hint Resolve prints_quotedChar : printer.

Lemma prints_quotedString t : prints E (printQuotedString t) (fun _ => True).
Proof.
  assert (prints E (printQuotedChars t) (fun _ => True)) by (induction t; cbn [printQuotedChars]; prints).
  unfold printQuotedString. prints.
Qed.

Lemma prints_isSimpleType n : prints E (isSimpleType n) (fun _ => True).
Proof. unfold isSimpleType. destruct (getKind n); prints. Qed.

Lemma prints_isSwiftModule n : prints E (isSwiftModule n) (fun _ => True).
Proof. unfold isSwiftModule. prints. Qed.

Lemma prints_isIdentifier n t : prints E (isIdentifier n t) (fun _ => True).
Proof. unfold isIdentifier. prints. Qed.

#[local] Hint Resolve prints_quotedString prints_isSimpleType prints_isSwiftModule prints_isIdentifier
  prints_genericParams : printer.

Lemma prints_findSugar n : prints E (findSugar n) (fun _ => True).
Proof.
  assert (forall u a name k, prints E (isSugar u a name k) (fun _ => True)) by (intros; unfold isSugar; prints).
  assert (forall n, prints E (findBoundSugar n) (fun _ => True)) as Hbound
    by (intros; unfold findBoundSugar; prints).
  induction n as [k p cs IH] using Node_tree_ind.
  destruct k; try apply Hbound. destruct cs as [|c [|? ?]]; try apply Hbound.
  cbn [findSugar]. by inversion_clear IH.
Qed.

Lemma prints_needSpaceBeforeType n : prints E (needSpaceBeforeType n) (fun _ => True).
Proof.
  induction n as [k p cs IH] using Node_tree_ind. cbn [needSpaceBeforeType]. destruct k; prints.
  by inversion_clear IH.
Qed.

Lemma prints_skipGenericTypes n : prints E (skipGenericTypes n) (fun _ => True).
Proof.
  assert (forall m n, (node_height n < m)%nat -> prints E (skipGenericTypes n) (fun _ => True)) as H; [|by apply (H (S (node_height n))); lia].
  induction m as [|m IH]; intros [k p cs] Hm; [lia|].
  destruct k; try by apply prints_ret.
  destruct cs as [|c0 [|[k' p' [|c cs']] cs]]; try (apply prints_fail; by left).
  apply (IH c). set (n' := mkNode k' p' (c :: cs')) in *.
  pose proof (height_child n' c (or_introl eq_refl)).
  pose proof (height_lookup (mkNode K_DependentGenericType p (c0 :: n' :: cs)) 1 n' eq_refl). lia.
Qed.

#[local] Hint Resolve prints_findSugar prints_needSpaceBeforeType prints_skipGenericTypes : printer.

Lemma prints_paramCounts ns depth : prints E (printParamCounts ns depth) (fun r => exists l, ns = l ++ r).
Proof.
  revert depth. induction ns as [|c ns IH]; intros depth; cbn [printParamCounts]; prints; try by exists [].
  match goal with H : exists _, _ |- _ => destruct H as [l ->] end. by exists (c :: l).
Qed.

(** The operations on a node of height [S h], with [print] for those inside. *)
Section recursion.
Context (h : nat) (print : Node -> bool -> PM NodePointer).
Hypothesis Hprint : forall n b, inside h n -> prints E (print n b) (returns (inside h)).

Lemma inside_S n : inside h n -> inside (S h) n.
Proof. intros [Hb Ht]. split; [unfold below in *; lia|done]. Qed.

Lemma inside_printed n : inside (S h) n -> Forall (printedOrSkipped (inside h)) (children n).
Proof. intros Hn. eapply Forall_impl; [|by apply inside_children]. by left. Qed.

Lemma inside_getChildIf n k c : inside (S h) n -> getChildIf n k = Some c -> inside h c.
Proof. intros Hn [Hc _]%getChildIf_In. eapply inside_within; [by apply child_within|done]. Qed.

Lemma inside_own n t :
  inside (S h) n -> getKind n = K_FunctionSignatureSpecializationParamPayload -> payload n = TextPayload t -> T t.
Proof.
  intros [_ Ht] Hk Hp. destruct n as [k p cs]. cbn in Hk, Hp. subst k p. cbn in Ht. by inversion_clear Ht.
Qed.

Lemma inside_param n c t :
  inside (S h) n -> getKind n = K_FunctionSignatureSpecializationParam -> In c (children n) ->
  payload c = TextPayload t -> T t.
Proof.
  intros [_ Ht] Hk Hc Hp. destruct n as [k p cs]. cbn in Hk, Hc. subst k. cbn in Ht.
  rewrite List.Forall_forall in Ht. apply Ht, in_or_app. left. apply in_concat. exists (ownText c).
  split; [by apply in_map|]. unfold ownText. rewrite Hp. by left.
Qed.

#[local] Hint Resolve prints_node prints_nodes prints_fields prints_conformances prints_specializationPrefix Hprint inside_children
  inside_S inside_getChildIf inside_printed inside_own inside_param : printer.
#[local] Hint Extern 1 (inside _ _) =>
  repeat match goal with
  | H : getChildIf _ _ = Some _ |- _ => apply getChildIf_In in H as [H _]
  | H : In _ (children _) |- _ => apply child_within in H
  end;
  solve [eauto 6 using inside_within, inside_S] : printer.
#[local] Hint Extern 1 (Forall (inside _) (children _)) =>
  apply inside_children; solve [print_spec] : printer.

Lemma prints_child n i : inside (S h) n -> prints E (printChild print n i) (fun _ => True).
Proof. intros Hn. unfold printChild. prints. Qed.

Lemma prints_children n sep : inside (S h) n -> prints E (printChildren print n sep) (fun _ => True).
Proof. intros Hn. unfold printChildren. prints. Qed.

#[local] Hint Resolve prints_child prints_children : printer.

Lemma prints_typeInParens n : inside h n -> prints E (printTypeInParens print n) (fun _ => True).
Proof. intros Hn. unfold printTypeInParens. prints. Qed.

#[local] Hint Resolve prints_typeInParens : printer.

Lemma prints_boundGeneric n : inside (S h) n -> prints E (printBoundGeneric Options print n) (fun _ => True).
Proof. intros Hn. unfold printBoundGeneric, printBoundGenericNoSugar. prints. Qed.

Lemma prints_parameters labels types i ns :
  Forall (inside h) ns -> prints E (printParameters print labels types i ns) (fun _ => True).
Proof.
  intros H. revert i. induction H as [|n ns Hn H IH]; intros i; cbn [printParameters]; [prints|].
  unfold printParameter, getLabelFor. prints.
Qed.

#[local] Hint Resolve prints_boundGeneric prints_parameters : printer.

Lemma prints_functionType labels n : inside (S h) n -> prints E (printFunctionType Options print labels n) (fun _ => True).
Proof. intros Hn. unfold printFunctionType, printFunctionParameters. prints. Qed.

#[local] Hint Resolve prints_functionType : printer.

Lemma prints_transitionTo new cur : prints E (transitionTo new cur) (fun _ => True).
Proof.
  assert (forall n cur, prints E (transitions n cur) (fun _ => True)) by
    (intros n; induction n; intros; cbn [transitions]; prints).
  unfold transitionTo. prints.
Qed.

#[local] Hint Resolve prints_transitionTo : printer.

Lemma prints_implChildren ns cur : Forall (inside h) ns -> prints E (printImplChildren print ns cur) (fun _ => True).
Proof.
  intros H. revert cur. induction H as [|n ns Hn H IH]; intros cur; cbn [printImplChildren]; [prints|].
  destruct (getKind n); prints.
Qed.

Lemma prints_closureTypes ns i :
  Forall (inside h) ns -> prints E (printClosureTypes print ns i) (fun j => i <= j)%nat.
Proof.
  intros H. revert i. induction H as [|n ns Hn H IH]; intros i; cbn [printClosureTypes]; prints. lia.
Qed.

#[local] Hint Resolve prints_implChildren : printer.

(** Every parameter takes a child, so that the fuel covers the loop. *)
Lemma prints_functionSigSpecializationParam n i :
  inside (S h) n -> getKind n = K_FunctionSignatureSpecializationParam ->
  prints E (printFunctionSigSpecializationParam dem print n i) (fun j => i < j)%nat.
Proof.
  intros Hn Hk. pose proof (inside_children h n Hn) as Hcs. unfold printFunctionSigSpecializationParam.
  assert (prints E (printClosureTypes print (drop (i + 2) (children n)) (i + 2)) (fun j => i + 2 <= j)%nat)
    by by apply prints_closureTypes, Forall_drop.
  prints; lia.
Qed.

Lemma prints_specializationParams fuel n i :
  inside (S h) n -> getKind n = K_FunctionSignatureSpecializationParam -> (getNumChildren n <= i + fuel)%nat ->
  prints E (printSpecializationParams dem print fuel n i) (fun _ => True).
Proof.
  intros Hn Hk. revert i. induction fuel as [|fuel IH]; intros i Hi; cbn [printSpecializationParams].
  - assert ((i <? getNumChildren n)%nat = false) as -> by (apply Nat.ltb_ge; lia). prints.
  - destruct (_ <? _)%nat; [|prints].
    pose proof (fun i => prints_functionSigSpecializationParam n i Hn Hk). prints. apply IH. lia.
Qed.

Lemma prints_paramKind raw : prints E (printParamKind raw) (fun _ => True).
Proof. unfold printParamKind. prints. Qed.

Lemma prints_specializationParam n :
  inside (S h) n -> getKind n = K_FunctionSignatureSpecializationParam ->
  prints E (printSpecializationParam dem print n) (fun _ => True).
Proof.
  intros Hn Hk. unfold printSpecializationParam.
  pose proof (prints_functionSigSpecializationParam n 0 Hn Hk).
  pose proof (fun i => prints_specializationParams (getNumChildren n) n i Hn Hk ltac:(lia)). prints.
Qed.

Lemma prints_genericSignature n :
  inside (S h) n -> prints E (printGenericSignature Options print n) (fun _ => True).
Proof.
  intros Hn. unfold printGenericSignature.
  pose proof (prints_paramCounts (children n) 0). prints.
  match goal with H : exists l, children n = _ |- _ => destruct H as [l Hl] end.
  pose proof (inside_children h n Hn) as Hcs. rewrite Hl in Hcs. apply Forall_app in Hcs as [_ Hcs].
  pose proof (prints_nodes E (inside h) print Hprint _ ", " Hcs). prints.
Qed.

#[local] Hint Resolve prints_genericSignature prints_specializationParam prints_paramKind : printer.

Lemma prints_entityType n t : inside (S h) n -> inside h t -> prints E (printEntityType Options print n t) (fun _ => True).
Proof.
  intros Hn Ht. unfold printEntityType. destruct (getChildIf n K_LabelList) as [l|] eqn:Hl; [|prints].
  apply (prints_bind _ _ _ (inside (S h))); prints.
Qed.

Lemma prints_entityName n : inside (S h) n -> prints E (printEntityName print n) (fun _ => True).
Proof. intros Hn. unfold printEntityName. prints. Qed.

#[local] Hint Resolve prints_entityType prints_entityName : printer.

Lemma prints_entityContext c b : inside h c -> prints E (printEntityContext Options print c b) (returns (inside h)).
Proof.
  intros Hc. unfold printEntityContext, printContext. prints.
Qed.

Lemma prints_entityNames n a b e i o :
  inside (S h) n -> prints E (printEntityNames print n a b e i o) (fun _ => True).
Proof. intros Hn. unfold printEntityNames. prints. Qed.

Lemma prints_entityTypeAs n t b : inside (S h) n -> prints E (printEntityTypeAs Options print n t b) (fun _ => True).
Proof. intros Hn. unfold printEntityTypeAs. prints. Qed.

#[local] Hint Resolve prints_entityContext prints_entityNames prints_entityTypeAs : printer.

Lemma prints_entity n b t hasName e i o :
  inside (S h) n -> prints E (printEntity Options print n b t hasName e i o) (returns (inside (S h))).
Proof.
  intros Hn. unfold printEntity. prints.
Qed.

#[local] Hint Resolve prints_entity prints_implChildren : printer.

Lemma prints_abstractStorage n b e :
  inside (S h) n -> prints E (printAbstractStorage Options print n b e) (returns (inside (S h))).
Proof. intros Hn. unfold printAbstractStorage. destruct (getKind n); prints. Qed.

#[local] Hint Resolve prints_abstractStorage : printer.

Lemma prints_genericSpecializationParam n :
  inside (S h) n -> prints E (printGenericSpecializationParam print n) (fun _ => True).
Proof.
  intros Hn. unfold printGenericSpecializationParam.
  pose proof (Forall_drop _ 1 _ (inside_children h n Hn)). prints.
Qed.

#[local] Hint Resolve prints_genericSpecializationParam : printer.

Lemma prints_keyPathIndex n : inside (S h) n -> prints E (printKeyPathIndex print n) (fun _ => True).
Proof.
  intros Hn. unfold printKeyPathIndex. pose proof (inside_children h n Hn) as Hcs.
  pose proof (fun k => Forall_take _ k _ Hcs). prints.
Qed.

#[local] Hint Resolve prints_keyPathIndex : printer.

Lemma prints_kind n b : inside (S h) n -> prints E (printKind Options dem print n b) (returns (inside (S h))).
Proof.
  intros Hn. unfold printKind.
  destruct (getKind n) eqn:Hk;
    unfold printed, printPrefixed, printTwo; try unfold_part; unfold printTextOf, printIndexOf; prints.
Qed.
End recursion.

(** [printWithFuel] with the height of its node as fuel. *)
Lemma prints_withFuel h n b :
  inside h n -> prints E (printWithFuel Options dem h n b) (returns (inside h)).
Proof.
  revert n b. induction h as [|h IH]; intros n b Hn.
  - destruct n, Hn as [Hn _]. unfold below in Hn. cbn in Hn. lia.
  - by apply prints_kind.
Qed.
End termination.
