(* ===== verification/PrinterSafety.v ===== *)
(** * The printer on the trees of the demangler

    For a tree of the demangler's grammar ([wf_node]), every assertion and every
    index of the printer is covered by the shape of its node, but for the
    crashes that [printer_crash] lists. *)

From Stdlib Require Import String.
From S2P Require Import Prelude Nodes ManglingUtils Demangler NodeShape DemanglerSpecs DemanglerSafety.
From S2P Require Import NodePrinter PrinterSpecs.

(** The crashes that printing a well-formed tree can cause: an entity whose type
    is gone because [demangleBoundGenericArgs] rebuilt it from two children, a
    suffix with a byte that is negative as a [char], and those of the demangling
    of a name inside a specialization. *)
Inductive printer_crash (dem : str -> outcome str) : crash -> Prop :=
  | crash_malformed : printer_crash dem (AssertionFailed "malformed entity")
  | crash_hexdigit : printer_crash dem (OutOfRange "QuotedString: Hexdigit")
  | crash_nested t c : dem t = Crash c -> printer_crash dem c.

(** A node has less than 2^32 children. [Node] counts them in a [size_t], but the
    demangler counts the parameters of a function in an [unsigned] when it makes the
    list of their labels, and the printer numbers them in one: with more of them
    there are fewer labels than parameters. *)
Fixpoint narrow (n : Node) : bool :=
  match n with mkNode _ _ cs => (Z.of_nat (length cs) <? 2 ^ 32) && forallb narrow cs end.

Record good (h : nat) (n : Node) : Prop := {
  good_wf : wf n;
  good_narrow : narrow n = true;
  good_below : below h n
}.

Lemma good_S h n : good h n -> good (S h) n.
Proof. intros []. split; [done..|by apply below_S]. Qed.

Lemma good_children h k p cs :
  hasBare k = false -> good (S h) (mkNode k p cs) -> Forall (good h) cs.
Proof.
  intros Hk [Hw Hn Hb]. apply wf_children in Hw; [|done]. cbn in Hn.
  apply andb_true_iff in Hn as [_ Hn]. apply below_children in Hb.
  rewrite forallb_forall in Hn. rewrite List.Forall_forall in *. split; auto.
Qed.

Lemma good_children' h k p cs :
  hasBare k = false -> good h (mkNode k p cs) -> Forall (good h) cs.
Proof. intros Hk Hn%good_S. by eapply good_children. Qed.

Lemma good_shape h n : good h n -> shape (getKind n) (payload n) (children n) = true.
Proof. intros []. by apply wf_shape. Qed.

(** Take the list of children apart as the shape of the node tells. *)
Ltac open_shape H :=
  try unfold shape in H;
  repeat first
    [ progress cbn in H
    | match type of H with
      | context [match ?l with [] => _ | _ :: _ => _ end] => is_var l; destruct l; try discriminate H
      | context [match ?p with NoPayload => _ | TextPayload _ => _ | IndexPayload _ => _ end] =>
          is_var p; destruct p; try discriminate H
      | context [if ofKind ?k ?c then _ else _] => destruct (ofKind k c) eqn:?; try discriminate H
      | context [if kindIn ?k ?c then _ else _] => destruct (kindIn k c) eqn:?; try discriminate H
      | context [if typeOf ?k ?c then _ else _] => destruct (typeOf k c) eqn:?; try discriminate H
      end
    | rewrite ?andb_false_r, ?orb_false_r, ?andb_true_r in H; discriminate H
    | progress rewrite ?andb_false_r, ?orb_false_r, ?andb_true_r in H ].


Lemma good_Type h n :
  good h n -> getKind n = K_Type ->
  exists c, n = mkNode K_Type NoPayload [c] /\ good h c /\ isTypeChild (getKind c) = true.
Proof.
  intros Hg Hk. destruct (wf_Type n (good_wf _ _ Hg) Hk) as (c & -> & _ & Hkc).
  apply good_children' in Hg; [|done]. inversion_clear Hg. eauto.
Qed.

Lemma good_typeOf h k n :
  good h n -> typeOf k n = true -> exists c, n = mkNode K_Type NoPayload [c] /\ good h c /\ getKind c = k.
Proof.
  intros Hg Hk. assert (getKind n = K_Type) as Hkt by (by apply andb_true_iff in Hk as [?%ofKind_true _]).
  destruct (good_Type h n Hg Hkt) as (c & -> & Hc & _). cbn in Hk. exists c. by apply ofKind_true in Hk.
Qed.

Lemma good_ProtocolList h n :
  good h n -> getKind n = K_ProtocolList ->
  exists c, n = mkNode K_ProtocolList NoPayload [c] /\ good h c /\ getKind c = K_TypeList.
Proof.
  destruct n as [k p cs]. cbn. intros Hg ->. pose proof (good_shape _ _ Hg) as Hs. cbn in Hs. open_shape Hs.
  apply good_children' in Hg; [|done]. inversion_clear Hg. apply ofKind_true in Hs. eauto.
Qed.

Lemma good_list h k p n :
  listKind k p -> good h n -> getKind n = k ->
  Forall (good h) (children n) /\ Forall (fun c => p c = true) (children n).
Proof.
  intros Hl Hg Hk. destruct (wf_list_inv _ _ _ Hl (good_wf _ _ Hg) Hk) as [_ Hp]. split; [|done].
  destruct n as [k' p' cs]. apply good_children' in Hg; [done|].
  cbn in Hk. subst k'. by destruct Hl as (_ & _ & _ & _ & ?).
Qed.

Lemma good_getChildIf h n k c :
  hasBare (getKind n) = false -> good h n -> getChildIf n k = Some c -> good h c /\ getKind c = k.
Proof.
  destruct n as [k' p cs]. intros Hs Hg [Hc Hk]%getChildIf_In. split; [|done].
  apply good_children' in Hg; [|done]. rewrite List.Forall_forall in Hg. by apply Hg.
Qed.

(** The kinds whose children are all printed in a row. *)
Definition isList (k : Kind) : bool :=
  match children_shape k with Some [Many _] => negb (hasBare k) && negb (truncatable k) | _ => false end.

Lemma good_elements h n : good h n -> isList (getKind n) = true -> Forall (good h) (children n).
Proof.
  destruct n as [k p cs]. intros Hg Hk. cbn in *. apply good_children' in Hg; [done|]. by destruct k.
Qed.

Lemma good_elements_S h n : good (S h) n -> isList (getKind n) = true -> Forall (good h) (children n).
Proof.
  destruct n as [k p cs]. intros Hg Hk. cbn in *. apply good_children in Hg; [done|]. by destruct k.
Qed.

(** The types among the nodes, with what they stand for. *)
Ltac open_types :=
  repeat match goal with
  | Hg : good ?h ?n, Hk : getKind ?n = K_Type |- _ =>
      is_var n; let c := fresh "type" in
      destruct (good_Type h n Hg Hk) as (c & -> & ? & ?); clear Hk
  | Hg : good ?h ?n, Hk : typeOf ?k ?n = true |- _ =>
      is_var n; let c := fresh "type" in
      destruct (good_typeOf h k n Hg Hk) as (c & -> & ? & ?); clear Hk
  | Hg : good ?h ?n, Hk : getKind ?n = K_ProtocolList |- _ =>
      is_var n; let c := fresh "types" in
      destruct (good_ProtocolList h n Hg Hk) as (c & -> & ? & ?); clear Hk
  end.

(** A node of known kind, with its children. *)
Ltac open_good Hg :=
  lazymatch type of Hg with
  | good _ (mkNode ?k ?p ?cs) =>
      let Hs := fresh "Hs" in
      pose proof (good_shape _ _ Hg) as Hs; cbn [getKind payload children] in Hs; open_shape Hs;
      (first [apply good_children in Hg; [|reflexivity]|apply good_children' in Hg; [|reflexivity]]);
      repeat match goal with
      | H : Forall _ (_ :: _) |- _ => inversion_clear H
      | H : Forall _ [] |- _ => clear H
      end;
      facts; unfold kindIn in *; open_types
  end.

(** The variable [n], whose kind is known, with its children; that [n] itself is
    good is kept. *)
Ltac open_node n :=
  let k := fresh "k" in let p := fresh "p" in let cs := fresh "cs" in
  destruct n as [k p cs];
  match goal with Hk : getKind (mkNode k p cs) = _ |- _ => cbn [getKind] in Hk; subst k end;
  match goal with Hg : good _ (mkNode _ p cs) |- _ =>
    let Hg' := fresh "Hg" in pose proof Hg as Hg'; open_good Hg' end.

Lemma matches_many_inv p ps cs :
  matches (Many p :: ps) cs = true ->
  exists l r, cs = l ++ r /\ Forall (fun c => p c = true) l /\ matches ps r = true.
Proof.
  induction cs as [|c cs IH]; intros H.
  - exists [], []. by repeat constructor.
  - cbn in H. destruct (p c) eqn:Hc.
    + destruct (IH H) as (l & r & -> & Hl & Hr). exists (c :: l), r. by repeat constructor.
    + exists [], (c :: cs). by repeat constructor.
Qed.

(** The children of a node fall into parts, one for each pattern. *)
Lemma matches_inv ps cs :
  matches ps cs = true ->
  exists ls, cs = concat ls /\ Forall2 (fun q l => Forall (fun c => patPred q c = true) l) ps ls.
Proof.
  revert cs. induction ps as [|q ps IH]; intros cs H.
  { destruct cs; [|done]. exists []. by repeat constructor. }
  destruct q as [p|p|p].
  - destruct cs as [|c cs]; [done|]. cbn in H. apply andb_true_iff in H as [Hc H].
    destruct (IH cs H) as (ls & -> & Hls). exists ([c] :: ls). by repeat constructor.
  - destruct cs as [|c cs].
    + destruct (IH [] H) as (ls & E & Hls). exists ([] :: ls). by repeat constructor.
    + cbn in H. destruct (p c) eqn:Hc.
      * destruct (IH cs H) as (ls & -> & Hls). exists ([c] :: ls). by repeat constructor.
      * destruct (IH _ H) as (ls & E & Hls). exists ([] :: ls). by repeat constructor.
  - apply matches_many_inv in H as (l & r & -> & Hl & Hr).
    destruct (IH r Hr) as (ls & -> & Hls). exists (l :: ls). by repeat constructor.
Qed.

(** The kinds that [printEntity] prints. *)
Definition isPrintedEntity (k : Kind) : bool :=
  match k with
  | K_Variable | K_Function | K_Subscript | K_GenericTypeParamDecl | K_ExplicitClosure | K_ImplicitClosure
  | K_Initializer | K_DefaultArgumentInitializer | K_Class | K_Structure | K_Enum | K_Protocol | K_TypeAlias
  | K_Allocator | K_Constructor | K_Destructor | K_Deallocator | K_IVarInitializer | K_IVarDestroyer => true
  | _ => false
  end.

(** Those that have a name. *)
Definition isNamedEntity (k : Kind) : bool :=
  match k with
  | K_Variable | K_Function | K_GenericTypeParamDecl | K_ExplicitClosure | K_ImplicitClosure
  | K_DefaultArgumentInitializer | K_Class | K_Structure | K_Enum | K_Protocol | K_TypeAlias => true
  | _ => false
  end.

Lemma Kind_eqb_pred (pred : Kind -> bool) n k :
  kindIn pred n = true -> pred k = false -> Kind_eqb (getKind n) k = false.
Proof.
  intros Hn Hk. apply not_true_iff_false. rewrite Kind_eqb_eq. intros E. unfold kindIn in Hn. congruence.
Qed.

Lemma Kind_eqb_ofKind k' n k : ofKind k' n = true -> Kind_eqb (getKind n) k = Kind_eqb k' k.
Proof. intros E%ofKind_true. by rewrite E. Qed.

(** Look for a child among children of known kinds. *)
Ltac find_children :=
  repeat match goal with
  | H : ofKind ?k' ?n = true |- context [Kind_eqb (getKind ?n) ?k] =>
      rewrite (Kind_eqb_ofKind k' n k H); cbn [Kind_eqb kind_index Z.eqb Pos.eqb]
  | H : kindIn ?pred ?n = true |- context [Kind_eqb (getKind ?n) ?k] =>
      rewrite (Kind_eqb_pred pred n k H eq_refl)
  | H : ofKind ?k ?n = false |- context [Kind_eqb (getKind ?n) ?k] =>
      change (Kind_eqb (getKind n) k) with (ofKind k n); rewrite H
  end.

Ltac split_shape :=
  repeat match goal with
  | H : _ && _ = true |- _ => apply andb_true_iff in H as [? ?]
  | H : _ || _ = true |- _ => apply orb_true_iff in H as [?|?]
  end.

Lemma entity_shape n :
  wf n -> isPrintedEntity (getKind n) = true ->
  (0 < getNumChildren n)%nat /\ (isNamedEntity (getKind n) = true -> 1 < getNumChildren n)%nat.
Proof.
  destruct n as [k p cs]. cbn. intros Hw%wf_shape Hk. cbn in Hw.
  destruct k; try discriminate Hk; clear Hk; open_shape Hw; cbn; split; (lia || discriminate).
Qed.

Lemma entity_labels n :
  wf n -> isPrintedEntity (getKind n) = true ->
  forall l ty, getChildIf n K_LabelList = Some l -> getChildIf n K_Type = Some ty -> labelsFit l ty = true.
Proof.
  destruct n as [k p cs]. cbn. intros Hw%wf_shape Hk l ty. cbn in Hw.
  destruct k; try discriminate Hk; clear Hk; open_shape Hw; split_shape; unfold getChildIf; cbn [find children];
    find_children; try discriminate;
    (intros [= <-]; find_children; first [discriminate|intros [= <-]];
     first [done|match goal with Hf : labelsFit' ?l _ = true, Hl : ofKind K_LabelList ?l = true |- _ =>
                   unfold labelsFit' in Hf; by rewrite Hl in Hf end]).
Qed.

Section safety.
Context (Options : DemangleOptions) (dem : str -> outcome str).
Abbreviation E := (printer_crash dem).

Lemma prints_getChild_at n i c : children n !! i = Some c -> prints (S := NodePrinter) E (getChild n i) (fun a => a = c).
Proof. intros H s. unfold wp, getChild. by rewrite H. Qed.

Lemma prints_getChild_lt n i (P : Node -> Prop) :
  (i < length (children n))%nat -> Forall P (children n) -> prints (S := NodePrinter) E (getChild n i) P.
Proof.
  intros Hi HP s. destruct (lookup_lt_is_Some_2 _ _ Hi) as [c Hc]. unfold wp, getChild. rewrite Hc.
  by eapply Forall_lookup_1.
Qed.

Lemma prints_firstChild k p c cs : prints (S := NodePrinter) E (getFirstChild (mkNode k p (c :: cs))) (fun a => a = c).
Proof. by intros s. Qed.

Lemma prints_text k t cs : prints (S := NodePrinter) E (getText (mkNode k (TextPayload t) cs)) (fun a => a = t).
Proof. by intros s. Qed.

Lemma prints_index k i cs : prints (S := NodePrinter) E (getIndex (mkNode k (IndexPayload i) cs)) (fun a => a = i).
Proof. by intros s. Qed.

Lemma good_text h n :
  good h n -> payload_shape (getKind n) NoPayload = false ->
  payload_shape (getKind n) (IndexPayload 0) = false -> prints (S := NodePrinter) E (getText n) (fun _ => True).
Proof.
  intros Hg H1 H2 s. unfold wp, getText. destruct n as [k p cs]. cbn in *.
  apply good_shape in Hg. unfold shape in Hg. cbn in Hg. rewrite !andb_true_iff in Hg. destruct Hg as [[Hp _] _].
  destruct p; [congruence|done|]. destruct k; discriminate.
Qed.

Lemma good_index h n :
  good h n -> payload_shape (getKind n) NoPayload = false ->
  payload_shape (getKind n) (TextPayload []) = false -> prints (S := NodePrinter) E (getIndex n) (fun _ => True).
Proof.
  intros Hg H1 H2 s. unfold wp, getIndex. destruct n as [k p cs]. cbn in *.
  apply good_shape in Hg. unfold shape in Hg. cbn in Hg. rewrite !andb_true_iff in Hg. destruct Hg as [[Hp _] _].
  destruct p; [congruence| |done]. destruct k; discriminate.
Qed.

Lemma prints_demangled t : prints E (printDemangledName dem t) (fun _ => True).
Proof. intros s. unfold wp, printDemangledName. destruct (dem t) eqn:H; [done|]. by eapply crash_nested. Qed.

#[local] Hint Extern 2 (prints _ (getText ?n) _) =>
  match goal with Hg : good _ n, Hk : getKind n = _ |- _ =>
    apply (good_text _ n Hg); rewrite Hk; reflexivity end : printer.
#[local] Hint Extern 2 (prints _ (getIndex ?n) _) =>
  match goal with Hg : good _ n, Hk : getKind n = _ |- _ =>
    apply (good_index _ n Hg); rewrite Hk; reflexivity end : printer.
#[local] Hint Resolve prints_firstChild prints_text prints_index prints_demangled prints_genericParams : printer.
#[local] Hint Extern 1 (prints _ (getChild _ _) _) => (apply prints_getChild_at; reflexivity) : printer.
Ltac print_fail ::= first [by constructor|discriminate|congruence].
Ltac print_simpl ::=
  repeat match goal with H : getKind ?c = _ |- context [getKind ?c] => rewrite H end;
  repeat match goal with H : Kind_eqb ?a ?b = _ |- context [Kind_eqb ?a ?b] => rewrite H end;
  cbn [getNumChildren getKind payload children length Nat.eqb Nat.ltb Nat.leb Nat.sub Nat.add
       Kind_eqb kind_index Z.eqb Pos.eqb negb andb orb getChildIf find isSome].

Lemma prints_Hexdigit_safe i : prints E (Hexdigit i) (fun _ => True).
Proof. unfold Hexdigit. prints. Qed.

#[local] Hint Resolve prints_Hexdigit_safe : printer.

Lemma prints_quotedChar_safe c : prints E (printQuotedChar c) (fun _ => True).
Proof. unfold printQuotedChar. prints. Qed.

#[local] Hint Resolve prints_quotedChar_safe : printer.

Lemma prints_quotedString_safe t : prints E (printQuotedString t) (fun _ => True).
Proof.
  assert (prints E (printQuotedChars t) (fun _ => True)) by (induction t; cbn [printQuotedChars]; prints).
  unfold printQuotedString. prints.
Qed.

Section recursion.
Context (h : nat) (print : Node -> bool -> PM NodePointer).
Hypothesis Hprint : forall n b, good h n -> prints E (print n b) (returns (good h)).

#[local] Hint Resolve prints_node prints_nodes prints_fields prints_conformances prints_specializationPrefix Hprint
  good_S prints_quotedString_safe : printer.

Lemma prints_child_at n i c : children n !! i = Some c -> good h c -> prints E (printChild print n i) (fun _ => True).
Proof. intros Hi Hc. unfold printChild. pose proof (prints_getChild_at n i c Hi). prints. Qed.

Lemma prints_children_safe n sep :
  Forall (good h) (children n) -> prints E (printChildren print n sep) (fun _ => True).
Proof. intros Hn. unfold printChildren. prints. Qed.

#[local] Hint Resolve prints_children_safe good_elements good_elements_S : printer.
#[local] Hint Extern 1 (isList _ = true) =>
  (reflexivity || match goal with H : getKind _ = _ |- _ => rewrite H; reflexivity end) : printer.
#[local] Hint Extern 1 (prints _ (printChild _ _ _) _) =>
  (eapply prints_child_at; [reflexivity|assumption]) : printer.

Lemma prints_isSimpleType_safe h' n : good h' n -> prints E (isSimpleType n) (fun _ => True).
Proof.
  intros Hn. unfold isSimpleType. destruct (getKind n) eqn:Hk; prints; open_node n; prints.
Qed.

#[local] Hint Resolve prints_isSimpleType_safe : printer.

Lemma prints_typeInParens_safe n : good h n -> prints E (printTypeInParens print n) (fun _ => True).
Proof. intros Hn. unfold printTypeInParens. prints. Qed.

#[local] Hint Resolve prints_typeInParens_safe : printer.

Lemma prints_isIdentifier_safe h' n t : good h' n -> prints E (isIdentifier n t) (fun _ => True).
Proof.
  intros Hn. unfold isIdentifier. destruct (Kind_eqb (getKind n) K_Identifier) eqn:Hk; prints. facts.
  open_node n; prints.
Qed.

Lemma prints_isSwiftModule_safe h' n : good h' n -> prints E (isSwiftModule n) (fun _ => True).
Proof.
  intros Hn. unfold isSwiftModule. destruct (Kind_eqb (getKind n) K_Module) eqn:Hk; prints. facts.
  open_node n; prints.
Qed.

#[local] Hint Resolve prints_isIdentifier_safe prints_isSwiftModule_safe : printer.

(** The number of arguments that a sugared type has. *)
Definition sugarArgs (sugar : SugarType) : option nat :=
  match sugar with
  | Sugar_None => None
  | Sugar_Optional | Sugar_ImplicitlyUnwrappedOptional | Sugar_Array => Some 1%nat
  | Sugar_Dictionary => Some 2%nat
  end.

Definition sugared (typeArgs : Node) (sugar : SugarType) : Prop :=
  forall n, sugarArgs sugar = Some n -> length (children typeArgs) = n.

Lemma prints_isSugar h' c0 c1 k p typeArgs name n :
  good h' c0 -> good h' c1 ->
  prints E (isSugar (mkNode k p [c0; c1]) typeArgs name n) (fun b => b = true -> length (children typeArgs) = n).
Proof.
  intros H0 H1. unfold isSugar. prints. intros _.
  match goal with H : _ && _ = true |- _ => apply andb_true_iff in H as [_ H%Nat.eqb_eq] end. done.
Qed.

#[local] Hint Resolve prints_isSugar : printer.

Lemma prints_findBoundSugar h' n :
  good h' n -> getKind n = K_BoundGenericEnum \/ getKind n = K_BoundGenericStructure ->
  prints E (findSugar n) (fun sugar => exists t args, children n = [t; args] /\ sugared args sugar).
Proof.
  intros Hg [Hk|Hk]; open_node n; open_node type;
    match goal with |- prints _ (findSugar ?n) _ => change (findSugar n) with (findBoundSugar n) end;
    unfold findBoundSugar; prints; eexists _, _; (split; [reflexivity|]); intros ? Hn;
    repeat match goal with
    | H : context [if ?b then _ else _] |- _ => destruct b
    | H : true = true -> _ |- _ => specialize (H eq_refl)
    end; (discriminate Hn || injection Hn as <-; assumption).
Qed.

Lemma prints_boundGeneric_safe n :
  good (S h) n -> isBoundGeneric (getKind n) = true -> prints E (printBoundGeneric Options print n) (fun _ => True).
Proof.
  intros Hg Hk. unfold printBoundGeneric, printBoundGenericNoSugar.
  destruct (getKind n) eqn:Ek; try discriminate Hk;
    [|pose proof (prints_findBoundSugar _ n Hg ltac:(auto)) as Hsugar..];
    open_node n; try rewrite orb_true_r; prints;
    match goal with H : exists _ _, _ |- _ => destruct H as (t & args & [= <- <-] & Hargs) end;
    unfold sugared in Hargs; prints; specialize (Hargs _ eq_refl); cbn in Hargs;
    match goal with Hn : good h ?n, Hk : getKind ?n = K_TypeList |- _ =>
      assert (Forall (good h) (children n)) by (apply good_elements; [done|by rewrite Hk]);
      assert (forall i, (i < length (children n))%nat -> prints (S := NodePrinter) E (getChild n i) (good h)) as Hchild
        by (intros; by apply prints_getChild_lt);
      rewrite Hargs in Hchild;
      pose proof (Hchild 0%nat ltac:(lia)); try pose proof (Hchild 1%nat ltac:(lia)); prints
    end.
Qed.

(** ** Functions *)

(** The labels reach as far as the parameters. *)
Definition labelsFor (labels : NodePointer) (n : nat) : Prop :=
  forall l, labels = Some l -> good h l /\ getKind l = K_LabelList /\ (n <= length (children l))%nat.

Lemma prints_labelFor l i :
  good h l -> getKind l = K_LabelList -> (i < length (children l))%nat ->
  prints E (getLabelFor l i) (fun _ => True).
Proof.
  intros Hl Hk Hi. destruct (good_list h _ _ l listKind_LabelList Hl Hk) as [Hg Hlab].
  destruct (lookup_lt_is_Some_2 _ _ Hi) as [c Hc].
  pose proof (prints_getChild_at l i c Hc). pose proof (Forall_lookup_1 _ _ _ _ Hg Hc).
  pose proof (Forall_lookup_1 _ _ _ _ Hlab Hc) as Hkc. unfold kindIn in Hkc.
  unfold getLabelFor. destruct (getKind c) eqn:Ek; try discriminate Hkc; prints.
Qed.

Lemma prints_parameter labels types i n :
  good h n -> getKind n = K_TupleElement -> labelsFor labels (S i) ->
  prints E (printParameter print labels types i n) (fun _ => True).
Proof.
  intros Hn Hk Hl. unfold printParameter.
  assert (forall l, labels = Some l -> prints E (getLabelFor l i) (fun _ => True)) as Hlabel.
  { intros l ->. destruct (Hl l eq_refl) as (? & ? & ?). by apply prints_labelFor. }
  destruct labels as [l|]; [specialize (Hlabel l eq_refl)|]; prints.
  match goal with H : getChildIf _ _ = Some ?c |- _ =>
    apply (good_getChildIf h) in H as [? ?]; [|by rewrite Hk|done] end. prints.
Qed.

Lemma prints_parameters_safe labels types i ns :
  Forall (good h) ns -> Forall (fun n => getKind n = K_TupleElement) ns -> labelsFor labels (i + length ns) ->
  prints E (printParameters print labels types i ns) (fun _ => True).
Proof.
  intros Hg. revert i. induction Hg as [|n ns Hn Hg IH]; intros i Hk Hl; cbn [printParameters]; [prints|].
  inversion_clear Hk. cbn [length] in Hl.
  assert (labelsFor labels (S i)) by (intros l Hl'; destruct (Hl l Hl') as (? & ? & ?); split_and!; [done..|lia]).
  assert (labelsFor labels (i + 1 + length ns)) by
    (intros l Hl'; destruct (Hl l Hl') as (? & ? & ?); split_and!; [done..|lia]).
  pose proof (prints_parameter labels types i n). prints; auto.
Qed.

(** The labels go with the parameter tuple [P]. *)
Definition labelsMatch (labels : NodePointer) (P : Node) : Prop :=
  forall l, labels = Some l -> good h l /\ getKind l = K_LabelList
    /\ (children l <> [] -> forall i t,
          P = mkNode K_ArgumentTuple (IndexPayload i) [mkNode K_Type NoPayload [t]] -> getKind t = K_Tuple ->
          (length (children t) <= length (children l))%nat).

Lemma prints_functionParameters_safe labels P types :
  good (S h) P -> labelsMatch labels P -> prints E (printFunctionParameters print labels P types) (fun _ => True).
Proof.
  intros Hg Hl. unfold printFunctionParameters.
  destruct (Kind_eqb (getKind P) K_ArgumentTuple) eqn:Hk; [|prints]. facts. open_node P. cbn [Kind_eqb negb].
  destruct (Kind_eqb (getKind type) K_Tuple) eqn:Ht; [|prints].
  match goal with |- context [match labels with Some _ => _ | None => None end] =>
    set (labels' := match labels with Some _ => _ | None => None end) end.
  facts. destruct (good_list h _ _ type listKind_Tuple ltac:(assumption) ltac:(assumption)) as [Hgs Hks].
  assert (labelsFor labels' (0 + length (children type))) as Hl'.
  { subst labels'. destruct labels as [l|]; [|done]. destruct (Hl l eq_refl) as (? & ? & Hlen). intros l'.
    unfold getNumChildren. destruct (0 <? _)%nat eqn:E0; intros [= <-]. split_and!; [done..|].
    apply Nat.ltb_lt in E0. eapply Hlen; [|reflexivity|done]. intros He. rewrite He in E0. cbn in E0. lia. }
  assert (prints E (printParameters print labels' types 0 (children type)) (fun _ => True)).
  { apply prints_parameters_safe; [done| |done].
    eapply Forall_impl; [|exact Hks]. intros c. apply ofKind_true. }
  clearbody labels'. prints.
Qed.

(** The children of a type that looks like a function type: the result is there. *)
Lemma type_throws n a b :
  wf n -> isTypeChild (getKind n) = true -> children n = [a; b] -> getKind a <> K_ThrowsAnnotation.
Proof.
  destruct n as [k p cs]. cbn. intros Hw%wf_shape Hk -> Ha. cbn in Hw.
  destruct k; try discriminate Hk; unfold shape in Hw; cbn -[matches] in Hw;
    unfold matches, ofKind, kindIn, typeOf in Hw; rewrite ?Ha in Hw; cbn in Hw; unfold ofKind in Hw; rewrite ?Ha in Hw;
    cbn in Hw; rewrite ?andb_false_r in Hw; try discriminate Hw; destruct p; discriminate Hw.
Qed.

Lemma prints_functionType_safe labels n :
  wf n -> isTypeChild (getKind n) = true -> Forall (good h) (children n) ->
  Forall (labelsMatch labels) (children n) ->
  prints E (printFunctionType Options print labels n) (fun _ => True).
Proof.
  intros Hw Hk Hg Hl. pose proof (type_throws n) as Hth.
  assert (forall P types, good h P -> labelsMatch labels P ->
    prints E (printFunctionParameters print labels P types) (fun _ => True)) as Hparams
    by (intros; apply prints_functionParameters_safe; [by apply good_S|done]).
  destruct n as [k p cs]. cbn in *. unfold printFunctionType.
  destruct cs as [|a [|b [|c [|d cs]]]]; prints; repeat match goal with
    | H : Forall _ (_ :: _) |- _ => inversion_clear H
    | H : Forall _ [] |- _ => clear H
    end; prints.
  - specialize (Hth a b Hw Hk eq_refl).
    assert (Kind_eqb (getKind a) K_ThrowsAnnotation = false) by (by apply not_true_iff_false; rewrite Kind_eqb_eq).
    prints.
  - destruct (Kind_eqb (getKind a) K_ThrowsAnnotation) eqn:?; prints.
Qed.

(** A type of no labels of its own. *)
Lemma prints_plainFunctionType n :
  good (S h) n -> isTypeChild (getKind n) = true -> prints E (printFunctionType Options print None n) (fun _ => True).
Proof.
  intros Hg Hk. apply prints_functionType_safe; [apply Hg|done| |by apply List.Forall_forall].
  destruct n as [k p cs]. apply good_children in Hg; [done|]. by destruct k.
Qed.

(** ** The lowered function types *)

(** The state in which a child is printed. *)
Definition implState (k : Kind) : nat :=
  match k with K_ImplParameter => Inputs | K_ImplResult | K_ImplErrorResult => Results | _ => Attrs end.

Fixpoint implOrdered (cur : nat) (ns : list Node) : Prop :=
  match ns with
  | [] => True
  | c :: ns => (cur <= implState (getKind c))%nat /\ implOrdered (implState (getKind c)) ns
  end.

Lemma prints_transitionTo_safe new cur :
  (cur <= new <= 2)%nat -> prints E (transitionTo new cur) (fun _ => True).
Proof.
  intros H. unfold transitionTo. assert ((cur <=? new)%nat = true) as -> by (apply Nat.leb_le; lia).
  assert (forall n cur, (cur + n <= 2)%nat -> prints E (transitions n cur) (fun _ => True)) as Htr.
  { induction n as [|n IH]; intros c Hc; cbn [transitions]; [prints|].
    assert (prints E (transitions n (S c)) (fun _ => True)) by (apply IH; lia).
    unfold Attrs, Inputs. destruct c as [|[|c]]; [| |lia]; prints. }
  pose proof (Htr (new - cur)%nat cur ltac:(lia)). prints.
Qed.

Lemma prints_implChildren_safe ns cur :
  Forall (good h) ns -> (cur <= 2)%nat -> implOrdered cur ns ->
  prints E (printImplChildren print ns cur) (fun r => r <= 2)%nat.
Proof.
  intros Hg. revert cur. induction Hg as [|c ns Hc Hg IH]; intros cur Hcur Ho; cbn [printImplChildren]; [prints|].
  destruct Ho as [Hle Ho].
  destruct (getKind c); cbn in Hle, Ho;
    first [ pose proof (prints_transitionTo_safe Inputs cur ltac:(unfold Inputs in *; lia));
            pose proof (IH Inputs ltac:(unfold Inputs; lia) Ho); prints
          | pose proof (prints_transitionTo_safe Results cur ltac:(unfold Results in *; lia));
            pose proof (IH Results ltac:(unfold Results; lia) Ho); prints
          | assert (cur = 0%nat) as -> by (unfold Attrs in *; lia); pose proof (IH 0%nat ltac:(lia) Ho); prints ].
Qed.

Lemma implOrdered_app cur k l r :
  Forall (fun c => implState (getKind c) = k) l -> (cur <= k)%nat -> implOrdered k r -> implOrdered cur (l ++ r).
Proof.
  intros Hl. revert cur. induction Hl as [|c l Hc Hl IH]; intros cur Hk Hr; cbn.
  - destruct r as [|c r]; [done|]. cbn in *. split; [lia|apply Hr].
  - rewrite Hc. split; [done|]. by apply IH.
Qed.

Lemma prints_implFunctionType n :
  good (S h) n -> getKind n = K_ImplFunctionType -> prints E (printImplFunctionType print n) (fun _ => True).
Proof.
  intros Hg Hk. destruct n as [k p cs]. cbn in Hk. subst k. pose proof (good_shape _ _ Hg) as Hs.
  unfold shape in Hs. cbn -[matches] in Hs. rewrite andb_true_iff, orb_false_r in Hs. destruct Hs as [_ Hs].
  apply good_children in Hg; [|done].
  apply matches_inv in Hs as (ls & Hcs & Hls).
  assert (implOrdered Attrs cs) as Ho.
  { rewrite Hcs. repeat match goal with H : Forall2 _ _ _ |- _ => inversion_clear H end.
    cbn [concat].
    repeat (eapply implOrdered_app; [eapply Forall_impl; [|eassumption]; intros c Hc; cbn in Hc;
      unfold ofKind, kindIn in Hc; destruct (getKind c); first [discriminate Hc|cbn; reflexivity]
      |unfold Attrs, Inputs, Results; lia|]). done. }
  unfold printImplFunctionType.
  pose proof (prints_implChildren_safe cs Attrs Hg ltac:(unfold Attrs; lia) Ho). cbn [children].
  prints. apply prints_transitionTo_safe. unfold Results. lia.
Qed.

(** ** Specializations *)

Lemma good_printed n : good (S h) n -> getKind n = K_FunctionSignatureSpecialization \/ hasBare (getKind n) = false ->
  Forall (printedOrSkipped (good h)) (children n).
Proof.
  destruct n as [k p cs]. cbn. intros Hg [->|Hk].
  - destruct Hg as [Hw Hn Hb]. apply wf_iff in Hw as [_ Hw]. cbn in Hn. apply andb_true_iff in Hn as [_ Hn].
    apply below_children in Hb. cbn in Hb. rewrite forallb_forall in Hn. rewrite List.Forall_forall in *.
    intros c Hc. destruct (Hw c Hc) as [?|Hbare]; [left; split; auto|right].
    destruct c as [[] [] [|? ?]]; done.
  - apply good_children in Hg; [|done]. eapply Forall_impl; [|exact Hg]. by left.
Qed.

Lemma prints_closureTypes_safe ns i :
  Forall (good h) ns -> Forall (fun c => getKind c = K_Type) ns ->
  prints E (printClosureTypes print ns i) (fun j => j = i + length ns)%nat.
Proof.
  intros Hg. revert i. induction Hg as [|n ns Hn Hg IH]; intros i Hk; cbn [printClosureTypes]; [prints; cbn; lia|].
  inversion_clear Hk as [|? ? Hkn Hk']. pose proof (IH (i + 1)%nat Hk').
  prints; cbn [length]; lia.
Qed.

Lemma isSpecParamKind_In i :
  isSpecParamKind i = true -> In i [0; 1; 2; 3; 4; 5; 6; 7; 64; 128; 192; 256; 320; 384; 448].
Proof.
  unfold isSpecParamKind. cbn [existsb]. rewrite !orb_true_iff, andb_true_iff, !Z.eqb_eq, Z.leb_le, Z.ltb_lt.
  intros H. cbn. lia.
Qed.

(** The tests on the kind of a parameter, for a kind that is known. *)
Ltac known_kind i :=
  repeat match goal with
  | |- context [Z.eqb (wrap_u32 i) ?k] =>
      let v := eval vm_compute in (Z.eqb (wrap_u32 i) k) in change (Z.eqb (wrap_u32 i) k) with v
  | |- context [Z.eqb (Z.land (wrap_u32 i) ?k) 0] =>
      let v := eval vm_compute in (Z.eqb (Z.land (wrap_u32 i) k) 0) in
      change (Z.eqb (Z.land (wrap_u32 i) k) 0) with v
  end.

(** The one group of children is the whole node. *)
Lemma prints_functionSigParam n :
  good (S h) n -> getKind n = K_FunctionSignatureSpecializationParam ->
  prints E (printFunctionSigSpecializationParam dem print n 0) (fun i => i = getNumChildren n).
Proof.
  intros Hg Hk. destruct n as [k p cs]. cbn in Hk. subst k.
  pose proof (good_shape _ _ Hg) as Hs. cbn in Hs. unfold shape in Hs. cbn -[matches specParamShape] in Hs.
  rewrite !andb_true_iff in Hs. destruct Hs as [[_ Hd] _].
  apply good_children in Hg; [|done].
  destruct cs as [|[kk [| |i] kcs] cs]; try discriminate Hd. unfold specParamShape in Hd.
  apply andb_true_iff in Hd as [Hi%isSpecParamKind_In Hm].
  unfold printFunctionSigSpecializationParam.
  eapply prints_bind; [by apply prints_getChild_at|]. intros ? ->. eapply prints_bind; [apply prints_index|].
  intros ? ->. inversion_clear Hg as [|? ? Hg0 Hgs].
  repeat (destruct Hi as [<-|Hi]; [|]); try contradiction Hi;
    match goal with |- context [wrap_u32 ?i] => known_kind i end; cbn [andb orb negb];
    cbv [specParamParts Z.ltb Z.eqb Z.compare Pos.compare Pos.compare_cont Pos.eqb] in Hm;
    try (open_shape Hm; repeat match goal with H : Forall _ (_ :: _) |- _ => inversion_clear H end; facts; prints; done).
  (* the types of the arguments of a closure *)
  destruct cs as [|c ts]; [done|].
  assert (Forall (fun t => getKind t = K_Type) ts) as Ht.
  { apply andb_true_iff in Hm as [_ Hm]. apply (matches_many_inv _ []) in Hm as (l & r & -> & Hl & Hr).
    destruct r; [|discriminate Hr]. rewrite app_nil_r. eapply Forall_impl; [|exact Hl]. intros t. apply ofKind_true. }
  inversion_clear Hgs as [|? ? Hc Hts]. pose proof (prints_closureTypes_safe ts 2 Hts Ht).
  cbn [children Nat.add drop skipn]. prints.
Qed.

Lemma prints_specializationParam_safe n :
  good (S h) n -> getKind n = K_FunctionSignatureSpecializationParam ->
  prints E (printSpecializationParam dem print n) (fun _ => True).
Proof.
  intros Hg Hk. unfold printSpecializationParam. pose proof (prints_functionSigParam n Hg Hk).
  assert (prints (S := NodePrinter) E (getIndex n) (fun _ => True)).
  { destruct n as [k p cs]. cbn in Hk. subst k. pose proof (good_shape _ _ Hg) as Hs. by destruct p. }
  prints. destruct (getNumChildren n) eqn:En; cbn [printSpecializationParams]; rewrite En, Nat.ltb_irrefl; prints.
Qed.

Lemma dead_bit raw k : 0 <= k -> wrap_u32 raw = 2 ^ k -> Z.land raw (2 ^ k) <> 0.
Proof.
  intros Hk Hr H.
  assert (k < 32) as Hlt.
  { apply (Z.pow_lt_mono_r_iff 2); [lia..|]. rewrite <-Hr. apply Z.mod_pos_bound. lia. }
  assert (Z.testbit raw k = true) as Hb.
  { rewrite <-(Z.mod_pow2_bits_low raw 32) by done. unfold wrap_u32 in Hr. rewrite Hr. by apply Z.pow2_bits_true. }
  apply (f_equal (fun x => Z.testbit x k)) in H. rewrite Z.land_spec, Hb, Z.pow2_bits_true, Z.bits_0 in H by done.
  discriminate.
Qed.

Lemma prints_paramKind_safe raw : prints E (printParamKind raw) (fun _ => True).
Proof.
  unfold printParamKind. prints. exfalso.
  repeat match goal with
  | H : _ || _ = false |- _ => apply orb_false_iff in H as [? ?]
  | H : negb _ = false |- _ => apply negb_false_iff, Z.eqb_eq in H
  | H : _ || _ = true |- _ => apply orb_true_iff in H as [H|H]
  | H : (wrap_u32 _ =? _) = true |- _ => apply Z.eqb_eq in H
  end;
    [apply (dead_bit raw 6)|apply (dead_bit raw 7)|apply (dead_bit raw 8)]; done.
Qed.

(** ** Generic signatures *)

Lemma prints_paramCounts_safe counts ns depth :
  Forall (fun c => bareChild K_DependentGenericSignature c = true) counts ->
  Forall (fun c => getKind c <> K_DependentGenericParamCount) ns ->
  prints E (printParamCounts (counts ++ ns) depth) (fun r => r = ns).
Proof.
  intros Hc Hn. revert depth. induction Hc as [|c counts Hc H IH]; intros depth; cbn [app printParamCounts].
  - destruct Hn as [|c ns Hk Hn]; cbn [printParamCounts]; [by apply prints_ret|].
    assert (Kind_eqb (getKind c) K_DependentGenericParamCount = false) as ->
      by (by apply not_true_iff_false; rewrite Kind_eqb_eq).
    by apply prints_ret.
  - destruct c as [[] [] [|? ?]]; try discriminate Hc. pose proof (IH (depth + 1)). prints.
Qed.

(** A signature is its counts, which are read off, and its requirements. *)
Lemma signature_parts h' n :
  good (S h') n -> isSignature (getKind n) = true ->
  exists counts reqs, children n = counts ++ reqs
    /\ Forall (fun c => bareChild K_DependentGenericSignature c = true) counts
    /\ Forall (good h') reqs /\ Forall (fun c => getKind c <> K_DependentGenericParamCount) reqs.
Proof.
  destruct n as [k p cs]. cbn. intros Hg Hk. pose proof (good_shape _ _ Hg) as Hs. destruct Hg as [Hw Hn Hb].
  assert (matches [Many (ofKind K_DependentGenericParamCount); Many (kindIn isRequirement)] cs = true) as Hm.
  { unfold shape in Hs. destruct k; try discriminate Hk; cbn -[matches] in Hs; rewrite orb_false_r in Hs;
      by apply andb_true_iff in Hs as [_ Hs]. }
  apply matches_many_inv in Hm as (counts & reqs & -> & Hcounts & Hm).
  apply (matches_many_inv _ []) in Hm as (reqs' & r & -> & Hreqs & Hr). destruct r; [|discriminate Hr].
  rewrite app_nil_r in *. exists counts, reqs'.
  assert (Forall (fun c => getKind c <> K_DependentGenericParamCount) reqs') as Hkinds.
  { eapply Forall_impl; [|exact Hreqs]. intros c Hc E. unfold kindIn in Hc. by rewrite E in Hc. }
  apply wf_iff in Hw as [_ Hw]. cbn in Hn. apply andb_true_iff in Hn as [_ Hn]. apply below_children in Hb. cbn in Hb.
  rewrite forallb_forall in Hn. rewrite !List.Forall_forall in *.
  split_and!; [done| | |done].
  - intros c Hc. specialize (Hcounts c Hc). apply ofKind_true in Hcounts.
    destruct (Hw c ltac:(apply in_or_app; by left)) as [Hwc|Hbare].
    + apply wf_shape in Hwc. unfold shape in Hwc. rewrite Hcounts in Hwc. cbn in Hwc. by rewrite andb_false_r in Hwc.
    + destruct k; try discriminate Hk; exact Hbare.
  - intros c Hc. assert (In c (counts ++ reqs')) as Hin by (apply in_or_app; by right).
    split; [|by apply Hn|by apply Hb]. destruct (Hw c Hin) as [?|Hbare]; [done|].
    exfalso. apply (Hkinds c Hc). destruct k; try discriminate Hk; by destruct c as [[] [] [|? ?]].
Qed.

Lemma prints_genericSignature_safe n :
  good (S h) n -> isSignature (getKind n) = true -> prints E (printGenericSignature Options print n) (fun _ => True).
Proof.
  intros Hg Hk. destruct (signature_parts h n Hg Hk) as (counts & reqs & Hcs & Hcounts & Hreqs & Hkinds).
  unfold printGenericSignature. rewrite Hcs. pose proof (prints_paramCounts_safe counts reqs 0 Hcounts Hkinds). prints.
Qed.

(** ** The types of entities *)

Lemma labelsMatch_function h' l f i :
  good h l -> getKind l = K_LabelList -> good h' f -> functionParams f = Some i ->
  (children l <> [] -> Z.of_nat (length (children l)) = wrap_u32 i) ->
  Forall (labelsMatch (Some l)) (children f).
Proof.
  intros Hl Hkl Hf Hi Hlen.
  assert (getKind f = K_FunctionType) as Hk.
  { unfold functionParams in Hi. destruct (ofKind K_FunctionType f) eqn:E; [by apply ofKind_true|done]. }
  destruct (wf_FunctionType f (good_wf _ _ Hf) Hk) as (throws & args & result & -> & Ht & Hwa & Hka & Hwr & Hkr).
  destruct (wf_ArgumentTuple args Hwa Hka) as (ty & -> & _ & _). rewrite functionParams_spec in Hi by done.
  injection Hi as <-. cbn [children]. apply List.Forall_forall. intros P HP l' [= <-].
  split_and!; [done..|]. intros Hne j t -> Htk. specialize (Hlen Hne).
  assert (exists p, ty = mkNode K_Type NoPayload [t] /\ p = t) as (_ & -> & _).
  { apply in_app_or in HP as [HP|[HP|[HP|[]]]].
    - destruct Ht as [->|(th & -> & _ & Hth)]; [done|]. destruct HP as [->|[]]. discriminate Hth.
    - injection HP as _ <-. by exists t.
    - by rewrite HP in Hkr. }
  assert (Z.of_nat (length (children t)) < 2 ^ 32).
  { apply good_children' in Hf; [|done]. apply Forall_app in Hf as [_ Hf]. inversion_clear Hf as [|? ? Ha _].
    apply good_children' in Ha; [|done]. inversion_clear Ha as [|? ? Hty _].
    apply good_children' in Hty; [|done]. inversion_clear Hty as [|? ? Htt _].
    destruct Htt as [_ Hn _]. destruct t as [? ? tcs]. cbn in Hn |- *. apply andb_true_iff in Hn as [Hn _].
    by apply Z.ltb_lt in Hn. }
  unfold numParams, ofKind in Hlen. cbn in Hlen. rewrite Htk in Hlen. cbn in Hlen.
  rewrite wrap_u64_id, wrap_u32_id in Hlen by lia. lia.
Qed.

Lemma labelsMatch_empty l ns :
  good h l -> getKind l = K_LabelList -> children l = [] -> Forall (labelsMatch (Some l)) ns.
Proof. intros Hl Hk He. apply List.Forall_forall. intros P _ l' [= <-]. by split_and!. Qed.

Lemma labelsMatch_body h' l p f :
  good h l -> getKind l = K_LabelList -> good h' f -> labelsFit l (mkNode K_Type p [f]) = true ->
  getKind f <> K_DependentGenericType -> Forall (labelsMatch (Some l)) (children f).
Proof.
  intros Hl Hk Hf Hfit Hg. unfold labelsFit in Hfit. rewrite paramCount_plain in Hfit by done.
  destruct (children l) as [|c cs] eqn:E; [by apply labelsMatch_empty|].
  destruct (functionParams f) as [i|] eqn:Ei; [|done]. apply Z.eqb_eq in Hfit.
  apply (labelsMatch_function h' l f i); [done..|]. intros _. by rewrite E.
Qed.

Lemma labelsMatch_generic h' l p sig q f :
  good h l -> getKind l = K_LabelList -> good h' f ->
  labelsFit l (mkNode K_Type p [mkNode K_DependentGenericType q [sig; mkNode K_Type NoPayload [f]]]) = true ->
  Forall (labelsMatch (Some l)) (children f).
Proof.
  intros Hl Hk Hf Hfit. unfold labelsFit in Hfit. cbn in Hfit.
  destruct (children l) as [|c cs] eqn:E; [by apply labelsMatch_empty|].
  destruct (functionParams f) as [i|] eqn:Ei; [|done]. apply Z.eqb_eq in Hfit.
  apply (labelsMatch_function h' l f i); [done..|]. intros _. by rewrite E.
Qed.

Lemma good_type_children h' n : good h' n -> isTypeChild (getKind n) = true -> Forall (good h') (children n).
Proof. destruct n as [k p cs]. intros Hg Hk. apply good_children' in Hg; [done|]. by destruct k. Qed.

Lemma prints_needSpaceBeforeType_safe n : wf n -> prints E (needSpaceBeforeType n) (fun _ => True).
Proof.
  induction n as [k p cs IH] using Node_tree_ind. intros Hw. cbn [needSpaceBeforeType].
  destruct (Kind_eqb k K_Type) eqn:Hk; [|destruct k; first [done|prints]]. facts. subst k.
  destruct (wf_Type _ Hw eq_refl) as (c & [= -> ->] & Hc & _). inversion_clear IH. auto.
Qed.

Lemma prints_skipGenericTypes_safe n : wf n -> prints E (skipGenericTypes n) (fun _ => True).
Proof.
  assert (forall m n, (node_height n < m)%nat -> wf n -> prints E (skipGenericTypes n) (fun _ => True)) as H;
    [|by apply (H (S (node_height n))); lia].
  clear n. induction m as [|m IH]; intros n Hm Hw; [lia|].
  destruct (Kind_eqb (getKind n) K_DependentGenericType) eqn:Hk;
    [|destruct n as [k p cs]; destruct k; first [done|by apply prints_ret]].
  facts. destruct (wf_DependentGenericType n Hw Hk) as (sig & ty & -> & _ & _ & Hwt & Hkt).
  destruct (wf_Type ty Hwt Hkt) as (c & -> & Hwc & _).
  apply (IH c); [|done].
  pose proof (height_child (mkNode K_Type NoPayload [c]) c (or_introl eq_refl)).
  pose proof (height_lookup (mkNode K_DependentGenericType NoPayload [sig; mkNode K_Type NoPayload [c]]) 1 _ eq_refl).
  lia.
Qed.

#[local] Hint Resolve prints_needSpaceBeforeType_safe prints_skipGenericTypes_safe good_wf : printer.

Lemma prints_entityType_safe n p ty :
  hasBare (getKind n) = false -> good (S h) n -> good h ty -> isTypeChild (getKind ty) = true ->
  (forall l, getChildIf n K_LabelList = Some l -> labelsFit l (mkNode K_Type p [ty]) = true) ->
  prints E (printEntityType Options print n ty) (fun _ => True).
Proof.
  intros Hb Hn Hty Hk Hfit. unfold printEntityType.
  destruct (getChildIf n K_LabelList) as [l|] eqn:El; [|prints]. specialize (Hfit l eq_refl).
  assert (good h l /\ getKind l = K_LabelList) as [Hl Hkl].
  { destruct n as [k q cs]. apply getChildIf_In in El as [Hin Hkl]. split; [|done].
    apply good_children in Hn; [|done]. rewrite List.Forall_forall in Hn. by apply Hn. }
  destruct (Kind_eqb (getKind ty) K_DependentGenericType) eqn:Eg; facts.
  - destruct (wf_DependentGenericType ty (good_wf _ _ Hty) Eg) as (sig & t & -> & Hws & Hks & Hwt & Hkt).
    pose proof (good_children' _ K_DependentGenericType _ _ eq_refl Hty) as Hcs. inversion_clear Hcs as [|? ? Hgs Hcs'].
    inversion_clear Hcs' as [|? ? Hgt _].
    destruct (good_Type h t Hgt Hkt) as (f & -> & Hgf & Hkf).
    assert (prints E (printFunctionType Options print (Some l) f) (fun _ => True)).
    { apply prints_functionType_safe; [apply Hgf|done|by apply good_type_children|].
      by eapply labelsMatch_generic. }
    prints.
  - assert (prints E (printFunctionType Options print (Some l) ty) (fun _ => True)).
    { apply prints_functionType_safe; [apply Hty|done|by apply good_type_children|].
      eapply labelsMatch_body; [done..|]. intros E'. by rewrite E', (proj2 (Kind_eqb_eq _ _) eq_refl) in Eg. }
    prints.
Qed.

Lemma prints_entityTypeAs_safe n t b :
  hasBare (getKind n) = false -> good (S h) n ->
  (forall l ty, getChildIf n K_LabelList = Some l -> getChildIf n K_Type = Some ty -> labelsFit l ty = true) ->
  prints E (printEntityTypeAs Options print n t b) (fun _ => True).
Proof.
  intros Hb Hn Hfit. unfold printEntityTypeAs.
  destruct (getChildIf n K_Type) as [ty|] eqn:Et; [|prints]. cbn [isSome].
  assert (good h ty /\ getKind ty = K_Type) as [Hty Hkt].
  { destruct n as [k q cs]. apply getChildIf_In in Et as [Hin Hkt]. split; [|done].
    apply good_children in Hn; [|done]. rewrite List.Forall_forall in Hn. by apply Hn. }
  destruct (good_Type h ty Hty Hkt) as (c & -> & Hc & Hkc).
  assert (prints E (printEntityType Options print n c) (fun _ => True))
    by (eapply prints_entityType_safe; eauto).
  assert (prints E (needSpaceBeforeType c) (fun _ => True)) by by apply prints_needSpaceBeforeType_safe, Hc.
  assert (prints E (skipGenericTypes c) (fun _ => True)) by by apply prints_skipGenericTypes_safe, Hc.
  prints.
Qed.

(** ** Entities *)

Lemma prints_contextText c : good h c -> prints E (printContext Options c) (fun _ => True).
Proof.
  intros Hc. unfold printContext. destruct (Kind_eqb (getKind c) K_Module) eqn:Hk; [|prints].
  facts. assert (prints (S := NodePrinter) E (getText c) (fun _ => True)) by (apply (good_text h c Hc); by rewrite Hk). prints.
Qed.

#[local] Hint Resolve prints_contextText : printer.

Lemma prints_entityContext_safe c b :
  good h c -> prints E (printEntityContext Options print c b) (returns (good h)).
Proof. intros Hc. unfold printEntityContext. prints. Qed.

Lemma prints_entityName_safe n :
  hasBare (getKind n) = false -> good (S h) n -> (1 < getNumChildren n)%nat ->
  prints E (printEntityName print n) (fun _ => True).
Proof.
  intros Hb Hn H1. unfold printEntityName.
  assert (Forall (good h) (children n)) as Hcs by (destruct n; by eapply good_children).
  pose proof (prints_getChild_lt n 1 _ H1 Hcs).
  assert (forall c, getChildIf n K_PrivateDeclName = Some c -> good h c) as Hpriv.
  { intros c [Hin _]%getChildIf_In. rewrite List.Forall_forall in Hcs. by apply Hcs. }
  destruct (getChildIf n K_PrivateDeclName) as [c|]; [specialize (Hpriv c eq_refl)|]; prints.
Qed.

Lemma prints_entityNames_safe n hasName b e i o :
  hasBare (getKind n) = false -> good (S h) n -> (hasName = true -> 1 < getNumChildren n)%nat ->
  i < 0 \/ hasName = false /\ o = ""%string ->
  prints E (printEntityNames print n hasName b e i o) (fun _ => True).
Proof.
  intros Hb Hn H1 Hi. unfold printEntityNames.
  destruct (hasName || negb (String.eqb o "")) eqn:Hnamed; cbv zeta; [|prints].
  assert (i < 0) as Hi0.
  { destruct Hi as [?|[-> ->]]; [done|discriminate Hnamed]. }
  apply Z.ltb_lt in Hi0. rewrite Hi0.
  assert (prints E (if negb (String.eqb o "") then print_lit o else printEntityName print n) (fun _ => True)) as Hname.
  { destruct (String.eqb o "") eqn:Eo; [|by cbn; prints]. cbn [negb].
    apply prints_entityName_safe; [done..|]. apply H1. rewrite orb_false_r in Hnamed. done. }
  destruct (negb (String.eqb o "")); prints.
Qed.

Lemma prints_entity_safe n b t hasName e i o :
  hasBare (getKind n) = false -> good (S h) n -> (0 < getNumChildren n)%nat ->
  (hasName = true -> 1 < getNumChildren n)%nat -> i < 0 \/ hasName = false /\ o = ""%string ->
  (forall l ty, getChildIf n K_LabelList = Some l -> getChildIf n K_Type = Some ty -> labelsFit l ty = true) ->
  prints E (printEntity Options print n b t hasName e i o) (returns (good (S h))).
Proof.
  intros Hb Hn H0 H1 Hi Hfit. unfold printEntity.
  assert (Forall (good h) (children n)) as Hcs by (destruct n; by eapply good_children).
  pose proof (prints_getChild_lt n 0 _ H0 Hcs).
  pose proof (fun c => prints_entityContext_safe c). 
  pose proof (fun b => prints_entityNames_safe n hasName b e i o Hb Hn H1 Hi).
  pose proof (fun b => prints_entityTypeAs_safe n t b Hb Hn Hfit).
  destruct hasName; [pose proof (prints_getChild_lt n 1 _ (H1 eq_refl) Hcs)|]; prints.
Qed.

Lemma prints_entityKind n b t hasName e i o :
  good (S h) n -> isPrintedEntity (getKind n) = true ->
  (hasName = true -> isNamedEntity (getKind n) = true \/ 1 < getNumChildren n)%nat ->
  i < 0 \/ hasName = false /\ o = ""%string ->
  prints E (printEntity Options print n b t hasName e i o) (returns (good (S h))).
Proof.
  intros Hg Hk Hname Hi. pose proof (good_wf _ _ Hg) as Hw.
  destruct (entity_shape n Hw Hk) as [H0 H1].
  apply prints_entity_safe; [by destruct (getKind n)|done|done| |done|by apply entity_labels].
  intros Hn. destruct (Hname Hn) as [?|?]; auto.
Qed.

Lemma prints_abstractStorage_safe n b e :
  good h n -> getKind n = K_Variable \/ getKind n = K_Subscript ->
  prints E (printAbstractStorage Options print n b e) (returns (good (S h))).
Proof.
  intros Hg%good_S [Hk|Hk]; unfold printAbstractStorage; rewrite Hk; apply prints_entityKind; rewrite ?Hk; auto; by left.
Qed.

#[local] Hint Resolve prints_implFunctionType prints_genericSignature_safe prints_boundGeneric_safe
  prints_plainFunctionType prints_specializationParam_safe prints_paramKind_safe good_printed : printer.
#[local] Hint Extern 1 (_ = true) =>
  (reflexivity || match goal with H : getKind _ = _ |- _ => rewrite H; reflexivity end) : printer.
#[local] Hint Extern 1 (_ \/ hasBare _ = false) =>
  (match goal with H : getKind _ = _ |- _ => rewrite H end; first [left; reflexivity|right; reflexivity]) : printer.

Lemma prints_argumentTuple n types :
  good (S h) n -> prints E (printFunctionParameters print None n types) (fun _ => True).
Proof. intros Hg. by apply prints_functionParameters_safe. Qed.

Lemma prints_layoutRequirement n :
  good (S h) n -> getKind n = K_DependentGenericLayoutRequirement ->
  prints E (printLayoutRequirement print n) (fun _ => True).
Proof.
  intros Hg Hk. destruct n as [k p cs]. cbn in Hk. subst k. pose proof (good_shape _ _ Hg) as Hs. cbn in Hs.
  assert (forall c0 c1 cs', cs = c0 :: c1 :: cs' -> oneCharacter c1 = true) as Hone.
  { intros c0 c1 cs' ->. unfold shape in Hs. cbn -[matches oneCharacter] in Hs.
    apply andb_true_iff in Hs as [Hs _]. by apply andb_true_iff in Hs as [_ Hs]. }
  clear Hs. open_good Hg; specialize (Hone _ _ _ eq_refl); unfold oneCharacter in Hone;
    match goal with Hk : getKind ?c = K_Identifier |- _ =>
      destruct c as [k [|[|x [|? ?]]|] cs]; try discriminate Hone; cbn in Hk; subst k end;
    unfold printLayoutRequirement; prints.
Qed.

Lemma prints_directness n :
  good (S h) n -> getKind n = K_Directness ->
  prints E (index <- getIndex n ;; name <- directnessString (wrap_int index) ;;
            _ <- print_lit name ;; print_lit " ") (fun _ => True).
Proof.
  intros Hg Hk. destruct n as [k p cs]. cbn in Hk. subst k. pose proof (good_shape _ _ Hg) as Hs. cbn in Hs.
  unfold shape in Hs. cbn -[matches] in Hs. destruct p as [| |i]; try discriminate Hs.
  apply andb_true_iff in Hs as [Hi _]. cbn in Hi. apply orb_true_iff in Hi as [->%Z.eqb_eq | ->%Z.eqb_eq];
    unfold directnessString; prints; discriminate.
Qed.

Lemma prints_keyPathIndex_safe n :
  good (S h) n -> getKind n = K_KeyPathEqualsThunkHelper \/ getKind n = K_KeyPathHashThunkHelper ->
  prints E (printKeyPathIndex print n) (fun _ => True).
Proof.
  intros Hg Hk. assert (0 < getNumChildren n)%nat as Hn.
  { pose proof (good_shape _ _ Hg) as Hs. destruct n as [k p [|c cs]]; cbn in *; [|lia].
    destruct Hk as [-> | ->]; unfold shape in Hs; cbn -[matches] in Hs; by rewrite andb_false_r in Hs. }
  assert (Forall (good h) (children n)) as Hcs.
  { destruct n as [k p cs]. apply good_children in Hg; [done|]. by destruct Hk as [Hk | Hk]; cbn in Hk; subst k. }
  pose proof (prints_getChild_lt n (getNumChildren n - 1) _ ltac:(unfold getNumChildren in *; lia) Hcs).
  pose proof (fun k => Forall_take _ k _ Hcs). apply Nat.ltb_lt in Hn.
  unfold printKeyPathIndex. rewrite Hn. prints.
Qed.

Lemma prints_valueWitness n :
  good (S h) n -> getKind n = K_ValueWitness -> prints E (printValueWitness Options print n) (fun _ => True).
Proof.
  intros Hg Hk. destruct n as [k p cs]. cbn in Hk. subst k. pose proof (good_shape _ _ Hg) as Hs. cbn in Hs.
  unfold shape in Hs. cbn -[matches] in Hs. destruct p as [| |i]; try discriminate Hs.
  apply andb_true_iff in Hs as [Hi _]. cbn -[Z.leb Z.ltb] in Hi. apply andb_true_iff in Hi as [Hi1%Z.leb_le Hi2%Z.ltb_lt].
  assert (prints E (valueWitnessString (wrap_int i)) (fun _ => True)).
  { rewrite wrap_int_id by lia. unfold valueWitnessString.
    destruct (lookup_lt_is_Some_2 valueWitnessNames (Z.to_nat i)) as [name ->]; [cbn; lia|].
    apply Z.leb_le in Hi1. rewrite Hi1. prints. }
  open_good Hg. unfold printValueWitness. prints.
Qed.

Lemma prints_partialApply n name :
  good (S h) n -> isList (getKind n) = true -> prints E (printPartialApply Options print n name) (fun _ => True).
Proof.
  intros Hg Hk. pose proof (good_elements_S h n Hg Hk) as Hcs. unfold printPartialApply.
  destruct n as [k p [|c cs]]; cbn in Hcs; cbn [hasChildren children length Nat.eqb negb]; [prints|].
  inversion_clear Hcs. prints.
Qed.

Lemma prints_typeMangling n :
  good (S h) n -> getKind n = K_TypeMangling -> prints E (printTypeMangling Options print n) (fun _ => True).
Proof.
  intros Hg Hk. destruct n as [k p cs]. cbn in Hk. subst k. pose proof (good_shape _ _ Hg) as Hs. cbn in Hs.
  assert (forall c0 c1, cs = [c0; c1] -> labelsFit c0 c1 = true) as Hfit.
  { intros c0 c1 ->. unfold shape in Hs. cbn -[matches] in Hs.
    apply andb_true_iff in Hs as [Hs _]. by apply andb_true_iff in Hs as [_ Hs]. }
  clear Hs. open_good Hg; unfold printTypeMangling; [prints|]. specialize (Hfit _ _ eq_refl).
  assert (prints E (printFunctionType Options print (Some n) type) (fun _ => True)); [|prints].
  apply prints_functionType_safe; [by eapply good_wf|done|by apply good_type_children|].
  destruct (Kind_eqb (getKind type) K_DependentGenericType) eqn:Eg; facts.
  - destruct (wf_DependentGenericType type ltac:(by eapply good_wf) Eg) as (sig & t & -> & _ & Hks & _ & Hkt).
    cbn [children]. repeat apply Forall_cons_2; [| |apply Forall_nil_2]; intros l' [= <-];
      (split_and!; [done..|]); intros _ i t' ->; [discriminate Hks|discriminate Hkt].
  - eapply labelsMatch_body; [done..|]. intros E'. by rewrite E', (proj2 (Kind_eqb_eq _ _) eq_refl) in Eg.
Qed.

#[local] Hint Resolve prints_argumentTuple prints_layoutRequirement prints_directness prints_valueWitness
  prints_partialApply prints_typeMangling prints_keyPathIndex_safe : printer.
#[local] Hint Extern 1 (Forall _ (children (mkNode _ _ _))) => (cbn [children]; repeat (apply Forall_cons_2; [assumption|]); apply Forall_nil_2) : printer.
#[local] Hint Extern 1 (good _ _) =>
  match goal with H : getChildIf ?n _ = Some ?c |- good _ ?c => by apply (good_getChildIf _ n) in H as [? _] end
  : printer.
#[local] Hint Extern 1 (prints _ (printEntity _ _ _ _ _ _ _ _ _) _) =>
  (apply prints_entityKind;
     [assumption|reflexivity|first [discriminate|right; by apply Nat.ltb_lt]|first [by left|by right]]) : printer.
#[local] Hint Extern 1 (prints _ (printAbstractStorage _ _ _ _ _) _) =>
  (apply prints_abstractStorage_safe;
     [assumption|match goal with H : _ || _ = true |- _ => by rewrite orb_true_iff, !ofKind_true in H end]) : printer.

Lemma prints_kind_safe n b : good (S h) n -> prints E (printKind Options dem print n b) (returns (good (S h))).
Proof.
  intros Hg. unfold printKind. destruct (getKind n) eqn:Hk;
    try (apply prints_entityKind; [done|by rewrite Hk|by rewrite Hk; left|by left]);
    try (unfold printed; solve [prints]);
    try (eapply prints_unit; [by eauto with printer|prints]; fail);
    try (unfold printed, printPrefixed, printTwo; try unfold_part; unfold printTextOf, printIndexOf;
         open_node n; solve [prints]).
  open_node n. unfold printed, printGenericSpecializationParam. cbn [children drop skipn printConformances]. prints.
Qed.

End recursion.

Lemma prints_withFuel_safe h n b :
  good h n -> prints E (printWithFuel Options dem h n b) (returns (good h)).
Proof.
  revert n b. induction h as [|h IH]; intros n b Hn.
  - destruct Hn as [_ _ Hn]. destruct n. unfold below in Hn. cbn in Hn. lia.
  - by apply prints_kind_safe.
Qed.

(** A tree of the grammar prints, or fails in one of the ways above. *)
Lemma printRoot_safe root :
  wf root -> narrow root = true ->
  match printRoot Options dem root with Ok _ => True | Crash c => printer_crash dem c end.
Proof.
  intros Hw Hn. unfold printRoot.
  assert (good (node_height root) root) as Hg by (split; [done|done|apply Nat.le_refl]).
  pose proof (prints_withFuel_safe _ _ false Hg newNodePrinter) as H. unfold wp in H.
  by destruct (printWithFuel _ _ _ _ _ _) as [[r p]|c].
Qed.
End safety.
