(* ===== verification/PrinterTheorems.v ===== *)
(** * The printer's theorems *)

From Stdlib Require Import String.
From S2P Require Import Prelude Nodes ManglingUtils Demangler NodeShape DemanglerSpecs DemanglerSafety NodePrinter PrinterSpecs PrinterSafety.

(** Printing ends unless it demangles a name that runs on. *)
Lemma printRoot_ends Options dem root :
  printRoot Options dem root = Crash OutOfFuel ->
  exists text, In text (mentions root) /\ dem text = Crash OutOfFuel.
Proof.
  intros H. assert (inside (fun t => In t (mentions root)) (node_height root) root) as Hin
    by (split; [apply Nat.le_refl|by apply List.Forall_forall]).
  pose proof (prints_withFuel Options dem _ _ _ false Hin newNodePrinter) as Hp. unfold wp in Hp.
  unfold printRoot in H. destruct (printWithFuel _ _ _ _ _ _) as [[r p]|c]; [done|]. injection H as ->.
  by destruct Hp as [Hp|Hp].
Qed.

(** C9. Printing terminates on every tree, whether the demangler can build it or
    not: the recursion of [print], which also revisits contexts that could not
    be printed in prefix form, is bounded by the height of the tree. Only the
    demangling of a name that a specialization in the tree mentions may run on. *)
Theorem nodeToString_terminates Options dem root :
  nodeToString Options dem (Some root) = Crash OutOfFuel ->
  exists text, In text (mentions root) /\ dem text = Crash OutOfFuel.
Proof. apply printRoot_ends. Qed.

Lemma nodeToString_terminates_witness :
  exists text, In text (mentions (mkNode K_FunctionSignatureSpecializationParamPayload (TextPayload (lit "x")) []))
    /\ Crash (A := str) OutOfFuel = Crash OutOfFuel.
Proof.
  apply (nodeToString_terminates defaultDemangleOptions (fun _ => Crash OutOfFuel)). reflexivity.
Defined.

(** C6. A tree of the demangler's grammar in which no node has 2^32 or more children
    prints: no assertion of the printer fails, no child that is not there is taken
    and no switch falls through, whatever the options, but for an entity that has
    lost its type, a suffix with a byte that is negative as a [char], and what
    demangling a name inside a specialization does. The labels of a function, which
    are looked up by the number of the parameter, are as many as its parameters. *)
Theorem nodeToString_safe Options dem root :
  wf_node root = true -> narrow root = true ->
  match nodeToString Options dem (Some root) with
  | Ok _ => True
  | Crash c => printer_crash dem c
  end.
Proof. apply printRoot_safe. Qed.

(** The tree of a symbol. *)
Definition treeOf (MangledName : str) : NodePointer :=
  match demangleSymbol MangledName newDemangler with Ok (r, _) => r | Crash _ => None end.

Lemma treeOf_wf MangledName root : treeOf MangledName = Some root -> wf root.
Proof.
  unfold treeOf. intros H. pose proof (wp_demangleSymbol MangledName newDemangler) as Hw. unfold wp in Hw.
  destruct (demangleSymbol MangledName newDemangler) as [[r s]|c]; [|done]. subst r. by destruct (Hw root eq_refl).
Qed.

Definition methodTree : Node := default (createNode K_Global) (treeOf (lit "$S4main3FooV3bar1aySi_tF")).

Lemma nodeToString_safe_witness :
  match nodeToString defaultDemangleOptions Ok (Some methodTree) with
  | Ok text => text = lit "main.Foo.bar(a: Swift.Int) -> ()"
  | Crash c => False
  end
  /\ match nodeToString defaultDemangleOptions Ok (Some methodTree) with
     | Ok _ => True
     | Crash c => printer_crash Ok c
     end.
Proof.
  split; [vm_compute; reflexivity|].
  apply (nodeToString_safe defaultDemangleOptions Ok methodTree); vm_compute; reflexivity.
Defined.

(** C35. The crashes of printing the tree of a symbol are exactly two, when no name
    inside it crashes and no node has 2^32 or more children: an entity that has lost its type,
    reached by a method whose bound generic parent was rebuilt without its type, and
    the digits of [QuotedString] indexed with a negative number, reached by a suffix
    that is not ASCII. *)
Theorem nodeToString_crashes dem c :
  (forall t, exists text, dem t = Ok text) ->
  (exists MangledName Options root,
     treeOf MangledName = Some root /\ narrow root = true /\ nodeToString Options dem (Some root) = Crash c)
  <-> c = AssertionFailed "malformed entity" \/ c = OutOfRange "QuotedString: Hexdigit".
Proof.
  intros Hdem. split.
  - intros (MangledName & Options & root & Hroot & Hn & Hc).
    pose proof (printRoot_safe Options dem root (treeOf_wf _ _ Hroot) Hn) as H. cbn [nodeToString] in Hc.
    rewrite Hc in H. inversion H as [| |t c' Ht]; [by left|by right|]. destruct (Hdem t) as [text Ht']. congruence.
  - intros [-> | ->].
    + exists (lit "$S4main1SV3fooyyF3BarL_VySi__SiGD"), defaultDemangleOptions.
      eexists. split_and!; [vm_compute; reflexivity|vm_compute; reflexivity|vm_compute; reflexivity].
    + exists (lit "$SSiD." ++ [chr 0xC3; chr 0xA9]), defaultDemangleOptions.
      eexists. split_and!; [vm_compute; reflexivity|vm_compute; reflexivity|vm_compute; reflexivity].
Qed.

Lemma nodeToString_crashes_witness :
  (exists MangledName Options root,
     treeOf MangledName = Some root /\ narrow root = true
     /\ nodeToString Options Ok (Some root) = Crash (AssertionFailed "malformed entity"))
  <-> AssertionFailed "malformed entity" = AssertionFailed "malformed entity"
      \/ AssertionFailed "malformed entity" = OutOfRange "QuotedString: Hexdigit".
Proof. apply (nodeToString_crashes Ok). intros t. by exists t. Defined.
