(* ===== verification/OldDemangler.v ===== *)
(** * The old demangler

    Class [OldDemangler] of OldDemangler.cpp, the recursive descent parser for
    the names that begin with [_T]. The state is what is left of the text (the
    class [NameSource]) and the substitutions. A member function that returns a
    [NodePointer], an [Optional] or a [bool] with an out parameter returns an
    option here; a function that adds children to the node it is given returns
    that node.

    [demangleTypeImpl] and [demangleContext] call each other through everything
    else; they are parameters of the section, and tied with fuel at its end. *)

From Stdlib Require Import String.
From S2P Require Import Prelude Nodes ManglingUtils Punycode Demangler NodePrinter.

(** ** The text that is left *)

Record OldDemangler := mkOldDemangler {
  Mangled : str;
  Substitutions : list Node
}.

Abbreviation OM := (M OldDemangler).

Definition setMangled (t : str) (s : OldDemangler) : OldDemangler := mkOldDemangler t (Substitutions s).

Definition hasAtLeast (len : Z) : OM bool := gets (fun s => len <=? Z.of_nat (length (Mangled s))).
Definition isEmpty : OM bool := gets (fun s => (length (Mangled s) =? 0)%nat).
(** [slice(len)] *)
Definition slice (len : nat) : OM str := gets (fun s => take len (Mangled s)).
Definition advanceOffset (len : nat) : OM unit := modify (fun s => setMangled (drop len (Mangled s)) s).

(** [Text.front()], which asserts that there is a character. *)
Definition peek : OM ascii := fun s =>
  match Mangled s with
  | c :: _ => Ok (c, s)
  | [] => Crash (AssertionFailed "StringRef::front")
  end.

Definition next : OM ascii := c <- peek ;; _ <- advanceOffset 1 ;; ret c.

(** [nextIf(char)] *)
Definition nextIf (c : ascii) : OM bool :=
  e <- isEmpty ;;
  if (e : bool) then ret false
  else
    p <- peek ;;
    if negb (Ascii.eqb p c) then ret false else _ <- advanceOffset 1 ;; ret true.

(** [nextIf(StringRef)] *)
Definition nextIfStr (t : str) : OM bool :=
  text <- gets Mangled ;;
  if negb (startswith text t) then ret false else _ <- advanceOffset (length t) ;; ret true.

Definition getString : OM str :=
  result <- gets Mangled ;; _ <- advanceOffset (length result) ;; ret result.

(** [readUntil(c, result)], by the length of the text: what was read, when [c]
    stands behind it. *)
Fixpoint readUntilFrom (text : str) (c : ascii) (result : str) : option str * str :=
  match text with
  | [] => (None, [])
  | d :: rest => if Ascii.eqb d c then (Some result, text) else readUntilFrom rest c (result ++ [d])
  end.

Definition readUntil (c : ascii) : OM (option str) := fun s =>
  let '(result, rest) := readUntilFrom (Mangled s) c [] in Ok (result, setMangled rest s).

(** [x <-? m ;; k]: [if (!x) return nullptr;] *)
Notation "x <-? m ;; k" := (bind m (fun r => match r with Some x => k | None => ret None end))
  (at level 100, m at next level, right associativity) : swift_scope.

(** A chain of [if (Mangled.nextIf(prefix)) { ... }] each of which returns; for a
    single character both forms of [nextIf] do the same. *)
Fixpoint nextCases {A} (cases : list (str * OM A)) (otherwise : OM A) : OM A :=
  match cases with
  | [] => otherwise
  | (p, m) :: cases => b <- nextIfStr p ;; if (b : bool) then m else nextCases cases otherwise
  end.

Notation "p =>> a" := (@pair str _ (lit p%string) a)
  (at level 85, no associativity, only parsing) : swift_scope.

(** Every round of a loop reads a character. *)
Definition while_ {A B} (body : A -> OM (A + B)) (a : A) : OM B :=
  fun s => loop (S (length (Mangled s))) body a s.

(** [while (!Mangled.nextIf(c)) { ... }] *)
Definition untilNext_step {A} (c : ascii) (body : A -> OM (option A)) (a : A) : OM (A + option A) :=
  b <- nextIf c ;;
  if (b : bool) then ret (inr (Some a))
  else r <- body a ;; ret (match r with Some a => inl a | None => inr None end).

Definition untilNext {A} (c : ascii) (body : A -> OM (option A)) (a : A) : OM (option A) :=
  while_ (untilNext_step c body) a.

(** ** Characters *)

Definition isStartOfIdentifier (c : ascii) : bool := isDigit c || Ascii.eqb c "o".

Definition isStartOfNominalType (c : ascii) : bool :=
  Ascii.eqb c "C" || Ascii.eqb c "V" || Ascii.eqb c "O".

Definition isStartOfEntity (c : ascii) : bool :=
  switch c [ "F" ~> true; "I" ~> true; "v" ~> true; "P" ~> true; "s" ~> true; "Z" ~> true ]
    (isStartOfNominalType c).

Definition nominalTypeMarkerToNodeKind (c : ascii) : Kind :=
  switch c [ "C" ~> K_Class; "V" ~> K_Structure; "O" ~> K_Enum ] K_Identifier.

(** ** Numbers *)

Definition demangleDirectness : OM (option Z) :=
  nextCases [ "d" =>> ret (Some Directness_Direct); "i" =>> ret (Some Directness_Indirect) ] (ret None).

(** One round of the [while (true)]: a [uint64_t] wraps round. *)
Definition demangleNatural_step (num : Z) : OM (Z + Z) :=
  e <- isEmpty ;;
  if (e : bool) then ret (inr num)
  else
    c <- peek ;;
    if negb (isDigit c) then ret (inr num)
    else _ <- next ;; ret (inl (wrap_u64 (10 * num + (ord c - ord "0")))).

Definition demangleNatural : OM (option Z) :=
  e <- isEmpty ;;
  if (e : bool) then ret None
  else
    c <- next ;;
    if negb (isDigit c) then ret None
    else num <- while_ demangleNatural_step (ord c - ord "0") ;; ret (Some num).

Definition demangleBuiltinSize : OM (option Z) :=
  num <-? demangleNatural ;;
  b <- nextIf "_" ;;
  ret (if (b : bool) then Some num else None).

Definition demangleValueWitnessKind : OM (option Z) :=
  e <- isEmpty ;;
  if (e : bool) then ret None
  else
    c0 <- next ;;
    e <- isEmpty ;;
    if (e : bool) then ret None
    else
      c1 <- next ;;
      ret (match list_find (fun m => [c0; c1] = m) VALUE_WITNESSES with
           | Some (i, _) => Some (Z.of_nat i)
           | None => None
           end).

Definition demangleIndex : OM (option Z) :=
  b <- nextIf "_" ;;
  if (b : bool) then ret (Some 0)
  else
    natural <-? demangleNatural ;;
    b <- nextIf "_" ;;
    ret (if (b : bool) then Some (wrap_u64 (natural + 1)) else None).

Definition demangleIndexAsNode : OM NodePointer :=
  index <-? demangleIndex ;; ret (Some (createNodeIndex K_Number index)).

(** ** Identifiers *)

(** The lambda [decode]: the empty string when decoding fails. *)
Definition decode (isPunycoded : bool) (s : str) : OM str :=
  if negb isPunycoded then ret s
  else r <- decodePunycodeUTF8 s ;; ret (default [] r).

(** The kind of an operator identifier, whose [op_mode] has been read. *)
Definition operatorKind (op_mode : ascii) : option Kind :=
  switch op_mode
    [ "p" ~> Some K_PrefixOperator; "P" ~> Some K_PostfixOperator; "i" ~> Some K_InfixOperator ] None.

(** The length, the characters and what they stand for. *)
Definition demangleIdentifierText (isPunycoded isOperator : bool) (kind : Kind) : OM NodePointer :=
  length_ <-? demangleNatural ;;
  b <- hasAtLeast length_ ;;
  if negb b then ret None
  else
    identifier <- slice (Z.to_nat length_) ;;
    _ <- advanceOffset (Z.to_nat length_) ;;
    identifier <- decode isPunycoded identifier ;;
    if (length identifier =? 0)%nat then ret None
    else if isOperator then
      ret (match translateToOperator identifier with
           | Some opDecodeBuffer => Some (createNodeText kind opDecodeBuffer)
           | None => None
           end)
    else ret (Some (createNodeText kind identifier)).

Definition demangleIdentifier (kind : option Kind) : OM NodePointer :=
  e <- isEmpty ;;
  if (e : bool) then ret None
  else
    isPunycoded <- nextIf "X" ;;
    isOperator <- nextIf "o" ;;
    if (isOperator : bool) then
      match kind with
      | Some _ => ret None
      | None =>
          op_mode <- next ;;
          match operatorKind op_mode with
          | Some kind => demangleIdentifierText isPunycoded true kind
          | None => ret None
          end
      end
    else demangleIdentifierText isPunycoded false (default K_Identifier kind).

(** Two parts of a name in a node. *)
Definition demangleTwo (kind : Kind) (first second : OM NodePointer) : OM NodePointer :=
  discriminator <-? first ;;
  name <-? second ;;
  ret (Some (mkNode kind NoPayload [discriminator; name])).

Definition demangleDeclName : OM NodePointer :=
  nextCases
    [ "L" =>> demangleTwo K_LocalDeclName demangleIndexAsNode (demangleIdentifier None);
      "P" =>> demangleTwo K_PrivateDeclName (demangleIdentifier None) (demangleIdentifier None) ]
    (demangleIdentifier None).

(** ** Substitutions and modules *)

Definition pushSubstitution (n : Node) : OM unit :=
  modify (fun s => mkOldDemangler (Mangled s) (Substitutions s ++ [n])).

Definition createModule (name : str) : Node := createNodeText K_Module name.

Definition createSwiftType (typeKind : Kind) (name : string) : Node :=
  mkNode typeKind NoPayload [createModule STDLIB_NAME; createNodeText K_Identifier (lit name)].

(** The type for a letter of [demangleSubstitutionIndex]. *)
Definition swiftType (typeKind : Kind) (name : string) : OM NodePointer :=
  ret (Some (createSwiftType typeKind name)).

Definition demangleSubstitutionIndex : OM NodePointer :=
  e <- isEmpty ;;
  if (e : bool) then ret None
  else
    nextCases
      [ "o" =>> ret (Some (createModule MANGLING_MODULE_OBJC));
        "C" =>> ret (Some (createModule MANGLING_MODULE_CLANG_IMPORTER));
        "a" =>> swiftType K_Structure "Array";
        "b" =>> swiftType K_Structure "Bool";
        "c" =>> swiftType K_Structure "UnicodeScalar";
        "d" =>> swiftType K_Structure "Double";
        "f" =>> swiftType K_Structure "Float";
        "i" =>> swiftType K_Structure "Int";
        "V" =>> swiftType K_Structure "UnsafeRawPointer";
        "v" =>> swiftType K_Structure "UnsafeMutableRawPointer";
        "P" =>> swiftType K_Structure "UnsafePointer";
        "p" =>> swiftType K_Structure "UnsafeMutablePointer";
        "q" =>> swiftType K_Enum "Optional";
        "Q" =>> swiftType K_Enum "ImplicitlyUnwrappedOptional";
        "R" =>> swiftType K_Structure "UnsafeBufferPointer";
        "r" =>> swiftType K_Structure "UnsafeMutableBufferPointer";
        "S" =>> swiftType K_Structure "String";
        "u" =>> swiftType K_Structure "UInt" ]
      (index_sub <-? demangleIndex ;;
       gets (fun s => Substitutions s !! Z.to_nat index_sub)).

Definition demangleModule : OM NodePointer :=
  nextCases
    [ "s" =>> ret (Some (createModule STDLIB_NAME));
      "S" =>> (module <-? demangleSubstitutionIndex ;;
               ret (if Kind_eqb (getKind module) K_Module then Some module else None)) ]
    (module <-? demangleIdentifier (Some K_Module) ;;
     _ <- pushSubstitution module ;; ret (Some module)).

(** ** Generic parameters *)

Definition getDependentGenericParamType (depth index : Z) : Node :=
  let depth := wrap_u32 depth in
  let index := wrap_u32 index in
  mkNode K_DependentGenericParamType (TextPayload (archetypeName index depth))
    [createNodeIndex K_Index depth; createNodeIndex K_Index index].

Definition demangleGenericParamIndex : OM NodePointer :=
  nextCases
    [ "d" =>> (depth <-? demangleIndex ;;
               index <-? demangleIndex ;;
               ret (Some (getDependentGenericParamType (wrap_u64 (depth + 1)) index)));
      "x" =>> ret (Some (getDependentGenericParamType 0 0)) ]
    (index <-? demangleIndex ;;
     ret (Some (getDependentGenericParamType 0 (wrap_u64 (index + 1))))).

Definition demangleMetatypeRepresentation : OM NodePointer :=
  nextCases
    [ "t" =>> ret (Some (createNodeText K_MetatypeRepresentation (lit "@thin")));
      "T" =>> ret (Some (createNodeText K_MetatypeRepresentation (lit "@thick")));
      "o" =>> ret (Some (createNodeText K_MetatypeRepresentation (lit "@objc_metatype"))) ]
    (ret None).

(** ** Conventions *)

Inductive ImplConventionContext := Callee | Parameter_ | Result_.

(** One [CASE] of [demangleImplConvention]: the empty string is [Nothing]. *)
Definition conventionFor (ctxt : ImplConventionContext) (FOR_CALLEE FOR_PARAMETER FOR_RESULT : string) : OM str :=
  ret (lit (match ctxt with Callee => FOR_CALLEE | Parameter_ => FOR_PARAMETER | Result_ => FOR_RESULT end)).

Definition demangleImplConvention (ctxt : ImplConventionContext) : OM str :=
  nextCases
    [ "a" =>> conventionFor ctxt "" "" "@autoreleased";
      "d" =>> conventionFor ctxt "@callee_unowned" "@unowned" "@unowned";
      "D" =>> conventionFor ctxt "" "" "@unowned_inner_pointer";
      "g" =>> conventionFor ctxt "@callee_guaranteed" "@guaranteed" "";
      "e" =>> conventionFor ctxt "" "@deallocating" "";
      "i" =>> conventionFor ctxt "" "@in" "@out";
      "l" =>> conventionFor ctxt "" "@inout" "";
      "o" =>> conventionFor ctxt "@callee_owned" "@owned" "@owned" ]
    (ret []).

Definition demangleImplCalleeConvention (type : Node) : OM NodePointer :=
  attr <- nextCases [ "t" =>> ret (lit "@convention(thin)") ] (demangleImplConvention Callee) ;;
  ret (if (length attr =? 0)%nat then None
       else Some (nodeAddChild type (createNodeText K_ImplConvention attr))).

Definition addImplFunctionAttribute (parent : Node) (attr : string) : Node :=
  nodeAddChild parent (createNodeText K_ImplFunctionAttribute (lit attr)).

Section recursive.
(** The two functions that everything else goes through. *)
Variable demangleTypeImpl : OM NodePointer.
Variable demangleContext : OM NodePointer.

Definition demangleType : OM NodePointer :=
  type <-? demangleTypeImpl ;; ret (Some (nodeAddChild (createNode K_Type) type)).

(** [DEMANGLE_CHILD_OR_RETURN(PARENT, CHILD_KIND)] *)
Definition demangleChild (parent : Node) (child : OM NodePointer) : OM NodePointer :=
  node <-? child ;; ret (Some (nodeAddChild parent node)).

(** A node with one child that is demangled. *)
Definition demangleUnder (kind : Kind) (child : OM NodePointer) : OM NodePointer :=
  demangleChild (createNode kind) child.

(** ** Names of declarations *)

Definition demangleDeclarationName (kind : Kind) : OM NodePointer :=
  context <-? demangleContext ;;
  name <-? demangleDeclName ;;
  let decl := mkNode kind NoPayload [context; name] in
  _ <- pushSubstitution decl ;;
  ret (Some decl).

Definition demangleProtocolNameGivenContext (context : Node) : OM NodePointer :=
  name <-? demangleDeclName ;;
  let proto := mkNode K_Protocol NoPayload [context; name] in
  _ <- pushSubstitution proto ;;
  ret (Some proto).

Definition demangleProtocolNameImpl : OM NodePointer :=
  nextCases
    [ "S" =>> (sub <-? demangleSubstitutionIndex ;;
               if Kind_eqb (getKind sub) K_Protocol then ret (Some sub)
               else if negb (Kind_eqb (getKind sub) K_Module) then ret None
               else demangleProtocolNameGivenContext sub);
      "s" =>> demangleProtocolNameGivenContext (createModule STDLIB_NAME) ]
    (demangleDeclarationName K_Protocol).

Definition demangleProtocolName : OM NodePointer := demangleUnder K_Type demangleProtocolNameImpl.

Definition demangleNominalType : OM NodePointer :=
  nextCases
    [ "S" =>> demangleSubstitutionIndex;
      "V" =>> demangleDeclarationName K_Structure;
      "O" =>> demangleDeclarationName K_Enum;
      "C" =>> demangleDeclarationName K_Class;
      "P" =>> demangleDeclarationName K_Protocol ]
    (ret None).

(** ** Bound generic types *)

(** One round of the loop over the arguments. *)
Definition boundGenericArgs_step (args : Node) : OM NodePointer :=
  args <-? demangleChild args demangleType ;;
  e <- isEmpty ;;
  ret (if (e : bool) then None else Some args).

(** The arguments of one level of nesting. *)
Definition bindGenericArgs (nominalType : Node) : OM NodePointer :=
  args <-? untilNext "_" boundGenericArgs_step (createNode K_TypeList) ;;
  if (getNumChildren args =? 0)%nat then ret (Some nominalType)
  else
    let unboundType := nodeAddChild (createNode K_Type) nominalType in
    let result kind := ret (Some (mkNode kind NoPayload [unboundType; args])) in
    match getKind nominalType with
    | K_Class => result K_BoundGenericClass
    | K_Structure => result K_BoundGenericStructure
    | K_Enum => result K_BoundGenericEnum
    | _ => ret None
    end.

(** The parents have their arguments first; the recursive call may return null,
    which [addChild] does not accept. *)
Fixpoint demangleBoundGenericArgs (nominalType : Node) : OM NodePointer :=
  match nominalType with
  | mkNode _ _ [] => ret None
  | mkNode kind _ (parentOrModule :: _) =>
      nominalType <-
        (match getKind parentOrModule with
         | K_Module | K_Function | K_Extension => ret nominalType
         | _ =>
             parent <- demangleBoundGenericArgs parentOrModule ;;
             match parent with
             | None => fail (AssertionFailed "Node::addChild")
             | Some parent =>
                 name <- getChild nominalType 1 ;;
                 ret (mkNode kind NoPayload [parent; name])
             end
         end) ;;
      bindGenericArgs nominalType
  end.

Definition demangleBoundGenericType : OM NodePointer :=
  nominalType <-? demangleNominalType ;; demangleBoundGenericArgs nominalType.

(** ** Protocols *)

Definition demangleProtocolList : OM NodePointer :=
  type_list <-? untilNext "_" (fun type_list => demangleChild type_list demangleProtocolName)
                  (createNode K_TypeList) ;;
  ret (Some (nodeAddChild (createNode K_ProtocolList) type_list)).

Definition demangleProtocolConformance : OM NodePointer :=
  type <-? demangleType ;;
  protocol <-? demangleProtocolName ;;
  context <-? demangleContext ;;
  ret (Some (mkNode K_ProtocolConformance NoPayload [type; protocol; context])).

(** ** Dependent types and generic signatures *)

Definition demangleDependentMemberTypeName (base : Node) : OM NodePointer :=
  _ <- assert "base should be a type" (Kind_eqb (getKind base) K_Type) ;;
  assocTy <-?
    nextCases
      [ "S" =>> (assocTy <-? demangleSubstitutionIndex ;;
                 ret (if Kind_eqb (getKind assocTy) K_DependentAssociatedTypeRef then Some assocTy else None)) ]
      (protocol <-? nextCases [ "P" =>> (protocol <-? demangleProtocolName ;; ret (Some (Some protocol))) ]
                      (ret (Some None)) ;;
       assocTy <-? demangleIdentifier (Some K_DependentAssociatedTypeRef) ;;
       let assocTy := match protocol with
                      | Some protocol => nodeAddChild assocTy protocol
                      | None => assocTy
                      end in
       _ <- pushSubstitution assocTy ;;
       ret (Some assocTy)) ;;
  ret (Some (mkNode K_DependentMemberType NoPayload [base; assocTy])).

Definition demangleAssociatedTypeSimple : OM NodePointer :=
  base <-? demangleGenericParamIndex ;;
  demangleDependentMemberTypeName (nodeAddChild (createNode K_Type) base).

Definition demangleAssociatedTypeCompound : OM NodePointer :=
  base <-? demangleGenericParamIndex ;;
  untilNext "_" (fun base => demangleDependentMemberTypeName (nodeAddChild (createNode K_Type) base)) base.

Definition demangleDependentType : OM NodePointer :=
  e <- isEmpty ;;
  if (e : bool) then ret None
  else
    c <- peek ;;
    if negb (Ascii.eqb c "d") && negb (Ascii.eqb c "_") && negb (isDigit c) then
      baseType <-? demangleType ;; demangleDependentMemberTypeName baseType
    else demangleGenericParamIndex.

Definition demangleConstrainedTypeImpl : OM NodePointer :=
  nextCases
    [ "w" =>> demangleAssociatedTypeSimple;
      "W" =>> demangleAssociatedTypeCompound ]
    demangleGenericParamIndex.

Definition demangleConstrainedType : OM NodePointer := demangleUnder K_Type demangleConstrainedTypeImpl.

(** [SIZE_MAX], the size and the alignment of a layout that has none. *)
Definition SIZE_MAX : Z := 2 ^ 64 - 1.

(** The name, the size and the alignment of a layout constraint. *)
Definition layoutAlone (name : string) : OM (option (str * Z * Z)) := ret (Some (lit name, SIZE_MAX, SIZE_MAX)).
Definition layoutWithSize (name : string) : OM (option (str * Z * Z)) :=
  size <-? demangleNatural ;; ret (Some (lit name, size, SIZE_MAX)).
Definition layoutWithAlignment (name : string) : OM (option (str * Z * Z)) :=
  size <-? demangleNatural ;;
  b <- nextIf "_" ;;
  if negb b then ret None
  else alignment <-? demangleNatural ;; ret (Some (lit name, size, alignment)).

Definition demangleLayoutRequirement (constrainedType : Node) : OM NodePointer :=
  layout <-?
    nextCases
      [ "U" =>> layoutAlone "U"; "R" =>> layoutAlone "R"; "N" =>> layoutAlone "N"; "T" =>> layoutAlone "T";
        "E" =>> layoutWithAlignment "E"; "e" =>> layoutWithSize "e";
        "M" =>> layoutWithAlignment "M"; "m" =>> layoutWithSize "m" ]
      (ret None) ;;
  let '(name, size, alignment) := layout in
  let numbers :=
    if size =? SIZE_MAX then []
    else createNodeIndex K_Number size
         :: (if alignment =? SIZE_MAX then [] else [createNodeIndex K_Number alignment]) in
  ret (Some (mkNode K_DependentGenericLayoutRequirement NoPayload
               ([constrainedType; createNodeText K_Identifier name] ++ numbers))).

(** The class or protocol of a conformance. *)
Definition demangleConstraint : OM NodePointer :=
  e <- isEmpty ;;
  if (e : bool) then ret None
  else
    c <- peek ;;
    if Ascii.eqb c "C" then demangleType
    else if Ascii.eqb c "S" then
      _ <- next ;;
      sub <-? demangleSubstitutionIndex ;;
      demangleUnder K_Type
        (match getKind sub with
         | K_Protocol | K_Class => ret (Some sub)
         | K_Module => demangleProtocolNameGivenContext sub
         | _ => ret None
         end)
    else demangleProtocolName.

Definition demangleGenericRequirement : OM NodePointer :=
  constrainedType <-? demangleConstrainedType ;;
  nextCases
    [ "z" =>> (second <-? demangleType ;;
               ret (Some (mkNode K_DependentGenericSameTypeRequirement NoPayload [constrainedType; second])));
      "l" =>> demangleLayoutRequirement constrainedType ]
    (constraint <-? demangleConstraint ;;
     ret (Some (mkNode K_DependentGenericConformanceRequirement NoPayload [constrainedType; constraint]))).

(** [~(Node::IndexType)0]: no count has been read. *)
Definition noCount : Z := 2 ^ 64 - 1.

(** The lambda [addCount] *)
Definition addCount (sig : Node) (count : Z) : Node :=
  nodeAddChild sig (createNodeIndex K_DependentGenericParamCount count).

(** One round of the loop over the parameter counts. *)
Definition paramCounts_step (st : Node * Z) : OM (Node * Z + option (Node * Z)) :=
  let '(sig, count) := st in
  c <- peek ;;
  if Ascii.eqb c "R" || Ascii.eqb c "r" then ret (inr (Some (sig, count)))
  else
    count <-
      nextCases [ "z" =>> ret (Some 0) ]
        (count <-? demangleIndex ;; ret (Some (wrap_u64 (count + 1)))) ;;
    ret (match count with Some count => inl (addCount sig count, count) | None => inr None end).

Definition demangleGenericSignature (isPseudogeneric : bool) : OM NodePointer :=
  let sig := createNode (if isPseudogeneric then K_DependentPseudogenericSignature else K_DependentGenericSignature) in
  counted <-? while_ paramCounts_step (sig, noCount) ;;
  let '(sig, count) := counted in
  let sig := if count =? noCount then addCount sig 1 else sig in
  nextCases
    [ "r" =>> ret (Some sig);
      "R" =>> untilNext "r" (fun sig => demangleChild sig demangleGenericRequirement) sig ]
    (ret None).

(** ** Entities *)

Record EntityName := mkEntityName {
  entityKind : Kind;
  hasType : bool;
  wrapEntity : bool;
  name : NodePointer
}.

Definition unnamedEntity (kind : Kind) (hasType : bool) : OM (option EntityName) :=
  ret (Some (mkEntityName kind hasType false None)).
Definition namedEntity (kind : Kind) (hasType wrapEntity : bool) (name : OM NodePointer) : OM (option EntityName) :=
  name <-? name ;; ret (Some (mkEntityName kind hasType wrapEntity (Some name))).
(** An accessor, wrapped around the entity it belongs to. *)
Definition accessorEntity (kind : Kind) : OM (option EntityName) := namedEntity kind true true demangleDeclName.

Definition demangleEntityName (entityBasicKind : Kind) : OM (option EntityName) :=
  nextCases
    [ "D" =>> unnamedEntity K_Deallocator false;
      "d" =>> unnamedEntity K_Destructor false;
      "e" =>> unnamedEntity K_IVarInitializer false;
      "E" =>> unnamedEntity K_IVarDestroyer false;
      "C" =>> unnamedEntity K_Allocator true;
      "c" =>> unnamedEntity K_Constructor true;
      "a" =>> nextCases
                [ "O" =>> accessorEntity K_OwningMutableAddressor;
                  "o" =>> accessorEntity K_NativeOwningMutableAddressor;
                  "p" =>> accessorEntity K_NativePinningMutableAddressor;
                  "u" =>> accessorEntity K_UnsafeMutableAddressor ]
                (ret None);
      "l" =>> nextCases
                [ "O" =>> accessorEntity K_OwningAddressor;
                  "o" =>> accessorEntity K_NativeOwningAddressor;
                  "p" =>> accessorEntity K_NativePinningAddressor;
                  "u" =>> accessorEntity K_UnsafeAddressor ]
                (ret None);
      "g" =>> accessorEntity K_Getter;
      "G" =>> accessorEntity K_GlobalGetter;
      "s" =>> accessorEntity K_Setter;
      "m" =>> accessorEntity K_MaterializeForSet;
      "w" =>> accessorEntity K_WillSet;
      "W" =>> accessorEntity K_DidSet;
      "U" =>> namedEntity K_ExplicitClosure true false demangleIndexAsNode;
      "u" =>> namedEntity K_ImplicitClosure true false demangleIndexAsNode ]
    (if Kind_eqb entityBasicKind K_Initializer then
       nextCases
         [ "A" =>> namedEntity K_DefaultArgumentInitializer false false demangleIndexAsNode;
           "i" =>> unnamedEntity K_Initializer false ]
         (ret None)
     else namedEntity entityBasicKind true false demangleDeclName).

(** The [switch (name->getKind())]: whether the wrapped entity is a subscript,
    and the name that is left. *)
Definition subscriptName (name : Node) : OM (bool * NodePointer) :=
  match getKind name with
  | K_Identifier =>
      text <- getText name ;;
      ret (if str_eqb text (lit "subscript") then (true, None) else (false, Some name))
  | K_PrivateDeclName =>
      if (1 <? getNumChildren name)%nat then
        c <- getChild name 1 ;;
        text <- getText c ;;
        if str_eqb text (lit "subscript") then
          discriminator <- getChild name 0 ;;
          ret (true, Some (nodeAddChild (createNode K_PrivateDeclName) discriminator))
        else ret (false, Some name)
      else ret (false, Some name)
  | _ => ret (false, Some name)
  end.

(** [if (name) parent->addChild(name);] *)
Definition addOptional (parent : Node) (child : NodePointer) : Node :=
  match child with Some child => nodeAddChild parent child | None => parent end.

(** [if (hasType) { ... }] *)
Definition demangleTypeIf (hasType : bool) (parent : Node) : OM NodePointer :=
  if hasType then demangleChild parent demangleType else ret (Some parent).

(** The subscript or variable that an accessor belongs to. *)
Definition demangleWrappedEntity (context : Node) (e : EntityName) : OM NodePointer :=
  match name e with
  | None => fail (NullPointer "demangleEntity: name->getKind")
  | Some name =>
      sub <- subscriptName name ;;
      let '(isSubscript, name) := sub in
      if (isSubscript : bool) then
        wrappedEntity <-? demangleTypeIf (hasType e) (nodeAddChild (createNode K_Subscript) context) ;;
        ret (Some (addOptional wrappedEntity name))
      else
        match name with
        | None => fail (AssertionFailed "Node::addChild")
        | Some name => demangleTypeIf (hasType e) (mkNode K_Variable NoPayload [context; name])
        end
  end.

Definition demangleEntityOf (isStatic : bool) (entityBasicKind : Kind) : OM NodePointer :=
  context <-? demangleContext ;;
  e <-? demangleEntityName entityBasicKind ;;
  entity <-?
    (if wrapEntity e then demangleUnder (entityKind e) (demangleWrappedEntity context e)
     else demangleTypeIf (hasType e) (addOptional (nodeAddChild (createNode (entityKind e)) context) (name e))) ;;
  ret (Some (if isStatic then nodeAddChild (createNode K_Static) entity else entity)).

Definition demangleEntity : OM NodePointer :=
  isStatic <- nextIf "Z" ;;
  nextCases
    [ "F" =>> demangleEntityOf isStatic K_Function;
      "v" =>> demangleEntityOf isStatic K_Variable;
      "I" =>> demangleEntityOf isStatic K_Initializer;
      "i" =>> demangleEntityOf isStatic K_Subscript ]
    demangleNominalType.

(** The body of [demangleContext]. *)
Definition demangleContextBody : OM NodePointer :=
  e <- isEmpty ;;
  if (e : bool) then ret None
  else
    nextCases
      [ "E" =>> (def_module <-? demangleModule ;;
                 type <-? demangleContext ;;
                 ret (Some (mkNode K_Extension NoPayload [def_module; type])));
        "e" =>> (def_module <-? demangleModule ;;
                 sig <-? demangleGenericSignature false ;;
                 type <-? demangleContext ;;
                 ret (Some (mkNode K_Extension NoPayload [def_module; type; sig])));
        "S" =>> demangleSubstitutionIndex;
        "s" =>> ret (Some (createModule STDLIB_NAME));
        "G" =>> demangleBoundGenericType ]
      (c <- peek ;; if isStartOfEntity c then demangleEntity else demangleModule).

(** ** Archetypes *)

(** The lambda [makeAssociatedType(root)] *)
Definition makeAssociatedType (root : Node) : OM NodePointer :=
  name <-? demangleIdentifier None ;;
  let assocType := mkNode K_AssociatedTypeRef NoPayload [root; name] in
  _ <- pushSubstitution assocType ;;
  ret (Some assocType).

(** Every recursive call has read a [Q]. *)
Fixpoint demangleArchetypeTypeWith (fuel : nat) : OM NodePointer :=
  match fuel with
  | O => fail OutOfFuel
  | S fuel =>
      nextCases
        [ "Q" =>> (root <-? demangleArchetypeTypeWith fuel ;; makeAssociatedType root);
          "S" =>> (sub <-? demangleSubstitutionIndex ;; makeAssociatedType sub);
          "s" =>> makeAssociatedType (createModule STDLIB_NAME);
          "q" =>> (index <-? demangleIndexAsNode ;;
                   ctx <-? demangleContext ;;
                   ret (Some (mkNode K_QualifiedArchetype NoPayload
                                [index; nodeAddChild (createNode K_DeclContext) ctx]))) ]
        (ret None)
  end.

Definition demangleArchetypeType : OM NodePointer := fun s =>
  demangleArchetypeTypeWith (S (length (Mangled s))) s.

(** ** Tuples and functions *)

(** One element: the loop stops at the end of the text. *)
Definition tuple_step (elements : list Node) : OM (option (list Node)) :=
  e <- isEmpty ;;
  if (e : bool) then ret None
  else
    c <- peek ;;
    elt <-?
      (if isStartOfIdentifier c
       then demangleUnder K_TupleElement (demangleIdentifier (Some K_TupleElementName))
       else ret (Some (createNode K_TupleElement))) ;;
    elt <-? demangleChild elt demangleType ;;
    ret (Some (elements ++ [elt])).

(** The last element is marked after it has been added to the tuple, in front of
    its children. *)
Definition markVariadic (elt : Node) : OM Node :=
  elt <- reverseChildren elt 0 ;;
  reverseChildren (nodeAddChild elt (createNode K_VariadicMarker)) 0.

Definition demangleTuple (isVariadic : bool) : OM NodePointer :=
  elements <-? untilNext "_" tuple_step [] ;;
  elements <-
    (match elements !! (length elements - 1)%nat with
     | Some elt =>
         if isVariadic then
           elt <- markVariadic elt ;; ret (take (length elements - 1) elements ++ [elt])
         else ret elements
     | None => ret elements
     end) ;;
  ret (Some (mkNode K_Tuple NoPayload elements)).

Definition postProcessReturnTypeNode (out_args : Node) : Node :=
  nodeAddChild (createNode K_ReturnType) out_args.

Definition demangleFunctionType (kind : Kind) : OM NodePointer :=
  throws <- nextIf "z" ;;
  in_args <-? demangleType ;;
  out_args <-? demangleType ;;
  let annotation := if (throws : bool) then [createNode K_ThrowsAnnotation] else [] in
  ret (Some (mkNode kind NoPayload
               (annotation ++ [nodeAddChild (createNode K_ArgumentTuple) in_args;
                               postProcessReturnTypeNode out_args]))).

(** [impl-parameter] and [impl-result] *)
Definition demangleImplParameterOrResult (kind : Kind) : OM NodePointer :=
  b <- nextIf "z" ;;
  if (b : bool) && negb (Kind_eqb kind K_ImplResult) then ret None
  else
    let kind := if b then K_ImplErrorResult else kind in
    match (match kind with
           | K_ImplParameter => Some Parameter_
           | K_ImplResult | K_ImplErrorResult => Some Result_
           | _ => None
           end) with
    | None => ret None
    | Some ConvCtx =>
        convention <- demangleImplConvention ConvCtx ;;
        if (length convention =? 0)%nat then ret None
        else
          type <-? demangleType ;;
          ret (Some (mkNode kind NoPayload [createNodeText K_ImplConvention convention; type]))
    end.

Definition demangleImplParameters (parent : Node) : OM NodePointer :=
  untilNext "_" (fun parent => demangleChild parent (demangleImplParameterOrResult K_ImplParameter)) parent.

Definition demangleImplResults (parent : Node) : OM NodePointer :=
  untilNext "_" (fun parent => demangleChild parent (demangleImplParameterOrResult K_ImplResult)) parent.

(** The attribute of a function type, if there is one. *)
Definition demangleImplFunctionAttribute (type : Node) : OM NodePointer :=
  let attribute text := ret (Some (addImplFunctionAttribute type text)) in
  nextCases
    [ "C" =>> nextCases
                [ "b" =>> attribute "@convention(block)";
                  "c" =>> attribute "@convention(c)";
                  "m" =>> attribute "@convention(method)";
                  "O" =>> attribute "@convention(objc_method)";
                  "w" =>> attribute "@convention(witness_method)" ]%string
                (ret None) ]
    (ret (Some type)).

Definition demangleImplFunctionType : OM NodePointer :=
  type <-? demangleImplCalleeConvention (createNode K_ImplFunctionType) ;;
  type <-? demangleImplFunctionAttribute type ;;
  type <-?
    nextCases
      [ "G" =>> demangleChild type (demangleGenericSignature false);
        "g" =>> demangleChild type (demangleGenericSignature true) ]
      (ret (Some type)) ;;
  b <- nextIf "_" ;;
  if negb b then ret None
  else
    type <-? demangleImplParameters type ;;
    demangleImplResults type.

Definition demangleReabstractSignature (signature : Node) : OM NodePointer :=
  signature <-?
    nextCases [ "G" =>> demangleChild signature (demangleGenericSignature false) ] (ret (Some signature)) ;;
  signature <-? demangleChild signature demangleType ;;
  demangleChild signature demangleType.

(** ** Types *)

Definition builtinType (name : str) : OM NodePointer := ret (Some (createNodeText K_BuiltinTypeName name)).

(** A built-in number with its size. *)
Definition demangleBuiltinNumber (prefix : str) : OM NodePointer :=
  size <-? demangleBuiltinSize ;; builtinType (prefix ++ decimal size).

Definition demangleBuiltinVector : OM NodePointer :=
  elts <-? demangleNatural ;;
  b <- nextIf "B" ;;
  if negb b then ret None
  else
    let prefix := lit "Builtin.Vec" ++ decimal elts in
    nextCases
      [ "i" =>> demangleBuiltinNumber (prefix ++ lit "xInt");
        "f" =>> demangleBuiltinNumber (prefix ++ lit "xFloat");
        "p" =>> builtinType (prefix ++ lit "xRawPointer") ]
      (ret None).

Definition demangleBuiltinType : OM NodePointer :=
  e <- isEmpty ;;
  if (e : bool) then ret None
  else
    c <- next ;;
    switch c
      [ "b" ~> builtinType (lit "Builtin.BridgeObject");
        "B" ~> builtinType (lit "Builtin.UnsafeValueBuffer");
        "f" ~> demangleBuiltinNumber (lit "Builtin.Float");
        "i" ~> demangleBuiltinNumber (lit "Builtin.Int");
        "v" ~> demangleBuiltinVector;
        "O" ~> builtinType (lit "Builtin.UnknownObject");
        "o" ~> builtinType (lit "Builtin.NativeObject");
        "p" ~> builtinType (lit "Builtin.RawPointer");
        "t" ~> builtinType (lit "Builtin.SILToken");
        "w" ~> builtinType (lit "Builtin.Word") ]
      (ret None).

(** The fields of a box. *)
Definition boxFields_step (layout : Node) : OM NodePointer :=
  nextCases
    [ "m" =>> demangleChild layout (demangleUnder K_SILBoxMutableField demangleType);
      "i" =>> demangleChild layout (demangleUnder K_SILBoxImmutableField demangleType) ]
    (ret None).

Definition demangleSILBoxTypeWithLayout : OM NodePointer :=
  signature <-?
    nextCases [ "G" =>> (signature <-? demangleGenericSignature false ;; ret (Some (Some signature))) ]
      (ret (Some None)) ;;
  layout <-? untilNext "_" boxFields_step (createNode K_SILBoxLayout) ;;
  match signature with
  | None => ret (Some (mkNode K_SILBoxTypeWithLayout NoPayload [layout]))
  | Some signature =>
      genericArgs <-? untilNext "_" (fun args => demangleChild args demangleType) (createNode K_TypeList) ;;
      ret (Some (mkNode K_SILBoxTypeWithLayout NoPayload [layout; signature; genericArgs]))
  end.

(** A metatype with its representation. *)
Definition demangleMetatypeWithRepresentation (kind : Kind) : OM NodePointer :=
  metatypeRepr <-? demangleMetatypeRepresentation ;;
  type <-? demangleType ;;
  ret (Some (mkNode kind NoPayload [metatypeRepr; type])).

(** The types that begin with [X]. *)
Definition demangleExtendedType : OM NodePointer :=
  nextCases
    [ "b" =>> demangleUnder K_SILBoxType demangleType;
      "B" =>> demangleSILBoxTypeWithLayout;
      "M" =>> demangleMetatypeWithRepresentation K_Metatype;
      "P" =>> nextCases
                [ "M" =>> demangleMetatypeWithRepresentation K_ExistentialMetatype ]
                demangleProtocolList;
      "f" =>> demangleFunctionType K_ThinFunctionType;
      "o" =>> demangleUnder K_Unowned demangleType;
      "u" =>> demangleUnder K_Unmanaged demangleType;
      "w" =>> demangleUnder K_Weak demangleType;
      "F" =>> demangleImplFunctionType ]
    (ret None).

Definition demangleErrorType : OM NodePointer :=
  b <- nextIf "R" ;;
  if negb b then ret None
  else
    b <- nextIf "R" ;;
    ret (if (b : bool) then Some (createNodeText K_ErrorType []) else None).

Definition demangleDependentGenericType : OM NodePointer :=
  sig <-? demangleGenericSignature false ;;
  sub <-? demangleType ;;
  ret (Some (mkNode K_DependentGenericType NoPayload [sig; sub])).

(** The body of [demangleTypeImpl]. *)
Definition demangleTypeImplBody : OM NodePointer :=
  e <- isEmpty ;;
  if (e : bool) then ret None
  else
    c <- next ;;
    switch c
      [ "B" ~> demangleBuiltinType;
        "a" ~> demangleDeclarationName K_TypeAlias;
        "b" ~> demangleFunctionType K_ObjCBlock;
        "c" ~> demangleFunctionType K_CFunctionPointer;
        "D" ~> demangleUnder K_DynamicSelf demangleType;
        "E" ~> demangleErrorType;
        "F" ~> demangleFunctionType K_FunctionType;
        "f" ~> demangleFunctionType K_UncurriedFunctionType;
        "G" ~> demangleBoundGenericType;
        "X" ~> demangleExtendedType;
        "K" ~> demangleFunctionType K_AutoClosureType;
        "M" ~> demangleUnder K_Metatype demangleType;
        "P" ~> nextCases [ "M" =>> demangleUnder K_ExistentialMetatype demangleType ] demangleProtocolList;
        "Q" ~> demangleArchetypeType;
        "q" ~> demangleDependentType;
        "x" ~> ret (Some (getDependentGenericParamType 0 0));
        "w" ~> demangleAssociatedTypeSimple;
        "W" ~> demangleAssociatedTypeCompound;
        "R" ~> demangleUnder K_InOut demangleTypeImpl;
        "S" ~> demangleSubstitutionIndex;
        "T" ~> demangleTuple false;
        "t" ~> demangleTuple true;
        "u" ~> demangleDependentGenericType ]
      (if isStartOfNominalType c then demangleDeclarationName (nominalTypeMarkerToNodeKind c) else ret None).

(** ** Specializations *)

Definition specializationParam_step (specialization : Node) : OM NodePointer :=
  param <-? demangleUnder K_GenericSpecializationParam demangleType ;;
  param <-? untilNext "_" (fun param => demangleChild param demangleProtocolConformance) param ;;
  ret (Some (nodeAddChild specialization param)).

Definition demangleGenericSpecialization (specialization : Node) : OM NodePointer :=
  untilNext "_" specializationParam_step specialization.

(** The macros for the kind and the payload of a parameter. *)
Definition FUNCSIGSPEC_CREATE_PARAM_KIND (kind : Z) : Node :=
  createNodeIndex K_FunctionSignatureSpecializationParamKind kind.
Definition FUNCSIGSPEC_CREATE_PARAM_PAYLOAD (payload : str) : Node :=
  createNodeText K_FunctionSignatureSpecializationParamPayload payload.

(** A kind with an identifier behind it. *)
Definition constantPropName (parent : Node) (kind : Z) : OM NodePointer :=
  name <-? demangleIdentifier None ;;
  b <- nextIf "_" ;;
  if negb b then ret None
  else
    text <- getText name ;;
    ret (Some (nodeAddChild (nodeAddChild parent (FUNCSIGSPEC_CREATE_PARAM_KIND kind))
                 (FUNCSIGSPEC_CREATE_PARAM_PAYLOAD text))).

(** A kind with a number behind it, which is not parsed. *)
Definition constantPropNumber (parent : Node) (kind : Z) : OM NodePointer :=
  Str <-? readUntil "_" ;;
  b <- nextIf "_" ;;
  ret (if (b : bool)
       then Some (nodeAddChild (nodeAddChild parent (FUNCSIGSPEC_CREATE_PARAM_KIND kind))
                    (FUNCSIGSPEC_CREATE_PARAM_PAYLOAD Str))
       else None).

Definition constantPropString (parent : Node) : OM NodePointer :=
  b <- nextIf "e" ;;
  if negb b then ret None
  else
    encoding <- peek ;;
    if negb (Ascii.eqb encoding "0") && negb (Ascii.eqb encoding "1") then ret None
    else
      let encodingStr := if Ascii.eqb encoding "0" then lit "u8" else lit "u16" in
      _ <- advanceOffset 1 ;;
      b <- nextIf "v" ;;
      if negb b then ret None
      else
        str_ <-? demangleIdentifier None ;;
        b <- nextIf "_" ;;
        if negb b then ret None
        else
          text <- getText str_ ;;
          ret (Some (nodeAddChild
                       (nodeAddChild (nodeAddChild parent (FUNCSIGSPEC_CREATE_PARAM_KIND ConstantPropString))
                          (FUNCSIGSPEC_CREATE_PARAM_PAYLOAD encodingStr))
                       (FUNCSIGSPEC_CREATE_PARAM_PAYLOAD text))).

Definition demangleFuncSigSpecializationConstantProp (parent : Node) : OM NodePointer :=
  nextCases
    [ "fr" =>> constantPropName parent ConstantPropFunction;
      "g" =>> constantPropName parent ConstantPropGlobal;
      "i" =>> constantPropNumber parent ConstantPropInteger;
      "fl" =>> constantPropNumber parent ConstantPropFloat;
      "s" =>> constantPropString parent ]
    (ret None).

(** One round of the loop over the types, which a type that does not demangle
    ends as well, wherever it got stuck. *)
Definition closurePropTypes_step (parent : Node) : OM (Node + Node) :=
  c <- peek ;;
  if Ascii.eqb c "_" then ret (inr parent)
  else
    type <- demangleType ;;
    ret (match type with Some type => inl (nodeAddChild parent type) | None => inr parent end).

Definition demangleFuncSigSpecializationClosureProp (parent : Node) : OM NodePointer :=
  name <-? demangleIdentifier None ;;
  text <- getText name ;;
  let parent := nodeAddChild (nodeAddChild parent (FUNCSIGSPEC_CREATE_PARAM_KIND ClosureProp))
                  (FUNCSIGSPEC_CREATE_PARAM_PAYLOAD text) in
  parent <- while_ closurePropTypes_step parent ;;
  b <- nextIf "_" ;;
  ret (if (b : bool) then Some parent else None).

(** [if (Mangled.nextIf(c)) Value |= flag;] *)
Definition optionFlag (c : ascii) (flag Value : Z) : OM Z :=
  b <- nextIf c ;; ret (if (b : bool) then Z.lor Value flag else Value).

Definition demangleOptionSet (param : Node) : OM NodePointer :=
  Value <- optionFlag "d" Dead 0 ;;
  Value <- optionFlag "g" OwnedToGuaranteed Value ;;
  Value <- optionFlag "s" SROA Value ;;
  b <- nextIf "_" ;;
  ret (if negb b || (Value =? 0) then None
       else Some (nodeAddChild param (FUNCSIGSPEC_CREATE_PARAM_KIND Value))).

(** One parameter: the number of parameters is an [unsigned]. *)
Definition functionSignatureParam_step (st : Node * Z) : OM (option (Node * Z)) :=
  let '(specialization, paramCount) := st in
  let param := createNodeIndex K_FunctionSignatureSpecializationParam paramCount in
  param <-?
    nextCases
      [ "n_" =>> ret (Some param);
        "cp" =>> demangleFuncSigSpecializationConstantProp param;
        "cl" =>> demangleFuncSigSpecializationClosureProp param;
        "i_" =>> ret (Some (nodeAddChild param (FUNCSIGSPEC_CREATE_PARAM_KIND BoxToValue)));
        "k_" =>> ret (Some (nodeAddChild param (FUNCSIGSPEC_CREATE_PARAM_KIND BoxToStack))) ]
      (demangleOptionSet param) ;;
  ret (Some (nodeAddChild specialization param, wrap_u32 (paramCount + 1))).

Definition demangleFunctionSignatureSpecialization (specialization : Node) : OM NodePointer :=
  st <-? untilNext "_" functionSignatureParam_step (specialization, 0) ;;
  ret (Some st.1).

(** The mark and the number of the pass, which many specializations begin with. *)
Definition specializationOf (kind : Kind) : OM Node :=
  q <- nextIf "q" ;;
  let spec := if (q : bool) then nodeAddChild (createNode kind) (createNode K_SpecializationIsFragile)
              else createNode kind in
  c <- next ;;
  ret (nodeAddChild spec (createNodeIndex K_SpecializationPassID (wrap_u32 (signed_char c - 48)))).

Definition demangleSpecializedAttribute : OM NodePointer :=
  nextCases
    [ "g" =>> (spec <- specializationOf K_GenericSpecialization ;; demangleGenericSpecialization spec);
      "r" =>> (spec <- specializationOf K_GenericSpecializationNotReAbstracted ;;
               demangleGenericSpecialization spec);
      "f" =>> (spec <- specializationOf K_FunctionSignatureSpecialization ;;
               demangleFunctionSignatureSpecialization spec) ]
    (ret None).

(** ** Symbols *)

Definition demangleMetadata : OM NodePointer :=
  nextCases
    [ "P" =>> demangleUnder K_GenericTypeMetadataPattern demangleType;
      "a" =>> demangleUnder K_TypeMetadataAccessFunction demangleType;
      "L" =>> demangleUnder K_TypeMetadataLazyCache demangleType;
      "m" =>> demangleUnder K_Metaclass demangleType;
      "n" =>> demangleUnder K_NominalTypeDescriptor demangleType;
      "f" =>> demangleUnder K_FullTypeMetadata demangleType;
      "p" =>> demangleUnder K_ProtocolDescriptor demangleProtocolName ]
    (demangleUnder K_TypeMetadata demangleType).

Definition demangleValueWitness : OM NodePointer :=
  w <-? demangleValueWitnessKind ;;
  demangleChild (createNodeIndex K_ValueWitness w) demangleType.

Definition demangleWitness : OM NodePointer :=
  nextCases
    [ "V" =>> demangleUnder K_ValueWitnessTable demangleType;
      "v" =>> (directness <-? demangleDirectness ;;
               demangleChild (nodeAddChild (createNode K_FieldOffset) (createNodeIndex K_Directness directness))
                 demangleEntity);
      "P" =>> demangleUnder K_ProtocolWitnessTable demangleProtocolConformance;
      "G" =>> demangleUnder K_GenericProtocolWitnessTable demangleProtocolConformance;
      "I" =>> demangleUnder K_GenericProtocolWitnessTableInstantiationFunction demangleProtocolConformance;
      "l" =>> demangleTwo K_LazyProtocolWitnessTableAccessor demangleType demangleProtocolConformance;
      "L" =>> demangleTwo K_LazyProtocolWitnessTableCacheVariable demangleType demangleProtocolConformance;
      "a" =>> demangleUnder K_ProtocolWitnessTableAccessor demangleProtocolConformance;
      "t" =>> demangleTwo K_AssociatedTypeMetadataAccessor demangleProtocolConformance demangleDeclName;
      "T" =>> (accessor <-? demangleTwo K_AssociatedTypeWitnessTableAccessor
                              demangleProtocolConformance demangleDeclName ;;
               demangleChild accessor demangleProtocolName) ]
    (ret None).

Definition demangleThunk : OM NodePointer :=
  nextCases
    [ "R" =>> demangleReabstractSignature (createNode K_ReabstractionThunkHelper);
      "r" =>> demangleReabstractSignature (createNode K_ReabstractionThunk);
      "W" =>> demangleTwo K_ProtocolWitness demangleProtocolConformance demangleEntity ]
    (ret None).

(** The recursive call has read [PA__T]. *)
Fixpoint demangleGlobalWith (fuel : nat) : OM NodePointer :=
  match fuel with
  | O => fail OutOfFuel
  | S fuel =>
      e <- isEmpty ;;
      if (e : bool) then ret None
      else
        nextCases
          [ "M" =>> demangleMetadata;
            "PA" =>> (o <- nextIf "o" ;;
                      let forwarder :=
                        createNode (if (o : bool) then K_PartialApplyObjCForwarder else K_PartialApplyForwarder) in
                      nextCases [ "__T" =>> demangleChild forwarder (demangleGlobalWith fuel) ]
                        (ret (Some forwarder)));
            "t" =>> demangleUnder K_TypeMangling demangleType;
            "w" =>> demangleValueWitness;
            "W" =>> demangleWitness;
            "T" =>> demangleThunk ]
          demangleEntity
  end.

Definition demangleGlobal : OM NodePointer := fun s => demangleGlobalWith (S (length (Mangled s))) s.

(** One round of the loop over the specializations, each with substitutions of
    its own. *)
Definition specializations_step (topLevel : Node) : OM (Node + NodePointer) :=
  spec <- demangleSpecializedAttribute ;;
  match spec with
  | None => ret (inr None)
  | Some spec =>
      let topLevel := nodeAddChild topLevel spec in
      _ <- modify (fun s => mkOldDemangler (Mangled s) []) ;;
      b <- nextIfStr (lit "_TTS") ;;
      ret (if (b : bool) then inl topLevel else inr (Some topLevel))
  end.

Definition demangleTopLevel : OM NodePointer :=
  b <- nextIfStr (lit "_T") ;;
  if negb b then ret None
  else
    let topLevel := createNode K_Global in
    let attribute kind := ret (Some (nodeAddChild topLevel (createNode kind))) in
    topLevel <-?
      nextCases
        [ "TS" =>> (topLevel <-? while_ specializations_step topLevel ;;
                    b <- nextIfStr (lit "_T") ;;
                    ret (if (b : bool) then Some topLevel else None));
          "To" =>> attribute K_ObjCAttribute;
          "TO" =>> attribute K_NonObjCAttribute;
          "TD" =>> attribute K_DynamicAttribute;
          "Td" =>> attribute K_DirectMethodReferenceAttribute;
          "TV" =>> attribute K_VTableAttribute ]
        (ret (Some topLevel)) ;;
    topLevel <-? demangleChild topLevel demangleGlobal ;;
    e <- isEmpty ;;
    if (e : bool) then ret (Some topLevel)
    else
      rest <- getString ;;
      ret (Some (nodeAddChild topLevel (createNodeText K_Suffix rest))).
End recursive.

(** ** The recursion *)

Fixpoint demangleTypeImplWith (fuel : nat) (s : OldDemangler) : outcome (NodePointer * OldDemangler) :=
  match fuel with
  | O => Crash OutOfFuel
  | S fuel => demangleTypeImplBody (demangleTypeImplWith fuel) (demangleContextWith fuel) s
  end
with demangleContextWith (fuel : nat) (s : OldDemangler) : outcome (NodePointer * OldDemangler) :=
  match fuel with
  | O => Crash OutOfFuel
  | S fuel => demangleContextBody (demangleTypeImplWith fuel) (demangleContextWith fuel) s
  end.

(** Every recursive call has read a character: the length of the name is enough. *)
Definition demangleOldSymbolAsNode (MangledName : str) : outcome NodePointer :=
  let fuel := S (length MangledName) in
  result (demangleTopLevel (demangleTypeImplWith fuel) (demangleContextWith fuel)
            (mkOldDemangler MangledName [])).
