(* ===== verification/UnspecializedTypes.v ===== *)
(** * Types without their generic arguments

    What the two remanglers share on the way to an end: [isSpecialized] does not depend
    on the state, and the type that [getUnspecialized] makes is no higher than the one
    it is made of, has no other texts, and is not specialized itself. *)

From Stdlib Require Import String.
From S2P Require Import Prelude Nodes NodePrinter PrinterSpecs OldDemangler Remangler RemanglerSpecs.

(** [ok] holds for every text of a tree. *)
Fixpoint allTexts (ok : str -> bool) (n : Node) : bool :=
  match n with
  | mkNode _ p cs => (match p with TextPayload t => ok t | _ => true end) && forallb (allTexts ok) cs
  end.

Lemma allTexts_children ok n : allTexts ok n = true -> Forall (fun c => allTexts ok c = true) (children n).
Proof. destruct n as [k p cs]. cbn. intros [_ H]%andb_true_iff. by apply List.Forall_forall, forallb_forall. Qed.

Lemma allTexts_node ok k cs : Forall (fun c => allTexts ok c = true) cs -> allTexts ok (mkNode k NoPayload cs) = true.
Proof. intros H. cbn. by apply forallb_forall, List.Forall_forall. Qed.

Lemma allTexts_text ok n t : allTexts ok n = true -> payload n = TextPayload t -> ok t = true.
Proof. destruct n as [k p cs]. cbn. intros [H _]%andb_true_iff ->. exact H. Qed.

Lemma height_le k p cs h : Forall (below h) cs -> below (S h) (mkNode k p cs).
Proof.
  intros H. unfold below. cbn. enough (list_max (map node_height cs) <= h)%nat by lia.
  apply list_max_le. rewrite List.Forall_map. exact H.
Qed.

Lemma below_in h n c : In c (children n) -> below (S h) n -> below h c.
Proof. destruct n as [k p cs]. intros Hc Hn. by eapply below_child. Qed.

Lemma below_pred h n c : In c (children n) -> below h n -> below h c.
Proof. intros Hc%height_child Hn. unfold below in *. lia. Qed.

(** Low enough, and all texts as they should be. *)
Definition lies (ok : str -> bool) (h : nat) (n : Node) : Prop := below h n /\ allTexts ok n = true.

Lemma lies_in ok h n c : In c (children n) -> lies ok (S h) n -> lies ok h c.
Proof.
  intros Hc [Hb Ht]. split; [by eapply below_in|]. apply allTexts_children in Ht. rewrite List.Forall_forall in Ht. auto.
Qed.

Lemma lies_pred ok h n c : In c (children n) -> lies ok h n -> lies ok h c.
Proof.
  intros Hc [Hb Ht]. split; [by eapply below_pred|]. apply allTexts_children in Ht. rewrite List.Forall_forall in Ht. auto.
Qed.

Lemma lies_S ok h n : lies ok h n -> lies ok (S h) n.
Proof. intros []. split; [by apply below_S|done]. Qed.

Lemma lies_children ok h n : lies ok (S h) n -> Forall (lies ok h) (children n).
Proof. intros Hn. apply List.Forall_forall. intros c Hc. by eapply lies_in. Qed.

Lemma lies_node ok h k cs : Forall (lies ok h) cs -> lies ok (S h) (mkNode k NoPayload cs).
Proof.
  intros H. split; [apply height_le|apply allTexts_node]; (eapply Forall_impl; [|exact H]); by intros ? [].
Qed.

Lemma lies_0 ok n : ~ lies ok 0 n.
Proof. intros [H _]. unfold below in H. destruct n; cbn in H. lia. Qed.

(** Every text is as it should be when nothing is asked of it. *)
Lemma lies_any h n : below h n -> lies (fun _ => true) h n.
Proof.
  intros H. split; [done|]. clear H. induction n as [k p cs IH] using Node_tree_ind. cbn.
  destruct p; cbn; by apply forallb_forall, List.Forall_forall.
Qed.

Section ends.
Context {S : Type}.
Abbreviation ends m P := (prints (S := S) (fun c => c <> OutOfFuel) m P).

Lemma finishes_isSpecialized n : ends (isSpecialized n) (fun _ => True).
Proof.
  induction n as [k p cs IH] using Node_tree_ind. cbn [isSpecialized].
  destruct k; try (by apply prints_ret); (destruct cs as [|c [|d cs]]; try by apply prints_fail);
    inversion_clear IH as [|? ? ? IH']; try done; by inversion_clear IH'.
Qed.

#[export] Instance stateless_isSpecialized n : Stateless (S := S) (isSpecialized n).
Proof.
  induction n as [k p cs IH] using Node_tree_ind. cbn [isSpecialized].
  destruct k; try apply _; (destruct cs as [|c [|d cs]]; try apply _); inversion_clear IH as [|? ? IHc IH'];
    try apply IHc; by inversion_clear IH'.
Qed.

(** A type that is not bound to generic arguments, nor inside one that is. *)
Definition unspecialized (n : Node) : Prop := forall s : S, isSpecialized n s <> Ok (true, s).

Lemma ends_isSpecialized n : ends (isSpecialized n) (fun b => b = false -> unspecialized n).
Proof.
  intros s. pose proof (finishes_isSpecialized n s) as H. unfold wp in *.
  destruct (isSpecialized n s) as [[b s']|c] eqn:Hs; [|done]. intros -> s1.
  by rewrite (stateless s1 s), Hs.
Qed.

(** What is made of a specialized type is none, and lies where the type does. *)
Lemma ends_getUnspecialized ok h n : lies ok h n -> ends (getUnspecialized n) (fun u => lies ok h u /\ unspecialized u).
Proof.
  revert n. induction h as [|h IH]; intros [k p cs] Hn; [by apply lies_0 in Hn|].
  assert (forall c, In c cs -> lies ok h c) as Hcs by (intros c Hc; by apply (lies_in ok h (mkNode k p cs))).
  assert (forall parent : Node, lies ok h parent -> forall b, (b = false -> unspecialized parent) ->
    ends (if (b : bool) then getUnspecialized parent else ret parent) (fun u => lies ok h u /\ unspecialized u)) as Hparent.
  { intros parent Hp [] Hb; [by apply IH|apply prints_ret; auto]. }
  cbn [getUnspecialized]. destruct k; try (by apply prints_fail).
  all: destruct cs as [|c0 cs]; [by apply prints_fail|].
  all: lazymatch goal with
  | |- prints _ (bind (isSpecialized _) _) _ =>
      eapply prints_bind; [apply ends_isSpecialized|]; intros b Hb;
      eapply prints_bind; [by apply (Hparent c0); [apply Hcs; left|]|]; intros parent [Hp Hu];
      destruct cs as [|name cs]; [by apply prints_fail|]; apply prints_ret; split; [|exact Hu];
      apply lies_node; constructor; [exact Hp|]; constructor; [apply Hcs; right; by left|constructor]
  | |- prints _ (bind (assert _ _) _) _ =>
      apply prints_unit; [by apply prints_assert|];
      destruct c0 as [kc pc [|nominal ns]]; [by apply prints_fail|];
      assert (lies ok h nominal) as Hnom by
        (apply (lies_pred ok h (mkNode kc pc (nominal :: ns))); [by left|apply Hcs; by left]);
      eapply prints_bind; [apply ends_isSpecialized|]; intros b Hb;
      eapply prints_mono; [by apply (Hparent nominal)|]; intros u [? ?]; split; [by apply lies_S|done]
  | _ => idtac
  end.
  destruct cs as [|parent cs]; [by apply prints_fail|].
  eapply prints_bind; [apply ends_isSpecialized|]. intros [] Hb; cbn [negb].
  - eapply prints_bind; [by apply IH, Hcs; right; left|]. intros u [Hbu Hu]. apply prints_ret.
    split; [|exact Hu]. apply lies_node. constructor; [apply Hcs; by left|]. constructor; [done|].
    destruct cs as [|c2 [|? ?]]; constructor; [apply Hcs; do 2 right; by left|constructor].
  - apply prints_ret. split; [done|]. intros s. by apply Hb.
Qed.
End ends.
