(* ===== verification/RemanglerTermination.v ===== *)
(** * The remangler ends

    On every tree whose texts hold no code point above 0x10FFFF, the remangler comes
    to an end. *)

From Stdlib Require Import String.
From S2P Require Import Prelude Nodes ManglingUtils Punycode PunycodeTermination IdentifierMangling NodePrinter PrinterSpecs Demangler OldDemangler Remangler RemanglerSpecs UnspecializedTypes.

Abbreviation E := (fun c : crash => c <> OutOfFuel).
Abbreviation ends m P := (prints (S := Remangler) E m P).
Abbreviation finishes m := (ends m (fun _ => True)).

Ltac print_fail ::= discriminate.

(** ** What does not call [mangle] *)

Lemma halts_getChild n i : ends (getChild n i) (fun c => In c (children n)).
Proof.
  intros s. unfold wp, getChild. destruct (children n !! i) as [c|] eqn:H; cbn; [|done].
  apply list_elem_of_In. by eapply list_elem_of_lookup_2.
Qed.

Lemma halts_getFirstChild n : ends (getFirstChild n) (fun c => In c (children n)).
Proof. intros s. unfold wp, getFirstChild. destruct (children n) eqn:H; cbn; [done|by left]. Qed.

Lemma halts_getText n : ends (getText n) (fun t => payload n = TextPayload t).
Proof. intros s. unfold wp, getText. by destruct (payload n). Qed.

Lemma halts_getIndex n : ends (getIndex n) (fun _ => True).
Proof. intros s. unfold wp, getIndex. by destruct (payload n). Qed.

Lemma halts_emit t : finishes (emit t).
Proof. by intros s. Qed.

Lemma halts_put t : finishes (put t).
Proof. by intros s. Qed.

Lemma halts_unreachable {A} m : finishes (unreachable (A := A) m).
Proof. by intros s. Qed.

Lemma halts_modify f : finishes (modify f).
Proof. by intros s. Qed.

#[local] Hint Resolve halts_modify halts_unreachable halts_getChild halts_getFirstChild halts_getText halts_getIndex halts_emit halts_put : printer.

Lemma halts_mangleIndex v : finishes (mangleIndex v).
Proof. unfold mangleIndex. prints. Qed.

Lemma halts_getSingleChild n : ends (getSingleChild n) (fun c => In c (children n)).
Proof. unfold getSingleChild. prints. Qed.

Lemma halts_getSingleChildKind n k : ends (getSingleChildKind n k) (fun c => In c (children n)).
Proof. unfold getSingleChildKind. eapply prints_bind; [apply halts_getSingleChild|]. intros c Hc. prints. Qed.

Lemma halts_getChildOfType n : ends (getChildOfType n) (fun c => In c (children n)).
Proof. unfold getChildOfType. apply prints_unit; [by apply prints_assert|apply halts_getSingleChild]. Qed.

#[local] Hint Resolve halts_mangleIndex halts_getSingleChild halts_getSingleChildKind halts_getChildOfType : printer.

Lemma halts_mangleListSeparator b : finishes (mangleListSeparator b).
Proof. unfold mangleListSeparator. prints. Qed.

Lemma halts_mangleEndOfList b : finishes (mangleEndOfList b).
Proof. unfold mangleEndOfList. prints. Qed.

Lemma halts_resetBuffer n : finishes (resetBuffer n).
Proof. unfold resetBuffer. prints. Qed.

#[local] Hint Resolve halts_mangleListSeparator halts_mangleEndOfList halts_resetBuffer : printer.

Lemma halts_tryMergeSubst m c b : finishes (tryMergeSubst m c b).
Proof. unfold tryMergeSubst. prints. Qed.

#[local] Hint Resolve halts_tryMergeSubst : printer.

Lemma halts_tryMerge c b : finishes (tryMerge c b).
Proof. unfold tryMerge. prints. Qed.

#[local] Hint Resolve halts_tryMerge : printer.

Lemma halts_putStandardSubst c : finishes (putStandardSubst c).
Proof. unfold putStandardSubst. prints. Qed.

Lemma halts_putSubst i : finishes (putSubst i).
Proof. unfold putSubst. prints. Qed.

#[local] Hint Resolve halts_putStandardSubst halts_putSubst : printer.

Lemma halts_mangleStandardSubstitution n : finishes (mangleStandardSubstitution n).
Proof. unfold mangleStandardSubstitution. prints. Qed.

Lemma halts_setNode n b : finishes (setNode n b).
Proof. unfold setNode, deepHash. prints. Qed.

#[local] Hint Resolve halts_mangleStandardSubstitution halts_setNode : printer.

Lemma halts_trySubstitution n b : finishes (trySubstitution n b).
Proof. unfold trySubstitution. prints. Qed.

Lemma halts_addSubstitution entry : finishes (addSubstitution entry).
Proof. unfold addSubstitution. prints. Qed.

#[local] Hint Resolve halts_trySubstitution halts_addSubstitution : printer.

(** ** Identifiers *)

Lemma halts_scanIdent n : forall ident W p w Ws SWs, finishes (scanIdent n ident W p w Ws SWs).
Proof. induction n as [|n IH]; intros; cbn [scanIdent]; prints. Qed.

Lemma halts_copySubstring n : forall ident p W, finishes (copySubstring n ident p W).
Proof. induction n as [|n IH]; intros; cbn [copySubstring]; prints. Qed.

#[local] Hint Resolve halts_scanIdent halts_copySubstring : printer.

Lemma halts_emitReplacements Repls : forall ident p W, finishes (emitReplacements Repls ident p W).
Proof. induction Repls as [|r Repls IH]; intros; cbn [emitReplacements]; prints. Qed.

Lemma halts_encodePunycodeUTF8 text : unicodeText text = true -> finishes (encodePunycodeUTF8 text true).
Proof.
  unfold unicodeText, encodePunycodeUTF8. destruct (convertUTF8toUTF32 text true) as [cps|]; [|intros _; by apply prints_ret].
  rewrite forallb_forall. intros H s. apply wp_encodePunycode; try done. apply List.Forall_forall. intros c Hc%H%Z.leb_le. exact Hc.
Qed.

#[local] Hint Resolve halts_emitReplacements halts_encodePunycodeUTF8 : printer.

Lemma halts_mangleIdentifier ident : unicodeText ident = true -> finishes (mangleIdentifier ident).
Proof. intros H. unfold mangleIdentifier. prints. Qed.

#[local] Hint Resolve halts_mangleIdentifier unicodeText_translate unicodeText_underscore : printer.

(** The texts of the tree are encodable. *)
Abbreviation encodable n := (allTexts unicodeText n = true).

Lemma halts_mangleIdentifierImpl n b : encodable n -> finishes (mangleIdentifierImpl n b).
Proof.
  intros Hn. unfold mangleIdentifierImpl. eapply prints_bind; [apply halts_trySubstitution|]. intros [[] entry] _; [by apply prints_ret|].
  eapply prints_bind; [apply halts_getText|]. intros t Ht. cbv beta in Ht. pose proof (allTexts_text _ _ _ Hn Ht).
  destruct b; prints.
Qed.

Lemma halts_mangleIdentifierNode n : encodable n -> finishes (mangleIdentifierNode n).
Proof. apply halts_mangleIdentifierImpl. Qed.

#[local] Hint Resolve halts_mangleIdentifierImpl halts_mangleIdentifierNode : printer.

Lemma halts_genericParamIndex n p c : finishes (mangleDependentGenericParamIndex n p c).
Proof. unfold mangleDependentGenericParamIndex. prints. Qed.

#[local] Hint Resolve halts_genericParamIndex : printer.

Lemma halts_paramIndexOf n p c : finishes (mangleParamIndexOf n p c).
Proof. unfold mangleParamIndexOf. destruct n; prints. Qed.

Lemma halts_mangleBuiltinTypeName n : finishes (mangleBuiltinTypeName n).
Proof. unfold mangleBuiltinTypeName, mangleBuiltinVector. prints. Qed.

Lemma halts_paramCounts ns : finishes (mangleParamCounts ns).
Proof. induction ns as [|n ns IH]; cbn [mangleParamCounts]; prints. Qed.

Lemma halts_convention site n cases : finishes (mangleConvention site n cases).
Proof. unfold mangleConvention. prints. Qed.

#[local] Hint Resolve halts_paramIndexOf halts_mangleBuiltinTypeName halts_paramCounts halts_convention : printer.

Lemma halts_implChild n : finishes (mangleImplChild n).
Proof. unfold mangleImplChild. destruct (getKind n); prints. Qed.

#[local] Hint Resolve halts_implChild : printer.

Lemma halts_implChildren ns : finishes (mangleImplChildren ns).
Proof. induction ns as [|n ns IH]; cbn [mangleImplChildren]; prints. Qed.

#[local] Hint Resolve halts_implChildren : printer.

(** A chain of member types: the names are below the node. *)
Lemma halts_memberChain n h : lies unicodeText (S h) n -> ends (memberChain n) (fun r => Forall (lies unicodeText h) r.1).
Proof.
  revert n h. assert (forall m n h, below m n -> lies unicodeText (S h) n ->
    ends (memberChain n) (fun r => Forall (lies unicodeText h) r.1)) as H.
  { induction m as [|m IH]; intros [k p cs] h Hm Hn; [by unfold below in Hm; cbn in Hm; lia|].
    cbn [memberChain]. destruct k; try (by apply prints_ret).
    destruct cs as [|[tk tp ts] [|name cs]]; try (by apply prints_fail). apply prints_unit; [by apply prints_assert|].
    destruct ts as [|inner [|? ?]]; try (by apply prints_fail).
    set (type := mkNode tk tp [inner]) in *. set (member := mkNode K_DependentMemberType p (type :: name :: cs)) in *.
    eapply prints_bind; [apply (IH inner h)|].
    - apply (below_pred m type); [by left|]. apply (below_in m member); [by left|done].
    - apply lies_S, (lies_pred _ h type); [by left|]. apply (lies_in _ h member); [by left|done].
    - intros [Chain last] Hc. apply prints_ret. cbn. constructor; [|exact Hc].
      apply (lies_in _ h member); [right; by left|done]. }
  intros n h Hn. by apply (H (node_height n)); [unfold below|].
Qed.

(** ** The handlers *)

(** The handlers of a node that lies below [S h], with [mangle] for those below it. *)
Section recursion.
Context (h : nat) (mangle mangleUnboundType : Node -> RM unit).
Abbreviation lies := (lies unicodeText).
Hypothesis Hmangle : forall n, lies h n -> finishes (mangle n).
Hypothesis HmangleUnbound : forall n, lies (S h) n -> unspecialized (S := Remangler) n -> finishes (mangleUnboundType n).

Lemma lies_texts g n : lies g n -> encodable n.
Proof. by intros []. Qed.

#[local] Hint Resolve Hmangle : printer.
#[local] Hint Extern 2 (UnspecializedTypes.lies _ _ _) => solve [eauto 6 using lies_in, lies_pred, lies_S] : printer.
#[local] Hint Extern 2 (allTexts _ _ = true) =>
  solve [match goal with H : lies _ ?n |- allTexts _ ?n = true => exact (proj2 H) end
        |apply (lies_texts h); eauto 6 using lies_in, lies_pred, lies_S] : printer.
#[local] Hint Extern 3 (Forall (UnspecializedTypes.lies _ _) (children _)) => (apply lies_children; print_spec) : printer.

Lemma lies_below g n : lies g n -> Forall (lies g) (children n).
Proof. intros Hn. by apply lies_children, lies_S. Qed.

Lemma halts_mangleNodes ns : Forall (lies h) ns -> finishes (mangleNodes mangle ns).
Proof. intros H. induction H; cbn [mangleNodes]; prints. Qed.

Lemma halts_mangleChildNodes n : lies (S h) n -> finishes (mangleChildNodes mangle n).
Proof. intros H. by apply halts_mangleNodes, lies_children. Qed.

Lemma halts_mangleChildNodesReversed n : lies (S h) n -> finishes (mangleChildNodesReversed mangle n).
Proof. intros H. by apply halts_mangleNodes, Forall_reverse, lies_children. Qed.

Lemma halts_mangleSingleChildNode n : lies (S h) n -> finishes (mangleSingleChildNode mangle n).
Proof. intros H. unfold mangleSingleChildNode. prints. Qed.

Lemma halts_mangleChildNode n i : lies (S h) n -> finishes (mangleChildNode mangle n i).
Proof. intros H. unfold mangleChildNode. prints. Qed.

#[local] Hint Resolve halts_mangleNodes halts_mangleChildNodes halts_mangleChildNodesReversed halts_mangleSingleChildNode
  halts_mangleChildNode : printer.

Lemma halts_manglePureProtocol n : lies (S h) n -> finishes (manglePureProtocol mangle n).
Proof.
  intros H. unfold manglePureProtocol, skipType. destruct (Kind_eqb _ _); [|prints].
  eapply prints_bind; [apply halts_getSingleChild|]. intros c Hc. cbv beta in Hc. prints.
Qed.

Lemma halts_functionSignature n : lies (S h) n -> finishes (mangleFunctionSignature mangle n).
Proof. apply halts_mangleChildNodesReversed. Qed.

Lemma halts_mangleType n : lies (S h) n -> finishes (mangleType mangle n).
Proof. apply halts_mangleSingleChildNode. Qed.

#[local] Hint Resolve halts_manglePureProtocol halts_functionSignature halts_mangleType : printer.

Lemma halts_mangleTypes ns : Forall (lies (S h)) ns -> finishes (mangleTypes mangle ns).
Proof. intros H. induction H; cbn [mangleTypes]; prints. Qed.

Lemma halts_mangleChain ns : Forall (lies h) ns -> forall t, finishes (mangleChain mangle ns t).
Proof. intros H. induction H; intros t; cbn [mangleChain]; prints. Qed.

Lemma halts_mangleListItems ns : Forall (lies h) ns -> forall b, finishes (mangleListItems mangle ns b).
Proof. intros H. induction H; intros b; cbn [mangleListItems]; prints. Qed.

Lemma halts_manglePureProtocols ns : Forall (lies (S h)) ns -> forall b, finishes (manglePureProtocols mangle ns b).
Proof. intros H. induction H; intros b; cbn [manglePureProtocols]; prints. Qed.

Lemma halts_otherChildren ns : Forall (lies h) ns -> finishes (mangleOtherChildren mangle ns).
Proof. intros H. induction H; cbn [mangleOtherChildren]; prints. Qed.

Lemma halts_genericParams ns : Forall (lies (S h)) ns -> forall b, finishes (mangleGenericParams mangle ns b).
Proof. intros H. induction H; intros b; cbn [mangleGenericParams]; prints. Qed.

Lemma halts_signatureRequirements ns : Forall (lies h) ns -> forall i e, finishes (mangleSignatureRequirements mangle ns i e).
Proof. intros H. induction H; intros i e; cbn [mangleSignatureRequirements]; prints. Qed.

Lemma halts_specParams n ns : Forall (lies h) ns -> forall b, finishes (mangleSpecParams mangle n ns b).
Proof. intros H. induction H; intros b; cbn [mangleSpecParams]; prints. Qed.

Lemma halts_implTypes ns : Forall (lies h) ns -> forall t sig,
  (forall n, sig = Some n -> lies h n) ->
  ends (mangleImplTypes mangle ns t sig) (fun r => forall n, r.2 = Some n -> lies h n).
Proof.
  intros H. induction H as [|n ns Hn H IH]; intros t sig Hs; cbn [mangleImplTypes]; [by apply prints_ret|].
  destruct (getKind n); try (apply prints_unit; [print_spec|]); apply IH; try done; by intros ? [= <-].
Qed.

Lemma halts_globalChildren ns : Forall (lies h) ns -> forall before b, Forall (lies h) before ->
  finishes (mangleGlobalChildren mangle before ns b).
Proof.
  intros H. induction H as [|n ns Hn H IH]; intros before b Hb; cbn [mangleGlobalChildren]; [by apply prints_ret|].
  destruct (isReversedAttribute _); [by apply IH; constructor|].
  apply prints_unit; [by apply Hmangle|]. apply prints_unit; [destruct b; [by apply halts_mangleNodes|by apply prints_ret]|].
  by apply IH; constructor.
Qed.

#[local] Hint Resolve halts_mangleTypes halts_mangleChain halts_mangleListItems halts_manglePureProtocols halts_otherChildren
  halts_genericParams halts_signatureRequirements halts_specParams halts_globalChildren : printer.

Lemma halts_anyGenericType n c : lies (S h) n -> finishes (mangleAnyGenericType mangle n c).
Proof. intros H. unfold mangleAnyGenericType. prints. Qed.

Lemma halts_constrainedType n : lies (S h) n -> finishes (mangleConstrainedType mangle n).
Proof.
  intros H. unfold mangleConstrainedType.
  eapply (prints_bind _ _ _ (lies (S h))).
  - destruct (Kind_eqb _ _); [|by apply prints_ret]. eapply prints_mono; [apply halts_getChildOfType|]. cbv beta. intros c Hc. by apply (lies_pred _ _ n).
  - intros n' Hn'. eapply prints_bind; [apply halts_trySubstitution|]. intros [[] entry] _; [by apply prints_ret|].
    eapply prints_bind; [by apply halts_memberChain|]. intros [Chain last] Hc. cbn in Hc.
    apply prints_unit; [by apply prints_assert|]. apply prints_unit; [by apply halts_mangleChain, Forall_reverse|]. prints.
Qed.

#[local] Hint Resolve halts_anyGenericType halts_constrainedType : printer.

Lemma halts_requirement n a b c d : lies (S h) n -> finishes (mangleRequirement mangle n a b c d).
Proof. intros H. unfold mangleRequirement. prints. Qed.

#[local] Hint Resolve halts_requirement : printer.

Lemma halts_genericArgs n : lies (S h) n -> forall t, finishes (mangleGenericArgs mangle n t).
Proof.
  assert (forall m n, below m n -> lies (S h) n -> forall t, finishes (mangleGenericArgs mangle n t)) as H;
    [|intros Hn; by apply (H (node_height n)); [unfold below|]].
  induction m as [|m IH]; intros [k p cs] Hm Hn t; [by unfold below in Hm; cbn in Hm; lia|].
  assert (forall c, In c cs -> below m c) as Hcm by (intros c Hc; by eapply below_child).
  assert (forall c, In c cs -> lies (S h) c) as Hch by (intros c Hc; by apply (lies_pred _ _ (mkNode k p cs))).
  cbn [mangleGenericArgs]. destruct k; try (by apply prints_ret).
  all: destruct cs as [|[kc pc ns] cs]; [by apply prints_fail|].
  all: lazymatch goal with
  | |- prints _ (bind (mangleGenericArgs _ _ _) _) _ =>
      eapply prints_bind; [by apply IH; [apply Hcm|apply Hch]; left|]; intros t' _; prints
  | |- prints _ (match _ with [] => _ | _ :: _ => _ end) _ =>
      destruct cs as [|extended cs]; [by apply prints_fail|]; by apply IH; [apply Hcm|apply Hch]; right; left
  | _ =>
      apply prints_unit; [by apply prints_assert|];
      destruct ns as [|[kn pn [|parent rest']] ns]; try (by apply prints_fail);
      set (nominal := mkNode kn pn (parent :: rest')) in *; set (unbound := mkNode kc pc (nominal :: ns)) in *;
      assert (below m unbound /\ lies (S h) unbound) as [Hbu Hfu] by (split; [apply Hcm|apply Hch]; by left);
      eapply prints_bind; [apply IH;
        [apply (below_pred _ nominal); [by left|]; apply (below_pred _ unbound); [by left|done]
        |apply (lies_pred _ _ nominal); [by left|]; apply (lies_pred _ _ unbound); [by left|done]]|]; intros t' _;
      apply prints_unit; [apply halts_emit|];
      destruct cs as [|args cs]; [by apply prints_fail|];
      apply prints_unit; [|by apply prints_ret]; apply halts_mangleChildNodes, Hch; right; by left
  end.
Qed.

Lemma halts_anyNominalType n : lies (S h) n -> finishes (mangleAnyNominalType mangle mangleUnboundType n).
Proof.
  intros H. unfold mangleAnyNominalType. eapply prints_bind; [apply ends_isSpecialized|]. intros [] Hb.
  - eapply prints_bind; [apply halts_trySubstitution|]. intros [[] entry] _; [by apply prints_ret|].
    eapply prints_bind; [by apply ends_getUnspecialized|]. intros u [Hu Hs].
    apply prints_unit; [by apply HmangleUnbound|].
    eapply prints_bind; [by apply halts_genericArgs|]. intros t _. prints.
  - destruct (getKind n); prints.
Qed.

#[local] Hint Resolve halts_anyNominalType : printer.

Lemma halts_abstractStorage n c : lies (S h) n -> finishes (mangleAbstractStorage mangle n c).
Proof. intros H. unfold mangleAbstractStorage. apply prints_unit; [print_spec|]. destruct (getKind n); prints. Qed.

#[local] Hint Resolve halts_abstractStorage : printer.

Lemma halts_paramPayload n : lies (S h) n -> finishes (mangleParamPayload mangle n).
Proof.
  intros H. unfold mangleParamPayload. prints.
  - match goal with Ht : payload ?c = TextPayload ?t, Hc : In ?c (children n) |- _ =>
      apply halts_mangleIdentifierNode; cbn; rewrite andb_true_r; apply unicodeText_underscore;
      eapply (allTexts_text _ c); [by eapply lies_texts, lies_in|exact Ht] end.
  - by apply halts_mangleTypes, Forall_drop, Forall_impl with (2 := lies_children _ _ _ H), lies_S.
Qed.

#[local] Hint Resolve halts_paramPayload : printer.

Lemma halts_paramPayloads ns : Forall (lies (S h)) ns -> finishes (mangleParamPayloads mangle ns).
Proof. intros H. induction H; cbn [mangleParamPayloads]; prints. Qed.

#[local] Hint Resolve halts_paramPayloads : printer.

Lemma halts_skipType n : lies (S h) n -> ends (skipType n) (lies (S h)).
Proof.
  intros H. unfold skipType. destruct (Kind_eqb _ _); [|by apply prints_ret].
  eapply prints_mono; [apply halts_getSingleChild|]. cbv beta. intros c Hc. by apply (lies_pred _ _ n).
Qed.

Lemma halts_typeList n : lies (S h) n -> finishes (mangleTypeList mangle n).
Proof. intros H. unfold mangleTypeList. prints. Qed.

Lemma halts_argumentTuple n : lies (S h) n -> finishes (mangleArgumentTuple mangle n).
Proof.
  intros H. unfold mangleArgumentTuple. eapply prints_bind; [apply halts_getSingleChild|]. cbv beta. intros c Hc.
  apply (lies_in unicodeText h) in Hc; [|done]. unfold skipType. destruct (Kind_eqb _ K_Type); prints.
Qed.

Lemma halts_boxFieldTypes g ns : Forall (lies g) ns -> ends (boxFieldTypes ns) (Forall (lies g)).
Proof.
  intros H. induction H as [|n ns Hn H IH]; cbn [boxFieldTypes]; [by apply prints_ret|].
  apply prints_unit; [by apply prints_assert|]. eapply prints_bind; [apply halts_getChild|]. cbv beta. intros type Ht.
  apply prints_unit; [by apply prints_assert|].
  eapply (prints_bind _ _ _ (lies g)).
  - destruct (Kind_eqb _ _); [|by apply prints_ret, (lies_pred _ _ n)].
    eapply prints_bind; [apply halts_getChild|]. cbv beta. intros inner Hi. apply prints_ret.
    destruct g as [|[|[|g]]]; try (exfalso; assert (node_height n <= 2)%nat by (destruct Hn as [Hb _]; unfold below in Hb; lia);
      pose proof (height_child _ _ Ht); pose proof (height_child _ _ Hi); destruct inner; cbn in *; lia).
    apply lies_node. constructor; [|constructor]. apply lies_node. constructor; [|constructor].
    apply (lies_in _ _ type inner Hi), (lies_in _ _ n type Ht), Hn.
  - intros type' Ht'. eapply prints_bind; [exact IH|]. intros rest' Hr. apply prints_ret. by constructor.
Qed.

#[local] Hint Resolve halts_typeList halts_argumentTuple : printer.

Lemma halts_signature n : lies (S h) n -> finishes (mangleDependentGenericSignature mangle n).
Proof. intros H. unfold mangleDependentGenericSignature. prints. Qed.

#[local] Hint Resolve halts_signature : printer.

Lemma halts_boxLayout n : lies (S h) n -> finishes (mangleSILBoxTypeWithLayout mangle n).
Proof.
  intros H. unfold mangleSILBoxTypeWithLayout. apply prints_unit; [by apply prints_assert|].
  eapply prints_bind; [apply halts_getChild|]. cbv beta. intros layout Hl. apply prints_unit; [by apply prints_assert|].
  eapply prints_bind; [apply (halts_boxFieldTypes h); apply lies_below; by apply (lies_in _ _ n)|]. intros types Ht.
  apply prints_unit; [by apply halts_typeList, lies_node|]. prints.
Qed.

Lemma halts_implFunctionType n : lies (S h) n -> finishes (mangleImplFunctionType mangle n).
Proof.
  intros H. unfold mangleImplFunctionType.
  eapply prints_bind; [apply halts_implTypes; [by apply lies_children|done]|]. intros [t [sig|]] Hs; cbn in Hs; prints.
Qed.

Lemma halts_function n : lies (S h) n -> finishes (mangleFunction mangle n).
Proof. intros H. unfold mangleFunction. prints. Qed.

Lemma halts_protocolConformance n : lies (S h) n -> finishes (mangleProtocolConformance mangle n).
Proof.
  intros H. unfold mangleProtocolConformance.
  eapply prints_bind; [apply halts_getChild|]. cbv beta. intros c Hc. apply (lies_in unicodeText h) in Hc; [|done].
  eapply prints_bind; [apply halts_getChildOfType|]. cbv beta. intros Ty Hy. apply (lies_pred unicodeText h) in Hy; [|done].
  eapply (prints_bind _ _ _ (fun r => lies h r.1 /\ forall sig, r.2 = Some sig -> lies h sig)).
  - destruct (Kind_eqb _ _); [|by apply prints_ret].
    eapply prints_bind; [apply halts_getFirstChild|]. cbv beta. intros sig Hsig.
    eapply prints_bind; [apply halts_getChild|]. cbv beta. intros body Hbody. apply prints_ret. cbn.
    split; [by apply (lies_pred _ _ Ty)|]. intros ? [= <-]. by apply (lies_pred _ _ Ty).
  - intros [Ty' sig] [Ht Hs]. cbn in Ht, Hs. apply prints_unit; [by apply Hmangle|].
    destruct sig as [sig|]; [specialize (Hs sig eq_refl)|clear Hs]; prints.
Qed.

#[local] Hint Resolve halts_boxLayout halts_implFunctionType halts_function halts_protocolConformance : printer.

Lemma halts_protocolList n superclass b :
  lies (S h) n -> (forall s, superclass = Some s -> lies (S h) s) -> finishes (mangleProtocolList mangle n superclass b).
Proof.
  intros H Hs. unfold mangleProtocolList. eapply prints_bind; [apply halts_getSingleChildKind|]. cbv beta. intros c Hc.
  apply (lies_pred unicodeText (S h)) in Hc; [|done].
  eapply prints_bind; [apply halts_manglePureProtocols; by apply lies_below|]. intros first _.
  destruct superclass as [s|]; [specialize (Hs s eq_refl)|clear Hs]; prints.
Qed.

Lemma halts_protocolListNode n : lies (S h) n -> finishes (mangleProtocolListNode mangle n).
Proof. intros H. by apply halts_protocolList. Qed.

Lemma halts_protocolListWithClass n : lies (S h) n -> finishes (mangleProtocolListWithClass mangle n).
Proof.
  intros H. unfold mangleProtocolListWithClass. eapply prints_bind; [apply halts_getChild|]. cbv beta. intros ps Hp.
  eapply prints_bind; [apply halts_getChild|]. cbv beta. intros s Hs.
  apply halts_protocolList; [by apply (lies_pred _ _ n)|]. intros ? [= <-]. by apply (lies_pred _ _ n).
Qed.

Lemma halts_protocolListWithAnyObject n : lies (S h) n -> finishes (mangleProtocolListWithAnyObject mangle n).
Proof.
  intros H. unfold mangleProtocolListWithAnyObject. eapply prints_bind; [apply halts_getChild|]. cbv beta. intros ps Hp.
  apply halts_protocolList; [by apply (lies_pred _ _ n)|done].
Qed.

Lemma halts_genericPartialSpecialization n : lies (S h) n -> finishes (mangleGenericPartialSpecialization mangle n).
Proof.
  intros H. unfold mangleGenericPartialSpecialization. apply prints_unit.
  - destruct (find _ _) as [c|] eqn:Hf; [|by apply prints_ret]. apply List.find_some in Hf as [Hc _].
    apply halts_mangleChildNode. by apply (lies_pred _ _ n).
  - prints.
Qed.

Lemma halts_genericSpecialization n : lies (S h) n -> finishes (mangleGenericSpecialization mangle n).
Proof.
  intros H. unfold mangleGenericSpecialization.
  eapply prints_bind; [apply halts_genericParams; by apply lies_below|]. intros b _. prints.
Qed.

#[local] Hint Resolve halts_protocolListNode halts_protocolListWithClass halts_protocolListWithAnyObject
  halts_genericPartialSpecialization halts_genericSpecialization : printer.

Lemma halts_global n : lies (S h) n -> finishes (mangleGlobal mangle n).
Proof.
  intros H. unfold mangleGlobal. apply prints_unit; [apply halts_put|].
  apply halts_globalChildren; [by apply lies_children|constructor].
Qed.

#[local] Hint Resolve halts_global : printer.

(** A handler consists of others that end, and is unfolded otherwise. *)
Ltac head m := lazymatch m with ?f _ => head f | _ => m end.
Ltac handler :=
  first [solve [print_spec]
        |lazymatch goal with |- prints _ ?m _ => let f := head m in unfold f end;
         first [solve [print_spec]|solve [prints]|progress prints; handler|handler]].

Lemma halts_dispatch n : lies (S h) n -> finishes (dispatch mangle mangleUnboundType n).
Proof. intros H. unfold dispatch. destruct (getKind n); handler. Qed.

(** Without a call for the unspecialized type. *)
Lemma halts_unspecialized n :
  lies (S h) n -> unspecialized (S := Remangler) n -> finishes (mangleAnyNominalType mangle mangleUnboundType n).
Proof.
  intros H Hu s. unfold mangleAnyNominalType. apply wp_bind.
  pose proof (ends_isSpecialized n s) as Hs. pose proof (stateless (m := isSpecialized n) s s) as Hst. unfold wp in *.
  destruct (isSpecialized n s) as [[[] s']|c] eqn:Hb; [| |done].
  - cbn in Hst. injection Hst as Hst. subst s'. by destruct (Hu s).
  - assert (finishes (match getKind n with
      | K_Structure => mangleAnyGenericType mangle n "V"
      | K_Enum => mangleAnyGenericType mangle n "O"
      | K_Class => mangleAnyGenericType mangle n "C"
      | _ => unreachable "bad nominal type kind"
      end)) as Hk by (destruct (getKind n); print_spec).
    apply Hk.
Qed.
End recursion.

(** ** The recursion ends *)

Abbreviation lies := (UnspecializedTypes.lies unicodeText).

Lemma halts_withFuel h : forall fuel,
  ((2 * h + 1 <= fuel)%nat -> forall n, lies h n -> finishes (mangleWithFuel fuel n)) /\
  ((2 * h <= fuel)%nat -> forall n, lies h n -> unspecialized (S := Remangler) n -> finishes (mangleUnboundWithFuel fuel n)).
Proof.
  induction h as [|h IH]; intros fuel.
  - split; intros; match goal with H : lies 0 _ |- _ => by apply lies_0 in H end.
  - assert (forall g, (2 * h + 1 <= g)%nat -> forall n, lies (S h) n -> unspecialized (S := Remangler) n ->
      finishes (mangleUnboundWithFuel (S g) n)) as Hunbound.
    { intros g Hg n Hn Hu. cbn [mangleUnboundWithFuel]. destruct (IH g) as [Hm _].
      apply (halts_unspecialized h); auto. }
    assert (forall g, (2 * S h <= g)%nat -> forall n, lies (S h) n -> unspecialized (S := Remangler) n ->
      finishes (mangleUnboundWithFuel g n)) as Hunbound'.
    { intros [|g] Hg; [lia|]. apply Hunbound. lia. }
    destruct fuel as [|g]; [split; lia|]. destruct (IH g) as [Hm _].
    split; intros Hg n; [|apply Hunbound'; lia]. intros Hn.
    cbn [mangleWithFuel]. apply (halts_dispatch h); auto with lia.
Qed.

Lemma height_size n : (node_height n <= node_size n)%nat.
Proof.
  induction n as [k p cs IH] using Node_tree_ind. cbn [node_height node_size]. apply le_n_S.
  apply list_max_le. apply List.Forall_forall. intros m Hm%in_map_iff. destruct Hm as (c & <- & Hc).
  apply Nat.le_trans with (node_size c); [by apply (proj1 (List.Forall_forall _ _) IH)|].
  clear IH. induction cs as [|d cs IH]; [done|].
  change (list_sum (map node_size (d :: cs))) with (node_size d + list_sum (map node_size cs))%nat.
  destruct Hc as [->|Hc]; [lia|]. specialize (IH Hc). lia.
Qed.

Lemma mangleNode_halts n : allTexts unicodeText n = true -> mangleNode (Some n) <> Crash OutOfFuel.
Proof.
  intros Hn. unfold mangleNode, mangle, mangle_fuel.
  destruct (halts_withFuel (node_height n) (2 * node_size n + 1)) as [H _]. pose proof (height_size n) as Hs.
  specialize (H ltac:(lia) n (conj (le_n _) Hn) newRemangler). unfold wp in H.
  destruct (mangleWithFuel _ _ _) as [[[] s]|c]; [done|]. congruence.
Qed.

(** C11. The remangler terminates on every tree, whether a demangler can build it or
    not, whose texts have no code point above 0x10FFFF: it writes a mangled name, or an
    assertion or an [unreachable] stops it. The unspecialized types and the types of box
    fields that it makes on the way, the words it looks up, the merging of
    substitutions and the Punycode encoding of identifiers of any length are no
    exception. *)
Theorem mangleNode_terminates node :
  (forall n, node = Some n -> allTexts unicodeText n = true) -> mangleNode node <> Crash OutOfFuel.
Proof. destruct node as [n|]; [|done]. intros Hn. by apply mangleNode_halts, Hn. Qed.

(** A tree that no demangler builds: a module inside an extension of itself. *)
Lemma mangleNode_terminates_witness :
  let module := createNodeText K_Module (map chr [0xC3; 0xA9; 0xF4; 0x8F; 0xBF; 0xBF]) in
  let tree := mkNode K_Global NoPayload [mkNode K_Extension NoPayload [module; mkNode K_Type NoPayload [module; module]]] in
  allTexts unicodeText tree = true /\ mangleNode (Some tree) <> Crash OutOfFuel.
Proof. split; [vm_compute; reflexivity|]. apply mangleNode_terminates. intros n [= <-]. vm_compute. reflexivity. Defined.
