(* ===== verification/OldNodeShape.v ===== *)
(** * The shape of the old demangler's trees

    The grammar of the trees that [OldDemangler] builds. It is not the grammar of
    the new demangler: a substitution stands for whatever has been demangled
    before, so that a module may be a type, an accessor wraps its variable
    without a label list, and a bound generic type may have any entity as its
    parent. *)

From S2P Require Import Prelude Nodes NodeShape.

(** What is pushed as a substitution. *)
Definition isOldSubstitution (k : Kind) : bool :=
  match k with
  | K_Module | K_Class | K_Structure | K_Enum | K_Protocol | K_TypeAlias
  | K_DependentAssociatedTypeRef | K_AssociatedTypeRef => true
  | _ => false
  end.

(** An accessor, which wraps a variable or a subscript. *)
Definition isAccessor (k : Kind) : bool :=
  match k with
  | K_DidSet | K_WillSet | K_Getter | K_GlobalGetter | K_Setter | K_MaterializeForSet
  | K_NativeOwningAddressor | K_NativeOwningMutableAddressor | K_NativePinningAddressor
  | K_NativePinningMutableAddressor | K_OwningAddressor | K_OwningMutableAddressor
  | K_UnsafeAddressor | K_UnsafeMutableAddressor => true
  | _ => false
  end.

(** What [demangleEntity] returns, but for nominal types. *)
Definition isOldDeclaration (k : Kind) : bool :=
  match k with
  | K_Function | K_Variable | K_Subscript | K_Initializer | K_DefaultArgumentInitializer
  | K_Deallocator | K_Destructor | K_IVarInitializer | K_IVarDestroyer | K_Allocator | K_Constructor
  | K_ExplicitClosure | K_ImplicitClosure | K_Static => true
  | _ => isAccessor k
  end.

Definition isOldEntity (k : Kind) : bool := isOldDeclaration k || isOldSubstitution k.

(** A bound generic type, or the nominal type itself when it has no arguments. *)
Definition isOldBound (k : Kind) : bool := isBoundGeneric k || isOldSubstitution k.

Definition isOldContext (k : Kind) : bool :=
  isOldEntity k || isBoundGeneric k || Kind_eqb k K_Extension.

(** What a [Type] stands for. *)
Definition isOldType (k : Kind) : bool :=
  isOldBound k ||
  match k with
  | K_AutoClosureType | K_BuiltinTypeName | K_CFunctionPointer | K_DependentGenericParamType
  | K_DependentGenericType | K_DependentMemberType | K_DynamicSelf | K_ErrorType
  | K_ExistentialMetatype | K_FunctionType | K_ImplFunctionType | K_InOut | K_Metatype | K_ObjCBlock
  | K_ProtocolList | K_QualifiedArchetype | K_SILBoxType | K_SILBoxTypeWithLayout | K_ThinFunctionType
  | K_Tuple | K_UncurriedFunctionType | K_Unmanaged | K_Unowned | K_Weak => true
  | _ => false
  end.

(** What an associated type belongs to. *)
Definition isOldRoot (k : Kind) : bool := isOldSubstitution k || Kind_eqb k K_QualifiedArchetype.

(** A name without a discriminator. *)
Definition isOldIdentifier (k : Kind) : bool :=
  match k with
  | K_Identifier | K_PrefixOperator | K_PostfixOperator | K_InfixOperator => true
  | _ => false
  end.

Definition oldChildren (k : Kind) : option (list pat) :=
  match k with
  | K_Type | K_InOut => Some [One (kindIn isOldType)]
  | K_Class | K_Structure | K_Enum | K_Protocol | K_TypeAlias =>
      Some [One (kindIn isOldContext); One (kindIn isDeclName)]
  | K_LocalDeclName => Some [One (ofKind K_Number); One (kindIn isOldIdentifier)]
  | K_PrivateDeclName => Some [One (kindIn isOldIdentifier); Opt (kindIn isOldIdentifier)]
  | K_Extension =>
      Some [One (ofKind K_Module); One (kindIn isOldContext); Opt (ofKind K_DependentGenericSignature)]
  | K_DependentAssociatedTypeRef => Some [Opt (ofKind K_Type)]
  | K_AssociatedTypeRef => Some [One (kindIn (fun k => isOldRoot k || isBoundGeneric k)); One (kindIn isOldIdentifier)]
  | K_QualifiedArchetype => Some [One (ofKind K_Number); One (ofKind K_DeclContext)]
  | K_DeclContext => Some [One (kindIn isOldContext)]
  | K_BoundGenericClass | K_BoundGenericStructure | K_BoundGenericEnum =>
      Some [One (ofKind K_Type); One (ofKind K_TypeList)]
  | K_TypeList => Some [Many (ofKind K_Type)]
  | K_ProtocolList => Some [One (ofKind K_TypeList)]
  | K_ProtocolConformance => Some [One (ofKind K_Type); One (ofKind K_Type); One (kindIn isOldContext)]
  | K_DependentMemberType => Some [One (ofKind K_Type); One (ofKind K_DependentAssociatedTypeRef)]
  | K_DependentGenericParamType => Some [One (ofKind K_Index); One (ofKind K_Index)]
  | K_DependentGenericSignature | K_DependentPseudogenericSignature =>
      Some [Many (ofKind K_DependentGenericParamCount); Many (kindIn isRequirement)]
  | K_DependentGenericConformanceRequirement | K_DependentGenericSameTypeRequirement =>
      Some [One (ofKind K_Type); One (ofKind K_Type)]
  | K_DependentGenericLayoutRequirement =>
      Some [One (ofKind K_Type); One (ofKind K_Identifier); Opt (ofKind K_Number); Opt (ofKind K_Number)]
  | K_Function => Some [One (kindIn isOldContext); One (kindIn isDeclName); One (ofKind K_Type)]
  | K_Variable => Some [One (kindIn isOldContext); One (kindIn isDeclName); Opt (ofKind K_Type)]
  | K_Subscript =>
      Some [One (kindIn isOldContext); Opt (kindIn isDeclName); Opt (ofKind K_Type); Opt (ofKind K_PrivateDeclName)]
  | K_Initializer | K_Deallocator | K_Destructor | K_IVarInitializer | K_IVarDestroyer =>
      Some [One (kindIn isOldContext)]
  | K_DefaultArgumentInitializer => Some [One (kindIn isOldContext); One (ofKind K_Number)]
  | K_Allocator | K_Constructor => Some [One (kindIn isOldContext); One (ofKind K_Type)]
  | K_ExplicitClosure | K_ImplicitClosure =>
      Some [One (kindIn isOldContext); One (ofKind K_Number); Opt (ofKind K_Type)]
  | K_Static => Some [One (kindIn isOldDeclaration)]
  | K_DidSet | K_WillSet | K_Getter | K_GlobalGetter | K_Setter | K_MaterializeForSet
  | K_NativeOwningAddressor | K_NativeOwningMutableAddressor | K_NativePinningAddressor
  | K_NativePinningMutableAddressor | K_OwningAddressor | K_OwningMutableAddressor
  | K_UnsafeAddressor | K_UnsafeMutableAddressor =>
      Some [One (fun n => ofKind K_Variable n || ofKind K_Subscript n)]
  | K_Tuple => Some [Many (ofKind K_TupleElement)]
  | K_TupleElement =>
      Some [Opt (ofKind K_VariadicMarker); Opt (ofKind K_TupleElementName); One (ofKind K_Type)]
  | K_AutoClosureType | K_FunctionType | K_ThinFunctionType | K_UncurriedFunctionType
  | K_ObjCBlock | K_CFunctionPointer => Some functionTypeShape
  | K_ArgumentTuple | K_ReturnType | K_DynamicSelf | K_SILBoxType | K_Unowned | K_Unmanaged | K_Weak
  | K_SILBoxMutableField | K_SILBoxImmutableField => Some oneType
  | K_Metatype | K_ExistentialMetatype => Some [Opt (ofKind K_MetatypeRepresentation); One (ofKind K_Type)]
  | K_SILBoxTypeWithLayout =>
      Some [One (ofKind K_SILBoxLayout); Opt (ofKind K_DependentGenericSignature); Opt (ofKind K_TypeList)]
  | K_SILBoxLayout =>
      Some [Many (fun n => ofKind K_SILBoxMutableField n || ofKind K_SILBoxImmutableField n)]
  | K_DependentGenericType => Some [One (ofKind K_DependentGenericSignature); One (ofKind K_Type)]
  | K_ImplFunctionType =>
      Some [One (ofKind K_ImplConvention); Opt (ofKind K_ImplFunctionAttribute); Opt (kindIn isSignature);
            Many (ofKind K_ImplParameter); Many (fun n => ofKind K_ImplResult n || ofKind K_ImplErrorResult n)]
  | K_ImplParameter | K_ImplResult | K_ImplErrorResult =>
      Some [One (ofKind K_ImplConvention); One (ofKind K_Type)]
  | K_GenericSpecializationParam => Some [One (ofKind K_Type); Many (ofKind K_ProtocolConformance)]
  | K_GenericSpecialization | K_GenericSpecializationNotReAbstracted =>
      Some (specializationShape [Many (ofKind K_GenericSpecializationParam)])
  | K_FunctionSignatureSpecialization =>
      Some (specializationShape [Many (ofKind K_FunctionSignatureSpecializationParam)])
  | K_FunctionSignatureSpecializationParam =>
      Some [Opt (ofKind K_FunctionSignatureSpecializationParamKind);
            Many (ofKind K_FunctionSignatureSpecializationParamPayload); Many (ofKind K_Type)]
  | K_GenericTypeMetadataPattern | K_TypeMetadataAccessFunction | K_TypeMetadataLazyCache | K_Metaclass
  | K_NominalTypeDescriptor | K_FullTypeMetadata | K_ProtocolDescriptor | K_TypeMetadata | K_TypeMangling
  | K_ValueWitness | K_ValueWitnessTable => Some oneType
  | K_FieldOffset => Some [One (ofKind K_Directness); One (kindIn isOldEntity)]
  | K_ProtocolWitnessTable | K_GenericProtocolWitnessTable | K_GenericProtocolWitnessTableInstantiationFunction
  | K_ProtocolWitnessTableAccessor => Some [One (ofKind K_ProtocolConformance)]
  | K_LazyProtocolWitnessTableAccessor | K_LazyProtocolWitnessTableCacheVariable =>
      Some [One (ofKind K_Type); One (ofKind K_ProtocolConformance)]
  | K_AssociatedTypeMetadataAccessor => Some [One (ofKind K_ProtocolConformance); One (kindIn isDeclName)]
  | K_AssociatedTypeWitnessTableAccessor =>
      Some [One (ofKind K_ProtocolConformance); One (kindIn isDeclName); One (ofKind K_Type)]
  | K_ProtocolWitness => Some [One (ofKind K_ProtocolConformance); One (kindIn isOldEntity)]
  | K_ReabstractionThunk | K_ReabstractionThunkHelper =>
      Some [Opt (ofKind K_DependentGenericSignature); One (ofKind K_Type); One (ofKind K_Type)]
  | K_PartialApplyForwarder | K_PartialApplyObjCForwarder => Some [Opt anyNode]
  | K_Global => Some [One anyNode; Many anyNode]
  | K_Identifier | K_Module | K_PrefixOperator | K_PostfixOperator | K_InfixOperator | K_TupleElementName
  | K_BuiltinTypeName | K_MetatypeRepresentation | K_ImplConvention | K_ImplFunctionAttribute | K_Suffix
  | K_FunctionSignatureSpecializationParamPayload | K_ErrorType
  | K_Number | K_Index | K_Directness | K_DependentGenericParamCount
  | K_FunctionSignatureSpecializationParamKind | K_SpecializationPassID
  | K_ObjCAttribute | K_NonObjCAttribute | K_DynamicAttribute | K_DirectMethodReferenceAttribute
  | K_VTableAttribute | K_SpecializationIsFragile | K_VariadicMarker | K_ThrowsAnnotation => Some []
  | _ => None
  end.

(** The kinds with a text and those with an index. *)
Definition oldPayload (k : Kind) (p : Payload) : bool :=
  match k with
  | K_Identifier | K_Module | K_PrefixOperator | K_PostfixOperator | K_InfixOperator | K_TupleElementName
  | K_BuiltinTypeName | K_MetatypeRepresentation | K_ImplConvention | K_ImplFunctionAttribute | K_Suffix
  | K_FunctionSignatureSpecializationParamPayload | K_ErrorType
  | K_DependentAssociatedTypeRef | K_DependentGenericParamType =>
      match p with TextPayload _ => true | _ => false end
  | K_Directness => match p with IndexPayload i => (i =? 0) || (i =? 1) | _ => false end
  | K_ValueWitness => match p with IndexPayload i => (0 <=? i) && (i <? 24) | _ => false end
  | K_Number | K_Index | K_DependentGenericParamCount | K_FunctionSignatureSpecializationParam
  | K_FunctionSignatureSpecializationParamKind | K_SpecializationPassID =>
      match p with IndexPayload i => (0 <=? i) && (i <? 2 ^ 64) | _ => false end
  | _ => match p with NoPayload => true | _ => false end
  end.

Definition oldShape (k : Kind) (p : Payload) (cs : list Node) : bool :=
  oldPayload k p && match oldChildren k with Some ps => matches ps cs | None => false end.

Fixpoint old_wf (n : Node) : bool :=
  match n with mkNode k p cs => oldShape k p cs && forallb old_wf cs end.

(** A node of the grammar that [p] accepts. *)
Definition fits (p : Node -> bool) (n : Node) : Prop := old_wf n = true /\ p n = true.

(** ** Building nodes *)

Lemma fits_mono (p q : Node -> bool) n : fits p n -> (p n = true -> q n = true) -> fits q n.
Proof. intros [Hw Hp] H. split; auto. Qed.

Lemma old_wf_iff k p cs :
  old_wf (mkNode k p cs) = true <-> oldShape k p cs = true /\ Forall (fun c => old_wf c = true) cs.
Proof. cbn. rewrite andb_true_iff, forallb_forall, List.Forall_forall. done. Qed.

(** A node under construction: what it has so far matches [ps]. *)
Record partial (k : Kind) (ps : list pat) (n : Node) : Prop := {
  partial_kind : getKind n = k;
  partial_payload : oldPayload k (payload n) = true;
  partial_children : Forall (fun c => old_wf c = true) (children n);
  partial_matches : matches ps (children n) = true
}.

(** No pattern but a [One] would take [c]. *)
Definition rejects (ps : list pat) (c : Node) : Prop :=
  Forall (fun q => match q with One _ => True | Opt p | Many p => p c = false end) ps.

(** What is left of the patterns after the children is taken by [c]. *)
Lemma matches_snoc ps cs q c :
  matches ps cs = true -> rejects ps c -> patPred q c = true -> matches (ps ++ [q]) (cs ++ [c]) = true.
Proof.
  intros H Hr Hq. revert cs H. induction Hr as [|r ps Hr _ IH]; intros cs H.
  { destruct cs; [|done]. destruct q; cbn in *; by rewrite Hq. }
  destruct r as [p|p|p]; cbn [app matches] in *.
  - destruct cs as [|d cs]; [done|]. cbn. apply andb_true_iff in H as [-> H]. by apply IH.
  - destruct cs as [|d cs]; cbn [app].
    + rewrite Hr. by apply (IH []).
    + destruct (p d); [by apply IH|by apply (IH (d :: cs))].
  - induction cs as [|d cs IHcs]; cbn [app].
    + rewrite Hr. by apply (IH []).
    + destruct (p d); [by apply IHcs|]. by apply (IH (d :: cs)).
Qed.

(** A last [Many] takes one more. *)
Lemma matches_more ps cs p c :
  matches (ps ++ [Many p]) cs = true -> rejects ps c -> p c = true ->
  matches (ps ++ [Many p]) (cs ++ [c]) = true.
Proof.
  intros H Hr Hq. revert cs H. induction Hr as [|r ps Hr _ IH]; intros cs H.
  { cbn [app] in *. induction cs as [|d cs IHcs]; cbn in *; [by rewrite Hq|]. destruct (p d); [by apply IHcs|done]. }
  destruct r as [p'|p'|p']; cbn [app matches] in *.
  - destruct cs as [|d cs]; [done|]. cbn. apply andb_true_iff in H as [-> H]. by apply IH.
  - destruct cs as [|d cs]; cbn [app].
    + rewrite Hr. by apply (IH []).
    + destruct (p' d); [by apply IH|by apply (IH (d :: cs))].
  - induction cs as [|d cs IHcs]; cbn [app].
    + rewrite Hr. by apply (IH []).
    + destruct (p' d); [by apply IHcs|]. by apply (IH (d :: cs)).
Qed.

(** An [Opt] or [Many] at the end need not take anything. *)
Lemma matches_skip ps cs q :
  matches ps cs = true -> matches [q] [] = true -> matches (ps ++ [q]) cs = true.
Proof.
  intros H Hq. revert cs H. induction ps as [|r ps IH]; intros cs H.
  { by destruct cs. }
  destruct r as [p|p|p]; cbn [app matches] in *.
  - destruct cs as [|d cs]; [done|]. apply andb_true_iff in H as [-> H]. by apply IH.
  - destruct cs as [|d cs]; [by apply (IH [])|]. destruct (p d); [by apply IH|by apply (IH (d :: cs))].
  - induction cs as [|d cs IHcs]; [by apply (IH [])|]. destruct (p d); [by apply IHcs|by apply (IH (d :: cs))].
Qed.

Lemma partial_new k p : oldPayload k p = true -> partial k [] (mkNode k p []).
Proof. by split. Qed.

Lemma partial_add k ps n q c :
  partial k ps n -> fits (patPred q) c -> rejects ps c -> partial k (ps ++ [q]) (nodeAddChild n c).
Proof.
  intros [Hk Hp Hc Hm] [Hw Hq] Hr. destruct n as [k' p cs]. cbn in *. split; [done..| |].
  - apply Forall_app_2; [done|]. by constructor.
  - by apply matches_snoc.
Qed.

Lemma partial_more k ps n p c :
  partial k (ps ++ [Many p]) n -> fits p c -> rejects ps c -> partial k (ps ++ [Many p]) (nodeAddChild n c).
Proof.
  intros [Hk Hp Hc Hm] [Hw Hq] Hr. destruct n as [k' p' cs]. cbn in *. split; [done..| |].
  - apply Forall_app_2; [done|]. by constructor.
  - by apply matches_more.
Qed.

Lemma partial_skip k ps n q : partial k ps n -> matches [q] [] = true -> partial k (ps ++ [q]) n.
Proof. intros [Hk Hp Hc Hm] Hq. split; [done..|]. by apply matches_skip. Qed.

Lemma partial_done k ps n : partial k ps n -> oldChildren k = Some ps -> fits (ofKind k) n.
Proof.
  intros [Hk Hp Hc Hm] Hs. destruct n as [k' p cs]. cbn in *. subst k'. split.
  - apply old_wf_iff. split; [|done]. unfold oldShape. by rewrite Hp, Hs.
  - by apply Kind_eqb_eq.
Qed.

Lemma fits_partial k ps n : fits (ofKind k) n -> oldChildren k = Some ps -> partial k ps n.
Proof.
  intros [Hw Hk%Kind_eqb_eq] Hs. destruct n as [k' p cs]. cbn in Hk. subst k'.
  apply old_wf_iff in Hw as [H Hc]. unfold oldShape in H. rewrite Hs in H. apply andb_true_iff in H as [Hp Hm].
  by split.
Qed.

(** One more child for a node whose last pattern takes any number. *)
Lemma fits_more k ps p n c :
  oldChildren k = Some ps -> ps = removelast ps ++ [Many p] -> fits (ofKind k) n -> fits p c ->
  rejects (removelast ps) c -> fits (ofKind k) (nodeAddChild n c).
Proof.
  intros Hs Hp Hn Hc Hr. eapply partial_done; [|exact Hs]. rewrite Hp.
  apply partial_more; [|done|done]. rewrite <-Hp. by apply fits_partial.
Qed.
