(* ===== verification/OldDemanglerSpecs.v ===== *)
(** * How the old demangler is reasoned about

    [reads n c m P]: with fewer than [n] characters left, [m] may return null, or
    a value with [P] after reading at least [c] characters; it leaves a suffix of
    the text and well-formed substitutions, and crashes as [old_crash] allows.
    Running out of fuel is none of these crashes, so that the bound on the text is
    what termination rests on. *)

From Stdlib Require Import String.
From S2P Require Import Prelude Nodes ManglingUtils Punycode PunycodeSpecs Demangler NodePrinter NodeShape OldDemangler OldNodeShape.

(** The crashes that a name can cause: reading a character behind the end, the
    arguments of a bound generic type whose parent takes none or has no name, and
    the division in the Punycode decoder. *)
Inductive old_crash : crash -> Prop :=
  | crash_front : old_crash (AssertionFailed "StringRef::front")
  | crash_addChild : old_crash (AssertionFailed "Node::addChild")
  | crash_getChild : old_crash (AssertionFailed "Node::getChild")
  | crash_punycode : old_crash (DivisionByZero "adapt").

(** The substitutions are nodes of the kinds that are pushed. *)
Definition oinv (s : OldDemangler) : Prop := Forall (fits (kindIn isOldSubstitution)) (Substitutions s).

(** A step of the demangler: the text is shortened by [c] characters at least. *)
Record after (c : nat) (s s' : OldDemangler) : Prop := {
  after_inv : oinv s';
  after_suffix : Mangled s' `suffix_of` Mangled s;
  after_length : (length (Mangled s') + c <= length (Mangled s))%nat
}.

Lemma after_refl s : oinv s -> after 0 s s.
Proof. split; [done|done|lia]. Qed.

Lemma after_weaken c c' s s' : after c s s' -> (c' <= c)%nat -> after c' s s'.
Proof. intros [H1 H2 H3] Hc. split; [done|done|lia]. Qed.

Lemma after_trans c c' s s' s'' : after c s s' -> after c' s' s'' -> after (c + c') s s''.
Proof. intros [H1 H2 H3] [H4 H5 H6]. split; [done|by transitivity (Mangled s')|lia]. Qed.

Lemma after_drop s k : oinv s -> (k <= length (Mangled s))%nat -> after k s (setMangled (drop k (Mangled s)) s).
Proof.
  intros Hs Hk. split; cbn; [done| |rewrite length_drop; lia].
  exists (take k (Mangled s)). by rewrite take_drop.
Qed.

Definition reads {A} (n c : nat) (m : OM (option A)) (P : A -> Prop) : Prop :=
  forall s, oinv s -> (length (Mangled s) < n)%nat ->
  wp old_crash m (fun r s' =>
    match r with Some a => after c s s' /\ P a | None => after 0 s s' end) s.

Section rules.
Context {A : Type}.

Lemma reads_none n c (P : A -> Prop) : reads n c (ret None) P.
Proof. intros s Hs _. by apply wp_ret, after_refl. Qed.

Lemma reads_some n c (a : A) (P : A -> Prop) : P a -> c = 0%nat -> reads n c (ret (Some a)) P.
Proof. intros Ha -> s Hs _. apply wp_ret. split; [by apply after_refl|done]. Qed.

Lemma reads_fail n c (P : A -> Prop) e : old_crash e -> reads n c (fail e) P.
Proof. by intros He s _ _. Qed.

Lemma reads_mono n n' c c' m (P Q : A -> Prop) :
  reads n c m P -> (n' <= n)%nat -> (c' <= c)%nat -> (forall a, P a -> Q a) -> reads n' c' m Q.
Proof.
  intros H Hn Hc HPQ s Hs Hl. eapply wp_mono; [apply H; [done|lia]|].
  intros [a|] s'; [|done]. intros [Ha Hp]. split; [by eapply after_weaken|by apply HPQ].
Qed.

Lemma reads_le n n' c m (P : A -> Prop) : reads n c m P -> (n' <= n)%nat -> reads n' c m P.
Proof. intros H Hn. eapply reads_mono; [exact H|done|done|done]. Qed.

Lemma reads_ext n c (m m' : OM (option A)) P : (forall s, m s = m' s) -> reads n c m P -> reads n c m' P.
Proof. intros He H s Hs Hn. unfold wp. rewrite <-He. by apply H. Qed.

(** An operation first, from which the rest goes on with what is left. *)
Lemma reads_first {B} n c c' (m : OM B) (k : B -> OM (option A)) (Q : B -> Prop) (P : A -> Prop) :
  (forall s, oinv s -> (length (Mangled s) < n)%nat ->
    wp old_crash m (fun b s' => exists d, after d s s' /\ (c' b <= d)%nat /\ Q b) s) ->
  (forall b, Q b -> reads (n - c' b) (c - c' b) (k b) P) ->
  reads n c (bind m k) P.
Proof.
  intros Hm Hk s Hs Hn. apply wp_bind. eapply wp_mono; [by apply Hm|].
  intros b s' (d & Ha & Hd & Hb). pose proof (after_length _ _ _ Ha).
  destruct (decide (n - c' b = 0)%nat) as [He|]; [lia|].
  eapply wp_mono; [apply (Hk b Hb); [apply Ha|lia]|].
  intros [a|] s''; cbn.
  - intros [Hr Hp]. split; [|done]. eapply after_weaken; [by eapply after_trans|lia].
  - intros Hr. eapply after_weaken; [by eapply after_trans|lia].
Qed.

Lemma reads_bind {B} n c d (m : OM (option B)) (k : B -> OM (option A)) (Q : B -> Prop) (P : A -> Prop) :
  reads n d m Q -> (forall b, Q b -> reads (n - d) (c - d) (k b) P) ->
  reads n c (b <-? m ;; k b) P.
Proof.
  intros Hm Hk.
  apply reads_first with (c' := fun r => match r with Some _ => d | None => 0%nat end)
    (Q := fun r => match r with Some b => Q b | None => True end).
  - intros s Hs Hn. eapply wp_mono; [by apply Hm|]. intros [b|] s'; cbn.
    + intros [Ha Hb]. by exists d.
    + intros Ha. by exists 0%nat.
  - intros [b|] Hb; [by apply Hk|]. eapply reads_mono; [apply (reads_none n c)|lia|lia|done].
Qed.

(** An operation that leaves the state as it is. *)
Lemma reads_pure {B} n c (m : OM B) (k : B -> OM (option A)) (Q : B -> Prop) (P : A -> Prop) :
  (forall s, wp old_crash m (fun b s' => s' = s /\ Q b) s) ->
  (forall b, Q b -> reads n c (k b) P) ->
  reads n c (bind m k) P.
Proof.
  intros Hm Hk. apply reads_first with (c' := fun _ => 0%nat) (Q := Q).
  - intros s Hs Hn. eapply wp_mono; [apply Hm|]. intros b s' [-> Hb]. exists 0%nat.
    split_and!; [by apply after_refl|done|done].
  - intros b Hb. rewrite !Nat.sub_0_r. by apply Hk.
Qed.

Lemma reads_isEmpty n c (k : bool -> OM (option A)) P :
  reads n c (k true) P -> reads n c (k false) P -> reads n c (bind isEmpty k) P.
Proof. intros H1 H2. apply reads_pure with (Q := fun _ => True); [by intros s; apply wp_gets|]. by intros []. Qed.

Lemma reads_hasAtLeast n c len (k : bool -> OM (option A)) P :
  reads n c (k true) P -> reads n c (k false) P -> reads n c (bind (hasAtLeast len) k) P.
Proof. intros H1 H2. apply reads_pure with (Q := fun _ => True); [by intros s; apply wp_gets|]. by intros []. Qed.

Lemma reads_peek n c (k : ascii -> OM (option A)) P :
  (forall ch, reads n c (k ch) P) -> reads n c (bind peek k) P.
Proof.
  intros Hk. apply reads_pure with (Q := fun _ => True); [|by intros ? _].
  intros s. unfold wp, peek. destruct (Mangled s); [constructor|done].
Qed.

Lemma wp_peek s (Q : ascii -> OldDemangler -> Prop) :
  (forall ch, Q ch s) -> wp old_crash peek Q s.
Proof. intros HQ. unfold wp, peek. destruct (Mangled s); [constructor|apply HQ]. Qed.

Lemma wp_next s (Q : ascii -> OldDemangler -> Prop) :
  oinv s -> (forall ch s', after 1 s s' -> Q ch s') -> wp old_crash next Q s.
Proof.
  intros Hs HQ. destruct (Mangled s) as [|c t] eqn:E.
  - unfold next, wp, bind, peek. rewrite E. constructor.
  - unfold next, wp, bind, peek. rewrite E. apply HQ, after_drop; [done|]. rewrite E. cbn. lia.
Qed.

Lemma reads_next n c (k : ascii -> OM (option A)) P :
  (forall ch, reads (n - 1) (c - 1) (k ch) P) -> reads n c (bind next k) P.
Proof.
  intros Hk. apply reads_first with (c' := fun _ => 1%nat) (Q := fun _ => True); [|by intros ? _].
  intros s Hs _. apply wp_next; [done|]. intros ch s' Ha. by exists 1%nat.
Qed.

Lemma prefix_length t p : startswith t p = true -> (length p <= length t)%nat.
Proof.
  unfold startswith. destruct (str_eqb_spec (take (length p) t) p) as [H|]; [|done]. intros _.
  apply (f_equal length) in H. rewrite length_take in H. lia.
Qed.

Lemma wp_nextIfStr t s (Q : bool -> OldDemangler -> Prop) :
  oinv s -> (forall s', after (length t) s s' -> Q true s') -> Q false s -> wp old_crash (nextIfStr t) Q s.
Proof.
  intros Hs HT HF. unfold nextIfStr. apply wp_bind, wp_gets.
  destruct (startswith (Mangled s) t) eqn:E; cbn [negb]; [|by apply wp_ret].
  apply HT, after_drop; [done|by apply prefix_length].
Qed.

Lemma wp_nextIf c s (Q : bool -> OldDemangler -> Prop) :
  oinv s -> (forall s', after 1 s s' -> Q true s') -> Q false s -> wp old_crash (nextIf c) Q s.
Proof.
  intros Hs HT HF. unfold nextIf. apply wp_bind, wp_gets.
  destruct (Mangled s) as [|d t] eqn:E; cbn [length Nat.eqb]; [by apply wp_ret|].
  apply wp_bind. unfold wp at 1, peek. rewrite E. destruct (Ascii.eqb d c); cbn [negb]; [|by apply wp_ret].
  apply HT, after_drop; [done|]. rewrite E. cbn. lia.
Qed.

Lemma reads_nextIf n c ch (k : bool -> OM (option A)) P :
  reads (n - 1) (c - 1) (k true) P -> reads n c (k false) P -> reads n c (bind (nextIf ch) k) P.
Proof.
  intros HT HF. apply reads_first with (c' := fun b : bool => if b then 1%nat else 0%nat) (Q := fun _ => True).
  - intros s Hs _. apply wp_nextIf; [done| |].
    + intros s' Ha. by exists 1%nat.
    + exists 0%nat. split_and!; [by apply after_refl|done|done].
  - intros [] _; [done|]. by rewrite !Nat.sub_0_r.
Qed.

Lemma reads_nextIfStr n c t (k : bool -> OM (option A)) P :
  reads (n - length t) (c - length t) (k true) P -> reads n c (k false) P -> reads n c (bind (nextIfStr t) k) P.
Proof.
  intros HT HF. apply reads_first with (c' := fun b : bool => if b then length t else 0%nat) (Q := fun _ => True).
  - intros s Hs _. apply wp_nextIfStr; [done| |].
    + intros s' Ha. by exists (length t).
    + exists 0%nat. split_and!; [by apply after_refl|done|done].
  - intros [] _; [done|]. by rewrite !Nat.sub_0_r.
Qed.

Lemma reads_nextCases n c cases (otherwise : OM (option A)) P :
  Forall (fun e => reads (n - length e.1) (c - length e.1) e.2 P) cases ->
  reads n c otherwise P -> reads n c (nextCases cases otherwise) P.
Proof.
  intros Hc Ho. induction Hc as [|[p m] cases Hm _ IH]; [done|]. cbn [nextCases].
  by apply reads_nextIfStr.
Qed.

(** The same in front of something else. *)
Lemma nextCases_bind {B} (cases : list (str * OM B)) otherwise (k : B -> OM (option A)) s :
  bind (nextCases cases otherwise) k s =
  nextCases (map (fun e => (e.1, bind e.2 k)) cases) (bind otherwise k) s.
Proof.
  induction cases as [|[p m] cases IH]; [done|]. cbn [nextCases map fst snd].
  rewrite bind_assoc. apply bind_ext. intros [] s'; [done|]. revert s'. clear IH.
  induction cases as [|[p' m'] cases IH]; intros s'; [done|]. cbn [nextCases map fst snd].
  rewrite bind_assoc. apply bind_ext. intros [] s''; [done|]. apply IH.
Qed.

Lemma reads_bind_nextCases {B} n c (cases : list (str * OM B)) otherwise (k : B -> OM (option A)) P :
  reads n c (nextCases (map (fun e => (e.1, bind e.2 k)) cases) (bind otherwise k)) P ->
  reads n c (bind (nextCases cases otherwise) k) P.
Proof. apply reads_ext. intros s. by rewrite nextCases_bind. Qed.

Lemma reads_push n c x (k : unit -> OM (option A)) P :
  fits (kindIn isOldSubstitution) x -> reads n c (k tt) P -> reads n c (bind (pushSubstitution x) k) P.
Proof.
  intros Hx Hk. apply reads_first with (c' := fun _ => 0%nat) (Q := fun _ => True).
  - intros s Hs _. apply wp_modify. exists 0%nat. split_and!; [|done|done].
    split; cbn; [|done|lia]. apply Forall_app_2; [done|]. by constructor.
  - intros [] _. by rewrite !Nat.sub_0_r.
Qed.

Lemma reads_assert n c site b (k : unit -> OM (option A)) P :
  b = true -> reads n c (k tt) P -> reads n c (bind (assert site b) k) P.
Proof. intros ->. done. Qed.

Lemma reads_ret {B} n c (b : B) (k : B -> OM (option A)) P : reads n c (k b) P -> reads n c (bind (ret b) k) P.
Proof. done. Qed.

Lemma reads_assoc {B C} n c (m : OM B) (k : B -> OM C) (l : C -> OM (option A)) P :
  reads n c (bind m (fun b => bind (k b) l)) P -> reads n c (bind (bind m k) l) P.
Proof. apply reads_ext. intros s. by rewrite bind_assoc. Qed.

Lemma reads_assoc_option {B C} n c (m : OM (option B)) (k : B -> OM (option C)) (l : C -> OM (option A)) P :
  reads n c (b <-? m ;; x <-? k b ;; l x) P -> reads n c (x <-? (b <-? m ;; k b) ;; l x) P.
Proof.
  apply reads_ext. intros s. rewrite bind_assoc. apply bind_ext. by intros [b|] s'.
Qed.

(** Every round of a loop makes the text shorter. *)
Lemma reads_while {B} n c (body : B -> OM (B + option A)) (I : B -> Prop) P b :
  I b ->
  (forall b s, I b -> oinv s -> (length (Mangled s) < n)%nat ->
    wp old_crash (body b) (fun r s' =>
      match r with
      | inl b' => after 1 s s' /\ I b'
      | inr (Some a) => after c s s' /\ P a
      | inr None => after 0 s s'
      end) s) ->
  reads n c (while_ body b) P.
Proof.
  intros Hb Hbody s Hs Hn. unfold while_.
  apply wp_loop with (I := fun b s1 => I b /\ after 0 s s1) (f := fun _ s1 => length (Mangled s1)).
  - split; [done|by apply after_refl].
  - lia.
  - intros b1 s1 [Hb1 Ha]. pose proof (after_length _ _ _ Ha).
    eapply wp_mono; [apply Hbody; [done|apply Ha|lia]|].
    intros [b2|[a|]] s2; cbn.
    + intros [H2 HI]. pose proof (after_length _ _ _ H2). split; [|lia]. split; [done|].
      eapply after_weaken; [by eapply after_trans|lia].
    + intros [H2 HP]. split; [|done]. by apply (after_trans 0 c s s1).
    + intros H2. by apply (after_trans 0 0 s s1).
Qed.

Lemma reads_untilNext n ch (body : A -> OM (option A)) (I : A -> Prop) a :
  I a -> (forall a, I a -> reads n 1 (body a) I) -> reads n 1 (untilNext ch body a) I.
Proof.
  intros Ha Hbody. apply reads_while with (I := I); [done|].
  intros b s Hb Hs Hn. unfold untilNext_step. apply wp_bind, wp_nextIf; [done| |].
  - intros s' Hs'. by apply wp_ret.
  - apply wp_bind. eapply wp_mono; [by apply (Hbody b Hb)|].
    intros [a'|] s'; intros H; by apply wp_ret.
Qed.
End rules.

(** A child that is demangled and added, and two children of a new node. *)
Lemma reads_child n c parent child (Q : Node -> Prop) :
  reads n c child Q -> reads n c (demangleChild parent child) (fun r => exists x, Q x /\ r = nodeAddChild parent x).
Proof.
  intros H. eapply reads_bind; [exact H|]. intros x Hx. apply reads_some; [by exists x|lia].
Qed.

Lemma reads_two n c d k a b (P Q : Node -> Prop) :
  reads n c a P -> reads n d b Q ->
  reads n (c + d) (demangleTwo k a b) (fun r => exists x y, P x /\ Q y /\ r = mkNode k NoPayload [x; y]).
Proof.
  intros Ha Hb. eapply reads_bind; [exact Ha|]. intros x Hx.
  eapply reads_bind; [eapply reads_le; [exact Hb|lia]|]. intros y Hy.
  apply reads_some; [by exists x, y|lia].
Qed.

(** ** Automation *)

(** The nodes of one kind, and of a set of kinds. *)
Lemma fits_kind k n : fits (ofKind k) n -> getKind n = k.
Proof. intros [_ H]. by apply Kind_eqb_eq. Qed.

Lemma fits_wf p n : fits p n -> old_wf n = true.
Proof. by intros [H _]. Qed.

Lemma fits_pred p n : fits p n -> p n = true.
Proof. by intros [_ H]. Qed.

Lemma fits_intro (p : Node -> bool) k pl cs :
  oldShape k pl cs = true -> Forall (fun c => old_wf c = true) cs -> p (mkNode k pl cs) = true ->
  fits p (mkNode k pl cs).
Proof. intros H1 H2 H3. split; [by apply old_wf_iff|done]. Qed.

(** The operations that have a lemma. *)
Create HintDb old discriminated.
#[export] Hint Constants Opaque : old.

Ltac lit_lengths :=
  repeat match goal with
  | |- context [length (lit ?x)] => let k := eval vm_compute in (length (lit x)) in change (length (lit x)) with k
  end.

(** What is known about the kinds of the nodes at hand. *)
Ltac kind_facts :=
  repeat match goal with
  | H : fits _ _ |- _ =>
      let Hw := fresh "Hw" in let Hp := fresh "Hp" in
      pose proof (fits_wf _ _ H) as Hw; pose proof (fits_pred _ _ H) as Hp; clear H;
      cbv beta in Hp; unfold kindIn in Hp;
      lazymatch type of Hp with
      | ofKind _ _ = true => apply Kind_eqb_eq in Hp
      | _ => unfold ofKind in Hp
      end
  | H : Kind_eqb _ _ = true |- _ => apply Kind_eqb_eq in H
  | H : negb (Kind_eqb _ _) = false |- _ => apply negb_false_iff in H
  end.

(** A child whose kind is only known to be in a set is taken through its kinds. *)
Ltac kind_cases :=
  match goal with
  | H : _ = true |- _ =>
      match type of H with
      | context [getKind ?a] => destruct (getKind a) eqn:?; first [discriminate H|clear H]
      end
  end.

Ltac kind_rewrite := repeat match goal with H : getKind ?a = _ |- context [getKind ?a] => rewrite H end.

Ltac solve_kind :=
  cbv beta; unfold ofKind, kindIn; cbn [getKind];
  kind_rewrite; try reflexivity; try assumption;
  repeat (kind_cases; kind_rewrite; try reflexivity).

Lemma wrap_u64_index i : (0 <=? wrap_u64 i) && (wrap_u64 i <? 2 ^ 64) = true.
Proof.
  unfold wrap_u64. pose proof (Z.mod_pos_bound i (2 ^ 64)).
  apply andb_true_iff. split; [apply Z.leb_le|apply Z.ltb_lt]; lia.
Qed.

Ltac node_simpl :=
  unfold addOptional, addImplFunctionAttribute, postProcessReturnTypeNode, createSwiftType, createModule,
    FUNCSIGSPEC_CREATE_PARAM_KIND, FUNCSIGSPEC_CREATE_PARAM_PAYLOAD,
    nodeAddChild, createNode, createNodeText, createNodeIndex;
  cbn [getKind payload children app].

Ltac solve_shape :=
  cbn [oldPayload] in *; unfold oldShape; cbn [oldPayload oldChildren matches andb functionTypeShape oneType specializationShape app];
  rewrite ?wrap_u64_index;
  unfold ofKind, kindIn; cbn [getKind andb matches]; kind_rewrite;
  cbn [Kind_eqb]; try reflexivity;
  repeat match goal with H : _ = true |- _ => rewrite H end; try reflexivity;
  repeat (kind_cases; kind_rewrite; try reflexivity).

Ltac solve_wf :=
  first [assumption
        |apply old_wf_iff; split; [solve [solve_shape]|repeat apply Forall_cons_2; try apply Forall_nil_2; solve_wf]].

(** [fits p x] for a node that has just been built, or one that is known. *)
Ltac solve_fits :=
  first
    [ assumption
    | eapply fits_mono; [eassumption|]; intros ?; kind_facts; solve [solve_kind]
    | node_simpl; kind_facts; split; [solve [solve_wf]|solve [solve_kind]] ].

(** One more child. *)
Ltac solve_rejects :=
  unfold rejects; cbn [removelast]; kind_facts; repeat apply Forall_cons_2; try apply Forall_nil_2;
  first [exact I|solve [solve_kind]].

Ltac solve_more :=
  eapply fits_more; [reflexivity|reflexivity|assumption|solve [solve_fits]|solve [solve_rejects]].

#[export] Hint Extern 2 (fits (ofKind _) (nodeAddChild _ _)) => solve [solve_more] : old.
#[export] Hint Extern 3 (fits _ _) => solve [solve_fits] : old.

Ltac old_spec :=
  lazymatch goal with
  | |- reads _ _ (demangleChild _ _) _ => eapply reads_child; old_spec
  | |- reads _ _ (demangleUnder _ _) _ => eapply reads_child; old_spec
  | |- reads _ _ (demangleTwo _ _ _) _ => eapply reads_two; old_spec
  | |- _ => first [solve [eauto with old nocore] | eapply reads_le; [solve [eauto with old nocore]|lia]]
  end.

Ltac old_side := first [done|by eexists|solve [eauto with old nocore]|solve_fits].

Ltac old_destruct H :=
  lazymatch type of H with
  | exists x, _ = _ => destruct H as (? & ->)
  | exists x, (exists t, x = _) /\ _ = _ => destruct H as (? & (? & ->) & ->)
  | exists x, _ /\ _ = _ => destruct H as (? & H & ->); cbv beta in H; old_destruct H
  | exists x y, _ /\ _ /\ _ = _ =>
      let H' := fresh "H" in destruct H as (? & ? & H & H' & ->); cbv beta in H, H'; old_destruct H; old_destruct H'
  | _ => idtac
  end.

Ltac old_intro :=
  cbv beta; let a := fresh "a" in let H := fresh "H" in intros a H; cbv beta in H; old_destruct H.

Ltac old_bind m :=
  lazymatch m with
  | ret (if ?b then _ else _) => destruct b eqn:?
  | ret _ => apply reads_ret
  | bind _ _ => first [apply reads_assoc_option|apply reads_assoc]
  | isEmpty => apply reads_isEmpty
  | hasAtLeast _ => apply reads_hasAtLeast
  | peek => apply reads_peek; intros ?
  | next => apply reads_next; intros ?
  | nextIf _ => apply reads_nextIf
  | nextIfStr _ => apply reads_nextIfStr; lit_lengths
  | nextCases _ _ => apply reads_bind_nextCases; cbn [map fst snd]
  | pushSubstitution _ => apply reads_push; [solve [old_side]|]
  | if ?b then _ else _ => destruct b eqn:?
  | _ => first [eapply reads_bind; [old_spec|old_intro]
               |lazymatch m with match ?x with _ => _ end => destruct x eqn:? end]
  end.

Ltac old_step :=
  cbv beta iota zeta; cbn [negb andb]; try match goal with |- reads _ _ (if ?b then ?x else ?y) _ =>
    lazymatch b with true => change (if b then x else y) with x | false => change (if b then x else y) with y end end;
  lazymatch goal with
  | |- forall a, _ -> reads _ _ _ _ => old_intro
  | |- reads _ _ (bind ?m _) _ => old_bind m
  | |- reads _ _ (nextCases _ _) _ =>
      apply reads_nextCases; [repeat apply Forall_cons_2; try apply Forall_nil_2; cbn [fst snd]; lit_lengths|]
  | |- reads _ _ (ret None) _ => apply reads_none
  | |- reads _ _ (ret (Some _)) _ => apply reads_some; [solve [old_side]|lia]
  | |- reads _ _ (if ?b then _ else _) _ => destruct b eqn:?
  | |- reads _ _ (ret (if ?b then _ else _)) _ => destruct b eqn:?
  | |- reads _ _ (ret (match ?x with _ => _ end)) _ => destruct x eqn:?
  | |- reads ?n _ _ _ =>
      first [eapply (reads_mono n n); [old_spec|lia|lia|old_intro; solve [old_side]]
            |match goal with |- reads _ _ (match ?x with _ => _ end) _ => destruct x eqn:? end]
  end.

Ltac reads := repeat old_step.

(** A loop up to a character that keeps [I]. *)
Ltac reads_until inv :=
  lazymatch goal with
  | |- reads _ _ (bind (untilNext _ _ _) _) _ =>
      eapply reads_bind; [apply reads_untilNext with (I := inv); [solve [old_side]|reads]|old_intro; reads]
  | |- reads ?n _ (untilNext _ _ _) _ =>
      eapply (reads_mono n n); [apply reads_untilNext with (I := inv); [solve [old_side]|reads]|lia|lia|old_intro; try done]
  end.
