(* ===== verification/OldDemanglerSafety.v ===== *)
(** * Every function of the old demangler reads, builds and ends *)

From Stdlib Require Import String.
From S2P Require Import Prelude Nodes ManglingUtils Punycode PunycodeSpecs Demangler NodePrinter NodeShape OldDemangler OldNodeShape OldDemanglerSpecs.

(** ** Numbers *)

(** An index of a node. *)
Definition isIndex (i : Z) : Prop := 0 <= i < 2 ^ 64.

Lemma digit_value c : isDigit c = true -> 0 <= ord c - ord "0" < 10.
Proof.
  unfold isDigit, inRange. change (ord "0") with 48. change (ord "9") with 57.
  destruct (Z.leb_spec 48 (ord c)), (Z.leb_spec (ord c) 57); cbn; (discriminate || lia).
Qed.

Lemma wrap_u64_isIndex i : isIndex (wrap_u64 i).
Proof. unfold isIndex, wrap_u64. pose proof (Z.mod_pos_bound i (2 ^ 64)). lia. Qed.

Lemma isIndex_0 : isIndex 0.
Proof. by unfold isIndex. Qed.
#[export] Hint Resolve wrap_u64_isIndex isIndex_0 : old.

Lemma reads_demangleNatural n : reads n 1 demangleNatural isIndex.
Proof.
  unfold demangleNatural. apply reads_isEmpty; [apply reads_none|]. apply reads_next. intros c.
  destruct (isDigit c) eqn:Hc; cbn [negb]; [|apply reads_none].
  apply reads_first with (c' := fun _ => 0%nat) (Q := isIndex).
  - intros s Hs Hn.
    apply wp_loop with (I := fun num s1 => isIndex num /\ after 0 s s1) (f := fun _ s1 => length (Mangled s1)).
    + apply digit_value in Hc. split; [unfold isIndex; lia|by apply after_refl].
    + lia.
    + intros num s1 [Hnum Ha]. unfold demangleNatural_step. apply wp_bind, wp_gets.
      destruct (_ =? 0)%nat eqn:E; [by apply wp_ret; exists 0%nat|].
      apply wp_bind. unfold wp at 1, peek.
      destruct (Mangled s1) as [|d t] eqn:Et; [constructor|].
      destruct (isDigit d) eqn:Hd; cbn [negb]; [|by apply wp_ret; exists 0%nat].
      apply wp_bind, wp_next; [apply Ha|]. intros ch s2 H2. apply wp_ret.
      pose proof (after_length _ _ _ H2). rewrite Et in *. cbn [length] in *.
      split; [|lia]. split; [apply wrap_u64_isIndex|].
      eapply after_weaken; [by eapply after_trans|lia].
  - intros i Hi. apply reads_some; [done|lia].
Qed.
#[export] Hint Resolve reads_demangleNatural : old.

Lemma reads_demangleIndex n : reads n 1 demangleIndex isIndex.
Proof.
  unfold demangleIndex. reads.
Qed.
#[export] Hint Resolve reads_demangleIndex : old.

Lemma reads_demangleIndexAsNode n : reads n 1 demangleIndexAsNode (fits (ofKind K_Number)).
Proof. unfold demangleIndexAsNode. reads. Qed.

Lemma reads_demangleBuiltinSize n : reads n 1 demangleBuiltinSize isIndex.
Proof. unfold demangleBuiltinSize. reads. Qed.

(** A number that may stand in a node of kind [k]. *)
Definition indexFor (k : Kind) (i : Z) : Prop := oldPayload k (IndexPayload (wrap_u64 i)) = true.

Lemma reads_demangleDirectness n : reads n 1 demangleDirectness (indexFor K_Directness).
Proof. unfold demangleDirectness. reads. Qed.

Lemma valueWitness_index c : match list_find (fun m => c = m) VALUE_WITNESSES with
  | Some (i, _) => indexFor K_ValueWitness (Z.of_nat i)
  | None => True
  end.
Proof.
  destruct (list_find _ _) as [[i m]|] eqn:E; [|done].
  apply list_find_Some in E as (Hm%lookup_lt_Some & _ & _). change (length VALUE_WITNESSES) with 24%nat in Hm.
  unfold indexFor. rewrite wrap_u64_id by lia. cbn. apply andb_true_iff. split; [apply Z.leb_le|apply Z.ltb_lt]; lia.
Qed.

Lemma reads_demangleValueWitnessKind n : reads n 1 demangleValueWitnessKind (indexFor K_ValueWitness).
Proof.
  unfold demangleValueWitnessKind. reads.
  pose proof (valueWitness_index [ch; ch0]) as H. rewrite Heqo in H. apply reads_some; [exact H|lia].
Qed.
#[export] Hint Resolve reads_demangleIndexAsNode reads_demangleBuiltinSize reads_demangleDirectness
  reads_demangleValueWitnessKind : old.

(** ** Identifiers *)

(** Decoding leaves the state as it is. *)
Lemma reads_decode {A} n c b t (k : str -> OM (option A)) P :
  (forall t, reads n c (k t) P) -> reads n c (bind (decode b t) k) P.
Proof.
  intros Hk. apply reads_pure with (Q := fun _ => True); [|by intros ? _]. intros s. unfold decode.
  destruct b; cbn [negb]; [|by apply wp_ret].
  apply wp_bind, wp_decodePunycodeUTF8; [constructor|]. intros r. by apply wp_ret.
Qed.

#[export] Hint Extern 0 (indexFor K_Directness _) => reflexivity : old.

Lemma reads_demangleIdentifierText n pc op k :
  reads n 1 (demangleIdentifierText pc op k) (fun r => exists t, r = createNodeText k t).
Proof.
  unfold demangleIdentifierText. reads.
  - apply reads_pure with (Q := fun _ => True); [by intros s; apply wp_gets|intros t _].
    apply reads_first with (c' := fun _ => 0%nat) (Q := fun _ => True).
    + intros s Hs _. apply wp_modify. exists 0%nat. split_and!; [|done|done].
      split; cbn; [done| |rewrite length_drop; lia].
      eexists. symmetry. apply take_drop.
    + intros [] _. apply reads_decode. intros id. reads.
Qed.

Lemma operatorKind_name c k : operatorKind c = Some k -> isOldIdentifier k = true.
Proof. unfold operatorKind. cbn. repeat destruct (Ascii.eqb _ _); by intros [= <-]. Qed.

Lemma reads_demangleIdentifier n kind :
  reads n 1 (demangleIdentifier kind) (fun r => exists k t, r = createNodeText k t
    /\ match kind with Some k' => k = k' | None => isOldIdentifier k = true end).
Proof.
  unfold demangleIdentifier.
  assert (forall m c pc op k, (c <= 1)%nat ->
    match kind with Some k' => k = k' | None => isOldIdentifier k = true end ->
    reads m c (demangleIdentifierText pc op k) (fun r => exists k t, r = createNodeText k t
      /\ match kind with Some k' => k = k' | None => isOldIdentifier k = true end)) as Hid.
  { intros m c pc op k Hc Hk. eapply reads_mono; [apply reads_demangleIdentifierText|done|done|].
    intros r [t ->]. by exists k, t. }
  reads.
  all: first
    [apply Hid; [lia|by eapply operatorKind_name]
    |apply Hid; [lia|by destruct kind]].
Qed.

Lemma reads_anyIdentifier n : reads n 1 (demangleIdentifier None) (fits (kindIn isOldIdentifier)).
Proof.
  eapply reads_mono; [apply reads_demangleIdentifier|done|done|]. intros r (k & t & -> & Hk).
  split; [by destruct k|done].
Qed.

Lemma reads_someIdentifier n k :
  reads n 1 (demangleIdentifier (Some k)) (fun r => exists t, r = createNodeText k t).
Proof.
  eapply reads_mono; [apply reads_demangleIdentifier|done|done|]. intros r (? & t & -> & ->). by exists t.
Qed.
#[export] Hint Resolve reads_anyIdentifier reads_someIdentifier : old.

Lemma reads_demangleDeclName n : reads n 1 demangleDeclName (fits (kindIn isDeclName)).
Proof.
  unfold demangleDeclName. reads.
Qed.
#[export] Hint Resolve reads_demangleDeclName : old.

(** ** Substitutions and modules *)

Lemma reads_swiftType n k name :
  k = K_Structure \/ k = K_Enum -> reads n 0 (swiftType k name) (fits (kindIn isOldSubstitution)).
Proof. intros [-> | ->]; apply reads_some; [|done| |done]; by split. Qed.
#[local] Hint Resolve reads_swiftType or_introl or_intror eq_refl : old.

Lemma reads_demangleSubstitutionIndex n : reads n 1 demangleSubstitutionIndex (fits (kindIn isOldSubstitution)).
Proof.
  unfold demangleSubstitutionIndex. reads.
  intros s Hs _. apply wp_gets. destruct (Substitutions s !! _) as [x|] eqn:E; [|by apply after_refl].
  split; [by apply after_refl|]. by eapply Forall_lookup_1.
Qed.
#[export] Hint Resolve reads_demangleSubstitutionIndex : old.

Lemma reads_demangleModule n : reads n 1 demangleModule (fits (ofKind K_Module)).
Proof. unfold demangleModule. reads. Qed.
#[export] Hint Resolve reads_demangleModule : old.

(** ** Generic parameters and conventions *)

Lemma fits_genericParam d i : fits (ofKind K_DependentGenericParamType) (getDependentGenericParamType d i).
Proof. unfold getDependentGenericParamType. solve_fits. Qed.
#[export] Hint Resolve fits_genericParam : old.

Lemma reads_demangleGenericParamIndex n :
  reads n 1 demangleGenericParamIndex (fits (ofKind K_DependentGenericParamType)).
Proof. unfold demangleGenericParamIndex. reads. Qed.

Lemma reads_demangleMetatypeRepresentation n :
  reads n 1 demangleMetatypeRepresentation (fits (ofKind K_MetatypeRepresentation)).
Proof. unfold demangleMetatypeRepresentation. reads. Qed.
#[export] Hint Resolve reads_demangleGenericParamIndex reads_demangleMetatypeRepresentation : old.

(** A convention leads to something when it is not empty. *)
Lemma reads_convention {A} n c ctxt (k : str -> OM (option A)) P :
  (forall t, reads n c (k t) P) -> reads n c (bind (demangleImplConvention ctxt) k) P.
Proof.
  intros Hk. unfold demangleImplConvention. apply reads_bind_nextCases. cbn [map fst snd].
  apply reads_nextCases; [|apply Hk].
  repeat apply Forall_cons_2; try apply Forall_nil_2; cbn [fst snd]; lit_lengths;
    (eapply reads_mono; [apply Hk|lia|lia|done]).
Qed.

(** ** Names of declarations *)

Lemma fits_declaration k a b (p : Node -> bool) :
  isAnyGeneric k = true -> fits (kindIn isOldContext) a -> fits (kindIn isDeclName) b ->
  p = ofKind k \/ p = kindIn isOldSubstitution -> fits p (mkNode k NoPayload [a; b]).
Proof.
  intros Hk Ha Hb Hp. kind_facts. apply fits_intro; [|by repeat constructor|destruct k, Hp; by subst].
  destruct k; try discriminate Hk; solve_shape.
Qed.
#[export] Hint Resolve fits_declaration or_introl or_intror eq_refl : old.
#[export] Hint Extern 1 (isAnyGeneric _ = true) => reflexivity : old.

(** ** Parents of bound generic types *)

(** The bound generic type of a nominal type. *)
Definition boundKind (k : Kind) : option Kind :=
  match k with
  | K_Class => Some K_BoundGenericClass
  | K_Structure => Some K_BoundGenericStructure
  | K_Enum => Some K_BoundGenericEnum
  | _ => None
  end.

(** What [demangleBoundGenericArgs] is called for, parents of parents included:
    it does not go into functions, extensions and modules. *)
Definition isRebound (k : Kind) : bool :=
  match k with
  | K_Function | K_Extension => false
  | K_QualifiedArchetype | K_Number | K_Type => true
  | _ => isOldContext k
  end.

(** The kind of the result. *)
Definition boundOf (k k' : Kind) : Prop := k' = k \/ boundKind k = Some k'.

(** A child that the recursion goes into. *)
Definition isSkipped (k : Kind) : bool :=
  match k with K_Module | K_Function | K_Extension => true | _ => false end.

Lemma rebound_context k k0 :
  isOldContext k = true -> isSkipped k = false -> boundOf k k0 -> isRebound k = true /\ isOldContext k0 = true.
Proof.
  intros Hk Hs [->|Hb]; [by destruct k|]. destruct k; try discriminate Hb; by injection Hb as <-.
Qed.

Lemma rebound_root k k0 :
  isOldRoot k || isBoundGeneric k = true -> isSkipped k = false -> boundOf k k0 ->
  isRebound k = true /\ isOldRoot k0 || isBoundGeneric k0 = true.
Proof.
  intros Hk Hs [->|Hb]; [by destruct k|]. destruct k; try discriminate Hb; by injection Hb as <-.
Qed.

Lemma rebound_kind k k0 : boundKind k = None -> boundOf k k0 -> k0 = k.
Proof. intros H [->|Hb]; congruence. Qed.

(** The parts of a rebuilt type. *)
Lemma rebuilt_shape k p c0 c1 rest k0 c0' :
  isRebound k = true -> oldShape k p (c0 :: c1 :: rest) = true ->
  isSkipped (getKind c0) = false -> boundOf (getKind c0) k0 -> getKind c0' = k0 ->
  isRebound (getKind c0) = true /\ oldShape k NoPayload [c0'; c1] = true.
Proof.
  intros Hk Hs Hc Hb H0.
  assert (forall k, ofKind k c0 = true -> boundKind k = None -> ofKind k c0' = true) as Hkind.
  { intros k' H%Kind_eqb_eq Hn. apply Kind_eqb_eq. rewrite H0, <-H. apply rebound_kind; [by rewrite H|done]. }
  pose proof (fun H => rebound_context _ _ H Hc Hb) as Hctx.
  pose proof (fun H => rebound_root _ _ H Hc Hb) as Hroot.
  destruct k; try discriminate Hk; unfold oldShape in *; cbn in Hs;
    try (destruct p; discriminate Hs); try (rewrite andb_false_r in Hs; discriminate Hs);
    apply andb_true_iff in Hs as [_ Hs]; rewrite ?andb_false_r in Hs; try discriminate Hs;
    apply andb_true_iff in Hs as [Hs0 Hs1]; cbn; unfold kindIn in *; rewrite ?H0;
    try (destruct (ofKind K_Type c0); discriminate).
  all: first
    [destruct (Hctx Hs0) as [-> ->]
    |destruct (Hroot Hs0) as [-> ->]
    |rewrite (Hkind _ Hs0 eq_refl); apply Kind_eqb_eq in Hs0; rewrite Hs0].
  all: split; [done|]; cbn [andb].
  all: first
    [by apply andb_true_iff in Hs1 as [-> _]
    |by destruct (isDeclName (getKind c1)), (ofKind K_Type c1), (ofKind K_PrivateDeclName c1)].
Qed.

Lemma fits_bound k x args :
  boundKind (getKind x) = Some k -> old_wf x = true -> fits (ofKind K_TypeList) args ->
  old_wf (mkNode k NoPayload [nodeAddChild (createNode K_Type) x; args]) = true.
Proof.
  intros Hk Hx Ha. node_simpl. kind_facts.
  destruct (getKind x) eqn:E; try discriminate Hk; injection Hk as <-; solve_wf.
Qed.

(** ** Everything that goes through the two recursive functions *)

(** A name has a text. *)
Lemma identifier_text x : fits (kindIn isOldIdentifier) x -> exists t, payload x = TextPayload t.
Proof.
  destruct x as [k p cs]. intros [Hw Hk]. apply old_wf_iff in Hw as [Hs _]. unfold kindIn in Hk.
  unfold oldShape in Hs. destruct k; try discriminate Hk; cbn in Hs; destruct p; try discriminate Hs; by eexists.
Qed.

(** ** Entities *)

(** What is known of an entity before its context and type are. *)
Definition entityNameOk (e : EntityName) : Prop :=
  isOldDeclaration (entityKind e) = true
  /\ (if wrapEntity e then isAccessor (entityKind e) = true /\ hasType e = true
         /\ exists x, name e = Some x /\ fits (kindIn isDeclName) x
      else
        match entityKind e with
        | K_Function | K_Variable | K_Subscript =>
            hasType e = true /\ exists x, name e = Some x /\ fits (kindIn isDeclName) x
        | K_ExplicitClosure | K_ImplicitClosure =>
            hasType e = true /\ exists x, name e = Some x /\ fits (ofKind K_Number) x
        | K_DefaultArgumentInitializer =>
            hasType e = false /\ exists x, name e = Some x /\ fits (ofKind K_Number) x
        | K_Allocator | K_Constructor => hasType e = true /\ name e = None
        | K_Initializer | K_Deallocator | K_Destructor | K_IVarInitializer | K_IVarDestroyer =>
            hasType e = false /\ name e = None
        | _ => False
        end).

Lemma fits_accessor e x :
  isAccessor (entityKind e) = true /\ hasType e = true /\ (exists x, name e = Some x /\ fits (kindIn isDeclName) x) ->
  fits (fun x => ofKind K_Variable x || ofKind K_Subscript x) x ->
  fits (kindIn isOldDeclaration) (nodeAddChild (createNode (entityKind e)) x).
Proof.
  intros [Ha _] Hx. kind_facts. node_simpl.
  destruct (entityKind e); try discriminate Ha;
    (apply fits_intro; [unfold oldShape; cbn; unfold ofKind; by rewrite Hp|by constructor|done]).
Qed.

(** An entity from its context, its name and its type. *)
Lemma fits_entity e c r :
  match entityKind e with
  | K_Function | K_Variable | K_Subscript =>
      hasType e = true /\ exists x, name e = Some x /\ fits (kindIn isDeclName) x
  | K_ExplicitClosure | K_ImplicitClosure =>
      hasType e = true /\ exists x, name e = Some x /\ fits (ofKind K_Number) x
  | K_DefaultArgumentInitializer =>
      hasType e = false /\ exists x, name e = Some x /\ fits (ofKind K_Number) x
  | K_Allocator | K_Constructor => hasType e = true /\ name e = None
  | K_Initializer | K_Deallocator | K_Destructor | K_IVarInitializer | K_IVarDestroyer =>
      hasType e = false /\ name e = None
  | _ => False
  end ->
  fits (kindIn isOldContext) c ->
  (if hasType e then exists x, fits (ofKind K_Type) x
     /\ r = nodeAddChild (addOptional (nodeAddChild (createNode (entityKind e)) c) (name e)) x
   else r = addOptional (nodeAddChild (createNode (entityKind e)) c) (name e)) ->
  fits (kindIn isOldDeclaration) r.
Proof.
  intros He Hc. destruct (entityKind e); try (by destruct He).
  all: first [destruct He as [-> (x & -> & Hx)]|destruct He as [-> ->]].
  all: first [intros (ty & Hty & ->)|intros ->]; solve_fits.
Qed.

(** ** Tuples *)

(** An element that has not been marked as variadic. *)
Definition unmarked (n : Node) : Prop :=
  partial K_TupleElement [Opt (ofKind K_TupleElementName); One (ofKind K_Type)] n.

Definition marked (n : Node) : Node :=
  mkNode (getKind n) (payload n) (createNode K_VariadicMarker :: children n).

Lemma unmarked_fits n : unmarked n -> fits (ofKind K_TupleElement) n.
Proof.
  intros [Hk Hp Hc Hm]. eapply partial_done; [|reflexivity]. split; [done..|].
  destruct (children n) as [|c cs]; [done|]. cbn in *.
  destruct (ofKind K_VariadicMarker c) eqn:E; [|done]. unfold ofKind in *. apply Kind_eqb_eq in E.
  rewrite E in Hm. done.
Qed.

Lemma marked_fits n : unmarked n -> fits (ofKind K_TupleElement) (marked n).
Proof.
  intros [Hk Hp Hc Hm]. eapply partial_done; [|reflexivity]. split; cbn; [done..| |done]. by constructor.
Qed.

Lemma wp_markVariadic E n s (Q : Node -> OldDemangler -> Prop) : Q (marked n) s -> wp E (markVariadic n) Q s.
Proof.
  intros HQ. destruct n as [k p cs]. unfold wp.
  assert (markVariadic (mkNode k p cs) s =
    Ok (mkNode k p (reverse (reverse cs ++ [createNode K_VariadicMarker])), s)) as -> by reflexivity.
  rewrite reverse_snoc, reverse_involutive. exact HQ.
Qed.

Lemma fits_tuple els : Forall (fits (ofKind K_TupleElement)) els -> fits (ofKind K_Tuple) (mkNode K_Tuple NoPayload els).
Proof.
  intros H. apply fits_intro; [| |done].
  - unfold oldShape. cbn. induction H as [|x els [_ Hx] _ IH]; cbn; [done|]. by rewrite Hx.
  - eapply Forall_impl; [|exact H]. by intros x [Hx _].
Qed.

(** ** Functions *)

Definition isOldFunction (k : Kind) : bool :=
  match k with
  | K_AutoClosureType | K_FunctionType | K_ThinFunctionType | K_UncurriedFunctionType | K_ObjCBlock
  | K_CFunctionPointer => true
  | _ => false
  end.

Lemma fits_function k (throws : bool) a b :
  isOldFunction k = true -> fits (ofKind K_Type) a -> fits (ofKind K_Type) b ->
  fits (ofKind k)
    (mkNode k NoPayload ((if throws then [createNode K_ThrowsAnnotation] else [])
       ++ [nodeAddChild (createNode K_ArgumentTuple) a; postProcessReturnTypeNode b])).
Proof. intros Hk Ha Hb. destruct k; try discriminate Hk; destruct throws; solve_fits. Qed.

(** The children of a function type up to its parameters, and up to its results. *)
Definition implPrefix : list pat :=
  [One (ofKind K_ImplConvention); Opt (ofKind K_ImplFunctionAttribute); Opt (kindIn isSignature)].
Definition implParameters : list pat := implPrefix ++ [Many (ofKind K_ImplParameter)].

Section recursive.
Context (n : nat) (demangleTypeImpl demangleContext : OM NodePointer).
Hypothesis reads_demangleTypeImpl : reads n 1 demangleTypeImpl (fits (kindIn isOldType)).
Hypothesis reads_demangleContext : reads n 1 demangleContext (fits (kindIn isOldContext)).
#[local] Hint Resolve reads_demangleTypeImpl reads_demangleContext : old.

#[local] Abbreviation type := (demangleType demangleTypeImpl).

Lemma reads_demangleType : reads n 1 type (fits (ofKind K_Type)).
Proof. unfold demangleType. reads.
Qed.
#[local] Hint Resolve reads_demangleType : old.

Lemma reads_demangleDeclarationName k :
  isAnyGeneric k = true -> reads n 2 (demangleDeclarationName demangleContext k) (fits (ofKind k)).
Proof. intros Hk. unfold demangleDeclarationName. reads. Qed.
#[local] Hint Resolve reads_demangleDeclarationName : old.

Lemma reads_demangleProtocolNameGivenContext m c :
  fits (kindIn isOldContext) c -> reads m 1 (demangleProtocolNameGivenContext c) (fits (ofKind K_Protocol)).
Proof. intros Hc. unfold demangleProtocolNameGivenContext. reads. Qed.
#[local] Hint Resolve reads_demangleProtocolNameGivenContext : old.

Lemma reads_demangleProtocolNameImpl : reads n 2 (demangleProtocolNameImpl demangleContext) (fits (ofKind K_Protocol)).
Proof.
  unfold demangleProtocolNameImpl. reads.
Qed.
#[local] Hint Resolve reads_demangleProtocolNameImpl : old.

Lemma reads_demangleProtocolName : reads n 2 (demangleProtocolName demangleContext) (fits (ofKind K_Type)).
Proof. unfold demangleProtocolName. reads. Qed.
#[local] Hint Resolve reads_demangleProtocolName : old.

Lemma reads_demangleNominalType m :
  (m <= S n)%nat -> reads m 2 (demangleNominalType demangleContext) (fits (kindIn isOldSubstitution)).
Proof. intros Hm. unfold demangleNominalType. reads. Qed.
#[local] Hint Resolve reads_demangleNominalType : old.
#[local] Hint Extern 1 (_ <= _)%nat => lia : old.

(** ** Bound generic types *)

Lemma reads_bindGenericArgs x :
  reads n 1 (bindGenericArgs demangleTypeImpl x)
    (fun r => boundOf (getKind x) (getKind r) /\ (old_wf x = true -> old_wf r = true)).
Proof.
  unfold bindGenericArgs.
  eapply reads_bind; [apply reads_untilNext with (I := fits (ofKind K_TypeList))|].
  - solve_fits.
  - intros args Hargs. unfold boundGenericArgs_step. reads.
  - intros args Hargs. destruct (_ =? 0)%nat.
    { apply reads_some; [|lia]. split; [by left|done]. }
    assert (forall k, boundKind (getKind x) = Some k ->
      reads (n - 1) (1 - 1) (ret (Some (mkNode k NoPayload [nodeAddChild (createNode K_Type) x; args])))
        (fun r => boundOf (getKind x) (getKind r) /\ (old_wf x = true -> old_wf r = true))) as Hbound.
    { intros k Hk. apply reads_some; [|lia]. split; [by right|]. intros Hw. by apply fits_bound. }
    destruct (getKind x) eqn:E; first [apply reads_none|by apply Hbound].
Qed.

(** The parent that a type is rebuilt with. *)
Definition rebuildParent (k : Kind) (x parentOrModule : Node) : OM Node :=
  parent <- demangleBoundGenericArgs demangleTypeImpl parentOrModule ;;
  match parent with
  | None => fail (AssertionFailed "Node::addChild")
  | Some parent => name <- getChild x 1 ;; ret (mkNode k NoPayload [parent; name])
  end.

Lemma demangleBoundGenericArgs_cons k p c0 cs :
  demangleBoundGenericArgs demangleTypeImpl (mkNode k p (c0 :: cs)) =
  (x <- (if isSkipped (getKind c0) then ret (mkNode k p (c0 :: cs))
         else rebuildParent k (mkNode k p (c0 :: cs)) c0) ;;
   bindGenericArgs demangleTypeImpl x).
Proof. cbn. by destruct (getKind c0). Qed.

Lemma reads_demangleBoundGenericArgs x :
  reads n 1 (demangleBoundGenericArgs demangleTypeImpl x)
    (fun r => boundOf (getKind x) (getKind r)
       /\ (old_wf x = true -> isRebound (getKind x) = true -> old_wf r = true)).
Proof.
  induction x as [k p cs IH] using Node_tree_ind. destruct cs as [|c0 cs]; [apply reads_none|].
  rewrite demangleBoundGenericArgs_cons. inversion_clear IH as [|? ? IH0 _].
  destruct (isSkipped (getKind c0)) eqn:Hskip.
  { eapply reads_mono; [apply reads_bindGenericArgs|done|done|]. cbn [getKind]. intros r [Hb Hr]. auto. }
  unfold rebuildParent. apply reads_assoc.
  eapply reads_first with (c' := fun r => match r with Some _ => 1%nat | None => 0%nat end)
    (Q := fun r => match r with Some parent => _ | None => True end).
  { intros s Hs Hn. eapply wp_mono; [by apply IH0|]. intros [r|] s'; cbn beta iota.
    - intros [Ha Hr]. exists 1%nat. split_and!; [exact Ha|done|exact Hr].
    - intros Ha. by exists 0%nat. }
  intros [parent|] Hp; [|intros s _ _; constructor].
  destruct cs as [|c1 rest]; [intros s _ _; constructor|].
  destruct Hp as [Hb Hw].
  change (getChild (mkNode k p (c0 :: c1 :: rest)) 1) with (ret (S := OldDemangler) c1).
  eapply reads_mono; [apply reads_bindGenericArgs|lia|lia|].
  cbn [getKind]. intros r [Hk Hr]. split; [done|]. intros [Hsh Hcs]%old_wf_iff Hreb. apply Hr.
  inversion_clear Hcs as [|? ? Hc0 Hcs']. inversion_clear Hcs' as [|? ? Hc1 _].
  destruct (rebuilt_shape _ _ _ _ _ _ parent Hreb Hsh Hskip Hb eq_refl) as [H0 Hsh'].
  apply old_wf_iff. split; [done|]. constructor; [by apply Hw|by constructor].
Qed.

Lemma reads_demangleBoundGenericType :
  reads n 3 (demangleBoundGenericType demangleTypeImpl demangleContext) (fits (kindIn isOldBound)).
Proof.
  unfold demangleBoundGenericType. eapply reads_bind; [apply reads_demangleNominalType; lia|]. intros x Hx.
  eapply reads_mono; [apply reads_demangleBoundGenericArgs|lia|lia|].
  intros r [Hk Hw]. kind_facts. split.
  - apply Hw; [done|]. by destruct (getKind x).
  - unfold kindIn. destruct Hk as [->|Hk]; [by destruct (getKind x)|].
    destruct (getKind x); try discriminate Hk; by injection Hk as <-.
Qed.
#[local] Hint Resolve reads_demangleBoundGenericType : old.

(** ** Protocols *)

Lemma reads_demangleProtocolList : reads n 1 (demangleProtocolList demangleContext) (fits (ofKind K_ProtocolList)).
Proof.
  unfold demangleProtocolList. reads_until (fits (ofKind K_TypeList)).
Qed.

Lemma reads_demangleProtocolConformance :
  reads n 4 (demangleProtocolConformance demangleTypeImpl demangleContext) (fits (ofKind K_ProtocolConformance)).
Proof. unfold demangleProtocolConformance. reads. Qed.
#[local] Hint Resolve reads_demangleProtocolList reads_demangleProtocolConformance : old.

(** ** Dependent types and generic signatures *)

Lemma reads_demangleDependentMemberTypeName m b :
  (m <= n)%nat -> fits (ofKind K_Type) b ->
  reads m 1 (demangleDependentMemberTypeName demangleContext b) (fits (ofKind K_DependentMemberType)).
Proof.
  intros Hm Hb. unfold demangleDependentMemberTypeName.
  apply reads_assert; [exact (fits_pred _ _ Hb)|]. reads.
Qed.
#[local] Hint Resolve reads_demangleDependentMemberTypeName : old.

Lemma reads_demangleAssociatedTypeSimple :
  reads n 2 (demangleAssociatedTypeSimple demangleContext) (fits (ofKind K_DependentMemberType)).
Proof. unfold demangleAssociatedTypeSimple. reads. Qed.

(** A generic parameter or a member of one. *)
Definition isDependent (k : Kind) : bool :=
  match k with K_DependentGenericParamType | K_DependentMemberType => true | _ => false end.

Lemma reads_demangleAssociatedTypeCompound :
  reads n 2 (demangleAssociatedTypeCompound demangleContext) (fits (kindIn isDependent)).
Proof.
  unfold demangleAssociatedTypeCompound. eapply reads_bind; [old_spec|old_intro].
  reads_until (fits (kindIn isDependent)).
Qed.
#[local] Hint Resolve reads_demangleAssociatedTypeSimple reads_demangleAssociatedTypeCompound : old.

Lemma reads_demangleDependentType m :
  (m <= n)%nat -> reads m 1 (demangleDependentType demangleTypeImpl demangleContext) (fits (kindIn isDependent)).
Proof. intros Hm. unfold demangleDependentType. reads. Qed.

Lemma reads_demangleConstrainedType :
  reads n 1 (demangleConstrainedType demangleContext) (fits (ofKind K_Type)).
Proof.
  unfold demangleConstrainedType.
  assert (reads n 1 (demangleConstrainedTypeImpl demangleContext) (fits (kindIn isDependent))) as H.
  { unfold demangleConstrainedTypeImpl. reads. }
  reads.
Qed.
#[local] Hint Resolve reads_demangleDependentType reads_demangleConstrainedType : old.

(** The name and the numbers of a layout. *)
Lemma reads_demangleLayoutRequirement m c :
  fits (ofKind K_Type) c -> reads m 1 (demangleLayoutRequirement c) (fits (ofKind K_DependentGenericLayoutRequirement)).
Proof.
  intros Hc. unfold demangleLayoutRequirement.
  eapply reads_bind with (d := 1%nat) (Q := fun _ => True).
  - unfold layoutAlone, layoutWithSize, layoutWithAlignment. reads.
  - intros [[name size] alignment] _. destruct (size =? SIZE_MAX), (alignment =? SIZE_MAX); reads.
Qed.
#[local] Hint Resolve reads_demangleLayoutRequirement : old.

Lemma reads_demangleConstraint m :
  (m <= n)%nat -> reads m 1 (demangleConstraint demangleTypeImpl demangleContext) (fits (ofKind K_Type)).
Proof.
  intros Hm. unfold demangleConstraint. reads.
  assert (forall m', reads m' 0 (match getKind a with
      | K_Protocol | K_Class => ret (Some a)
      | K_Module => demangleProtocolNameGivenContext a
      | _ => ret None
      end) (fits (kindIn isOldSubstitution))) as Hsub.
  { intros m'. destruct (getKind a) eqn:E; try apply reads_none; reads. }
  reads.
Qed.
#[local] Hint Resolve reads_demangleConstraint : old.

Lemma reads_demangleGenericRequirement :
  reads n 1 (demangleGenericRequirement demangleTypeImpl demangleContext) (fits (kindIn isRequirement)).
Proof. unfold demangleGenericRequirement. reads. Qed.
#[local] Hint Resolve reads_demangleGenericRequirement : old.

(** A signature while its counts are read. *)
Definition countsOf (k : Kind) (sig : Node) : Prop :=
  partial k [Many (ofKind K_DependentGenericParamCount)] sig.

Lemma countsOf_add k sig count : countsOf k sig -> countsOf k (addCount sig count).
Proof. intros Hs. apply (partial_more k []); [exact Hs|solve_fits|constructor]. Qed.

Lemma reads_paramCounts m k sig count :
  (m <= n)%nat -> countsOf k sig ->
  reads m 0 (while_ paramCounts_step (sig, count)) (fun r => countsOf k r.1).
Proof.
  intros Hm Hs. apply reads_while with (I := fun st => countsOf k st.1); [done|].
  clear sig count Hs. intros [sig count] s Hs Hi Hl. unfold paramCounts_step.
  apply wp_bind, wp_peek. intros c. destruct (_ || _).
  { apply wp_ret. split; [by apply after_refl|done]. }
  apply wp_bind.
  assert (reads m 1 (nextCases (A := option Z) ["z" =>> ret (Some 0) ]
    (count <-? demangleIndex ;; ret (Some (wrap_u64 (count + 1))))) isIndex) as Hcount by reads.
  eapply wp_mono; [by apply Hcount|]. intros [i|] s'; [|done]. intros [Ha _]. apply wp_ret.
  split; [done|]. by apply countsOf_add.
Qed.

Lemma reads_demangleGenericSignature m (pseudo : bool) k :
  (m <= n)%nat -> k = (if pseudo then K_DependentPseudogenericSignature else K_DependentGenericSignature) ->
  reads m 1 (demangleGenericSignature demangleTypeImpl demangleContext pseudo) (fits (ofKind k)).
Proof.
  intros Hm Hk. unfold demangleGenericSignature. rewrite <-Hk.
  assert (oldChildren k = Some [Many (ofKind K_DependentGenericParamCount); Many (kindIn isRequirement)]) as Hps
    by (subst k; by destruct pseudo).
  eapply reads_bind; [apply (reads_paramCounts m k); [done|]|].
  { unfold countsOf. apply (partial_skip k []); [|done]. apply partial_new. subst k. by destruct pseudo. }
  intros [sig count] Hsig. cbn [fst] in Hsig. cbv beta iota zeta.
  set (sig' := if count =? noCount then _ else _).
  assert (fits (ofKind k) sig') as Hsig'.
  { apply (partial_done k [Many (ofKind K_DependentGenericParamCount); Many (kindIn isRequirement)]); [|done].
    apply (partial_skip k [_]); [|done]. unfold sig'. destruct (_ =? _); [by apply countsOf_add|done]. }
  clearbody sig'. clear Hps Hsig. reads. destruct pseudo; subst k;
    [reads_until (fits (ofKind K_DependentPseudogenericSignature))|reads_until (fits (ofKind K_DependentGenericSignature))].
Qed.
#[local] Hint Resolve reads_demangleGenericSignature : old.

(** ** Entities *)

Definition isBasicKind (k : Kind) : bool :=
  match k with K_Function | K_Variable | K_Initializer | K_Subscript => true | _ => false end.

Lemma reads_demangleEntityName m k :
  isBasicKind k = true -> reads m 1 (demangleEntityName k) entityNameOk.
Proof.
  intros Hk. unfold demangleEntityName, accessorEntity, namedEntity, unnamedEntity. reads.
  all: apply reads_some; [|lia]; split; cbn [entityKind hasType wrapEntity name]; try reflexivity.
  all: try (split_and!; [done..|by exists a]).
  - by destruct k.
  - destruct k; try discriminate Hk; first [done|by split_and!; [done|exists a]].
Qed.
#[local] Hint Resolve reads_demangleEntityName : old.
#[local] Hint Extern 1 (isBasicKind _ = true) => reflexivity : old.

(** The type, when there is one. *)
Lemma reads_demangleTypeIf m b parent :
  (m <= n)%nat ->
  reads m 0 (demangleTypeIf demangleTypeImpl b parent)
    (fun r => if b then exists x, fits (ofKind K_Type) x /\ r = nodeAddChild parent x else r = parent).
Proof.
  intros Hm. unfold demangleTypeIf. destruct b; [|by apply reads_some].
  eapply reads_mono; [apply reads_child, reads_demangleType|done|lia|done].
Qed.

(** The name that is left of the name of a subscript. *)
Lemma wp_subscriptName x s (Q : bool * NodePointer -> OldDemangler -> Prop) :
  fits (kindIn isDeclName) x ->
  (forall r, (match r with
              | (true, None) => True
              | (true, Some d) => fits (ofKind K_PrivateDeclName) d
              | (false, Some d) => d = x
              | (false, None) => False
              end) -> Q r s) ->
  wp old_crash (subscriptName x) Q s.
Proof.
  intros Hx HQ. unfold subscriptName. destruct x as [k p cs]. cbn [getKind].
  kind_facts. cbn [getKind] in *.
  destruct k; try discriminate Hp; try (apply wp_ret, HQ; done).
  - apply old_wf_iff in Hw as [Hs _]. unfold oldShape in Hs. cbn in Hs.
    destruct p; try discriminate Hs. apply wp_bind, wp_ret. destruct (str_eqb _ _); by apply wp_ret, HQ.
  - destruct cs as [|c0 [|c1 cs]]; cbn [getNumChildren length children Nat.ltb Nat.leb];
      try (apply wp_ret, HQ; done).
    apply old_wf_iff in Hw as [Hs Hc]. unfold oldShape in Hs. cbn in Hs.
    inversion_clear Hc as [|? ? Hc0 Hc']. inversion_clear Hc' as [|? ? Hc1 _].
    apply andb_true_iff in Hs as [_ Hs]. apply andb_true_iff in Hs as [Hk0 Hs].
    destruct (kindIn isOldIdentifier c1) eqn:Hk1; [|discriminate Hs].
    destruct (identifier_text c1) as [t Ht]; [by split|].
    apply wp_bind, wp_ret, wp_bind. unfold getText. rewrite Ht. apply wp_ret.
    destruct (str_eqb _ _); [|by apply wp_ret, HQ].
    apply wp_bind, wp_ret, wp_ret, HQ. unfold kindIn in Hk0. node_simpl. split; [|done].
    apply old_wf_iff. split; [solve_shape|by constructor].
Qed.

Lemma reads_demangleWrappedEntity m c e :
  (m <= n)%nat -> fits (kindIn isOldContext) c -> entityNameOk e -> wrapEntity e = true ->
  reads m 0 (demangleWrappedEntity demangleTypeImpl c e) (fits (fun x => ofKind K_Variable x || ofKind K_Subscript x)).
Proof.
  intros Hm Hc [_ He] Hw. rewrite Hw in He. destruct He as (_ & Ht & x & Hx & Hn).
  unfold demangleWrappedEntity. rewrite Hx, Ht.
  apply reads_pure with (Q := fun r : bool * NodePointer => match r with
              | (true, None) => True
              | (true, Some d) => fits (ofKind K_PrivateDeclName) d
              | (false, Some d) => d = x
              | (false, None) => False
              end).
  { intros s. by apply wp_subscriptName. }
  intros [[] [d|]] Hd; try done; cbn beta iota.
  - eapply reads_bind; [by apply reads_demangleTypeIf|]. intros r (ty & Hty & ->). reads.
  - eapply reads_bind; [by apply reads_demangleTypeIf|]. intros r (ty & Hty & ->). reads.
  - subst d. eapply reads_mono; [by apply (reads_demangleTypeIf m)|lia|lia|].
    intros r (ty & Hty & ->). old_side.
Qed.

Lemma reads_demangleEntityOf st k :
  isBasicKind k = true ->
  reads n 2 (demangleEntityOf demangleTypeImpl demangleContext st k) (fits (kindIn isOldDeclaration)).
Proof.
  intros Hk. unfold demangleEntityOf. eapply reads_bind; [old_spec|old_intro].
  eapply reads_bind; [by apply reads_demangleEntityName|]. intros e He.
  eapply reads_bind with (d := 0%nat) (Q := fits (kindIn isOldDeclaration)).
  2: { old_intro. destruct st; reads. }
  destruct (wrapEntity e) eqn:Hw.
  - eapply reads_mono; [apply (reads_child (n - 1 - 1)), reads_demangleWrappedEntity; [lia|done..]|lia|lia|].
    intros r (x & Hx & ->). destruct He as [Hd He]. rewrite Hw in He. by apply fits_accessor.
  - eapply reads_mono; [apply (reads_demangleTypeIf (n - 1 - 1)); lia|lia|lia|]. intros r Hr.
    destruct He as [_ He]. rewrite Hw in He. by eapply fits_entity.
Qed.
#[local] Hint Resolve reads_demangleEntityOf : old.

Lemma reads_demangleEntity m :
  (m <= S n)%nat -> reads m 1 (demangleEntity demangleTypeImpl demangleContext) (fits (kindIn isOldEntity)).
Proof.
  intros Hm. unfold demangleEntity. reads.
Qed.
#[local] Hint Resolve reads_demangleEntity : old.

Lemma reads_demangleContextBody :
  reads (S n) 1 (demangleContextBody demangleTypeImpl demangleContext) (fits (kindIn isOldContext)).
Proof.
  unfold demangleContextBody. reads.
Qed.

(** ** Archetypes *)

Lemma reads_makeAssociatedType m r :
  fits (kindIn isOldRoot) r -> reads m 1 (makeAssociatedType r) (fits (ofKind K_AssociatedTypeRef)).
Proof. intros Hr. unfold makeAssociatedType. reads. Qed.
#[local] Hint Resolve reads_makeAssociatedType : old.

Definition isArchetype (k : Kind) : bool :=
  match k with K_AssociatedTypeRef | K_QualifiedArchetype => true | _ => false end.

Lemma reads_demangleArchetypeTypeWith fuel m :
  (m <= n)%nat -> (m <= fuel)%nat ->
  reads m 1 (demangleArchetypeTypeWith demangleContext fuel) (fits (kindIn isArchetype)).
Proof.
  revert m. induction fuel as [|fuel IH]; intros m Hm Hf; [intros s _ Hl; lia|]. cbn [demangleArchetypeTypeWith].
  reads.
Qed.

Lemma reads_demangleArchetypeType m :
  (m <= n)%nat -> reads m 1 (demangleArchetypeType demangleContext) (fits (kindIn isArchetype)).
Proof. intros Hm s Hs Hl. apply (reads_demangleArchetypeTypeWith _ (S (length (Mangled s)))); [lia|done|done|lia]. Qed.
#[local] Hint Resolve reads_demangleArchetypeType : old.

(** ** Tuples and functions *)

Lemma reads_demangleTuple m b :
  (m <= n)%nat -> reads m 1 (demangleTuple demangleTypeImpl b) (fits (ofKind K_Tuple)).
Proof.
  intros Hm. unfold demangleTuple.
  eapply reads_bind; [apply reads_untilNext with (I := Forall unmarked)|]; [done| |].
  - unfold tuple_step. reads.
    all: apply reads_some; [|lia]; apply Forall_app_2; [done|]; constructor; [|done].
    all: node_simpl; kind_facts; split; [done|done|by repeat constructor|]; cbn; unfold ofKind; cbn; kind_rewrite; done.
  - intros els Hels.
    apply reads_pure with (Q := Forall (fits (ofKind K_TupleElement))).
    + intros s.
      assert (Forall (fits (ofKind K_TupleElement)) els) as Hfits
        by (eapply Forall_impl; [|exact Hels]; apply unmarked_fits).
      destruct (els !! (length els - 1)%nat) as [elt|] eqn:E; [|by apply wp_ret].
      destruct b; [|by apply wp_ret].
      apply wp_bind, wp_markVariadic, wp_ret. split; [done|]. apply Forall_app_2; [by apply Forall_take|].
      constructor; [|done]. apply marked_fits. by eapply Forall_lookup_1.
    + intros els' Hels'. apply reads_some; [|lia]. by apply fits_tuple.
Qed.
#[local] Hint Resolve reads_demangleTuple : old.

Lemma reads_demangleFunctionType m k :
  (m <= n)%nat -> isOldFunction k = true -> reads m 2 (demangleFunctionType demangleTypeImpl k) (fits (ofKind k)).
Proof.
  intros Hm Hk. unfold demangleFunctionType. apply reads_nextIf.
  all: eapply reads_bind; [old_spec|old_intro]; eapply reads_bind; [old_spec|old_intro].
  - apply reads_some; [by apply (fits_function k true)|lia].
  - apply reads_some; [by apply (fits_function k false)|lia].
Qed.
#[local] Hint Resolve reads_demangleFunctionType : old.
#[local] Hint Extern 1 (isOldFunction _ = true) => reflexivity : old.

(** A parameter, or a result of either kind. *)
Lemma reads_demangleImplParameter m :
  (m <= n)%nat ->
  reads m 1 (demangleImplParameterOrResult demangleTypeImpl K_ImplParameter) (fits (ofKind K_ImplParameter)).
Proof.
  intros Hm. unfold demangleImplParameterOrResult. apply reads_nextIf; cbn [andb Kind_eqb negb];
    [apply reads_none|]. apply reads_convention. intros conv. reads.
Qed.

Lemma reads_demangleImplResult m :
  (m <= n)%nat ->
  reads m 1 (demangleImplParameterOrResult demangleTypeImpl K_ImplResult)
    (fits (fun x => ofKind K_ImplResult x || ofKind K_ImplErrorResult x)).
Proof.
  intros Hm. unfold demangleImplParameterOrResult.
  apply reads_nextIf; cbn; apply reads_convention; intros conv; reads.
Qed.
#[local] Hint Resolve reads_demangleImplParameter reads_demangleImplResult : old.

Lemma reads_demangleImplCalleeConvention m :
  reads m 0 (demangleImplCalleeConvention (createNode K_ImplFunctionType))
    (partial K_ImplFunctionType [One (ofKind K_ImplConvention)]).
Proof.
  assert (forall m attr, reads m 0 (ret (if (length attr =? 0)%nat then None
     else Some (nodeAddChild (createNode K_ImplFunctionType) (createNodeText K_ImplConvention attr))))
     (partial K_ImplFunctionType [One (ofKind K_ImplConvention)])) as Hattr.
  { intros m' attr. destruct (_ =? 0)%nat; [apply reads_none|]. apply reads_some; [|done].
    apply (partial_add _ []); [by apply partial_new|solve_fits|constructor]. }
  unfold demangleImplCalleeConvention. apply reads_bind_nextCases. cbn [map fst snd].
  apply reads_nextCases; [constructor; [|constructor]|].
  - apply reads_ret, Hattr.
  - apply reads_convention. intros attr. apply Hattr.
Qed.

Lemma reads_demangleImplFunctionAttribute m type :
  partial K_ImplFunctionType [One (ofKind K_ImplConvention)] type ->
  reads m 0 (demangleImplFunctionAttribute type)
    (partial K_ImplFunctionType [One (ofKind K_ImplConvention); Opt (ofKind K_ImplFunctionAttribute)]).
Proof.
  intros H. unfold demangleImplFunctionAttribute. reads.
  all: apply reads_some; [|lia].
  all: first
    [apply (partial_add _ [_] _ (Opt _)); [exact H|cbn; solve_fits|by repeat constructor]
    |by apply (partial_skip _ [_])].
Qed.

Lemma reads_demangleImplGenerics m type :
  (m <= n)%nat ->
  partial K_ImplFunctionType [One (ofKind K_ImplConvention); Opt (ofKind K_ImplFunctionAttribute)] type ->
  reads m 0
    (nextCases
      [ "G" =>> demangleChild type (demangleGenericSignature demangleTypeImpl demangleContext false);
        "g" =>> demangleChild type (demangleGenericSignature demangleTypeImpl demangleContext true) ]
      (ret (Some type)))
    (partial K_ImplFunctionType implPrefix).
Proof.
  intros Hm H. reads.
  - eapply reads_mono; [eapply reads_child, reads_demangleGenericSignature; [exact Hm|done]|lia|lia|].
    intros r (x & Hx & ->). apply (partial_add _ [_; _] _ (Opt _)); [exact H|cbn; solve_fits|].
    kind_facts. repeat constructor. solve_kind.
  - eapply reads_mono; [eapply reads_child, reads_demangleGenericSignature; [exact Hm|done]|lia|lia|].
    intros r (x & Hx & ->). apply (partial_add _ [_; _] _ (Opt _)); [exact H|cbn; solve_fits|].
    kind_facts. repeat constructor. solve_kind.
  - apply reads_some; [|done]. by apply (partial_skip _ [_; _]).
Qed.

Lemma reads_demangleImplFunctionType m :
  (m <= n)%nat ->
  reads m 1 (demangleImplFunctionType demangleTypeImpl demangleContext) (fits (ofKind K_ImplFunctionType)).
Proof.
  intros Hm. unfold demangleImplFunctionType.
  eapply reads_bind; [apply reads_demangleImplCalleeConvention|]. intros t1 H1.
  eapply reads_bind; [by apply reads_demangleImplFunctionAttribute|]. intros t2 H2.
  eapply reads_bind; [apply reads_demangleImplGenerics; [lia|exact H2]|]. intros t3 H3.
  apply reads_nextIf; cbn [negb]; [|apply reads_none].
  eapply reads_bind with (Q := partial K_ImplFunctionType implParameters).
  { apply reads_untilNext; [by apply partial_skip|]. intros a Ha.
    eapply reads_mono; [eapply reads_child, reads_demangleImplParameter, Hm|lia|lia|].
    intros r (x & Hx & ->). apply (partial_more _ implPrefix); [done|done|].
    kind_facts. repeat constructor; solve_kind. }
  intros t4 H4.
  assert (fits (ofKind K_ImplFunctionType) t4) as H5.
  { apply (partial_done _ (implParameters ++ [Many (fun n => ofKind K_ImplResult n || ofKind K_ImplErrorResult n)]));
      [by apply partial_skip|reflexivity]. }
  unfold demangleImplResults. reads_until (fits (ofKind K_ImplFunctionType)).
Qed.
#[local] Hint Resolve reads_demangleImplFunctionType : old.

(** ** Types *)

Lemma reads_builtinType m name : reads m 0 (builtinType name) (fits (ofKind K_BuiltinTypeName)).
Proof. by apply reads_some. Qed.
#[local] Hint Resolve reads_builtinType : old.

Lemma reads_demangleBuiltinNumber m p : reads m 1 (demangleBuiltinNumber p) (fits (ofKind K_BuiltinTypeName)).
Proof. unfold demangleBuiltinNumber. reads. Qed.
#[local] Hint Resolve reads_demangleBuiltinNumber : old.

Lemma reads_demangleBuiltinVector m : reads m 1 demangleBuiltinVector (fits (ofKind K_BuiltinTypeName)).
Proof. unfold demangleBuiltinVector. reads. Qed.
#[local] Hint Resolve reads_demangleBuiltinVector : old.

(** A [switch] over characters. *)
Lemma reads_switch {A} m c ch cases (d : OM (option A)) P :
  Forall (fun e => reads m c e.2 P) cases -> reads m c d P -> reads m c (switch ch cases d) P.
Proof.
  intros Hc Hd. apply (switch_ind (fun e => reads m c e P)); [|done].
  eapply Forall_impl; [|exact Hc]. by intros e H _.
Qed.

Lemma reads_demangleBuiltinType m : reads m 1 demangleBuiltinType (fits (ofKind K_BuiltinTypeName)).
Proof.
  unfold demangleBuiltinType. reads. apply reads_switch; [|reads].
  repeat apply Forall_cons_2; try apply Forall_nil_2; cbn [snd]; reads.
Qed.
#[local] Hint Resolve reads_demangleBuiltinType : old.

Lemma reads_boxFields m :
  (m <= n)%nat ->
  reads m 1 (untilNext "_" (boxFields_step demangleTypeImpl) (createNode K_SILBoxLayout)) (fits (ofKind K_SILBoxLayout)).
Proof.
  intros Hm. reads_until (fits (ofKind K_SILBoxLayout)). unfold boxFields_step. reads.
Qed.

Lemma reads_typeList m :
  (m <= n)%nat ->
  reads m 1 (untilNext "_" (fun args => demangleChild args type) (createNode K_TypeList)) (fits (ofKind K_TypeList)).
Proof. intros Hm. reads_until (fits (ofKind K_TypeList)). Qed.
#[local] Hint Resolve reads_boxFields reads_typeList : old.

Lemma reads_demangleSILBoxTypeWithLayout m :
  (m <= n)%nat ->
  reads m 1 (demangleSILBoxTypeWithLayout demangleTypeImpl demangleContext) (fits (ofKind K_SILBoxTypeWithLayout)).
Proof. intros Hm. unfold demangleSILBoxTypeWithLayout. reads. Qed.
#[local] Hint Resolve reads_demangleSILBoxTypeWithLayout : old.

Lemma reads_demangleMetatypeWithRepresentation m k :
  (m <= n)%nat -> k = K_Metatype \/ k = K_ExistentialMetatype ->
  reads m 1 (demangleMetatypeWithRepresentation demangleTypeImpl k) (fits (ofKind k)).
Proof. intros Hm Hk. unfold demangleMetatypeWithRepresentation. reads. apply reads_some; [|lia]. destruct Hk as [-> | ->]; solve_fits. Qed.
#[local] Hint Resolve reads_demangleMetatypeWithRepresentation : old.

Lemma reads_demangleExtendedType m :
  (m <= n)%nat -> reads m 1 (demangleExtendedType demangleTypeImpl demangleContext) (fits (kindIn isOldType)).
Proof. intros Hm. unfold demangleExtendedType. reads.
Qed.
#[local] Hint Resolve reads_demangleExtendedType : old.

Lemma reads_demangleErrorType m : reads m 1 demangleErrorType (fits (ofKind K_ErrorType)).
Proof. unfold demangleErrorType. reads. Qed.
#[local] Hint Resolve reads_demangleErrorType : old.

Lemma reads_demangleDependentGenericType m :
  (m <= n)%nat ->
  reads m 1 (demangleDependentGenericType demangleTypeImpl demangleContext) (fits (ofKind K_DependentGenericType)).
Proof. intros Hm. unfold demangleDependentGenericType. reads. Qed.
#[local] Hint Resolve reads_demangleDependentGenericType : old.

Lemma reads_demangleTypeImplBody :
  reads (S n) 1 (demangleTypeImplBody demangleTypeImpl demangleContext) (fits (kindIn isOldType)).
Proof.
  unfold demangleTypeImplBody. apply reads_isEmpty; [apply reads_none|]. apply reads_next. intros c.
  apply reads_switch.
  - repeat apply Forall_cons_2; try apply Forall_nil_2; cbn [snd]; reads.
  - destruct (isStartOfNominalType c) eqn:Hc; [|apply reads_none].
    eapply reads_mono; [apply reads_demangleDeclarationName|lia|lia|].
    + unfold isStartOfNominalType, nominalTypeMarkerToNodeKind in *. cbn in *. 
      repeat destruct (Ascii.eqb _ _); done.
    + intros x Hx. eapply fits_mono; [exact Hx|]. intros H.
      unfold isStartOfNominalType, nominalTypeMarkerToNodeKind in *. cbn in *. 
      unfold kindIn. apply Kind_eqb_eq in H. rewrite H. repeat destruct (Ascii.eqb _ _); done.
Qed.

(** ** Specializations *)

Definition isGenericSpecialization (k : Kind) : bool :=
  match k with K_GenericSpecialization | K_GenericSpecializationNotReAbstracted => true | _ => false end.

Lemma fits_spec_param k param spec x :
  match k with
  | K_GenericSpecialization | K_GenericSpecializationNotReAbstracted => param = K_GenericSpecializationParam
  | K_FunctionSignatureSpecialization => param = K_FunctionSignatureSpecializationParam
  | _ => False
  end ->
  fits (ofKind k) spec -> fits (ofKind param) x -> fits (ofKind k) (nodeAddChild spec x).
Proof. intros Hk Hs Hx. destruct k; try done; subst param; solve_more. Qed.

Lemma reads_specializationParam m spec k :
  (m <= n)%nat -> isGenericSpecialization k = true -> fits (ofKind k) spec ->
  reads m 1 (specializationParam_step demangleTypeImpl demangleContext spec) (fits (ofKind k)).
Proof.
  intros Hm Hk Hspec. unfold specializationParam_step. reads.
  eapply reads_bind; [apply reads_untilNext with (I := fits (ofKind K_GenericSpecializationParam))|].
  - solve_fits.
  - intros a Ha. reads.
  - intros a Ha. apply reads_some; [|lia]. eapply fits_spec_param; [|done|exact Ha]. by destruct k.
Qed.
#[local] Hint Resolve reads_specializationParam : old.

Lemma reads_demangleGenericSpecialization m spec k :
  (m <= n)%nat -> isGenericSpecialization k = true -> fits (ofKind k) spec ->
  reads m 1 (demangleGenericSpecialization demangleTypeImpl demangleContext spec) (fits (ofKind k)).
Proof.
  intros Hm Hk Hspec. apply reads_untilNext; [done|]. intros a Ha. by apply reads_specializationParam.
Qed.

Lemma wp_textOf x s (Q : str -> OldDemangler -> Prop) :
  fits (kindIn isOldIdentifier) x -> (forall t, Q t s) -> wp old_crash (getText x) Q s.
Proof.
  intros Hx HQ. destruct (identifier_text _ Hx) as [t Ht]. unfold getText, hasText. rewrite Ht. apply HQ.
Qed.

Lemma reads_getText {A} m c x (k : str -> OM (option A)) P :
  fits (kindIn isOldIdentifier) x -> (forall t, reads m c (k t) P) -> reads m c (bind (getText x) k) P.
Proof.
  intros Hx Hk. apply reads_pure with (Q := fun _ => True); [|by intros ? _].
  intros s. by apply wp_textOf.
Qed.

(** A parameter with its number: nothing behind it yet, then a kind with any
    number of payloads, then types. *)
Abbreviation FSParam := K_FunctionSignatureSpecializationParam.
Abbreviation FSKind := (Opt (ofKind K_FunctionSignatureSpecializationParamKind)).
Abbreviation FSPayload := (Many (ofKind K_FunctionSignatureSpecializationParamPayload)).
Definition bareParam (x : Node) : Prop := partial FSParam [] x.
Definition constParam (x : Node) : Prop := partial FSParam [FSKind; FSPayload] x.

Lemma constParam_full x : constParam x -> fits (ofKind FSParam) x.
Proof. intros H. eapply partial_done; [|reflexivity]. by apply (partial_skip _ [_; _]). Qed.

Lemma bareParam_const x : bareParam x -> constParam x.
Proof. intros H. apply (partial_skip _ [_]); [|done]. by apply (partial_skip _ []). Qed.

Lemma param_kind x i : bareParam x -> constParam (nodeAddChild x (FUNCSIGSPEC_CREATE_PARAM_KIND i)).
Proof.
  intros H. apply (partial_skip _ [_]); [|done].
  apply (partial_add _ [] _ FSKind); [done| |constructor]. cbn [patPred]. solve_fits.
Qed.

Lemma param_payload x t : constParam x -> constParam (nodeAddChild x (FUNCSIGSPEC_CREATE_PARAM_PAYLOAD t)).
Proof.
  intros H. apply (partial_more _ [FSKind]); [done| |].
  - solve_fits.
  - by repeat constructor.
Qed.
#[local] Hint Resolve constParam_full bareParam_const param_kind param_payload : old.
#[local] Hint Extern 1 (fits (ofKind FSParam) _) => apply constParam_full : old.

Lemma reads_constantPropName m parent k :
  bareParam parent -> reads m 1 (constantPropName parent k) constParam.
Proof.
  intros Hp. unfold constantPropName. reads. apply reads_getText; [done|]. intros t. reads.
Qed.

(** Reading up to a character leaves a suffix of the text. *)
Lemma readUntilFrom_suffix text c r : (readUntilFrom text c r).2 `suffix_of` text.
Proof.
  revert r. induction text as [|d text IH]; intros r; cbn [readUntilFrom]; [done|].
  destruct (Ascii.eqb d c); [done|]. cbn. by apply suffix_cons_r.
Qed.

Lemma reads_readUntil m c : reads m 0 (readUntil c) (fun _ => True).
Proof.
  intros s Hs _. unfold readUntil, wp.
  pose proof (readUntilFrom_suffix (Mangled s) c []) as H. destruct (readUntilFrom _ _ _) as [r rest]. cbn in H.
  assert (after 0 s (setMangled rest s)) as Ha.
  { split; cbn; [done|done|]. apply suffix_length in H. lia. }
  by destruct r.
Qed.
#[local] Hint Resolve reads_constantPropName reads_readUntil : old.

Lemma reads_constantPropNumber m parent k :
  bareParam parent -> reads m 1 (constantPropNumber parent k) constParam.
Proof. intros Hp. unfold constantPropNumber. reads. Qed.
#[local] Hint Resolve reads_constantPropNumber : old.

Lemma reads_advance {A} m c (k : unit -> OM (option A)) P :
  reads m c (k tt) P -> reads m c (bind (advanceOffset 1) k) P.
Proof.
  intros Hk. apply reads_first with (c' := fun _ => 0%nat) (Q := fun _ => True).
  - intros s Hs _. apply wp_modify. exists 0%nat. split_and!; [|done|done].
    split; cbn; [done| |rewrite length_drop; lia]. eexists. symmetry. apply take_drop.
  - intros [] _. by rewrite !Nat.sub_0_r.
Qed.

Lemma reads_constantPropString m parent :
  bareParam parent -> reads m 1 (constantPropString parent) constParam.
Proof.
  intros Hp. unfold constantPropString. apply reads_nextIf; cbn [negb]; [|apply reads_none].
  apply reads_peek. intros ch. destruct (negb _ && negb _); [apply reads_none|]. apply reads_advance.
  apply reads_nextIf; cbn [negb]; [|apply reads_none].
  eapply reads_bind; [old_spec|old_intro].
  apply reads_nextIf; cbn [negb]; [|apply reads_none].
  apply reads_getText; [done|]. intros t. reads.
Qed.
#[local] Hint Resolve reads_constantPropString : old.

Lemma reads_demangleFuncSigSpecializationConstantProp m parent :
  bareParam parent -> reads m 1 (demangleFuncSigSpecializationConstantProp parent) constParam.
Proof. intros Hp. unfold demangleFuncSigSpecializationConstantProp. reads. Qed.
#[local] Hint Resolve reads_demangleFuncSigSpecializationConstantProp : old.

Lemma reads_demangleFuncSigSpecializationClosureProp m parent :
  (m <= n)%nat -> bareParam parent ->
  reads m 1 (demangleFuncSigSpecializationClosureProp demangleTypeImpl parent) (fits (ofKind FSParam)).
Proof.
  intros Hm Hp. unfold demangleFuncSigSpecializationClosureProp.
  eapply reads_bind; [old_spec|old_intro]. apply reads_getText; [done|]. intros t. cbv zeta.
  apply reads_first with (c' := fun _ => 0%nat) (Q := fits (ofKind FSParam)).
  - intros s Hs Hn.
    apply wp_loop with (I := fun p s1 => fits (ofKind FSParam) p /\ after 0 s s1) (f := fun _ s1 => length (Mangled s1)).
    + split; [by auto with old|by apply after_refl].
    + lia.
    + intros p s1 [Hf Ha]. unfold closurePropTypes_step. apply wp_bind, wp_peek. intros ch.
      destruct (Ascii.eqb ch "_"); [by apply wp_ret; exists 0%nat|].
      pose proof (after_length _ _ _ Ha).
      apply wp_bind. eapply wp_mono; [apply reads_demangleType; [apply Ha|lia]|].
      intros [ty|] s2; cbv iota.
      * intros [H2 Hty]. pose proof (after_length _ _ _ H2). apply wp_ret.
        split; [|lia]. split; [solve_more|]. eapply after_weaken; [by eapply after_trans|lia].
      * intros H2. apply wp_ret. exists 0%nat. split_and!; [by apply (after_trans 0 0 s s1)|done|done].
  - intros p Hf.
 reads.
Qed.
#[local] Hint Resolve reads_demangleFuncSigSpecializationClosureProp : old.

Lemma reads_optionFlag {A} m c ch flag v (k : Z -> OM (option A)) P :
  (forall v, reads m c (k v) P) -> reads m c (bind (optionFlag ch flag v) k) P.
Proof.
  intros Hk. apply reads_first with (c' := fun _ => 0%nat) (Q := fun _ => True).
  - intros s Hs _. unfold optionFlag. apply wp_bind, wp_nextIf; [done| |].
    + intros s' Ha. apply wp_ret. exists 1%nat. split_and!; [done|lia|done].
    + apply wp_ret. exists 0%nat. split_and!; [by apply after_refl|done|done].
  - intros v' _. rewrite !Nat.sub_0_r. apply Hk.
Qed.

Lemma reads_demangleOptionSet m param : bareParam param -> reads m 1 (demangleOptionSet param) constParam.
Proof.
  intros Hp. unfold demangleOptionSet. do 3 (apply reads_optionFlag; intros ?). reads.
Qed.
#[local] Hint Resolve reads_demangleOptionSet : old.

(** A parameter and the number of the next. *)
Definition isSpecState (st : Node * Z) : Prop := fits (ofKind K_FunctionSignatureSpecialization) st.1.

Lemma bareParam_new i : bareParam (createNodeIndex FSParam i).
Proof. apply partial_new. apply wrap_u64_index. Qed.
#[local] Hint Resolve bareParam_new : old.

Lemma reads_functionSignatureParam m st :
  (m <= n)%nat -> isSpecState st -> reads m 1 (functionSignatureParam_step demangleTypeImpl st) isSpecState.
Proof.
  intros Hm Hst. destruct st as [spec count]. unfold functionSignatureParam_step.
  eapply reads_bind with (d := 1%nat) (Q := fits (ofKind FSParam)).
  - reads.
  - intros x Hx. apply reads_some; [|lia]. by apply (fits_spec_param _ FSParam).
Qed.

#[local] Hint Resolve reads_functionSignatureParam : old.

Lemma reads_demangleFunctionSignatureSpecialization m spec :
  (m <= n)%nat -> fits (ofKind K_FunctionSignatureSpecialization) spec ->
  reads m 1 (demangleFunctionSignatureSpecialization demangleTypeImpl spec)
    (fits (ofKind K_FunctionSignatureSpecialization)).
Proof.
  intros Hm Hs. unfold demangleFunctionSignatureSpecialization.
  eapply reads_bind; [apply reads_untilNext with (I := isSpecState); [done|]|].
  - intros st Hst. by apply reads_functionSignatureParam.
  - intros [x i] Hx. by apply reads_some.
Qed.

(** The mark and the number of the pass, with which the node is complete. *)
Lemma fits_specializationOf k (q : bool) i :
  isGenericSpecialization k || Kind_eqb k K_FunctionSignatureSpecialization = true ->
  fits (ofKind k)
    (nodeAddChild (if q then nodeAddChild (createNode k) (createNode K_SpecializationIsFragile) else createNode k)
       (createNodeIndex K_SpecializationPassID i)).
Proof. intros Hk. destruct k; try discriminate Hk; destruct q; solve_fits. Qed.

Lemma reads_specializationOf m c k (rest : Node -> OM NodePointer) P :
  isGenericSpecialization k || Kind_eqb k K_FunctionSignatureSpecialization = true ->
  (forall spec, fits (ofKind k) spec -> reads (m - 1) c (rest spec) P) ->
  reads m c (bind (specializationOf k) rest) P.
Proof.
  intros Hk Hr. apply reads_first with (c' := fun _ => 1%nat) (Q := fits (ofKind k)).
  - intros s Hs _. unfold specializationOf. apply wp_bind, wp_nextIf; [done| |].
    + intros s1 H1. apply wp_bind, wp_next; [apply H1|]. intros ch s2 H2. apply wp_ret. exists 2%nat.
      split_and!; [by apply (after_trans 1 1 s s1)|lia|by apply (fits_specializationOf _ true)].
    + apply wp_bind, wp_next; [done|]. intros ch s2 H2. apply wp_ret. exists 1%nat.
      split_and!; [done|lia|by apply (fits_specializationOf _ false)].
  - intros spec Hspec. eapply reads_mono; [by apply Hr|done|lia|done].
Qed.

Definition isSpecialization (k : Kind) : bool :=
  isGenericSpecialization k || Kind_eqb k K_FunctionSignatureSpecialization.

Lemma reads_in m c k (p : Kind -> bool) o :
  p k = true -> reads m c o (fits (ofKind k)) -> reads m c o (fits (kindIn p)).
Proof.
  intros Hk Ho. eapply reads_mono; [exact Ho|done|done|]. intros x Hx.
  eapply fits_mono; [exact Hx|]. intros H%Kind_eqb_eq. unfold kindIn. by rewrite H.
Qed.

Lemma reads_demangleSpecializedAttribute m :
  (m <= n)%nat ->
  reads m 1 (demangleSpecializedAttribute demangleTypeImpl demangleContext) (fits (kindIn isSpecialization)).
Proof.
  intros Hm. unfold demangleSpecializedAttribute.
  apply reads_nextCases; [|apply reads_none].
  repeat apply Forall_cons_2; try apply Forall_nil_2; cbn [fst snd]; lit_lengths;
    apply reads_specializationOf; try done; intros spec Hs.
  - apply (reads_in _ _ K_GenericSpecialization); [done|].
    eapply reads_mono; [by apply (reads_demangleGenericSpecialization m spec K_GenericSpecialization)|lia|lia|done].
  - apply (reads_in _ _ K_GenericSpecializationNotReAbstracted); [done|].
    eapply reads_mono; [by apply (reads_demangleGenericSpecialization m spec K_GenericSpecializationNotReAbstracted)|lia|lia|done].
  - apply (reads_in _ _ K_FunctionSignatureSpecialization); [done|].
    eapply reads_mono; [by apply (reads_demangleFunctionSignatureSpecialization m spec)|lia|lia|done].
Qed.

(** ** Symbols *)

Lemma reads_demangleReabstractSignature m k :
  (m <= n)%nat -> (k = K_ReabstractionThunk \/ k = K_ReabstractionThunkHelper) ->
  reads m 1 (demangleReabstractSignature demangleTypeImpl demangleContext (createNode k)) (fits (ofKind k)).
Proof.
  intros Hm [-> | ->]; unfold demangleReabstractSignature; reads.
Qed.
#[local] Hint Resolve reads_demangleSpecializedAttribute reads_demangleReabstractSignature : old.

Lemma reads_demangleMetadata m :
  (m <= n)%nat -> reads m 1 (demangleMetadata demangleTypeImpl demangleContext) (fits anyNode).
Proof. intros Hm. unfold demangleMetadata. reads. Qed.

Lemma fits_valueWitness w x :
  indexFor K_ValueWitness w -> fits (ofKind K_Type) x ->
  fits anyNode (nodeAddChild (createNodeIndex K_ValueWitness w) x).
Proof.
  intros Hw Hx. split; [|done]. apply old_wf_iff. split; [|by repeat constructor; apply Hx].
  unfold oldShape. rewrite Hw. cbn. kind_facts. unfold ofKind. by rewrite Hp.
Qed.

Lemma reads_demangleValueWitness m :
  (m <= n)%nat -> reads m 1 (demangleValueWitness demangleTypeImpl) (fits anyNode).
Proof.
  intros Hm. unfold demangleValueWitness. eapply reads_bind; [old_spec|]. intros w Hw.
  eapply reads_mono; [eapply reads_child; old_spec|lia|lia|]. intros r (x & Hx & ->). by apply fits_valueWitness.
Qed.

Lemma fits_fieldOffset d x :
  indexFor K_Directness d -> fits (kindIn isOldEntity) x ->
  fits anyNode (nodeAddChild (nodeAddChild (createNode K_FieldOffset) (createNodeIndex K_Directness d)) x).
Proof.
  intros Hd Hx. split; [|done]. apply old_wf_iff. cbn. split.
  - kind_facts. unfold kindIn. by rewrite Hp.
  - repeat apply Forall_cons_2; [|by apply Hx|done]. apply old_wf_iff. split; [|done]. unfold oldShape. by rewrite Hd.
Qed.

Lemma reads_demangleWitness m :
  (m <= n)%nat -> reads m 1 (demangleWitness demangleTypeImpl demangleContext) (fits anyNode).
Proof.
  intros Hm. unfold demangleWitness. reads.
  eapply (reads_mono (m - 1 - 1)%nat); [eapply reads_child, reads_demangleEntity; lia|lia|lia|]. intros r (x & Hx & ->). by apply fits_fieldOffset.
Qed.

Lemma reads_demangleThunk m :
  (m <= n)%nat -> reads m 1 (demangleThunk demangleTypeImpl demangleContext) (fits anyNode).
Proof. intros Hm. unfold demangleThunk. reads. Qed.
#[local] Hint Resolve reads_demangleMetadata reads_demangleValueWitness reads_demangleWitness
  reads_demangleThunk : old.

Lemma reads_demangleGlobalWith fuel m :
  (m <= n)%nat -> (m <= fuel)%nat ->
  reads m 1 (demangleGlobalWith demangleTypeImpl demangleContext fuel) (fits anyNode).
Proof.
  revert m. induction fuel as [|fuel IH]; intros m Hm Hf; [intros s _ Hl; lia|]. cbn [demangleGlobalWith].
  reads.
Qed.

Lemma reads_demangleGlobal m :
  (m <= n)%nat -> reads m 1 (demangleGlobal demangleTypeImpl demangleContext) (fits anyNode).
Proof.
  intros Hm s Hs Hl. unfold demangleGlobal.
  apply (reads_demangleGlobalWith (S (length (Mangled s))) (S (length (Mangled s)))); [lia|lia|done|lia].
Qed.
#[local] Hint Resolve reads_demangleGlobal : old.

(** The root while its children are added: it has whatever has been demangled. *)
Record rooted (x : Node) : Prop := {
  rooted_kind : getKind x = K_Global;
  rooted_payload : payload x = NoPayload;
  rooted_children : Forall (fun c => old_wf c = true) (children x)
}.

Lemma rooted_new : rooted (createNode K_Global).
Proof. by split. Qed.

Lemma rooted_add x c : rooted x -> fits anyNode c -> rooted (nodeAddChild x c).
Proof.
  intros [Hk Hp Hc] [Hw _]. destruct x as [k p cs]. cbn in *. split; [done|done|].
  cbn. apply Forall_app_2; [done|]. by constructor.
Qed.

Lemma many_any cs : matches [Many anyNode] cs = true.
Proof. by induction cs. Qed.

Lemma rooted_fits x c : rooted x -> fits anyNode c -> fits (ofKind K_Global) (nodeAddChild x c).
Proof.
  intros Hx Hc. destruct (rooted_add _ _ Hx Hc) as [Hk Hp Hcs]. destruct x as [k p cs]. cbn in *. subst k p.
  split; [|done]. apply old_wf_iff. split; [|done]. cbn. destruct cs; cbn; [done|apply many_any].
Qed.

Lemma fits_any p x : fits p x -> fits anyNode x.
Proof. intros Hx. by eapply fits_mono. Qed.
#[local] Hint Resolve rooted_new rooted_add : old.
#[local] Hint Extern 1 (fits anyNode _) => solve [solve_fits|eapply fits_any; eassumption] : old.

Lemma reads_specializations m x :
  (m <= n)%nat -> rooted x ->
  reads m 1 (while_ (specializations_step demangleTypeImpl demangleContext) x) rooted.
Proof.
  intros Hm Hx. apply reads_while with (I := rooted); [done|].
  intros top s Htop Hs Hn. unfold specializations_step. apply wp_bind.
  eapply wp_mono; [by apply (reads_demangleSpecializedAttribute m)|].
  intros [spec|] s1; [|by intros H1; apply wp_ret].
  intros [H1 Hspec]. apply wp_bind, wp_modify, wp_bind.
  assert (after 1 s (mkOldDemangler (Mangled s1) [])) as H2.
  { split; cbn; [constructor|apply H1|apply H1]. }
  assert (rooted (nodeAddChild top spec)) as Hr by eauto with old.
  apply wp_nextIfStr; [apply H2| |].
  - intros s3 H3. apply wp_ret. split; [|done]. eapply after_weaken; [by eapply after_trans|lia].
  - by apply wp_ret.
Qed.
#[local] Hint Resolve reads_specializations : old.

Lemma reads_demangleTopLevel m :
  (m <= n)%nat ->
  reads m 1 (demangleTopLevel demangleTypeImpl demangleContext) (fits (ofKind K_Global)).
Proof.
  intros Hm. unfold demangleTopLevel. apply reads_nextIfStr; lit_lengths; cbn [negb]; [|apply reads_none].
  eapply reads_bind with (d := 0%nat) (Q := rooted).
  - reads.
  - intros top Htop. eapply reads_bind; [eapply reads_child, reads_demangleGlobal; lia|].
    intros r (x & Hx & ->). pose proof (rooted_fits _ _ Htop Hx) as Hr.
    apply reads_isEmpty; [by apply reads_some|].
    apply reads_first with (c' := fun _ => 0%nat) (Q := fun _ => True).
    + intros s Hs _. unfold getString. apply wp_bind, wp_gets, wp_bind, wp_modify, wp_ret. exists 0%nat.
      split_and!; [|done|done]. split; cbn; [done| |rewrite length_drop; lia]. eexists. symmetry. apply take_drop.
    + intros t _. apply reads_some; [|done]. solve_more.
Qed.
End recursive.

(** ** The recursion *)

Lemma reads_recursion fuel :
  reads fuel 1 (demangleTypeImplWith fuel) (fits (kindIn isOldType)) /\
  reads fuel 1 (demangleContextWith fuel) (fits (kindIn isOldContext)).
Proof.
  induction fuel as [|fuel [IHt IHc]]; [by split; intros s _ Hl; lia|].
  split; [by apply reads_demangleTypeImplBody|by apply reads_demangleContextBody].
Qed.

(** The whole function. *)
Lemma demangleOldSymbolAsNode_spec t :
  match demangleOldSymbolAsNode t with
  | Ok r => match r with Some root => fits (ofKind K_Global) root | None => True end
  | Crash e => old_crash e
  end.
Proof.
  unfold demangleOldSymbolAsNode. set (fuel := S (length t)).
  destruct (reads_recursion fuel) as [Ht Hc].
  pose proof (reads_demangleTopLevel fuel _ _ Ht Hc fuel (le_n _) (mkOldDemangler t [])) as H.
  unfold wp in H. unfold result.
  destruct (demangleTopLevel _ _ _) as [[[root|] s]|e]; cbn; [|done|].
  - apply H; [constructor|cbn; lia].
  - apply H; [constructor|cbn; lia].
Qed.
