(* ===== verification/OldDemanglerTheorems.v ===== *)
(** * The old demangler: theorems *)

From Stdlib Require Import String.
From S2P Require Import Prelude Nodes ManglingUtils Punycode Demangler NodePrinter NodeShape OldDemangler OldNodeShape OldDemanglerSpecs OldDemanglerSafety.

(** C5. Every tree of the old demangler is well typed: on every string the function
    ends with null, or with a [Global] node in which every node has the payload
    and the children that its kind asks for, unless it runs into one of the four
    crashes of [old_crash]. The fuel, the length of the string, is enough. *)
Theorem demangleOldSymbolAsNode_typed MangledName :
  match demangleOldSymbolAsNode MangledName with
  | Ok (Some root) => old_wf root = true /\ getKind root = K_Global
  | Ok None => True
  | Crash c => old_crash c
  end.
Proof.
  pose proof (demangleOldSymbolAsNode_spec MangledName) as H.
  destruct (demangleOldSymbolAsNode MangledName) as [[root|]|c]; [|done..].
  destruct H as [Hw Hk%Kind_eqb_eq]. done.
Qed.

(** C17. The recursion keeps the invariant of the old demangler: from any position
    and any substitutions that fit the grammar, a type is read with at least one
    character, leaves a suffix of the text and only substitutions that fit, and
    with as much fuel as there is text it does not run out. *)
Theorem demangleTypeImpl_invariant fuel s :
  oinv s -> (length (Mangled s) < fuel)%nat ->
  wp old_crash (demangleTypeImplWith fuel)
    (fun r s' => oinv s' /\ Mangled s' `suffix_of` Mangled s
       /\ forall type, r = Some type ->
            fits (kindIn isOldType) type /\ (length (Mangled s') < length (Mangled s))%nat) s.
Proof.
  intros Hs Hf. eapply wp_mono; [by apply (proj1 (reads_recursion fuel))|].
  intros [type|] s' H; cbn.
  - destruct H as [[H1 H2 H3] Ht]. split_and!; [done|done|]. intros ? [= <-]. split; [done|lia].
  - destruct H as [H1 H2 H3]. by split_and!.
Qed.

Lemma demangleTypeImpl_invariant_witness :
  wp old_crash (demangleTypeImplWith 10)
    (fun r s' => oinv s' /\ Mangled s' `suffix_of` lit "GSaSi_x"
       /\ forall type, r = Some type ->
            fits (kindIn isOldType) type /\ (length (Mangled s') < 7)%nat)
    (mkOldDemangler (lit "GSaSi_x") []).
Proof.
  apply (demangleTypeImpl_invariant 10 (mkOldDemangler (lit "GSaSi_x") [])); [constructor|vm_compute; lia].
Defined.

(** C36. The crashes that a name can cause are exactly those of [old_crash], each
    of which a short name reaches: a character is read behind the end of the
    text; the arguments of a generic type belong to a parent that takes none, or
    to one without a name; and the Punycode decoder divides by zero. *)
Theorem demangleOldSymbolAsNode_crashes c :
  old_crash c <-> exists MangledName, demangleOldSymbolAsNode MangledName = Crash c.
Proof.
  split.
  - intros [].
    + exists (lit "_TTSg"). by vm_compute.
    + exists (lit "_TtGVIsi1bSi__"). by vm_compute.
    + exists (lit "_TtGVISii1bSi__"). by vm_compute.
    + exists (lit "_TtCsX9lFIJBHBGa"). by vm_compute.
  - intros [name H]. pose proof (demangleOldSymbolAsNode_spec name) as Hs. by rewrite H in Hs.
Qed.
