(* ===== verification/DemanglingContext.v ===== *)
(** * The demangling context

    Class [Context] of Context.cpp, which ties the demanglers and the printer
    together. Its state is the [Demangler] it owns, which is used again for every
    name. Printing calls [demangleSymbolAsString] for the names inside
    specializations, on contexts of their own: that recursion has fuel. *)

From Stdlib Require Import String.
From S2P Require Import Prelude Nodes ManglingUtils Demangler NodePrinter OldDemangler.

(** The state here is the one of the new demangler. *)
Abbreviation CM := (M Demangler.Demangler).

(** A call of a function that has a state of its own. *)
Definition call {S A} (r : outcome A) : M S A := fun s =>
  match r with Ok a => Ok (a, s) | Crash c => Crash c end.

Definition isMangledName {S} (mangledName : str) : M S bool :=
  n <- getManglingPrefixLength mangledName ;; ret (negb (n =? 0)%nat).

(** [StringRef::endswith] *)
Definition endswith (s suffix : str) : bool := startswith (reverse s) (reverse suffix).

(** [Demangler::clear()]: the stack and the substitutions are freed. *)
Definition clear : CM unit :=
  modify (fun s => Demangler.mkDemangler (Text s) (Pos s) (IsOldFunctionTypeMangling s) [] [] (Words s)).

Definition demangleSymbolAsNode (MangledName : str) : CM NodePointer :=
  b <- isMangledName MangledName ;;
  if (b : bool) then demangleSymbol MangledName
  else call (demangleOldSymbolAsNode MangledName).

Definition demangleTypeAsNode (MangledName : str) : CM NodePointer := Demangler.demangleType MangledName.

Definition isThunkKind (kind : Kind) : bool :=
  match kind with
  | K_ObjCAttribute | K_NonObjCAttribute | K_PartialApplyObjCForwarder | K_PartialApplyForwarder
  | K_ReabstractionThunkHelper | K_ReabstractionThunk | K_ProtocolWitness => true
  | _ => false
  end.

(** The root is a [Global] with children. *)
Definition isGlobal (root : Node) : bool :=
  Kind_eqb (getKind root) K_Global && negb (getNumChildren root =? 0)%nat.

(** The last two characters of a thunk. *)
Definition thunkSuffixes : list str :=
  [lit "TA"; lit "Ta"; lit "To"; lit "TO"; lit "TR"; lit "Tr"; lit "TW"].

Definition isThunkSymbol (MangledName : str) : CM bool :=
  b <- isMangledName MangledName ;;
  if (b : bool) then
    if existsb (endswith MangledName) thunkSuffixes then
      Nd <- demangleSymbol MangledName ;;
      match Nd with
      | None => ret false
      | Some Nd =>
          if negb (isGlobal Nd) then ret false
          else first <- getFirstChild Nd ;; ret (isThunkKind (getKind first))
      end
    else ret false
  else if startswith MangledName (lit "_T") then
    let Remaining := drop 2 MangledName in
    ret (startswith Remaining (lit "To") || startswith Remaining (lit "TO")
         || startswith Remaining (lit "PA_") || startswith Remaining (lit "PAo_"))
  else ret false.

Definition getThunkTarget (MangledName : str) : CM str :=
  thunk <- isThunkSymbol MangledName ;;
  if negb thunk then ret []
  else
    b <- isMangledName MangledName ;;
    if (b : bool) then
      if existsb (endswith MangledName) [lit "TR"; lit "Tr"; lit "TW"] then ret []
      else ret (take (length MangledName - 2) MangledName)
    else
      _ <- assert "getThunkTarget: _T" (startswith MangledName (lit "_T")) ;;
      let Remaining := drop 2 MangledName in
      if startswith Remaining (lit "PA_") then ret (drop 3 Remaining)
      else if startswith Remaining (lit "PAo_") then ret (drop 4 Remaining)
      else
        _ <- assert "getThunkTarget: To" (startswith Remaining (lit "To") || startswith Remaining (lit "TO")) ;;
        ret (lit "_T" ++ drop 2 Remaining).

Definition hasSwiftCallingConvention (MangledName : str) : CM bool :=
  Global <- demangleSymbolAsNode MangledName ;;
  match Global with
  | None => ret false
  | Some Global =>
      if negb (isGlobal Global) then ret false
      else
        TopLevel <- getFirstChild Global ;;
        ret (match getKind TopLevel with
             | K_TypeMetadataAccessFunction | K_ValueWitness | K_ProtocolWitnessTableAccessor
             | K_GenericProtocolWitnessTableInstantiationFunction | K_LazyProtocolWitnessTableAccessor
             | K_AssociatedTypeMetadataAccessor | K_AssociatedTypeWitnessTableAccessor | K_ObjCAttribute => false
             | _ => true
             end)
  end.

(** ** Names as strings *)

(** A null tree and a tree that prints to nothing stand for the name itself. *)
Definition nodeAsString (MangledName : str) (Options : DemangleOptions) (dem : str -> outcome str)
    (root : NodePointer) : CM str :=
  match root with
  | None => ret MangledName
  | Some _ =>
      demangling <- call (nodeToString Options dem root) ;;
      ret (if (length demangling =? 0)%nat then MangledName else demangling)
  end.

(** [Context::demangleSymbolAsString] and [Context::demangleTypeAsString], with
    the function that the printer calls. *)
Definition demangleSymbolAsStringIn (dem : str -> outcome str) (MangledName : str) (Options : DemangleOptions)
    : CM str :=
  root <- demangleSymbolAsNode MangledName ;; nodeAsString MangledName Options dem root.

Definition demangleTypeAsStringIn (dem : str -> outcome str) (MangledName : str) (Options : DemangleOptions)
    : CM str :=
  root <- demangleTypeAsNode MangledName ;; nodeAsString MangledName Options dem root.

(** The free function [demangleSymbolAsString], whose context is new, as the
    printer calls it: with the default options. *)
Fixpoint demangleNameWith (fuel : nat) (MangledName : str) : outcome str :=
  match fuel with
  | O => Crash OutOfFuel
  | S fuel =>
      result (demangleSymbolAsStringIn (demangleNameWith fuel) MangledName defaultDemangleOptions newDemangler)
  end.

(** The free functions [demangleSymbolAsString] and [demangleTypeAsString]; [depth]
    bounds how deeply names inside names are demangled. *)
Definition demangleSymbolAsString (depth : nat) (MangledName : str) (Options : DemangleOptions) : outcome str :=
  result (demangleSymbolAsStringIn (demangleNameWith depth) MangledName Options newDemangler).

Definition demangleTypeAsString (depth : nat) (MangledName : str) (Options : DemangleOptions) : outcome str :=
  result (demangleTypeAsStringIn (demangleNameWith depth) MangledName Options newDemangler).
