(* ===== verification/RecursionBound.v ===== *)
(** * The bound on demangling inside names

    The printer demangles the names that specializations mention, so that
    demangling a symbol is recursive without a measure: [demangleNameWith] has
    fuel. A computation [approx] another one runs out of fuel or does the same;
    everything in the printer is monotone in the function that it calls. *)

From Stdlib Require Import String.
From S2P Require Import Prelude Nodes ManglingUtils Demangler NodePrinter OldDemangler DemanglingContext.

Definition le_outcome {A} (r r' : outcome A) : Prop := r = Crash OutOfFuel \/ r = r'.

Definition approx {S A} (m m' : M S A) : Prop := forall s, le_outcome (m s) (m' s).

Lemma approx_refl {S A} (m : M S A) : approx m m.
Proof. by right. Qed.

Lemma approx_bind {S A B} (m m' : M S A) (k k' : A -> M S B) :
  approx m m' -> (forall a, approx (k a) (k' a)) -> approx (bind m k) (bind m' k').
Proof.
  intros Hm Hk s. unfold bind. destruct (Hm s) as [-> | ->]; [by left|].
  destruct (m' s) as [[a s']|c]; [apply Hk|by right].
Qed.

Lemma approx_when {S} b (m m' : M S unit) : approx m m' -> approx (when b m) (when b m').
Proof. intros Hm. destruct b; [done|apply approx_refl]. Qed.

Create HintDb approx discriminated.
#[export] Hint Constants Opaque : approx.

Ltac approx :=
  repeat first
    [ apply approx_refl
    | solve [eauto with approx nocore]
    | apply approx_when
    | apply approx_bind; [|intros ?]
    | match goal with
      | |- approx (match ?x with _ => _ end) _ => destruct x
      end ].

Section printer.
Context (Options : DemangleOptions) (dem dem' : str -> outcome str).
Hypothesis dem_le : forall text, le_outcome (dem text) (dem' text).
Context (print print' : Node -> bool -> PM NodePointer).
Hypothesis print_approx : forall n b, approx (print n b) (print' n b).
#[local] Hint Resolve print_approx : approx.

Lemma printNode_approx n : approx (printNode print n) (printNode print' n).
Proof. unfold printNode. approx. Qed.
#[local] Hint Resolve printNode_approx : approx.

Lemma printChild_approx n i : approx (printChild print n i) (printChild print' n i).
Proof. unfold printChild. approx. Qed.
#[local] Hint Resolve printChild_approx : approx.

Lemma printDemangledName_approx text : approx (printDemangledName dem text) (printDemangledName dem' text).
Proof.
  intros s. unfold printDemangledName. destruct (dem_le text) as [-> | ->]; [by left|by right].
Qed.
#[local] Hint Resolve printDemangledName_approx : approx.

Lemma printNodes_approx nodes sep : approx (printNodes print nodes sep) (printNodes print' nodes sep).
Proof. induction nodes; cbn [printNodes]; approx. Qed.
#[local] Hint Resolve printNodes_approx : approx.

Lemma printChildren_approx n sep : approx (printChildren print n sep) (printChildren print' n sep).
Proof. apply printNodes_approx. Qed.
#[local] Hint Resolve printChildren_approx : approx.

Lemma printTypeInParens_approx n : approx (printTypeInParens print n) (printTypeInParens print' n).
Proof. unfold printTypeInParens. approx. Qed.
#[local] Hint Resolve printTypeInParens_approx : approx.

Lemma printBoundGenericNoSugar_approx n :
  approx (printBoundGenericNoSugar print n) (printBoundGenericNoSugar print' n).
Proof. unfold printBoundGenericNoSugar. approx. Qed.
#[local] Hint Resolve printBoundGenericNoSugar_approx : approx.

Lemma printBoundGeneric_approx n : approx (printBoundGeneric Options print n) (printBoundGeneric Options print' n).
Proof. unfold printBoundGeneric. approx. Qed.

Lemma printParameters_approx l t i ps : approx (printParameters print l t i ps) (printParameters print' l t i ps).
Proof.
  revert i. induction ps as [|p ps IH]; intros i; cbn [printParameters]; unfold printParameter; approx.
Qed.
#[local] Hint Resolve printParameters_approx : approx.

Lemma printFunctionParameters_approx l n t :
  approx (printFunctionParameters print l n t) (printFunctionParameters print' l n t).
Proof. unfold printFunctionParameters. approx. Qed.
#[local] Hint Resolve printFunctionParameters_approx : approx.

Lemma printFunctionType_approx l n : approx (printFunctionType Options print l n) (printFunctionType Options print' l n).
Proof. unfold printFunctionType. approx. Qed.
#[local] Hint Resolve printFunctionType_approx printBoundGeneric_approx : approx.

Lemma printImplChildren_approx nodes st : approx (printImplChildren print nodes st) (printImplChildren print' nodes st).
Proof. revert st. induction nodes as [|n nodes IH]; intros st; cbn [printImplChildren]; approx. Qed.
#[local] Hint Resolve printImplChildren_approx : approx.

Lemma printImplFunctionType_approx n : approx (printImplFunctionType print n) (printImplFunctionType print' n).
Proof. unfold printImplFunctionType. approx. Qed.
#[local] Hint Resolve printImplFunctionType_approx : approx.

Lemma printClosureTypes_approx nodes i : approx (printClosureTypes print nodes i) (printClosureTypes print' nodes i).
Proof. revert i. induction nodes as [|n nodes IH]; intros i; cbn [printClosureTypes]; approx. Qed.
#[local] Hint Resolve printClosureTypes_approx : approx.

Lemma printFunctionSigSpecializationParam_approx n i :
  approx (printFunctionSigSpecializationParam dem print n i) (printFunctionSigSpecializationParam dem' print' n i).
Proof. unfold printFunctionSigSpecializationParam. approx. Qed.
#[local] Hint Resolve printFunctionSigSpecializationParam_approx : approx.

Lemma printSpecializationParams_approx fuel n i :
  approx (printSpecializationParams dem print fuel n i) (printSpecializationParams dem' print' fuel n i).
Proof. revert i. induction fuel as [|fuel IH]; intros i; cbn [printSpecializationParams]; approx. Qed.
#[local] Hint Resolve printSpecializationParams_approx : approx.

Lemma printSpecializationChildren_approx nodes p sep :
  approx (printSpecializationChildren print nodes p sep) (printSpecializationChildren print' nodes p sep).
Proof. revert sep. induction nodes as [|n nodes IH]; intros sep; cbn [printSpecializationChildren]; approx. Qed.
#[local] Hint Resolve printSpecializationChildren_approx : approx.

Lemma printConformances_approx cs t : approx (printConformances print cs t) (printConformances print' cs t).
Proof. revert t. induction cs as [|c cs IH]; intros t; cbn [printConformances]; approx. Qed.
#[local] Hint Resolve printConformances_approx : approx.

Lemma printFields_approx fs b : approx (printFields print fs b) (printFields print' fs b).
Proof. revert b. induction fs as [|f fs IH]; intros b; cbn [printFields]; approx. Qed.
#[local] Hint Resolve printFields_approx : approx.

Lemma printEntityType_approx e t : approx (printEntityType Options print e t) (printEntityType Options print' e t).
Proof. unfold printEntityType. approx. Qed.
#[local] Hint Resolve printEntityType_approx : approx.

Lemma printEntity_approx e p t h x i o :
  approx (printEntity Options print e p t h x i o) (printEntity Options print' e p t h x i o).
Proof.
  unfold printEntity, printEntityContext, printEntityNames, printEntityName, printEntityTypeAs. approx.
Qed.
#[local] Hint Resolve printEntity_approx : approx.

Lemma printKind_approx n b : approx (printKind Options dem print n b) (printKind Options dem' print' n b).
Proof.
  unfold printKind. destruct (getKind n); try apply approx_refl.
  all: unfold printed, printPrefixed, printTwo, printAccessor, printAbstractStorage, printClosure, printDefaultArgument,
    printExtension, printTypeMangling, printLocalDeclName, printPrivateDeclName, printTupleElement, printReturnType,
    printGenericSpecializationParam, printSpecializationParam, printPartialApply, printKeyPathAccessor,
    printKeyPathIndex, printReabstractionThunk, printValueWitness, printMetatype, printExistentialMetatype,
    printMetatypeRepresentation, printProtocolList, printProtocolListWithClass, printProtocolListWithAnyObject,
    printQualifiedArchetype, printProtocolConformance, printDependentGenericType, printSILBoxTypeWithLayout,
    printSILBoxField, printSpecializationPrefix, printGenericSignature, printLayoutRequirement; approx.
Qed.
End printer.

(** ** Printing and demangling *)

Lemma printWithFuel_approx Options dem dem' fuel n b :
  (forall text, le_outcome (dem text) (dem' text)) ->
  approx (printWithFuel Options dem fuel n b) (printWithFuel Options dem' fuel n b).
Proof.
  intros Hd. revert n b. induction fuel as [|fuel IH]; intros n b; [apply approx_refl|].
  by apply printKind_approx.
Qed.

Lemma nodeToString_le Options dem dem' root :
  (forall text, le_outcome (dem text) (dem' text)) ->
  le_outcome (nodeToString Options dem root) (nodeToString Options dem' root).
Proof.
  intros Hd. destruct root as [root|]; [|by right]. unfold nodeToString, printRoot.
  destruct (printWithFuel_approx Options dem dem' (node_height root) root false Hd newNodePrinter) as [-> | ->];
    [by left|by right].
Qed.

Lemma demangleSymbolAsStringIn_approx dem dem' MangledName Options :
  (forall text, le_outcome (dem text) (dem' text)) ->
  approx (demangleSymbolAsStringIn dem MangledName Options) (demangleSymbolAsStringIn dem' MangledName Options).
Proof.
  intros Hd. apply approx_bind; [apply approx_refl|]. intros root. unfold nodeAsString.
  destruct root as [root|]; [|apply approx_refl]. apply approx_bind; [|intros; apply approx_refl].
  intros s. unfold call. destruct (nodeToString_le Options dem dem' (Some root) Hd) as [-> | ->]; [by left|by right].
Qed.

Lemma result_le {S A} (m m' : M S A) s : approx m m' -> le_outcome (result (m s)) (result (m' s)).
Proof. intros H. destruct (H s) as [-> | ->]; [by left|by right]. Qed.

Lemma demangleNameWith_le fuel fuel' :
  (fuel <= fuel')%nat -> forall text, le_outcome (demangleNameWith fuel text) (demangleNameWith fuel' text).
Proof.
  revert fuel'. induction fuel as [|fuel IH]; intros fuel' Hf text; [by left|].
  destruct fuel' as [|fuel']; [lia|]. apply result_le, demangleSymbolAsStringIn_approx, IH. lia.
Qed.
