(* ===== verification/ContextTheorems.v ===== *)
(** * The demangling context: theorems

    What the two demanglers and the printer give together: the names as strings,
    and thunks and their targets. *)

From Stdlib Require Import String.
From S2P Require Import Prelude Nodes ManglingUtils Demangler NodeShape DemanglerSpecs DemanglerSafety DemanglerTheorems.
From S2P Require Import NodePrinter PrinterSpecs PrinterSafety PrinterTheorems OldDemangler OldNodeShape OldDemanglerSpecs OldDemanglerSafety DemanglingContext RecursionBound.

(** ** The context's state *)

(** Two computations that give the same, whatever they do to the state. *)
Definition sameResult {S A} (m : M S A) (s s' : S) : Prop := result (m s) = result (m s').

Lemma sameResult_bind {S A B} (m : M S A) (k : A -> M S B) s s' :
  sameResult m s s' -> (forall a t t', sameResult (k a) t t') -> sameResult (bind m k) s s'.
Proof.
  unfold sameResult, bind. intros Hm Hk. destruct (m s) as [[a t]|c], (m s') as [[a' t']|c']; cbn in Hm; try done.
  - injection Hm as <-. apply Hk.
  - by injection Hm as <-.
Qed.

Lemma sameResult_stateless {S A} (m : M S A) s s' : Stateless m -> sameResult m s s'.
Proof. intros H. unfold sameResult. rewrite (H s s'). by destruct (m s') as [[a t]|c]. Qed.

#[local] Instance stateless_isMangledName MangledName : Stateless (S := Demangler) (isMangledName MangledName).
Proof. unfold isMangledName. apply _. Qed.

#[local] Instance stateless_call {S A} (r : outcome A) : Stateless (S := S) (call r).
Proof. intros s s'. by destruct r. Qed.

Lemma stateless_nodeAsString MangledName Options dem root :
  Stateless (nodeAsString MangledName Options dem root).
Proof. unfold nodeAsString. destruct root; apply _. Qed.

Lemma demangleSymbolAsNode_any_state MangledName s s' : sameResult (demangleSymbolAsNode MangledName) s s'.
Proof.
  apply sameResult_bind; [apply sameResult_stateless, _|]. intros [] t t'.
  - apply demangleSymbol_any_state.
  - apply sameResult_stateless, _.
Qed.

(** ** Running out of depth *)

Lemma demangleSymbolAsString_le depth depth' MangledName Options :
  (depth <= depth')%nat ->
  le_outcome (demangleSymbolAsString depth MangledName Options) (demangleSymbolAsString depth' MangledName Options).
Proof. intros Hd. by apply result_le, demangleSymbolAsStringIn_approx, demangleNameWith_le. Qed.

(** ** Prefixes and suffixes *)

Lemma startswith_iff t p : startswith t p = true <-> exists r, t = p ++ r.
Proof.
  unfold startswith. destruct (str_eqb_spec (take (length p) t) p) as [H|H]; split; try done.
  - intros _. exists (drop (length p) t). rewrite <-H at 1. by rewrite take_drop.
  - intros [r ->]. by rewrite take_app_length in H.
Qed.

Lemma startswith_app p t q : startswith (p ++ t) (p ++ q) = startswith t q.
Proof.
  apply eq_true_iff_eq. rewrite !startswith_iff. split; intros [r H]; exists r.
  - rewrite <-app_assoc in H. by apply app_inv_head in H.
  - by rewrite H, app_assoc.
Qed.

Lemma startswith_app_false t p q : startswith t p = false -> startswith t (p ++ q) = false.
Proof.
  intros H. destruct (startswith t (p ++ q)) eqn:E; [|done]. apply startswith_iff in E as [r ->].
  rewrite <-H. symmetry. apply startswith_iff. exists (q ++ r). by rewrite app_assoc.
Qed.

Lemma endswith_iff t p : endswith t p = true <-> exists r, t = r ++ p.
Proof.
  unfold endswith. rewrite startswith_iff. split; intros [r H].
  - exists (reverse r). apply (f_equal reverse) in H. by rewrite reverse_involutive, reverse_app, reverse_involutive in H.
  - exists (reverse r). by rewrite H, reverse_app.
Qed.

#[local] Instance Ok_inj {A} : Inj (=) (=) (@Ok A).
Proof. by intros a b [= ->]. Qed.

(** ** Thunks *)

(** The answer of [isThunkSymbol], which is the same in every state. *)
Definition thunkSymbol (MangledName : str) : outcome bool := result (isThunkSymbol MangledName newDemangler).

Lemma isThunkSymbol_any_state MangledName s s' : sameResult (isThunkSymbol MangledName) s s'.
Proof.
  apply sameResult_bind; [apply sameResult_stateless, _|]. intros [] t t'.
  - destruct (existsb _ _); [|done]. apply sameResult_bind; [apply demangleSymbol_any_state|].
    intros [Nd|] u u'; [|done]. destruct (negb (isGlobal Nd)); [done|]. 
    unfold sameResult, bind, getFirstChild. by destruct (children Nd).
  - by destruct (startswith _ _).
Qed.

(** Which name is the thunk of which. *)
Inductive thunkOf : str -> str -> Prop :=
  | thunk_mangled target suffix :
      result (isMangledName (target ++ suffix) newDemangler) = Ok true ->
      thunkSymbol (target ++ suffix) = Ok true ->
      In suffix [lit "TA"; lit "Ta"; lit "To"; lit "TO"] ->
      thunkOf (target ++ suffix) target
  | thunk_forwarder target : thunkOf (lit "_TPA_" ++ target) target
  | thunk_objc_forwarder target : thunkOf (lit "_TPAo_" ++ target) target
  | thunk_attribute c rest : c = "o"%char \/ c = "O"%char -> thunkOf (lit "_TT" ++ c :: rest) (lit "_T" ++ rest).

(** The two last characters of a thunk. *)
Lemma existsb_endswith t suffixes :
  existsb (endswith t) suffixes = true <-> exists r suffix, In suffix suffixes /\ t = r ++ suffix.
Proof.
  rewrite existsb_exists. split.
  - intros (x & Hx & [r Hr]%endswith_iff). by exists r, x.
  - intros (r & x & Hx & Hr). exists x. split; [done|]. apply endswith_iff. by exists r.
Qed.

(** What [getThunkTarget] is when the prefix and the thunk are known. *)
Definition thunkTarget (mangled thunk : bool) (MangledName : str) : CM str :=
  if negb thunk then ret []
  else if mangled then
    if existsb (endswith MangledName) [lit "TR"; lit "Tr"; lit "TW"] then ret []
    else ret (take (length MangledName - 2) MangledName)
  else
    _ <- assert "getThunkTarget: _T" (startswith MangledName (lit "_T")) ;;
    let Remaining := drop 2 MangledName in
    if startswith Remaining (lit "PA_") then ret (drop 3 Remaining)
    else if startswith Remaining (lit "PAo_") then ret (drop 4 Remaining)
    else
      _ <- assert "getThunkTarget: To" (startswith Remaining (lit "To") || startswith Remaining (lit "TO")) ;;
      ret (lit "_T" ++ drop 2 Remaining).

Lemma getThunkTarget_cases MangledName s :
  result (getThunkTarget MangledName s) =
  match thunkSymbol MangledName with
  | Ok thunk =>
      match result (isMangledName MangledName newDemangler) with
      | Ok mangled => result (thunkTarget mangled thunk MangledName newDemangler)
      | Crash c => if thunk then Crash c else Ok []
      end
  | Crash c => Crash c
  end.
Proof.
  unfold thunkSymbol. rewrite (isThunkSymbol_any_state MangledName newDemangler s).
  unfold getThunkTarget, bind at 1. destruct (isThunkSymbol MangledName s) as [[thunk t]|c]; [|done].
  pose proof (sameResult_stateless (isMangledName MangledName) t newDemangler _) as H. unfold sameResult in H.
  destruct thunk; cbn [negb]; [|by destruct (result (isMangledName MangledName newDemangler)) as [[]|]]. unfold bind at 1.
  destruct (isMangledName MangledName t) as [[mangled u]|c]; cbn [result] in *; rewrite <-H; [|done].
  unfold thunkTarget, bind, assert. cbn [negb].
  repeat match goal with |- context [if ?b then _ else _] => destruct b end; done.
Qed.

(** A thunk of the new mangling ends as one. *)
Lemma thunkSymbol_mangled MangledName :
  result (isMangledName MangledName newDemangler) = Ok true -> thunkSymbol MangledName = Ok true ->
  existsb (endswith MangledName) thunkSuffixes = true.
Proof.
  unfold thunkSymbol, isThunkSymbol. intros Hm Ht. unfold bind at 1 in Ht.
  destruct (isMangledName MangledName newDemangler) as [[b t]|c]; [|done]. injection Hm as ->.
  by destruct (existsb _ thunkSuffixes).
Qed.

(** A thunk of the old mangling begins as one. *)
Lemma thunkSymbol_old MangledName :
  result (isMangledName MangledName newDemangler) = Ok false ->
  thunkSymbol MangledName =
    Ok (existsb (fun p => startswith MangledName (lit "_T" ++ lit p)) ["To"; "TO"; "PA_"; "PAo_"]%string).
Proof.
  unfold thunkSymbol, isThunkSymbol. intros Hm. unfold bind at 1.
  destruct (isMangledName MangledName newDemangler) as [[b t]|c]; [|done]. injection Hm as ->.
  destruct (startswith MangledName (lit "_T")) eqn:HT.
  - apply startswith_iff in HT as [r ->]. cbn -[startswith lit].
    rewrite !startswith_app. change (drop 2 (lit "_T" ++ r)) with r. by rewrite orb_false_r, !orb_assoc.
  - cbn -[startswith lit]. by rewrite !(startswith_app_false _ _ _ HT).
Qed.

Lemma app_two_inj (r r' x x' : str) : length x = 2%nat -> length x' = 2%nat -> r ++ x = r' ++ x' -> r = r' /\ x = x'.
Proof. intros Hx Hx' H. apply app_inj_2 in H; [done|by rewrite Hx, Hx']. Qed.

Lemma suffix_length x : In x thunkSuffixes -> length x = 2%nat.
Proof. cbn. intuition (subst; done). Qed.

(** The thunks with a target, and those without. *)
Lemma thunkSuffixes_target r x :
  In x thunkSuffixes ->
  existsb (endswith (r ++ x)) [lit "TR"; lit "Tr"; lit "TW"] = false <-> In x [lit "TA"; lit "Ta"; lit "To"; lit "TO"].
Proof.
  intros Hx. rewrite <-not_true_iff_false, existsb_endswith. split.
  - intros H. cbn in Hx. repeat (destruct Hx as [<-|Hx]; [first [cbn; tauto|exfalso; apply H; eexists _, _; split; [|done]; cbn; tauto]|]).
    done.
  - intros H4 (r' & x' & H' & E). apply app_two_inj in E as [_ <-]; [|by apply suffix_length|].
    + cbn in H4, H'. repeat (destruct H4 as [<-|H4]; [by intuition|]). done.
    + apply suffix_length. cbn in *. tauto.
Qed.

Lemma take_app_minus (r x : str) : length x = 2%nat -> take (length (r ++ x) - 2) (r ++ x) = r.
Proof. intros Hx. rewrite length_app, Hx, Nat.add_sub. apply take_app_length. Qed.

Lemma thunkTarget_mangled name thunk target :
  target <> [] -> result (isMangledName name newDemangler) = Ok true -> thunkSymbol name = Ok thunk ->
  result (thunkTarget true thunk name newDemangler) = Ok target <-> thunkOf name target.
Proof.
  intros Hne Hm Ht. split.
  - destruct thunk; [|by intros [= <-]].
    pose proof (thunkSymbol_mangled _ Hm Ht) as (r & x & Hx & ->)%existsb_endswith.
    unfold thunkTarget. cbn [negb]. destruct (existsb _ _) eqn:He; [by intros [= <-]|]. 
    intros [= <-]. rewrite take_app_minus by by apply suffix_length.
    apply thunk_mangled; [done|done|]. exact (proj1 (thunkSuffixes_target r x Hx) He).
  - intros Hto. revert Hm Ht. destruct Hto as [t x _ Ht' Hx|t|t|c rest [-> | ->]]; intros Hm Ht; [|by vm_compute in Hm..].
    rewrite Ht in Ht'. injection Ht' as ->. assert (In x thunkSuffixes) as Hs by (cbn in *; tauto).
    unfold thunkTarget. cbn [negb]. rewrite (proj2 (thunkSuffixes_target t x Hs) Hx), take_app_minus; [done|].
    by apply suffix_length.
Qed.

Lemma thunkTarget_old name thunk target :
  target <> [] -> result (isMangledName name newDemangler) = Ok false -> thunkSymbol name = Ok thunk ->
  result (thunkTarget false thunk name newDemangler) = Ok target <-> thunkOf name target.
Proof.
  intros Hne Hm Ht. rewrite (thunkSymbol_old _ Hm) in Ht.
  apply (inj Ok) in Ht. split.
  - destruct thunk; [|by intros [= <-]].
    apply existsb_exists in Ht as (p & Hp & [r ->]%startswith_iff).
    cbn in Hp. repeat (destruct Hp as [<-|Hp]; [intros [= <-]|]); [..|done].
    + apply (thunk_attribute "o"). by left.
    + apply (thunk_attribute "O"). by right.
    + apply thunk_forwarder.
    + apply thunk_objc_forwarder.
  - subst thunk. intros Hto. revert Hm. destruct Hto as [t x Hm' _ _|t|t|c rest [-> | ->]]; intros Hm;
      [by rewrite Hm in Hm'|done..].
Qed.

(** C12. [getThunkTarget] computes the relation between thunks and their targets:
    it returns a name exactly when that is the target of the thunk. A symbol of
    the new mangling loses its last two characters when it demangles to a thunk
    with a target; of the old mangling the prefix is replaced, whatever follows. *)
Theorem getThunkTarget_spec MangledName s target :
  target <> [] -> result (getThunkTarget MangledName s) = Ok target <-> thunkOf MangledName target.
Proof.
  intros Hne. rewrite getThunkTarget_cases.
  destruct (result (isMangledName MangledName newDemangler)) as [[]|c] eqn:Hm.
  - destruct (thunkSymbol MangledName) as [thunk|c] eqn:Ht; [by apply thunkTarget_mangled|].
    split; [done|]. intros Hto. revert Hm Ht. destruct Hto as [t x _ Ht' Hx|t|t|c' rest [-> | ->]]; intros Hm Ht;
      [by rewrite Ht in Ht'|by vm_compute in Hm..].
  - pose proof (thunkSymbol_old _ Hm) as Ht. rewrite Ht. by apply thunkTarget_old.
  - split.
    + destruct (thunkSymbol MangledName) as [[]|]; [done|by intros [= <-]|done].
    + intros Hto. revert Hm. destruct Hto as [t x Hm' _ _|t|t|c' rest [-> | ->]]; intros Hm;
        [by rewrite Hm in Hm'|by vm_compute in Hm..].
Qed.

Lemma getThunkTarget_spec_witness :
  lit "$S1a1bCD" <> [] /\ result (getThunkTarget (lit "$S1a1byyFTo") newDemangler) = Ok (lit "$S1a1byyF")
  /\ thunkOf (lit "$S1a1byyFTo") (lit "$S1a1byyF").
Proof.
  split; [done|]. split; [vm_compute; reflexivity|].
  apply (getThunkTarget_spec (lit "$S1a1byyFTo") newDemangler); [done|vm_compute; reflexivity].
Defined.

(** ** Safety *)

(** The crashes of the two demanglers. *)
Definition context_crash (c : crash) : Prop := symbol_crash c \/ old_crash c.

(** A tree that one of the demanglers has built. *)
Definition demangled (root : Node) : Prop :=
  isGlobal root = true /\ (wf_node root = true \/ old_wf root = true).

Lemma wp_demangleSymbolAsNode MangledName s :
  wp context_crash (demangleSymbolAsNode MangledName) (fun r _ => forall root, r = Some root -> demangled root) s.
Proof.
  unfold demangleSymbolAsNode, isMangledName. apply wp_bind, wp_bind.
  eapply wp_crash_mono; [|apply wp_getManglingPrefixLength]; [by left|].
  intros n _. apply wp_ret. destruct (negb _).
  - eapply wp_crash_mono; [by left|]. eapply wp_mono; [apply wp_demangleSymbol|].
    intros r s' Hr root ->. destruct (Hr root eq_refl) as (Hw & Hk & Hc). split; [|by left].
    unfold isGlobal. rewrite Hk. cbn. by apply negb_true_iff, Nat.eqb_neq.
  - unfold wp, call. pose proof (demangleOldSymbolAsNode_spec MangledName) as H.
    destruct (demangleOldSymbolAsNode MangledName) as [r|c]; [|by right].
    intros root ->. destruct H as [Hw Hk%Kind_eqb_eq]. split; [|by right].
    unfold isGlobal. rewrite Hk. destruct root as [k p [|c cs]]; [|done]. cbn in Hk. subst k.
    apply old_wf_iff in Hw as [Hs _]. by destruct p.
Qed.

Lemma wp_first E (root : Node) (s : Demangler) (Q : Node -> Demangler -> Prop) :
  isGlobal root = true -> (forall c, Q c s) -> wp E (getFirstChild root) Q s.
Proof.
  unfold isGlobal, getNumChildren. intros [_ H]%andb_true_iff HQ. unfold wp, getFirstChild.
  destruct (children root); [done|apply HQ].
Qed.

Lemma wp_hasSwiftCallingConvention MangledName s :
  wp context_crash (hasSwiftCallingConvention MangledName) (fun _ _ => True) s.
Proof.
  unfold hasSwiftCallingConvention. apply wp_bind. eapply wp_mono; [apply wp_demangleSymbolAsNode|].
  intros [root|] s' Hr; [|by apply wp_ret]. destruct (Hr root eq_refl) as [Hg _]. rewrite Hg. cbn [negb].
  apply wp_bind, wp_first; [done|]. intros c. by apply wp_ret.
Qed.

Lemma wp_isThunkSymbol MangledName s : wp context_crash (isThunkSymbol MangledName) (fun _ _ => True) s.
Proof.
  unfold isThunkSymbol. apply wp_bind. unfold isMangledName. apply wp_bind.
  eapply wp_crash_mono; [|apply wp_getManglingPrefixLength]; [by left|].
  intros n _. apply wp_ret. destruct (negb _).
  - destruct (existsb _ _); [|by apply wp_ret].
    apply wp_bind. eapply wp_crash_mono; [by left|]. eapply wp_mono; [apply wp_demangleSymbol|].
    intros [root|] s' _; [|by apply wp_ret]. destruct (isGlobal root) eqn:Hg; [|by apply wp_ret]. cbn [negb].
    apply wp_bind, wp_first; [done|]. intros c. by apply wp_ret.
  - destruct (startswith _ _); by apply wp_ret.
Qed.

Lemma wp_crash {S A} E (m : M S A) Q s c : wp E m Q s -> result (m s) = Crash c -> E c.
Proof. unfold wp. destruct (m s) as [[a s']|c']; [done|]. by intros H [= ->]. Qed.

(** The assertions of [getThunkTarget] hold. *)
Lemma getThunkTarget_crash MangledName s c :
  result (getThunkTarget MangledName s) = Crash c -> context_crash c.
Proof.
  rewrite getThunkTarget_cases.
  destruct (thunkSymbol MangledName) as [thunk|c'] eqn:Ht.
  2: { intros [= ->]. eapply wp_crash; [apply wp_isThunkSymbol|exact Ht]. }
  destruct (result (isMangledName MangledName newDemangler)) as [[]|c'] eqn:Hm.
  - unfold thunkTarget. destruct thunk; [|done]. cbn [negb]. by destruct (existsb _ _).
  - rewrite (thunkSymbol_old _ Hm) in Ht. apply (inj Ok) in Ht. destruct thunk; [|done].
    apply existsb_exists in Ht as (p & Hp & [r ->]%startswith_iff).
    cbn in Hp. by repeat (destruct Hp as [<-|Hp]).
  - destruct thunk; [|done]. intros [= ->]. left.
    refine (wp_crash symbol_crash _ (fun _ _ => True) _ _ _ Hm). unfold isMangledName.
    apply wp_bind, wp_getManglingPrefixLength. intros n _. by apply wp_ret.
Qed.

(** C21. The queries of the context end on every name, new or old or neither, with
    an answer or with one of the crashes of the two demanglers: the tree they
    look into always has a first child, and the assertions of [getThunkTarget]
    follow from the answer of [isThunkSymbol]. *)
Theorem context_queries_safe MangledName s c :
  result (demangleSymbolAsNode MangledName s) = Crash c
  \/ result (isThunkSymbol MangledName s) = Crash c
  \/ result (getThunkTarget MangledName s) = Crash c
  \/ result (hasSwiftCallingConvention MangledName s) = Crash c ->
  context_crash c.
Proof.
  intros [H|[H|[H|H]]].
  - eapply wp_crash; [apply wp_demangleSymbolAsNode|exact H].
  - eapply wp_crash; [apply wp_isThunkSymbol|exact H].
  - by eapply getThunkTarget_crash.
  - eapply wp_crash; [apply wp_hasSwiftCallingConvention|exact H].
Qed.

Lemma context_queries_safe_witness : context_crash (OutOfRange "getManglingPrefixLength").
Proof.
  apply (context_queries_safe (lit "$") newDemangler). left. reflexivity.
Defined.

(** ** Names as strings *)

(** What stands for a tree. *)
Definition orName (MangledName : str) (text : str) : str := if (length text =? 0)%nat then MangledName else text.

Lemma demangleSymbolAsString_cases depth MangledName Options :
  demangleSymbolAsString depth MangledName Options =
  match result (demangleSymbolAsNode MangledName newDemangler) with
  | Ok None => Ok MangledName
  | Ok (Some root) =>
      match nodeToString Options (demangleNameWith depth) (Some root) with
      | Ok text => Ok (orName MangledName text)
      | Crash c => Crash c
      end
  | Crash c => Crash c
  end.
Proof.
  unfold demangleSymbolAsString, demangleSymbolAsStringIn, bind, nodeAsString.
  destruct (demangleSymbolAsNode MangledName newDemangler) as [[[root|] s]|c]; [|done..].
  unfold bind, call. cbn [result]. by destruct (nodeToString _ _ _).
Qed.

(** A symbol that does not run out of depth is the same string at every
    greater depth: the bound on demangling names inside names decides only how
    far the function gets, not what it answers. *)
Theorem demangleSymbolAsString_depth depth depth' MangledName Options :
  (depth <= depth')%nat ->
  demangleSymbolAsString depth MangledName Options <> Crash OutOfFuel ->
  demangleSymbolAsString depth' MangledName Options = demangleSymbolAsString depth MangledName Options.
Proof. intros Hd Hne. by destruct (demangleSymbolAsString_le depth depth' MangledName Options Hd) as [H|H]. Qed.

(** The string for a symbol does not depend on the names that the context has
    demangled before, nor on whether it has been cleared since. *)
Theorem demangleSymbolAsString_history_independent dem MangledName Options s s' :
  result (demangleSymbolAsStringIn dem MangledName Options s)
  = result (demangleSymbolAsStringIn dem MangledName Options s').
Proof.
  apply sameResult_bind; [apply demangleSymbolAsNode_any_state|]. intros root t t'.
  apply sameResult_stateless, stateless_nodeAsString.
Qed.

Lemma demangleSymbolAsNode_mangled MangledName :
  result (isMangledName MangledName newDemangler) = Ok true ->
  result (demangleSymbolAsNode MangledName newDemangler) = result (demangleSymbol MangledName newDemangler).
Proof.
  intros Hm. unfold demangleSymbolAsNode, bind.
  destruct (isMangledName MangledName newDemangler) as [[b s]|c]; [|done]. injection Hm as ->.
  apply demangleSymbol_any_state.
Qed.

(** C7. Demangler and printer together: a name of the new mangling, in whose tree no
    node has 2^32 or more children, gives a text, which is never empty, or crashes as
    the demangler or the printer does on a tree that follows the grammar, or as the
    name of another symbol does that a specialization mentions. *)
Theorem demangleSymbolAsString_safe depth MangledName Options :
  result (isMangledName MangledName newDemangler) = Ok true ->
  (forall root, result (demangleSymbol MangledName newDemangler) = Ok (Some root) -> narrow root = true) ->
  match demangleSymbolAsString depth MangledName Options with
  | Ok text => text <> []
  | Crash c => symbol_crash c \/ printer_crash (demangleNameWith depth) c
  end.
Proof.
  intros Hm Hn. rewrite demangleSymbolAsString_cases, demangleSymbolAsNode_mangled by done.
  assert (MangledName <> []) as Hne by by intros ->.
  pose proof (wp_demangleSymbol MangledName newDemangler) as Hw. unfold wp in Hw.
  destruct (demangleSymbol MangledName newDemangler) as [[[root|] s]|c]; cbn [result] in *; [|done|by left].
  destruct (Hw root eq_refl) as (Hwf & _).
  pose proof (printRoot_safe Options (demangleNameWith depth) root Hwf (Hn root eq_refl)) as Hp.
  cbn [nodeToString]. destruct (printRoot _ _ root) as [[|ch text]|c]; [done|done|by right].
Qed.

Lemma demangleSymbolAsString_safe_witness :
  match demangleSymbolAsString 1 (lit "$S1a1byyF") defaultDemangleOptions with
  | Ok text => text <> []
  | Crash c => symbol_crash c \/ printer_crash (demangleNameWith 1) c
  end.
Proof.
  apply (demangleSymbolAsString_safe 1 (lit "$S1a1byyF") defaultDemangleOptions).
  - reflexivity.
  - intros root H. vm_compute in H. injection H as <-. reflexivity.
Defined.

Lemma demangleSymbolAsString_depth_witness :
  demangleSymbolAsString 7 (lit "$S1a1byyF") defaultDemangleOptions
  = demangleSymbolAsString 1 (lit "$S1a1byyF") defaultDemangleOptions.
Proof.
  apply (demangleSymbolAsString_depth 1 7 (lit "$S1a1byyF") defaultDemangleOptions); [lia|by vm_compute].
Defined.

(** [nests n name]: the name mentions a symbol that mentions a symbol, [n] times. *)
Fixpoint nests (n : nat) (MangledName : str) : Prop :=
  match n with
  | O => True
  | S n =>
      exists root text,
        result (demangleSymbolAsNode MangledName newDemangler) = Ok (Some root)
        /\ In text (mentions root) /\ nests n text
  end.

Lemma context_crash_fuel : ~ context_crash OutOfFuel.
Proof. intros [H|H]; inversion_clear H. by inversion_clear H0. Qed.

(** Running out of depth at a name, when the names it mentions may run out as [P]. *)
Lemma runs_out dem (P : str -> Prop) MangledName Options :
  (forall text, dem text = Crash OutOfFuel -> P text) ->
  result (demangleSymbolAsStringIn dem MangledName Options newDemangler) = Crash OutOfFuel ->
  exists root text,
    result (demangleSymbolAsNode MangledName newDemangler) = Ok (Some root) /\ In text (mentions root) /\ P text.
Proof.
  intros Hd. unfold demangleSymbolAsStringIn, bind.
  pose proof (wp_demangleSymbolAsNode MangledName newDemangler) as Hw. unfold wp in Hw.
  destruct (demangleSymbolAsNode MangledName newDemangler) as [[[root|] s]|c]; cbn [result]; [|done|].
  - unfold nodeAsString, bind, call. cbn [nodeToString].
    destruct (printRoot Options dem root) as [t|c] eqn:Hp; [done|]. intros [= ->].
    apply printRoot_ends in Hp as (text & Hin & Ht). exists root, text. split_and!; [done|done|by apply Hd].
  - intros [= ->]. by destruct (context_crash_fuel Hw).
Qed.

Lemma demangleNameWith_nests fuel MangledName :
  demangleNameWith fuel MangledName = Crash OutOfFuel -> nests fuel MangledName.
Proof.
  revert MangledName. induction fuel as [|fuel IH]; intros name; [done|]. cbn [demangleNameWith nests].
  by apply runs_out.
Qed.

(** C8. [demangleSymbolAsString] returns: only for a chain of names each of which
    mentions the next one in a specialization, longer than the depth, does it run
    out of depth. A symbol that mentions no other symbol needs no depth at all. *)
Theorem demangleSymbolAsString_terminates depth MangledName Options :
  demangleSymbolAsString depth MangledName Options = Crash OutOfFuel -> nests (S depth) MangledName.
Proof. apply runs_out, demangleNameWith_nests. Qed.

(** A name that mentions another one. *)
Definition mentioning : str := lit "_TTSf1cpfr24_TF8capturep6helperFSiT__n___TTRXFo_dSi_dT__XFo_iSi_dT__".

Lemma demangleSymbolAsString_terminates_witness :
  demangleSymbolAsString 0 mentioning defaultDemangleOptions = Crash OutOfFuel /\ nests 1 mentioning.
Proof.
  split; [vm_compute; reflexivity|].
  apply (demangleSymbolAsString_terminates 0 mentioning defaultDemangleOptions). vm_compute. reflexivity.
Defined.
