(* ===== verification/NodeDumper.v ===== *)
(** * The node dumper

    NodeDumper.cpp: a tree as text, one line for each node, indented by its depth
    and with its kind, its text and its index; and that the dump determines the tree. *)

From Stdlib Require Import String.
From S2P Require Import Prelude Nodes ManglingUtils Demangler Numbers.

(** The kind's name in DemangleNodes.def. *)
Definition getNodeKindString (k : Kind) : string :=
  match k with
  | K_Allocator => "Allocator"
  | K_ArgumentTuple => "ArgumentTuple"
  | K_AssociatedType => "AssociatedType"
  | K_AssociatedTypeRef => "AssociatedTypeRef"
  | K_AssociatedTypeMetadataAccessor => "AssociatedTypeMetadataAccessor"
  | K_AssociatedTypeWitnessTableAccessor => "AssociatedTypeWitnessTableAccessor"
  | K_AutoClosureType => "AutoClosureType"
  | K_BoundGenericClass => "BoundGenericClass"
  | K_BoundGenericEnum => "BoundGenericEnum"
  | K_BoundGenericStructure => "BoundGenericStructure"
  | K_BuiltinTypeName => "BuiltinTypeName"
  | K_CFunctionPointer => "CFunctionPointer"
  | K_Class => "Class"
  | K_ClassMetadataBaseOffset => "ClassMetadataBaseOffset"
  | K_Constructor => "Constructor"
  | K_CoroutineContinuationPrototype => "CoroutineContinuationPrototype"
  | K_Deallocator => "Deallocator"
  | K_DeclContext => "DeclContext"
  | K_DefaultArgumentInitializer => "DefaultArgumentInitializer"
  | K_DependentAssociatedTypeRef => "DependentAssociatedTypeRef"
  | K_DependentGenericConformanceRequirement => "DependentGenericConformanceRequirement"
  | K_DependentGenericParamCount => "DependentGenericParamCount"
  | K_DependentGenericParamType => "DependentGenericParamType"
  | K_DependentGenericSameTypeRequirement => "DependentGenericSameTypeRequirement"
  | K_DependentGenericLayoutRequirement => "DependentGenericLayoutRequirement"
  | K_DependentGenericSignature => "DependentGenericSignature"
  | K_DependentGenericType => "DependentGenericType"
  | K_DependentMemberType => "DependentMemberType"
  | K_DependentPseudogenericSignature => "DependentPseudogenericSignature"
  | K_Destructor => "Destructor"
  | K_DidSet => "DidSet"
  | K_Directness => "Directness"
  | K_DynamicAttribute => "DynamicAttribute"
  | K_DirectMethodReferenceAttribute => "DirectMethodReferenceAttribute"
  | K_DynamicSelf => "DynamicSelf"
  | K_Enum => "Enum"
  | K_ErrorType => "ErrorType"
  | K_ExistentialMetatype => "ExistentialMetatype"
  | K_ExplicitClosure => "ExplicitClosure"
  | K_Extension => "Extension"
  | K_FieldOffset => "FieldOffset"
  | K_FullTypeMetadata => "FullTypeMetadata"
  | K_Function => "Function"
  | K_FunctionSignatureSpecialization => "FunctionSignatureSpecialization"
  | K_FunctionSignatureSpecializationParam => "FunctionSignatureSpecializationParam"
  | K_FunctionSignatureSpecializationParamKind => "FunctionSignatureSpecializationParamKind"
  | K_FunctionSignatureSpecializationParamPayload => "FunctionSignatureSpecializationParamPayload"
  | K_FunctionType => "FunctionType"
  | K_GenericPartialSpecialization => "GenericPartialSpecialization"
  | K_GenericPartialSpecializationNotReAbstracted => "GenericPartialSpecializationNotReAbstracted"
  | K_GenericProtocolWitnessTable => "GenericProtocolWitnessTable"
  | K_GenericProtocolWitnessTableInstantiationFunction => "GenericProtocolWitnessTableInstantiationFunction"
  | K_GenericSpecialization => "GenericSpecialization"
  | K_GenericSpecializationNotReAbstracted => "GenericSpecializationNotReAbstracted"
  | K_GenericSpecializationParam => "GenericSpecializationParam"
  | K_GenericTypeMetadataPattern => "GenericTypeMetadataPattern"
  | K_Getter => "Getter"
  | K_Global => "Global"
  | K_GlobalGetter => "GlobalGetter"
  | K_Identifier => "Identifier"
  | K_Index => "Index"
  | K_IVarInitializer => "IVarInitializer"
  | K_IVarDestroyer => "IVarDestroyer"
  | K_ImplEscaping => "ImplEscaping"
  | K_ImplConvention => "ImplConvention"
  | K_ImplFunctionAttribute => "ImplFunctionAttribute"
  | K_ImplFunctionType => "ImplFunctionType"
  | K_ImplicitClosure => "ImplicitClosure"
  | K_ImplParameter => "ImplParameter"
  | K_ImplResult => "ImplResult"
  | K_ImplErrorResult => "ImplErrorResult"
  | K_InOut => "InOut"
  | K_InfixOperator => "InfixOperator"
  | K_Initializer => "Initializer"
  | K_KeyPathGetterThunkHelper => "KeyPathGetterThunkHelper"
  | K_KeyPathSetterThunkHelper => "KeyPathSetterThunkHelper"
  | K_KeyPathEqualsThunkHelper => "KeyPathEqualsThunkHelper"
  | K_KeyPathHashThunkHelper => "KeyPathHashThunkHelper"
  | K_LazyProtocolWitnessTableAccessor => "LazyProtocolWitnessTableAccessor"
  | K_LazyProtocolWitnessTableCacheVariable => "LazyProtocolWitnessTableCacheVariable"
  | K_LocalDeclName => "LocalDeclName"
  | K_MaterializeForSet => "MaterializeForSet"
  | K_MergedFunction => "MergedFunction"
  | K_Metatype => "Metatype"
  | K_MetatypeRepresentation => "MetatypeRepresentation"
  | K_Metaclass => "Metaclass"
  | K_Module => "Module"
  | K_NativeOwningAddressor => "NativeOwningAddressor"
  | K_NativeOwningMutableAddressor => "NativeOwningMutableAddressor"
  | K_NativePinningAddressor => "NativePinningAddressor"
  | K_NativePinningMutableAddressor => "NativePinningMutableAddressor"
  | K_NominalTypeDescriptor => "NominalTypeDescriptor"
  | K_NonObjCAttribute => "NonObjCAttribute"
  | K_Number => "Number"
  | K_ObjCAttribute => "ObjCAttribute"
  | K_ObjCBlock => "ObjCBlock"
  | K_OwningAddressor => "OwningAddressor"
  | K_OwningMutableAddressor => "OwningMutableAddressor"
  | K_PartialApplyForwarder => "PartialApplyForwarder"
  | K_PartialApplyObjCForwarder => "PartialApplyObjCForwarder"
  | K_PostfixOperator => "PostfixOperator"
  | K_PrefixOperator => "PrefixOperator"
  | K_PrivateDeclName => "PrivateDeclName"
  | K_Protocol => "Protocol"
  | K_ProtocolConformance => "ProtocolConformance"
  | K_ProtocolDescriptor => "ProtocolDescriptor"
  | K_ProtocolConformanceDescriptor => "ProtocolConformanceDescriptor"
  | K_ProtocolList => "ProtocolList"
  | K_ProtocolListWithClass => "ProtocolListWithClass"
  | K_ProtocolListWithAnyObject => "ProtocolListWithAnyObject"
  | K_ProtocolWitness => "ProtocolWitness"
  | K_ProtocolWitnessTable => "ProtocolWitnessTable"
  | K_ProtocolWitnessTableAccessor => "ProtocolWitnessTableAccessor"
  | K_QualifiedArchetype => "QualifiedArchetype"
  | K_ReabstractionThunk => "ReabstractionThunk"
  | K_ReabstractionThunkHelper => "ReabstractionThunkHelper"
  | K_ReturnType => "ReturnType"
  | K_Shared => "Shared"
  | K_SILBoxType => "SILBoxType"
  | K_SILBoxTypeWithLayout => "SILBoxTypeWithLayout"
  | K_SILBoxLayout => "SILBoxLayout"
  | K_SILBoxMutableField => "SILBoxMutableField"
  | K_SILBoxImmutableField => "SILBoxImmutableField"
  | K_Setter => "Setter"
  | K_SpecializationPassID => "SpecializationPassID"
  | K_SpecializationIsFragile => "SpecializationIsFragile"
  | K_Static => "Static"
  | K_Structure => "Structure"
  | K_Subscript => "Subscript"
  | K_Suffix => "Suffix"
  | K_ThinFunctionType => "ThinFunctionType"
  | K_Tuple => "Tuple"
  | K_TupleElement => "TupleElement"
  | K_TupleElementName => "TupleElementName"
  | K_Type => "Type"
  | K_TypeAlias => "TypeAlias"
  | K_TypeList => "TypeList"
  | K_TypeMangling => "TypeMangling"
  | K_TypeMetadata => "TypeMetadata"
  | K_TypeMetadataAccessFunction => "TypeMetadataAccessFunction"
  | K_TypeMetadataLazyCache => "TypeMetadataLazyCache"
  | K_UncurriedFunctionType => "UncurriedFunctionType"
  | K_Unmanaged => "Unmanaged"
  | K_Unowned => "Unowned"
  | K_UnsafeAddressor => "UnsafeAddressor"
  | K_UnsafeMutableAddressor => "UnsafeMutableAddressor"
  | K_ValueWitness => "ValueWitness"
  | K_ValueWitnessTable => "ValueWitnessTable"
  | K_Variable => "Variable"
  | K_VTableThunk => "VTableThunk"
  | K_VTableAttribute => "VTableAttribute"
  | K_Weak => "Weak"
  | K_WillSet => "WillSet"
  | K_ReflectionMetadataBuiltinDescriptor => "ReflectionMetadataBuiltinDescriptor"
  | K_ReflectionMetadataFieldDescriptor => "ReflectionMetadataFieldDescriptor"
  | K_ReflectionMetadataAssocTypeDescriptor => "ReflectionMetadataAssocTypeDescriptor"
  | K_ReflectionMetadataSuperclassDescriptor => "ReflectionMetadataSuperclassDescriptor"
  | K_GenericTypeParamDecl => "GenericTypeParamDecl"
  | K_CurryThunk => "CurryThunk"
  | K_DispatchThunk => "DispatchThunk"
  | K_ThrowsAnnotation => "ThrowsAnnotation"
  | K_EmptyList => "EmptyList"
  | K_FirstElementMarker => "FirstElementMarker"
  | K_VariadicMarker => "VariadicMarker"
  | K_OutlinedBridgedMethod => "OutlinedBridgedMethod"
  | K_OutlinedCopy => "OutlinedCopy"
  | K_OutlinedConsume => "OutlinedConsume"
  | K_OutlinedRetain => "OutlinedRetain"
  | K_OutlinedRelease => "OutlinedRelease"
  | K_OutlinedInitializeWithTake => "OutlinedInitializeWithTake"
  | K_OutlinedInitializeWithCopy => "OutlinedInitializeWithCopy"
  | K_OutlinedAssignWithTake => "OutlinedAssignWithTake"
  | K_OutlinedAssignWithCopy => "OutlinedAssignWithCopy"
  | K_OutlinedDestroy => "OutlinedDestroy"
  | K_OutlinedVariable => "OutlinedVariable"
  | K_AssocTypePath => "AssocTypePath"
  | K_LabelList => "LabelList"
  end%string.

(** The quotation mark and the end of a line. *)
Definition QUOTE : ascii := chr 34.
Definition LF : ascii := chr 10.

(** [printNode(Out, node, depth)] without the null check, which only the root
    needs; the output is what is appended to [Out]. *)
Fixpoint dumpNode (node : Node) (depth : nat) : str :=
  match node with
  | mkNode kind p cs =>
      replicate (depth * 2) " "%char ++ lit "kind=" ++ lit (getNodeKindString kind)
      ++ match p with TextPayload text => lit ", text=" ++ QUOTE :: text ++ [QUOTE] | _ => [] end
      ++ match p with IndexPayload index => lit ", index=" ++ decimal index | _ => [] end
      ++ [LF]
      ++ concat (map (fun child => dumpNode child (depth + 1)) cs)
  end.

Definition getNodeTreeAsString (Root : NodePointer) : str :=
  match Root with
  | None => lit "<<NULL>>"
  | Some Root => dumpNode Root 0
  end.

(** ** Lines *)

Definition noLF (t : str) : Prop := ~ In LF t.

Lemma noLF_app t u : noLF t -> noLF u -> noLF (t ++ u).
Proof. unfold noLF. rewrite in_app_iff. tauto. Qed.

(** The first line and the rest are determined. *)
Lemma line_inj l l' r r' : noLF l -> noLF l' -> l ++ LF :: r = l' ++ LF :: r' -> l = l' /\ r = r'.
Proof.
  revert l'. induction l as [|c l IH]; intros [|c' l'] H H' E; cbn in *; injection E; clear E.
  - by intros ->.
  - intros _ E. destruct H'. by left.
  - intros _ E. destruct H. by left.
  - intros E ->. apply IH in E as [-> ->]; [done|..]; intros ?; [apply H|apply H']; by right.
Qed.

(** ** A node's own line *)

Definition isLetter (c : ascii) : bool := isLowerLetter c || isUpperLetter c.

Lemma letters_split t t' u u' :
  forallb isLetter t = true -> forallb isLetter t' = true ->
  isLetter (default LF (head u)) = false -> isLetter (default LF (head u')) = false ->
  t ++ u = t' ++ u' -> t = t' /\ u = u'.
Proof.
  revert t'. induction t as [|c t IH]; intros [|c' t'] Ht Ht' Hu Hu' E; cbn in *.
  - done.
  - subst u. cbn in Hu. by rewrite Hu in Ht'.
  - subst u'. cbn in Hu'. by rewrite Hu' in Ht.
  - apply andb_true_iff in Ht as [_ Ht], Ht' as [_ Ht']. injection E as -> E.
    by apply IH in E as [-> ->].
Qed.

Lemma kindString_letters k : forallb isLetter (lit (getNodeKindString k)) = true.
Proof. by destruct k. Qed.

(** The kind of a name. *)
Definition kindOfString (s : string) : option Kind := find (fun k => String.eqb (getNodeKindString k) s) all_kinds.

Lemma kindOfString_kind k : kindOfString (getNodeKindString k) = Some k.
Proof. destruct k; vm_compute; reflexivity. Qed.

Lemma lit_inj s s' : lit s = lit s' -> s = s'.
Proof. intros H. apply (f_equal string_of_list_ascii) in H. by rewrite !string_of_list_ascii_of_string in H. Qed.

Lemma kindString_inj k k' : getNodeKindString k = getNodeKindString k' -> k = k'.
Proof. intros H. apply (f_equal kindOfString) in H. rewrite !kindOfString_kind in H. by injection H. Qed.

Definition payloadString (p : Payload) : str :=
  match p with
  | NoPayload => []
  | TextPayload text => lit ", text=" ++ QUOTE :: text ++ [QUOTE]
  | IndexPayload index => lit ", index=" ++ decimal index
  end.

(** What the dump shows faithfully: texts of one line, and indices. *)
Definition dumpablePayload (p : Payload) : Prop :=
  match p with NoPayload => True | TextPayload text => noLF text | IndexPayload index => 0 <= index end.

Lemma decimal_value n : 0 <= n -> numeral 0 (decimal n) = n.
Proof. intros (c & ds & -> & _ & H & _)%decimal_spec. exact H. Qed.

Lemma payloadString_inj p p' :
  dumpablePayload p -> dumpablePayload p' -> payloadString p = payloadString p' -> p = p'.
Proof.
  destruct p as [|t|i], p' as [|t'|i']; cbn -[decimal numeral]; intros Hp Hp' H; try discriminate H; [done|..].
  - injection H as H. by apply app_inj_tail in H as [-> _].
  - injection H as H. apply (f_equal (numeral 0)) in H. rewrite !decimal_value in H by done. by subst.
Qed.

Lemma digits_noLF ds : digits ds -> noLF ds.
Proof.
  intros H Hin. unfold digits in H. rewrite List.Forall_forall in H. by specialize (H LF Hin).
Qed.

Lemma payloadString_noLF p : dumpablePayload p -> noLF (payloadString p).
Proof.
  destruct p as [|t|i]; cbn -[lit decimal]; intros Hp; [by intros []|..].
  - apply noLF_app; [by vm_compute; intuition|]. intros [H|H]; [by vm_compute in H|].
    apply in_app_iff in H as [H|[H|[]]]; [by apply Hp|by vm_compute in H].
  - apply noLF_app; [by vm_compute; intuition|]. apply decimal_spec in Hp as (c & ds & -> & H & _).
    by apply digits_noLF.
Qed.

Definition nodeLine (n : Node) : str := lit "kind=" ++ lit (getNodeKindString (getKind n)) ++ payloadString (payload n).

Lemma nodeLine_inj n n' :
  dumpablePayload (payload n) -> dumpablePayload (payload n') -> nodeLine n = nodeLine n' ->
  getKind n = getKind n' /\ payload n = payload n'.
Proof.
  intros Hp Hp' H%app_inv_head. apply letters_split in H as [Hk H]; try apply kindString_letters.
  - split; [by apply kindString_inj, lit_inj|by apply payloadString_inj].
  - by destruct (payload n).
  - by destruct (payload n').
Qed.

Lemma letters_noLF t : forallb isLetter t = true -> noLF t.
Proof. intros H Hin. rewrite forallb_forall in H. by specialize (H LF Hin). Qed.

Lemma nodeLine_noLF n : dumpablePayload (payload n) -> noLF (nodeLine n).
Proof.
  intros Hp. apply noLF_app; [by vm_compute; intuition|].
  apply noLF_app; [apply letters_noLF, kindString_letters|by apply payloadString_noLF].
Qed.

(** ** The dump of a tree *)

Definition spaces (d : nat) : str := replicate (d * 2) " "%char.

Lemma dumpNode_lines k p cs d :
  dumpNode (mkNode k p cs) d
  = spaces d ++ nodeLine (mkNode k p cs) ++ LF :: concat (map (fun c => dumpNode c (d + 1)) cs).
Proof. unfold nodeLine. cbn [dumpNode getKind payload]. by destruct p; rewrite <-?app_assoc. Qed.

Fixpoint dumpable (n : Node) : Prop :=
  match n with
  | mkNode _ p cs => dumpablePayload p /\ (fix all l := match l with [] => True | c :: l => dumpable c /\ all l end) cs
  end.

(** What may follow the dump of a node of depth [d]: the line of a node that is
    no deeper. *)
Definition shallow (d : nat) (r : str) : Prop :=
  r = [] \/ exists e x, (e <= d)%nat /\ r = spaces e ++ "k"%char :: x.

Lemma shallow_dump d n r : shallow d (dumpNode n d ++ r).
Proof.
  right. destruct n as [k p cs]. rewrite dumpNode_lines. exists d. eexists. split; [done|].
  rewrite <-!app_assoc. reflexivity.
Qed.

Lemma shallow_rest d cs r : shallow d r -> shallow (d + 1) (concat (map (fun c => dumpNode c (d + 1)) cs) ++ r).
Proof.
  intros Hr. destruct cs as [|c cs]; cbn [map concat].
  - destruct Hr as [->|(e & x & He & ->)]; [by left|]. right. exists e, x. split; [lia|done].
  - rewrite <-app_assoc. apply shallow_dump.
Qed.

(** A deeper line is not shallow. *)
Lemma deeper_line d n r x : shallow d x -> x <> dumpNode n (d + 1) ++ r.
Proof.
  intros Hx. destruct n as [k p cs]. rewrite dumpNode_lines, <-!app_assoc. intros ->.
  assert (forall e m (t u : str), (e < m)%nat -> replicate m " "%char ++ t <> replicate e " "%char ++ "k"%char :: u) as H.
  { induction e as [|e IH]; intros [|m] t u Hlt; try lia; [done|]. cbn. intros [= E]. apply (IH m t u); [lia|done]. }
  destruct Hx as [Hx|(e & u & He & Hx)].
  - by destruct d.
  - apply (H (e * 2)%nat ((d + 1) * 2)%nat) in Hx; [done|lia].
Qed.

Lemma dumpNode_inj n : forall n' d r r', dumpable n -> dumpable n' -> shallow d r -> shallow d r' ->
  dumpNode n d ++ r = dumpNode n' d ++ r' -> n = n' /\ r = r'.
Proof.
  induction n as [k p cs IH] using Node_tree_ind. intros [k' p' cs'] d r r' [Hp Hcs] [Hp' Hcs'] Hr Hr'.
  rewrite !dumpNode_lines, <-!app_assoc. intros H%app_inv_head. cbn [app] in H.
  apply line_inj in H as [Hl H]; [|by apply nodeLine_noLF..].
  apply nodeLine_inj in Hl as [[= <-] [= <-]]; [|done..].
  enough (cs = cs' /\ r = r') as [<- <-] by done.
  clear Hp Hp'. revert cs' Hcs' H Hcs.
  induction IH as [|c cs Hc IH IHcs]; intros [|c' cs'] Hcs' H Hcs; cbn [map concat] in H.
  - done.
  - rewrite <-app_assoc in H. by apply deeper_line in H.
  - rewrite <-app_assoc in H. symmetry in H. by apply deeper_line in H.
  - rewrite <-!app_assoc in H. destruct Hcs as [Hd Hcs], Hcs' as [Hd' Hcs'].
    apply Hc in H as [<- H]; [|done|done|..].
    + by destruct (IHcs cs' Hcs' H Hcs) as [<- <-].
    + by apply shallow_rest.
    + by apply shallow_rest.
Qed.

(** C22. A dump determines its tree: two trees whose texts have no line breaks and
    that print to the same lines are equal, kinds, payloads and structure, since a
    name for each kind and the indentation for each depth are unambiguous. *)
Theorem getNodeTreeAsString_injective root root' :
  dumpable root -> dumpable root' ->
  getNodeTreeAsString (Some root) = getNodeTreeAsString (Some root') -> root = root'.
Proof.
  intros H H' E. apply (dumpNode_inj root root' 0 [] []); [done|done|by left|by left|].
  by rewrite !app_nil_r.
Qed.

Definition dumpedTree : Node :=
  mkNode K_Global NoPayload [mkNode K_Identifier (TextPayload (lit "a")) []; mkNode K_Number (IndexPayload 3) []].

Lemma getNodeTreeAsString_injective_witness : dumpedTree = dumpedTree.
Proof.
  apply (getNodeTreeAsString_injective dumpedTree dumpedTree); [| |reflexivity];
    (split; [exact I|split; [split; [|exact I]|split; [split; [vm_compute; discriminate|exact I]|exact I]]]);
    vm_compute; intros [H|[]]; discriminate H.
Defined.
