(* ===== verification/SwiftDemangle.v ===== *)
(** * The tool swift-demangle

    The function [demangle] of tools/swift-demangle/swift-demangle.cpp, which puts
    the context, the printer, the remangler and the node dumper together. The
    command-line options are a record; the result is what is written to the
    standard output, or none when the tool exits with an error. *)

From Stdlib Require Import String.
From S2P Require Import Prelude Nodes ManglingUtils Remangler Demangler NodePrinter OldDemangler DemanglingContext NodeDumper.

(** The [llvm::cl::opt]s that [demangle] reads. *)
Record Flags := mkFlags {
  ExpandMode : bool;
  CompactMode : bool;
  TreeOnly : bool;
  RemangleMode : bool;
  RemangleNew : bool;
  Classify : bool
}.

(** [MANGLING_PREFIX_STR] of ManglingMacros.h *)
Definition MANGLING_PREFIX_STR : str := lit "$S".

(** The options that [main] makes from the flags [-no-sugar] and [-simplified]. *)
Definition toolOptions (DisableSugar Simplified : bool) : DemangleOptions :=
  if Simplified then SimplifiedUIDemangleOptions
  else
    match defaultDemangleOptions with
    | mkOptions _ a b c d e f g h i j k l m n o => mkOptions (negb DisableSugar) a b c d e f g h i j k l m n o
    end.

(** The name that [RemangleMode] prints: none when it differs from [name]. *)
Definition testRemangle (name : str) (pointer : NodePointer) : CM (option str) :=
  if negb (isSome pointer) || negb (startswith name MANGLING_PREFIX_STR || startswith name (lit "_S"))
  then ret (Some name)
  else
    remangled <- call (mangleNode pointer) ;;
    prefixLen <- getManglingPrefixLength remangled ;;
    _ <- assert "demangle: prefixLen" (0 <? prefixLen)%nat ;;
    remangled <-
      (if startswith name (take prefixLen remangled) then ret remangled
       else
         namePrefixLen <- getManglingPrefixLength name ;;
         _ <- assert "demangle: namePrefixLen" (0 <? namePrefixLen)%nat ;;
         ret (take namePrefixLen name ++ drop prefixLen remangled)) ;;
    ret (if str_eqb name remangled then Some remangled else None).

(** [if (!Classifications.empty()) Classifications += ',';] *)
Definition addClassification (Classifications added : str) : str :=
  if (length Classifications =? 0)%nat then added else Classifications ++ lit "," ++ added.

Definition classify (name : str) (pointer : NodePointer) : CM str :=
  swift <- isSwiftSymbol name ;;
  let Classifications := if (swift : bool) then [] else lit "N" in
  thunk <- isThunkSymbol name ;;
  target <- getThunkTarget name ;;
  Classifications <-
    (if (thunk : bool) then ret (addClassification Classifications (lit "T:" ++ target))
     else
       _ <- assert "demangle: getThunkTarget" (length target =? 0)%nat ;;
       ret Classifications) ;;
  Classifications <-
    (match pointer with
     | None => ret Classifications
     | Some _ =>
         cc <- hasSwiftCallingConvention name ;;
         ret (if (cc : bool) then Classifications else addClassification Classifications (lit "C"))
     end) ;;
  ret (if (length Classifications =? 0)%nat then [] else lit "{" ++ Classifications ++ lit "} ").

(** [depth] bounds how deeply names inside names are demangled. *)
Definition demangle (depth : nat) (flags : Flags) (name : str) (options : DemangleOptions) : CM (option str) :=
  let hadLeadingUnderscore := startswith name (lit "__") in
  let name := if hadLeadingUnderscore then drop 1 name else name in
  pointer <- demangleSymbolAsNode name ;;
  let tree :=
    if ExpandMode flags || TreeOnly flags
    then lit "Demangling for " ++ name ++ [LF] ++ getNodeTreeAsString pointer
    else [] in
  if RemangleMode flags then
    remangled <- testRemangle name pointer ;;
    ret (match remangled with
         | None => None
         | Some remangled => Some (tree ++ (if hadLeadingUnderscore then lit "_" else []) ++ remangled)
         end)
  else if TreeOnly flags then
    _ <- clear ;; ret (Some tree)
  else if RemangleNew flags then
    match pointer with
    | None => ret None
    | Some _ => remangled <- call (mangleNode pointer) ;; ret (Some (tree ++ remangled))
    end
  else
    string_ <- call (nodeToString options (demangleNameWith depth) pointer) ;;
    classification <- (if Classify flags then classify name pointer else ret []) ;;
    _ <- clear ;;
    ret (Some (tree ++ (if CompactMode flags then [] else name ++ lit " ---> ") ++ classification
               ++ (if (length string_ =? 0)%nat then name else string_))).
