(* ===== verification/SwiftDemangleTheorems.v ===== *)
(** * The tool: theorems *)

From Stdlib Require Import String.
From S2P Require Import Prelude Nodes ManglingUtils Remangler Demangler NodePrinter OldDemangler DemanglingContext NodeDumper SwiftDemangle.
From S2P Require Import DemanglerSafety Mangleable SymbolRoundtrip ContextTheorems.

(** ** Remangling *)

Definition any_crash (c : crash) : Prop := True.

Lemma wp_any {S A} (m : M S A) s (Q : A -> S -> Prop) : (forall a s', Q a s') -> wp any_crash m Q s.
Proof. intros HQ. unfold wp. by destruct (m s) as [[a s']|c]. Qed.

Lemma wp_testRemangle name pointer s :
  wp any_crash (testRemangle name pointer) (fun r _ => forall t, r = Some t -> t = name) s.
Proof.
  unfold testRemangle. destruct (negb _ || negb _); [apply wp_ret; by intros t [= <-]|].
  do 4 (apply wp_bind, wp_any; intros ? ?). apply wp_ret.
  destruct (str_eqb_spec name a2) as [->|]; [by intros t [= <-]|done].
Qed.

(** The flags of [-test-remangle] alone. *)
Definition testsRemangling (flags : Flags) : Prop :=
  RemangleMode flags = true /\ ExpandMode flags = false /\ TreeOnly flags = false.

Definition remangleFlags : Flags := mkFlags false true false true false false.

(** [-test-remangle] prints nothing but the name it was given: when the tool
    does not stop with an error, what it writes is the name, with the second
    underscore that it has removed and with the prefix the name came with. *)
Theorem demangle_test_remangle depth flags name options s text :
  testsRemangling flags -> result (demangle depth flags name options s) = Ok (Some text) -> text = name.
Proof.
  intros (Hr & He & Ht). unfold demangle. rewrite Hr, He, Ht. cbn [orb].
  set (name' := if startswith name (lit "__") then drop 1 name else name).
  assert ((if startswith name (lit "__") then lit "_" else []) ++ name' = name) as Hname.
  { unfold name'. destruct (startswith name (lit "__")) eqn:E; [|done]. by apply startswith_iff in E as [r ->]. }
  unfold bind at 1. destruct (demangleSymbolAsNode name' s) as [[pointer s1]|c]; [|done].
  pose proof (wp_testRemangle name' pointer s1) as Hw. unfold wp in Hw. unfold bind.
  destruct (testRemangle name' pointer s1) as [[[remangled|] s2]|c]; [|done..].
  rewrite (Hw remangled eq_refl). cbn. intros [= <-]. exact Hname.
Qed.

Lemma demangle_test_remangle_witness : lit "__$SSi" = lit "__$SSi".
Proof.
  apply (demangle_test_remangle 1 remangleFlags (lit "__$SSi") defaultDemangleOptions newDemangler);
    [by split_and!|vm_compute; reflexivity].
Defined.

(** A symbol with the new prefix. *)
Lemma new_prefix {S} buf (s : S) : getManglingPrefixLength (lit "$S" ++ buf) s = Ok (2%nat, s).
Proof. reflexivity. Qed.

Lemma testRemangle_same symbol buf pointer s :
  symbol = lit "$S" ++ buf -> mangleNode (Some pointer) = Ok symbol ->
  testRemangle symbol (Some pointer) s = Ok (Some symbol, s).
Proof.
  intros -> Hm. unfold testRemangle. cbn [isSome negb orb].
  rewrite (proj2 (startswith_iff _ _)) by by exists buf. cbn [orb negb]. unfold bind, call. rewrite Hm, new_prefix.
  cbn [assert Nat.ltb Nat.leb]. rewrite (proj2 (startswith_iff _ _)) by by exists buf. unfold ret.
  by destruct (str_eqb_spec (lit "$S" ++ buf) (lit "$S" ++ buf)).
Qed.

(** C23. [-test-remangle] succeeds on the fragment that is proved to be read back:
    the symbol of every tree of [mangleable], if its length fits into an [int],
    demangles to that tree, mangles to the same symbol and is printed, in
    whatever state the context is. *)
Theorem demangle_remangles cs :
  Forall mangleable cs -> Forall topLevel cs -> cs <> [] ->
  exists symbol, mangleNode (Some (mkNode K_Global NoPayload cs)) = Ok symbol
    /\ (Z.of_nat (length symbol) < 2 ^ 31 -> forall depth flags options s,
          testsRemangling flags -> result (demangle depth flags symbol options s) = Ok (Some symbol)).
Proof.
  intros Hcs Htop Hne. destruct (mangled_symbol_read cs Hcs Htop Hne) as (symbol & Hm & Hr).
  destruct (mangleNode_run cs Hcs) as (buf & _ & Hm' & _). rewrite Hm in Hm'. injection Hm' as Hbuf.
  exists symbol. split; [done|]. intros Hlt depth flags options s (Hre & He & Ht).
  unfold demangle. rewrite Hre, He, Ht. cbn [orb].
  assert (startswith symbol (lit "__") = false) as -> by by rewrite Hbuf.
  assert (isMangledName symbol s = Ok (true, s)) as Hp by by rewrite Hbuf.
  unfold bind, demangleSymbolAsNode, bind. rewrite Hp. destruct (Hr Hlt s) as [s' ->].
  by rewrite (testRemangle_same symbol buf).
Qed.

Lemma demangle_remangles_witness :
  result (demangle 0 remangleFlags (lit "$S5Views14ViewControllerC0B3KitE04makeC04view_ACSgAC_SaySiGtKF")
            defaultDemangleOptions newDemangler)
  = Ok (Some (lit "$S5Views14ViewControllerC0B3KitE04makeC04view_ACSgAC_SaySiGtKF")).
Proof.
  destruct (demangle_remangles [sampleFunction]) as (symbol & Hm & H).
  - apply Forall_cons_2; [exact sampleFunction_mangleable|apply Forall_nil_2].
  - apply Forall_cons_2; [by split|apply Forall_nil_2].
  - discriminate.
  - vm_compute in Hm. injection Hm as <-. apply (H eq_refl 0%nat remangleFlags defaultDemangleOptions newDemangler).
    by split_and!.
Defined.

(** ** Classifying *)

Lemma wp_isSwiftSymbol name (s : Demangler) (Q : bool -> Demangler -> Prop) :
  (forall b, Q b s) -> wp context_crash (isSwiftSymbol name) Q s.
Proof.
  intros HQ. unfold isSwiftSymbol. destruct (isOldFunctionTypeMangling name); [by apply wp_ret|].
  apply wp_bind. eapply wp_crash_mono; [by left|]. apply wp_getManglingPrefixLength. intros n _. by apply wp_ret.
Qed.

Lemma wp_thunk name s (Q : bool -> Demangler -> Prop) :
  (forall b s', thunkSymbol name = Ok b -> Q b s') -> wp context_crash (isThunkSymbol name) Q s.
Proof.
  intros HQ. pose proof (wp_isThunkSymbol name s) as Hw. unfold wp in *.
  pose proof (isThunkSymbol_any_state name newDemangler s) as Ha. unfold sameResult in Ha.
  destruct (isThunkSymbol name s) as [[b s']|c]; [|done]. by apply HQ.
Qed.

Lemma wp_thunkTarget name s b (Q : str -> Demangler -> Prop) :
  thunkSymbol name = Ok b -> (forall target s', (b = false -> target = []) -> Q target s') ->
  wp context_crash (getThunkTarget name) Q s.
Proof.
  intros Hb HQ. pose proof (getThunkTarget_cases name s) as Hc. rewrite Hb in Hc.
  pose proof (fun c => getThunkTarget_crash name s c) as He. unfold wp.
  destruct (getThunkTarget name s) as [[target s']|c]; [|by apply He]. apply HQ. intros ->.
  cbn in Hc.
  destruct (result (isMangledName name newDemangler)) as [[]|]; by injection Hc.
Qed.

Lemma wp_classify name pointer s : wp context_crash (classify name pointer) (fun _ _ => True) s.
Proof.
  unfold classify. apply wp_bind, wp_isSwiftSymbol. intros swift. apply wp_bind, wp_thunk. intros thunk s1 Ht.
  apply wp_bind, (wp_thunkTarget _ _ thunk); [done|]. intros target s2 Htarget.
  apply wp_bind. destruct thunk.
  - apply wp_ret, wp_bind. destruct pointer; [|by apply wp_ret].
    apply wp_bind. eapply wp_mono; [apply wp_hasSwiftCallingConvention|]. intros cc s3 _. by apply wp_ret.
  - rewrite Htarget by done. apply wp_bind, wp_assert; [done|]. apply wp_ret, wp_bind.
    destruct pointer; [|by apply wp_ret].
    apply wp_bind. eapply wp_mono; [apply wp_hasSwiftCallingConvention|]. intros cc s3 _. by apply wp_ret.
Qed.

(** C37. The assertion of [-classify] holds: a name that is no thunk has no thunk
    target. Classifying a name crashes only as demangling it does, whatever has
    become of its tree. *)
Theorem classify_safe name pointer s c :
  result (classify name pointer s) = Crash c -> context_crash c.
Proof. apply wp_crash with (Q := fun _ _ => True), wp_classify. Qed.

Lemma classify_safe_witness :
  result (classify (lit "$") None newDemangler) = Crash (OutOfRange "getManglingPrefixLength")
  /\ context_crash (OutOfRange "getManglingPrefixLength").
Proof.
  split; [reflexivity|]. apply (classify_safe (lit "$") None newDemangler). reflexivity.
Defined.
