(* ===== verification/Conformance.v ===== *)
(** * The demangler's own tests

    The names of test/Demangle/Inputs with the texts that the tests expect of
    swift-demangle, and that the model of the tool gives these texts: demanglers,
    printer, context and remangler together. Left out are the five lines in which
    the tool's regular expression finds no symbol. *)

From Stdlib Require Import String.
From S2P Require Import Prelude Nodes ManglingUtils Remangler Demangler NodePrinter OldDemangler DemanglingContext NodeDumper SwiftDemangle.

(** Characters that are not in a string literal. *)
Definition bytes (l : list Z) : str := map chr l.

(** manglings.txt *)
Definition manglings : list (str * str) := [
  (lit "_TtBf80_",
   lit "Builtin.Float80");
  (lit "_TtBi32_",
   lit "Builtin.Int32");
  (lit "_TtBw",
   lit "Builtin.Word");
  (lit "_TtBO",
   lit "Builtin.UnknownObject");
  (lit "_TtBo",
   lit "Builtin.NativeObject");
  (lit "_TtBp",
   lit "Builtin.RawPointer");
  (lit "_TtBt",
   lit "Builtin.SILToken");
  (lit "_TtBv4Bi8_",
   lit "Builtin.Vec4xInt8");
  (lit "_TtBv4Bf16_",
   lit "Builtin.Vec4xFloat16");
  (lit "_TtBv4Bp",
   lit "Builtin.Vec4xRawPointer");
  (lit "_TtSa",
   lit "Swift.Array");
  (lit "_TtSb",
   lit "Swift.Bool");
  (lit "_TtSc",
   lit "Swift.UnicodeScalar");
  (lit "_TtSd",
   lit "Swift.Double");
  (lit "_TtSf",
   lit "Swift.Float");
  (lit "_TtSi",
   lit "Swift.Int");
  (lit "_TtSq",
   lit "Swift.Optional");
  (lit "_TtSS",
   lit "Swift.String");
  (lit "_TtSu",
   lit "Swift.UInt");
  (lit "_TtGSPSi_",
   lit "Swift.UnsafePointer<Swift.Int>");
  (lit "_TtGSpSi_",
   lit "Swift.UnsafeMutablePointer<Swift.Int>");
  (lit "_TtSV",
   lit "Swift.UnsafeRawPointer");
  (lit "_TtSv",
   lit "Swift.UnsafeMutableRawPointer");
  (lit "_TtGSaSS_",
   lit "[Swift.String]");
  (lit "_TtGSqSS_",
   lit "Swift.String?");
  (lit "_TtGSQSS_",
   lit "Swift.String!");
  (lit "_TtGVs10DictionarySSSi_",
   lit "[Swift.String : Swift.Int]");
  (lit "_TtVs7CString",
   lit "Swift.CString");
  (lit "_TtCSo8NSObject",
   lit "__C.NSObject");
  (lit "_TtO6Monads6Either",
   lit "Monads.Either");
  (lit "_TtbSiSu",
   lit "@convention(block) (Swift.Int) -> Swift.UInt");
  (lit "_TtcSiSu",
   lit "@convention(c) (Swift.Int) -> Swift.UInt");
  (lit "_TtbTSiSc_Su",
   lit "@convention(block) (Swift.Int, Swift.UnicodeScalar) -> Swift.UInt");
  (lit "_TtcTSiSc_Su",
   lit "@convention(c) (Swift.Int, Swift.UnicodeScalar) -> Swift.UInt");
  (lit "_TtFSiSu",
   lit "(Swift.Int) -> Swift.UInt");
  (lit "_TtKSiSu",
   lit "@autoclosure (Swift.Int) -> Swift.UInt");
  (lit "_TtFSiFScSu",
   lit "(Swift.Int) -> (Swift.UnicodeScalar) -> Swift.UInt");
  (lit "_TtMSi",
   lit "Swift.Int.Type");
  (lit "_TtP_",
   lit "Any");
  (lit "_TtP3foo3bar_",
   lit "foo.bar");
  (lit "_TtP3foo3barS_3bas_",
   lit "foo.bar & foo.bas");
  (lit "_TtTP3foo3barS_3bas_PS1__PS1_S_3zimS0___",
   lit "(foo.bar & foo.bas, foo.bas, foo.bas & foo.zim & foo.bar)");
  (lit "_TtRSi",
   lit "inout Swift.Int");
  (lit "_TtTSiSu_",
   lit "(Swift.Int, Swift.UInt)");
  (lit "_TttSiSu_",
   lit "(Swift.Int, Swift.UInt...)");
  (lit "_TtT3fooSi3barSu_",
   lit "(foo: Swift.Int, bar: Swift.UInt)");
  (lit "_TturFxx",
   lit "<A>(A) -> A");
  (lit "_TtuzrFT_T_",
   lit "<>() -> ()");
  (lit "_Ttu__rFxqd__",
   lit "<A><A1>(A) -> A1");
  (lit "_Ttu_z_rFxqd0__",
   lit "<A><><A2>(A) -> A2");
  (lit "_Ttu0_rFxq_",
   lit "<A, B>(A) -> B");
  (lit "_TtuRxs8RunciblerFxwx5Mince",
   lit "<A where A: Swift.Runcible>(A) -> A.Mince");
  (lit "_TtuRxle64xs8RunciblerFxwx5Mince",
   lit "<A where A: _Trivial(64), A: Swift.Runcible>(A) -> A.Mince");
  (lit "_TtuRxlE64_16rFxwx5Mince",
   lit "<A where A: _Trivial(64, 16)>(A) -> A.Mince");
  (lit "_TtuRxlE64_32xs8RunciblerFxwx5Mince",
   lit "<A where A: _Trivial(64, 32), A: Swift.Runcible>(A) -> A.Mince");
  (lit "_TtuRxlM64_16rFxwx5Mince",
   lit "<A where A: _TrivialAtMost(64, 16)>(A) -> A.Mince");
  (lit "_TtuRxle64rFxwx5Mince",
   lit "<A where A: _Trivial(64)>(A) -> A.Mince");
  (lit "_TtuRxlm64rFxwx5Mince",
   lit "<A where A: _TrivialAtMost(64)>(A) -> A.Mince");
  (lit "_TtuRxlNrFxwx5Mince",
   lit "<A where A: _NativeRefCountedObject>(A) -> A.Mince");
  (lit "_TtuRxlRrFxwx5Mince",
   lit "<A where A: _RefCountedObject>(A) -> A.Mince");
  (lit "_TtuRxlUrFxwx5Mince",
   lit "<A where A: _UnknownLayout>(A) -> A.Mince");
  (lit "_TtuRxs8RunciblerFxWx5Mince6Quince_",
   lit "<A where A: Swift.Runcible>(A) -> A.Mince.Quince");
  (lit "_TtuRxs8Runciblexs8FungiblerFxwxPS_5Mince",
   lit "<A where A: Swift.Runcible, A: Swift.Fungible>(A) -> A.Mince");
  (lit "_TtuRxCs22AbstractRuncingFactoryrFxx",
   lit "<A where A: Swift.AbstractRuncingFactory>(A) -> A");
  (lit "_TtuRxs8Runciblewx5MincezxrFxx",
   lit "<A where A: Swift.Runcible, A.Mince == A>(A) -> A");
  (lit "_TtuRxs8RuncibleWx5Mince6Quince_zxrFxx",
   lit "<A where A: Swift.Runcible, A.Mince.Quince == A>(A) -> A");
  (lit "_Ttu0_Rxs8Runcible_S_wx5Minces8Fungiblew_S0_S1_rFxq_",
   lit "<A, B where A: Swift.Runcible, B: Swift.Runcible, A.Mince: Swift.Fungible, B.Mince: Swift.Fungible>(A) -> B");
  (lit "_Ttu0_Rx3Foo3BarxCS_3Bas_S0__S1_rT_",
   lit "<A, B where A: Foo.Bar, A: Foo.Bas, B: Foo.Bar, B: Foo.Bas> ()");
  (lit "_Tv3foo3barSi",
   lit "foo.bar : Swift.Int");
  (lit "_TF3fooau3barSi",
   lit "foo.bar.unsafeMutableAddressor : Swift.Int");
  (lit "_TF3foolu3barSi",
   lit "foo.bar.unsafeAddressor : Swift.Int");
  (lit "_TF3fooaO3barSi",
   lit "foo.bar.owningMutableAddressor : Swift.Int");
  (lit "_TF3foolO3barSi",
   lit "foo.bar.owningAddressor : Swift.Int");
  (lit "_TF3fooao3barSi",
   lit "foo.bar.nativeOwningMutableAddressor : Swift.Int");
  (lit "_TF3foolo3barSi",
   lit "foo.bar.nativeOwningAddressor : Swift.Int");
  (lit "_TF3fooap3barSi",
   lit "foo.bar.nativePinningMutableAddressor : Swift.Int");
  (lit "_TF3foolp3barSi",
   lit "foo.bar.nativePinningAddressor : Swift.Int");
  (lit "_TF3foog3barSi",
   lit "foo.bar.getter : Swift.Int");
  (lit "_TF3foos3barSi",
   lit "foo.bar.setter : Swift.Int");
  (lit "_TFC3foo3bar3basfT3zimCS_3zim_T_",
   lit "foo.bar.bas(zim: foo.zim) -> ()");
  (lit "_TToFC3foo3bar3basfT3zimCS_3zim_T_",
   lit "{T:_TFC3foo3bar3basfT3zimCS_3zim_T_,C} @objc foo.bar.bas(zim: foo.zim) -> ()");
  (lit "_TTOFSC3fooFTSdSd_Sd",
   lit "{T:_TFSC3fooFTSdSd_Sd} @nonobjc __C_Synthesized.foo(Swift.Double, Swift.Double) -> Swift.Double");
  (lit "_T03foo3barC3basyAA3zimCAE_tFTo",
   lit "{T:_T03foo3barC3basyAA3zimCAE_tF,C} @objc foo.bar.bas(zim: foo.zim) -> ()");
  (lit "_T0SC3fooS2d_SdtFTO",
   lit "{T:_T0SC3fooS2d_SdtF} @nonobjc __C_Synthesized.foo(Swift.Double, Swift.Double) -> Swift.Double");
  (lit "__$S3foo3barC3bas3zimyAaEC_tFTo",
   lit "{T:_$S3foo3barC3bas3zimyAaEC_tF,C} @objc foo.bar.bas(zim: foo.zim) -> ()");
  (lit "__$SSC3fooyS2d_SdtFTO",
   lit "{T:_$SSC3fooyS2d_SdtF} @nonobjc __C_Synthesized.foo(Swift.Double, Swift.Double) -> Swift.Double");
  (lit "_$S3foo3barC3bas3zimyAaEC_tFTo",
   lit "{T:_$S3foo3barC3bas3zimyAaEC_tF,C} @objc foo.bar.bas(zim: foo.zim) -> ()");
  (lit "_$SSC3fooyS2d_SdtFTO",
   lit "{T:_$SSC3fooyS2d_SdtF} @nonobjc __C_Synthesized.foo(Swift.Double, Swift.Double) -> Swift.Double");
  (lit "$S3foo3barC3bas3zimyAaEC_tFTo",
   lit "{T:$S3foo3barC3bas3zimyAaEC_tF,C} @objc foo.bar.bas(zim: foo.zim) -> ()");
  (lit "$SSC3fooyS2d_SdtFTO",
   lit "{T:$SSC3fooyS2d_SdtF} @nonobjc __C_Synthesized.foo(Swift.Double, Swift.Double) -> Swift.Double");
  (lit "_TTDFC3foo3bar3basfT3zimCS_3zim_T_",
   lit "dynamic foo.bar.bas(zim: foo.zim) -> ()");
  (lit "_TFC3foo3bar3basfT3zimCS_3zim_T_",
   lit "foo.bar.bas(zim: foo.zim) -> ()");
  (lit "_TF3foooi1pFTCS_3barVS_3bas_OS_3zim",
   lit "foo.+ infix(foo.bar, foo.bas) -> foo.zim");
  (lit "_TF3foooP1xFTCS_3barVS_3bas_OS_3zim",
   lit "foo.^ postfix(foo.bar, foo.bas) -> foo.zim");
  (lit "_TFC3foo3barCfT_S0_",
   lit "foo.bar.__allocating_init() -> foo.bar");
  (lit "_TFC3foo3barcfT_S0_",
   lit "foo.bar.init() -> foo.bar");
  (lit "_TFC3foo3barD",
   lit "foo.bar.__deallocating_deinit");
  (lit "_TFC3foo3bard",
   lit "foo.bar.deinit");
  (lit "_TMPC3foo3bar",
   lit "generic type metadata pattern for foo.bar");
  (lit "_TMnC3foo3bar",
   lit "nominal type descriptor for foo.bar");
  (lit "_TMmC3foo3bar",
   lit "metaclass for foo.bar");
  (lit "_TMC3foo3bar",
   lit "type metadata for foo.bar");
  (lit "_TMfC3foo3bar",
   lit "full type metadata for foo.bar");
  (lit "_TwalC3foo3bar",
   lit "{C} allocateBuffer value witness for foo.bar");
  (lit "_TwcaC3foo3bar",
   lit "{C} assignWithCopy value witness for foo.bar");
  (lit "_TwtaC3foo3bar",
   lit "{C} assignWithTake value witness for foo.bar");
  (lit "_TwdeC3foo3bar",
   lit "{C} deallocateBuffer value witness for foo.bar");
  (lit "_TwxxC3foo3bar",
   lit "{C} destroy value witness for foo.bar");
  (lit "_TwXXC3foo3bar",
   lit "{C} destroyBuffer value witness for foo.bar");
  (lit "_TwCPC3foo3bar",
   lit "{C} initializeBufferWithCopyOfBuffer value witness for foo.bar");
  (lit "_TwCpC3foo3bar",
   lit "{C} initializeBufferWithCopy value witness for foo.bar");
  (lit "_TwcpC3foo3bar",
   lit "{C} initializeWithCopy value witness for foo.bar");
  (lit "_TwTKC3foo3bar",
   lit "{C} initializeBufferWithTakeOfBuffer value witness for foo.bar");
  (lit "_TwTkC3foo3bar",
   lit "{C} initializeBufferWithTake value witness for foo.bar");
  (lit "_TwtkC3foo3bar",
   lit "{C} initializeWithTake value witness for foo.bar");
  (lit "_TwprC3foo3bar",
   lit "{C} projectBuffer value witness for foo.bar");
  (lit "_TWVC3foo3bar",
   lit "value witness table for foo.bar");
  (lit "_TWvdvC3foo3bar3basSi",
   lit "direct field offset for foo.bar.bas : Swift.Int");
  (lit "_TWvivC3foo3bar3basSi",
   lit "indirect field offset for foo.bar.bas : Swift.Int");
  (lit "_TWPC3foo3barS_8barrables",
   lit "protocol witness table for foo.bar : foo.barrable in Swift");
  (lit "_TWaC3foo3barS_8barrableS_",
   lit "{C} protocol witness table accessor for foo.bar : foo.barrable in foo");
  (lit "_TWlC3foo3barS0_S_8barrableS_",
   lit "{C} lazy protocol witness table accessor for type foo.bar and conformance foo.bar : foo.barrable in foo");
  (lit "_TWLC3foo3barS0_S_8barrableS_",
   lit "lazy protocol witness table cache variable for type foo.bar and conformance foo.bar : foo.barrable in foo");
  (lit "_TWGC3foo3barS_8barrableS_",
   lit "generic protocol witness table for foo.bar : foo.barrable in foo");
  (lit "_TWIC3foo3barS_8barrableS_",
   lit "{C} instantiation function for generic protocol witness table for foo.bar : foo.barrable in foo");
  (lit "_TWtC3foo3barS_8barrableS_4fred",
   lit "{C} associated type metadata accessor for fred in foo.bar : foo.barrable in foo");
  (lit "_TWTC3foo3barS_8barrableS_4fredS_6thomas",
   lit "{C} associated type witness table accessor for fred : foo.thomas in foo.bar : foo.barrable in foo");
  (lit "_TFSCg5greenVSC5Color",
   lit "__C_Synthesized.green.getter : __C_Synthesized.Color");
  (lit "_TIF1t1fFT1iSi1sSS_T_A_",
   lit "default argument 0 of t.f(i: Swift.Int, s: Swift.String) -> ()");
  (lit "_TIF1t1fFT1iSi1sSS_T_A0_",
   lit "default argument 1 of t.f(i: Swift.Int, s: Swift.String) -> ()");
  (lit "_TFSqcfT_GSqx_",
   lit "Swift.Optional.init() -> A?");
  (lit "_TF21class_bound_protocols32class_bound_protocol_compositionFT1xPS_10ClassBoundS_13NotClassBound__PS0_S1__",
   lit "class_bound_protocols.class_bound_protocol_composition(x: class_bound_protocols.ClassBound & class_bound_protocols.NotClassBound) -> class_bound_protocols.ClassBound & class_bound_protocols.NotClassBound");
  (lit "_TtZZ",
   lit "_TtZZ");
  (lit "_TtB",
   lit "_TtB");
  (lit "_TtBSi",
   lit "_TtBSi");
  (lit "_TtBx",
   lit "_TtBx");
  (lit "_TtC",
   lit "_TtC");
  (lit "_TtT",
   lit "_TtT");
  (lit "_TtTSi",
   lit "_TtTSi");
  (lit "_TtQd_",
   lit "_TtQd_");
  (lit "_TtU__FQo_Si",
   lit "_TtU__FQo_Si");
  (lit "_TtU__FQD__Si",
   lit "_TtU__FQD__Si");
  (lit "_TtU___FQ_U____FQd0__T_",
   lit "_TtU___FQ_U____FQd0__T_");
  (lit "_TtU___FQ_U____FQd_1_T_",
   lit "_TtU___FQ_U____FQd_1_T_");
  (lit "_TtU___FQ_U____FQ2_T_",
   lit "_TtU___FQ_U____FQ2_T_");
  (lit "_Tw",
   lit "_Tw");
  (lit "_TWa",
   lit "_TWa");
  (lit "_Twal",
   lit "_Twal");
  (lit "_T",
   lit "_T");
  (lit "_TTo",
   lit "{T:_T} _TTo");
  (lit "_TC",
   lit "_TC");
  (lit "_TM",
   lit "_TM");
  (lit "_TM",
   lit "_TM");
  (lit "_TW",
   lit "_TW");
  (lit "_TWV",
   lit "_TWV");
  (lit "_TWo",
   lit "_TWo");
  (lit "_TWv",
   lit "_TWv");
  (lit "_TWvd",
   lit "_TWvd");
  (lit "_TWvi",
   lit "_TWvi");
  (lit "_TWvx",
   lit "_TWvx");
  (lit "_TtVCC4main3Foo4Ding3Str",
   lit "main.Foo.Ding.Str");
  (lit "_TFVCC6nested6AClass12AnotherClass7AStruct9aFunctionfT1aSi_S2_",
   lit "nested.AClass.AnotherClass.AStruct.aFunction(a: Swift.Int) -> nested.AClass.AnotherClass.AStruct");
  (lit "_TtXwC10attributes10SwiftClass",
   lit "weak attributes.SwiftClass");
  (lit "_TtXoC10attributes10SwiftClass",
   lit "unowned attributes.SwiftClass");
  (lit "_TtERR",
   lit "<ERROR TYPE>");
  (lit "_TtGSqGSaC5sugar7MyClass__",
   lit "[sugar.MyClass]?");
  (lit "_TtGSaGSqC5sugar7MyClass__",
   lit "[sugar.MyClass?]");
  (lit "_TtaC9typealias5DWARF9DIEOffset",
   lit "typealias.DWARF.DIEOffset");
  (lit "_Tta1t5Alias",
   lit "t.Alias");
  (lit "_Ttas3Int",
   lit "Swift.Int");
  (lit "_TTRXFo_dSc_dSb_XFo_iSc_iSb_",
   lit "reabstraction thunk helper from @callee_owned (@unowned Swift.UnicodeScalar) -> (@unowned Swift.Bool) to @callee_owned (@in Swift.UnicodeScalar) -> (@out Swift.Bool)");
  (lit "_TTRXFo_dSi_dGSqSi__XFo_iSi_iGSqSi__",
   lit "reabstraction thunk helper from @callee_owned (@unowned Swift.Int) -> (@unowned Swift.Int?) to @callee_owned (@in Swift.Int) -> (@out Swift.Int?)");
  (lit "_TTRGrXFo_iV18switch_abstraction1A_ix_XFo_dS0__ix_",
   lit "reabstraction thunk helper <A> from @callee_owned (@in switch_abstraction.A) -> (@out A) to @callee_owned (@unowned switch_abstraction.A) -> (@out A)");
  (lit "_TFCF5types1gFT1bSb_T_L0_10Collection3zimfT_T_",
   lit "zim() -> () in Collection #2 in types.g(b: Swift.Bool) -> ()");
  (lit "_TFF17capture_promotion22test_capture_promotionFT_FT_SiU_FT_Si_promote0",
   lit "closure #1 () -> Swift.Int in capture_promotion.test_capture_promotion() -> () -> Swift.Int with unmangled suffix " ++ bytes [34] ++ lit "_promote0" ++ bytes [34]);
  (lit "_TFIVs8_Processi10_argumentsGSaSS_U_FT_GSaSS_",
   lit "_arguments : [Swift.String] in variable initialization expression of Swift._Process with unmangled suffix " ++ bytes [34] ++ lit "U_FT_GSaSS_" ++ bytes [34]);
  (lit "_TFIvVs8_Process10_argumentsGSaSS_iU_FT_GSaSS_",
   lit "closure #1 () -> [Swift.String] in variable initialization expression of Swift._Process._arguments : [Swift.String]");
  (lit "_TFCSo1AE",
   lit "__C.A.__ivar_destroyer");
  (lit "_TFCSo1Ae",
   lit "__C.A.__ivar_initializer");
  (lit "_TTWC13call_protocol1CS_1PS_FS1_3foofT_Si",
   lit "protocol witness for call_protocol.P.foo() -> Swift.Int in conformance call_protocol.C : call_protocol.P in call_protocol");
  (lit "_T013call_protocol1CCAA1PA2aDP3fooSiyFTW",
   lit "{T:} protocol witness for call_protocol.P.foo() -> Swift.Int in conformance call_protocol.C : call_protocol.P in call_protocol");
  (lit "_TFC12dynamic_self1X1ffT_DS0_",
   lit "dynamic_self.X.f() -> Self");
  (lit "_TTSg5Si___TFSqcfT_GSqx_",
   lit "generic specialization <Swift.Int> of Swift.Optional.init() -> A?");
  (lit "_TTSgq5Si___TFSqcfT_GSqx_",
   lit "generic specialization <preserving fragile attribute, Swift.Int> of Swift.Optional.init() -> A?");
  (lit "_TTSg5SiSis3Foos_Sf___TFSqcfT_GSqx_",
   lit "generic specialization <Swift.Int with Swift.Int : Swift.Foo in Swift, Swift.Float> of Swift.Optional.init() -> A?");
  (lit "_TTSg5Si_Sf___TFSqcfT_GSqx_",
   lit "generic specialization <Swift.Int, Swift.Float> of Swift.Optional.init() -> A?");
  (lit "_TTSg5Si_Sf___TFSqcfT_GSqx_",
   lit "generic specialization <Swift.Int, Swift.Float> of Swift.Optional.init() -> A?");
  (lit "_TTSgS",
   lit "_TTSgS");
  (lit "_TTSg5S",
   lit "_TTSg5S");
  (lit "_TTSgSi",
   lit "_TTSgSi");
  (lit "_TTSg5Si",
   lit "_TTSg5Si");
  (lit "_TTSgSi_",
   lit "_TTSgSi_");
  (lit "_TTSgSi__",
   lit "_TTSgSi__");
  (lit "_TTSgSiS_",
   lit "_TTSgSiS_");
  (lit "_TTSgSi__xyz",
   lit "_TTSgSi__xyz");
  (lit "_TTSr5Si___TF4test7genericurFxx",
   lit "generic not re-abstracted specialization <Swift.Int> of test.generic<A>(A) -> A");
  (lit "_TTSrq5Si___TF4test7genericurFxx",
   lit "generic not re-abstracted specialization <preserving fragile attribute, Swift.Int> of test.generic<A>(A) -> A");
  (lit "_TPA__TTRXFo_oSSoSS_dSb_XFo_iSSiSS_dSb_",
   lit "{T:_TTRXFo_oSSoSS_dSb_XFo_iSSiSS_dSb_} partial apply forwarder for reabstraction thunk helper from @callee_owned (@owned Swift.String, @owned Swift.String) -> (@unowned Swift.Bool) to @callee_owned (@in Swift.String, @in Swift.String) -> (@unowned Swift.Bool)");
  (lit "_TPAo__TTRGrXFo_dGSPx__dGSPx_zoPs5Error__XFo_iGSPx__iGSPx_zoPS___",
   lit "{T:_TTRGrXFo_dGSPx__dGSPx_zoPs5Error__XFo_iGSPx__iGSPx_zoPS___} partial apply ObjC forwarder for reabstraction thunk helper <A> from @callee_owned (@unowned Swift.UnsafePointer<A>) -> (@unowned Swift.UnsafePointer<A>, @error @owned Swift.Error) to @callee_owned (@in Swift.UnsafePointer<A>) -> (@out Swift.UnsafePointer<A>, @error @owned Swift.Error)");
  (lit "_T0S2SSbIxxxd_S2SSbIxiid_TRTA",
   lit "{T:_T0S2SSbIxxxd_S2SSbIxiid_TR} partial apply forwarder for reabstraction thunk helper from @callee_owned (@owned Swift.String, @owned Swift.String) -> (@unowned Swift.Bool) to @callee_owned (@in Swift.String, @in Swift.String) -> (@unowned Swift.Bool)");
  (lit "_T0SPyxGAAs5Error_pIxydzo_A2AsAB_pIxirzo_lTRTa",
   lit "{T:_T0SPyxGAAs5Error_pIxydzo_A2AsAB_pIxirzo_lTR} partial apply ObjC forwarder for reabstraction thunk helper <A> from @callee_owned (@unowned Swift.UnsafePointer<A>) -> (@unowned Swift.UnsafePointer<A>, @error @owned Swift.Error) to @callee_owned (@in Swift.UnsafePointer<A>) -> (@out Swift.UnsafePointer<A>, @error @owned Swift.Error)");
  (lit "_TiC4Meow5MyCls9subscriptFT1iSi_Sf",
   lit "Meow.MyCls.subscript(i: Swift.Int) -> Swift.Float");
  (lit "_TF8manglingX22egbpdajGbuEbxfgehfvwxnFT_T_",
   lit "mangling." ++ bytes [217; 132; 217; 138; 217; 135; 217; 133; 216; 167; 216; 168; 216; 170; 217; 131; 217; 132; 217; 133; 217; 136; 216; 180; 216; 185; 216; 177; 216; 168; 217; 138; 216; 159] ++ lit "() -> ()");
  (lit "_TF8manglingX24ihqwcrbEcvIaIdqgAFGpqjyeFT_T_",
   lit "mangling." ++ bytes [228; 187; 150; 228; 187; 172; 228; 184; 186; 228; 187; 128; 228; 185; 136; 228; 184; 141; 232; 175; 180; 228; 184; 173; 230; 150; 135] ++ lit "() -> ()");
  (lit "_TF8manglingX27ihqwctvzcJBfGFJdrssDxIboAybFT_T_",
   lit "mangling." ++ bytes [228; 187; 150; 229; 128; 145; 231; 136; 178; 228; 187; 128; 233; 186; 189; 228; 184; 141; 232; 170; 170; 228; 184; 173; 230; 150; 135] ++ lit "() -> ()");
  (lit "_TF8manglingX30Proprostnemluvesky_uybCEdmaEBaFT_T_",
   lit "mangling.Pro" ++ bytes [196; 141] ++ lit "prost" ++ bytes [196; 155] ++ lit "nemluv" ++ bytes [195; 173; 196; 141] ++ lit "esky() -> ()");
  (lit "_TF8manglingXoi7p_qcaDcFTSiSi_Si",
   lit "mangling." ++ bytes [194; 171] ++ lit "+" ++ bytes [194; 187] ++ lit " infix(Swift.Int, Swift.Int) -> Swift.Int");
  (lit "_TF8manglingoi2qqFTSiSi_T_",
   lit "mangling.?? infix(Swift.Int, Swift.Int) -> ()");
  (lit "_TFE11ext_structAV11def_structA1A4testfT_T_",
   lit "(extension in ext_structA):def_structA.A.test() -> ()");
  (lit "_TF13devirt_accessP5_DISC15getPrivateClassFT_CS_P5_DISC12PrivateClass",
   lit "devirt_access.(getPrivateClass in _DISC)() -> devirt_access.(PrivateClass in _DISC)");
  (lit "_TF4mainP5_mainX3wxaFT_T_",
   lit "main.(" ++ bytes [206; 187] ++ lit " in _main)() -> ()");
  (lit "_TF4mainP5_main3abcFT_aS_P5_DISC3xyz",
   lit "main.(abc in _main)() -> main.(xyz in _DISC)");
  (lit "_TtPMP_",
   lit "Any.Type");
  (lit "_TFCs13_NSSwiftArray29canStoreElementsOfDynamicTypefPMP_Sb",
   lit "Swift._NSSwiftArray.canStoreElementsOfDynamicType(Any.Type) -> Swift.Bool");
  (lit "_TFCs13_NSSwiftArrayg17staticElementTypePMP_",
   lit "Swift._NSSwiftArray.staticElementType.getter : Any.Type");
  (lit "_TFCs17_DictionaryMirrorg9valueTypePMP_",
   lit "Swift._DictionaryMirror.valueType.getter : Any.Type");
  (lit "_TTSf1cl35_TFF7specgen6callerFSiT_U_FTSiSi_T_Si___TF7specgen12take_closureFFTSiSi_T_T_",
   lit "function signature specialization <Arg[0] = [Closure Propagated : closure #1 (Swift.Int, Swift.Int) -> () in specgen.caller(Swift.Int) -> (), Argument Types : [Swift.Int]> of specgen.take_closure((Swift.Int, Swift.Int) -> ()) -> ()");
  (lit "_TTSfq1cl35_TFF7specgen6callerFSiT_U_FTSiSi_T_Si___TF7specgen12take_closureFFTSiSi_T_T_",
   lit "function signature specialization <preserving fragile attribute, Arg[0] = [Closure Propagated : closure #1 (Swift.Int, Swift.Int) -> () in specgen.caller(Swift.Int) -> (), Argument Types : [Swift.Int]> of specgen.take_closure((Swift.Int, Swift.Int) -> ()) -> ()");
  (lit "_TTSf1cl35_TFF7specgen6callerFSiT_U_FTSiSi_T_Si___TTSg5Si___TF7specgen12take_closureFFTSiSi_T_T_",
   lit "function signature specialization <Arg[0] = [Closure Propagated : closure #1 (Swift.Int, Swift.Int) -> () in specgen.caller(Swift.Int) -> (), Argument Types : [Swift.Int]> of generic specialization <Swift.Int> of specgen.take_closure((Swift.Int, Swift.Int) -> ()) -> ()");
  (lit "_TTSg5Si___TTSf1cl35_TFF7specgen6callerFSiT_U_FTSiSi_T_Si___TF7specgen12take_closureFFTSiSi_T_T_",
   lit "generic specialization <Swift.Int> of function signature specialization <Arg[0] = [Closure Propagated : closure #1 (Swift.Int, Swift.Int) -> () in specgen.caller(Swift.Int) -> (), Argument Types : [Swift.Int]> of specgen.take_closure((Swift.Int, Swift.Int) -> ()) -> ()");
  (lit "_TTSf1cpfr24_TF8capturep6helperFSiT__n___TTRXFo_dSi_dT__XFo_iSi_dT__",
   lit "function signature specialization <Arg[0] = [Constant Propagated Function : capturep.helper(Swift.Int) -> ()]> of reabstraction thunk helper from @callee_owned (@unowned Swift.Int) -> (@unowned ()) to @callee_owned (@in Swift.Int) -> (@unowned ())");
  (lit "_TTSf1cpfr24_TF8capturep6helperFSiT__n___TTRXFo_dSi_DT__XFo_iSi_DT__",
   lit "function signature specialization <Arg[0] = [Constant Propagated Function : capturep.helper(Swift.Int) -> ()]> of reabstraction thunk helper from @callee_owned (@unowned Swift.Int) -> (@unowned_inner_pointer ()) to @callee_owned (@in Swift.Int) -> (@unowned_inner_pointer ())");
  (lit "_TTSf1cpi0_cpfl0_cpse0v4u123_cpg53globalinit_33_06E7F1D906492AE070936A9B58CBAE1C_token8_cpfr36_TFtest_capture_propagation2_closure___TF7specgen12take_closureFFTSiSi_T_T_",
   lit "function signature specialization <Arg[0] = [Constant Propagated Integer : 0], Arg[1] = [Constant Propagated Float : 0], Arg[2] = [Constant Propagated String : u8'u123'], Arg[3] = [Constant Propagated Global : globalinit_33_06E7F1D906492AE070936A9B58CBAE1C_token8], Arg[4] = [Constant Propagated Function : _TFtest_capture_propagation2_closure]> of specgen.take_closure((Swift.Int, Swift.Int) -> ()) -> ()");
  (lit "_TTSf0gs___TFVs11_StringCore15_invariantCheckfT_T_",
   lit "function signature specialization <Arg[0] = Owned To Guaranteed and Exploded> of Swift._StringCore._invariantCheck() -> ()");
  (lit "_TTSf2g___TTSf2s_d___TFVs11_StringCoreCfVs13_StringBufferS_",
   lit "function signature specialization <Arg[0] = Owned To Guaranteed> of function signature specialization <Arg[0] = Exploded, Arg[1] = Dead> of Swift._StringCore.init(Swift._StringBuffer) -> Swift._StringCore");
  (lit "_TTSf2dg___TTSf2s_d___TFVs11_StringCoreCfVs13_StringBufferS_",
   lit "function signature specialization <Arg[0] = Dead and Owned To Guaranteed> of function signature specialization <Arg[0] = Exploded, Arg[1] = Dead> of Swift._StringCore.init(Swift._StringBuffer) -> Swift._StringCore");
  (lit "_TTSf2dgs___TTSf2s_d___TFVs11_StringCoreCfVs13_StringBufferS_",
   lit "function signature specialization <Arg[0] = Dead and Owned To Guaranteed and Exploded> of function signature specialization <Arg[0] = Exploded, Arg[1] = Dead> of Swift._StringCore.init(Swift._StringBuffer) -> Swift._StringCore");
  (lit "_TTSf3d_i_d_i_d_i___TFVs11_StringCoreCfVs13_StringBufferS_",
   lit "function signature specialization <Arg[0] = Dead, Arg[1] = Value Promoted from Box, Arg[2] = Dead, Arg[3] = Value Promoted from Box, Arg[4] = Dead, Arg[5] = Value Promoted from Box> of Swift._StringCore.init(Swift._StringBuffer) -> Swift._StringCore");
  (lit "_TTSf3d_i_n_i_d_i___TFVs11_StringCoreCfVs13_StringBufferS_",
   lit "function signature specialization <Arg[0] = Dead, Arg[1] = Value Promoted from Box, Arg[3] = Value Promoted from Box, Arg[4] = Dead, Arg[5] = Value Promoted from Box> of Swift._StringCore.init(Swift._StringBuffer) -> Swift._StringCore");
  (lit "_TFIZvV8mangling10HasVarInit5stateSbiu_KT_Sb",
   lit "implicit closure #1 : @autoclosure () -> Swift.Bool in variable initialization expression of static mangling.HasVarInit.state : Swift.Bool");
  (lit "_TFFV23interface_type_mangling18GenericTypeContext23closureInGenericContexturFqd__T_L_3fooFTqd__x_T_",
   lit "foo #1 (A1, A) -> () in interface_type_mangling.GenericTypeContext.closureInGenericContext<A>(A1) -> ()");
  (lit "_TFFV23interface_type_mangling18GenericTypeContextg31closureInGenericPropertyContextxL_3fooFT_x",
   lit "foo #1 () -> A in interface_type_mangling.GenericTypeContext.closureInGenericPropertyContext.getter : A");
  (lit "_TTWurGV23interface_type_mangling18GenericTypeContextx_S_18GenericWitnessTestS_FS1_23closureInGenericContextuRxS1_rfqd__T_",
   lit "protocol witness for interface_type_mangling.GenericWitnessTest.closureInGenericContext<A where A: interface_type_mangling.GenericWitnessTest>(A1) -> () in conformance <A> interface_type_mangling.GenericTypeContext<A> : interface_type_mangling.GenericWitnessTest in interface_type_mangling");
  (lit "_TTWurGV23interface_type_mangling18GenericTypeContextx_S_18GenericWitnessTestS_FS1_g31closureInGenericPropertyContextwx3Tee",
   lit "protocol witness for interface_type_mangling.GenericWitnessTest.closureInGenericPropertyContext.getter : A.Tee in conformance <A> interface_type_mangling.GenericTypeContext<A> : interface_type_mangling.GenericWitnessTest in interface_type_mangling");
  (lit "_TTWurGV23interface_type_mangling18GenericTypeContextx_S_18GenericWitnessTestS_FS1_16twoParamsAtDepthu0_RxS1_rfTqd__1yqd_0__T_",
   lit "protocol witness for interface_type_mangling.GenericWitnessTest.twoParamsAtDepth<A, B where A: interface_type_mangling.GenericWitnessTest>(A1, y: B1) -> () in conformance <A> interface_type_mangling.GenericTypeContext<A> : interface_type_mangling.GenericWitnessTest in interface_type_mangling");
  (lit "_TFC3red11BaseClassEHcfzT1aSi_S0_",
   lit "red.BaseClassEH.init(a: Swift.Int) throws -> red.BaseClassEH");
  (lit "_TFe27mangling_generic_extensionsRxS_8RunciblerVS_3Foog1aSi",
   lit "(extension in mangling_generic_extensions):mangling_generic_extensions.Foo<A where A: mangling_generic_extensions.Runcible>.a.getter : Swift.Int");
  (lit "_TFe27mangling_generic_extensionsRxS_8RunciblerVS_3Foog1bx",
   lit "(extension in mangling_generic_extensions):mangling_generic_extensions.Foo<A where A: mangling_generic_extensions.Runcible>.b.getter : A");
  (lit "_TTRXFo_iT__iT_zoPs5Error__XFo__dT_zoPS___",
   lit "reabstraction thunk helper from @callee_owned (@in ()) -> (@out (), @error @owned Swift.Error) to @callee_owned () -> (@unowned (), @error @owned Swift.Error)");
  (lit "_TFE1a",
   lit "_TFE1a");
  (lit "_TF21$__lldb_module_for_E0au3$E0Ps5Error_",
   lit "$__lldb_module_for_E0.$E0.unsafeMutableAddressor : Swift.Error");
  (lit "_TMps10Comparable",
   lit "protocol descriptor for Swift.Comparable");
  (lit "_TFC4testP33_83378C430F65473055F1BD53F3ADCDB71C5doFoofT_T_",
   lit "test.(C in _83378C430F65473055F1BD53F3ADCDB7).doFoo() -> ()");
  (lit "_TFVV15nested_generics5Lunch6DinnerCfT11firstCoursex12secondCourseGSqqd___9leftoversx14transformationFxqd___GS1_x_qd___",
   lit "nested_generics.Lunch.Dinner.init(firstCourse: A, secondCourse: A1?, leftovers: A, transformation: (A) -> A1) -> nested_generics.Lunch<A>.Dinner<A1>");
  (lit "_TFVFC15nested_generics7HotDogs11applyRelishFT_T_L_6RelishCfT8materialx_GS1_x_",
   lit "init(material: A) -> Relish #1 in nested_generics.HotDogs.applyRelish() -> ()<A> in Relish #1 in nested_generics.HotDogs.applyRelish() -> ()");
  (lit "_TFVFE15nested_genericsSS3fooFT_T_L_6CheeseCfT8materialx_GS0_x_",
   lit "init(material: A) -> Cheese #1 in (extension in nested_generics):Swift.String.foo() -> ()<A> in Cheese #1 in (extension in nested_generics):Swift.String.foo() -> ()");
  (lit "_TTWOE5imojiCSo5Imoji14ImojiMatchRankS_9RankValueS_FS2_g9rankValueqq_Ss16RawRepresentable8RawValue",
   lit "_TTWOE5imojiCSo5Imoji14ImojiMatchRankS_9RankValueS_FS2_g9rankValueqq_Ss16RawRepresentable8RawValue");
  (lit "_TtFzas4VoidGC16FusionXBaseUtils6FutureQq_ZFVS_7Futures6futureurFFzT_GS0_x_GS0_x__",
   lit "_TtFzas4VoidGC16FusionXBaseUtils6FutureQq_ZFVS_7Futures6futureurFFzT_GS0_x_GS0_x__");
  (lit "_T0s17MutableCollectionP1asAARzs012RandomAccessB0RzsAA11SubSequences013BidirectionalB0PRpzsAdHRQlE06rotatecD05Indexs01_A9IndexablePQzAM15shiftingToStart_tFAJs01_J4BasePQzAQcfU_",
   lit "closure #1 (A.Index) -> A.Index in (extension in a):Swift.MutableCollection<A where A: Swift.MutableCollection, A: Swift.RandomAccessCollection, A.SubSequence: Swift.MutableCollection, A.SubSequence: Swift.RandomAccessCollection>.rotateRandomAccess(shiftingToStart: A.Index) -> A.Index");
  (lit "_$Ss17MutableCollectionP1asAARzs012RandomAccessB0RzsAA11SubSequences013BidirectionalB0PRpzsAdHRQlE06rotatecD015shiftingToStart5Indexs01_A9IndexablePQzAN_tFAKs01_M4BasePQzAQcfU_",
   lit "closure #1 (A.Index) -> A.Index in (extension in a):Swift.MutableCollection<A where A: Swift.MutableCollection, A: Swift.RandomAccessCollection, A.SubSequence: Swift.MutableCollection, A.SubSequence: Swift.RandomAccessCollection>.rotateRandomAccess(shiftingToStart: A.Index) -> A.Index");
  (lit "_T03foo4_123ABTf3psbpsb_n",
   lit "function signature specialization <Arg[0] = [Constant Propagated String : u8'123'], Arg[1] = [Constant Propagated String : u8'123']> of foo");
  (lit "_T04main5innerys5Int32Vz_yADctF25closure_with_box_argumentxz_Bi32__lXXTf1nc_n",
   lit "function signature specialization <Arg[1] = [Closure Propagated : closure_with_box_argument, Argument Types : [<A> { var A } <Builtin.Int32>]> of main.inner(inout Swift.Int32, (Swift.Int32) -> ()) -> ()");
  (lit "_$S4main5inneryys5Int32Vz_yADctF25closure_with_box_argumentxz_Bi32__lXXTf1nc_n",
   lit "function signature specialization <Arg[1] = [Closure Propagated : closure_with_box_argument, Argument Types : [<A> { var A } <Builtin.Int32>]> of main.inner(inout Swift.Int32, (Swift.Int32) -> ()) -> ()");
  (lit "_T03foo6testityyyc_yyctF1a1bTf3pfpf_n",
   lit "function signature specialization <Arg[0] = [Constant Propagated Function : a], Arg[1] = [Constant Propagated Function : b]> of foo.testit(() -> (), () -> ()) -> ()");
  (lit "_$S3foo6testityyyyc_yyctF1a1bTf3pfpf_n",
   lit "function signature specialization <Arg[0] = [Constant Propagated Function : a], Arg[1] = [Constant Propagated Function : b]> of foo.testit(() -> (), () -> ()) -> ()");
  (lit "_T0s10DictionaryV3t17E6Index2V1loiSbAEyxq__G_AGtFZ",
   lit "static (extension in t17):Swift.Dictionary.Index2.< infix((extension in t17):[A : B].Index2, (extension in t17):[A : B].Index2) -> Swift.Bool");
  (lit "_T08mangling14varargsVsArrayySi3arrd_SS1ntF",
   lit "mangling.varargsVsArray(arr: Swift.Int..., n: Swift.String) -> ()");
  (lit "_T08mangling14varargsVsArrayySaySiG3arr_SS1ntF",
   lit "mangling.varargsVsArray(arr: [Swift.Int], n: Swift.String) -> ()");
  (lit "_T08mangling14varargsVsArrayySaySiG3arrd_SS1ntF",
   lit "mangling.varargsVsArray(arr: [Swift.Int]..., n: Swift.String) -> ()");
  (lit "_T08mangling14varargsVsArrayySi3arrd_tF",
   lit "mangling.varargsVsArray(arr: Swift.Int...) -> ()");
  (lit "_T08mangling14varargsVsArrayySaySiG3arrd_tF",
   lit "mangling.varargsVsArray(arr: [Swift.Int]...) -> ()");
  (lit "_$Ss10DictionaryV3t17E6Index2V1loiySbAEyxq__G_AGtFZ",
   lit "static (extension in t17):Swift.Dictionary.Index2.< infix((extension in t17):[A : B].Index2, (extension in t17):[A : B].Index2) -> Swift.Bool");
  (lit "_$S8mangling14varargsVsArray3arr1nySid_SStF",
   lit "mangling.varargsVsArray(arr: Swift.Int..., n: Swift.String) -> ()");
  (lit "_$S8mangling14varargsVsArray3arr1nySaySiG_SStF",
   lit "mangling.varargsVsArray(arr: [Swift.Int], n: Swift.String) -> ()");
  (lit "_$S8mangling14varargsVsArray3arr1nySaySiGd_SStF",
   lit "mangling.varargsVsArray(arr: [Swift.Int]..., n: Swift.String) -> ()");
  (lit "_$S8mangling14varargsVsArray3arrySid_tF",
   lit "mangling.varargsVsArray(arr: Swift.Int...) -> ()");
  (lit "_$S8mangling14varargsVsArray3arrySaySiGd_tF",
   lit "mangling.varargsVsArray(arr: [Swift.Int]...) -> ()");
  (lit "_T0s13_UnicodeViewsVss22RandomAccessCollectionRzs0A8EncodingR_11SubSequence_5IndexQZAFRtzsAcERpzAE_AEQZAIRSs15UnsignedInteger8Iterator_7ElementRPzAE_AlMQZANRS13EncodedScalar_AlMQY_AORSr0_lE13CharacterViewVyxq__G",
   lit "(extension in Swift):Swift._UnicodeViews<A, B><A, B where A: Swift.RandomAccessCollection, B: Swift.UnicodeEncoding, A.Index == A.SubSequence.Index, A.SubSequence: Swift.RandomAccessCollection, A.SubSequence == A.SubSequence.SubSequence, A.Iterator.Element: Swift.UnsignedInteger, A.Iterator.Element == A.SubSequence.Iterator.Element, A.SubSequence.Iterator.Element == B.EncodedScalar.Iterator.Element>.CharacterView");
  (lit "_T010Foundation11MeasurementV12SimulatorKitSo9UnitAngleCRszlE11OrientationO2eeoiSbAcDEAGOyAF_G_AKtFZ",
   lit "static (extension in SimulatorKit):Foundation.Measurement<A where A == __C.UnitAngle>.Orientation.== infix((extension in SimulatorKit):Foundation.Measurement<__C.UnitAngle>.Orientation, (extension in SimulatorKit):Foundation.Measurement<__C.UnitAngle>.Orientation) -> Swift.Bool");
  (lit "_$S10Foundation11MeasurementV12SimulatorKitSo9UnitAngleCRszlE11OrientationO2eeoiySbAcDEAGOyAF_G_AKtFZ",
   lit "static (extension in SimulatorKit):Foundation.Measurement<A where A == __C.UnitAngle>.Orientation.== infix((extension in SimulatorKit):Foundation.Measurement<__C.UnitAngle>.Orientation, (extension in SimulatorKit):Foundation.Measurement<__C.UnitAngle>.Orientation) -> Swift.Bool");
  (lit "_T04main1_yyF",
   lit "main._() -> ()");
  (lit "_T04test6testitSiyt_tF",
   lit "test.testit(()) -> Swift.Int");
  (lit "_$S4test6testitySiyt_tF",
   lit "test.testit(()) -> Swift.Int");
  (lit "_T08_ElementQzSbs5Error_pIxxdzo_ABSbsAC_pIxidzo_s26RangeReplaceableCollectionRzABRLClTR",
   lit "{T:} reabstraction thunk helper <A where A: Swift.RangeReplaceableCollection, A._Element: AnyObject> from @callee_owned (@owned A._Element) -> (@unowned Swift.Bool, @error @owned Swift.Error) to @callee_owned (@in A._Element) -> (@unowned Swift.Bool, @error @owned Swift.Error)");
  (lit "_T0Ix_IyB_Tr",
   lit "{T:} reabstraction thunk from @callee_owned () -> () to @callee_unowned @convention(block) () -> ()");
  (lit "_T0Rml",
   lit "_T0Rml");
  (lit "_T0Tk",
   lit "_T0Tk");
  (lit "_T0A8",
   lit "_T0A8");
  (lit "_T0s30ReversedRandomAccessCollectionVyxGTfq3nnpf_nTfq1cn_nTfq4x_n",
   lit "_T0s30ReversedRandomAccessCollectionVyxGTfq3nnpf_nTfq1cn_nTfq4x_n");
  (lit "_T03abc6testitySiFTm",
   lit "merged abc.testit(Swift.Int) -> ()");
  (lit "_T04main4TestCACSi1x_tc6_PRIV_Llfc",
   lit "main.Test.(in _PRIV_).init(x: Swift.Int) -> main.Test");
  (lit "_$S3abc6testityySiFTm",
   lit "merged abc.testit(Swift.Int) -> ()");
  (lit "_$S4main4TestC1xACSi_tc6_PRIV_Llfc",
   lit "main.Test.(in _PRIV_).init(x: Swift.Int) -> main.Test");
  (lit "_T0SqWy.17",
   lit "outlined copy of Swift.Optional with unmangled suffix " ++ bytes [34] ++ lit ".17" ++ bytes [34]);
  (lit "_T03nix6testitSaySiGyFTv_",
   lit "outlined variable #0 of nix.testit() -> [Swift.Int]");
  (lit "_T03nix6testitSaySiGyFTv0_",
   lit "outlined variable #1 of nix.testit() -> [Swift.Int]");
  (lit "_T0So11UITextFieldC4textSSSgvgToTepb_",
   lit "outlined bridged method (pb) of @objc __C.UITextField.text.getter : Swift.String?");
  (lit "_T0So11UITextFieldC4textSSSgvgToTeab_",
   lit "outlined bridged method (ab) of @objc __C.UITextField.text.getter : Swift.String?");
  (lit "_T0So5GizmoC11doSomethingSQyypGSQySaySSGGFToTembnn_",
   lit "outlined bridged method (mbnn) of @objc __C.Gizmo.doSomething([Swift.String]!) -> Any!");
  (lit "_T0So5GizmoC12modifyStringSQySSGAD_Si10withNumberSQyypG0D6FoobartFToTembnnnb_",
   lit "outlined bridged method (mbnnnb) of @objc __C.Gizmo.modifyString(_: Swift.String!, withNumber: Swift.Int, withFoobar: Any!) -> Swift.String!");
  (lit "_$SSo5GizmoC11doSomethingySQyypGSQySaySSGGFToTembnn_",
   lit "outlined bridged method (mbnn) of @objc __C.Gizmo.doSomething([Swift.String]!) -> Any!");
  (lit "_$SSo5GizmoC12modifyString_10withNumber0D6FoobarSQySSGAF_SiSQyypGtFToTembnnnb_",
   lit "outlined bridged method (mbnnnb) of @objc __C.Gizmo.modifyString(_: Swift.String!, withNumber: Swift.Int, withFoobar: Any!) -> Swift.String!");
  (lit "_T04test1SVyxGAA1RA2A1ZRzAA1Y2ZZRpzl1A_AhaGPWT",
   lit "{C} associated type witness table accessor for A.ZZ : test.Y in <A where A: test.Z, A.ZZ: test.Y> test.S<A> : test.R in test");
  (lit "_T0s24_UnicodeScalarExceptions33_0E4228093681F6920F0AB2E48B4F1C69LLVACycfC",
   lit "Swift.(_UnicodeScalarExceptions in _0E4228093681F6920F0AB2E48B4F1C69).init() -> Swift.(_UnicodeScalarExceptions in _0E4228093681F6920F0AB2E48B4F1C69)");
  (lit "_T0D",
   lit "_T0D");
  (lit "_T0s18EnumeratedIteratorVyxGs8Sequencess0B8ProtocolRzlsADP5splitSay03SubC0QzGSi9maxSplits_Sb25omittingEmptySubsequencesSb7ElementQzKc14whereSeparatortKFTW",
   lit "{T:} protocol witness for Swift.Sequence.split(maxSplits: Swift.Int, omittingEmptySubsequences: Swift.Bool, whereSeparator: (A.Element) throws -> Swift.Bool) throws -> [A.SubSequence] in conformance <A where A: Swift.IteratorProtocol> Swift.EnumeratedIterator<A> : Swift.Sequence in Swift");
  (lit "_T0s3SetVyxGs10CollectiotySivm",
   lit "_T0s3SetVyxGs10CollectiotySivm");
  (lit "_T0s18ReversedCollectionVyxGs04LazyB8ProtocolfC",
   lit "_T0s18ReversedCollectionVyxGs04LazyB8ProtocolfC");
  (lit "_T0iW",
   lit "_T0iW");
  (lit "_T0s5print_9separator10terminatoryypfC",
   lit "_T0s5print_9separator10terminatoryypfC");
  (lit "_T0So13GenericOptionas8HashableSCsACP9hashValueSivgTW",
   lit "{T:} protocol witness for Swift.Hashable.hashValue.getter : Swift.Int in conformance __C.GenericOption : Swift.Hashable in __C_Synthesized")
].

(** simplified-manglings.txt *)
Definition simplified_manglings : list (str * str) := [
  (lit "_TtBf80_",
   lit "Builtin.Float80");
  (lit "_TtBi32_",
   lit "Builtin.Int32");
  (lit "_TtBw",
   lit "Builtin.Word");
  (lit "_TtBO",
   lit "Builtin.UnknownObject");
  (lit "_TtBo",
   lit "Builtin.NativeObject");
  (lit "_TtBp",
   lit "Builtin.RawPointer");
  (lit "_TtBv4Bi8_",
   lit "Builtin.Vec4xInt8");
  (lit "_TtBv4Bf16_",
   lit "Builtin.Vec4xFloat16");
  (lit "_TtBv4Bp",
   lit "Builtin.Vec4xRawPointer");
  (lit "_TtSa",
   lit "Array");
  (lit "_TtSb",
   lit "Bool");
  (lit "_TtSc",
   lit "UnicodeScalar");
  (lit "_TtSd",
   lit "Double");
  (lit "_TtSf",
   lit "Float");
  (lit "_TtSi",
   lit "Int");
  (lit "_TtSq",
   lit "Optional");
  (lit "_TtSS",
   lit "String");
  (lit "_TtSu",
   lit "UInt");
  (lit "_TtGSPSi_",
   lit "UnsafePointer<Int>");
  (lit "_TtGSpSi_",
   lit "UnsafeMutablePointer<Int>");
  (lit "_TtSV",
   lit "UnsafeRawPointer");
  (lit "_TtSv",
   lit "UnsafeMutableRawPointer");
  (lit "_TtGSaSS_",
   lit "[String]");
  (lit "_TtGSqSS_",
   lit "String?");
  (lit "_TtGSQSS_",
   lit "String!");
  (lit "_TtGVs10DictionarySSSi_",
   lit "[String : Int]");
  (lit "_TtVs7CString",
   lit "CString");
  (lit "_TtCSo8NSObject",
   lit "NSObject");
  (lit "_TtO6Monads6Either",
   lit "Either");
  (lit "_TtbSiSu",
   lit "@convention(block) (_:)");
  (lit "_TtcSiSu",
   lit "@convention(c) (_:)");
  (lit "_TtbTSiSc_Su",
   lit "@convention(block) (_:_:)");
  (lit "_TtcTSiSc_Su",
   lit "@convention(c) (_:_:)");
  (lit "_TtFSiSu",
   lit "(_:)");
  (lit "_TtKSiSu",
   lit "@autoclosure (_:)");
  (lit "_TtFSiFScSu",
   lit "(_:)");
  (lit "_TtMSi",
   lit "Int.Type");
  (lit "_TtP_",
   lit "Any");
  (lit "_TtP3foo3bar_",
   lit "bar");
  (lit "_TtP3foo3barS_3bas_",
   lit "bar & bas");
  (lit "_TtTP3foo3barS_3bas_PS1__PS1_S_3zimS0___",
   lit "(bar & bas, bas, bas & zim & bar)");
  (lit "_TtRSi",
   lit "inout Int");
  (lit "_TtTSiSu_",
   lit "(Int, UInt)");
  (lit "_TttSiSu_",
   lit "(Int, UInt...)");
  (lit "_TtT3fooSi3barSu_",
   lit "(foo: Int, bar: UInt)");
  (lit "_TturFxx",
   lit "<A>(_:)");
  (lit "_TtuzrFT_T_",
   lit "<>()");
  (lit "_Ttu__rFxqd__",
   lit "<A><A1>(_:)");
  (lit "_Ttu_z_rFxqd0__",
   lit "<A><><A2>(_:)");
  (lit "_Ttu0_rFxq_",
   lit "<A, B>(_:)");
  (lit "_TtuR_s8RunciblerFxwx5Mince",
   lit "<A>(_:)");
  (lit "_TtuR_Cs22AbstractRuncingFactoryrFxx",
   lit "<A>(_:)");
  (lit "_TtuR_s8Runciblew_5MincezxrFxx",
   lit "<A>(_:)");
  (lit "_Tv3foo3barSi",
   lit "bar");
  (lit "_TF3fooau3barSi",
   lit "bar.unsafeMutableAddressor");
  (lit "_TF3foolu3barSi",
   lit "bar.unsafeAddressor");
  (lit "_TF3fooaO3barSi",
   lit "bar.owningMutableAddressor");
  (lit "_TF3foolO3barSi",
   lit "bar.owningAddressor");
  (lit "_TF3fooao3barSi",
   lit "bar.nativeOwningMutableAddressor");
  (lit "_TF3foolo3barSi",
   lit "bar.nativeOwningAddressor");
  (lit "_TF3fooap3barSi",
   lit "bar.nativePinningMutableAddressor");
  (lit "_TF3foolp3barSi",
   lit "bar.nativePinningAddressor");
  (lit "_TF3foog3barSi",
   lit "bar.getter");
  (lit "_TF3foos3barSi",
   lit "bar.setter");
  (lit "_TFC3foo3bar3basfT3zimCS_3zim_T_",
   lit "bar.bas(zim:)");
  (lit "_TToFC3foo3bar3basfT3zimCS_3zim_T_",
   lit "@objc bar.bas(zim:)");
  (lit "_TTDFC3foo3bar3basfT3zimCS_3zim_T_",
   lit "dynamic bar.bas(zim:)");
  (lit "_TFC3foo3bar3basfT3zimCS_3zim_T_",
   lit "bar.bas(zim:)");
  (lit "_TF3foooi1pFTCS_3barVS_3bas_OS_3zim",
   lit "+ infix(_:_:)");
  (lit "_TF3foooP1xFTCS_3barVS_3bas_OS_3zim",
   lit "^ postfix(_:_:)");
  (lit "_TFC3foo3barCfT_S0_",
   lit "bar.__allocating_init()");
  (lit "_TFC3foo3barcfT_S0_",
   lit "bar.init()");
  (lit "_TFC3foo3barD",
   lit "bar.__deallocating_deinit");
  (lit "_TFC3foo3bard",
   lit "bar.deinit");
  (lit "_TMPC3foo3bar",
   lit "generic type metadata pattern for bar");
  (lit "_TMnC3foo3bar",
   lit "nominal type descriptor for bar");
  (lit "_TMmC3foo3bar",
   lit "metaclass for bar");
  (lit "_TMC3foo3bar",
   lit "type metadata for bar");
  (lit "_TwalC3foo3bar",
   lit "allocateBuffer for bar");
  (lit "_TwcaC3foo3bar",
   lit "assignWithCopy for bar");
  (lit "_TwtaC3foo3bar",
   lit "assignWithTake for bar");
  (lit "_TwdeC3foo3bar",
   lit "deallocateBuffer for bar");
  (lit "_TwxxC3foo3bar",
   lit "destroy for bar");
  (lit "_TwXXC3foo3bar",
   lit "destroyBuffer for bar");
  (lit "_TwCPC3foo3bar",
   lit "initializeBufferWithCopyOfBuffer for bar");
  (lit "_TwCpC3foo3bar",
   lit "initializeBufferWithCopy for bar");
  (lit "_TwcpC3foo3bar",
   lit "initializeWithCopy for bar");
  (lit "_TwTKC3foo3bar",
   lit "initializeBufferWithTakeOfBuffer for bar");
  (lit "_TwTkC3foo3bar",
   lit "initializeBufferWithTake for bar");
  (lit "_TwtkC3foo3bar",
   lit "initializeWithTake for bar");
  (lit "_TwprC3foo3bar",
   lit "projectBuffer for bar");
  (lit "_TWVC3foo3bar",
   lit "value witness table for bar");
  (lit "_TWvdvC3foo3bar3basSi",
   lit "direct field offset for bar.bas");
  (lit "_TWvivC3foo3bar3basSi",
   lit "indirect field offset for bar.bas");
  (lit "_TWPC3foo3barS_8barrables",
   lit "protocol witness table for bar");
  (lit "_TWaC3foo3barS_8barrableS_",
   lit "protocol witness table accessor for bar");
  (lit "_TWlC3foo3barS0_S_8barrableS_",
   lit "lazy protocol witness table accessor for type bar and conformance bar");
  (lit "_TWLC3foo3barS0_S_8barrableS_",
   lit "lazy protocol witness table cache variable for type bar and conformance bar");
  (lit "_TWGC3foo3barS_8barrableS_",
   lit "generic protocol witness table for bar");
  (lit "_TWIC3foo3barS_8barrableS_",
   lit "instantiation function for generic protocol witness table for bar");
  (lit "_TFSCg5greenVSC5Color",
   lit "green.getter");
  (lit "_TIF1t1fFT1iSi1sSS_T_A_",
   lit "default argument 0 of f(i:s:)");
  (lit "_TIF1t1fFT1iSi1sSS_T_A0_",
   lit "default argument 1 of f(i:s:)");
  (lit "_TFSqcfT_GSqx_",
   lit "Optional.init()");
  (lit "_TF21class_bound_protocols32class_bound_protocol_compositionFT1xPS_10ClassBoundS_13NotClassBound__PS0_S1__",
   lit "class_bound_protocol_composition(x:)");
  (lit "_TtZZ",
   lit "_TtZZ");
  (lit "_TtB",
   lit "_TtB");
  (lit "_TtBSi",
   lit "_TtBSi");
  (lit "_TtBx",
   lit "_TtBx");
  (lit "_TtC",
   lit "_TtC");
  (lit "_TtT",
   lit "_TtT");
  (lit "_TtTSi",
   lit "_TtTSi");
  (lit "_TtQd_",
   lit "_TtQd_");
  (lit "_Tw",
   lit "_Tw");
  (lit "_TWa",
   lit "_TWa");
  (lit "_Twal",
   lit "_Twal");
  (lit "_T",
   lit "_T");
  (lit "_TTo",
   lit "_TTo");
  (lit "_TC",
   lit "_TC");
  (lit "_TM",
   lit "_TM");
  (lit "_TM",
   lit "_TM");
  (lit "_TW",
   lit "_TW");
  (lit "_TWV",
   lit "_TWV");
  (lit "_TWo",
   lit "_TWo");
  (lit "_TWv",
   lit "_TWv");
  (lit "_TWvd",
   lit "_TWvd");
  (lit "_TWvi",
   lit "_TWvi");
  (lit "_TWvx",
   lit "_TWvx");
  (lit "_TtVCC4main3Foo4Ding3Str",
   lit "Foo.Ding.Str");
  (lit "_TFVCC6nested6AClass12AnotherClass7AStruct9aFunctionfT1aSi_S2_",
   lit "AClass.AnotherClass.AStruct.aFunction(a:)");
  (lit "_TtXwC10attributes10SwiftClass",
   lit "weak SwiftClass");
  (lit "_TtXoC10attributes10SwiftClass",
   lit "unowned SwiftClass");
  (lit "_TtERR",
   lit "<ERROR TYPE>");
  (lit "_TtGSqGSaC5sugar7MyClass__",
   lit "[MyClass]?");
  (lit "_TtGSaGSqC5sugar7MyClass__",
   lit "[MyClass?]");
  (lit "_TtaC9typealias5DWARF9DIEOffset",
   lit "DWARF.DIEOffset");
  (lit "_Ttas3Int",
   lit "Int");
  (lit "_TTRXFo_dSc_dSb_XFo_iSc_iSb_",
   lit "thunk for @callee_owned (@unowned UnicodeScalar) -> (@unowned Bool)");
  (lit "_TTRXFo_dSi_dGSqSi__XFo_iSi_iGSqSi__",
   lit "thunk for @callee_owned (@unowned Int) -> (@unowned Int?)");
  (lit "_TTRGrXFo_iV18switch_abstraction1A_ix_XFo_dS0__ix_",
   lit "thunk for @callee_owned (@in A) -> (@out A)");
  (lit "_TFCF5types1gFT1bSb_T_L0_10Collection3zimfT_T_",
   lit "zim() in Collection #2 in g(b:)");
  (lit "_TFF17capture_promotion22test_capture_promotionFT_FT_SiU_FT_Si_promote0",
   lit "closure #1 in test_capture_promotion()");
  (lit "_TFIVs8_Processi10_argumentsGSaSS_U_FT_GSaSS_",
   lit "_arguments in variable initialization expression of _Process");
  (lit "_TFIvVs8_Process10_argumentsGSaSS_iU_FT_GSaSS_",
   lit "closure #1 in variable initialization expression of _Process._arguments");
  (lit "_TFCSo1AE",
   lit "A.__ivar_destroyer");
  (lit "_TFCSo1Ae",
   lit "A.__ivar_initializer");
  (lit "_TTWC13call_protocol1CS_1PS_FS1_3foofT_Si",
   lit "protocol witness for P.foo() in conformance C");
  (lit "_TTSg5Si___TFSqcfT_GSqx_",
   lit "specialized Optional.init()");
  (lit "_TTSg5SiSis3Foos_Sf___TFSqcfT_GSqx_",
   lit "specialized Optional.init()");
  (lit "_TTSg5Si_Sf___TFSqcfT_GSqx_",
   lit "specialized Optional.init()");
  (lit "_TTSg5Si_Sf___TFSqcfT_GSqx_",
   lit "specialized Optional.init()");
  (lit "_TTSgS",
   lit "_TTSgS");
  (lit "_TTSg5S",
   lit "_TTSg5S");
  (lit "_TTSgSi",
   lit "_TTSgSi");
  (lit "_TTSg5Si",
   lit "_TTSg5Si");
  (lit "_TTSgSi_",
   lit "_TTSgSi_");
  (lit "_TTSgSi__",
   lit "_TTSgSi__");
  (lit "_TTSgSiS_",
   lit "_TTSgSiS_");
  (lit "_TTSgSi__xyz",
   lit "_TTSgSi__xyz");
  (lit "_TTSg5Si___TTSg5Si___TFSqcfT_GSqx_",
   lit "specialized Optional.init()");
  (lit "_TTSg5Vs5UInt8___TFV10specialize3XXXcfT1tx_GS0_x_",
   lit "specialized XXX.init(t:)");
  (lit "_TPA__TTRXFo_oSSoSS_dSb_XFo_iSSiSS_dSb_31",
   lit "partial apply for thunk for @callee_owned (@owned String, @owned String) -> (@unowned Bool)");
  (lit "_TiC4Meow5MyCls9subscriptFT1iSi_Sf",
   lit "MyCls.subscript(i:)");
  (lit "_TF8manglingX22egbpdajGbuEbxfgehfvwxnFT_T_",
   bytes [217; 132; 217; 138; 217; 135; 217; 133; 216; 167; 216; 168; 216; 170; 217; 131; 217; 132; 217; 133; 217; 136; 216; 180; 216; 185; 216; 177; 216; 168; 217; 138; 216; 159] ++ lit "()");
  (lit "_TF8manglingX24ihqwcrbEcvIaIdqgAFGpqjyeFT_T_",
   bytes [228; 187; 150; 228; 187; 172; 228; 184; 186; 228; 187; 128; 228; 185; 136; 228; 184; 141; 232; 175; 180; 228; 184; 173; 230; 150; 135] ++ lit "()");
  (lit "_TF8manglingX27ihqwctvzcJBfGFJdrssDxIboAybFT_T_",
   bytes [228; 187; 150; 229; 128; 145; 231; 136; 178; 228; 187; 128; 233; 186; 189; 228; 184; 141; 232; 170; 170; 228; 184; 173; 230; 150; 135] ++ lit "()");
  (lit "_TF8manglingX30Proprostnemluvesky_uybCEdmaEBaFT_T_",
   lit "Pro" ++ bytes [196; 141] ++ lit "prost" ++ bytes [196; 155] ++ lit "nemluv" ++ bytes [195; 173; 196; 141] ++ lit "esky()");
  (lit "_TF8manglingXoi7p_qcaDcFTSiSi_Si",
   bytes [194; 171] ++ lit "+" ++ bytes [194; 187] ++ lit " infix(_:_:)");
  (lit "_TF8manglingoi2qqFTSiSi_T_",
   lit "?? infix(_:_:)");
  (lit "_TFE11ext_structAV11def_structA1A4testfT_T_",
   lit "A.test()");
  (lit "_TF13devirt_accessP5_DISC15getPrivateClassFT_CS_P5_DISC12PrivateClass",
   lit "getPrivateClass()");
  (lit "_TF4mainP5_mainX3wxaFT_T_",
   bytes [206; 187] ++ lit "()");
  (lit "_TF4mainP5_main3abcFT_aS_P5_DISC3xyz",
   lit "abc()");
  (lit "_TtPMP_",
   lit "Any.Type");
  (lit "_TFCs13_NSSwiftArray29canStoreElementsOfDynamicTypefPMP_Sb",
   lit "_NSSwiftArray.canStoreElementsOfDynamicType(_:)");
  (lit "_TFCs13_NSSwiftArrayg17staticElementTypePMP_",
   lit "_NSSwiftArray.staticElementType.getter");
  (lit "_TFCs17_DictionaryMirrorg9valueTypePMP_",
   lit "_DictionaryMirror.valueType.getter");
  (lit "_TPA__TFFVs11GeneratorOfcuRd__s13GeneratorTyperFqd__GS_x_U_FT_GSqx_",
   lit "partial apply for closure #1 in GeneratorOf.init<A>(_:)");
  (lit "_TTSf1cl35_TFF7specgen6callerFSiT_U_FTSiSi_T_Si___TF7specgen12take_closureFFTSiSi_T_T_",
   lit "specialized take_closure(_:)");
  (lit "_TTSf1cl35_TFF7specgen6callerFSiT_U_FTSiSi_T_Si___TTSg5Si___TF7specgen12take_closureFFTSiSi_T_T_",
   lit "specialized take_closure(_:)");
  (lit "_TTSg5Si___TTSf1cl35_TFF7specgen6callerFSiT_U_FTSiSi_T_Si___TF7specgen12take_closureFFTSiSi_T_T_",
   lit "specialized take_closure(_:)");
  (lit "_TTSf1cpfr24_TF8capturep6helperFSiT__n___TTRXFo_dSi_dT__XFo_iSi_dT__",
   lit "specialized thunk for @callee_owned (@unowned Int) -> (@unowned ())");
  (lit "_TTSf1cpfr24_TF8capturep6helperFSiT__n___TTRXFo_dSi_DT__XFo_iSi_DT__",
   lit "specialized thunk for @callee_owned (@unowned Int) -> (@unowned_inner_pointer ())");
  (lit "_TTSf1cpi0_cpfl0_cpse0v4u123_cpg53globalinit_33_06E7F1D906492AE070936A9B58CBAE1C_token8_cpfr36_TFtest_capture_propagation2_closure___TF7specgen12take_closureFFTSiSi_T_T_",
   lit "specialized take_closure(_:)");
  (lit "_TTSf0gs___TFVs11_StringCore15_invariantCheckfT_T_",
   lit "specialized _StringCore._invariantCheck()");
  (lit "_TTSf2g___TTSf2s_d___TFVs11_StringCoreCfVs13_StringBufferS_",
   lit "specialized _StringCore.init(_:)");
  (lit "_TTSf2dg___TTSf2s_d___TFVs11_StringCoreCfVs13_StringBufferS_",
   lit "specialized _StringCore.init(_:)");
  (lit "_TTSf2dgs___TTSf2s_d___TFVs11_StringCoreCfVs13_StringBufferS_",
   lit "specialized _StringCore.init(_:)");
  (lit "_TTSf3d_i_d_i_d_i___TFVs11_StringCoreCfVs13_StringBufferS_",
   lit "specialized _StringCore.init(_:)");
  (lit "_TTSf3d_i_n_i_d_i___TFVs11_StringCoreCfVs13_StringBufferS_",
   lit "specialized _StringCore.init(_:)");
  (lit "_TFIZvV8mangling10HasVarInit5stateSbiu_KT_Sb",
   lit "implicit closure #1 in variable initialization expression of static HasVarInit.state");
  (lit "_TFFV23interface_type_mangling18GenericTypeContext23closureInGenericContexturFqd__T_L_3fooFTqd__x_T_",
   lit "foo #1 (_:_:) in GenericTypeContext.closureInGenericContext<A>(_:)");
  (lit "_TFFV23interface_type_mangling18GenericTypeContextg31closureInGenericPropertyContextxL_3fooFT_x",
   lit "foo #1 () in GenericTypeContext.closureInGenericPropertyContext.getter");
  (lit "_TTWurGV23interface_type_mangling18GenericTypeContextx_S_18GenericWitnessTestS_FS1_23closureInGenericContextu_RxS1_rfqd__T_",
   lit "protocol witness for GenericWitnessTest.closureInGenericContext<A>(_:) in conformance <A> GenericTypeContext<A>");
  (lit "_TTWurGV23interface_type_mangling18GenericTypeContextx_S_18GenericWitnessTestS_FS1_g31closureInGenericPropertyContextwx3Tee",
   lit "protocol witness for GenericWitnessTest.closureInGenericPropertyContext.getter in conformance <A> GenericTypeContext<A>");
  (lit "_TTWurGV23interface_type_mangling18GenericTypeContextx_S_18GenericWitnessTestS_FS1_16twoParamsAtDepthu0_RxS1_rfTqd__1yqd_0__T_",
   lit "protocol witness for GenericWitnessTest.twoParamsAtDepth<A, B>(_:y:) in conformance <A> GenericTypeContext<A>");
  (lit "_TFC3red11BaseClassEHcfzT1aSi_S0_",
   lit "BaseClassEH.init(a:)");
  (lit "_TFe27mangling_generic_extensionsR_S_8RunciblerVS_3Foog1aSi",
   lit "Foo<A>.a.getter");
  (lit "_TFe27mangling_generic_extensionsR_S_8RunciblerVS_3Foog1bx",
   lit "Foo<A>.b.getter");
  (lit "_TTRXFo_iT__iT_zoPs5Error__XFo__dT_zoPS___",
   lit "thunk for @callee_owned (@in ()) -> (@out (), @error @owned Error)");
  (lit "_TFE1a",
   lit "_TFE1a");
  (lit "_TFC4testP33_83378C430F65473055F1BD53F3ADCDB71C5doFoofT_T_",
   lit "C.doFoo()");
  (lit "_TTRXFo_oCSo13SKPhysicsBodydVSC7CGPointdVSC8CGVectordGSpV10ObjectiveC8ObjCBool___XFdCb_dS_dS0_dS1_dGSpS3____",
   lit "thunk for @callee_owned (@owned SKPhysicsBody, @unowned CGPoint, @unowned CGVector, @unowned UnsafeMutablePointer<ObjCBool>) -> ()");
  (lit "_T0So13SKPhysicsBodyCSC7CGPointVSC8CGVectorVSpy10ObjectiveC8ObjCBoolVGIxxyyy_AbdFSpyAIGIyByyyy_TR",
   lit "thunk for @callee_owned (@owned SKPhysicsBody, @unowned CGPoint, @unowned CGVector, @unowned UnsafeMutablePointer<ObjCBool>) -> ()");
  (lit "_T04main1_yyF",
   lit "_()");
  (lit "_T03abc6testitySiFTm",
   lit "testit(_:)");
  (lit "_T04main4TestCACSi1x_tc6_PRIV_Llfc",
   lit "Test.init(x:)");
  (lit "_$S3abc6testityySiFTm",
   lit "testit(_:)");
  (lit "_$S4main4TestC1xACSi_tc6_PRIV_Llfc",
   lit "Test.init(x:)")
].

(** [swift-demangle -classify], [-simplified] and [-test-remangle], on one name. *)
Definition passes (flags : Flags) (options : DemangleOptions) (name expected : str) : bool :=
  match result (demangle 3 flags name options newDemangler) with
  | Ok (Some text) => str_eqb text expected
  | _ => false
  end.

Definition classifyFlags : Flags := mkFlags false true false false false true.
Definition simplifiedFlags : Flags := mkFlags false true false false false false.
Definition remangleFlags : Flags := mkFlags false true false true false false.

(** The model gives what the project's own tests of the demangler expect, on
    every symbol: [swift-demangle -classify] on manglings.txt, which prints the
    name, its thunk target and its calling convention, [-simplified] on the other
    file, and [-test-remangle] on both, which demangles and mangles again. *)
Theorem demangle_conforms :
  forallb (fun test => passes classifyFlags (toolOptions false false) test.1 test.2) manglings = true
  /\ forallb (fun test => passes simplifiedFlags (toolOptions false true) test.1 test.2) simplified_manglings = true
  /\ forallb (fun test => passes remangleFlags (toolOptions false false) test.1 test.1)
       (manglings ++ simplified_manglings) = true.
Proof. split_and!; vm_compute; reflexivity. Qed.
