(* ===== verification/OldRemangler.v ===== *)
(** * The old remangler

    Class [Remangler] of lib/Demangling/OldRemangler.cpp, which writes a tree in
    the mangling of Swift 3 and earlier, the one that [OldDemangler] reads: one
    definition per member function, with its name. The overloads for a node of
    kind [Index] and [Identifier] are [mangleIndexNode] and
    [mangleIdentifierNode].

    An [EntityContext] is its flag [AsContext]: [mangleEntityContext] sets it for
    the duration of a call and restores it, so the functions that take one by
    reference take its value here.

    The member functions call one another through [mangle], through
    [mangleEntityContext] and through [mangleAnyNominalType] on a type they have
    made: these are variables of the section, and tied with fuel at its end. *)

From Stdlib Require Import String.
From S2P Require Import Prelude Nodes ManglingUtils Punycode Demangler Remangler.

(** ** Identifiers *)

(** [mangleOperatorChar(op)] *)
Definition mangleOperatorChar (op : ascii) : ascii :=
  switch op
    [ "&" ~> "a"; "@" ~> "c"; "/" ~> "d"; "=" ~> "e"; ">" ~> "g"; "<" ~> "l"; "*" ~> "m"; "!" ~> "n";
      "|" ~> "o"; "+" ~> "p"; "?" ~> "q"; "%" ~> "r"; "-" ~> "s"; "~" ~> "t"; "^" ~> "x"; "." ~> "z" ]%char
    op.

Definition isNonAscii (text : str) : bool := existsb (fun c => 0x80 <=? ord c) text.

Inductive OperatorKind := NotOperator | Infix | Prefix | Postfix.

Section identifiers.
Context {S : Type}.

Definition mangleOperatorKind (operatorKind : OperatorKind) : M S ascii :=
  match operatorKind with
  | NotOperator => fail (Unreachable "invalid")
  | Infix => ret "i"%char
  | Prefix => ret "p"%char
  | Postfix => ret "P"%char
  end.

(** [mangleIdentifier(ident, operatorKind, usePunycode, out)]: what is written. *)
Definition mangleIdentifierText (ident : str) (operatorKind : OperatorKind) (usePunycode : bool) : M S str :=
  encoded <- (if usePunycode && isNonAscii ident then
                punycodeBuf <- encodePunycodeUTF8 ident false ;;
                ret (lit "X", default [] punycodeBuf)
              else ret ([], ident)) ;;
  let '(X, ident) := encoded in
  let size := decimal (Z.of_nat (length ident)) in
  match operatorKind with
  | NotOperator => ret (X ++ size ++ ident)
  | _ =>
      kind <- mangleOperatorKind operatorKind ;;
      ret (X ++ lit "o" ++ [kind] ++ size ++ map mangleOperatorChar ident)
  end.
End identifiers.

(** ** Substitutions *)

(** [deepHash(node)]: [DeepHasher] combines what the hash of the remangler does. *)
Definition deepHash (node : Node) : Z := deepHashNode 0 node.

(** [deepEquals(lhs, rhs)]: the loop over the children goes through those of
    [lhs] twice, and not through those of [rhs]. *)
Fixpoint deepEquals (lhs rhs : Node) {struct lhs} : bool :=
  match lhs, rhs with
  | mkNode k p cs, mkNode k' p' cs' =>
      Kind_eqb k k' && payload_eqb p p' && (length cs =? length cs')%nat
      && forallb (fun c => deepEquals c c) cs
  end.

Record SubstitutionEntry := mkEntry {
  TheNode : Node;
  StoredHash : Z
}.

(** [operator==]: [rhs.TheNode] does not take part. *)
Definition entry_eqb (lhs rhs : SubstitutionEntry) : bool :=
  (StoredHash lhs =? StoredHash rhs) && deepEquals (TheNode lhs) (TheNode lhs).

(** ** State *)

(** [Out], and the keys of the unordered map [Substitutions] in the order of
    insertion: the value of a key is its position. *)
Record OldRemangler := mkOldRemangler {
  Out : str;
  Substitutions : list SubstitutionEntry
}.

Abbreviation OR := (M OldRemangler).

Definition emit (text : str) : OR unit := modify (fun s => mkOldRemangler (Out s ++ text) (Substitutions s)).
(** [Out << "..."] *)
Definition put (s : string) : OR unit := emit (lit s).
Arguments put s%_string.

Definition unreachable {A} (message : string) : OR A := fail (Unreachable message).
Arguments unreachable {A} message%_string.

Definition resetSubstitutions : OR unit := modify (fun s => mkOldRemangler (Out s) []).

Definition addSubstitution (entry : option SubstitutionEntry) : OR unit :=
  match entry with
  | None => ret tt
  | Some entry =>
      Substs <- gets Substitutions ;;
      _ <- assert "addSubstitution" (negb (existsb (entry_eqb entry) Substs)) ;;
      modify (fun s => mkOldRemangler (Out s) (Substs ++ [entry]))
  end.

(** [mangleIndex(value)]; an index is a [uint64_t]. *)
Definition mangleIndex (value : Z) : OR unit :=
  if value =? 0 then put "_" else _ <- emit (decimal (value - 1)) ;; put "_".

(** [mangleIdentifier(StringRef, OperatorKind)] *)
Definition mangleIdentifier (ident : str) (operatorKind : OperatorKind) : OR unit :=
  text <- mangleIdentifierText ident operatorKind false ;; emit text.

Definition isInSwiftModule (node : Node) : OR bool :=
  context <- getFirstChild node ;;
  if Kind_eqb (getKind context) K_Module then text <- getText context ;; ret (str_eqb text STDLIB_NAME)
  else ret false.

(** A chain of [SUCCESS_IF_IS]. *)
Fixpoint successIf (value : str) (cases : list (str * string)) : OR bool :=
  match cases with
  | [] => ret false
  | (EXPECTED, SUBSTITUTION) :: cases =>
      if str_eqb value EXPECTED then _ <- put SUBSTITUTION ;; ret true else successIf value cases
  end.

(** A chain of [SUCCESS_IF_DECLNAME_IS], for a type of the standard library. *)
Definition successIfDeclName (node : Node) (cases : list (str * string)) : OR bool :=
  b <- isInSwiftModule node ;;
  if (b : bool) then name <- getChild node 1 ;; text <- getText name ;; successIf text cases
  else ret false.

Definition moduleSubstitutions : list (str * string) :=
  [(STDLIB_NAME, "s"); (MANGLING_MODULE_OBJC, "So"); (MANGLING_MODULE_CLANG_IMPORTER, "SC")]%string.

Definition structureSubstitutions : list (str * string) :=
  [(lit "Array", "Sa"); (lit "Bool", "Sb"); (lit "UnicodeScalar", "Sc"); (lit "Double", "Sd");
   (lit "Float", "Sf"); (lit "Int", "Si"); (lit "UnsafeRawPointer", "SV");
   (lit "UnsafeMutableRawPointer", "Sv"); (lit "UnsafePointer", "SP"); (lit "UnsafeMutablePointer", "Sp");
   (lit "UnsafeBufferPointer", "SR"); (lit "UnsafeMutableBufferPointer", "Sr"); (lit "String", "SS");
   (lit "UInt", "Su")]%string.

Definition enumSubstitutions : list (str * string) :=
  [(lit "Optional", "Sq"); (lit "ImplicitlyUnwrappedOptional", "SQ")]%string.

Definition mangleStandardSubstitution (node : Node) : OR bool :=
  match getKind node with
  | K_Module => text <- getText node ;; successIf text moduleSubstitutions
  | K_Structure => successIfDeclName node structureSubstitutions
  | K_Enum => successIfDeclName node enumSubstitutions
  | _ => ret false
  end.

(** The result, and the entry for [addSubstitution] when it is [false]. *)
Definition trySubstitution (node : Node) : OR (bool * option SubstitutionEntry) :=
  standard <- mangleStandardSubstitution node ;;
  if (standard : bool) then ret (true, None)
  else
    let entry := mkEntry node (deepHash node) in
    Substs <- gets Substitutions ;;
    match list_find (fun e => entry_eqb entry e = true) Substs with
    | None => ret (false, Some entry)
    | Some (Idx, _) => _ <- put "S" ;; _ <- mangleIndex (Z.of_nat Idx) ;; ret (true, Some entry)
    end.

(** [if (trySubstitution(node, entry)) return; ...; addSubstitution(entry);] *)
Definition substituted (node : Node) (body : OR unit) : OR unit :=
  r <- trySubstitution node ;;
  let '(found, entry) := r in
  if (found : bool) then ret tt else _ <- body ;; addSubstitution entry.

(** ** Labels *)

Section labels.
Context {S : Type}.

(** The loop over the elements of the tuple, with the labels that are left. *)
Fixpoint labelElements (Labels elements : list Node) {struct elements} : M S (list Node) :=
  match elements with
  | [] => ret []
  | OrigElt :: elements =>
      match Labels with
      | [] => fail (AssertionFailed "Node::getChild")
      | Label :: Labels =>
          elt <- (if Kind_eqb (getKind Label) K_FirstElementMarker then ret OrigElt
                  else text <- getText Label ;;
                       ret (mkNode K_TupleElement NoPayload
                              (createNodeText K_TupleElementName text :: children OrigElt))) ;;
          elements <- labelElements Labels elements ;;
          ret (elt :: elements)
      end
  end.

(** The lambda [applyParamLabels(ArgTuple)] *)
Definition labelArguments (LabelList ArgTuple : Node) : M S Node :=
  type <- getFirstChild ArgTuple ;;
  OrigTuple <- getFirstChild type ;;
  _ <- assert "applyParamLabels: Tuple" (Kind_eqb (getKind OrigTuple) K_Tuple) ;;
  elements <- labelElements (children LabelList) (children OrigTuple) ;;
  ret (mkNode K_ArgumentTuple NoPayload [mkNode K_Type NoPayload [mkNode K_Tuple NoPayload elements]]).

Fixpoint mapNodes (f : Node -> M S Node) (nodes : list Node) : M S (list Node) :=
  match nodes with
  | [] => ret []
  | n :: nodes => n <- f n ;; nodes <- mapNodes f nodes ;; ret (n :: nodes)
  end.

(** The lambda [visitTypeChild] *)
Definition visitTypeChild (LabelList Child : Node) : M S Node :=
  if negb (Kind_eqb (getKind Child) K_FunctionType) then ret Child
  else
    cs <- mapNodes (fun FuncChild =>
            if Kind_eqb (getKind FuncChild) K_ArgumentTuple then labelArguments LabelList FuncChild
            else ret FuncChild) (children Child) ;;
    ret (mkNode K_FunctionType NoPayload cs).

Definition applyParamLabels (LabelList OrigType : Node) : M S Node :=
  if (getNumChildren LabelList =? 0)%nat then ret OrigType
  else
    cs <- mapNodes (visitTypeChild LabelList) (children OrigType) ;;
    ret (mkNode (getKind OrigType) NoPayload cs).
End labels.

Section mangle.
(** [mangle(node)], the [switch] of [mangleEntityContext], and
    [mangleAnyNominalType(node, ctx)] on an unspecialized type. *)
Variable mangle : Node -> OR unit.
Variable mangleContext : Node -> OR unit.
Variable mangleUnboundType : Node -> bool -> OR unit.

Fixpoint mangleNodes (nodes : list Node) : OR unit :=
  match nodes with
  | [] => ret tt
  | n :: nodes => _ <- mangle n ;; mangleNodes nodes
  end.

Definition mangleChildNodes (node : Node) : OR unit := mangleNodes (children node).

Definition mangleSingleChildNode (node : Node) : OR unit :=
  _ <- assert "mangleSingleChildNode" (getNumChildren node =? 1)%nat ;;
  c <- getFirstChild node ;;
  mangle c.

Definition mangleChildNode (node : Node) (index : nat) : OR unit :=
  _ <- assert "mangleChildNode" (index <? getNumChildren node)%nat ;;
  c <- getChild node index ;;
  mangle c.

(** [Out << code;] and the children or the single child, which most kinds consist of. *)
Definition codeThenChildren (code : string) (node : Node) : OR unit := _ <- put code ;; mangleChildNodes node.
Definition codeThenSingle (code : string) (node : Node) : OR unit := _ <- put code ;; mangleSingleChildNode node.

(** [node->begin()[index]], which checks nothing. *)
Definition beginAt (node : Node) (index : nat) : OR Node :=
  match children node !! index with
  | Some c => ret c
  | None => fail (OutOfRange "Node::begin")
  end.

(** [mangleEntityContext(node, ctx)] *)
Definition mangleEntityContext (node : Node) : OR unit := mangleContext node.

(** [mangleEntityType(node, ctx)] *)
Fixpoint mangleEntityType (node : Node) : OR unit :=
  match node with
  | mkNode kind _ cs =>
      _ <- assert "mangleEntityType: Type" (Kind_eqb kind K_Type) ;;
      match cs with
      | [mkNode kind _ inner as type] =>
          let returns returnType :=
            match returnType with
            | mkNode rkind _ result =>
                _ <- assert "mangleEntityType: ReturnType" (Kind_eqb rkind K_ReturnType) ;;
                match result with
                | [result] => mangleEntityType result
                | _ => fail (AssertionFailed "mangleEntityType: returnType->getNumChildren")
                end
            end in
          match kind with
          | K_FunctionType | K_UncurriedFunctionType =>
              _ <- put (if Kind_eqb kind K_FunctionType then "F" else "f") ;;
              match inner with
              | [input; returnType] => _ <- mangle input ;; returns returnType
              | [annotation; input; returnType] =>
                  _ <- mangle annotation ;; _ <- mangle input ;; returns returnType
              | _ => fail (AssertionFailed "mangleEntityType: inputIndex")
              end
          | _ => mangle type
          end
      | _ => fail (AssertionFailed "mangleEntityType: getNumChildren")
      end
  end.

(** *** Names and types of entities *)

Definition mangleSimpleEntity (node : Node) (basicKind entityKind : string) : OR unit :=
  _ <- assert "mangleSimpleEntity" (getNumChildren node =? 1)%nat ;;
  _ <- put basicKind ;;
  context <- beginAt node 0 ;;
  _ <- mangleEntityContext context ;;
  put entityKind.

(** No [basicKind] is the character 0. *)
Definition mangleNamedEntity (node : Node) (basicKind entityKind : string) : OR unit :=
  _ <- assert "mangleNamedEntity" (getNumChildren node =? 2)%nat ;;
  _ <- put basicKind ;;
  context <- beginAt node 0 ;;
  _ <- mangleEntityContext context ;;
  _ <- put entityKind ;;
  mangleChildNode node 1.

(** The type of an entity: the child [index], or behind it if that is a list of labels. *)
Definition mangleTypeAt (get : Node -> nat -> OR Node) (node : Node) (index : nat) : OR unit :=
  LabelList <- get node index ;;
  if Kind_eqb (getKind LabelList) K_LabelList then
    Type_ <- get node (index + 1)%nat ;;
    type <- applyParamLabels LabelList Type_ ;;
    mangleEntityType type
  else mangleEntityType LabelList.

Definition mangleTypedEntity (node : Node) (basicKind entityKind : string) : OR unit :=
  _ <- assert "mangleTypedEntity" ((getNumChildren node =? 2)%nat || (getNumChildren node =? 3)%nat) ;;
  _ <- put basicKind ;;
  context <- beginAt node 0 ;;
  _ <- mangleEntityContext context ;;
  _ <- put entityKind ;;
  mangleTypeAt beginAt node 1.

Definition mangleNamedAndTypedEntity (node : Node) (basicKind entityKind : string) : OR unit :=
  _ <- assert "mangleNamedAndTypedEntity" ((getNumChildren node =? 3)%nat || (getNumChildren node =? 4)%nat) ;;
  _ <- put basicKind ;;
  context <- beginAt node 0 ;;
  _ <- mangleEntityContext context ;;
  _ <- put entityKind ;;
  _ <- mangleChildNode node 1 ;;
  mangleTypeAt beginAt node 2.

(** [mangleAccessor(storageNode, accessorCode, ctx)]; the number of children is a [size_t]. *)
Definition mangleAccessorOf (storageNode : Node) (accessorCode : string) : OR unit :=
  _ <- put "F" ;;
  context <- getChild storageNode 0 ;;
  _ <- mangleEntityContext context ;;
  _ <- put accessorCode ;;
  match getKind storageNode with
  | K_Variable => _ <- mangleChildNode storageNode 1 ;; mangleTypeAt getChild storageNode 2
  | K_Subscript =>
      let NumChildren := getNumChildren storageNode in
      _ <- assert "mangleAccessor" (NumChildren <=? 4)%nat ;;
      PrivateName <- getChild storageNode (NumChildren - 1) ;;
      _ <- when (Kind_eqb (getKind PrivateName) K_PrivateDeclName) (mangle PrivateName) ;;
      _ <- mangleIdentifier (lit "subscript") NotOperator ;;
      mangleTypeAt getChild storageNode 1
  | _ => unreachable "Not a storage node"
  end.

(** [mangleAccessor(node->getFirstChild(), accessorCode, ctx)] *)
Definition mangleAccessor (node : Node) (accessorCode : string) : OR unit :=
  storageNode <- getFirstChild node ;; mangleAccessorOf storageNode accessorCode.

(** *** Protocols *)

Definition mangleNominalType (node : Node) (kind : string) : OR unit :=
  substituted node (mangleNamedEntity node kind "").

Definition mangleProtocolWithoutPrefix (node : Node) : OR unit :=
  node <- (if Kind_eqb (getKind node) K_Type then
             _ <- assert "mangleProtocolWithoutPrefix: getNumChildren" (getNumChildren node =? 1)%nat ;;
             beginAt node 0
           else ret node) ;;
  _ <- assert "mangleProtocolWithoutPrefix: Protocol" (Kind_eqb (getKind node) K_Protocol) ;;
  mangleNominalType node "".

Fixpoint mangleProtocols (nodes : list Node) : OR unit :=
  match nodes with
  | [] => ret tt
  | child :: nodes => _ <- mangleProtocolWithoutPrefix child ;; mangleProtocols nodes
  end.

Definition mangleProtocolListWithoutPrefix (node : Node) (additionalProto : NodePointer) : OR unit :=
  _ <- assert "mangleProtocolList: ProtocolList" (Kind_eqb (getKind node) K_ProtocolList) ;;
  _ <- assert "mangleProtocolList: getNumChildren" (getNumChildren node =? 1)%nat ;;
  typeList <- beginAt node 0 ;;
  _ <- assert "mangleProtocolList: TypeList" (Kind_eqb (getKind typeList) K_TypeList) ;;
  _ <- mangleProtocols (children typeList) ;;
  _ <- match additionalProto with Some P => mangleProtocolWithoutPrefix P | None => ret tt end ;;
  put "_".

(** *** Nominal types *)

Definition mangleTypeList (node : Node) : OR unit := _ <- mangleChildNodes node ;; put "_".

(** [mangleGenericArgs(node, ctx)] *)
Fixpoint mangleGenericArgs (node : Node) : OR unit :=
  match node with
  | mkNode kind _ cs =>
      match kind with
      | K_Structure | K_Enum | K_Class =>
          match cs with
          | parentOrModule :: _ => _ <- mangleGenericArgs parentOrModule ;; put "_"
          | [] => fail (AssertionFailed "Node::getChild")
          end
      | K_BoundGenericStructure | K_BoundGenericEnum | K_BoundGenericClass =>
          match cs with
          | mkNode unboundKind _ unbound :: rest =>
              _ <- assert "mangleGenericArgs: Type" (Kind_eqb unboundKind K_Type) ;;
              match unbound with
              | mkNode _ _ (parentOrModule :: _) :: _ =>
                  _ <- mangleGenericArgs parentOrModule ;;
                  match rest with
                  | args :: _ => mangleTypeList args
                  | [] => fail (AssertionFailed "Node::getChild")
                  end
              | _ => fail (AssertionFailed "Node::getChild")
              end
          | [] => fail (AssertionFailed "Node::getChild")
          end
      | _ => ret tt
      end
  end.

Definition mangleAnyNominalType (node : Node) (AsContext : bool) : OR unit :=
  specialized <- isSpecialized node ;;
  if (specialized : bool) then
    _ <- put "G" ;;
    unboundType <- getUnspecialized node ;;
    _ <- mangleUnboundType unboundType AsContext ;;
    mangleGenericArgs node
  else
    match getKind node with
    | K_Structure => mangleNominalType node "V"
    | K_Enum => mangleNominalType node "O"
    | K_Class => mangleNominalType node "C"
    | _ => unreachable "bad nominal type kind"
    end.

(** *** Generic signatures *)

Definition mangleDependentGenericParamIndex (node : Node) : OR unit :=
  d <- getChild node 0 ;;
  depth <- getIndex d ;;
  i <- getChild node 1 ;;
  index <- getIndex i ;;
  if negb (depth =? 0) then _ <- put "d" ;; _ <- mangleIndex (depth - 1) ;; mangleIndex index
  else if negb (index =? 0) then mangleIndex (index - 1)
  else put "x".

Definition mangleConstrainedType (node : Node) : OR unit :=
  first <- getFirstChild node ;;
  if Kind_eqb (getKind first) K_DependentGenericParamType then mangleDependentGenericParamIndex first
  else mangle node.

(** The loop over the parameter counts: the requirements are left. *)
Fixpoint mangleParamCounts (nodes : list Node) : OR (list Node) :=
  match nodes with
  | [] => ret []
  | count :: rest =>
      if Kind_eqb (getKind count) K_DependentGenericParamCount then
        index <- getIndex count ;;
        _ <- (if 0 <? index then mangleIndex (index - 1) else put "z") ;;
        mangleParamCounts rest
      else ret nodes
  end.

Definition mangleRequirements (nodes : list Node) : OR unit :=
  match nodes with
  | [] => put "r"
  | _ => _ <- put "R" ;; _ <- mangleNodes nodes ;; put "r"
  end.

(** One generic parameter: nothing is written for it. *)
Definition hasSingleParam (node : Node) : OR bool :=
  match children node with
  | count :: rest =>
      if Kind_eqb (getKind count) K_DependentGenericParamCount then
        index <- getIndex count ;;
        ret ((index =? 1)
             && match rest with
                | [] => true
                | second :: _ => negb (Kind_eqb (getKind second) K_DependentGenericParamCount)
                end)
      else ret false
  | [] => ret false
  end.

Definition mangleDependentGenericSignature (node : Node) : OR unit :=
  single <- hasSingleParam node ;;
  if (single : bool) then mangleRequirements (drop 1 (children node))
  else requirements <- mangleParamCounts (children node) ;; mangleRequirements requirements.

(** The [do] loop of [mangleDependentMemberType]: the names of the members, the
    outermost first, and the node they are based on. *)
Fixpoint memberChain (node : Node) : OR (list Node * Node) :=
  match node with
  | mkNode _ _ cs =>
      match cs with
      | mkNode _ _ (mkNode kind _ _ as base :: _) :: _ =>
          r <- (if Kind_eqb kind K_DependentMemberType then memberChain base else ret ([], base)) ;;
          let '(members, base) := r in ret (node :: members, base)
      | _ => fail (AssertionFailed "Node::getFirstChild")
      end
  end.

Fixpoint mangleMemberNames (members : list Node) : OR unit :=
  match members with
  | [] => ret tt
  | member :: members => name <- getChild member 1 ;; _ <- mangle name ;; mangleMemberNames members
  end.

(** *** Kinds that are contexts *)

Definition mangleAllocator (node : Node) : OR unit := mangleTypedEntity node "F" "C".
Definition mangleConstructor (node : Node) : OR unit := mangleTypedEntity node "F" "c".
Definition mangleDeallocator (node : Node) : OR unit := mangleSimpleEntity node "F" "D".
Definition mangleDestructor (node : Node) : OR unit := mangleSimpleEntity node "F" "d".
Definition mangleIVarInitializer (node : Node) : OR unit := mangleSimpleEntity node "F" "e".
Definition mangleIVarDestroyer (node : Node) : OR unit := mangleSimpleEntity node "F" "E".
Definition mangleInitializer (node : Node) : OR unit := mangleSimpleEntity node "I" "i".
Definition mangleDefaultArgumentInitializer (node : Node) : OR unit := mangleNamedEntity node "I" "A".
Definition mangleExplicitClosure (node : Node) : OR unit := mangleNamedAndTypedEntity node "F" "U".
Definition mangleImplicitClosure (node : Node) : OR unit := mangleNamedAndTypedEntity node "F" "u".
Definition mangleFunction (node : Node) : OR unit := mangleNamedAndTypedEntity node "F" "".
Definition mangleVariable (node : Node) : OR unit := mangleNamedAndTypedEntity node "v" "".
Definition mangleSubscript (node : Node) : OR unit := mangleNamedAndTypedEntity node "i" "".
Definition mangleGetter (node : Node) : OR unit := mangleAccessor node "g".
Definition mangleGlobalGetter (node : Node) : OR unit := mangleAccessor node "G".
Definition mangleSetter (node : Node) : OR unit := mangleAccessor node "s".
Definition mangleMaterializeForSet (node : Node) : OR unit := mangleAccessor node "m".
Definition mangleWillSet (node : Node) : OR unit := mangleAccessor node "w".
Definition mangleDidSet (node : Node) : OR unit := mangleAccessor node "W".
Definition mangleOwningMutableAddressor (node : Node) : OR unit := mangleAccessor node "aO".
Definition mangleNativeOwningMutableAddressor (node : Node) : OR unit := mangleAccessor node "ao".
Definition mangleNativePinningMutableAddressor (node : Node) : OR unit := mangleAccessor node "ap".
Definition mangleUnsafeMutableAddressor (node : Node) : OR unit := mangleAccessor node "au".
Definition mangleOwningAddressor (node : Node) : OR unit := mangleAccessor node "lO".
Definition mangleNativeOwningAddressor (node : Node) : OR unit := mangleAccessor node "lo".
Definition mangleNativePinningAddressor (node : Node) : OR unit := mangleAccessor node "lp".
Definition mangleUnsafeAddressor (node : Node) : OR unit := mangleAccessor node "lu".

Definition mangleStatic (node : Node) : OR unit :=
  _ <- put "Z" ;; entity <- getChild node 0 ;; mangleEntityContext entity.

Definition mangleExtension (node : Node) : OR unit :=
  let n := getNumChildren node in
  _ <- assert "mangleExtension" ((n =? 2)%nat || (n =? 3)%nat) ;;
  _ <- put (if (n =? 3)%nat then "e" else "E") ;;
  module <- beginAt node 0 ;;
  _ <- mangleEntityContext module ;;
  _ <- when (n =? 3)%nat (signature <- beginAt node 2 ;; mangleDependentGenericSignature signature) ;;
  context <- beginAt node 1 ;;
  mangleEntityContext context.

(** Module types get an [M] prefix, but module contexts do not. *)
Definition mangleModule (node : Node) (AsContext : bool) : OR unit :=
  substituted node
    (_ <- when (negb AsContext) (put "M") ;;
     text <- getText node ;;
     mangleIdentifier text NotOperator).

Definition mangleTypeAlias (node : Node) : OR unit := substituted node (codeThenChildren "a" node).
Definition mangleProtocol (node : Node) : OR unit := mangleNominalType node "P".
Definition mangleStructure (node : Node) (AsContext : bool) : OR unit := mangleAnyNominalType node AsContext.
Definition mangleEnum (node : Node) (AsContext : bool) : OR unit := mangleAnyNominalType node AsContext.
Definition mangleClass (node : Node) (AsContext : bool) : OR unit := mangleAnyNominalType node AsContext.
Definition mangleCurryThunk (node : Node) : OR unit := put "<curry-thunk>".
Definition mangleDispatchThunk (node : Node) : OR unit := put "<dispatch-thunk>".

(** *** Names *)

Definition mangleTextAs (operatorKind : OperatorKind) (node : Node) : OR unit :=
  text <- getText node ;; mangleIdentifier text operatorKind.

(** [mangleIdentifier(Node )] *)
Definition mangleIdentifierNode (node : Node) : OR unit := mangleTextAs NotOperator node.
Definition manglePrefixOperator (node : Node) : OR unit := mangleTextAs Prefix node.
Definition manglePostfixOperator (node : Node) : OR unit := mangleTextAs Postfix node.
Definition mangleInfixOperator (node : Node) : OR unit := mangleTextAs Infix node.
Definition mangleNumber (node : Node) : OR unit := index <- getIndex node ;; mangleIndex index.
(** [mangleIndex(Node )] *)
Definition mangleIndexNode (node : Node) : OR unit := index <- getIndex node ;; mangleIndex index.
Definition mangleLocalDeclName (node : Node) : OR unit := codeThenChildren "L" node.
Definition manglePrivateDeclName (node : Node) : OR unit := codeThenChildren "P" node.

(** *** Symbols *)

Definition mangleGlobal (node : Node) : OR unit := codeThenChildren "_T" node.
Definition mangleSuffix (node : Node) : OR unit := text <- getText node ;; emit text.

(** The parameters; then another mangled name starts. *)
Definition mangleSpecialization (code : string) (node : Node) : OR unit :=
  _ <- codeThenChildren code node ;; _ <- resetSubstitutions ;; put "__T".
Definition mangleGenericSpecialization (node : Node) : OR unit := mangleSpecialization "TSg" node.
Definition mangleGenericSpecializationNotReAbstracted (node : Node) : OR unit := mangleSpecialization "TSr" node.
Definition mangleFunctionSignatureSpecialization (node : Node) : OR unit := mangleSpecialization "TSf" node.
Definition mangleGenericPartialSpecialization (node : Node) : OR unit := unreachable "todo".
Definition mangleGenericPartialSpecializationNotReAbstracted (node : Node) : OR unit := unreachable "todo".
Definition mangleGenericSpecializationParam (node : Node) : OR unit := _ <- mangleChildNodes node ;; put "_".
Definition mangleSpecializationPassID (node : Node) : OR unit := index <- getIndex node ;; emit (decimal index).
Definition mangleSpecializationIsFragile (node : Node) : OR unit := put "q".

Definition mangleType (node : Node) : OR unit := mangleSingleChildNode node.

Fixpoint mangleTypes (nodes : list Node) : OR unit :=
  match nodes with
  | [] => ret tt
  | n :: nodes => _ <- mangleType n ;; mangleTypes nodes
  end.

(** [mangleIdentifier(node->getChild(index))] *)
Definition mangleNameAt (node : Node) (index : nat) : OR unit :=
  name <- getChild node index ;; mangleIdentifierNode name.

(** [Out << node->getChild(1)->getText()] *)
Definition putTextAt (node : Node) (index : nat) : OR unit :=
  c <- getChild node index ;; text <- getText c ;; emit text.

(** [if (kindValue & flag) Out << code;] *)
Definition putFlag (kindValue flag : Z) (code : string) : OR unit :=
  when (negb (Z.land kindValue flag =? 0)) (put code).

Definition mangleFunctionSignatureSpecializationParam (node : Node) : OR unit :=
  if negb (hasChildren node) then put "n_"
  else
    firstChild <- getChild node 0 ;;
    index <- getIndex firstChild ;;
    let kindValue := wrap_u32 index in
    if kindValue =? ConstantPropFunction then _ <- put "cpfr" ;; _ <- mangleNameAt node 1 ;; put "_"
    else if kindValue =? ConstantPropGlobal then _ <- put "cpg" ;; _ <- mangleNameAt node 1 ;; put "_"
    else if kindValue =? ConstantPropInteger then _ <- put "cpi" ;; _ <- putTextAt node 1 ;; put "_"
    else if kindValue =? ConstantPropFloat then _ <- put "cpfl" ;; _ <- putTextAt node 1 ;; put "_"
    else if kindValue =? ConstantPropString then
      _ <- put "cpse" ;;
      c <- getChild node 1 ;;
      encodingStr <- getText c ;;
      _ <- (if str_eqb encodingStr (lit "u8") then put "0"
            else if str_eqb encodingStr (lit "u16") then put "1"
            else unreachable "Unknown encoding") ;;
      _ <- put "v" ;;
      _ <- mangleNameAt node 2 ;;
      put "_"
    else if kindValue =? ClosureProp then
      _ <- put "cl" ;;
      _ <- mangleNameAt node 1 ;;
      _ <- mangleTypes (drop 2 (children node)) ;;
      put "_"
    else if kindValue =? BoxToValue then put "i_"
    else if kindValue =? BoxToStack then put "k_"
    else
      _ <- putFlag kindValue Dead "d" ;;
      _ <- putFlag kindValue OwnedToGuaranteed "g" ;;
      _ <- putFlag kindValue SROA "s" ;;
      put "_".

Definition mangleFunctionSignatureSpecializationParamPayload (node : Node) : OR unit :=
  unreachable "This should never be called".
Definition mangleFunctionSignatureSpecializationParamKind (node : Node) : OR unit :=
  unreachable "This should never be called".

Definition mangleProtocolConformance (node : Node) : OR unit :=
  _ <- assert "mangleProtocolConformance" (getNumChildren node =? 3)%nat ;;
  _ <- mangleChildNode node 0 ;;
  protocol <- beginAt node 1 ;;
  _ <- mangleProtocolWithoutPrefix protocol ;;
  mangleChildNode node 2.

Definition mangleObjCAttribute (node : Node) : OR unit := put "To".
Definition mangleNonObjCAttribute (node : Node) : OR unit := put "TO".
Definition mangleDirectMethodReferenceAttribute (node : Node) : OR unit := put "Td".
Definition mangleDynamicAttribute (node : Node) : OR unit := put "TD".
Definition mangleVTableAttribute (node : Node) : OR unit := put "TV".
Definition mangleMergedFunction (node : Node) : OR unit := put "Tm".

Definition mangleGenericTypeMetadataPattern (node : Node) : OR unit := codeThenSingle "MP" node.
Definition mangleTypeMetadataAccessFunction (node : Node) : OR unit := codeThenSingle "Ma" node.
Definition mangleTypeMetadataLazyCache (node : Node) : OR unit := codeThenSingle "ML" node.
Definition mangleMetaclass (node : Node) : OR unit := codeThenSingle "Mm" node.
Definition mangleClassMetadataBaseOffset (node : Node) : OR unit := codeThenSingle "Mo" node.
Definition mangleNominalTypeDescriptor (node : Node) : OR unit := codeThenSingle "Mn" node.
Definition mangleTypeMetadata (node : Node) : OR unit := codeThenSingle "M" node.
Definition mangleFullTypeMetadata (node : Node) : OR unit := codeThenChildren "Mf" node.
Definition mangleProtocolDescriptor (node : Node) : OR unit :=
  _ <- put "Mp" ;; protocol <- beginAt node 0 ;; mangleProtocolWithoutPrefix protocol.
Definition mangleProtocolConformanceDescriptor (node : Node) : OR unit :=
  _ <- put "Mc" ;; conformance <- beginAt node 0 ;; mangleProtocolConformance conformance.
Definition manglePartialApplyForwarder (node : Node) : OR unit := codeThenSingle "PA__T" node.
Definition manglePartialApplyObjCForwarder (node : Node) : OR unit := codeThenSingle "PAo__T" node.

Definition mangleDirectness (node : Node) : OR unit :=
  index <- getIndex node ;;
  if wrap_u32 index =? Directness_Direct then put "d"
  else if wrap_u32 index =? Directness_Indirect then put "i"
  else unreachable "bad directness kind".

(** [Out << Code], where [Code] is null for a kind that is no value witness. *)
Definition mangleValueWitness (node : Node) : OR unit :=
  index <- getIndex node ;;
  _ <- put "w" ;;
  _ <- match VALUE_WITNESSES !! Z.to_nat (wrap_u32 index) with
       | Some Code => emit Code
       | None => fail (NullPointer "mangleValueWitness")
       end ;;
  mangleSingleChildNode node.

Definition mangleValueWitnessTable (node : Node) : OR unit := codeThenSingle "WV" node.
Definition mangleThrowsAnnotation (node : Node) : OR unit := put "z".
Definition mangleFieldOffset (node : Node) : OR unit := codeThenChildren "Wv" node.
Definition mangleProtocolWitnessTable (node : Node) : OR unit := codeThenSingle "WP" node.
Definition mangleGenericProtocolWitnessTable (node : Node) : OR unit := codeThenSingle "WG" node.
Definition mangleGenericProtocolWitnessTableInstantiationFunction (node : Node) : OR unit :=
  codeThenSingle "WI" node.
Definition mangleProtocolWitnessTableAccessor (node : Node) : OR unit := codeThenSingle "Wa" node.
Definition mangleLazyProtocolWitnessTableAccessor (node : Node) : OR unit := codeThenChildren "Wl" node.
Definition mangleLazyProtocolWitnessTableCacheVariable (node : Node) : OR unit := codeThenChildren "WL" node.
Definition mangleAssociatedTypeMetadataAccessor (node : Node) : OR unit := codeThenChildren "Wt" node.
Definition mangleAssociatedTypeWitnessTableAccessor (node : Node) : OR unit :=
  _ <- put "WT" ;;
  _ <- assert "mangleAssociatedTypeWitnessTableAccessor" (getNumChildren node =? 3)%nat ;;
  _ <- mangleChildNode node 0 ;;
  _ <- mangleChildNode node 1 ;;
  protocol <- beginAt node 2 ;;
  mangleProtocolWithoutPrefix protocol.

(** With a generic signature if there are three children. *)
Definition mangleReabstraction (code : string) (node : Node) : OR unit :=
  _ <- put code ;; _ <- when (getNumChildren node =? 3)%nat (put "G") ;; mangleChildNodes node.
Definition mangleReabstractionThunkHelper (node : Node) : OR unit := mangleReabstraction "TR" node.
Definition mangleReabstractionThunk (node : Node) : OR unit := mangleReabstraction "Tr" node.
Definition mangleProtocolWitness (node : Node) : OR unit := codeThenChildren "TW" node.

(** *** Types *)

Definition mangleTypeMangling (node : Node) : OR unit := codeThenSingle "t" node.

Definition mangleBuiltinVector (text : str) : OR unit :=
  let '(first, second) := split text "x" in
  _ <- put "v" ;; _ <- emit first ;; _ <- put "B" ;;
  if str_eqb second (lit "RawPointer") then put "p"
  else
    match stripPrefix second "Float" with
    | Some size => _ <- put "f" ;; _ <- emit size ;; put "_"
    | None =>
        match stripPrefix second "Int" with
        | Some size => _ <- put "i" ;; _ <- emit size ;; put "_"
        | None => unreachable "unexpected builtin vector type"
        end
    end.

Definition mangleBuiltinTypeName (node : Node) : OR unit :=
  _ <- put "B" ;;
  text <- getText node ;;
  if str_eqb text (lit "Builtin.BridgeObject") then put "b"
  else if str_eqb text (lit "Builtin.UnsafeValueBuffer") then put "B"
  else if str_eqb text (lit "Builtin.UnknownObject") then put "O"
  else if str_eqb text (lit "Builtin.NativeObject") then put "o"
  else if str_eqb text (lit "Builtin.RawPointer") then put "p"
  else if str_eqb text (lit "Builtin.Word") then put "w"
  else
    match stripPrefix text "Builtin.Int" with
    | Some size => _ <- put "i" ;; _ <- emit size ;; put "_"
    | None =>
        match stripPrefix text "Builtin.Float" with
        | Some size => _ <- put "f" ;; _ <- emit size ;; put "_"
        | None =>
            match stripPrefix text "Builtin.Vec" with
            | Some vector => mangleBuiltinVector vector
            | None => unreachable "unexpected builtin type"
            end
        end
    end.

Definition mangleFunctionType (node : Node) : OR unit := codeThenChildren "F" node.
Definition mangleUncurriedFunctionType (node : Node) : OR unit := codeThenChildren "f" node.
Definition mangleObjCBlock (node : Node) : OR unit := codeThenChildren "b" node.
Definition mangleCFunctionPointer (node : Node) : OR unit := codeThenChildren "c" node.
Definition mangleAutoClosureType (node : Node) : OR unit := codeThenChildren "K" node.
Definition mangleThinFunctionType (node : Node) : OR unit := codeThenChildren "Xf" node.
Definition mangleArgumentTuple (node : Node) : OR unit := mangleSingleChildNode node.
Definition mangleReturnType (node : Node) : OR unit := mangleSingleChildNode node.

(** A chain of [if (text == "...") Out << c;] *)
Fixpoint putCase (text : str) (cases : list (string * string)) (message : string) : OR unit :=
  match cases with
  | [] => unreachable message
  | (expected, code) :: cases =>
      if str_eqb text (lit expected) then put code else putCase text cases message
  end.

Definition mangleImplFunctionAttribute (node : Node) : OR unit :=
  text <- getText node ;;
  putCase text
    [("@convention(block)", "Cb"); ("@convention(c)", "Cc"); ("@convention(method)", "Cm");
     ("@convention(objc_method)", "CO"); ("@convention(witness_method)", "Cw")]%string
    "bad impl-function-attribute".

Definition mangleImplConvention (node : Node) : OR unit :=
  _ <- assert "mangleImplConvention" (Kind_eqb (getKind node) K_ImplConvention) ;;
  text <- getText node ;;
  putCase text
    [("@autoreleased", "a"); ("@unowned", "d"); ("@unowned_inner_pointer", "D"); ("@guaranteed", "g");
     ("@deallocating", "e"); ("@in", "i"); ("@out", "i"); ("@inout", "l"); ("@owned", "o")]%string
    "invalid impl convention".

Definition mangleImplParameter (node : Node) : OR unit :=
  _ <- assert "mangleImplParameter" (getNumChildren node =? 2)%nat ;; mangleChildNodes node.
Definition mangleImplErrorResult (node : Node) : OR unit :=
  _ <- assert "mangleImplErrorResult" (getNumChildren node =? 2)%nat ;; codeThenChildren "z" node.
Definition mangleImplResult (node : Node) : OR unit :=
  _ <- assert "mangleImplResult" (getNumChildren node =? 2)%nat ;; mangleChildNodes node.
(** The old mangler does not encode escaping. *)
Definition mangleImplEscaping (node : Node) : OR unit := ret tt.

(** A loop of [mangleImplFunctionType] over the children of a kind: the others are left. *)
Fixpoint mangleWhile (kind : Kind) (body : Node -> OR unit) (nodes : list Node) : OR (list Node) :=
  match nodes with
  | [] => ret []
  | n :: rest =>
      if Kind_eqb (getKind n) kind then _ <- body n ;; mangleWhile kind body rest else ret nodes
  end.

(** The convention of the callee, if it comes first. *)
Definition mangleCallee (nodes : list Node) : OR (list Node) :=
  match nodes with
  | convention :: rest =>
      if Kind_eqb (getKind convention) K_ImplConvention then
        text <- getText convention ;;
        _ <- putCase text
               [("@callee_unowned", "d"); ("@callee_guaranteed", "g"); ("@callee_owned", "o")]%string
               "bad callee convention" ;;
        ret rest
      else _ <- put "t" ;; ret nodes
  | [] => _ <- put "t" ;; ret []
  end.

(** The generic signature, if it comes next. *)
Definition mangleImplSignature (nodes : list Node) : OR (list Node) :=
  match nodes with
  | signature :: rest =>
      let generic := Kind_eqb (getKind signature) K_DependentGenericSignature in
      if generic || Kind_eqb (getKind signature) K_DependentPseudogenericSignature then
        _ <- put (if generic then "G" else "g") ;; _ <- mangleDependentGenericSignature signature ;; ret rest
      else ret nodes
  | [] => ret []
  end.

Definition mangleImplFunctionType (node : Node) : OR unit :=
  _ <- put "XF" ;;
  nodes <- mangleCallee (children node) ;;
  nodes <- mangleWhile K_ImplFunctionAttribute mangle nodes ;;
  nodes <- mangleImplSignature nodes ;;
  _ <- put "_" ;;
  nodes <- mangleWhile K_ImplParameter mangleImplParameter nodes ;;
  _ <- put "_" ;;
  _ <- mangleNodes nodes ;;
  put "_".

Definition mangleDynamicSelf (node : Node) : OR unit := codeThenSingle "D" node.
Definition mangleErrorType (node : Node) : OR unit := put "ERR".
Definition mangleSILBoxType (node : Node) : OR unit := codeThenSingle "Xb" node.

(** A metatype, with its representation if there are two children. *)
Definition mangleMetatypeAs (alone represented : string) (node : Node) : OR unit :=
  if (getNumChildren node =? 1)%nat then codeThenSingle alone node
  else
    _ <- assert "mangleMetatype" (getNumChildren node =? 2)%nat ;;
    codeThenChildren represented node.
Definition mangleMetatype (node : Node) : OR unit := mangleMetatypeAs "M" "XM" node.
Definition mangleExistentialMetatype (node : Node) : OR unit := mangleMetatypeAs "PM" "XPM" node.

Definition mangleMetatypeRepresentation (node : Node) : OR unit :=
  text <- getText node ;;
  putCase text [("@thin", "t"); ("@thick", "T"); ("@objc_metatype", "o")]%string "bad metatype representation".

Definition mangleProtocolList (node : Node) : OR unit :=
  _ <- put "P" ;; mangleProtocolListWithoutPrefix node None.

Definition mangleProtocolListWithClass (node : Node) : OR unit :=
  _ <- put "Xc" ;;
  _ <- mangleChildNode node 1 ;;
  protocols <- getChild node 0 ;;
  mangleProtocolListWithoutPrefix protocols None.

Definition mangleProtocolListWithAnyObject (node : Node) : OR unit :=
  let P := mkNode K_Protocol NoPayload
             [createNodeText K_Module (lit "Swift"); createNodeText K_Identifier (lit "AnyObject")] in
  _ <- put "P" ;;
  protocols <- getChild node 0 ;;
  mangleProtocolListWithoutPrefix protocols (Some P).

Definition mangleUnowned (node : Node) : OR unit := codeThenSingle "Xo" node.
Definition mangleUnmanaged (node : Node) : OR unit := codeThenSingle "Xu" node.
Definition mangleWeak (node : Node) : OR unit := codeThenSingle "Xw" node.
Definition mangleShared (node : Node) : OR unit := codeThenSingle "h" node.
Definition mangleInOut (node : Node) : OR unit := codeThenSingle "R" node.

(** Whether the last element of a tuple is marked as variadic. *)
Definition isVariadicTuple (node : Node) : OR bool :=
  match getNumChildren node with
  | O => ret false
  | S n =>
      element <- getChild node n ;;
      first <- getFirstChild element ;;
      ret (Kind_eqb (getKind first) K_VariadicMarker)
  end.

Definition mangleTuple (node : Node) : OR unit :=
  variadic <- isVariadicTuple node ;;
  _ <- put (if (variadic : bool) then "t" else "T") ;;
  _ <- mangleChildNodes node ;;
  put "_".

Definition mangleTupleElement (node : Node) : OR unit := mangleChildNodes node.
Definition mangleTupleElementName (node : Node) : OR unit := mangleTextAs NotOperator node.
(** Handled in [mangleTuple]. *)
Definition mangleVariadicMarker (node : Node) : OR unit := ret tt.

Definition mangleDependentGenericType (node : Node) : OR unit := codeThenChildren "u" node.
Definition mangleDependentPseudogenericSignature (node : Node) : OR unit := mangleDependentGenericSignature node.
Definition mangleDependentGenericParamCount (node : Node) : OR unit :=
  unreachable "handled inline in DependentGenericSignature".

(** A protocol, for which there is a shorter mangling. *)
Definition conformsToProtocol (constraint : Node) : OR NodePointer :=
  if Kind_eqb (getKind constraint) K_Type && (getNumChildren constraint =? 1)%nat then
    protocol <- getChild constraint 0 ;;
    ret (if Kind_eqb (getKind protocol) K_Protocol then Some protocol else None)
  else ret None.

Definition mangleDependentGenericConformanceRequirement (node : Node) : OR unit :=
  constrained <- getChild node 0 ;;
  _ <- mangleConstrainedType constrained ;;
  protocol <- (if (getNumChildren node =? 2)%nat
               then constraint <- getChild node 1 ;; conformsToProtocol constraint
               else ret None) ;;
  match protocol with
  | Some protocol => mangleProtocolWithoutPrefix protocol
  | None => constraint <- getChild node 1 ;; mangle constraint
  end.

Definition mangleDependentGenericSameTypeRequirement (node : Node) : OR unit :=
  constrained <- getChild node 0 ;;
  _ <- mangleConstrainedType constrained ;;
  _ <- put "z" ;;
  second <- getChild node 1 ;;
  mangle second.

(** The [int] of the child [index], and -1 if there is none. *)
Definition layoutNumber (node : Node) (index : nat) : OR Z :=
  if (index <? getNumChildren node)%nat then
    c <- getChild node index ;; i <- getIndex c ;; ret (wrap_int i)
  else ret (-1).

Definition mangleDependentGenericLayoutRequirement (node : Node) : OR unit :=
  constrained <- getChild node 0 ;;
  _ <- mangleConstrainedType constrained ;;
  _ <- put "l" ;;
  c <- getChild node 1 ;;
  id <- getText c ;;
  size <- layoutNumber node 2 ;;
  alignment <- layoutNumber node 3 ;;
  _ <- emit id ;;
  _ <- when (0 <=? size) (emit (decimal size)) ;;
  when (0 <=? alignment) (_ <- put "_" ;; emit (decimal alignment)).

Definition mangleAssociatedType (node : Node) : OR unit :=
  if hasChildren node then
    _ <- assert "mangleAssociatedType" (getNumChildren node =? 1)%nat ;;
    protocols <- beginAt node 0 ;;
    mangleProtocolListWithoutPrefix protocols None
  else put "_".

Definition mangleQualifiedArchetype (node : Node) : OR unit := codeThenChildren "Qq" node.
Definition mangleDeclContext (node : Node) : OR unit := mangleSingleChildNode node.
Definition mangleAssociatedTypeRef (node : Node) : OR unit := substituted node (codeThenChildren "Q" node).

Definition mangleDependentMemberType (node : Node) : OR unit :=
  r <- memberChain node ;;
  let '(members, base) := r in
  _ <- assert "dependent members not based on a generic param"
         (Kind_eqb (getKind base) K_DependentGenericParamType) ;;
  if (length members =? 1)%nat then
    _ <- put "w" ;;
    _ <- mangleDependentGenericParamIndex base ;;
    mangleMemberNames members
  else
    _ <- put "W" ;;
    _ <- mangleDependentGenericParamIndex base ;;
    _ <- mangleMemberNames (reverse members) ;;
    put "_".

Definition mangleDependentAssociatedTypeRef (node : Node) : OR unit :=
  substituted node
    (_ <- when (hasChildren node)
            (_ <- put "P" ;; protocol <- getFirstChild node ;; mangleProtocolWithoutPrefix protocol) ;;
     mangleIdentifierNode node).

Definition mangleDependentGenericParamType (node : Node) : OR unit :=
  d <- getChild node 0 ;;
  depth <- getIndex d ;;
  isX <- (if depth =? 0 then i <- getChild node 1 ;; index <- getIndex i ;; ret (index =? 0)
          else ret false) ;;
  if (isX : bool) then put "x" else _ <- put "q" ;; mangleDependentGenericParamIndex node.

Definition mangleBoundGenericClass (node : Node) : OR unit := mangleAnyNominalType node false.
Definition mangleBoundGenericStructure (node : Node) : OR unit := mangleAnyNominalType node false.
Definition mangleBoundGenericEnum (node : Node) : OR unit := mangleAnyNominalType node false.

Definition mangleLabelList (node : Node) : OR unit :=
  if (getNumChildren node =? 0)%nat then put "y" else mangleChildNodes node.

(** The kind of the list is tested for that of a type. *)
Fixpoint mangleBoxArgs (genericArgs : Node) (types : list Node) : OR unit :=
  match types with
  | [] => ret tt
  | type :: types =>
      _ <- assert "mangleSILBoxTypeWithLayout: Type" (Kind_eqb (getKind genericArgs) K_Type) ;;
      _ <- mangleType type ;;
      mangleBoxArgs genericArgs types
  end.

(** The kind of the layout is tested for that of a field. *)
Fixpoint mangleBoxFields (layout : Node) (fields : list Node) : OR unit :=
  match fields with
  | [] => ret tt
  | field :: fields =>
      _ <- assert "mangleSILBoxLayout: field"
             (Kind_eqb (getKind layout) K_SILBoxImmutableField || Kind_eqb (getKind layout) K_SILBoxMutableField) ;;
      _ <- mangle field ;;
      mangleBoxFields layout fields
  end.

Definition mangleSILBoxLayout (node : Node) : OR unit :=
  _ <- assert "mangleSILBoxLayout" (Kind_eqb (getKind node) K_SILBoxLayout) ;;
  _ <- mangleBoxFields node (children node) ;;
  put "_".

Definition mangleSILBoxTypeWithLayout (node : Node) : OR unit :=
  let n := getNumChildren node in
  _ <- assert "mangleSILBoxTypeWithLayout" (Kind_eqb (getKind node) K_SILBoxTypeWithLayout) ;;
  _ <- assert "mangleSILBoxTypeWithLayout: getNumChildren" ((n =? 1)%nat || (n =? 3)%nat) ;;
  _ <- put "XB" ;;
  layout <- getChild node 0 ;;
  _ <- assert "mangleSILBoxTypeWithLayout: SILBoxLayout" (Kind_eqb (getKind layout) K_SILBoxLayout) ;;
  if (n =? 3)%nat then
    signature <- getChild node 1 ;;
    _ <- assert "mangleSILBoxTypeWithLayout: signature" (Kind_eqb (getKind signature) K_DependentGenericSignature) ;;
    genericArgs <- getChild node 2 ;;
    _ <- assert "mangleSILBoxTypeWithLayout: TypeList" (Kind_eqb (getKind genericArgs) K_TypeList) ;;
    _ <- put "G" ;;
    _ <- mangleDependentGenericSignature signature ;;
    _ <- mangleSILBoxLayout layout ;;
    _ <- mangleBoxArgs genericArgs (children genericArgs) ;;
    put "_"
  else mangleSILBoxLayout layout.

Definition mangleSILBoxField (code : string) (node : Node) : OR unit :=
  _ <- put code ;;
  _ <- assert "mangleSILBoxField" (getNumChildren node =? 1)%nat ;;
  type <- getChild node 0 ;;
  _ <- assert "mangleSILBoxField: Type" (Kind_eqb (getKind type) K_Type) ;;
  mangleType type.
Definition mangleSILBoxMutableField (node : Node) : OR unit := mangleSILBoxField "m" node.
Definition mangleSILBoxImmutableField (node : Node) : OR unit := mangleSILBoxField "i" node.
Definition mangleAssocTypePath (node : Node) : OR unit := unreachable "unsupported".

(** *** Kinds of the new mangling *)

Definition mangleReflectionMetadataBuiltinDescriptor (node : Node) : OR unit := put "MRb".
Definition mangleReflectionMetadataFieldDescriptor (node : Node) : OR unit := put "MRf".
Definition mangleReflectionMetadataAssocTypeDescriptor (node : Node) : OR unit := put "MRa".
Definition mangleReflectionMetadataSuperclassDescriptor (node : Node) : OR unit := put "MRc".
Definition mangleGenericTypeParamDecl (node : Node) : OR unit := unreachable "todo".
Definition mangleEmptyList (node : Node) : OR unit := put "<empty>".
Definition mangleFirstElementMarker (node : Node) : OR unit := put "<first>".
Definition mangleOutlinedCopy (node : Node) : OR unit := codeThenChildren "Wy" node.
Definition mangleOutlinedConsume (node : Node) : OR unit := codeThenChildren "We" node.
Definition mangleOutlinedRetain (node : Node) : OR unit := codeThenSingle "Wr" node.
Definition mangleOutlinedRelease (node : Node) : OR unit := codeThenSingle "Ws" node.
Definition mangleOutlinedInitializeWithTake (node : Node) : OR unit := codeThenSingle "Wb" node.
Definition mangleOutlinedInitializeWithCopy (node : Node) : OR unit := codeThenSingle "Wc" node.
Definition mangleOutlinedAssignWithTake (node : Node) : OR unit := codeThenSingle "Wd" node.
Definition mangleOutlinedAssignWithCopy (node : Node) : OR unit := codeThenSingle "Wf" node.
Definition mangleOutlinedDestroy (node : Node) : OR unit := codeThenSingle "Wh" node.
Definition mangleOutlinedVariable (node : Node) : OR unit :=
  _ <- put "Tv" ;; index <- getIndex node ;; _ <- emit (decimal index) ;; mangleSingleChildNode node.
Definition mangleOutlinedBridgedMethod (node : Node) : OR unit :=
  _ <- put "Te" ;; text <- getText node ;; _ <- emit text ;; mangleSingleChildNode node.
Definition mangleCoroutineContinuationPrototype (node : Node) : OR unit := codeThenChildren "TC" node.
Definition mangleKeyPathGetterThunkHelper (node : Node) : OR unit := codeThenChildren "TK" node.
Definition mangleKeyPathSetterThunkHelper (node : Node) : OR unit := codeThenChildren "Tk" node.
Definition mangleKeyPathEqualsThunkHelper (node : Node) : OR unit := codeThenChildren "TH" node.
Definition mangleKeyPathHashThunkHelper (node : Node) : OR unit := codeThenChildren "Th" node.
Definition mangleVTableThunk (node : Node) : OR unit := codeThenChildren "TV" node.

(** The [switch] of [mangleEntityContext]: the kinds that are contexts. *)
Definition dispatchContext (node : Node) (AsContext : bool) : OR unit :=
  match getKind node with
  | K_Allocator => mangleAllocator node
  | K_Class => mangleClass node AsContext
  | K_Constructor => mangleConstructor node
  | K_Deallocator => mangleDeallocator node
  | K_DefaultArgumentInitializer => mangleDefaultArgumentInitializer node
  | K_Destructor => mangleDestructor node
  | K_DidSet => mangleDidSet node
  | K_Enum => mangleEnum node AsContext
  | K_ExplicitClosure => mangleExplicitClosure node
  | K_Extension => mangleExtension node
  | K_Function => mangleFunction node
  | K_Getter => mangleGetter node
  | K_GlobalGetter => mangleGlobalGetter node
  | K_IVarInitializer => mangleIVarInitializer node
  | K_IVarDestroyer => mangleIVarDestroyer node
  | K_ImplicitClosure => mangleImplicitClosure node
  | K_Initializer => mangleInitializer node
  | K_MaterializeForSet => mangleMaterializeForSet node
  | K_Module => mangleModule node AsContext
  | K_NativeOwningAddressor => mangleNativeOwningAddressor node
  | K_NativeOwningMutableAddressor => mangleNativeOwningMutableAddressor node
  | K_NativePinningAddressor => mangleNativePinningAddressor node
  | K_NativePinningMutableAddressor => mangleNativePinningMutableAddressor node
  | K_OwningAddressor => mangleOwningAddressor node
  | K_OwningMutableAddressor => mangleOwningMutableAddressor node
  | K_Protocol => mangleProtocol node
  | K_Setter => mangleSetter node
  | K_Static => mangleStatic node
  | K_Structure => mangleStructure node AsContext
  | K_Subscript => mangleSubscript node
  | K_TypeAlias => mangleTypeAlias node
  | K_UnsafeAddressor => mangleUnsafeAddressor node
  | K_UnsafeMutableAddressor => mangleUnsafeMutableAddressor node
  | K_Variable => mangleVariable node
  | K_WillSet => mangleWillSet node
  | K_CurryThunk => mangleCurryThunk node
  | K_DispatchThunk => mangleDispatchThunk node
  | _ => unreachable "not a context node"
  end.

(** The [switch] of [mangle(node)]. *)
Definition dispatch (node : Node) : OR unit :=
  match getKind node with
  | K_ArgumentTuple => mangleArgumentTuple node
  | K_AssociatedType => mangleAssociatedType node
  | K_AssociatedTypeRef => mangleAssociatedTypeRef node
  | K_AssociatedTypeMetadataAccessor => mangleAssociatedTypeMetadataAccessor node
  | K_AssociatedTypeWitnessTableAccessor => mangleAssociatedTypeWitnessTableAccessor node
  | K_AutoClosureType => mangleAutoClosureType node
  | K_BoundGenericClass => mangleBoundGenericClass node
  | K_BoundGenericEnum => mangleBoundGenericEnum node
  | K_BoundGenericStructure => mangleBoundGenericStructure node
  | K_BuiltinTypeName => mangleBuiltinTypeName node
  | K_CFunctionPointer => mangleCFunctionPointer node
  | K_ClassMetadataBaseOffset => mangleClassMetadataBaseOffset node
  | K_CoroutineContinuationPrototype => mangleCoroutineContinuationPrototype node
  | K_DeclContext => mangleDeclContext node
  | K_DependentAssociatedTypeRef => mangleDependentAssociatedTypeRef node
  | K_DependentGenericConformanceRequirement => mangleDependentGenericConformanceRequirement node
  | K_DependentGenericParamCount => mangleDependentGenericParamCount node
  | K_DependentGenericParamType => mangleDependentGenericParamType node
  | K_DependentGenericSameTypeRequirement => mangleDependentGenericSameTypeRequirement node
  | K_DependentGenericLayoutRequirement => mangleDependentGenericLayoutRequirement node
  | K_DependentGenericSignature => mangleDependentGenericSignature node
  | K_DependentGenericType => mangleDependentGenericType node
  | K_DependentMemberType => mangleDependentMemberType node
  | K_DependentPseudogenericSignature => mangleDependentPseudogenericSignature node
  | K_Directness => mangleDirectness node
  | K_DynamicAttribute => mangleDynamicAttribute node
  | K_DirectMethodReferenceAttribute => mangleDirectMethodReferenceAttribute node
  | K_DynamicSelf => mangleDynamicSelf node
  | K_ErrorType => mangleErrorType node
  | K_ExistentialMetatype => mangleExistentialMetatype node
  | K_FieldOffset => mangleFieldOffset node
  | K_FullTypeMetadata => mangleFullTypeMetadata node
  | K_FunctionSignatureSpecialization => mangleFunctionSignatureSpecialization node
  | K_FunctionSignatureSpecializationParam => mangleFunctionSignatureSpecializationParam node
  | K_FunctionSignatureSpecializationParamKind => mangleFunctionSignatureSpecializationParamKind node
  | K_FunctionSignatureSpecializationParamPayload => mangleFunctionSignatureSpecializationParamPayload node
  | K_FunctionType => mangleFunctionType node
  | K_GenericPartialSpecialization => mangleGenericPartialSpecialization node
  | K_GenericPartialSpecializationNotReAbstracted => mangleGenericPartialSpecializationNotReAbstracted node
  | K_GenericProtocolWitnessTable => mangleGenericProtocolWitnessTable node
  | K_GenericProtocolWitnessTableInstantiationFunction => mangleGenericProtocolWitnessTableInstantiationFunction node
  | K_GenericSpecialization => mangleGenericSpecialization node
  | K_GenericSpecializationNotReAbstracted => mangleGenericSpecializationNotReAbstracted node
  | K_GenericSpecializationParam => mangleGenericSpecializationParam node
  | K_GenericTypeMetadataPattern => mangleGenericTypeMetadataPattern node
  | K_Global => mangleGlobal node
  | K_Identifier => mangleIdentifierNode node
  | K_Index => mangleIndexNode node
  | K_ImplEscaping => mangleImplEscaping node
  | K_ImplConvention => mangleImplConvention node
  | K_ImplFunctionAttribute => mangleImplFunctionAttribute node
  | K_ImplFunctionType => mangleImplFunctionType node
  | K_ImplParameter => mangleImplParameter node
  | K_ImplResult => mangleImplResult node
  | K_ImplErrorResult => mangleImplErrorResult node
  | K_InOut => mangleInOut node
  | K_InfixOperator => mangleInfixOperator node
  | K_KeyPathGetterThunkHelper => mangleKeyPathGetterThunkHelper node
  | K_KeyPathSetterThunkHelper => mangleKeyPathSetterThunkHelper node
  | K_KeyPathEqualsThunkHelper => mangleKeyPathEqualsThunkHelper node
  | K_KeyPathHashThunkHelper => mangleKeyPathHashThunkHelper node
  | K_LazyProtocolWitnessTableAccessor => mangleLazyProtocolWitnessTableAccessor node
  | K_LazyProtocolWitnessTableCacheVariable => mangleLazyProtocolWitnessTableCacheVariable node
  | K_LocalDeclName => mangleLocalDeclName node
  | K_MergedFunction => mangleMergedFunction node
  | K_Metatype => mangleMetatype node
  | K_MetatypeRepresentation => mangleMetatypeRepresentation node
  | K_Metaclass => mangleMetaclass node
  | K_NominalTypeDescriptor => mangleNominalTypeDescriptor node
  | K_NonObjCAttribute => mangleNonObjCAttribute node
  | K_Number => mangleNumber node
  | K_ObjCAttribute => mangleObjCAttribute node
  | K_ObjCBlock => mangleObjCBlock node
  | K_PartialApplyForwarder => manglePartialApplyForwarder node
  | K_PartialApplyObjCForwarder => manglePartialApplyObjCForwarder node
  | K_PostfixOperator => manglePostfixOperator node
  | K_PrefixOperator => manglePrefixOperator node
  | K_PrivateDeclName => manglePrivateDeclName node
  | K_ProtocolConformance => mangleProtocolConformance node
  | K_ProtocolDescriptor => mangleProtocolDescriptor node
  | K_ProtocolConformanceDescriptor => mangleProtocolConformanceDescriptor node
  | K_ProtocolList => mangleProtocolList node
  | K_ProtocolListWithClass => mangleProtocolListWithClass node
  | K_ProtocolListWithAnyObject => mangleProtocolListWithAnyObject node
  | K_ProtocolWitness => mangleProtocolWitness node
  | K_ProtocolWitnessTable => mangleProtocolWitnessTable node
  | K_ProtocolWitnessTableAccessor => mangleProtocolWitnessTableAccessor node
  | K_QualifiedArchetype => mangleQualifiedArchetype node
  | K_ReabstractionThunk => mangleReabstractionThunk node
  | K_ReabstractionThunkHelper => mangleReabstractionThunkHelper node
  | K_ReturnType => mangleReturnType node
  | K_Shared => mangleShared node
  | K_SILBoxType => mangleSILBoxType node
  | K_SILBoxTypeWithLayout => mangleSILBoxTypeWithLayout node
  | K_SILBoxLayout => mangleSILBoxLayout node
  | K_SILBoxMutableField => mangleSILBoxMutableField node
  | K_SILBoxImmutableField => mangleSILBoxImmutableField node
  | K_SpecializationPassID => mangleSpecializationPassID node
  | K_SpecializationIsFragile => mangleSpecializationIsFragile node
  | K_Suffix => mangleSuffix node
  | K_ThinFunctionType => mangleThinFunctionType node
  | K_Tuple => mangleTuple node
  | K_TupleElement => mangleTupleElement node
  | K_TupleElementName => mangleTupleElementName node
  | K_Type => mangleType node
  | K_TypeList => mangleTypeList node
  | K_TypeMangling => mangleTypeMangling node
  | K_TypeMetadata => mangleTypeMetadata node
  | K_TypeMetadataAccessFunction => mangleTypeMetadataAccessFunction node
  | K_TypeMetadataLazyCache => mangleTypeMetadataLazyCache node
  | K_UncurriedFunctionType => mangleUncurriedFunctionType node
  | K_Unmanaged => mangleUnmanaged node
  | K_Unowned => mangleUnowned node
  | K_ValueWitness => mangleValueWitness node
  | K_ValueWitnessTable => mangleValueWitnessTable node
  | K_VTableThunk => mangleVTableThunk node
  | K_VTableAttribute => mangleVTableAttribute node
  | K_Weak => mangleWeak node
  | K_ReflectionMetadataBuiltinDescriptor => mangleReflectionMetadataBuiltinDescriptor node
  | K_ReflectionMetadataFieldDescriptor => mangleReflectionMetadataFieldDescriptor node
  | K_ReflectionMetadataAssocTypeDescriptor => mangleReflectionMetadataAssocTypeDescriptor node
  | K_ReflectionMetadataSuperclassDescriptor => mangleReflectionMetadataSuperclassDescriptor node
  | K_GenericTypeParamDecl => mangleGenericTypeParamDecl node
  | K_ThrowsAnnotation => mangleThrowsAnnotation node
  | K_EmptyList => mangleEmptyList node
  | K_FirstElementMarker => mangleFirstElementMarker node
  | K_VariadicMarker => mangleVariadicMarker node
  | K_OutlinedBridgedMethod => mangleOutlinedBridgedMethod node
  | K_OutlinedCopy => mangleOutlinedCopy node
  | K_OutlinedConsume => mangleOutlinedConsume node
  | K_OutlinedRetain => mangleOutlinedRetain node
  | K_OutlinedRelease => mangleOutlinedRelease node
  | K_OutlinedInitializeWithTake => mangleOutlinedInitializeWithTake node
  | K_OutlinedInitializeWithCopy => mangleOutlinedInitializeWithCopy node
  | K_OutlinedAssignWithTake => mangleOutlinedAssignWithTake node
  | K_OutlinedAssignWithCopy => mangleOutlinedAssignWithCopy node
  | K_OutlinedDestroy => mangleOutlinedDestroy node
  | K_OutlinedVariable => mangleOutlinedVariable node
  | K_AssocTypePath => mangleAssocTypePath node
  | K_LabelList => mangleLabelList node
  | _ => dispatchContext node false
  end.
End mangle.

(** ** The recursion *)

(** Each function with one unit of fuel less in what it calls. *)
Fixpoint mangleWithFuel (fuel : nat) (node : Node) : OR unit :=
  match fuel with
  | O => fail OutOfFuel
  | S fuel => dispatch (mangleWithFuel fuel) (mangleContextWithFuel fuel) (mangleUnboundWithFuel fuel) node
  end
with mangleContextWithFuel (fuel : nat) (node : Node) : OR unit :=
  match fuel with
  | O => fail OutOfFuel
  | S fuel =>
      dispatchContext (mangleWithFuel fuel) (mangleContextWithFuel fuel) (mangleUnboundWithFuel fuel) node true
  end
with mangleUnboundWithFuel (fuel : nat) (node : Node) (AsContext : bool) : OR unit :=
  match fuel with
  | O => fail OutOfFuel
  | S fuel =>
      mangleAnyNominalType (mangleWithFuel fuel) (mangleContextWithFuel fuel) (mangleUnboundWithFuel fuel)
        node AsContext
  end.

(** Every call is on a node of a smaller height, but that an unspecialized type
    takes one more. *)
Definition mangle_fuel (node : Node) : nat := 2 * node_height node + 2.

(** [mangleNodeOld(node)] *)
Definition mangleNodeOld (node : NodePointer) : outcome str :=
  match node with
  | None => Ok []
  | Some node =>
      match mangleWithFuel (mangle_fuel node) node (mkOldRemangler [] []) with
      | Ok (_, s) => Ok (Out s)
      | Crash c => Crash c
      end
  end.

(** [Demangle::mangleIdentifier(data, length, operatorKind, out, usePunycode)] *)
Definition mangleIdentifierOld (data : str) (operatorKind : OperatorKind) (usePunycode : bool) : outcome str :=
  result (mangleIdentifierText data operatorKind usePunycode tt).
