(* ===== verification/OldRemanglerTheorems.v ===== *)
(** * The old remangler's theorems

    Termination on every tree, and where the old mangling loses what it was
    given. That what it writes is read back is in [OldRoundtrip.v]. *)

From Stdlib Require Import String.
From S2P Require Import Prelude Nodes ManglingUtils Punycode PunycodeSpecs NodePrinter PrinterSpecs OldDemangler Remangler RemanglerSpecs OldRemangler UnspecializedTypes.

(** ** Termination *)

Abbreviation E := (fun c : crash => c <> OutOfFuel).
Abbreviation ends m P := (prints (S := OldRemangler) E m P).
Abbreviation finishes m := (ends m (fun _ => True)).

Ltac print_fail ::= discriminate.

Lemma ends_getChild n i : ends (getChild n i) (fun c => In c (children n)).
Proof.
  intros s. unfold wp, getChild. destruct (children n !! i) as [c|] eqn:H; cbn; [|done].
  apply list_elem_of_In. by eapply list_elem_of_lookup_2.
Qed.

Lemma ends_beginAt n i : ends (beginAt n i) (fun c => In c (children n)).
Proof.
  intros s. unfold wp, beginAt. destruct (children n !! i) as [c|] eqn:H; cbn; [|done].
  apply list_elem_of_In. by eapply list_elem_of_lookup_2.
Qed.

Lemma ends_getFirstChild n : ends (getFirstChild n) (fun c => In c (children n)).
Proof. intros s. unfold wp, getFirstChild. destruct (children n) eqn:H; cbn; [done|by left]. Qed.

Lemma ends_getText n : ends (getText n) (fun _ => True).
Proof. intros s. unfold wp, getText. by destruct (payload n). Qed.

Lemma ends_getIndex n : ends (getIndex n) (fun _ => True).
Proof. intros s. unfold wp, getIndex. by destruct (payload n). Qed.

Lemma ends_emit t : finishes (emit t).
Proof. by intros s. Qed.

Lemma ends_put t : finishes (put t).
Proof. by intros s. Qed.

Lemma ends_unreachable {A} m : finishes (unreachable (A := A) m).
Proof. by intros s. Qed.

#[local] Hint Resolve ends_unreachable ends_getChild ends_beginAt ends_getFirstChild ends_getText ends_getIndex ends_emit ends_put : printer.

Lemma ends_mangleIndex v : finishes (mangleIndex v).
Proof. unfold mangleIndex. prints. Qed.

Lemma ends_mangleIdentifier ident kind : finishes (mangleIdentifier ident kind).
Proof.
  intros s. unfold mangleIdentifier. apply wp_bind. unfold mangleIdentifierText. cbn [andb].
  apply wp_bind, wp_ret. destruct kind; cbn; done.
Qed.

#[local] Hint Resolve ends_mangleIndex ends_mangleIdentifier : printer.

Lemma ends_successIf v cases : finishes (successIf v cases).
Proof. induction cases as [|[e c] cases IH]; cbn [successIf]; prints. Qed.

#[local] Hint Resolve ends_successIf : printer.

Lemma ends_mangleStandardSubstitution n : finishes (mangleStandardSubstitution n).
Proof. unfold mangleStandardSubstitution, successIfDeclName, isInSwiftModule. destruct (getKind n); prints. Qed.

#[local] Hint Resolve ends_mangleStandardSubstitution : printer.

Lemma ends_trySubstitution n : finishes (trySubstitution n).
Proof. unfold trySubstitution. prints. Qed.

Lemma ends_addSubstitution entry : finishes (addSubstitution entry).
Proof. unfold addSubstitution. prints. apply prints_modify. done. Qed.

#[local] Hint Resolve ends_trySubstitution ends_addSubstitution : printer.

Lemma ends_substituted n body : finishes body -> finishes (substituted n body).
Proof. intros H. unfold substituted. prints. Qed.

#[local] Hint Resolve ends_substituted : printer.

(** A type that is not bound to generic arguments, nor inside one that is. *)
Abbreviation unspecialized n := (UnspecializedTypes.unspecialized (S := OldRemangler) n).

(** What is made of a specialized type is none, and no higher. *)
Lemma ends_unspecializedType h n : below h n -> ends (getUnspecialized n) (fun u => below h u /\ unspecialized u).
Proof.
  intros Hn%lies_any. eapply prints_mono; [by apply ends_getUnspecialized|]. by intros u [[] ?].
Qed.

(** Labels make a type higher by one at most. *)
Lemma ends_mapNodes (f : Node -> OR Node) (P Q : Node -> Prop) ns :
  (forall n, P n -> ends (f n) Q) -> Forall P ns -> ends (mapNodes f ns) (Forall Q).
Proof.
  intros Hf H. induction H as [|n ns Hn H IH]; cbn [mapNodes]; [by apply prints_ret|].
  eapply prints_bind; [by apply Hf|]. intros n' Hn'. eapply prints_bind; [exact IH|]. intros ns' Hns'.
  apply prints_ret. by constructor.
Qed.

Lemma ends_labelElements h labels ns :
  Forall (below h) ns -> ends (labelElements labels ns) (Forall (below (S h))).
Proof.
  intros H. revert labels. induction H as [|n ns Hn H IH]; intros labels; cbn [labelElements];
    [by apply prints_ret|].
  destruct labels as [|label labels]; [by apply prints_fail|].
  assert (1 <= h)%nat as Hh by (unfold below in Hn; destruct n; cbn in Hn; lia).
  eapply (prints_bind _ _ _ (below (S h))).
  - destruct (Kind_eqb _ _); [by apply prints_ret, below_S|].
    eapply prints_bind; [apply ends_getText|]. intros text _. apply prints_ret, height_le.
    constructor; [unfold below; cbn; lia|]. apply List.Forall_forall. intros c Hc. by eapply below_pred; [|exact Hn].
  - intros elt Helt. eapply prints_bind; [apply IH|]. intros elts Helts. apply prints_ret. by constructor.
Qed.

Lemma ends_labelArguments h labels n : below h n -> ends (labelArguments labels n) (below (S h)).
Proof.
  intros Hn. unfold labelArguments. eapply prints_bind; [apply ends_getFirstChild|]. intros type Ht.
  eapply prints_bind; [apply ends_getFirstChild|]. intros tuple Hu. apply prints_unit; [by apply prints_assert|].
  assert (exists h', h = S (S (S h')) /\ Forall (below h') (children tuple)) as (h' & -> & Hcs).
  { pose proof (height_child _ _ Ht) as H1. pose proof (height_child _ _ Hu) as H2. unfold below in Hn.
    assert (1 <= node_height tuple)%nat by (destruct tuple; cbn; lia).
    exists (h - 3)%nat. split; [lia|]. apply List.Forall_forall. intros c Hc%height_child. unfold below. lia. }
  eapply prints_bind; [by apply ends_labelElements|]. intros elts Helts. apply prints_ret.
  apply height_le. constructor; [|done]. apply height_le. constructor; [|done]. by apply height_le.
Qed.

Lemma ends_applyParamLabels h labels n : below h n -> ends (applyParamLabels labels n) (below (S h)).
Proof.
  intros Hn. unfold applyParamLabels. destruct (_ =? _)%nat; [by apply prints_ret, below_S|].
  destruct h as [|h]; [by unfold below in Hn; destruct n; cbn in Hn; lia|].
  eapply prints_bind.
  - apply (ends_mapNodes _ (below h) (below (S h))); [|by apply below_children].
    intros c Hc. unfold visitTypeChild. destruct (negb _); [by apply prints_ret, below_S|].
    destruct h as [|h]; [by unfold below in Hc; destruct c; cbn in Hc; lia|].
    eapply prints_bind.
    + apply (ends_mapNodes _ (below h) (below (S h))); [|by apply below_children].
      intros a Ha. destruct (Kind_eqb _ _); [by apply ends_labelArguments|by apply prints_ret, below_S].
    + intros cs Hcs. by apply prints_ret, height_le.
  - intros cs Hcs. by apply prints_ret, height_le.
Qed.

(** The handlers of a node of height [S h], with [mangle] for those below it. *)
Section recursion.
Context (h : nat) (mangle mangleContext : Node -> OR unit) (mangleUnboundType : Node -> bool -> OR unit).
Hypothesis Hmangle : forall n, below h n -> finishes (mangle n).
Hypothesis HmangleContext : forall n, below h n -> finishes (mangleContext n).
Hypothesis HmangleUnbound : forall n b, below (S h) n -> unspecialized n -> finishes (mangleUnboundType n b).

#[local] Hint Resolve Hmangle HmangleContext : printer.
#[local] Hint Extern 2 (below _ _) => solve [eauto 6 using below_in, below_pred, below_S] : printer.

Lemma ends_mangleNodes ns : Forall (below h) ns -> finishes (mangleNodes mangle ns).
Proof. intros H. induction H; cbn [mangleNodes]; prints. Qed.

Lemma ends_mangleChildNodes n : below (S h) n -> finishes (mangleChildNodes mangle n).
Proof. intros H. by apply ends_mangleNodes, below_children. Qed.

Lemma ends_mangleSingleChildNode n : below (S h) n -> finishes (mangleSingleChildNode mangle n).
Proof. intros H. unfold mangleSingleChildNode. prints. Qed.

Lemma ends_mangleChildNode n i : below (S h) n -> finishes (mangleChildNode mangle n i).
Proof. intros H. unfold mangleChildNode. prints. Qed.

Lemma ends_mangleEntityContext n : below h n -> finishes (mangleEntityContext mangleContext n).
Proof. apply HmangleContext. Qed.

#[local] Hint Resolve ends_mangleNodes ends_mangleChildNodes ends_mangleSingleChildNode ends_mangleChildNode
  ends_mangleEntityContext : printer.

Lemma ends_codeThenChildren c n : below (S h) n -> finishes (codeThenChildren mangle c n).
Proof. intros H. unfold codeThenChildren. prints. Qed.

Lemma ends_codeThenSingle c n : below (S h) n -> finishes (codeThenSingle mangle c n).
Proof. intros H. unfold codeThenSingle. prints. Qed.

#[local] Hint Resolve ends_codeThenChildren ends_codeThenSingle : printer.

Lemma ends_mangleEntityType n : below (S h) n -> finishes (mangleEntityType mangle n).
Proof.
  assert (forall m n, below m n -> below (S h) n -> finishes (mangleEntityType mangle n)) as H;
    [|intros Hn; by apply (H (node_height n)); [unfold below|]].
  induction m as [|m IH]; intros [k p cs] Hm Hn; [by unfold below in Hm; cbn in Hm; lia|].
  cbn [mangleEntityType]. apply prints_unit; [by apply prints_assert|].
  destruct cs as [|[k' p' inner] [|? ?]]; try by apply prints_fail.
  set (type := mkNode k' p' inner) in *.
  assert (below h type) as Ht by (eapply below_child; [exact Hn|by left]).
  assert (below m type) as Htm by (eapply below_child; [exact Hm|by left]).
  assert (forall r, In r inner -> finishes (match r with
    | mkNode rkind _ result =>
        _ <- assert "mangleEntityType: ReturnType" (Kind_eqb rkind K_ReturnType) ;;
        match result with
        | [result] => mangleEntityType mangle result
        | _ => fail (AssertionFailed "mangleEntityType: returnType->getNumChildren")
        end
    end)) as Hr.
  { intros [rk rp rs] Hin. apply prints_unit; [by apply prints_assert|].
    destruct rs as [|r [|? ?]]; try by apply prints_fail.
    assert (forall g, below g type -> below g r) as Hbr.
    { intros g Hg. apply (below_pred _ (mkNode rk rp [r])); [by left|]. by apply (below_pred _ type). }
    apply IH; [auto|apply below_S; auto]. }
  assert (forall x, In x inner -> below h x) as Hx by (intros x Hin; by apply (below_pred _ type)).
  destruct k'; try (by apply Hmangle);
    (apply prints_unit; [apply ends_put|]);
    destruct inner as [|a [|b [|c [|? ?]]]]; try (by apply prints_fail);
    repeat first [apply Hr; cbn; tauto|apply prints_unit; [apply Hmangle, Hx; cbn; tauto|]].
Qed.

#[local] Hint Resolve ends_mangleEntityType : printer.

Lemma ends_mangleTypeAt get n i :
  (forall n i, ends (get n i) (fun c => In c (children n))) -> below (S h) n ->
  finishes (mangleTypeAt mangle get n i).
Proof.
  intros Hget Hn. unfold mangleTypeAt. eapply prints_bind; [apply Hget|]. intros labels Hl. cbv beta in Hl.
  assert (below h labels) by by eapply below_in. destruct (Kind_eqb _ _); [|by apply ends_mangleEntityType, below_S].
  eapply prints_bind; [apply Hget|]. intros type Ht. cbv beta in Ht.
  eapply prints_bind; [apply (ends_applyParamLabels h); by eapply below_in|].
  intros type' Ht'. by apply ends_mangleEntityType.
Qed.

#[local] Hint Resolve ends_mangleTypeAt : printer.

Lemma ends_simpleEntity n b e : below (S h) n -> finishes (mangleSimpleEntity mangleContext n b e).
Proof. intros H. unfold mangleSimpleEntity. prints. Qed.

Lemma ends_namedEntity n b e : below (S h) n -> finishes (mangleNamedEntity mangle mangleContext n b e).
Proof. intros H. unfold mangleNamedEntity. prints. Qed.

Lemma ends_typedEntity n b e : below (S h) n -> finishes (mangleTypedEntity mangle mangleContext n b e).
Proof. intros H. unfold mangleTypedEntity. prints. Qed.

Lemma ends_namedAndTypedEntity n b e :
  below (S h) n -> finishes (mangleNamedAndTypedEntity mangle mangleContext n b e).
Proof. intros H. unfold mangleNamedAndTypedEntity. prints. Qed.

Lemma ends_accessor n c : below (S h) n -> finishes (mangleAccessor mangle mangleContext n c).
Proof.
  intros H. unfold mangleAccessor. eapply prints_bind; [apply ends_getFirstChild|]. intros storage Hs.
  cbv beta in Hs. unfold mangleAccessorOf. assert (below (S h) storage) by print_spec. prints.
Qed.

Lemma ends_nominalType n c : below (S h) n -> finishes (mangleNominalType mangle mangleContext n c).
Proof. intros H. by apply ends_substituted, ends_namedEntity. Qed.

#[local] Hint Resolve ends_simpleEntity ends_namedEntity ends_typedEntity ends_namedAndTypedEntity ends_accessor
  ends_nominalType : printer.

Lemma ends_protocolWithoutPrefix n :
  below (S h) n -> finishes (mangleProtocolWithoutPrefix mangle mangleContext n).
Proof. intros H. unfold mangleProtocolWithoutPrefix. prints. Qed.

#[local] Hint Resolve ends_protocolWithoutPrefix : printer.

Lemma ends_protocols ns : Forall (below (S h)) ns -> finishes (mangleProtocols mangle mangleContext ns).
Proof. intros H. induction H; cbn [mangleProtocols]; prints. Qed.

#[local] Hint Resolve ends_protocols : printer.

Lemma ends_protocolListWithoutPrefix n P :
  below (S h) n -> (forall p, P = Some p -> below (S h) p) ->
  finishes (mangleProtocolListWithoutPrefix mangle mangleContext n P).
Proof.
  intros H HP. unfold mangleProtocolListWithoutPrefix. prints.
  apply ends_protocols, below_children, below_S. print_spec.
Qed.

Lemma ends_typeList n : below (S h) n -> finishes (mangleTypeList mangle n).
Proof. intros H. unfold mangleTypeList. prints. Qed.

#[local] Hint Resolve ends_protocolListWithoutPrefix ends_typeList : printer.

Lemma ends_genericArgs n : below (S h) n -> finishes (mangleGenericArgs mangle n).
Proof.
  assert (forall m n, below m n -> below (S h) n -> finishes (mangleGenericArgs mangle n)) as H;
    [|intros Hn; by apply (H (node_height n)); [unfold below|]].
  induction m as [|m IH]; intros [k p cs] Hm Hn; [by unfold below in Hm; cbn in Hm; lia|].
  assert (forall c, In c cs -> below m c) as Hcm by (intros c Hc; by eapply below_child).
  assert (forall c, In c cs -> below (S h) c) as Hch by (intros c Hc; by apply below_S; eapply below_child).
  cbn [mangleGenericArgs]. destruct k; try (by apply prints_ret).
  all: destruct cs as [|c cs]; [by apply prints_fail|].
  all: lazymatch goal with
  | |- prints _ (bind _ _) _ =>
      apply prints_unit; [by apply IH; [apply Hcm|apply Hch]; left|apply ends_put]
  | _ =>
      destruct c as [kc pc ns]; apply prints_unit; [by apply prints_assert|];
      destruct ns as [|[kn pn [|parent rest']] ns]; try (by apply prints_fail);
      set (nominal := mkNode kn pn (parent :: rest')) in *; set (unbound := mkNode kc pc (nominal :: ns)) in *;
      assert (forall g, below g unbound -> below g parent) as Hg by
        (intros g Hg; apply (below_pred _ nominal); [by left|]; apply (below_pred _ unbound); [by left|done]);
      apply prints_unit; [by apply IH; apply Hg; [apply Hcm|apply Hch]; left|];
      destruct cs as [|args cs]; [by apply prints_fail|];
      apply ends_typeList, Hch; right; by left
  end.
Qed.

Lemma ends_anyNominalType n b :
  below (S h) n -> finishes (mangleAnyNominalType mangle mangleContext mangleUnboundType n b).
Proof.
  intros H. unfold mangleAnyNominalType. eapply prints_bind; [apply ends_isSpecialized|]. intros [] Hb.
  - apply prints_unit; [apply ends_put|].
    eapply prints_bind; [by apply ends_unspecializedType|]. intros u [Hu Hs].
    apply prints_unit; [by apply HmangleUnbound|by apply ends_genericArgs].
  - destruct (getKind n); prints.
Qed.

#[local] Hint Resolve ends_genericArgs ends_anyNominalType : printer.

Lemma ends_genericParamIndex n : finishes (mangleDependentGenericParamIndex n).
Proof. unfold mangleDependentGenericParamIndex. prints. Qed.

#[local] Hint Resolve ends_genericParamIndex : printer.

Lemma ends_constrainedType n : below h n -> finishes (mangleConstrainedType mangle n).
Proof. intros H. unfold mangleConstrainedType. prints. Qed.

Lemma ends_paramCounts ns : Forall (below h) ns -> ends (mangleParamCounts ns) (Forall (below h)).
Proof.
  intros H. induction H as [|n ns Hn H IH]; cbn [mangleParamCounts]; [by apply prints_ret|].
  prints. by constructor.
Qed.

Lemma ends_requirements ns : Forall (below h) ns -> finishes (mangleRequirements mangle ns).
Proof. intros H. unfold mangleRequirements. destruct H; [prints|]. apply prints_unit; [print_spec|].
  apply prints_unit; [apply ends_mangleNodes; by constructor|print_spec]. Qed.

Lemma ends_hasSingleParam n : finishes (hasSingleParam n).
Proof. unfold hasSingleParam. prints. Qed.

Lemma ends_signature n : below (S h) n -> finishes (mangleDependentGenericSignature mangle n).
Proof.
  intros H%below_children. unfold mangleDependentGenericSignature.
  eapply prints_bind; [apply ends_hasSingleParam|]. intros [] _; [by apply ends_requirements, Forall_drop|].
  eapply prints_bind; [by apply ends_paramCounts|]. intros ns Hns. by apply ends_requirements.
Qed.

#[local] Hint Resolve ends_constrainedType ends_signature : printer.

Lemma ends_memberChain n :
  below (S h) n -> ends (memberChain n) (fun r => Forall (below (S h)) r.1).
Proof.
  assert (forall m n, below m n -> below (S h) n -> ends (memberChain n) (fun r => Forall (below (S h)) r.1)) as H;
    [|intros Hn; by apply (H (node_height n)); [unfold below|]].
  induction m as [|m IH]; intros [k p cs] Hm Hn; [by unfold below in Hm; cbn in Hm; lia|].
  cbn [memberChain]. destruct cs as [|[tk tp [|[bk bp bs] ts]] cs]; try by apply prints_fail.
  set (base := mkNode bk bp bs). set (type := mkNode tk tp (base :: ts)).
  assert (forall g, below (S g) (mkNode k p (type :: cs)) -> below g base) as Hg.
  { intros g Hg. apply (below_pred _ type); [by left|]. eapply below_child; [exact Hg|by left]. }
  eapply (prints_bind _ _ _ (fun r => Forall (below (S h)) r.1)).
  - destruct (Kind_eqb bk _); [by apply IH; [apply Hg|apply below_S, Hg]|by apply prints_ret].
  - intros [members base'] Hr. apply prints_ret. cbn in *. by constructor.
Qed.

Lemma ends_memberNames ns : Forall (below (S h)) ns -> finishes (mangleMemberNames mangle ns).
Proof. intros H. induction H as [|n ns Hn H IH]; cbn [mangleMemberNames]; prints. Qed.

Lemma ends_mangleTypes ns : Forall (below (S h)) ns -> finishes (mangleTypes mangle ns).
Proof. intros H. induction H as [|n ns Hn H IH]; cbn [mangleTypes]; unfold mangleType; prints. Qed.

Lemma ends_boxArgs a ns : Forall (below (S h)) ns -> finishes (mangleBoxArgs mangle a ns).
Proof. intros H. induction H as [|n ns Hn H IH]; cbn [mangleBoxArgs]; unfold mangleType; prints. Qed.

Lemma ends_boxFields l ns : Forall (below h) ns -> finishes (mangleBoxFields mangle l ns).
Proof. intros H. induction H as [|n ns Hn H IH]; cbn [mangleBoxFields]; prints. Qed.

Lemma ends_putCase text cases message : finishes (putCase text cases message).
Proof. induction cases as [|[e c] cases IH]; cbn [putCase]; prints. Qed.

Lemma ends_while kind body ns :
  (forall n, below h n -> finishes (body n)) -> Forall (below h) ns ->
  ends (mangleWhile kind body ns) (Forall (below h)).
Proof.
  intros Hb H. induction H as [|n ns Hn H IH]; cbn [mangleWhile]; [by apply prints_ret|].
  destruct (Kind_eqb _ _); [|by apply prints_ret; constructor].
  apply prints_unit; [by apply Hb|exact IH].
Qed.

#[local] Hint Resolve ends_memberNames ends_mangleTypes ends_boxArgs ends_boxFields ends_putCase : printer.

Lemma ends_callee ns : Forall (below h) ns -> ends (mangleCallee ns) (Forall (below h)).
Proof. intros H. destruct H; cbn [mangleCallee]; prints. by constructor. Qed.

Lemma ends_implSignature ns : Forall (below h) ns -> ends (mangleImplSignature mangle ns) (Forall (below h)).
Proof.
  intros H. destruct H as [|n ns Hn H]; cbn [mangleImplSignature]; [by apply prints_ret|].
  destruct (_ || _); [|by apply prints_ret; constructor].
  apply prints_unit; [apply ends_put|]. apply prints_unit; [by apply ends_signature, below_S|by apply prints_ret].
Qed.

Lemma ends_implFunctionType n : below (S h) n -> finishes (mangleImplFunctionType mangle n).
Proof.
  intros H%below_children. unfold mangleImplFunctionType. apply prints_unit; [apply ends_put|].
  eapply prints_bind; [by apply ends_callee|]. intros ns1 H1.
  eapply prints_bind; [by apply ends_while|]. intros ns2 H2.
  eapply prints_bind; [by apply ends_implSignature|]. intros ns3 H3.
  apply prints_unit; [apply ends_put|].
  eapply prints_bind; [apply ends_while; [|exact H3]|].
  - intros p Hp. unfold mangleImplParameter. prints.
  - intros ns4 H4. prints.
Qed.

Lemma ends_memberType n : below (S h) n -> finishes (mangleDependentMemberType mangle n).
Proof.
  intros H. unfold mangleDependentMemberType. eapply prints_bind; [by apply ends_memberChain|].
  intros [members base] Hm. cbn in Hm. assert (Forall (below (S h)) (reverse members)) by by apply Forall_reverse.
  prints.
Qed.

#[local] Hint Resolve ends_implFunctionType ends_memberType below_children : printer.
#[local] Hint Extern 3 (Forall (below _) (children _)) => (apply below_children, below_S; print_spec) : printer.
#[local] Hint Extern 3 (Forall (below _) (drop _ _)) => (apply Forall_drop; print_spec) : printer.

Lemma ends_resetSubstitutions : finishes resetSubstitutions.
Proof. by intros s. Qed.

Lemma ends_specialization c n : below (S h) n -> finishes (mangleSpecialization mangle c n).
Proof.
  intros H. unfold mangleSpecialization. apply prints_unit; [by apply ends_codeThenChildren|].
  apply prints_unit; [apply ends_resetSubstitutions|apply ends_put].
Qed.

Lemma ends_isVariadicTuple n : finishes (isVariadicTuple n).
Proof. unfold isVariadicTuple. prints. Qed.

Lemma ends_layoutNumber n i : finishes (layoutNumber n i).
Proof. unfold layoutNumber. prints. Qed.

Lemma ends_conformsToProtocol n : ends (conformsToProtocol n) (fun r => forall p, r = Some p -> In p (children n)).
Proof.
  unfold conformsToProtocol. destruct (_ && _); [|by apply prints_ret].
  eapply prints_bind; [apply ends_getChild|]. intros p Hp. apply prints_ret.
  destruct (Kind_eqb _ _); [|done]. by intros ? [= <-].
Qed.

#[local] Hint Resolve ends_specialization ends_isVariadicTuple ends_layoutNumber : printer.

Lemma ends_conformanceRequirement n :
  below (S h) n -> finishes (mangleDependentGenericConformanceRequirement mangle mangleContext n).
Proof.
  intros H. unfold mangleDependentGenericConformanceRequirement.
  eapply prints_bind; [apply ends_getChild|]. intros c Hc. cbv beta in Hc. apply prints_unit; [print_spec|].
  eapply (prints_bind _ _ _ (fun r => forall p, r = Some p -> below h p)).
  - destruct (_ =? _)%nat; [|by apply prints_ret]. eapply prints_bind; [apply ends_getChild|].
    intros d Hd. cbv beta in Hd. eapply prints_mono; [apply ends_conformsToProtocol|].
    intros r Hr p Hp. eapply below_pred; [by apply Hr|]. by eapply below_in.
  - intros [p|] Hp; [|prints]. by apply ends_protocolWithoutPrefix, below_S, Hp.
Qed.

Lemma ends_layoutRequirement n : below (S h) n -> finishes (mangleDependentGenericLayoutRequirement mangle n).
Proof. intros H. unfold mangleDependentGenericLayoutRequirement. prints. Qed.

Lemma ends_anyObject n : below (S h) n -> finishes (mangleProtocolListWithAnyObject mangle mangleContext n).
Proof.
  intros H. unfold mangleProtocolListWithAnyObject. apply prints_unit; [apply ends_put|].
  eapply prints_bind; [apply ends_getChild|]. intros c Hc. cbv beta in Hc.
  apply ends_protocolListWithoutPrefix; [print_spec|]. intros p [= <-].
  apply height_child in Hc. unfold below in *. cbn. destruct c as [? ? ?]; cbn in Hc. lia.
Qed.

Lemma ends_tuple n : below (S h) n -> finishes (mangleTuple mangle n).
Proof. intros H. unfold mangleTuple. eapply prints_bind; [apply ends_isVariadicTuple|]. intros. prints. Qed.

#[local] Hint Resolve ends_conformanceRequirement ends_layoutRequirement ends_anyObject ends_tuple : printer.

(** A handler consists of others that end, and is unfolded otherwise. *)
Ltac head m := lazymatch m with ?f _ => head f | _ => m end.
Ltac handler :=
  first [solve [print_spec]
        |lazymatch goal with |- prints _ ?m _ => let f := head m in unfold f end;
         first [solve [print_spec]|solve [prints]|progress prints; handler|handler]].

Lemma ends_dispatchContext n b :
  below (S h) n -> finishes (dispatchContext mangle mangleContext mangleUnboundType n b).
Proof. intros H. unfold dispatchContext. destruct (getKind n); handler. Qed.

#[local] Hint Resolve ends_dispatchContext : printer.

Lemma ends_dispatch n :
  below (S h) n -> finishes (dispatch mangle mangleContext mangleUnboundType n).
Proof. intros H. unfold dispatch. destruct (getKind n); handler. Qed.

(** Without a call for the unspecialized type. *)
Lemma ends_unspecialized n b :
  below (S h) n -> unspecialized n ->
  finishes (mangleAnyNominalType mangle mangleContext mangleUnboundType n b).
Proof.
  intros H Hu s. unfold mangleAnyNominalType. apply wp_bind.
  pose proof (ends_isSpecialized n s) as Hs. pose proof (stateless (m := isSpecialized n) s s) as Hst. unfold wp in *.
  destruct (isSpecialized n s) as [[[] s']|c] eqn:Hb; [| |done].
  - cbn in Hst. injection Hst as Hst. subst s'. by destruct (Hu s).
  - assert (finishes (match getKind n with
      | K_Structure => mangleNominalType mangle mangleContext n "V"
      | K_Enum => mangleNominalType mangle mangleContext n "O"
      | K_Class => mangleNominalType mangle mangleContext n "C"
      | _ => unreachable "bad nominal type kind"
      end)) as Hk by (destruct (getKind n); print_spec).
    apply Hk.
Qed.
End recursion.

(** ** The recursion ends *)

Lemma ends_withFuel h : forall fuel,
  ((2 * h + 1 <= fuel)%nat -> forall n, below h n -> finishes (mangleWithFuel fuel n)) /\
  ((2 * h + 1 <= fuel)%nat -> forall n, below h n -> finishes (mangleContextWithFuel fuel n)) /\
  ((2 * h <= fuel)%nat -> forall n b, below h n -> unspecialized n -> finishes (mangleUnboundWithFuel fuel n b)).
Proof.
  induction h as [|h IH]; intros fuel.
  - split_and!; intros; match goal with H : below 0 _ |- _ => by unfold below in H; destruct n; cbn in H; lia end.
  - assert (forall g, (2 * h + 1 <= g)%nat -> forall n b, below (S h) n -> unspecialized n ->
      finishes (mangleUnboundWithFuel (S g) n b)) as Hunbound.
    { intros g Hg n b Hn Hu. cbn [mangleUnboundWithFuel].
      destruct (IH g) as (Hm & Hc & _). apply (ends_unspecialized h); auto. }
    assert (forall g, (2 * S h <= g)%nat -> forall n b, below (S h) n -> unspecialized n ->
      finishes (mangleUnboundWithFuel g n b)) as Hunbound'.
    { intros [|g] Hg; [lia|]. apply Hunbound. lia. }
    destruct fuel as [|g]; [split_and!; lia|]. destruct (IH g) as (Hm & Hc & _).
    split_and!; intros Hg n; [| |intros b; apply Hunbound'; lia]; intros Hn.
    + cbn [mangleWithFuel]. apply (ends_dispatch h); auto with lia.
    + cbn [mangleContextWithFuel]. apply (ends_dispatchContext h); auto with lia.
Qed.

(** C10. The old remangler terminates on every tree, whether a demangler can build it
    or not: it writes a name, or an assertion or an [unreachable] stops it. The
    types it makes on the way, without generic arguments and with labels, are no
    exception. *)
Theorem mangleNodeOld_terminates node : mangleNodeOld node <> Crash OutOfFuel.
Proof.
  destruct node as [n|]; [|done]. unfold mangleNodeOld, mangle_fuel.
  destruct (ends_withFuel (node_height n) (2 * node_height n + 2)) as (H & _ & _).
  assert (below (node_height n) n) as Hn by by unfold below.
  specialize (H ltac:(lia) n Hn (mkOldRemangler [] [])). unfold wp in H.
  destruct (mangleWithFuel _ _ _) as [[[] s]|c]; [done|]. congruence.
Qed.

(** ** Substitutions

    Two entries are the same when their hashes are. *)

Lemma deepEquals_refl n : deepEquals n n = true.
Proof.
  induction n as [k p cs IH] using Node_tree_ind. cbn [deepEquals].
  rewrite (proj2 (Kind_eqb_eq k k) eq_refl), (proj2 (payload_eqb_eq p p) eq_refl), Nat.eqb_refl. cbn.
  apply forallb_forall. apply List.Forall_forall. exact IH.
Qed.

Lemma entry_eqb_hash a b : entry_eqb a b = (StoredHash a =? StoredHash b).
Proof. unfold entry_eqb. rewrite deepEquals_refl. apply andb_true_r. Qed.

Lemma list_find_ext {A} (P Q : A -> Prop) `{forall x, Decision (P x)} `{forall x, Decision (Q x)} l :
  (forall x, P x <-> Q x) -> list_find P l = list_find Q l.
Proof.
  intros HPQ. induction l as [|x l IH]; cbn; [done|]. rewrite IH.
  destruct (decide (P x)) as [Hp|Hp], (decide (Q x)) as [Hq|Hq]; [done| | |done]; exfalso; naive_solver.
Qed.

Lemma substituted_found node body s Idx e :
  mangleStandardSubstitution node s = Ok (false, s) ->
  list_find (fun e => StoredHash e = deepHash node) (Substitutions s) = Some (Idx, e) ->
  substituted node body s = (_ <- put "S" ;; mangleIndex (Z.of_nat Idx)) s.
Proof.
  intros Hs Hf. unfold substituted, trySubstitution, bind, gets. rewrite Hs. cbn beta iota.
  rewrite (list_find_ext _ (fun e => StoredHash e = deepHash node)).
  - rewrite Hf. cbn beta iota. destruct (put "S" s) as [[[] s1]|]; [|done].
    by destruct (mangleIndex _ s1) as [[[] ?]|].
  - intros e'. rewrite entry_eqb_hash, Z.eqb_eq. cbn. split; congruence.
Qed.

(** C40. [operator==] compares the node of the left entry with itself, so that entries
    are equal when their hashes are: once a node with some hash has been written,
    every node with that hash that has no standard substitution is written as the
    same reference, whatever the two nodes are and whatever would be written for
    them, and nothing else is written for it. *)
Theorem substituted_by_hash node node' body body' s :
  mangleStandardSubstitution node s = Ok (false, s) -> mangleStandardSubstitution node' s = Ok (false, s) ->
  deepHash node = deepHash node' -> Exists (fun entry => StoredHash entry = deepHash node) (Substitutions s) ->
  substituted node body s = substituted node' body' s
  /\ exists Idx, (Idx < length (Substitutions s))%nat
       /\ substituted node body s = (_ <- put "S" ;; mangleIndex (Z.of_nat Idx)) s.
Proof.
  intros Hs Hs' Hh He. destruct (list_find (fun e => StoredHash e = deepHash node) (Substitutions s)) as [[Idx e]|] eqn:Ef.
  - rewrite (substituted_found node body s Idx e Hs Ef). split.
    + rewrite Hh in Ef. by rewrite (substituted_found node' body' s Idx e Hs' Ef).
    + exists Idx. split; [|done]. apply list_find_Some in Ef as (Hl & _ & _). by eapply lookup_lt_Some.
  - exfalso. apply list_find_None in Ef. apply Exists_exists in He as (e & Hin & Hhe).
    rewrite Forall_forall in Ef. by apply (Ef e Hin).
Qed.

(** The structures [M.ab] and [M.bA]. *)
Definition structureM (name : string) : Node :=
  mkNode K_Structure NoPayload [createNodeText K_Module (lit "M"); createNodeText K_Identifier (lit name)].

Definition writtenAb : OldRemangler := mkOldRemangler (lit "V1M2ab") [mkEntry (structureM "ab") (deepHash (structureM "ab"))].

Lemma substituted_by_hash_witness :
  substituted (structureM "bA") (put "V1M2bA") writtenAb = substituted (structureM "ab") (put "V1M2ab") writtenAb
  /\ exists Idx, (Idx < 1)%nat
       /\ substituted (structureM "bA") (put "V1M2bA") writtenAb = (_ <- put "S" ;; mangleIndex (Z.of_nat Idx)) writtenAb.
Proof.
  apply (substituted_by_hash (structureM "bA") (structureM "ab")); [reflexivity|reflexivity|vm_compute; reflexivity|].
  constructor 1. vm_compute. reflexivity.
Defined.

(** Both of these trees come from names that the demangler reads; they are written as
    the same name, the tuple of [M.ab] and [M.bA] as the tuple of [M.ab] twice. *)
Theorem mangleNodeOld_conflates :
  exists ab_bA ab_ab : Node,
    ab_bA <> ab_ab /\
    demangleOldSymbolAsNode (lit "_TtTV1M2abVS_2bA_") = Ok (Some ab_bA) /\
    demangleOldSymbolAsNode (lit "_TtTV1M2abS0__") = Ok (Some ab_ab) /\
    mangleNodeOld (Some ab_bA) = mangleNodeOld (Some ab_ab).
Proof. eexists _, _. split_and!; [|vm_compute; reflexivity..]. discriminate. Qed.
