(* ===== verification/OldWriting.v ===== *)
(** * What the old remangler writes and the old demangler reads

    The vocabulary of the round trip through the old mangling: [writes] relates an
    action of the remangler to the function of the demangler that reads what it
    writes. The rules for it follow the way both are put together: a code in
    front, one part behind another, a list up to a mark, a substitution. *)

From Stdlib Require Import String.
From S2P Require Import Prelude Nodes ManglingUtils Numbers Demangler DemanglerTheorems NodePrinter PrinterSpecs OldDemangler Remangler RemanglerSpecs OldRemangler OldRemanglerTheorems.

(** The state of the remangler that has added these nodes as substitutions. *)
Definition entryFor (n : Node) : SubstitutionEntry := mkEntry n (deepHash n).
Definition entries (ns : list Node) : list SubstitutionEntry := entryFor <$> ns.

(** The first character of a text that is not empty. *)
Definition starts (F : ascii -> bool) (t : str) : Prop :=
  match t with c :: _ => F c = true | [] => False end.

Lemma starts_mono (F F' : ascii -> bool) t : (forall c, F c = true -> F' c = true) -> starts F t -> starts F' t.
Proof. intros H. destruct t; [done|]. apply H. Qed.

Lemma starts_app F t t' : starts F t -> starts F (t ++ t').
Proof. by destruct t. Qed.

Lemma starts_length F t : starts F t -> (0 < length t)%nat.
Proof. destruct t; cbn; [done|lia]. Qed.

(** The demangler reads what is in front of [rest]. *)
Abbreviation reading t ns := (mkOldDemangler t ns).

(** ** Choices by the first character *)

(** None of the prefixes begins with [c]. *)
Definition misses (c : ascii) (prefixes : list str) : bool :=
  forallb (fun p => match p with d :: _ => negb (Ascii.eqb d c) | [] => false end) prefixes.

Definition avoids (F : ascii -> bool) (prefixes : list str) : bool :=
  forallb (fun c => implb (F c) (misses c prefixes)) all_ascii.

Lemma avoids_spec F prefixes c : avoids F prefixes = true -> F c = true -> misses c prefixes = true.
Proof. intros H Hc. pose proof (ascii_forall _ H c) as Hp. cbv beta in Hp. by rewrite Hc in Hp. Qed.

Lemma nextIfStr_other p c t ns :
  misses c [p] = true -> nextIfStr p (reading (c :: t) ns) = Ok (false, reading (c :: t) ns).
Proof.
  destruct p as [|d p]; [done|]. cbn [misses forallb]. rewrite andb_true_r, negb_true_iff. intros Hd.
  unfold nextIfStr, bind, gets, startswith. cbn [Mangled length take].
  destruct (str_eqb_spec (c :: take (length p) t) (d :: p)) as [[= -> _]|]; [|done].
  by rewrite Ascii.eqb_refl in Hd.
Qed.

Lemma nextCases_other {A} F (cases : list (str * OM A)) o t ns :
  avoids F (map fst cases) = true -> starts F t -> nextCases cases o (reading t ns) = o (reading t ns).
Proof.
  destruct t as [|c t]; [done|]. intros Ha Hc. pose proof (avoids_spec F _ c Ha Hc) as Hm. clear Ha Hc.
  induction cases as [|[p m] cases IH]; [done|]. cbn [nextCases]. cbn [map fst misses forallb] in Hm.
  apply andb_prop in Hm as [Hp Hm]. erewrite bind_ok; [|apply nextIfStr_other; cbn; by rewrite Hp]. by apply IH.
Qed.

(** The case for a code in front of which no other applies. *)
Fixpoint selects {A} (code : str) (cases : list (str * OM A)) : option (OM A) :=
  match cases with
  | [] => None
  | (p, m) :: cases =>
      if str_eqb p code then Some m
      else match code with
           | c :: _ => if misses c [p] then selects code cases else None
           | [] => None
           end
  end.

Lemma nextCases_selects {A} code (cases : list (str * OM A)) o m t ns :
  selects code cases = Some m -> nextCases cases o (reading (code ++ t) ns) = m (reading t ns).
Proof.
  induction cases as [|[p m'] cases IH]; [done|]. cbn [selects nextCases].
  destruct (str_eqb_spec p code) as [->|Hne].
  - intros [= ->]. unfold nextIfStr, startswith, bind, gets. cbn [Mangled]. rewrite take_app_length.
    destruct (str_eqb_spec code code) as [_|]; [|done]. cbn. unfold setMangled. cbn. by rewrite drop_app_length.
  - destruct code as [|c code]; [done|]. destruct (misses c [p]) eqn:Hm; [|done]. intros H.
    cbn [app]. erewrite bind_ok by by apply nextIfStr_other. cbn iota. by apply IH.
Qed.

Lemma nextIf_head c t ns : nextIf c (reading (c :: t) ns) = Ok (true, reading t ns).
Proof. unfold nextIf, bind, isEmpty, gets, peek. cbn. by rewrite Ascii.eqb_refl. Qed.

Lemma nextIf_miss F c t ns : F c = false -> starts F t -> nextIf c (reading t ns) = Ok (false, reading t ns).
Proof.
  destruct t as [|d t]; [done|]. intros Hc Hd. unfold nextIf, bind, isEmpty, gets, peek. cbn.
  destruct (Ascii.eqb_spec d c) as [->|]; [|done]. cbn in Hd. congruence.
Qed.

(** [nextIf] on a text that does not begin so. *)
Ltac read_miss F := erewrite bind_ok; [|apply (nextIf_miss F); [reflexivity|first [assumption|reflexivity|idtac]]]; cbn iota.

Lemma isEmpty_starts F t ns : starts F t -> isEmpty (reading t ns) = Ok (false, reading t ns).
Proof. by destruct t. Qed.

(** ** Numbers *)

Lemma read_digits ds rest : forall fuel num ns,
  digits ds -> startsWithDigit rest = false -> 0 <= num -> numeral num ds < 2 ^ 64 -> (length ds < fuel)%nat ->
  loop fuel demangleNatural_step num (reading (ds ++ rest) ns) = Ok (numeral num ds, reading rest ns).
Proof.
  induction ds as [|c ds IH]; intros fuel num ns Hd Hr Hn Hlt Hf; (destruct fuel as [|fuel]; [cbn in Hf; lia|]);
    cbn [loop]; unfold bind at 1, demangleNatural_step at 1.
  - cbn [app]. destruct rest as [|c rest]; [done|]. cbn. unfold startsWithDigit in Hr. cbn in Hr.
    unfold bind, peek. cbn. unfold id in Hr. by rewrite Hr.
  - inversion_clear Hd as [|? ? Hc Hd']. unfold bind, isEmpty, gets, peek, next. cbn -[wrap_u64]. rewrite Hc. cbn -[wrap_u64].
    fold (digitValue c). pose proof (digitValue_range c Hc). pose proof (numeral_ge (10 * num + digitValue c) ds) as Hge.
    cbn [numeral fold_left] in Hlt. fold (numeral (10 * num + digitValue c) ds) in Hlt.
    rewrite wrap_u64_id by (specialize (Hge ltac:(lia) Hd'); lia). unfold setMangled. cbn [OldDemangler.Substitutions]. rewrite drop_0.
    apply IH; [done|done|lia|done|cbn in Hf; lia].
Qed.

Lemma read_natural n rest ns :
  0 <= n < 2 ^ 64 -> startsWithDigit rest = false ->
  demangleNatural (reading (decimal n ++ rest) ns) = Ok (Some n, reading rest ns).
Proof.
  intros Hn Hr. destruct (decimal_spec n) as (c & ds & -> & Hd & Hv & _); [lia|].
  inversion_clear Hd as [|? ? Hc Hd']. unfold demangleNatural, bind at 1, isEmpty, gets. cbn [Mangled length app Nat.eqb].
  unfold bind at 1, next, bind at 1, peek. cbn [Mangled]. unfold bind at 1, advanceOffset, modify. cbn [ret].
  rewrite Hc. cbn [negb]. unfold bind, while_, setMangled. cbn [Mangled skipn OldDemangler.Substitutions]. rewrite drop_0. fold (digitValue c).
  rewrite (read_digits ds rest); [|done|done| |rewrite <- Hv in Hn; exact (proj2 Hn)|rewrite length_app; lia].
  - rewrite <- Hv. reflexivity.
  - apply digitValue_range in Hc. lia.
Qed.

(** [mangleIndex] *)
Definition indexStart (c : ascii) : bool := isDigit c || Ascii.eqb c "_".

Definition indexText (value : Z) : str := if value =? 0 then lit "_" else decimal (value - 1) ++ lit "_".

Lemma decimal_starts n : 0 <= n -> starts isDigit (decimal n).
Proof. intros Hn. destruct (decimal_spec n Hn) as (c & ds & -> & Hd & _). by inversion_clear Hd. Qed.

Lemma read_index value rest ns :
  0 <= value < 2 ^ 64 -> demangleIndex (reading (indexText value ++ rest) ns) = Ok (Some value, reading rest ns).
Proof.
  intros Hv. unfold demangleIndex, indexText. destruct (Z.eqb_spec value 0) as [->|Hne].
  - change (lit "_" ++ rest) with ("_"%char :: rest). by rewrite (bind_ok _ _ _ _ _ (nextIf_head _ _ _)).
  - rewrite <- app_assoc. read_miss isDigit; [|apply starts_app, decimal_starts; lia].
    rewrite (bind_ok _ _ _ _ _ (read_natural (value - 1) (lit "_" ++ rest) ns ltac:(lia) eq_refl)).
    change (lit "_" ++ rest) with ("_"%char :: rest). rewrite (bind_ok _ _ _ _ _ (nextIf_head _ _ _)). unfold ret.
    replace (value - 1 + 1) with value by lia. by rewrite wrap_u64_id.
Qed.

Lemma indexText_starts value : 0 <= value -> starts indexStart (indexText value).
Proof.
  intros H. unfold indexText. destruct (Z.eqb_spec value 0) as [|Hne]; [done|]. apply starts_app.
  eapply starts_mono; [|apply decimal_starts; lia]. intros c Hc. unfold indexStart. by rewrite Hc.
Qed.

(** ** Identifiers *)

(** A text that can be told from the length in front of it. *)
Definition nameText (s : str) : Prop :=
  s <> [] /\ isDigit (default NUL (head s)) = false /\ Z.of_nat (length s) < 2 ^ 64.

Definition identifierStart (c : ascii) : bool := isDigit c || Ascii.eqb c "o".

Definition lengthPrefixed (s : str) : str := decimal (Z.of_nat (length s)) ++ s.

#[global] Arguments lengthPrefixed : simpl never.
#[global] Arguments indexText : simpl never.

Lemma read_name isOperator kind s rest ns :
  nameText s ->
  demangleIdentifierText false isOperator kind (reading (lengthPrefixed s ++ rest) ns)
  = Ok (if isOperator then createNodeText kind <$> translateToOperator s else Some (createNodeText kind s),
        reading rest ns).
Proof.
  intros (Hne & Hd & Hlen). unfold lengthPrefixed. rewrite <- app_assoc. unfold demangleIdentifierText.
  rewrite (bind_ok _ _ _ _ _ (read_natural (Z.of_nat (length s)) (s ++ rest) ns ltac:(lia) ltac:(by destruct s))).
  unfold bind at 1, hasAtLeast, gets. cbn [Mangled]. rewrite length_app.
  destruct (Z.leb_spec (Z.of_nat (length s)) (Z.of_nat (length s + length rest))) as [_|]; [|lia]. cbn [negb].
  unfold bind at 1, slice, gets. cbn [Mangled]. rewrite Nat2Z.id, take_app_length.
  unfold bind at 1, advanceOffset, modify, setMangled. cbn [Mangled OldDemangler.Substitutions]. rewrite drop_app_length.
  unfold bind, decode. cbn [negb ret]. destruct (Nat.eqb_spec (length s) 0) as [H|_]; [by apply nil_length_inv in H|].
  destruct isOperator; [|done]. by destruct (translateToOperator s).
Qed.

Lemma lengthPrefixed_starts s : starts isDigit (lengthPrefixed s).
Proof. apply starts_app, decimal_starts. lia. Qed.

Lemma read_identifier kind s rest ns :
  nameText s ->
  demangleIdentifier kind (reading (lengthPrefixed s ++ rest) ns)
  = Ok (Some (createNodeText (default K_Identifier kind) s), reading rest ns).
Proof.
  intros Hs. unfold demangleIdentifier. pose proof (starts_app _ _ rest (lengthPrefixed_starts s)) as Ht.
  rewrite (bind_ok _ _ _ _ _ (isEmpty_starts _ _ _ Ht)). cbn iota.
  read_miss isDigit.
  read_miss isDigit. by rewrite read_name.
Qed.

(** *** Operators *)

Definition operatorText (op : str) : Prop :=
  op <> [] /\ Forall (fun c => operatorChar c = true) op /\ Z.of_nat (length op) < 2 ^ 64.

Definition operatorModes : list (Kind * OperatorKind * ascii) :=
  [(K_PrefixOperator, Prefix, "p"); (K_PostfixOperator, Postfix, "P"); (K_InfixOperator, Infix, "i")]%char.

Lemma translateToOperator_old op :
  Forall (fun c => operatorChar c = true) op -> translateToOperator (map mangleOperatorChar op) = Some op.
Proof.
  change (mangleOperatorChar) with translateOperatorChar.
  induction 1 as [|c op Hc _ IH]; [done|]. cbn [map]. by rewrite translateToOperator_cons, operatorOf_translate, Hc, IH.
Qed.

Lemma operatorText_name op : operatorText op -> nameText (map mangleOperatorChar op).
Proof.
  intros (Hne & Hc & Hlen). destruct op as [|c op]; [done|]. inversion_clear Hc as [|? ? Hc' _].
  split_and!; [done| |by rewrite length_map].
  change (isDigit (mangleOperatorChar c) = false).
  enough (implb (operatorChar c) (negb (isDigit (mangleOperatorChar c))) = true) as H.
  { rewrite Hc' in H. by apply negb_true_iff. }
  exact (ascii_forall (fun c => implb (operatorChar c) (negb (isDigit (mangleOperatorChar c))))
           ltac:(vm_compute; reflexivity) c).
Qed.

Lemma read_operator k operator mode op rest ns :
  In (k, operator, mode) operatorModes -> operatorText op ->
  demangleIdentifier None (reading ("o"%char :: mode :: lengthPrefixed (map mangleOperatorChar op) ++ rest) ns)
  = Ok (Some (createNodeText k op), reading rest ns).
Proof.
  intros Hin Hop. unfold demangleIdentifier. erewrite bind_ok; [|by apply (isEmpty_starts (fun _ => true))]. cbn iota.
  read_miss (Ascii.eqb "o").
  rewrite (bind_ok _ _ _ _ _ (nextIf_head _ _ _)). cbn iota.
  assert (operatorKind mode = Some k) as Hk by (repeat destruct Hin as [[= <- <- <-]|Hin]; done).
  unfold bind, next, peek, advanceOffset, modify, setMangled. cbn -[operatorKind demangleIdentifierText]. rewrite drop_0, Hk.
   rewrite read_name by by apply operatorText_name. by rewrite translateToOperator_old by apply Hop.
Qed.

(** *** Names of declarations *)

Inductive baseName : Node -> Prop :=
  | baseName_identifier s : nameText s -> baseName (createNodeText K_Identifier s)
  | baseName_operator k operator mode op :
      In (k, operator, mode) operatorModes -> operatorText op -> baseName (createNodeText k op).

Inductive declName : Node -> Prop :=
  | declName_base n : baseName n -> declName n
  | declName_local value name :
      0 <= value < 2 ^ 64 -> baseName name ->
      declName (mkNode K_LocalDeclName NoPayload [createNodeIndex K_Number value; name])
  | declName_private d name :
      baseName d -> baseName name -> declName (mkNode K_PrivateDeclName NoPayload [d; name]).

Definition nameStart (c : ascii) : bool := identifierStart c || Ascii.eqb c "L" || Ascii.eqb c "P".

(** ** The recursion of the remangler *)

Lemma mangle_unfold f n :
  mangleWithFuel (S f) n = dispatch (mangleWithFuel f) (mangleContextWithFuel f) (mangleUnboundWithFuel f) n.
Proof. reflexivity. Qed.

Lemma mangleContext_unfold f n :
  mangleContextWithFuel (S f) n
  = dispatchContext (mangleWithFuel f) (mangleContextWithFuel f) (mangleUnboundWithFuel f) n true.
Proof. reflexivity. Qed.

(** The function for the kind of a node, and what it does first. *)
Ltac writer := lazy beta iota delta [dispatch dispatchContext getKind codeThenChildren codeThenSingle
  mangleChildNodes mangleSingleChildNode children mangleNodes createNode
  mangleLocalDeclName manglePrivateDeclName mangleType mangleInOut mangleArgumentTuple mangleReturnType
  mangleDynamicSelf mangleMetatype mangleExistentialMetatype].

Section writes.
(** The nodes that may be substituted: the remangler tells them apart by their hash. *)
Variable U : list Node.
Hypothesis U_size : Z.of_nat (length U) < 2 ^ 64.
Hypothesis U_hash : forall a b, In a U -> In b U -> deepHash a = deepHash b -> a = b.

Definition substitutable (ns : list Node) : Prop := NoDup ns /\ ns ⊆ U.

(** Whatever has been substituted before, [w] writes a text, which begins as in
    [F], and adds substitutions below the height [h]; [R] reads it as [v] with any
    text behind it, adds the same substitutions, and [extra]. [R] takes fuel:
    the length of the text is enough. *)
Definition writes {A} (F : ascii -> bool) (h : nat) (w : OR unit) (R : nat -> OM A) (v : A)
    (extra : list Node) : Prop :=
  forall out ns, substitutable ns -> exists t new,
    w (mkOldRemangler out (entries ns)) = Ok (tt, mkOldRemangler (out ++ t) (entries (ns ++ new)))
    /\ substitutable (ns ++ new) /\ Forall (below h) new /\ starts F t
    /\ forall g rest, (length t <= g)%nat ->
         R g (reading (t ++ rest) ns) = Ok (v, reading rest (ns ++ new ++ extra)).

(** At the beginning of a name. *)
Lemma oldWrites_first {A} F h w (R : nat -> OM A) v :
  writes F h w R v [] -> forall out, exists t subs,
    w (mkOldRemangler out []) = Ok (tt, mkOldRemangler (out ++ t) subs) /\ starts F t
    /\ forall g rest, (length t <= g)%nat -> exists ns, R g (reading (t ++ rest) []) = Ok (v, reading rest ns).
Proof.
  intros H out. destruct (H out []) as (t & new & Hrun & _ & _ & Ht & Hr); [split; [apply NoDup_nil_2|apply list_subseteq_nil]|].
  exists t, (entries new). split_and!; [exact Hrun|done|]. intros g rest Hg. eexists. by apply Hr.
Qed.

Lemma oldWrites_mono {A} (F F' : ascii -> bool) h h' w R (v : A) extra :
  (forall c, F c = true -> F' c = true) -> (h <= h')%nat -> writes F h w R v extra -> writes F' h' w R v extra.
Proof.
  intros HF Hh Hw out ns Hns. destruct (Hw out ns Hns) as (t & new & Hrun & HU & Hb & Ht & Hr).
  exists t, new. split_and!; [done..| |by eapply starts_mono|done].
  eapply Forall_impl; [|exact Hb]. unfold below. intros n Hn. lia.
Qed.

(** The reader may be replaced where it reads this text, and the writer anywhere. *)
Lemma oldWrites_ext {A} F h w w' (R R' : nat -> OM A) v extra :
  (forall s, w s = w' s) ->
  (forall g t ns, starts F t -> R g (reading t ns) = R' g (reading t ns)) ->
  writes F h w' R' v extra -> writes F h w R v extra.
Proof.
  intros Hw HR H out ns Hns. destruct (H out ns Hns) as (t & new & Hrun & HU & Hb & Ht & Hr).
  exists t, new. rewrite Hw. split_and!; [done..|]. intros g rest Hg. rewrite HR by by apply starts_app. auto.
Qed.

Lemma oldWrites_writer {A} F h w w' (R : nat -> OM A) v extra :
  (forall s, w s = w' s) -> writes F h w' R v extra -> writes F h w R v extra.
Proof. intros Hw. by apply oldWrites_ext. Qed.

Lemma oldWrites_reader {A} F h w (R R' : nat -> OM A) v extra :
  (forall g t ns, starts F t -> R g (reading t ns) = R' g (reading t ns)) ->
  writes F h w R' v extra -> writes F h w R v extra.
Proof. intros HR. by apply oldWrites_ext. Qed.

(** The reader begins one level of the recursion, and reads at least one character. *)
Lemma oldWrites_fuel {A} F h w (R R' : nat -> OM A) v extra :
  (forall g t ns, starts F t -> R (S g) (reading t ns) = R' (S g) (reading t ns)) ->
  writes F h w R' v extra -> writes F h w R v extra.
Proof.
  intros HR H out ns Hns. destruct (H out ns Hns) as (t & new & Hrun & HU & Hb & Ht & Hr).
  exists t, new. split_and!; [done..|]. intros [|g] rest Hg.
  - apply starts_length in Ht. lia.
  - rewrite HR by by apply starts_app. auto.
Qed.

(** ** One behind the other *)

Lemma oldWrites_bind {A B} F F' h w w' (R : nat -> OM A) (K : nat -> A -> OM B) a v extra :
  writes F h w R a [] -> writes F' h w' (fun g => K g a) v extra ->
  writes F h (_ <- w ;; w') (fun g => bind (R g) (K g)) v extra.
Proof.
  intros H H' out ns Hns. destruct (H out ns Hns) as (t & new & Hrun & HU & Hb & Ht & Hr).
  destruct (H' (out ++ t) (ns ++ new)) as (t' & new' & Hrun' & HU' & Hb' & Ht' & Hr'); [done|].
  exists (t ++ t'), (new ++ new'). split_and!.
  - rewrite (bind_ok _ _ _ _ _ Hrun), Hrun'. by rewrite !app_assoc.
  - by rewrite app_assoc.
  - by apply Forall_app.
  - by apply starts_app.
  - intros g rest Hg. rewrite length_app in Hg. rewrite <- app_assoc.
    erewrite bind_ok by (apply Hr; lia). rewrite app_nil_r, Hr' by lia. by rewrite <- !app_assoc.
Qed.

(** What the reader does with what it has read. *)
Lemma oldWrites_then {A B} F h w (R : nat -> OM A) (K : nat -> A -> OM B) a v extra :
  writes F h w R a [] -> (forall g t ns, K g a (reading t ns) = Ok (v, reading t (ns ++ extra))) ->
  writes F h w (fun g => bind (R g) (K g)) v extra.
Proof.
  intros H HK out ns Hns. destruct (H out ns Hns) as (t & new & Hrun & HU & Hb & Ht & Hr).
  exists t, new. split_and!; [done..|]. intros g rest Hg.
  erewrite bind_ok by by apply Hr. rewrite app_nil_r, HK. by rewrite <- app_assoc.
Qed.

Lemma oldWrites_map {A B} F h w (R : nat -> OM A) (K : nat -> A -> OM B) a v :
  writes F h w R a [] -> (forall g t ns, K g a (reading t ns) = Ok (v, reading t ns)) ->
  writes F h w (fun g => bind (R g) (K g)) v [].
Proof. intros H HK. eapply oldWrites_then; [exact H|]. intros g t ns. by rewrite app_nil_r, HK. Qed.

(** Steps of the writer that look at the tree only. *)
Lemma oldWrites_pure {A B} F h (m : OR B) k a (R : nat -> OM A) v extra :
  (forall s, m s = Ok (a, s)) -> writes F h (k a) R v extra -> writes F h (bind m k) R v extra.
Proof. intros Hm. apply oldWrites_writer. intros s. unfold bind. by rewrite Hm. Qed.

(** The reader looks at the first part and goes on its own way with what it was. *)
Lemma oldWrites_via {A B} F F' h w w' (R : nat -> OM A) (R' K : nat -> OM B) a v extra :
  (forall g t ns t' ns', starts F t -> R (S g) (reading t ns) = Ok (a, reading t' ns') ->
     R' (S g) (reading t ns) = K (S g) (reading t' ns')) ->
  writes F h w R a [] -> writes F' h w' K v extra -> writes F h (_ <- w ;; w') R' v extra.
Proof.
  intros HR H H' out ns Hns. destruct (H out ns Hns) as (t & new & Hrun & HU & Hb & Ht & Hr).
  destruct (H' (out ++ t) (ns ++ new)) as (t' & new' & Hrun' & HU' & Hb' & Ht' & Hr'); [done|].
  exists (t ++ t'), (new ++ new'). split_and!.
  - rewrite (bind_ok _ _ _ _ _ Hrun), Hrun'. by rewrite !app_assoc.
  - by rewrite app_assoc.
  - by apply Forall_app.
  - by apply starts_app.
  - intros [|g] rest Hg; rewrite length_app in Hg; pose proof (starts_length _ _ Ht); [lia|]. rewrite <- app_assoc.
    erewrite HR; [|by apply starts_app|apply Hr; lia]. rewrite app_nil_r, Hr' by lia. by rewrite <- !app_assoc.
Qed.

(** Another reader that comes to the same. *)
Lemma oldWrites_same {A B} F h w (R : nat -> OM A) (R' : nat -> OM B) a v extra :
  (forall g t ns t' ns', starts F t -> R (S g) (reading t ns) = Ok (a, reading t' ns') ->
     R' (S g) (reading t ns) = Ok (v, reading t' ns')) ->
  writes F h w R a extra -> writes F h w R' v extra.
Proof.
  intros HR H out ns Hns. destruct (H out ns Hns) as (t & new & Hrun & HU & Hb & Ht & Hr).
  exists t, new. split_and!; [done..|]. intros [|g] rest Hg; [apply starts_length in Ht; lia|].
  eapply HR; [by apply starts_app|]. by apply Hr.
Qed.

(** More fuel does no harm. *)
Lemma oldWrites_more {A} F h w (R : nat -> OM A) (more : nat -> nat) v extra :
  (forall g, (g <= more g)%nat) -> writes F h w R v extra -> writes F h w (fun g => R (more g)) v extra.
Proof.
  intros Hmore H out ns Hns. destruct (H out ns Hns) as (t & new & Hrun & HU & Hb & Ht & Hr).
  exists t, new. split_and!; [done..|]. intros g rest Hg. apply Hr. specialize (Hmore g). lia.
Qed.

Lemma oldWrites_ret {A} F h w (R : nat -> OM A) v extra : writes F h w R v extra -> writes F h (_ <- w ;; ret tt) R v extra.
Proof. intros H. eapply oldWrites_writer; [|exact H]. intros s. unfold bind. by destruct (w s) as [[[] ]|]. Qed.

(** A code that the reader has recognized. *)
Lemma oldWrites_put {A} (F : ascii -> bool) h code (R : nat -> OM A) v :
  starts F (lit code) ->
  (forall g t ns, R (S g) (reading (lit code ++ t) ns) = Ok (v, reading t ns)) ->
  writes F h (put code) R v [].
Proof.
  intros Hs HR out ns Hns. exists (lit code), []. rewrite app_nil_r. split_and!; [done..|].
  intros [|g] rest Hg; [apply starts_length in Hs; lia|]. rewrite app_nil_r. apply HR.
Qed.

Lemma oldWrites_code {A} (F F' : ascii -> bool) h code w (R R' : nat -> OM A) v extra :
  starts F (lit code) ->
  (forall g t ns, starts F' t -> R (S g) (reading (lit code ++ t) ns) = R' g (reading t ns)) ->
  writes F' h w R' v extra ->
  writes F h (_ <- put code ;; w) R v extra.
Proof.
  intros Hs HR H out ns Hns. destruct (H (out ++ lit code) ns Hns) as (t & new & Hrun & HU & Hb & Ht & Hr).
  exists (lit code ++ t), new. split_and!; [|done|done|by apply starts_app|].
  - unfold put, emit. unfold bind, modify at 1. cbn [OldRemangler.Out OldRemangler.Substitutions]. rewrite Hrun.
    by rewrite app_assoc.
  - intros [|g] rest Hg; rewrite length_app in Hg; apply starts_length in Hs; [lia|].
    rewrite <- app_assoc, HR by by apply starts_app. apply Hr. lia.
Qed.

(** The same, when the reader does not go down a level. *)
Lemma oldWrites_code' {A} (F F' : ascii -> bool) h code w (R R' : nat -> OM A) v extra :
  starts F (lit code) ->
  (forall g t ns, starts F' t -> R g (reading (lit code ++ t) ns) = R' g (reading t ns)) ->
  writes F' h w R' v extra ->
  writes F h (_ <- put code ;; w) R v extra.
Proof.
  intros Hs HR H out ns Hns. destruct (H (out ++ lit code) ns Hns) as (t & new & Hrun & HU & Hb & Ht & Hr).
  exists (lit code ++ t), new. split_and!; [|done|done|by apply starts_app|].
  - unfold put, emit. unfold bind, modify at 1. cbn [OldRemangler.Out OldRemangler.Substitutions]. rewrite Hrun.
    by rewrite app_assoc.
  - intros g rest Hg; rewrite length_app in Hg.
    rewrite <- app_assoc, HR by by apply starts_app. apply Hr. lia.
Qed.

(** A text in front of a part, perhaps an empty one. *)
Lemma oldWrites_prefix {A B} (F F' : ascii -> bool) h (m : OR B) (k : B -> OR unit) b p (R R' : nat -> OM A) v extra :
  (forall out ns, m (mkOldRemangler out ns) = Ok (b, mkOldRemangler (out ++ p) ns)) ->
  (forall c, F' c = true -> F c = true) -> (p = [] \/ starts F p) ->
  (forall g t ns, starts F' t -> R g (reading (p ++ t) ns) = R' g (reading t ns)) ->
  writes F' h (k b) R' v extra ->
  writes F h (bind m k) R v extra.
Proof.
  intros Hm HF Hp HR H out ns Hns. destruct (H (out ++ p) ns Hns) as (t & new & Hrun & HU & Hb & Ht & Hr).
  exists (p ++ t), new. split_and!; [|done|done| |].
  - rewrite (bind_ok _ _ _ _ _ (Hm out (entries ns))), Hrun. by rewrite app_assoc.
  - destruct Hp as [->|Hp]; [by eapply starts_mono|by apply starts_app].
  - intros g rest Hg. rewrite length_app in Hg. rewrite <- app_assoc, HR by by apply starts_app.
    apply Hr. lia.
Qed.

(** A code behind. *)
Lemma oldWrites_end {A B} F h code w (R : nat -> OM A) (K : nat -> A -> OM B) a v extra :
  lit code <> [] ->
  (forall g t ns, K g a (reading (lit code ++ t) ns) = Ok (v, reading t (ns ++ extra))) ->
  writes F h w R a [] ->
  writes F h (_ <- w ;; put code) (fun g => bind (R g) (K g)) v extra.
Proof.
  intros Hc HK H out ns Hns. destruct (H out ns Hns) as (t & new & Hrun & HU & Hb & Ht & Hr).
  exists (t ++ lit code), new. split_and!; [|done|done|by apply starts_app|].
  - rewrite (bind_ok _ _ _ _ _ Hrun). unfold put, emit, modify. cbn. by rewrite app_assoc.
  - intros g rest Hg. rewrite length_app in Hg. rewrite <- app_assoc.
    erewrite bind_ok by (apply Hr; lia). rewrite app_nil_r, HK. by rewrite <- app_assoc.
Qed.

(** ** Substitutions *)

(** The types and modules that have a code of their own. *)
Definition standard (n : Node) (code : string) : Prop :=
  forall out subs, mangleStandardSubstitution n (mkOldRemangler out subs)
    = Ok (true, mkOldRemangler (out ++ lit code) subs).

Definition notStandard (n : Node) : Prop := forall s, mangleStandardSubstitution n s = Ok (false, s).

Lemma oldWrites_standard {A} (F : ascii -> bool) h n code body (R : nat -> OM A) v :
  standard n code -> starts F (lit code) ->
  (forall g t ns, R (S g) (reading (lit code ++ t) ns) = Ok (v, reading t ns)) ->
  writes F h (substituted n body) R v [].
Proof.
  intros Hn Hs HR out ns Hns. exists (lit code), []. rewrite app_nil_r. split_and!; [|done..|].
  - unfold substituted, trySubstitution. rewrite bind_assoc. unfold bind at 1. by rewrite Hn.
  - intros [|g] rest Hg; [apply starts_length in Hs; lia|]. by rewrite app_nil_r.
Qed.

(** The entry of a node that has been substituted is found, and no other one. *)
Lemma find_entry n ns :
  In n U -> substitutable ns ->
  match list_find (fun e => entry_eqb (entryFor n) e = true) (entries ns) with
  | Some (i, _) => ns !! i = Some n
  | None => n ∉ ns
  end.
Proof.
  intros Hn [_ Hns]. destruct (list_find _ (entries ns)) as [[i e]|] eqn:E.
  - apply list_find_Some in E as (Hi & He & _). unfold entries in Hi. rewrite list_lookup_fmap in Hi.
    destruct (ns !! i) as [m|] eqn:Hm; [|done]. injection Hi as <-. f_equal.
    rewrite entry_eqb_hash in He. apply Z.eqb_eq in He. symmetry. apply U_hash; [done| |done].
    apply list_elem_of_In, Hns. by eapply list_elem_of_lookup_2.
  - apply list_find_None in E. rewrite List.Forall_forall in E. intros Hin.
    apply (E (entryFor n)); [by apply list_elem_of_In, list_elem_of_fmap_2|]. rewrite entry_eqb_hash. by apply Z.eqb_refl.
Qed.

Lemma substitution_bound ns i n : substitutable ns -> ns !! i = Some n -> Z.of_nat i < 2 ^ 64.
Proof.
  intros [Hnd Hsub] Hi%lookup_lt_Some. enough (length ns <= length U)%nat by lia.
  apply NoDup_incl_length; [by apply NoDup_ListNoDup|]. intros x Hx. by apply list_elem_of_In, Hsub, list_elem_of_In.
Qed.

Lemma add_entry n out ns :
  In n U -> substitutable ns -> n ∉ ns ->
  addSubstitution (Some (entryFor n)) (mkOldRemangler out (entries ns))
  = Ok (tt, mkOldRemangler out (entries (ns ++ [n]))) /\ substitutable (ns ++ [n]).
Proof.
  intros Hn Hns Hnin. pose proof (find_entry n ns Hn Hns) as Hf. split.
  - unfold addSubstitution, bind, gets. cbn [OldRemangler.Substitutions].
    assert (existsb (entry_eqb (entryFor n)) (entries ns) = false) as ->.
    { apply not_true_is_false. intros (e & He & Heq)%existsb_exists.
      destruct (list_find _ (entries ns)) as [[i e']|] eqn:E.
      - apply Hnin. by eapply list_elem_of_lookup_2.
      - apply list_find_None in E. rewrite List.Forall_forall in E. by apply (E e). }
    cbn. unfold modify, entries. cbn [OldRemangler.Out]. by rewrite fmap_app.
  - destruct Hns as [Hnd Hsub]. split.
    + apply list.NoDup_app. split_and!; [done| |apply list.NoDup_singleton]. intros x Hx Hx'%list_elem_of_singleton. by subst x.
    + intros x [Hx| ->%list_elem_of_singleton]%elem_of_app; [by apply Hsub|by apply list_elem_of_In].
Qed.

(** A reference to a substitution, and otherwise the node itself, which the reader
    adds as well. *)
Lemma oldWrites_substituted (F : ascii -> bool) h h' n body (R : nat -> OM NodePointer) :
  In n U -> notStandard n -> (h' < node_height n <= h)%nat -> F "S"%char = true ->
  (forall g t t' ns, demangleSubstitutionIndex (reading t ns) = Ok (Some n, reading t' ns) ->
     R (S g) (reading ("S"%char :: t) ns) = Ok (Some n, reading t' ns)) ->
  writes F h' body R (Some n) [n] ->
  writes F h (substituted n body) R (Some n) [].
Proof.
  intros Hn Hstd Hh HF HR Hbody out ns Hns. pose proof (find_entry n ns Hn Hns) as Hf.
  assert (trySubstitution n (mkOldRemangler out (entries ns)) =
    match list_find (fun e => entry_eqb (entryFor n) e = true) (entries ns) with
    | None => Ok ((false, Some (entryFor n)), mkOldRemangler out (entries ns))
    | Some (i, _) =>
        Ok ((true, Some (entryFor n)), mkOldRemangler (out ++ "S"%char :: indexText (Z.of_nat i)) (entries ns))
    end) as Htry.
  { unfold trySubstitution. rewrite (bind_ok _ _ _ _ _ (Hstd _)). cbn iota. unfold bind, gets. cbn [OldRemangler.Substitutions].
    fold (entryFor n). destruct (list_find _ (entries ns)) as [[i e]|]; [|done]. 
    unfold mangleIndex, put, emit, modify, indexText. cbn.
    destruct (Z.of_nat i =? 0); cbn; by rewrite <- app_assoc, <- ?app_assoc. }
  unfold substituted, bind. rewrite Htry. destruct (list_find _ (entries ns)) as [[i e]|].
  - exists ("S"%char :: indexText (Z.of_nat i)), []. rewrite app_nil_r. split_and!; [done..|].
    intros [|g] rest Hg; [cbn in Hg; lia|]. rewrite app_nil_r. cbn [app]. apply HR.
    unfold demangleSubstitutionIndex. pose proof (substitution_bound ns i n Hns Hf).
    pose proof (starts_app _ _ rest (indexText_starts (Z.of_nat i) ltac:(lia))) as Hi.
    rewrite (bind_ok _ _ _ _ _ (isEmpty_starts _ _ _ Hi)). cbn iota.
    rewrite (nextCases_other indexStart); [|vm_compute; reflexivity|done].
    rewrite (bind_ok _ _ _ _ _ (read_index (Z.of_nat i) rest ns ltac:(lia))). unfold gets. cbn. by rewrite Nat2Z.id, Hf.
  - destruct (Hbody out ns Hns) as (t & new & Hrun & HU & Hb & Ht & Hr). rewrite Hrun.
    assert (n ∉ ns ++ new) as Hnin.
    { intros [?|Hnew]%elem_of_app; [done|]. rewrite List.Forall_forall in Hb. apply list_elem_of_In, Hb in Hnew. unfold below in Hnew. lia. }
    destruct (add_entry n (out ++ t) (ns ++ new) Hn HU Hnin) as [Hadd Hok].
    exists t, (new ++ [n]). rewrite Hadd, <- app_assoc. split_and!; [done|by rewrite <- app_assoc in Hok| |done|].
    + apply Forall_app. split; [|by repeat constructor; unfold below; lia].
      eapply Forall_impl; [|exact Hb]. unfold below. lia.
    + intros g rest Hg. rewrite Hr by done. by rewrite app_nil_r.
Qed.

(** ** Lists up to a mark *)

(** [W] on each node in turn. *)
Section runAll.
Variable W : Node -> OR unit.
Fixpoint runAll (nodes : list Node) : OR unit :=
  match nodes with
  | [] => ret tt
  | n :: nodes => _ <- W n ;; runAll nodes
  end.
End runAll.

Section lists.
Context {A B : Type}.
Variables (F : ascii -> bool) (h : nat) (W : Node -> OR unit) (item : nat -> OM (option B)).
Variables (step : nat -> A -> OM (option A)) (f : A -> B -> A) (val : Node -> B).
Variable c : ascii.
Hypothesis F_c : F c = false.
(** A round of the loop reads an item; the mark is still behind it. *)
Hypothesis step_item : forall g acc x t ns t' ns',
  item g (reading t ns) = Ok (Some x, reading t' ns') -> starts F t -> t' <> [] ->
  step g acc (reading t ns) = Ok (Some (f acc x), reading t' ns').

Lemma runAll_until nodes :
  Forall (fun n => writes F h (W n) item (Some (val n)) []) nodes ->
  forall out ns, substitutable ns -> exists t new,
    runAll W nodes (mkOldRemangler out (entries ns)) = Ok (tt, mkOldRemangler (out ++ t) (entries (ns ++ new)))
    /\ substitutable (ns ++ new) /\ Forall (below h) new /\ (length nodes <= length t)%nat
    /\ starts (fun d => F d || Ascii.eqb d c) (t ++ [c])
    /\ forall g rest fuel acc, (length t <= g)%nat -> (length nodes < fuel)%nat ->
         loop fuel (untilNext_step c (step g)) acc (reading (t ++ c :: rest) ns)
         = Ok (Some (fold_left f (map val nodes) acc), reading rest (ns ++ new)).
Proof.
  induction 1 as [|n nodes Hn _ IH]; intros out ns Hns.
  - exists [], []. rewrite !app_nil_r. split_and!; [done..|cbn; by rewrite Ascii.eqb_refl, orb_true_r|].
    intros g rest [|fuel] acc _ Hf; [cbn in Hf; lia|]. cbn [loop app]. unfold untilNext_step at 1.
    rewrite bind_assoc. erewrite bind_ok by apply nextIf_head. done.
  - destruct (Hn out ns Hns) as (t & new & Hrun & HU & Hb & Ht & Hr).
    destruct (IH (out ++ t) (ns ++ new) HU) as (t' & new' & Hrun' & HU' & Hb' & Hlen & _ & Hr').
    exists (t ++ t'), (new ++ new'). pose proof (starts_length _ _ Ht).
    split_and!.
    + cbn [runAll]. rewrite (bind_ok _ _ _ _ _ Hrun), Hrun'. by rewrite !app_assoc.
    + by rewrite app_assoc.
    + by apply Forall_app.
    + cbn. rewrite length_app. lia.
    + apply starts_app, starts_app. eapply starts_mono; [|exact Ht]. by intros d ->.
    + intros g rest [|fuel] acc Hg Hf; [lia|]. rewrite length_app in Hg. cbn [loop]. unfold untilNext_step at 1.
      rewrite bind_assoc, <- app_assoc. pose proof (starts_app _ _ (t' ++ c :: rest) Ht) as Ht'.
      erewrite bind_ok; [|by apply (nextIf_miss F)]. cbn iota. rewrite bind_assoc.
      erewrite bind_ok; [|eapply step_item; [apply Hr; lia|exact Ht'|by destruct t']]. cbn.
      rewrite !app_nil_r, Hr' by (cbn in Hf; lia). by rewrite app_assoc.
Qed.

Lemma oldWrites_until nodes acc :
  Forall (fun n => writes F h (W n) item (Some (val n)) []) nodes ->
  writes (fun d => F d || Ascii.eqb d c) h (_ <- runAll W nodes ;; put (String c EmptyString))
    (fun g => untilNext c (step g) acc) (Some (fold_left f (map val nodes) acc)) [].
Proof.
  intros H out ns Hns. destruct (runAll_until nodes H out ns Hns) as (t & new & Hrun & HU & Hb & Hlen & Ht & Hr).
  exists (t ++ [c]), new. split_and!; [|done..|].
  - rewrite (bind_ok _ _ _ _ _ Hrun). unfold put, emit, modify. cbn. by rewrite app_assoc.
  - intros g rest Hg. rewrite length_app in Hg. rewrite <- app_assoc, app_nil_r. unfold untilNext, while_.
    apply Hr; [lia|]. cbn [Mangled app]. rewrite length_app. lia.
Qed.
End lists.

(** ** Names *)

Lemma oldWrites_text {A} F h w t (R : nat -> OM A) v :
  (forall out ns, w (mkOldRemangler out ns) = Ok (tt, mkOldRemangler (out ++ t) ns)) -> starts F t ->
  (forall g rest ns, R (S g) (reading (t ++ rest) ns) = Ok (v, reading rest ns)) -> writes F h w R v [].
Proof.
  intros Hw Ht HR out ns Hns. exists t, []. rewrite app_nil_r. split_and!; [apply Hw|done..|].
  intros [|g] rest Hg; [apply starts_length in Ht; lia|]. by rewrite HR, app_nil_r.
Qed.

#[local] Opaque writes.

Lemma oldWrites_identifier h s kind :
  nameText s ->
  writes isDigit h (mangleIdentifier s NotOperator) (fun _ => demangleIdentifier kind)
    (Some (createNodeText (default K_Identifier kind) s)) [].
Proof. intros Hs. apply (oldWrites_text _ _ _ (lengthPrefixed s)); [done|apply lengthPrefixed_starts|]. intros. by apply read_identifier. Qed.

Lemma oldWrites_operator h k operator mode op :
  In (k, operator, mode) operatorModes -> operatorText op ->
  writes (Ascii.eqb "o") h (mangleIdentifier op operator) (fun _ => demangleIdentifier None)
    (Some (createNodeText k op)) [].
Proof.
  intros Hin Hop. apply (oldWrites_text _ _ _ ("o"%char :: mode :: lengthPrefixed (map mangleOperatorChar op))); [|done|].
  - intros out ns. unfold lengthPrefixed. rewrite length_map.
    repeat destruct Hin as [[= <- <- <-]|Hin]; [reflexivity..|destruct Hin].
  - intros g rest ns. by apply (read_operator k operator).
Qed.

Lemma oldWrites_index h value :
  0 <= value < 2 ^ 64 ->
  writes indexStart h (mangleIndex value) (fun _ => demangleIndex) (Some value) [].
Proof.
  intros Hv. apply (oldWrites_text _ _ _ (indexText value)).
  - intros out ns. unfold mangleIndex, indexText. destruct (value =? 0); [done|].
    unfold put, emit, bind, modify. cbn. by rewrite <- app_assoc.
  - apply indexText_starts. lia.
  - intros. by apply read_index.
Qed.

Section dispatch.
Variable mangle mangleContext : Node -> OR unit.
Variable mangleUnboundType : Node -> bool -> OR unit.
Abbreviation D := (dispatch mangle mangleContext mangleUnboundType).

Lemma oldWrites_number h value :
  0 <= value < 2 ^ 64 ->
  writes indexStart h (D (createNodeIndex K_Number value)) (fun _ => demangleIndexAsNode)
    (Some (createNodeIndex K_Number value)) [].
Proof.
  intros Hv. unfold demangleIndexAsNode. eapply oldWrites_pure; [intros s; reflexivity|].
  rewrite wrap_u64_id by lia. eapply oldWrites_map; [by apply oldWrites_index|done].
Qed.

Lemma oldWrites_baseName h n :
  baseName n -> writes identifierStart h (D n) (fun _ => demangleIdentifier None) (Some n) [].
Proof.
  intros [s Hs|k operator mode op Hin Hop].
  - eapply oldWrites_pure; [intros; reflexivity|]. eapply oldWrites_mono; [| |by apply (oldWrites_identifier h s None)]; [|done].
    unfold identifierStart. by intros c ->.
  - eapply oldWrites_mono; [| |eapply oldWrites_writer; [|by apply (oldWrites_operator h k operator mode op)]].
    + unfold identifierStart. intros c Hc%Ascii.eqb_eq. by subst c.
    + done.
    + intros s. repeat destruct Hin as [[= <- <- <-]|Hin]; [reflexivity..|destruct Hin].
Qed.
End dispatch.

Lemma oldWrites_declName h f n :
  declName n -> writes nameStart h (mangleWithFuel (S (S f)) n) (fun _ => demangleDeclName) (Some n) [].
Proof.
  intros [n' Hn|value name Hv Hn|d name Hd Hn]; rewrite mangle_unfold.
  - eapply oldWrites_mono; [| |eapply oldWrites_reader; [|by apply oldWrites_baseName]].
    + intros c Hc. unfold nameStart. by rewrite Hc.
    + done.
    + intros g t ns Ht. by apply (nextCases_other identifierStart); [vm_compute|].
  - writer. eapply (oldWrites_code' _ indexStart); [done|intros; by apply nextCases_selects|]. rewrite !mangle_unfold.
    eapply oldWrites_bind; [by apply oldWrites_number|]. apply oldWrites_ret. eapply oldWrites_map; [by apply oldWrites_baseName|done].
  - writer. eapply (oldWrites_code' _ identifierStart); [done|intros; by apply nextCases_selects|]. rewrite !mangle_unfold.
    eapply oldWrites_bind; [by apply oldWrites_baseName|]. apply oldWrites_ret. eapply oldWrites_map; [by apply oldWrites_baseName|done].
Qed.
End writes.
