(* ===== verification/OldMangleable.v ===== *)
(** * The trees that the old mangling keeps

    [oldType], [oldContext] and [oldEntity]: the types, contexts and declarations
    for which the old remangler and the old demangler are proved to be inverse to
    each other, with the symbols made of them. What is left out are the trees that
    one of the two cannot handle (see the header of the development) and the
    archetypes of Swift 2. *)

From Stdlib Require Import String.
From S2P Require Import Prelude Nodes ManglingUtils Demangler NodePrinter OldDemangler Remangler OldRemangler OldWriting.

Definition asType (n : Node) : Node := mkNode K_Type NoPayload [n].
Definition typeList (ts : list Node) : Node := mkNode K_TypeList NoPayload (map asType ts).

(** ** Tables *)

Definition nominalCodes : list (Kind * string) := [(K_Structure, "V"); (K_Enum, "O"); (K_Class, "C")]%string.

(** Kinds with a type below them, and the code in front of it. *)
Definition wrappingCodes : list (Kind * string) :=
  [(K_DynamicSelf, "D"); (K_Metatype, "M"); (K_ExistentialMetatype, "PM"); (K_SILBoxType, "Xb");
   (K_Unowned, "Xo"); (K_Unmanaged, "Xu"); (K_Weak, "Xw")]%string.

Definition functionCodes : list (Kind * string) :=
  [(K_FunctionType, "F"); (K_UncurriedFunctionType, "f"); (K_ObjCBlock, "b"); (K_CFunctionPointer, "c");
   (K_AutoClosureType, "K"); (K_ThinFunctionType, "Xf")]%string.

Definition metatypeCodes : list (Kind * string) := [(K_Metatype, "XM"); (K_ExistentialMetatype, "XPM")]%string.
Definition representationCodes : list (string * string) :=
  [("@thin", "t"); ("@thick", "T"); ("@objc_metatype", "o")]%string.

Definition builtinCodes : list (string * string) :=
  [("Builtin.BridgeObject", "b"); ("Builtin.UnsafeValueBuffer", "B"); ("Builtin.UnknownObject", "O");
   ("Builtin.NativeObject", "o"); ("Builtin.RawPointer", "p"); ("Builtin.Word", "w")]%string.

(** Declarations without a name and a type, with their two codes. *)
Definition simpleCodes : list (Kind * (string * string)) :=
  [(K_Deallocator, ("F", "D")); (K_Destructor, ("F", "d")); (K_IVarInitializer, ("F", "e"));
   (K_IVarDestroyer, ("F", "E")); (K_Initializer, ("I", "i"))]%string.
Definition typedCodes : list (Kind * string) := [(K_Allocator, "C"); (K_Constructor, "c")]%string.
Definition namedCodes : list (Kind * string) := [(K_Function, "F"); (K_Variable, "v"); (K_Subscript, "i")]%string.
Definition closureCodes : list (Kind * string) := [(K_ExplicitClosure, "U"); (K_ImplicitClosure, "u")]%string.
Definition accessorCodes : list (Kind * string) :=
  [(K_Getter, "g"); (K_GlobalGetter, "G"); (K_Setter, "s"); (K_MaterializeForSet, "m"); (K_WillSet, "w");
   (K_DidSet, "W"); (K_OwningMutableAddressor, "aO"); (K_NativeOwningMutableAddressor, "ao");
   (K_NativePinningMutableAddressor, "ap"); (K_UnsafeMutableAddressor, "au"); (K_OwningAddressor, "lO");
   (K_NativeOwningAddressor, "lo"); (K_NativePinningAddressor, "lp"); (K_UnsafeAddressor, "lu")]%string.

(** ** Conditions *)

(** A type of the module [Swift] has an identifier for a name, as those that have a
    code of their own. *)
Definition standardOk (n : Node) : Prop :=
  match children n with
  | context :: name :: _ => context = createModule STDLIB_NAME -> exists text, name = createNodeText K_Identifier text
  | _ => True
  end.

(** A variable that is not named like a subscript. *)
Definition notSubscript (name : Node) : Prop :=
  match getKind name with
  | K_Identifier => payload name <> TextPayload (lit "subscript")
  | K_PrivateDeclName => match children name with
                         | [_; c] => payload c <> TextPayload (lit "subscript")
                         | _ => True
                         end
  | _ => True
  end.

(** A chain of nominal types in a module, an extension or a function: each of them
    may have generic arguments. *)
Fixpoint genericChain (n : Node) : Prop :=
  match n with
  | mkNode k _ (parent :: _) =>
      In k [K_Structure; K_Enum; K_Class]
      /\ (In (getKind parent) [K_Module; K_Function; K_Extension] \/ genericChain parent)
  | _ => False
  end.

Definition boundKind (k : Kind) : Kind :=
  match k with
  | K_Class => K_BoundGenericClass
  | K_Structure => K_BoundGenericStructure
  | _ => K_BoundGenericEnum
  end.

Definition genericParam (depth index : Z) : Node := getDependentGenericParamType depth index.

Definition oldModule (n : Node) : Prop := exists text, nameText text /\ n = createModule text.

Definition oldProtocol (n : Node) : Prop :=
  exists module name, oldModule module /\ declName name /\ n = mkNode K_Protocol NoPayload [module; name].

(** What is in front of the arguments of a function. *)
Definition throwing (throws : bool) : list Node := if throws then [createNode K_ThrowsAnnotation] else [].

(** ** The fragment *)

#[local] Set Warnings "-register-all".

Inductive oldContext : Node -> Prop :=
  | oldContext_module text : nameText text -> oldContext (createModule text)
  | oldContext_nominal n : oldNominal n -> oldContext n
  | oldContext_protocol n : oldProtocol n -> oldContext n
  | oldContext_extension module ctx :
      oldModule module -> oldContext ctx -> oldContext (mkNode K_Extension NoPayload [module; ctx])
  | oldContext_constrained module ctx sig :
      oldModule module -> oldContext ctx -> oldSignature sig -> oldContext (mkNode K_Extension NoPayload [module; ctx; sig])
  | oldContext_entity n : oldEntity n -> getKind n <> K_Subscript -> oldContext n
with oldNominal : Node -> Prop :=
  | oldNominal_intro k code ctx name :
      In (k, code) nominalCodes -> oldContext ctx -> declName name -> standardOk (mkNode k NoPayload [ctx; name]) ->
      oldNominal (mkNode k NoPayload [ctx; name])
with oldEntity : Node -> Prop :=
  | oldEntity_simple k codes ctx :
      In (k, codes) simpleCodes -> oldContext ctx -> oldEntity (mkNode k NoPayload [ctx])
  | oldEntity_typed k code ctx t :
      In (k, code) typedCodes -> oldContext ctx -> oldType t -> oldEntity (mkNode k NoPayload [ctx; asType t])
  | oldEntity_default ctx index :
      oldContext ctx -> 0 <= index < 2 ^ 64 ->
      oldEntity (mkNode K_DefaultArgumentInitializer NoPayload [ctx; createNodeIndex K_Number index])
  | oldEntity_named k code ctx name t :
      In (k, code) namedCodes -> oldContext ctx -> declName name -> oldType t ->
      oldEntity (mkNode k NoPayload [ctx; name; asType t])
  | oldEntity_closure k code ctx index t :
      In (k, code) closureCodes -> oldContext ctx -> 0 <= index < 2 ^ 64 -> oldType t ->
      oldEntity (mkNode k NoPayload [ctx; createNodeIndex K_Number index; asType t])
  | oldEntity_accessor k code ctx name t :
      In (k, code) accessorCodes -> oldContext ctx -> declName name -> notSubscript name -> oldType t ->
      oldEntity (mkNode k NoPayload [mkNode K_Variable NoPayload [ctx; name; asType t]])
  | oldEntity_subscript k code ctx t :
      In (k, code) accessorCodes -> oldContext ctx -> oldType t ->
      oldEntity (mkNode k NoPayload [mkNode K_Subscript NoPayload [ctx; asType t]])
  | oldEntity_privateSubscript k code ctx t d :
      In (k, code) accessorCodes -> oldContext ctx -> oldType t -> baseName d ->
      oldEntity (mkNode k NoPayload [mkNode K_Subscript NoPayload [ctx; asType t; mkNode K_PrivateDeclName NoPayload [d]]])
  | oldEntity_static n :
      oldEntity n -> getKind n <> K_Static -> oldEntity (mkNode K_Static NoPayload [n])
with oldType : Node -> Prop :=
  | oldType_nominal n : oldNominal n -> oldType n
  | oldType_builtin name code : In (name, code) builtinCodes -> oldType (createNodeText K_BuiltinTypeName (lit name))
  | oldType_builtinNumber prefix size :
      In prefix ["Builtin.Int"; "Builtin.Float"]%string -> 0 <= size < 2 ^ 64 ->
      oldType (createNodeText K_BuiltinTypeName (lit prefix ++ decimal size))
  | oldType_wrapping k code t : In (k, code) wrappingCodes -> oldType t -> oldType (mkNode k NoPayload [asType t])
  | oldType_inout t : oldType t -> oldType (mkNode K_InOut NoPayload [t])
  | oldType_error : oldType (createNodeText K_ErrorType [])
  | oldType_metatype k code representation rcode t :
      In (k, code) metatypeCodes -> In (representation, rcode) representationCodes -> oldType t ->
      oldType (mkNode k NoPayload [createNodeText K_MetatypeRepresentation (lit representation); asType t])
  | oldType_function k code throws a r :
      In (k, code) functionCodes -> oldType a -> oldType r ->
      oldType (mkNode k NoPayload (throwing throws ++ [mkNode K_ArgumentTuple NoPayload [asType a];
                                                        mkNode K_ReturnType NoPayload [asType r]]))
  | oldType_tuple es :
      Forall oldElement es -> oldType (mkNode K_Tuple NoPayload es)
  | oldType_variadic es e :
      Forall oldElement (es ++ [e]) ->
      oldType (mkNode K_Tuple NoPayload
                 (es ++ [mkNode K_TupleElement NoPayload (createNode K_VariadicMarker :: children e)]))
  | oldType_protocols ps :
      Forall oldProtocol ps -> oldType (mkNode K_ProtocolList NoPayload [typeList ps])
  | oldType_param depth index : 0 <= depth < 2 ^ 32 -> 0 <= index < 2 ^ 32 -> oldType (genericParam depth index)
  | oldType_bound n args :
      oldNominal n -> genericChain n -> args <> [] -> Forall oldType args ->
      oldType (mkNode (boundKind (getKind n)) NoPayload [asType n; typeList args])
  | oldType_generic sig t :
      oldSignature sig -> oldType t -> oldType (mkNode K_DependentGenericType NoPayload [sig; asType t])
with oldElement : Node -> Prop :=
  | oldElement_unlabelled t : oldType t -> oldElement (mkNode K_TupleElement NoPayload [asType t])
  | oldElement_labelled label t :
      nameText label -> oldType t ->
      oldElement (mkNode K_TupleElement NoPayload [createNodeText K_TupleElementName label; asType t])
with oldSignature : Node -> Prop :=
  | oldSignature_intro counts requirements :
      counts <> [] -> Forall (fun c => 0 <= c < 2 ^ 64 - 1) counts -> Forall oldRequirement requirements ->
      oldSignature (mkNode K_DependentGenericSignature NoPayload
                      (map (createNodeIndex K_DependentGenericParamCount) counts ++ requirements))
with oldRequirement : Node -> Prop :=
  | oldRequirement_sameType depth index t :
      0 <= depth < 2 ^ 32 -> 0 <= index < 2 ^ 32 -> oldType t ->
      oldRequirement (mkNode K_DependentGenericSameTypeRequirement NoPayload
                        [asType (genericParam depth index); asType t])
  | oldRequirement_protocol depth index p :
      0 <= depth < 2 ^ 32 -> 0 <= index < 2 ^ 32 -> oldProtocol p ->
      oldRequirement (mkNode K_DependentGenericConformanceRequirement NoPayload
                        [asType (genericParam depth index); asType p])
  | oldRequirement_class depth index n :
      0 <= depth < 2 ^ 32 -> 0 <= index < 2 ^ 32 -> oldNominal n -> getKind n = K_Class ->
      oldRequirement (mkNode K_DependentGenericConformanceRequirement NoPayload
                        [asType (genericParam depth index); asType n]).
