(* ===== verification/OldNominalWriting.v ===== *)
(** * Modules, protocols and nominal types in the old mangling

    The parts of [OldMangleable] that are substituted: a module, a protocol and a
    nominal type are written as a code of their own, as a reference or in full, and
    each of the demangler's functions that may meet them reads all three. *)

From Stdlib Require Import String.
From S2P Require Import Prelude Nodes ManglingUtils Numbers Demangler NodePrinter PrinterSpecs OldDemangler Remangler OldRemangler OldWriting OldMangleable.

(** What a type begins with. *)
Definition typeStart (c : ascii) : bool := existsb (Ascii.eqb c) (lit "BabcDEFfGXKMPQqxwWRSTtuCVO").

(** What a context begins with. *)
Definition contextStart (c : ascii) : bool := isDigit c || existsb (Ascii.eqb c) (lit "sSEeGFIvZCVOP").

#[local] Opaque OldWriting.writes.

(** A node of a table. *)
Ltac table Hin := repeat destruct Hin as [[= <- <-]|Hin]; [reflexivity..|destruct Hin].

Section nominals.
Variable U : list Node.
Hypothesis U_size : Z.of_nat (length U) < 2 ^ 64.
Hypothesis U_hash : forall a b, In a U -> In b U -> deepHash a = deepHash b -> a = b.

Abbreviation writes := (writes U).
Abbreviation TI := demangleTypeImplWith.
Abbreviation CI := demangleContextWith.

Definition writesContext (h f : nat) (n : Node) : Prop :=
  writes contextStart h (mangleContextWithFuel f n) CI (Some n) [].
Definition writesInner (h f : nat) (t : Node) : Prop :=
  writes typeStart h (mangleWithFuel f t) TI (Some t) [].
Definition writesType (h f : nat) (t : Node) : Prop :=
  writes typeStart h (mangleWithFuel f (asType t)) (fun g => demangleType (TI g)) (Some (asType t)) [].

Lemma oldWrites_asType h f t : writesInner h f t -> writesType h (S f) t.
Proof.
  intros H. unfold writesType. rewrite mangle_unfold. writer.
  do 2 (eapply oldWrites_pure; [intros; reflexivity|]). eapply oldWrites_map; [exact H|done].
Qed.

(** ** Codes of the standard library *)

Lemma successIf_spec text cases :
  (exists value code, In (value, code) cases /\ text = value
     /\ forall out subs, successIf text cases (mkOldRemangler out subs) = Ok (true, mkOldRemangler (out ++ lit code) subs))
  \/ (forall s, successIf text cases s = Ok (false, s)).
Proof.
  induction cases as [|[value code] cases IH]; [by right|]. cbn [successIf].
  destruct (str_eqb_spec text value) as [->|_].
  - left. exists value, code. split_and!; [by left|done|done].
  - destruct IH as [(v & c & Hin & He & Hrun)|Hrun]; [|by right]. left. exists v, c. split_and!; [by right|done..].
Qed.

Lemma module_codes text :
  (exists code, In (text, code) moduleSubstitutions /\ standard (createModule text) code) \/ notStandard (createModule text).
Proof.
  destruct (successIf_spec text moduleSubstitutions) as [(v & c & Hin & -> & Hrun)|Hrun]; [left; by exists c|by right].
Qed.

Lemma entity_kind n : oldEntity n -> In (getKind n)
  (map fst simpleCodes ++ map fst typedCodes ++ map fst namedCodes ++ map fst closureCodes ++ map fst accessorCodes
   ++ [K_DefaultArgumentInitializer; K_Static]).
Proof.
  intros [k codes ctx Hin|k code ctx t Hin| |k code ctx name t Hin|k code ctx index t Hin|k code ctx name t Hin
         |k code ctx t Hin|k code ctx t d Hin|]; cbn [getKind]; rewrite !in_app_iff;
    try (apply (in_map fst) in Hin; cbn [fst] in Hin); tauto || (cbn; tauto).
Qed.

(** A context that is a module has the form of one. *)
Lemma context_module ctx : oldContext ctx -> getKind ctx = K_Module -> exists text, nameText text /\ ctx = createModule text.
Proof.
  intros [text Ht|n Hn|n (module & name & _ & _ & ->)|module c _ _|module c sig _ _ _|n Hn _] Hk; [by exists text|..]; exfalso.
  - destruct Hn as [k code c name Hin _ _ _]. cbn in Hk. subst k. repeat destruct Hin as [[=]|Hin]. destruct Hin.
  - done.
  - done.
  - done.
  - apply entity_kind in Hn. rewrite Hk in Hn. cbn in Hn. intuition congruence.
Qed.

Definition nominalSubstitutions (k : Kind) : list (str * string) :=
  match k with K_Structure => structureSubstitutions | K_Enum => enumSubstitutions | _ => [] end.

Lemma nominal_codes k code ctx name :
  In (k, code) nominalCodes -> oldContext ctx -> standardOk (mkNode k NoPayload [ctx; name]) ->
  (exists text code', In (text, code') (nominalSubstitutions k) /\ ctx = createModule STDLIB_NAME
     /\ name = createNodeText K_Identifier text /\ standard (mkNode k NoPayload [ctx; name]) code')
  \/ notStandard (mkNode k NoPayload [ctx; name]).
Proof.
  intros Hk Hctx Hstd.
  assert (forall s, isInSwiftModule (mkNode k NoPayload [ctx; name]) s
            = Ok (if Kind_eqb (getKind ctx) K_Module then
                    match payload ctx with TextPayload text => str_eqb text STDLIB_NAME | _ => false end else false, s)) as Hin.
  { intros s. unfold isInSwiftModule, getFirstChild, bind. cbn -[Kind_eqb]. destruct (Kind_eqb (getKind ctx) K_Module) eqn:E; [|done].
    apply Kind_eqb_eq in E. by destruct (context_module ctx Hctx E) as (text & _ & ->). }
  assert ((exists text, ctx = createModule STDLIB_NAME /\ name = createNodeText K_Identifier text) \/
          forall cases s, successIfDeclName (mkNode k NoPayload [ctx; name]) cases s = Ok (false, s)) as [(text & -> & ->)|Hno].
  { destruct (Kind_eqb (getKind ctx) K_Module) eqn:E.
    - apply Kind_eqb_eq in E. destruct (context_module ctx Hctx E) as (text & _ & Hc). subst ctx. cbn in Hin.
      destruct (str_eqb_spec text STDLIB_NAME) as [He|].
      { left. destruct (Hstd ltac:(by rewrite He)) as [name' ->]. exists name'. by rewrite He. }
      right. intros cases s. unfold successIfDeclName. by rewrite (bind_ok _ _ _ _ _ (Hin s)).
    - right. intros cases s. unfold successIfDeclName. by rewrite (bind_ok _ _ _ _ _ (Hin s)). }
  - assert (forall cases s, successIfDeclName (mkNode k NoPayload [createModule STDLIB_NAME; createNodeText K_Identifier text]) cases s
              = successIf text cases s) as Hrun by by intros.
    repeat destruct Hk as [[= <- <-]|Hk]; [..|destruct Hk]; [| |by right].
    + destruct (successIf_spec text structureSubstitutions) as [(v & c & Hv & -> & Hc)|Hc]; [left; by exists v, c|by right].
    + destruct (successIf_spec text enumSubstitutions) as [(v & c & Hv & -> & Hc)|Hc]; [left; by exists v, c|by right].
  - right. intros s. repeat destruct Hk as [[= <- <-]|Hk]; [apply Hno|apply Hno|done|destruct Hk].
Qed.

(** ** Modules *)

(** [demangleContext] on a text that begins with neither of the codes of its own. *)
Lemma read_contextModule g t ns :
  starts isDigit t ->
  CI (S g) (reading t ns) = (module <-? demangleIdentifier (Some K_Module) ;; _ <- pushSubstitution module ;; ret (Some module)) (reading t ns).
Proof.
  intros Ht. change (CI (S g) (reading t ns)) with (demangleContextBody (TI g) (CI g) (reading t ns)).
  unfold demangleContextBody. erewrite bind_ok by by apply (isEmpty_starts isDigit). cbn iota.
  rewrite (nextCases_other isDigit) by done. destruct t as [|c t]; [done|]. unfold bind at 1, peek. cbn [Mangled].
  assert (isStartOfEntity c = false) as ->.
  { enough (implb (isDigit c) (negb (isStartOfEntity c)) = true) as H.
    - cbn in Ht. rewrite Ht in H. by apply negb_true_iff.
    - revert c Ht. intros c _. revert c. apply ascii_forall. vm_compute. reflexivity. }
  unfold demangleModule. by rewrite (nextCases_other isDigit).
Qed.

Definition moduleStart (c : ascii) : bool := isDigit c || existsb (Ascii.eqb c) (lit "sS").

Lemma moduleStart_cases c : moduleStart c = true -> isDigit c = true \/ c = "s"%char \/ c = "S"%char.
Proof.
  unfold moduleStart. change (lit "sS") with ["s"; "S"]%char. cbn [existsb]. rewrite orb_false_r, !orb_true_iff, !Ascii.eqb_eq. tauto.
Qed.

Lemma oldWrites_module h f text :
  In (createModule text) U -> nameText text -> (1 <= h)%nat ->
  writes moduleStart h (mangleContextWithFuel (S f) (createModule text)) CI (Some (createModule text)) [].
Proof.
  intros HU Ht Hh. rewrite mangleContext_unfold. writer. unfold mangleModule.
  destruct (module_codes text) as [(code & Hin & Hstd)|Hstd].
  - eapply oldWrites_standard; [done|repeat destruct Hin as [[= <- <-]|Hin]; [done..|destruct Hin]|].
    intros g t ns. table Hin.
  - apply (oldWrites_substituted U U_size U_hash _ _ 0); [done|done|cbn; lia|done|by intros ????|].
    apply (oldWrites_mono _ isDigit _ 0); [unfold moduleStart; by intros c ->|done|].
    apply oldWrites_fuel with
      (R' := fun _ => module <-? demangleIdentifier (Some K_Module) ;; _ <- pushSubstitution module ;; ret (Some module));
      [intros; by apply read_contextModule|].
    do 2 (eapply oldWrites_pure; [intros; reflexivity|]).
    eapply oldWrites_then; [by apply oldWrites_identifier|done].
Qed.

(** The same for the functions that read a module only. *)
Lemma read_module g t ns text t' ns' :
  starts moduleStart t -> CI (S g) (reading t ns) = Ok (Some (createModule text), reading t' ns') ->
  demangleModule (reading t ns) = Ok (Some (createModule text), reading t' ns').
Proof.
  destruct t as [|c t]; [done|]. intros Hc H.
  apply moduleStart_cases in Hc as [Hd|[-> | ->]].
  - rewrite read_contextModule in H by done. unfold demangleModule. by rewrite (nextCases_other isDigit).
  - exact H.
  - change (demangleSubstitutionIndex (reading t ns) = Ok (Some (createModule text), reading t' ns')) in H.
    change (demangleModule (reading ("S"%char :: t) ns))
      with ((module <-? demangleSubstitutionIndex ;;
             ret (if Kind_eqb (getKind module) K_Module then Some module else None)) (reading t ns)).
    by rewrite (bind_ok _ _ _ _ _ H).
Qed.

Lemma oldWrites_definingModule h f text :
  In (createModule text) U -> nameText text -> (1 <= h)%nat ->
  writes moduleStart h (mangleContextWithFuel (S f) (createModule text)) (fun _ => demangleModule) (Some (createModule text)) [].
Proof.
  intros HU Ht Hh. eapply oldWrites_same; [|by apply oldWrites_module]. intros g t ns t' ns' Hs H. by eapply read_module.
Qed.

(** ** Protocols *)

Lemma put_nothing (s : OldRemangler) : put "" s = Ok (tt, s).
Proof. destruct s. unfold put, emit, modify. cbn. by rewrite app_nil_r. Qed.

(** A protocol behind its module. *)
Lemma read_protocol g t ns text t' ns' :
  starts moduleStart t -> CI (S g) (reading t ns) = Ok (Some (createModule text), reading t' ns') ->
  demangleProtocolNameImpl (CI (S g)) (reading t ns) = demangleProtocolNameGivenContext (createModule text) (reading t' ns').
Proof.
  destruct t as [|c t]; [done|]. intros Hc H.
  apply moduleStart_cases in Hc as [Hd|[-> | ->]].
  - unfold demangleProtocolNameImpl. rewrite (nextCases_other isDigit) by done.
    unfold demangleDeclarationName. by rewrite (bind_ok _ _ _ _ _ H).
  - change (Ok (Some (createModule STDLIB_NAME), reading t ns) = Ok (Some (createModule text), reading t' ns')) in H.
    by injection H as <- <- <-.
  - change (demangleSubstitutionIndex (reading t ns) = Ok (Some (createModule text), reading t' ns')) in H.
      change (demangleProtocolNameImpl (CI (S g)) (reading ("S"%char :: t) ns))
        with ((sub <-? demangleSubstitutionIndex ;;
               if Kind_eqb (getKind sub) K_Protocol then ret (Some sub)
               else if negb (Kind_eqb (getKind sub) K_Module) then ret None
               else demangleProtocolNameGivenContext sub) (reading t ns)).
      by rewrite (bind_ok _ _ _ _ _ H).
Qed.

Definition protocolNode (text : str) (name : Node) : Node := mkNode K_Protocol NoPayload [createModule text; name].

Lemma oldWrites_protocolName h h' f text name :
  In (createModule text) U -> In (protocolNode text name) U -> nameText text -> declName name ->
  (1 <= h')%nat -> (h' < node_height (protocolNode text name) <= h)%nat ->
  writes moduleStart h (mangleNominalType (mangleWithFuel (S (S f))) (mangleContextWithFuel (S (S f))) (protocolNode text name) "")
    (fun g => demangleProtocolNameImpl (CI g)) (Some (protocolNode text name)) [].
Proof.
  intros HUm HU Ht Hname Hh' Hh.
  apply (oldWrites_substituted U U_size U_hash _ _ h'); [done|done|lia|done| |].
  - intros g t t' ns H.
    change (demangleProtocolNameImpl (CI (S g)) (reading ("S"%char :: t) ns))
      with ((sub <-? demangleSubstitutionIndex ;;
             if Kind_eqb (getKind sub) K_Protocol then ret (Some sub)
             else if negb (Kind_eqb (getKind sub) K_Module) then ret None
             else demangleProtocolNameGivenContext sub) (reading t ns)).
    by rewrite (bind_ok _ _ _ _ _ H).
  - unfold mangleNamedEntity. eapply oldWrites_pure; [intros; reflexivity|].
    eapply oldWrites_pure; [apply put_nothing|]. eapply oldWrites_pure; [intros; reflexivity|].
    apply (oldWrites_via _ moduleStart nameStart) with
      (R := CI) (a := Some (createModule text)) (K := fun _ => demangleProtocolNameGivenContext (createModule text));
      [intros; by eapply read_protocol|by apply oldWrites_module|].
    eapply oldWrites_pure; [apply put_nothing|]. do 2 (eapply oldWrites_pure; [intros; reflexivity|]).
    eapply oldWrites_then; [by apply oldWrites_declName|done].
Qed.

Lemma oldWrites_protocolContext h h' f text name :
  In (createModule text) U -> In (protocolNode text name) U -> nameText text -> declName name ->
  (1 <= h')%nat -> (h' < node_height (protocolNode text name) <= h)%nat ->
  writesContext h (S (S (S f))) (protocolNode text name).
Proof.
  intros HUm HU Ht Hname Hh' Hh. unfold writesContext. rewrite mangleContext_unfold. writer.
  unfold mangleProtocol. apply (oldWrites_substituted U U_size U_hash _ _ h'); [done|done|lia|done|by intros ????|].
  unfold mangleNamedEntity. eapply oldWrites_pure; [intros; reflexivity|].
  eapply (oldWrites_code _ _ contextStart) with (R' := fun g => demangleDeclarationName (CI g) K_Protocol); [done..|].
  eapply oldWrites_pure; [intros; reflexivity|].
  eapply oldWrites_bind; [apply (oldWrites_mono _ moduleStart _ h'); [|done|by apply oldWrites_module]|].
  { intros c Hc. apply moduleStart_cases in Hc as [Hc|[-> | ->]]; [unfold contextStart; by rewrite Hc|done..]. }
  eapply oldWrites_pure; [apply put_nothing|]. do 2 (eapply oldWrites_pure; [intros; reflexivity|]).
  eapply oldWrites_then; [by apply oldWrites_declName|done].
Qed.

(** The constraint of a requirement, which is read in its own way. *)
Lemma read_constraint g t ns p t' ns' :
  starts moduleStart t -> getKind p = K_Protocol ->
  demangleProtocolNameImpl (CI (S g)) (reading t ns) = Ok (Some p, reading t' ns') ->
  demangleConstraint (TI (S g)) (CI (S g)) (reading t ns) = Ok (Some (asType p), reading t' ns').
Proof.
  destruct t as [|c t]; [done|]. intros Hc Hp H. 
  assert (c <> "S"%char -> c <> "C"%char ->
    demangleConstraint (TI (S g)) (CI (S g)) (reading (c :: t) ns) = Ok (Some (asType p), reading t' ns')) as Hother.
  { intros HS HC. unfold demangleConstraint. erewrite bind_ok by by apply (isEmpty_starts (fun _ => true)). cbn iota.
    unfold bind at 1, peek. cbn [Mangled]. apply Ascii.eqb_neq in HS, HC. rewrite HS, HC.
    unfold demangleProtocolName, demangleUnder, demangleChild. by rewrite (bind_ok _ _ _ _ _ H). }
  apply moduleStart_cases in Hc as [Hd|[-> | ->]]; [apply Hother; intros ->; done|by apply Hother|].
  change ((sub <-? demangleSubstitutionIndex ;;
           if Kind_eqb (getKind sub) K_Protocol then ret (Some sub)
           else if negb (Kind_eqb (getKind sub) K_Module) then ret None
           else demangleProtocolNameGivenContext sub) (reading t ns) = Ok (Some p, reading t' ns')) in H.
  change (demangleConstraint (TI (S g)) (CI (S g)) (reading ("S"%char :: t) ns))
    with ((sub <-? demangleSubstitutionIndex ;;
           demangleUnder K_Type
             (match getKind sub with
              | K_Protocol | K_Class => ret (Some sub)
              | K_Module => demangleProtocolNameGivenContext sub
              | _ => ret None
              end)) (reading t ns)).
  unfold bind in H |- *. destruct (demangleSubstitutionIndex (reading t ns)) as [[[sub|] s']|]; [|done..].
  unfold demangleUnder, demangleChild. 
  destruct (Kind_eqb (getKind sub) K_Protocol) eqn:E.
  - apply Kind_eqb_eq in E. rewrite E. injection H as -> ->. done.
  - destruct (Kind_eqb (getKind sub) K_Module) eqn:E'; [|done]. apply Kind_eqb_eq in E'. rewrite E'. cbn [negb] in H.
    by rewrite (bind_ok _ _ _ _ _ H).
Qed.

(** ** Nominal types *)

Lemma notSpecialized n : oldContext n -> forall s : OldRemangler, isSpecialized n s = Ok (false, s).
Proof.
  induction n as [k p cs IH] using Node_tree_ind. intros Hn s.
  inversion Hn as [text Ht|n' Hn'|n' (module & name & _ & _ & Heq)|module ctx Hm Hctx|module ctx sig Hm Hctx _|n' He Hk]; subst.
  - done.
  - inversion Hn' as [k' code ctx name Hin Hctx Hname _]; subst. inversion_clear IH as [|? ? IHctx _].
    specialize (IHctx Hctx s). repeat destruct Hin as [[= <- <-]|Hin]; [exact IHctx..|destruct Hin].
  - by injection Heq as -> -> ->.
  - inversion_clear IH as [|? ? _ IH']. inversion_clear IH' as [|? ? IHctx _]. exact (IHctx Hctx s).
  - inversion_clear IH as [|? ? _ IH']. inversion_clear IH' as [|? ? IHctx _]. exact (IHctx Hctx s).
  - apply entity_kind in He. cbn in He. repeat destruct He as [<-|He]; [reflexivity..|destruct He].
Qed.

Section nominal.
Variable F : ascii -> bool.
Variable R : nat -> OM NodePointer.
Variable more : nat -> nat.
Hypothesis F_S : F "S"%char = true.
Hypothesis more_fuel : forall g, (g <= more g)%nat.
Hypothesis R_substitution : forall g t ns, R (S g) (reading ("S"%char :: t) ns) = demangleSubstitutionIndex (reading t ns).
Hypothesis R_nominal : forall k code g t ns, In (k, code) nominalCodes ->
  R (S g) (reading (lit code ++ t) ns) = demangleDeclarationName (CI (more g)) k (reading t ns).

Lemma oldWrites_nominal h h' f k code ctx name :
  In (k, code) nominalCodes -> oldContext ctx -> declName name -> standardOk (mkNode k NoPayload [ctx; name]) ->
  In (mkNode k NoPayload [ctx; name]) U -> (h' < node_height (mkNode k NoPayload [ctx; name]) <= h)%nat ->
  starts F (lit code) -> writesContext h' (S (S f)) ctx ->
  writes F h (mangleNominalType (mangleWithFuel (S (S f))) (mangleContextWithFuel (S (S f))) (mkNode k NoPayload [ctx; name]) code)
    R (Some (mkNode k NoPayload [ctx; name])) [].
Proof.
  intros Hk Hctx Hname Hstd HU Hh Hcode H. unfold mangleNominalType.
  destruct (nominal_codes k code ctx name Hk Hctx Hstd) as [(text & code' & Hin & -> & -> & Hn)|Hn].
  - eapply oldWrites_standard; [exact Hn| |].
    + repeat destruct Hk as [[= <- <-]|Hk]; [..|destruct Hk]; repeat destruct Hin as [[= <- <-]|Hin]; try exact F_S; destruct Hin.
    + intros g t ns. repeat destruct Hk as [[= <- <-]|Hk]; [..|destruct Hk];
        repeat destruct Hin as [[= <- <-]|Hin]; try (by apply R_substitution); destruct Hin.
  - apply (oldWrites_substituted U U_size U_hash _ _ h'); [done|done|done|done| |].
    + intros g t t' ns Hread. by rewrite R_substitution.
    + unfold mangleNamedEntity. eapply oldWrites_pure; [intros; reflexivity|].
      eapply (oldWrites_code _ _ contextStart) with (R' := fun g => demangleDeclarationName (CI (more g)) k).
      * exact Hcode.
      * intros g t ns _. by apply R_nominal.
      * eapply oldWrites_pure; [intros; reflexivity|].
        eapply oldWrites_bind; [by apply (oldWrites_more _ _ _ _ CI more)|].
        eapply oldWrites_pure; [apply put_nothing|]. do 2 (eapply oldWrites_pure; [intros; reflexivity|]).
        eapply oldWrites_then; [by apply oldWrites_declName|done].
Qed.
End nominal.

Lemma mangleAnyNominalType_nominal m c u k code ctx name b (s : OldRemangler) :
  In (k, code) nominalCodes -> oldContext ctx ->
  mangleAnyNominalType m c u (mkNode k NoPayload [ctx; name]) b s
  = mangleNominalType m c (mkNode k NoPayload [ctx; name]) code s.
Proof.
  intros Hk Hctx. unfold mangleAnyNominalType.
  assert (isSpecialized (mkNode k NoPayload [ctx; name]) s = Ok (false, s)) as Hs.
  { repeat destruct Hk as [[= <- <-]|Hk]; [exact (notSpecialized ctx Hctx s)..|destruct Hk]. }
  rewrite (bind_ok _ _ _ _ _ Hs). repeat destruct Hk as [[= <- <-]|Hk]; [reflexivity..|destruct Hk].
Qed.

Lemma codes_start (F : ascii -> bool) k :
  forallb F ["V"; "O"; "C"]%char = true -> forall code, In (k, code) nominalCodes -> starts F (lit code).
Proof.
  cbn. rewrite !andb_true_iff. intros (HV & HO & HC & _) code Hin.
  repeat destruct Hin as [[= <- <-]|Hin]; [done..|destruct Hin].
Qed.

(** The nominal type [n] and what its context is. *)
Section places.
Variables (n : Node) (h h' f : nat).
Hypothesis n_nominal : oldNominal n.
Hypothesis n_in : In n U.
Hypothesis n_height : (h' < node_height n <= h)%nat.
Hypothesis context_writes : forall ctx, oldContext ctx -> In ctx (children n) -> writesContext h' (S (S f)) ctx.

Lemma oldWrites_nominal_at F R more w :
  F "S"%char = true -> (forall code, In (getKind n, code) nominalCodes -> starts F (lit code)) ->
  (forall g, (g <= more g)%nat) ->
  (forall g t ns, R (S g) (reading ("S"%char :: t) ns) = demangleSubstitutionIndex (reading t ns)) ->
  (forall k code g t ns, In (k, code) nominalCodes ->
     R (S g) (reading (lit code ++ t) ns) = demangleDeclarationName (CI (more g)) k (reading t ns)) ->
  (exists b, forall s, w s = mangleAnyNominalType (mangleWithFuel (S (S f))) (mangleContextWithFuel (S (S f)))
                               (mangleUnboundWithFuel (S (S f))) n b s) ->
  writes F h w R (Some n) [].
Proof.
  intros HF HC Hmore HS HV [b Hw]. destruct n_nominal as [k code ctx name Hk Hctx Hname Hstd].
  eapply oldWrites_writer; [intros s; rewrite Hw; by apply mangleAnyNominalType_nominal|].
  apply (oldWrites_nominal F R more HF Hmore HS HV _ h'); try done; [by apply HC|].
  apply context_writes; [done|by left].
Qed.

Lemma oldWrites_nominalAsType :
  writes (fun c => existsb (Ascii.eqb c) (lit "SVOC")) h (mangleWithFuel (S (S (S f))) n) TI (Some n) [].
Proof.
  apply oldWrites_nominal_at with (more := fun g => g); [done|apply codes_start; by vm_compute|done|done| |].
  - intros k code g t ns Hk. repeat destruct Hk as [[= <- <-]|Hk]; [reflexivity..|destruct Hk].
  - exists false. intros s. destruct n_nominal as [k code ctx name Hk Hctx Hname Hstd].
    repeat destruct Hk as [[= <- <-]|Hk]; [reflexivity..|destruct Hk].
Qed.

Lemma oldWrites_nominalType : writesInner h (S (S (S f))) n.
Proof.
  eapply (oldWrites_mono U _ typeStart); [|done|exact oldWrites_nominalAsType].
  intros c (d & Hd & Hc)%existsb_exists. apply existsb_exists. exists d. split; [|done].
  repeat destruct Hd as [<-|Hd]; [cbv; tauto..|destruct Hd].
Qed.

Lemma oldWrites_nominalContext : writesContext h (S (S (S f))) n.
Proof.
  apply oldWrites_nominal_at with (more := fun g => g); [done|apply codes_start; by vm_compute|done|done| |].
  - intros k code g t ns Hk. repeat destruct Hk as [[= <- <-]|Hk]; [reflexivity..|destruct Hk].
  - exists true. intros s. destruct n_nominal as [k code ctx name Hk Hctx Hname Hstd].
    repeat destruct Hk as [[= <- <-]|Hk]; [reflexivity..|destruct Hk].
Qed.

(** Without its generic arguments. *)
Lemma oldWrites_unbound b :
  writes (fun c => existsb (Ascii.eqb c) (lit "SVOC")) h (mangleUnboundWithFuel (S (S (S f))) n b)
    (fun g => demangleNominalType (CI g)) (Some n) [].
Proof.
  apply oldWrites_nominal_at with (more := S); [done|apply codes_start; by vm_compute|lia|done| |by exists b].
  intros k code g t ns Hk. repeat destruct Hk as [[= <- <-]|Hk]; [reflexivity..|destruct Hk].
Qed.

(** A class as a constraint. *)
Lemma oldWrites_class :
  getKind n = K_Class ->
  writes (fun c => Ascii.eqb c "S" || Ascii.eqb c "C") h (mangleWithFuel (S (S (S (S f)))) (asType n))
    (fun g => demangleConstraint (TI g) (CI g)) (Some (asType n)) [].
Proof.
  intros Hk. rewrite mangle_unfold. writer. do 2 (eapply oldWrites_pure; [intros; reflexivity|]).
  apply oldWrites_same with (R := TI) (a := Some n).
  - intros g t ns t' ns' Ht H. destruct t as [|c t]; [done|]. cbn in Ht.
    apply orb_true_iff in Ht as [->%Ascii.eqb_eq| ->%Ascii.eqb_eq].
    + change (demangleSubstitutionIndex (reading t ns) = Ok (Some n, reading t' ns')) in H.
      change (demangleConstraint (TI (S g)) (CI (S g)) (reading ("S"%char :: t) ns))
        with ((sub <-? demangleSubstitutionIndex ;;
               demangleUnder K_Type
                 (match getKind sub with
                  | K_Protocol | K_Class => ret (Some sub)
                  | K_Module => demangleProtocolNameGivenContext sub
                  | _ => ret None
                  end)) (reading t ns)).
      rewrite (bind_ok _ _ _ _ _ H). by rewrite Hk.
    + change (demangleConstraint (TI (S g)) (CI (S g)) (reading ("C"%char :: t) ns))
        with (demangleType (TI (S g)) (reading ("C"%char :: t) ns)).
      unfold demangleType. by rewrite (bind_ok _ _ _ _ _ H).
  - apply oldWrites_nominal_at with (more := fun g => g); [done| |done|done| |].
    + rewrite Hk. intros code Hin. repeat destruct Hin as [[= <-]|Hin]; [done|destruct Hin].
    + intros k code g t ns Hin. repeat destruct Hin as [[= <- <-]|Hin]; [reflexivity..|destruct Hin].
    + exists false. intros s. destruct n_nominal as [k code ctx name Hin Hctx Hname Hstd].
      repeat destruct Hin as [[= <- <-]|Hin]; [reflexivity..|destruct Hin].
Qed.
End places.
End nominals.
