(* ===== verification/OldTypeWriting.v ===== *)
(** * Types in the old mangling

    For every type of [OldMangleable] that the remangler's function for it writes
    what the demangler's reads, given the same for its parts. *)

From Stdlib Require Import String.
From S2P Require Import Prelude Nodes ManglingUtils Numbers Demangler NodePrinter PrinterSpecs OldDemangler Remangler OldRemangler OldWriting OldMangleable OldNominalWriting.

#[local] Opaque OldWriting.writes.

Section types.
Variable U : list Node.
Hypothesis U_size : Z.of_nat (length U) < 2 ^ 64.
Hypothesis U_hash : forall a b, In a U -> In b U -> deepHash a = deepHash b -> a = b.

Abbreviation writes := (writes U).
Abbreviation writesContext := (writesContext U).
Abbreviation writesInner := (writesInner U).
Abbreviation writesType := (writesType U).
Abbreviation TI := demangleTypeImplWith.
Abbreviation CI := demangleContextWith.

(** A code, and the parts behind it. *)
Lemma oldWrites_wrapping h f k code t :
  In (k, code) wrappingCodes -> writesType h f t -> writesInner h (S f) (mkNode k NoPayload [asType t]).
Proof.
  intros Hin H. unfold OldNominalWriting.writesInner. rewrite mangle_unfold.
  enough (writes typeStart h (_ <- put code ;; mangleWithFuel f (asType t)) TI (Some (mkNode k NoPayload [asType t])) []) as Hw.
  { eapply oldWrites_writer; [|exact Hw]. intros s. table Hin. }
  eapply (oldWrites_code _ _ typeStart) with (R' := fun g => demangleUnder k (demangleType (TI g))).
  - table Hin.
  - intros g s ns Hs. table Hin.
  - eapply oldWrites_map; [exact H|done].
Qed.

Lemma oldWrites_inout h f t : writesInner h f t -> writesInner h (S f) (mkNode K_InOut NoPayload [t]).
Proof.
  intros H. unfold OldNominalWriting.writesInner. rewrite mangle_unfold. writer.
  eapply (oldWrites_code _ _ typeStart) with (R' := fun g => demangleUnder K_InOut (TI g)); [done..|].
  do 2 (eapply oldWrites_pure; [intros; reflexivity|]). eapply oldWrites_map; [exact H|done].
Qed.

Lemma oldWrites_error h f : writesInner h (S f) (createNodeText K_ErrorType []).
Proof.
  unfold OldNominalWriting.writesInner. rewrite mangle_unfold. by apply (oldWrites_text _ _ _ _ (lit "ERR")).
Qed.

Lemma oldWrites_metatype h f k code representation rcode t :
  In (k, code) metatypeCodes -> In (representation, rcode) representationCodes -> writesType h (S f) t ->
  writesInner h (S (S f)) (mkNode k NoPayload [createNodeText K_MetatypeRepresentation (lit representation); asType t]).
Proof.
  intros Hk Hr H. unfold OldNominalWriting.writesInner. rewrite mangle_unfold.
  set (repr := createNodeText K_MetatypeRepresentation (lit representation)).
  enough (writes typeStart h (_ <- put code ;; _ <- put rcode ;; _ <- mangleWithFuel (S f) (asType t) ;; ret tt) TI
            (Some (mkNode k NoPayload [repr; asType t])) []) as Hw.
  { eapply oldWrites_writer; [|exact Hw]. intros s.
    repeat destruct Hk as [[= <- <-]|Hk]; [..|destruct Hk]; table Hr. }
  eapply (oldWrites_code _ _ (fun _ => true)) with (R' := fun g => demangleMetatypeWithRepresentation (TI g) k).
  - table Hk.
  - intros g s ns _. table Hk.
  - eapply (oldWrites_code' _ _ typeStart)
      with (R' := fun g => type <-? demangleType (TI g) ;; ret (Some (mkNode k NoPayload [repr; type]))).
    + table Hr.
    + intros g s ns _. unfold repr. table Hr.
    + apply oldWrites_ret. eapply oldWrites_map; [exact H|done].
Qed.

Lemma put_emit out subs code t :
  (_ <- put code ;; emit t) (mkOldRemangler out subs) = Ok (tt, mkOldRemangler (out ++ lit code ++ t) subs).
Proof. unfold put, emit, bind, modify. cbn. by rewrite <- app_assoc. Qed.

Lemma oldWrites_builtin h f name code :
  In (name, code) builtinCodes -> writesInner h (S f) (createNodeText K_BuiltinTypeName (lit name)).
Proof.
  intros Hin. apply (oldWrites_text _ _ _ _ ("B"%char :: lit code)); [|done|].
  - intros out ns. repeat destruct Hin as [[= <- <-]|Hin]; [exact (put_emit out ns "B" (lit _))..|destruct Hin].
  - intros g rest ns. table Hin.
Qed.

Lemma oldWrites_builtinNumber h f prefix size :
  In prefix ["Builtin.Int"; "Builtin.Float"]%string -> 0 <= size < 2 ^ 64 ->
  writesInner h (S f) (createNodeText K_BuiltinTypeName (lit prefix ++ decimal size)).
Proof.
  intros Hin Hsize. set (c := (if String.eqb prefix "Builtin.Int" then "i" else "f")%string).
  apply (oldWrites_text _ _ _ _ (lit "B" ++ lit c ++ decimal size ++ lit "_")); [|done|].
  - intros out ns. generalize (decimal size). intros d.
    assert (forall s, mangleWithFuel (S f) (createNodeText K_BuiltinTypeName (lit prefix ++ d)) s
              = (_ <- put "B" ;; _ <- put c ;; _ <- emit d ;; put "_") s) as Hrun.
    { intros s. destruct Hin as [<-|[<-|[]]]; reflexivity. }
    rewrite Hrun. unfold put, emit, bind, modify. cbn. by rewrite <- !app_assoc.
  - intros g rest ns. transitivity (demangleBuiltinNumber (lit prefix) (reading (decimal size ++ lit "_" ++ rest) ns)).
    { rewrite <- !app_assoc. destruct Hin as [<-|[<-|[]]]; reflexivity. }
    unfold demangleBuiltinNumber, demangleBuiltinSize. rewrite bind_assoc.
    rewrite (bind_ok _ _ _ _ _ (read_natural size (lit "_" ++ rest) ns ltac:(lia) eq_refl)). rewrite bind_assoc.
    by rewrite (bind_ok _ _ _ _ _ (nextIf_head "_" rest ns)).
Qed.

(** *** Generic parameters *)

Definition paramStart (c : ascii) : bool := indexStart c || Ascii.eqb c "d" || Ascii.eqb c "x".

(** Only the first parameter is written with an [x]. *)
Definition paramStartOf (depth index : Z) (c : ascii) : bool :=
  if (depth =? 0) && (index =? 0) then Ascii.eqb c "x" else indexStart c || Ascii.eqb c "d".

Lemma genericParam_eq depth index :
  0 <= depth < 2 ^ 32 -> 0 <= index < 2 ^ 32 ->
  genericParam depth index = mkNode K_DependentGenericParamType (TextPayload (archetypeName index depth))
    [mkNode K_Index (IndexPayload depth) []; mkNode K_Index (IndexPayload index) []].
Proof.
  intros Hd Hi. unfold genericParam, getDependentGenericParamType. rewrite !wrap_u32_id by done.
  unfold createNodeIndex. by rewrite !wrap_u64_id by lia.
Qed.

Lemma oldWrites_paramIndex h depth index :
  0 <= depth < 2 ^ 32 -> 0 <= index < 2 ^ 32 ->
  writes (paramStartOf depth index) h (mangleDependentGenericParamIndex (genericParam depth index))
    (fun _ => demangleGenericParamIndex) (Some (genericParam depth index)) [].
Proof.
  intros Hd Hi. rewrite genericParam_eq at 1 by done. unfold mangleDependentGenericParamIndex, paramStartOf.
  do 4 (eapply oldWrites_pure; [intros; reflexivity|]).
  destruct (Z.eqb_spec depth 0) as [->|Hd0]; cbn [negb].
  - destruct (Z.eqb_spec index 0) as [->|Hi0]; cbn [negb]; [by apply oldWrites_put|].
    eapply oldWrites_mono; [| |eapply oldWrites_reader; [|eapply oldWrites_map; [apply (oldWrites_index U h (index - 1)); lia|]]].
    + intros c Hc. cbn. by rewrite Hc.
    + done.
    + intros g t ns Ht. unfold demangleGenericParamIndex. by apply (nextCases_other indexStart).
    + intros g t ns. cbn. replace (index - 1 + 1) with index by lia. by rewrite wrap_u64_id by lia.
  - eapply (oldWrites_code' _ _ indexStart); [done|intros; by apply nextCases_selects|].
    eapply oldWrites_bind; [apply (oldWrites_index U h (depth - 1)); lia|].
    eapply oldWrites_map; [apply (oldWrites_index U h index); lia|].
    intros g t ns. cbn. replace (depth - 1 + 1) with depth by lia. by rewrite wrap_u64_id by lia.
Qed.

Lemma oldWrites_param h f depth index :
  0 <= depth < 2 ^ 32 -> 0 <= index < 2 ^ 32 -> writesInner h (S f) (genericParam depth index).
Proof.
  intros Hd Hi. unfold OldNominalWriting.writesInner.
  assert (forall s, mangleWithFuel (S f) (genericParam depth index) s
    = (if (depth =? 0) && (index =? 0) then put "x"
       else _ <- put "q" ;; mangleDependentGenericParamIndex (genericParam depth index)) s) as Hrun.
  { intros s. rewrite genericParam_eq by done.
    transitivity ((isX <- (if depth =? 0 then ret (index =? 0) else ret false) ;;
                   if (isX : bool) then put "x"
                   else _ <- put "q" ;; mangleDependentGenericParamIndex
                          (mkNode K_DependentGenericParamType (TextPayload (archetypeName index depth))
                             [mkNode K_Index (IndexPayload depth) []; mkNode K_Index (IndexPayload index) []])) s).
    - reflexivity.
    - destruct (depth =? 0); [by destruct (index =? 0)|reflexivity]. }
  eapply oldWrites_writer; [exact Hrun|]. destruct ((depth =? 0) && (index =? 0)) eqn:E.
  - apply andb_prop in E as [->%Z.eqb_eq ->%Z.eqb_eq]. by apply oldWrites_put.
  - pose proof (oldWrites_paramIndex h depth index Hd Hi) as H. unfold paramStartOf in H. rewrite E in H.
    apply (oldWrites_code _ _ (fun c => indexStart c || Ascii.eqb c "d")) with (R' := fun _ => demangleGenericParamIndex); [done| |done].
    intros g t ns Ht. destruct t as [|c t]; [done|].
    change (TI (S g) (reading (lit "q" ++ c :: t) ns)) with (demangleDependentType (TI g) (CI g) (reading (c :: t) ns)).
    unfold demangleDependentType. erewrite bind_ok by by apply (isEmpty_starts (fun _ => true)). cbn iota.
    unfold bind at 1, peek. cbn [Mangled].
    assert (negb (Ascii.eqb c "d") && negb (Ascii.eqb c "_") && negb (isDigit c) = false) as ->; [|done].
    cbn in Ht. unfold indexStart in Ht. destruct (Ascii.eqb c "d"), (Ascii.eqb c "_"), (isDigit c); done.
Qed.

(** *** Functions *)

(** The parts of a function type have a node of their own around them. *)
Lemma oldWrites_argument h f k t :
  In k [K_ArgumentTuple; K_ReturnType] -> writesType h f t ->
  writes typeStart h (mangleWithFuel (S f) (mkNode k NoPayload [asType t])) (fun g => demangleType (TI g)) (Some (asType t)) [].
Proof.
  intros Hin H. rewrite mangle_unfold.
  destruct Hin as [<-|[<-|[]]]; writer; (do 2 (eapply oldWrites_pure; [intros; reflexivity|])); exact H.
Qed.

Definition functionNode (k : Kind) (throws : bool) (a r : Node) : Node :=
  mkNode k NoPayload (throwing throws ++ [mkNode K_ArgumentTuple NoPayload [asType a];
                                           mkNode K_ReturnType NoPayload [asType r]]).

Lemma oldWrites_functionParts h f k throws a r :
  writesType h f a -> writesType h f r ->
  writes (fun c => typeStart c || Ascii.eqb c "z") h
    (mangleNodes (mangleWithFuel (S f)) (children (functionNode k throws a r)))
    (fun g => demangleFunctionType (TI g) k) (Some (functionNode k throws a r)) [].
Proof.
  intros Ha Hr.
  assert (forall annotation,
    writes typeStart h
      (_ <- mangleWithFuel (S f) (mkNode K_ArgumentTuple NoPayload [asType a]) ;;
       _ <- mangleWithFuel (S f) (mkNode K_ReturnType NoPayload [asType r]) ;; ret tt)
      (fun g => in_args <-? demangleType (TI g) ;; out_args <-? demangleType (TI g) ;;
                ret (Some (mkNode k NoPayload
                             (annotation ++ [nodeAddChild (createNode K_ArgumentTuple) in_args;
                                             postProcessReturnTypeNode out_args]))))
      (Some (mkNode k NoPayload (annotation ++ [mkNode K_ArgumentTuple NoPayload [asType a];
                                                mkNode K_ReturnType NoPayload [asType r]]))) []) as Hparts.
  { intros annotation. eapply oldWrites_bind; [apply oldWrites_argument; [by left|exact Ha]|]. apply oldWrites_ret.
    eapply oldWrites_map; [apply oldWrites_argument; [by right; left|exact Hr]|done]. }
  destruct throws.
  - eapply (oldWrites_code' _ _ typeStart); [done| |exact (Hparts [createNode K_ThrowsAnnotation])].
    intros g t ns _. unfold demangleFunctionType. by rewrite (bind_ok _ _ _ _ _ (nextIf_head "z" t ns)).
  - eapply oldWrites_mono; [| |eapply oldWrites_reader; [|exact (Hparts [])]].
    + by intros c ->.
    + done.
    + intros g t ns Ht. unfold demangleFunctionType. by read_miss typeStart.
Qed.

Lemma oldWrites_function h f k code throws a r :
  In (k, code) functionCodes -> writesType h f a -> writesType h f r -> writesInner h (S (S f)) (functionNode k throws a r).
Proof.
  intros Hin Ha Hr. unfold OldNominalWriting.writesInner. rewrite mangle_unfold.
  eapply oldWrites_writer with (w' := _ <- put code ;; mangleNodes (mangleWithFuel (S f)) (children (functionNode k throws a r))).
  { intros s. table Hin. }
  eapply (oldWrites_code _ _ (fun c => typeStart c || Ascii.eqb c "z")); [table Hin| |by apply oldWrites_functionParts].
  intros g t ns _. table Hin.
Qed.

(** *** Tuples *)

Definition elementStart (c : ascii) : bool := typeStart c || isDigit c.

(** What a round of the loop over the elements reads. *)
Definition readElement (g : nat) : OM NodePointer :=
  c <- peek ;;
  elt <-?
    (if isStartOfIdentifier c
     then demangleUnder K_TupleElement (demangleIdentifier (Some K_TupleElementName))
     else ret (Some (createNode K_TupleElement))) ;;
  demangleChild elt (demangleType (TI g)).

Lemma tuple_step_item g acc x t ns t' ns' :
  readElement g (reading t ns) = Ok (Some x, reading t' ns') -> starts elementStart t -> t' <> [] ->
  tuple_step (TI g) acc (reading t ns) = Ok (Some (acc ++ [x]), reading t' ns').
Proof.
  intros H Ht _. unfold tuple_step. erewrite bind_ok by by apply (isEmpty_starts elementStart). cbn iota.
  unfold readElement in H. unfold bind in H |- *. destruct (peek (reading t ns)) as [[c s1]|]; [|done].
  destruct (isStartOfIdentifier c).
  - destruct (demangleUnder _ _ s1) as [[[elt|] s2]|]; [|done..]. by rewrite H.
  - cbn [ret] in H |- *. by rewrite H.
Qed.

Definition writesElement (h f : nat) (e e' : Node) : Prop :=
  writes elementStart h (mangleWithFuel f e') readElement (Some e) [].

Lemma startOfIdentifier_type c : typeStart c = true -> isStartOfIdentifier c = false.
Proof.
  intros Hc. enough (implb (typeStart c) (negb (isStartOfIdentifier c)) = true) as H.
  - rewrite Hc in H. by apply negb_true_iff.
  - exact (ascii_forall (fun c => implb (typeStart c) (negb (isStartOfIdentifier c))) ltac:(vm_compute; reflexivity) c).
Qed.

Lemma oldWrites_elementNodes h f e :
  oldElement e -> (forall t, In (asType t) (children e) -> writesType h (S f) t) ->
  writes elementStart h (mangleNodes (mangleWithFuel (S f)) (children e)) readElement (Some e) [].
Proof.
  intros [t Ht|label t Hlabel Ht] H; cbn [children mangleNodes].
  - apply oldWrites_ret. eapply (oldWrites_mono _ typeStart); [unfold elementStart; by intros c ->|done|].
    eapply oldWrites_reader; [|eapply oldWrites_map; [apply H; by left|]].
    + intros g s ns Hs. destruct s as [|c s]; [done|]. unfold readElement, bind at 1, peek. cbn [Mangled].
      rewrite startOfIdentifier_type by done. unfold bind at 1. cbn [ret]. reflexivity.
    + done.
  - eapply (oldWrites_mono _ isDigit); [unfold elementStart; intros c ->; apply orb_true_r|done|].
    rewrite mangle_unfold. writer. eapply (oldWrites_reader _ isDigit) with
      (R' := fun g => name <-? demangleIdentifier (Some K_TupleElementName) ;;
                      demangleChild (nodeAddChild (createNode K_TupleElement) name) (demangleType (TI g))).
    + intros g s ns Hs. destruct s as [|c s]; [done|]. unfold readElement, bind at 1, peek. cbn [Mangled].
      assert (isStartOfIdentifier c = true) as -> by (unfold isStartOfIdentifier; cbn in Hs; by rewrite Hs).
      unfold demangleUnder, demangleChild at 1. rewrite bind_assoc. apply bind_ext. intros [x|] s'; reflexivity.
    + eapply oldWrites_bind.
      * eapply oldWrites_pure; [intros; reflexivity|]. by apply (oldWrites_identifier U h label (Some K_TupleElementName)).
      * apply oldWrites_ret. eapply oldWrites_map; [apply H; by right; left|done].
Qed.

(** An element that is marked as variadic, and without its mark. *)
Definition marked (e : Node) : Node := mkNode K_TupleElement NoPayload (createNode K_VariadicMarker :: children e).

Definition unmarked (e : Node) : Node :=
  match children e with
  | mkNode K_VariadicMarker _ _ :: cs => mkNode (getKind e) (payload e) cs
  | _ => e
  end.

Lemma unmarked_element e : oldElement e -> unmarked e = e /\ unmarked (marked e) = e.
Proof. by intros []. Qed.

(** Whatever of an element is written, the element without its mark is read. *)
Definition elementWrites (h f : nat) (e : Node) : Prop :=
  writes elementStart h (mangleWithFuel f e) readElement (Some (unmarked e)) [].

Lemma oldWrites_element h f e :
  oldElement e -> (forall t, In (asType t) (children e) -> writesType h (S f) t) ->
  elementWrites h (S (S f)) e /\ elementWrites h (S (S f)) (marked e).
Proof.
  intros He Ht. pose proof (oldWrites_elementNodes h f e He Ht) as H. unfold elementWrites.
  destruct (unmarked_element e He) as [-> ->]. split.
  - destruct He; exact H.
  - eapply oldWrites_writer; [|exact H]. intros s. reflexivity.
Qed.

Lemma fold_snoc {A} (l acc : list A) : fold_left (fun acc x => acc ++ [x]) l acc = acc ++ l.
Proof. revert acc. induction l as [|x l IH]; intros acc; cbn; [by rewrite app_nil_r|]. by rewrite IH, <- app_assoc. Qed.

Lemma oldWrites_elements h f variadic es (result : Node) :
  Forall (elementWrites h f) es ->
  (forall t ns, (elements <-
      (match map unmarked es !! (length (map unmarked es) - 1)%nat with
       | Some elt =>
           if (variadic : bool) then
             elt <- markVariadic elt ;; ret (take (length (map unmarked es) - 1) (map unmarked es) ++ [elt])
           else ret (map unmarked es)
       | None => ret (map unmarked es)
       end) ;;
     ret (Some (mkNode K_Tuple NoPayload elements))) (reading t ns) = Ok (Some result, reading t ns)) ->
  writes typeStart h (_ <- put (if variadic then "t" else "T") ;; _ <- mangleNodes (mangleWithFuel f) es ;; put "_")
    TI (Some result) [].
Proof.
  intros Hes Hresult.
  apply (oldWrites_code _ _ (fun c => elementStart c || Ascii.eqb c "_")) with (R' := fun g => demangleTuple (TI g) variadic).
  - by destruct variadic.
  - intros g t ns _. by destruct variadic.
  - pose proof (oldWrites_until U elementStart h (mangleWithFuel f) readElement
      (fun g => tuple_step (TI g)) (fun acc x => acc ++ [x]) unmarked "_" eq_refl tuple_step_item es [] Hes) as H.
    rewrite fold_snoc in H. eapply oldWrites_map; [exact H|]. intros g t ns. apply Hresult.
Qed.

Lemma oldWrites_tuple h f es :
  Forall oldElement es -> Forall (elementWrites h f) es -> writesInner h (S f) (mkNode K_Tuple NoPayload es).
Proof.
  intros Hold Hes. assert (map unmarked es = es) as Hmap.
  { clear Hes. induction Hold as [|e es He _ IH]; [done|]. cbn. rewrite IH. by destruct (unmarked_element e He) as [-> _]. }
  unfold OldNominalWriting.writesInner. eapply oldWrites_writer; [|apply (oldWrites_elements h f false es _ Hes)].
  - intros s. rewrite mangle_unfold. writer. unfold mangleTuple.
    assert (isVariadicTuple (mkNode K_Tuple NoPayload es) s = Ok (false, s)) as Hv; [|by rewrite (bind_ok _ _ _ _ _ Hv)].
    destruct es as [|e es _] using rev_ind; [done|]. apply Forall_app in Hold as [_ He]. inversion_clear He as [|? ? He' _].
    unfold isVariadicTuple, getNumChildren. cbn [children]. rewrite length_app, Nat.add_comm. cbn [length Nat.add].
    unfold getChild, bind. cbn [children]. rewrite list_lookup_middle by done. by destruct He'.
  - intros t ns. rewrite Hmap. by destruct (es !! _).
Qed.

Lemma oldWrites_variadic h f es e :
  Forall oldElement (es ++ [e]) -> Forall (elementWrites h f) (es ++ [marked e]) ->
  writesInner h (S f) (mkNode K_Tuple NoPayload (es ++ [marked e])).
Proof.
  intros Hold Hes. apply Forall_app in Hold as [Hold He]. inversion_clear He as [|? ? He' _].
  assert (map unmarked (es ++ [marked e]) = es ++ [e]) as Hmap.
  { rewrite map_app. cbn [map]. destruct (unmarked_element e He') as [_ ->]. f_equal. clear Hes.
    induction Hold as [|e' es He _ IH]; [done|]. cbn. rewrite IH. by destruct (unmarked_element e' He) as [-> _]. }
  unfold OldNominalWriting.writesInner. eapply oldWrites_writer; [|apply (oldWrites_elements h f true _ _ Hes)].
  - intros s. rewrite mangle_unfold. writer. unfold mangleTuple.
    assert (isVariadicTuple (mkNode K_Tuple NoPayload (es ++ [marked e])) s = Ok (true, s)) as Hv;
      [|by rewrite (bind_ok _ _ _ _ _ Hv)].
    unfold isVariadicTuple, getNumChildren. cbn [children]. rewrite length_app, Nat.add_comm. cbn [length Nat.add].
    unfold getChild, bind. cbn [children]. by rewrite list_lookup_middle by done.
  - intros t ns. rewrite Hmap, length_app. cbn [length]. rewrite Nat.add_sub.
    rewrite list_lookup_middle, take_app_length by done. by destruct He'.
Qed.

(** *** Protocols *)

Definition protocolWrites (h f : nat) (p : Node) : Prop :=
  writes moduleStart h (mangleNominalType (mangleWithFuel f) (mangleContextWithFuel f) p "")
    (fun g => demangleProtocolNameImpl (CI g)) (Some p) [].

Lemma oldWrites_protocolType h f p :
  oldProtocol p -> protocolWrites h f p ->
  writes moduleStart h (mangleProtocolWithoutPrefix (mangleWithFuel f) (mangleContextWithFuel f) (asType p))
    (fun g => demangleProtocolName (CI g)) (Some (asType p)) [].
Proof.
  intros (module & name & _ & _ & ->) H. unfold mangleProtocolWithoutPrefix.
  do 2 (eapply oldWrites_pure; [intros; reflexivity|]). eapply oldWrites_map; [exact H|done].
Qed.

Lemma fold_nodeAddChild k p l cs : fold_left nodeAddChild l (mkNode k p cs) = mkNode k p (cs ++ l).
Proof. revert cs. induction l as [|x l IH]; intros cs; cbn; [by rewrite app_nil_r|]. unfold nodeAddChild at 2. cbn. by rewrite IH, <- app_assoc. Qed.

(** Parts that are added to a node up to a mark. *)
Lemma oldWrites_children F h W (item : nat -> OM NodePointer) c k p nodes cs :
  F c = false ->
  Forall (fun n => writes F h (W n) item (Some n) []) nodes ->
  writes (fun d => F d || Ascii.eqb d c) h (_ <- runAll W nodes ;; put (String c EmptyString))
    (fun g => untilNext c (fun parent => demangleChild parent (item g)) (mkNode k p cs)) (Some (mkNode k p (cs ++ nodes))) [].
Proof.
  intros Hc Hnodes.
  pose proof (oldWrites_until U F h W item (fun g parent => demangleChild parent (item g)) nodeAddChild (fun n => n) c Hc) as H.
  specialize (H ltac:(intros g acc x t ns t' ns' Hi _ _; unfold demangleChild; by rewrite (bind_ok _ _ _ _ _ Hi)) nodes (mkNode k p cs) Hnodes).
  by rewrite map_id, fold_nodeAddChild in H.
Qed.

Lemma oldWrites_protocols h f ps :
  Forall oldProtocol ps -> Forall (protocolWrites h f) ps ->
  writesInner h (S f) (mkNode K_ProtocolList NoPayload [typeList ps]).
Proof.
  intros Hold Hps. unfold OldNominalWriting.writesInner.
  eapply oldWrites_writer with (w' := _ <- put "P" ;;
    _ <- runAll (mangleProtocolWithoutPrefix (mangleWithFuel f) (mangleContextWithFuel f)) (map asType ps) ;; put "_"); [intros; reflexivity|].
  apply (oldWrites_code _ _ (fun c => moduleStart c || Ascii.eqb c "_")) with (R' := fun g => demangleProtocolList (CI g)); [done| |].
  - intros g t ns Ht. transitivity (nextCases [ "M" =>> demangleUnder K_ExistentialMetatype (demangleType (TI g)) ]
        (demangleProtocolList (CI g)) (reading t ns)); [reflexivity|].
    by apply (nextCases_other (fun c => moduleStart c || Ascii.eqb c "_")).
  - eapply oldWrites_map; [apply (oldWrites_children moduleStart h _ (fun g => demangleProtocolName (CI g)) "_"); [done|]|done].
    rewrite List.Forall_map. apply List.Forall_forall. intros p Hp. rewrite List.Forall_forall in Hold, Hps.
    apply oldWrites_protocolType; auto.
Qed.

(** *** Generic types *)

(** The levels of generic arguments of the types around a type. *)
Fixpoint levels (n : Node) : nat :=
  match n with
  | mkNode k _ (parent :: _) =>
      match k with K_Structure | K_Enum | K_Class => S (levels parent) | _ => O end
  | _ => O
  end.

Lemma mangleGenericArgs_levels m n out ns :
  genericChain n \/ In (getKind n) [K_Module; K_Function; K_Extension] ->
  mangleGenericArgs m n (mkOldRemangler out ns) = Ok (tt, mkOldRemangler (out ++ repeat "_"%char (levels n)) ns).
Proof.
  revert out. induction n as [k p cs IH] using Node_tree_ind. intros out [Hn|Hk].
  - destruct cs as [|parent cs]; [done|]. destruct Hn as [Hk Hparent]. inversion_clear IH as [|? ? IHp _].
    assert (mangleGenericArgs m (mkNode k p (parent :: cs)) (mkOldRemangler out ns)
            = (_ <- mangleGenericArgs m parent ;; put "_") (mkOldRemangler out ns)) as ->.
    { repeat destruct Hk as [<-|Hk]; [reflexivity..|destruct Hk]. }
    rewrite (bind_ok _ _ _ _ _ (IHp out ltac:(tauto))). unfold put, emit, modify. cbn [OldRemangler.Out OldRemangler.Substitutions].
    rewrite <- app_assoc. change (lit "_") with ["_"%char].
    assert (levels (mkNode k p (parent :: cs)) = S (levels parent)) as -> by (repeat destruct Hk as [<-|Hk]; [reflexivity..|destruct Hk]).
    cbn [repeat]. by rewrite repeat_cons.
  - cbn in Hk. assert (levels (mkNode k p cs) = O) as -> by (destruct cs; [done|]; repeat destruct Hk as [<-|Hk]; [reflexivity..|destruct Hk]).
    rewrite app_nil_r. repeat destruct Hk as [<-|Hk]; [by destruct cs..|destruct Hk].
Qed.

(** A nominal type that is read again with its parent. *)
Lemma demangleBoundGenericArgs_unfold g k code parent name :
  In (k, code) nominalCodes ->
  demangleBoundGenericArgs (TI g) (mkNode k NoPayload [parent; name])
  = (nominalType <-
       (match getKind parent with
        | K_Module | K_Function | K_Extension => ret (mkNode k NoPayload [parent; name])
        | _ =>
            p <- demangleBoundGenericArgs (TI g) parent ;;
            match p with
            | None => fail (AssertionFailed "Node::addChild")
            | Some p => ret (mkNode k NoPayload [p; name])
            end
        end) ;;
     bindGenericArgs (TI g) nominalType).
Proof. intros Hk. repeat destruct Hk as [[= <- <-]|Hk]; [reflexivity..|destruct Hk]. Qed.

(** The parents of a nominal type, which have no arguments. *)
Lemma read_parent g k code parent name t ns :
  In (k, code) nominalCodes ->
  (In (getKind parent) [K_Module; K_Function; K_Extension] /\ levels parent = O
   \/ (~ In (getKind parent) [K_Module; K_Function; K_Extension] /\
       demangleBoundGenericArgs (TI g) parent (reading (repeat "_"%char (levels parent) ++ t) ns) = Ok (Some parent, reading t ns))) ->
  demangleBoundGenericArgs (TI g) (mkNode k NoPayload [parent; name]) (reading (repeat "_"%char (levels parent) ++ t) ns)
  = bindGenericArgs (TI g) (mkNode k NoPayload [parent; name]) (reading t ns).
Proof.
  intros Hk Hp. rewrite (demangleBoundGenericArgs_unfold g k code) by done.
  destruct Hp as [[Hp Hl]|[Hp Hr]].
  - rewrite Hl. cbn in Hp. repeat destruct Hp as [<-|Hp]; [reflexivity..|destruct Hp].
  - assert (forall (A : Type) (a b : A), match getKind parent with K_Module | K_Function | K_Extension => a | _ => b end = b) as Hm.
    { intros A a b. cbn in Hp. destruct (getKind parent); try done; exfalso; tauto. }
    rewrite Hm, bind_assoc. by rewrite (bind_ok _ _ _ _ _ Hr).
Qed.

Lemma read_levels g n t ns :
  oldContext n -> genericChain n ->
  demangleBoundGenericArgs (TI g) n (reading (repeat "_"%char (levels n) ++ t) ns) = Ok (Some n, reading t ns).
Proof.
  revert t. induction n as [k p cs IH] using Node_tree_ind. intros t Hn Hchain.
  assert (oldNominal (mkNode k p cs)) as Hnom.
  { destruct cs as [|parent cs]; [done|]. destruct Hchain as [Hk _].
    change (In (getKind (mkNode k p (parent :: cs))) [K_Structure; K_Enum; K_Class]) in Hk.
    destruct Hn as [? _|? ?|? (? & ? & _ & _ & ->)|? ? _ _|? ? ? _ _ _|? He _]; cbn in Hk; [intuition congruence|done|intuition congruence..|].
    apply entity_kind in He. cbn in He, Hk. intuition congruence. }
  inversion Hnom as [k' code ctx name Hk Hctx Hname _]; subst. inversion_clear IH as [|? ? IHctx _].
  destruct Hchain as [_ Hchain].
  assert (levels (mkNode k NoPayload [ctx; name]) = S (levels ctx)) as -> by (repeat destruct Hk as [[= <- <-]|Hk]; [reflexivity..|destruct Hk]).
  cbn [repeat]. rewrite repeat_cons, <- app_assoc. cbn [app].
  rewrite (read_parent g k code); [|done|].
  - unfold bindGenericArgs.
    assert (untilNext "_" (boundGenericArgs_step (TI g)) (createNode K_TypeList) (reading ("_"%char :: t) ns)
            = Ok (Some (createNode K_TypeList), reading t ns)) as H by reflexivity.
    by rewrite (bind_ok _ _ _ _ _ H).
  - destruct (decide (In (getKind ctx) [K_Module; K_Function; K_Extension])) as [Hin|Hin].
    + left. split; [done|]. destruct ctx as [kc pc cc]. cbn in Hin. destruct cc; [done|].
      repeat destruct Hin as [<-|Hin]; [reflexivity..|destruct Hin].
    + right. split; [done|]. apply IHctx; [done|]. tauto.
Qed.

(** The arguments of the innermost type. *)
Lemma oldWrites_arguments h f k n args :
  In (k, getKind n) [(K_BoundGenericStructure, K_Structure); (K_BoundGenericEnum, K_Enum); (K_BoundGenericClass, K_Class)] ->
  args <> [] -> Forall (writesType h f) args ->
  writes (fun c => typeStart c || Ascii.eqb c "_") h (_ <- mangleNodes (mangleWithFuel f) (map asType args) ;; put "_")
    (fun g => bindGenericArgs (TI g) n) (Some (mkNode k NoPayload [asType n; typeList args])) [].
Proof.
  intros Hk Hne Hargs.
  pose proof (oldWrites_until U typeStart h (mangleWithFuel f) (fun g => demangleType (TI g))
    (fun g => boundGenericArgs_step (TI g)) nodeAddChild (fun n => n) "_" eq_refl) as H.
  specialize (H ltac:(intros g acc x t ns t' ns' Hi _ Ht; unfold boundGenericArgs_step, demangleChild;
    rewrite bind_assoc, (bind_ok _ _ _ _ _ Hi); by destruct t') (map asType args) (createNode K_TypeList)).
  rewrite List.Forall_map in H. specialize (H Hargs). rewrite map_id in H. unfold createNode in H. rewrite fold_nodeAddChild in H.
  eapply oldWrites_map; [exact H|]. intros g t ns. cbn [app]. unfold getNumChildren. cbn [children]. rewrite length_map.
  destruct (Nat.eqb_spec (length args) 0) as [Hl|_]; [by apply nil_length_inv in Hl|].
  repeat destruct Hk as [[= <- Hk]|Hk]; [by rewrite <- Hk..|destruct Hk].
Qed.

Lemma oldWrites_bound h f n args :
  oldNominal n -> genericChain n -> args <> [] -> Forall (writesType h (S f)) args ->
  writes (fun c => existsb (Ascii.eqb c) (lit "SVOC")) h (mangleUnboundWithFuel (S f) n false)
    (fun g => demangleNominalType (CI g)) (Some n) [] ->
  writesInner h (S (S f)) (mkNode (boundKind (getKind n)) NoPayload [asType n; typeList args]).
Proof.
  intros Hn Hchain Hne Hargs Hunbound. inversion Hn as [k code ctx name Hk Hctx Hname Hstd]; subst n.
  assert (In (boundKind k, k) [(K_BoundGenericStructure, K_Structure); (K_BoundGenericEnum, K_Enum); (K_BoundGenericClass, K_Class)])
    as Hbound by (repeat destruct Hk as [[= <- <-]|Hk]; [cbn; tauto..|destruct Hk]).
  set (n := mkNode k NoPayload [ctx; name]) in *. change (getKind n) with k in *.
  unfold OldNominalWriting.writesInner. eapply oldWrites_writer with
    (w' := _ <- put "G" ;; _ <- mangleUnboundWithFuel (S f) n false ;;
           _ <- mangleGenericArgs (mangleWithFuel (S f)) ctx ;;
           _ <- mangleNodes (mangleWithFuel (S f)) (map asType args) ;; put "_").
  { intros s. assert (mangleWithFuel (S (S f)) (mkNode (boundKind k) NoPayload [asType n; typeList args]) s
      = mangleAnyNominalType (mangleWithFuel (S f)) (mangleContextWithFuel (S f)) (mangleUnboundWithFuel (S f))
          (mkNode (boundKind k) NoPayload [asType n; typeList args]) false s) as ->.
    { repeat destruct Hk as [[= <- <-]|Hk]; [reflexivity..|destruct Hk]. }
    unfold mangleAnyNominalType.
    assert (isSpecialized (mkNode (boundKind k) NoPayload [asType n; typeList args]) s = Ok (true, s)) as Hs.
    { repeat destruct Hk as [[= <- <-]|Hk]; [reflexivity..|destruct Hk]. }
    rewrite (bind_ok _ _ _ _ _ Hs). cbn iota. apply bind_ext. intros _ s'.
    assert (getUnspecialized (mkNode (boundKind k) NoPayload [asType n; typeList args]) s' = Ok (n, s')) as Hu.
    { assert (isSpecialized n s' = Ok (false, s')) as Hns by by apply notSpecialized, oldContext_nominal.
      transitivity ((specialized <- isSpecialized n ;; if (specialized : bool) then getUnspecialized n else ret n) s').
      - repeat destruct Hk as [[= <- <-]|Hk]; [reflexivity..|destruct Hk].
      - by rewrite (bind_ok _ _ _ _ _ Hns). }
    rewrite (bind_ok _ _ _ _ _ Hu). apply bind_ext. intros _ s2.
    repeat destruct Hk as [[= <- <-]|Hk]; [reflexivity..|destruct Hk]. }
  apply (oldWrites_code _ _ (fun c => existsb (Ascii.eqb c) (lit "SVOC"))) with (R' := fun g => demangleBoundGenericType (TI g) (CI g)); [done..|].
  eapply oldWrites_bind; [exact Hunbound|].
  eapply (oldWrites_prefix _ (fun c => typeStart c || Ascii.eqb c "_") (fun c => typeStart c || Ascii.eqb c "_"))
    with (p := repeat "_"%char (levels ctx)) (R' := fun g => bindGenericArgs (TI g) n).
  - intros out ns. apply mangleGenericArgs_levels. destruct Hchain as [_ Hchain]. tauto.
  - done.
  - destruct (levels ctx); [by left|by right].
  - intros g t ns _. apply (read_parent g k code); [done|]. destruct Hchain as [_ Hchain].
    destruct (decide (In (getKind ctx) [K_Module; K_Function; K_Extension])) as [Hin|Hin].
    + left. split; [done|]. destruct ctx as [kc pc cc]. cbn in Hin. destruct cc; [done|].
      repeat destruct Hin as [<-|Hin]; [reflexivity..|destruct Hin].
    + right. split; [done|]. apply read_levels; [done|]. tauto.
  - by apply oldWrites_arguments.
Qed.

(** *** Generic signatures *)

Definition countText (count : Z) : str := if 0 <? count then indexText (count - 1) else lit "z".
Definition countNode (count : Z) : Node := createNodeIndex K_DependentGenericParamCount count.
Definition countStart (c : ascii) : bool := indexStart c || Ascii.eqb c "z".
Definition requirementsStart (c : ascii) : bool := Ascii.eqb c "R" || Ascii.eqb c "r".
Definition countOk (count : Z) : Prop := 0 <= count < 2 ^ 64 - 1.

Lemma countText_starts count : countOk count -> starts countStart (countText count).
Proof.
  intros [H _]. unfold countText. destruct (Z.ltb_spec 0 count); [|done].
  eapply starts_mono; [|apply indexText_starts; lia]. unfold countStart. by intros c ->.
Qed.

Lemma mangleParamCounts_run counts requirements out ns :
  Forall countOk counts -> Forall oldRequirement requirements ->
  mangleParamCounts (map countNode counts ++ requirements) (mkOldRemangler out ns)
  = Ok (requirements, mkOldRemangler (out ++ concat (map countText counts)) ns).
Proof.
  intros Hc Hr. revert out. induction Hc as [|count counts Hcount _ IH]; intros out.
  - cbn. rewrite app_nil_r. by destruct Hr as [|? ? []].
  - cbn [map app concat]. transitivity ((index <- getIndex (countNode count) ;;
      _ <- (if 0 <? index then mangleIndex (index - 1) else put "z") ;;
      mangleParamCounts (map countNode counts ++ requirements)) (mkOldRemangler out ns)); [reflexivity|].
    assert (getIndex (countNode count) (mkOldRemangler out ns)
            = Ok (count, mkOldRemangler out ns)) as Hi.
    { unfold getIndex, countNode. cbn. rewrite wrap_u64_id by (unfold countOk in Hcount; lia). done. }
    rewrite (bind_ok _ _ _ _ _ Hi).
    assert ((if 0 <? count then mangleIndex (count - 1) else put "z") (mkOldRemangler out ns)
            = Ok (tt, mkOldRemangler (out ++ countText count) ns)) as Hw.
    { unfold countText. destruct (0 <? count); [|done]. unfold mangleIndex, indexText. destruct (count - 1 =? 0); [done|].
      unfold put, emit, bind, modify. cbn. by rewrite <- app_assoc. }
    rewrite (bind_ok _ _ _ _ _ Hw), IH. by rewrite app_assoc.
Qed.

(** Reading the counts, as far as the letter behind them. *)
Lemma read_counts counts rest ns : forall fuel sig last,
  Forall countOk counts -> starts requirementsStart rest -> (length counts < fuel)%nat ->
  loop fuel paramCounts_step (sig, last) (reading (concat (map countText counts) ++ rest) ns)
  = Ok (Some (fold_left addCount counts sig, fold_left (fun _ count => count) counts last), reading rest ns).
Proof.
  induction counts as [|count counts IH]; intros [|fuel] sig last Hc Hr Hf; try (cbn in Hf; lia); cbn [loop].
  - cbn [concat map app fold_left]. destruct rest as [|c rest]; [done|]. unfold paramCounts_step at 1, bind, peek.
    cbn [Mangled]. unfold starts, requirementsStart in Hr. by rewrite Hr.
  - inversion_clear Hc as [|? ? Hcount Hcounts]. cbn [concat map]. rewrite <- app_assoc.
    set (rest' := concat (map countText counts) ++ rest).
    assert (paramCounts_step (sig, last) (reading (countText count ++ rest') ns)
            = Ok (inl (addCount sig count, count), reading rest' ns)) as Hstep.
    { pose proof (starts_app _ _ rest' (countText_starts count Hcount)) as Hs.
      destruct (countText count ++ rest') as [|c t] eqn:Et; [done|].
      unfold paramCounts_step, bind at 1, peek. cbn [Mangled].
      assert (Ascii.eqb c "R" || Ascii.eqb c "r" = false) as ->.
      { cbn in Hs. unfold countStart, indexStart in Hs. destruct (Ascii.eqb_spec c "R") as [->|_]; [done|].
        destruct (Ascii.eqb_spec c "r") as [->|_]; done. }
      rewrite <- Et. unfold countText. destruct (Z.ltb_spec 0 count) as [Hpos|Hneg].
      - erewrite bind_ok with (a := Some count) (s' := reading rest' ns); [reflexivity|]. rewrite (nextCases_other indexStart); [|done|apply starts_app, indexText_starts; lia].
        unfold countOk in Hcount. rewrite (bind_ok _ _ _ _ _ (read_index (count - 1) rest' ns ltac:(lia))). unfold ret.
        replace (count - 1 + 1) with count by lia. by rewrite wrap_u64_id by lia.
      - unfold countOk in Hcount. replace count with 0 by lia. reflexivity. }
    rewrite (bind_ok _ _ _ _ _ Hstep). by rewrite IH; [|done|done|cbn in Hf; lia].
Qed.

(** The signature that the counts make. *)
Lemma fold_addCount counts k cs :
  fold_left addCount counts (mkNode k NoPayload cs) = mkNode k NoPayload (cs ++ map countNode counts).
Proof.
  revert cs. induction counts as [|count counts IH]; intros cs; cbn; [by rewrite app_nil_r|].
  unfold addCount at 2, nodeAddChild. cbn. by rewrite IH, <- app_assoc.
Qed.

Lemma last_count counts last : Forall countOk counts -> countOk last -> fold_left (fun _ count => count) counts last <> noCount.
Proof.
  intros Hc. revert last. induction Hc as [|count counts Hcount _ IH]; intros last Hlast; [unfold countOk, noCount in *; cbn; lia|].
  by apply IH.
Qed.

Definition signatureNode (counts : list Z) (requirements : list Node) : Node :=
  mkNode K_DependentGenericSignature NoPayload (map countNode counts ++ requirements).

Definition requirementWrites (h f : nat) (r : Node) : Prop :=
  writes paramStart h (mangleWithFuel f r) (fun g => demangleGenericRequirement (TI g) (CI g)) (Some r) [].

(** The requirements, behind the counts. *)
Lemma oldWrites_requirements h f sig requirements :
  Forall (requirementWrites h f) requirements ->
  writes requirementsStart h (mangleRequirements (mangleWithFuel f) requirements)
    (fun g => nextCases
       [ "r" =>> ret (Some sig);
         "R" =>> untilNext "r" (fun sig => demangleChild sig (demangleGenericRequirement (TI g) (CI g))) sig ]
       (ret None)) (Some (mkNode (getKind sig) (payload sig) (children sig ++ requirements))) [].
Proof.
  intros Hr. destruct sig as [k p cs]. destruct requirements as [|r requirements]; unfold mangleRequirements.
  - rewrite app_nil_r. apply oldWrites_put; [done|]. intros g t ns.
    transitivity (ret (Some (mkNode k p cs)) (reading t ns)); [by apply nextCases_selects|reflexivity].
  - eapply (oldWrites_code' _ _ (fun d => paramStart d || Ascii.eqb d "r")); [done| |].
    + intros g t ns _. apply nextCases_selects. reflexivity.
    + by apply (oldWrites_children paramStart h (mangleWithFuel f) _ "r").
Qed.

Definition signatureOf (written : list Z) : Node :=
  let sig := fold_left addCount written (createNode K_DependentGenericSignature) in
  if fold_left (fun _ count => count) written noCount =? noCount then addCount sig 1 else sig.

(** What the reader does when it has read the counts. *)
Lemma read_signature written g t ns :
  Forall countOk written -> starts requirementsStart t ->
  demangleGenericSignature (TI g) (CI g) false (reading (concat (map countText written) ++ t) ns)
  = nextCases
     [ "r" =>> ret (Some (signatureOf written));
       "R" =>> untilNext "r" (fun sig => demangleChild sig (demangleGenericRequirement (TI g) (CI g))) (signatureOf written) ]
     (ret None) (reading t ns).
Proof.
  intros Hw Ht. unfold demangleGenericSignature, while_.
  erewrite bind_ok; [|apply read_counts; [done|done|]].
  - reflexivity.
  - cbn [Mangled]. rewrite length_app. enough (length written <= length (concat (map countText written)))%nat by lia.
    clear Ht. induction Hw as [|count written Hcount _ IH]; [done|]. cbn. rewrite length_app.
    pose proof (starts_length _ _ (countText_starts count Hcount)). lia.
Qed.

(** The counts are written, or none of them. *)
Lemma oldWrites_signatureAs h f counts requirements written :
  (forall out ns, (single <- hasSingleParam (signatureNode counts requirements) ;;
     (if (single : bool) then ret (drop 1 (map countNode counts ++ requirements))
      else mangleParamCounts (map countNode counts ++ requirements))) (mkOldRemangler out ns)
     = Ok (requirements, mkOldRemangler (out ++ concat (map countText written)) ns)) ->
  Forall countOk written ->
  signatureOf written = mkNode K_DependentGenericSignature NoPayload (map countNode counts) ->
  Forall (requirementWrites h f) requirements ->
  writes (fun c => countStart c || requirementsStart c) h
    (mangleDependentGenericSignature (mangleWithFuel f) (signatureNode counts requirements))
    (fun g => demangleGenericSignature (TI g) (CI g) false) (Some (signatureNode counts requirements)) [].
Proof.
  intros Hrun Hw Hsig Hr. pose proof (oldWrites_requirements h f (signatureOf written) requirements Hr) as H.
  assert (mkNode (getKind (signatureOf written)) (payload (signatureOf written)) (children (signatureOf written) ++ requirements)
          = signatureNode counts requirements) as Heq by by rewrite Hsig.
  rewrite Heq in H.
  apply (oldWrites_writer U) with (w' := rs <- (single <- hasSingleParam (signatureNode counts requirements) ;;
      (if (single : bool) then ret (drop 1 (map countNode counts ++ requirements))
       else mangleParamCounts (map countNode counts ++ requirements))) ;; mangleRequirements (mangleWithFuel f) rs).
  { intros s. unfold mangleDependentGenericSignature. rewrite bind_assoc. apply bind_ext. by intros [] s'. }
  eapply (oldWrites_prefix U _ requirementsStart); [exact Hrun|intros c ->; apply orb_true_r| | |exact H].
  - destruct written as [|count written]; [by left|right]. inversion_clear Hw as [|? ? Hcount _]. cbn. apply starts_app.
    eapply starts_mono; [|by apply countText_starts]. by intros c ->.
  - intros g t ns Ht. by apply read_signature.
Qed.

Lemma oldWrites_signature h f counts requirements :
  counts <> [] -> Forall countOk counts -> Forall oldRequirement requirements ->
  Forall (requirementWrites h f) requirements ->
  writes (fun c => countStart c || requirementsStart c) h
    (mangleDependentGenericSignature (mangleWithFuel f) (signatureNode counts requirements))
    (fun g => demangleGenericSignature (TI g) (CI g) false) (Some (signatureNode counts requirements)) [].
Proof.
  intros Hne Hc Hold Hr. destruct counts as [|count counts]; [done|].
  assert (forall out ns, hasSingleParam (signatureNode (count :: counts) requirements) (mkOldRemangler out ns)
    = Ok ((count =? 1) && match counts with [] => true | _ => false end, mkOldRemangler out ns)) as Hsingle.
  { intros out ns. unfold hasSingleParam. cbn -[wrap_u64 Z.eqb]. unfold bind, getIndex. cbn -[wrap_u64 Z.eqb].
    inversion_clear Hc as [|? ? Hcount _]. unfold countOk in Hcount. rewrite wrap_u64_id by lia.
    destruct counts; [|done]. by destruct Hold as [|? ? []]. }
  destruct ((count =? 1) && match counts with [] => true | _ => false end) eqn:E.
  - destruct counts; [|by rewrite andb_false_r in E]. rewrite andb_true_r in E. apply Z.eqb_eq in E as ->.
    apply (oldWrites_signatureAs h f [1] requirements []); [|done|done|done].
    intros out ns. rewrite (bind_ok _ _ _ _ _ (Hsingle out ns)). by rewrite app_nil_r.
  - apply (oldWrites_signatureAs h f (count :: counts) requirements (count :: counts)); [|done| |done].
    + intros out ns. rewrite (bind_ok _ _ _ _ _ (Hsingle out ns)). by apply mangleParamCounts_run.
    + unfold signatureOf. unfold createNode. rewrite fold_addCount.
      inversion_clear Hc as [|? ? Hcount Hcounts]. pose proof (last_count counts count Hcounts Hcount) as Hl.
      apply Z.eqb_neq in Hl. cbn [fold_left]. by rewrite Hl.
Qed.

(** *** Requirements *)

Lemma oldWrites_constrained h depth index :
  0 <= depth < 2 ^ 32 -> 0 <= index < 2 ^ 32 ->
  writes paramStart h (mangleDependentGenericParamIndex (genericParam depth index))
    (fun g => demangleConstrainedType (CI g)) (Some (asType (genericParam depth index))) [].
Proof.
  intros Hd Hi. eapply (oldWrites_mono _ (paramStartOf depth index) _ h); [|done|].
  { intros c. unfold paramStartOf, paramStart. destruct (_ && _); [intros ->; by rewrite orb_true_r|]. by intros ->. }
  eapply oldWrites_map; [eapply oldWrites_reader; [|by apply oldWrites_paramIndex]|done].
  intros g t ns Ht. apply (nextCases_other paramStart); [done|]. eapply starts_mono; [|exact Ht].
  intros c. unfold paramStartOf, paramStart. destruct (_ && _); [intros ->; by rewrite orb_true_r|]. by intros ->.
Qed.

Lemma oldWrites_sameType h f depth index t :
  0 <= depth < 2 ^ 32 -> 0 <= index < 2 ^ 32 -> writesType h f t ->
  requirementWrites h (S f) (mkNode K_DependentGenericSameTypeRequirement NoPayload [asType (genericParam depth index); asType t]).
Proof.
  intros Hd Hi Ht. eapply (oldWrites_writer U) with (w' := _ <- mangleDependentGenericParamIndex (genericParam depth index) ;;
    _ <- put "z" ;; mangleWithFuel f (asType t)); [intros; reflexivity|].
  eapply oldWrites_bind; [by apply oldWrites_constrained|].
  eapply (oldWrites_code' _ (Ascii.eqb "z") typeStart); [done|intros; by apply nextCases_selects|].
  eapply oldWrites_map; [exact Ht|done].
Qed.

(** A requirement with a constraint behind the type. *)
Lemma oldWrites_conformance F h w w' depth index c :
  0 <= depth < 2 ^ 32 -> 0 <= index < 2 ^ 32 ->
  avoids F [lit "z"; lit "l"] = true ->
  (forall s, w s = (_ <- mangleDependentGenericParamIndex (genericParam depth index) ;; w') s) ->
  writes F h w' (fun g => demangleConstraint (TI g) (CI g)) (Some c) [] ->
  writes paramStart h w (fun g => demangleGenericRequirement (TI g) (CI g))
    (Some (mkNode K_DependentGenericConformanceRequirement NoPayload [asType (genericParam depth index); c])) [].
Proof.
  intros Hd Hi HF Hw H. eapply oldWrites_writer; [exact Hw|].
  eapply oldWrites_bind; [by apply oldWrites_constrained|]. eapply oldWrites_reader; [|eapply oldWrites_map; [exact H|]].
  - intros g t ns Ht. by apply (nextCases_other F).
  - done.
Qed.

Lemma oldWrites_protocolConstraint h f depth index p :
  0 <= depth < 2 ^ 32 -> 0 <= index < 2 ^ 32 -> oldProtocol p -> protocolWrites h f p ->
  requirementWrites h (S f) (mkNode K_DependentGenericConformanceRequirement NoPayload [asType (genericParam depth index); asType p]).
Proof.
  intros Hd Hi Hp H. assert (getKind p = K_Protocol) as Hk by by destruct Hp as (? & ? & _ & _ & ->).
  apply (oldWrites_conformance moduleStart h _ (mangleNominalType (mangleWithFuel f) (mangleContextWithFuel f) p "")); [done..| |].
  - intros s. destruct Hp as (? & ? & _ & _ & ->). reflexivity.
  - eapply oldWrites_same; [|exact H]. intros g t ns t' ns' Ht Hr. by eapply read_constraint.
Qed.

Lemma oldWrites_classConstraint h f depth index n :
  0 <= depth < 2 ^ 32 -> 0 <= index < 2 ^ 32 -> getKind n = K_Class ->
  writes (fun c => Ascii.eqb c "S" || Ascii.eqb c "C") h (mangleWithFuel f (asType n))
    (fun g => demangleConstraint (TI g) (CI g)) (Some (asType n)) [] ->
  requirementWrites h (S f) (mkNode K_DependentGenericConformanceRequirement NoPayload [asType (genericParam depth index); asType n]).
Proof.
  intros Hd Hi Hk H. eapply (oldWrites_conformance (fun c => Ascii.eqb c "S" || Ascii.eqb c "C") h _ (mangleWithFuel f (asType n))); [done..| |exact H].
  intros s. destruct n as [k p cs]. cbn in Hk. subst k. reflexivity.
Qed.

Lemma oldWrites_genericType h f counts requirements t :
  counts <> [] -> Forall countOk counts -> Forall oldRequirement requirements ->
  Forall (requirementWrites h f) requirements -> writesType h (S f) t ->
  writesInner h (S (S f)) (mkNode K_DependentGenericType NoPayload [signatureNode counts requirements; asType t]).
Proof.
  intros Hne Hc Hold Hr Ht.
  eapply (oldWrites_writer U) with (w' := _ <- put "u" ;;
    _ <- mangleDependentGenericSignature (mangleWithFuel f) (signatureNode counts requirements) ;;
    _ <- mangleWithFuel (S f) (asType t) ;; ret tt); [intros; reflexivity|].
  eapply (oldWrites_code _ _ (fun c => countStart c || requirementsStart c))
    with (R' := fun g => demangleDependentGenericType (TI g) (CI g)); [done..|].
  eapply oldWrites_bind; [by apply oldWrites_signature|]. apply oldWrites_ret. eapply oldWrites_map; [exact Ht|done].
Qed.
End types.
