(* ===== verification/OldEntityWriting.v ===== *)
(** * Declarations and contexts in the old mangling

    For every declaration and context of [OldMangleable] that the remangler's
    function for it writes what the demangler's reads, given the same for its
    parts. A declaration begins with the letter of its basic kind, and its context
    comes before its name. *)

From Stdlib Require Import String.
From S2P Require Import Prelude Nodes ManglingUtils Numbers Demangler NodePrinter PrinterSpecs OldDemangler Remangler OldRemangler OldWriting OldMangleable OldNominalWriting OldTypeWriting.

#[local] Opaque OldWriting.writes.

Definition basicCodes : list (Kind * string) :=
  [(K_Function, "F"); (K_Variable, "v"); (K_Initializer, "I"); (K_Subscript, "i")]%string.

(** What a declaration begins with: a subscript is no context. *)
Definition entityStart (isSubscript : bool) (c : ascii) : bool :=
  if isSubscript then Ascii.eqb c "i" else Ascii.eqb c "F" || Ascii.eqb c "v" || Ascii.eqb c "I".

Section entities.
Variable U : list Node.
Hypothesis U_size : Z.of_nat (length U) < 2 ^ 64.
Hypothesis U_hash : forall a b, In a U -> In b U -> deepHash a = deepHash b -> a = b.

Abbreviation writes := (writes U).
Abbreviation writesContext := (writesContext U).
Abbreviation writesInner := (writesInner U).
Abbreviation writesType := (writesType U).
Abbreviation TI := demangleTypeImplWith.
Abbreviation CI := demangleContextWith.

(** ** Types of declarations *)

(** [mangleEntityType] writes what [mangle] does. *)
Definition writesEntityType (h f : nat) (t : Node) : Prop :=
  writes typeStart h (mangleEntityType (mangleWithFuel f) (asType t)) (fun g => demangleType (TI g)) (Some (asType t)) [].

Lemma oldWrites_entityType h f t :
  ~ In (getKind t) [K_FunctionType; K_UncurriedFunctionType] -> writesInner h f t -> writesEntityType h f t.
Proof.
  intros Hk H. destruct t as [k p cs]. eapply (oldWrites_writer U) with (w' := mangleWithFuel f (mkNode k p cs)).
  - intros s. cbn in Hk. destruct k; try reflexivity; exfalso; tauto.
  - eapply oldWrites_map; [exact H|done].
Qed.

Lemma oldWrites_entityFunction h f k code throws a r :
  In (k, code) [(K_FunctionType, "F"); (K_UncurriedFunctionType, "f")]%string ->
  writesType h f a -> writesEntityType h (S f) r -> writesEntityType h (S f) (functionNode k throws a r).
Proof.
  intros Hk Ha Hr.
  assert (forall annotation,
    writes typeStart h
      (_ <- mangleWithFuel (S f) (mkNode K_ArgumentTuple NoPayload [asType a]) ;; mangleEntityType (mangleWithFuel (S f)) (asType r))
      (fun g => in_args <-? demangleType (TI g) ;; out_args <-? demangleType (TI g) ;;
                ret (Some (mkNode k NoPayload
                             (annotation ++ [nodeAddChild (createNode K_ArgumentTuple) in_args;
                                             postProcessReturnTypeNode out_args]))))
      (Some (mkNode k NoPayload (annotation ++ [mkNode K_ArgumentTuple NoPayload [asType a];
                                                mkNode K_ReturnType NoPayload [asType r]]))) []) as Hparts.
  { intros annotation. eapply oldWrites_bind; [apply oldWrites_argument; [by left|exact Ha]|]. eapply oldWrites_map; [exact Hr|done]. }
  apply (oldWrites_writer U) with (w' := _ <- put code ;;
    _ <- (if throws then put "z" else ret tt) ;; _ <- mangleWithFuel (S f) (mkNode K_ArgumentTuple NoPayload [asType a]) ;;
    mangleEntityType (mangleWithFuel (S f)) (asType r)).
  { intros s. repeat destruct Hk as [[= <- <-]|Hk]; [destruct throws; reflexivity..|destruct Hk]. }
  eapply oldWrites_map with (R := TI) (a := Some (functionNode k throws a r)); [|done].
  apply (oldWrites_code _ _ (fun c => typeStart c || Ascii.eqb c "z")) with (R' := fun g => demangleFunctionType (TI g) k).
  - repeat destruct Hk as [[= <- <-]|Hk]; [done..|destruct Hk].
  - intros g t ns _. repeat destruct Hk as [[= <- <-]|Hk]; [reflexivity..|destruct Hk].
  - destruct throws.
    + eapply (oldWrites_code' _ _ typeStart); [done| |exact (Hparts [createNode K_ThrowsAnnotation])].
      intros g t ns _. unfold demangleFunctionType. by rewrite (bind_ok _ _ _ _ _ (nextIf_head "z" t ns)).
    + eapply oldWrites_pure; [intros; reflexivity|]. eapply (oldWrites_mono _ typeStart); [by intros c ->|done|].
      eapply oldWrites_reader; [|exact (Hparts [])].
      intros g t ns Ht. unfold demangleFunctionType. by read_miss typeStart.
Qed.

(** ** What comes behind the context *)

(** The rest of [demangleEntity], when the context has been read. *)
Definition demangleRest (isStatic : bool) (entityBasicKind : Kind) (context : Node) (g : nat) : OM NodePointer :=
  e <-? demangleEntityName entityBasicKind ;;
  entity <-?
    (if wrapEntity e then demangleUnder (entityKind e) (demangleWrappedEntity (TI g) context e)
     else demangleTypeIf (TI g) (hasType e) (addOptional (nodeAddChild (createNode (entityKind e)) context) (name e))) ;;
  ret (Some (if isStatic then nodeAddChild (createNode K_Static) entity else entity)).

(** The entity, or a static one. *)
Definition staticNode (isStatic : bool) (n : Node) : Node := if isStatic then mkNode K_Static NoPayload [n] else n.

(** [demangleEntity] behind the [Z]. *)
Definition demangleCases (isStatic : bool) (g : nat) : OM NodePointer :=
  nextCases
    [ "F" =>> demangleEntityOf (TI g) (CI g) isStatic K_Function;
      "v" =>> demangleEntityOf (TI g) (CI g) isStatic K_Variable;
      "I" =>> demangleEntityOf (TI g) (CI g) isStatic K_Initializer;
      "i" =>> demangleEntityOf (TI g) (CI g) isStatic K_Subscript ]
    (demangleNominalType (CI g)).

(** The reader begins at the letter, which takes a level of the recursion. *)
Definition writesEntity (isStatic : bool) (h f : nat) (n : Node) : Prop :=
  forall b, writes (entityStart (Kind_eqb (getKind n) K_Subscript)) h
    (dispatchContext (mangleWithFuel f) (mangleContextWithFuel f) (mangleUnboundWithFuel f) n b)
    (fun g => demangleCases isStatic (pred g)) (Some (staticNode isStatic n)) [].

Lemma oldWrites_entity F isStatic h f n basic code ctx w' :
  In (basic, code) basicCodes -> Kind_eqb (getKind n) K_Subscript = Kind_eqb basic K_Subscript ->
  (forall b s, dispatchContext (mangleWithFuel f) (mangleContextWithFuel f) (mangleUnboundWithFuel f) n b s
             = (_ <- put code ;; _ <- mangleContextWithFuel f ctx ;; w') s) ->
  writesContext h f ctx -> writes F h w' (demangleRest isStatic basic ctx) (Some (staticNode isStatic n)) [] ->
  writesEntity isStatic h f n.
Proof.
  intros Hb Hn Hw Hctx H b. eapply oldWrites_writer; [apply Hw|]. rewrite Hn.
  apply (oldWrites_code _ _ contextStart) with (R' := fun g => demangleEntityOf (TI g) (CI g) isStatic basic).
  - repeat destruct Hb as [[= <- <-]|Hb]; [done..|destruct Hb].
  - intros g t ns _. repeat destruct Hb as [[= <- <-]|Hb]; [by apply nextCases_selects..|destruct Hb].
  - eapply oldWrites_bind; [exact Hctx|exact H].
Qed.

(** *** Declarations of each form *)

Lemma oldWrites_simple isStatic h f k basic code ctx :
  In (k, (basic, code)) simpleCodes -> writesContext h f ctx -> writesEntity isStatic h f (mkNode k NoPayload [ctx]).
Proof.
  intros Hk Hctx.
  apply (oldWrites_entity (fun _ => true) isStatic h f _ (if Kind_eqb k K_Initializer then K_Initializer else K_Function) basic ctx (put code)).
  - repeat destruct Hk as [[= <- <- <-]|Hk]; [cbn; tauto..|destruct Hk].
  - repeat destruct Hk as [[= <- <- <-]|Hk]; [reflexivity..|destruct Hk].
  - intros b s. repeat destruct Hk as [[= <- <- <-]|Hk]; [reflexivity..|destruct Hk].
  - exact Hctx.
  - apply oldWrites_put.
    + repeat destruct Hk as [[= <- <- <-]|Hk]; [done..|destruct Hk].
    + intros g t ns. repeat destruct Hk as [[= <- <- <-]|Hk]; [by destruct isStatic..|destruct Hk].
Qed.

Lemma oldWrites_typed isStatic h f k code ctx t :
  In (k, code) typedCodes -> writesContext h f ctx -> writesEntityType h f t ->
  writesEntity isStatic h f (mkNode k NoPayload [ctx; asType t]).
Proof.
  intros Hk Hctx Ht.
  apply (oldWrites_entity (fun _ => true) isStatic h f _ K_Function "F" ctx (_ <- put code ;; mangleEntityType (mangleWithFuel f) (asType t)));
    [cbn; tauto|table Hk|intros b s; table Hk|exact Hctx|].
  apply (oldWrites_code' _ _ typeStart) with
    (R' := fun g => entity <-? demangleTypeIf (TI g) true (mkNode k NoPayload [ctx]) ;;
                    ret (Some (if isStatic then nodeAddChild (createNode K_Static) entity else entity))).
  - table Hk.
  - intros g s ns _. repeat destruct Hk as [[= <- <-]|Hk]; [reflexivity..|destruct Hk].
  - eapply oldWrites_map; [eapply oldWrites_map; [exact Ht|done]|by destruct isStatic].
Qed.

(** *** Declarations with a name *)

(** [demangleRest] behind the code that tells what the name is for. *)
Definition demangleNamed (isStatic : bool) (context : Node) (e : OM (option EntityName)) (g : nat) : OM NodePointer :=
  e <-? e ;;
  entity <-?
    (if wrapEntity e then demangleUnder (entityKind e) (demangleWrappedEntity (TI g) context e)
     else demangleTypeIf (TI g) (hasType e) (addOptional (nodeAddChild (createNode (entityKind e)) context) (name e))) ;;
  ret (Some (if isStatic then nodeAddChild (createNode K_Static) entity else entity)).

Lemma demangleRest_selects isStatic basic ctx g code t ns e :
  (forall t ns, demangleEntityName basic (reading (lit code ++ t) ns) = e (reading t ns)) ->
  demangleRest isStatic basic ctx g (reading (lit code ++ t) ns) = demangleNamed isStatic ctx e g (reading t ns).
Proof. intros H. unfold demangleRest, demangleNamed, bind. by rewrite H. Qed.

Lemma demangleNamed_name isStatic ctx k ht g (N : OM NodePointer) s :
  demangleNamed isStatic ctx (namedEntity k ht false N) g s
  = (name <-? N ;; entity <-? demangleTypeIf (TI g) ht (mkNode k NoPayload [ctx; name]) ;;
     ret (Some (if isStatic then nodeAddChild (createNode K_Static) entity else entity))) s.
Proof. unfold demangleNamed, namedEntity. rewrite bind_assoc. apply bind_ext. by intros [name|] s'. Qed.

Lemma oldWrites_nameAndType F isStatic h f ctx k wn N nm t :
  writes F h wn (fun _ => N) (Some nm) [] -> writesEntityType h f t ->
  writes F h (_ <- wn ;; mangleEntityType (mangleWithFuel f) (asType t)) (demangleNamed isStatic ctx (namedEntity k true false N))
    (Some (staticNode isStatic (mkNode k NoPayload [ctx; nm; asType t]))) [].
Proof.
  intros Hn Ht. apply oldWrites_reader with
    (R' := fun g => name <-? N ;; entity <-? demangleTypeIf (TI g) true (mkNode k NoPayload [ctx; name]) ;;
                    ret (Some (if isStatic then nodeAddChild (createNode K_Static) entity else entity)));
    [intros g s ns _; apply demangleNamed_name|].
  eapply oldWrites_bind; [exact Hn|]. eapply oldWrites_map; [eapply oldWrites_map; [exact Ht|done]|by destruct isStatic].
Qed.

Lemma oldWrites_default isStatic h f ctx index :
  0 <= index < 2 ^ 64 -> writesContext h (S f) ctx ->
  writesEntity isStatic h (S f) (mkNode K_DefaultArgumentInitializer NoPayload [ctx; createNodeIndex K_Number index]).
Proof.
  intros Hi Hctx.
  apply (oldWrites_entity (fun _ => true) isStatic h (S f) _ K_Initializer "I" ctx
           (_ <- put "A" ;; mangleWithFuel (S f) (createNodeIndex K_Number index)));
    [cbn; tauto|done|intros; reflexivity|exact Hctx|].
  apply (oldWrites_code' _ _ indexStart) with
    (R' := demangleNamed isStatic ctx (namedEntity K_DefaultArgumentInitializer false false demangleIndexAsNode)); [done| |].
  - intros g t ns _. apply demangleRest_selects. intros t' ns'. reflexivity.
  - apply oldWrites_reader with
      (R' := fun g => name <-? demangleIndexAsNode ;;
                      ret (Some (staticNode isStatic (mkNode K_DefaultArgumentInitializer NoPayload [ctx; name]))));
      [intros g s ns _; rewrite demangleNamed_name; by destruct isStatic|].
    eapply oldWrites_map; [by apply oldWrites_number|done].
Qed.

Lemma oldWrites_named isStatic h f k code ctx nm t :
  In (k, code) namedCodes -> declName nm -> writesContext h (S (S f)) ctx -> writesEntityType h (S (S f)) t ->
  writesEntity isStatic h (S (S f)) (mkNode k NoPayload [ctx; nm; asType t]).
Proof.
  intros Hk Hnm Hctx Ht.
  apply (oldWrites_entity nameStart isStatic h _ _ k code ctx
           (_ <- mangleWithFuel (S (S f)) nm ;; mangleEntityType (mangleWithFuel (S (S f))) (asType t))).
  - repeat destruct Hk as [[= <- <-]|Hk]; [cbn; tauto..|destruct Hk].
  - done.
  - intros b s.
    transitivity ((_ <- put code ;; _ <- mangleContextWithFuel (S (S f)) ctx ;; _ <- put "" ;;
      _ <- mangleWithFuel (S (S f)) nm ;; mangleEntityType (mangleWithFuel (S (S f))) (asType t)) s).
    + table Hk.
    + do 2 (apply bind_ext; intros _ ?). by rewrite (bind_ok _ _ _ _ _ (put_nothing _)).
  - exact Hctx.
  - apply oldWrites_reader with (R' := demangleNamed isStatic ctx (namedEntity k true false demangleDeclName)).
    + intros g s ns Hs. unfold demangleRest, demangleNamed.
      assert (demangleEntityName k (reading s ns) = namedEntity k true false demangleDeclName (reading s ns)) as He.
      { unfold demangleEntityName. rewrite (nextCases_other nameStart) by done.
        repeat destruct Hk as [[= <- <-]|Hk]; [reflexivity..|destruct Hk]. }
      unfold bind. by rewrite He.
    + apply oldWrites_nameAndType; [by apply oldWrites_declName|done].
Qed.

Lemma oldWrites_closure isStatic h f k code ctx index t :
  In (k, code) closureCodes -> 0 <= index < 2 ^ 64 -> writesContext h (S f) ctx -> writesEntityType h (S f) t ->
  writesEntity isStatic h (S f) (mkNode k NoPayload [ctx; createNodeIndex K_Number index; asType t]).
Proof.
  intros Hk Hi Hctx Ht.
  apply (oldWrites_entity (fun _ => true) isStatic h _ _ K_Function "F" ctx
           (_ <- put code ;; _ <- mangleWithFuel (S f) (createNodeIndex K_Number index) ;;
            mangleEntityType (mangleWithFuel (S f)) (asType t))); [cbn; tauto|table Hk|intros b s; table Hk|exact Hctx|].
  apply (oldWrites_code' _ _ indexStart) with
    (R' := demangleNamed isStatic ctx (namedEntity k true false demangleIndexAsNode)).
  - table Hk.
  - intros g s ns _. apply demangleRest_selects. intros s' ns'. table Hk.
  - apply oldWrites_nameAndType; [by apply oldWrites_number|done].
Qed.

(** *** Accessors *)

(** [demangleNamed] behind the code of an accessor. *)
Lemma demangleNamed_accessor isStatic ctx k g s :
  demangleNamed isStatic ctx (accessorEntity k) g s
  = (name <-? demangleDeclName ;;
     wrapped <-? demangleWrappedEntity (TI g) ctx (mkEntityName k true true (Some name)) ;;
     ret (Some (staticNode isStatic (mkNode k NoPayload [wrapped])))) s.
Proof.
  unfold demangleNamed, accessorEntity, namedEntity. rewrite bind_assoc. apply bind_ext. intros [name|] s'; [|done].
  unfold demangleUnder, demangleChild. erewrite bind_ok by reflexivity. cbn [wrapEntity entityKind]. rewrite bind_assoc.
  apply bind_ext. by intros [w|] s''; destruct isStatic.
Qed.

Lemma oldWrites_accessorOf F isStatic h f k code ctx storage w' v :
  In (k, code) accessorCodes ->
  writesContext h f ctx ->
  (forall b s, dispatchContext (mangleWithFuel f) (mangleContextWithFuel f) (mangleUnboundWithFuel f) (mkNode k NoPayload [storage]) b s
     = (_ <- put "F" ;; _ <- mangleContextWithFuel f ctx ;; _ <- put code ;; w') s) ->
  writes F h w' (fun g => name <-? demangleDeclName ;; demangleWrappedEntity (TI g) ctx (mkEntityName k true true (Some name))) v [] ->
  v = Some storage ->
  writesEntity isStatic h f (mkNode k NoPayload [storage]).
Proof.
  intros Hk Hctx Hw H ->.
  apply (oldWrites_entity (fun _ => true) isStatic h f _ K_Function "F" ctx (_ <- put code ;; w'));
    [cbn; tauto|table Hk|exact Hw|exact Hctx|].
  apply (oldWrites_code' _ _ F) with (R' := demangleNamed isStatic ctx (accessorEntity k)).
  - table Hk.
  - intros g s ns _. apply demangleRest_selects. intros s' ns'. table Hk.
  - apply oldWrites_reader with (R' := fun g =>
      wrapped <-? (name <-? demangleDeclName ;; demangleWrappedEntity (TI g) ctx (mkEntityName k true true (Some name))) ;;
      ret (Some (staticNode isStatic (mkNode k NoPayload [wrapped])))).
    + intros g s ns _. rewrite demangleNamed_accessor, bind_assoc. apply bind_ext. by intros [name|] s'.
    + eapply oldWrites_map; [exact H|done].
Qed.

(** Behind the name, which tells a variable from a subscript. *)
Lemma wrapped_entity ctx k nm isSubscript name g s :
  (forall s, subscriptName nm s = Ok ((isSubscript, name), s)) ->
  demangleWrappedEntity (TI g) ctx (mkEntityName k true true (Some nm)) s
  = (if isSubscript then
       wrapped <-? demangleTypeIf (TI g) true (mkNode K_Subscript NoPayload [ctx]) ;; ret (Some (addOptional wrapped name))
     else match name with
          | None => fail (AssertionFailed "Node::addChild")
          | Some name => demangleTypeIf (TI g) true (mkNode K_Variable NoPayload [ctx; name])
          end) s.
Proof. intros H. unfold demangleWrappedEntity. cbn [OldDemangler.name hasType]. by rewrite (bind_ok _ _ _ _ _ (H s)). Qed.

Lemma subscriptName_variable nm s : declName nm -> notSubscript nm -> subscriptName nm s = Ok ((false, Some nm), s).
Proof.
  assert (forall k text, getText (mkNode k (TextPayload text) []) s = Ok (text, s)) as Htext by done.
  unfold notSubscript, subscriptName. generalize (lit "subscript") as sub.
  intros sub [n [text Ht|k operator mode op Hin _]|value name _ _|d name _ Hb] H; unfold createNodeText in *; cbn [getKind children] in *.
  - cbn in H. rewrite (bind_ok _ _ _ _ _ (Htext _ _)). destruct (str_eqb_spec text sub) as [->|]; [congruence|done].
  - repeat destruct Hin as [[= <- <- <-]|Hin]; [reflexivity..|destruct Hin].
  - done.
  - assert (exists k text, name = mkNode k (TextPayload text) []) as (k & text & ->) by (destruct Hb; unfold createNodeText; eauto).
    cbn in H. cbn -[bind getText str_eqb]. erewrite bind_ok by reflexivity. rewrite (bind_ok _ _ _ _ _ (Htext _ _)).
    destruct (str_eqb_spec text sub) as [->|]; [congruence|done].
Qed.

Lemma oldWrites_accessor isStatic h f k code ctx nm t :
  In (k, code) accessorCodes -> declName nm -> notSubscript nm ->
  writesContext h (S (S f)) ctx -> writesEntityType h (S (S f)) t ->
  writesEntity isStatic h (S (S f)) (mkNode k NoPayload [mkNode K_Variable NoPayload [ctx; nm; asType t]]).
Proof.
  intros Hk Hnm Hns Hctx Ht.
  eapply (oldWrites_accessorOf nameStart isStatic h _ k code ctx _
            (_ <- mangleWithFuel (S (S f)) nm ;; mangleEntityType (mangleWithFuel (S (S f))) (asType t)));
    [done|done|intros b s; table Hk| |done].
  eapply oldWrites_bind; [by apply oldWrites_declName|].
  eapply oldWrites_reader; [intros g s ns _; apply wrapped_entity; intros s'; by apply subscriptName_variable|].
  cbn iota. eapply oldWrites_map; [exact Ht|done].
Qed.

Lemma oldWrites_subscriptName h : 
  writes isDigit h (mangleIdentifier (lit "subscript") NotOperator) (fun _ => demangleDeclName)
    (Some (createNodeText K_Identifier (lit "subscript"))) [].
Proof.
  eapply oldWrites_reader; [|apply (oldWrites_identifier U h (lit "subscript") None); by vm_compute].
  intros g s ns Hs. by apply (nextCases_other isDigit).
Qed.

Lemma oldWrites_subscript isStatic h f k code ctx t :
  In (k, code) accessorCodes -> writesContext h f ctx -> writesEntityType h f t ->
  writesEntity isStatic h f (mkNode k NoPayload [mkNode K_Subscript NoPayload [ctx; asType t]]).
Proof.
  intros Hk Hctx Ht.
  eapply (oldWrites_accessorOf isDigit isStatic h _ k code ctx _
            (_ <- mangleIdentifier (lit "subscript") NotOperator ;; mangleEntityType (mangleWithFuel f) (asType t)));
    [done|done|intros b s; table Hk| |done].
  eapply oldWrites_bind; [apply oldWrites_subscriptName|].
  eapply oldWrites_reader; [intros g s ns _; apply wrapped_entity; reflexivity|].
  cbn iota. eapply oldWrites_map; [eapply oldWrites_map; [exact Ht|done]|done].
Qed.

Lemma oldWrites_privateSubscript isStatic h f k code ctx t d :
  In (k, code) accessorCodes -> baseName d -> writesContext h (S (S f)) ctx -> writesEntityType h (S (S f)) t ->
  writesEntity isStatic h (S (S f))
    (mkNode k NoPayload [mkNode K_Subscript NoPayload [ctx; asType t; mkNode K_PrivateDeclName NoPayload [d]]]).
Proof.
  intros Hk Hd Hctx Ht.
  eapply (oldWrites_accessorOf (Ascii.eqb "P") isStatic h _ k code ctx _
            (_ <- mangleWithFuel (S (S f)) (mkNode K_PrivateDeclName NoPayload [d]) ;;
             _ <- mangleIdentifier (lit "subscript") NotOperator ;; mangleEntityType (mangleWithFuel (S (S f))) (asType t)));
    [done|done|intros b s; table Hk| |done].
  apply oldWrites_writer with (w' := _ <- (_ <- mangleWithFuel (S (S f)) (mkNode K_PrivateDeclName NoPayload [d]) ;;
      mangleIdentifier (lit "subscript") NotOperator) ;; mangleEntityType (mangleWithFuel (S (S f))) (asType t));
    [intros s; symmetry; apply bind_assoc|].
  eapply (oldWrites_bind _ _ _ _ _ _ (fun _ => demangleDeclName)).
  - apply oldWrites_writer with (w' := _ <- put "P" ;; _ <- (_ <- mangleWithFuel (S f) d ;; ret tt) ;;
      mangleIdentifier (lit "subscript") NotOperator); [intros s; rewrite mangle_unfold; apply bind_assoc|].
    rewrite mangle_unfold. eapply (oldWrites_code' _ _ identifierStart) with
      (R' := fun _ => demangleTwo K_PrivateDeclName (demangleIdentifier None) (demangleIdentifier None));
      [done|intros; by apply nextCases_selects|].
    apply oldWrites_writer with (w' := _ <- mangleWithFuel (S f) d ;; mangleIdentifier (lit "subscript") NotOperator);
      [intros s; apply bind_assoc|].
    unfold demangleTwo. eapply oldWrites_bind; [apply oldWrites_baseName, Hd|].
    eapply oldWrites_map; [apply (oldWrites_identifier U h (lit "subscript") None); by vm_compute|done].
  - eapply oldWrites_reader; [intros g s ns _; apply wrapped_entity; reflexivity|].
    cbn iota. eapply oldWrites_map; [eapply oldWrites_map; [exact Ht|done]|done].
Qed.

(** ** Declarations as contexts and as symbols *)

(** A declaration that is not static, and a static one. *)
Definition declStart (c : ascii) : bool := existsb (Ascii.eqb c) (lit "FvIiZ").

Lemma oldWrites_declaration h f n b :
  writesEntity false h f n ->
  writes (entityStart (Kind_eqb (getKind n) K_Subscript)) h
    (dispatchContext (mangleWithFuel f) (mangleContextWithFuel f) (mangleUnboundWithFuel f) n b)
    (fun g => demangleEntity (TI (pred g)) (CI (pred g))) (Some n) [].
Proof.
  intros H. eapply oldWrites_reader; [|exact (H b)]. intros g t ns Ht. unfold demangleEntity.
  erewrite bind_ok; [|apply (nextIf_miss (entityStart (Kind_eqb (getKind n) K_Subscript))); [by destruct (Kind_eqb _ _)|exact Ht]].
  reflexivity.
Qed.

Lemma oldWrites_static h f n b :
  getKind n <> K_Static -> writesEntity true h f n ->
  writes (Ascii.eqb "Z") h
    (dispatchContext (mangleWithFuel (S f)) (mangleContextWithFuel (S f)) (mangleUnboundWithFuel (S f))
       (mkNode K_Static NoPayload [n]) b)
    (fun g => demangleEntity (TI (pred g)) (CI (pred g))) (Some (mkNode K_Static NoPayload [n])) [].
Proof.
  intros Hn H. apply (oldWrites_code U _ (entityStart (Kind_eqb (getKind n) K_Subscript))) with (R' := demangleCases true).
  - done.
  - intros g t ns _. unfold demangleEntity. change (lit "Z" ++ t) with ("Z"%char :: t).
    by rewrite (bind_ok _ _ _ _ _ (nextIf_head _ _ _)).
  - exact (oldWrites_more U _ _ _ (fun g => demangleCases true (pred g)) S _ _ ltac:(lia) (H true)).
Qed.

(** A declaration where a context is expected. *)
Lemma oldWrites_entityContext F h f n :
  avoids F [lit "E"; lit "e"; lit "S"; lit "s"; lit "G"] = true ->
  forallb (fun c => implb (F c) (isStartOfEntity c && contextStart c)) all_ascii = true ->
  writes F h (dispatchContext (mangleWithFuel f) (mangleContextWithFuel f) (mangleUnboundWithFuel f) n true)
    (fun g => demangleEntity (TI (pred g)) (CI (pred g))) (Some n) [] ->
  writesContext h (S f) n.
Proof.
  intros Hav HF H. unfold OldNominalWriting.writesContext. rewrite mangleContext_unfold.
  assert (forall c, F c = true -> isStartOfEntity c = true /\ contextStart c = true) as Hstart.
  { intros c Hc. pose proof (ascii_forall _ HF c) as Hi. cbv beta in Hi. rewrite Hc in Hi. by apply andb_prop in Hi. }
  apply (oldWrites_mono U F _ h); [intros c Hc; by apply Hstart|done|].
  eapply oldWrites_fuel; [|exact H]. intros g t ns Ht.
  change (CI (S g) (reading t ns)) with (demangleContextBody (TI g) (CI g) (reading t ns)). unfold demangleContextBody.
  rewrite (bind_ok _ _ _ _ _ (isEmpty_starts F t ns Ht)). cbn iota. rewrite (nextCases_other F) by done.
  destruct t as [|c t]; [done|]. unfold bind at 1, peek. cbn [Mangled]. by destruct (Hstart c Ht) as [-> _].
Qed.

(** ** Extensions *)

Lemma oldWrites_extension h f text ctx :
  In (createModule text) U -> nameText text -> (1 <= h)%nat -> writesContext h (S f) ctx ->
  writesContext h (S (S f)) (mkNode K_Extension NoPayload [createModule text; ctx]).
Proof.
  intros HU Ht Hh Hctx. unfold OldNominalWriting.writesContext. rewrite mangleContext_unfold. writer.
  unfold mangleExtension. eapply oldWrites_pure; [intros; reflexivity|].
  apply (oldWrites_code U _ moduleStart) with
    (R' := fun g => def_module <-? demangleModule ;; type <-? CI g ;; ret (Some (mkNode K_Extension NoPayload [def_module; type])));
    [done|intros; by apply nextCases_selects|].
  eapply oldWrites_pure; [intros; reflexivity|].
  eapply (oldWrites_bind U _ _ _ _ _ (fun _ => demangleModule)); [by apply oldWrites_definingModule|].
  do 2 (eapply oldWrites_pure; [intros; reflexivity|]). eapply oldWrites_map; [exact Hctx|done].
Qed.

Lemma oldWrites_constrainedExtension h f text ctx sig :
  In (createModule text) U -> nameText text -> (1 <= h)%nat -> writesContext h (S f) ctx ->
  writes (fun c => countStart c || requirementsStart c) h (mangleDependentGenericSignature (mangleWithFuel (S f)) sig)
    (fun g => demangleGenericSignature (TI g) (CI g) false) (Some sig) [] ->
  writesContext h (S (S f)) (mkNode K_Extension NoPayload [createModule text; ctx; sig]).
Proof.
  intros HU Ht Hh Hctx Hsig. unfold OldNominalWriting.writesContext. rewrite mangleContext_unfold. writer.
  unfold mangleExtension. eapply oldWrites_pure; [intros; reflexivity|].
  apply (oldWrites_code U _ moduleStart) with
    (R' := fun g => def_module <-? demangleModule ;; sig <-? demangleGenericSignature (TI g) (CI g) false ;;
                    type <-? CI g ;; ret (Some (mkNode K_Extension NoPayload [def_module; type; sig])));
    [done|intros; by apply nextCases_selects|].
  eapply oldWrites_pure; [intros; reflexivity|].
  eapply (oldWrites_bind U _ _ _ _ _ (fun _ => demangleModule)); [by apply oldWrites_definingModule|].
  eapply oldWrites_writer; [intros s; apply bind_assoc|]. eapply oldWrites_pure; [intros; reflexivity|].
  eapply oldWrites_bind; [exact Hsig|].
  eapply oldWrites_pure; [intros; reflexivity|]. eapply oldWrites_map; [exact Hctx|done].
Qed.
End entities.
