(* ===== verification/OldKnot.v ===== *)
(** * Writing and reading trees of the old mangling

    The rules of [OldNominalWriting], [OldTypeWriting] and [OldEntityWriting] tied
    together by induction on the height of the tree: what holds of the parts of a
    type, a context or a declaration of [OldMangleable] holds of it. *)

From Stdlib Require Import String.
From S2P Require Import Prelude Nodes ManglingUtils Numbers Demangler NodePrinter PrinterSpecs OldDemangler Remangler OldRemangler OldWriting OldMangleable OldNominalWriting OldTypeWriting OldEntityWriting.

#[local] Opaque OldWriting.writes.

(** The node and all the nodes below it. *)
Fixpoint subtrees (n : Node) : list Node :=
  match n with mkNode _ _ cs => n :: flat_map subtrees cs end.

Lemma height_below n m : In m (children n) -> (node_height m < node_height n)%nat.
Proof.
  destruct n as [k p cs]. cbn [children node_height]. intros H%(in_map node_height).
  enough (Forall (fun x => x <= list_max (map node_height cs))%nat (map node_height cs)) as Hall.
  { rewrite List.Forall_forall in Hall. apply Hall in H. lia. }
  by apply list_max_le.
Qed.

Lemma height_pos n : (1 <= node_height n)%nat.
Proof. destruct n. cbn. lia. Qed.

Section covered.
(** The nodes that may be substituted. *)
Variable U : list Node.

Definition covered (n : Node) : Prop := incl (subtrees n) U.

Lemma covered_node k p cs : covered (mkNode k p cs) -> In (mkNode k p cs) U /\ Forall covered cs.
Proof.
  intros H. split; [apply H; by left|]. apply List.Forall_forall. intros c Hc m Hm. apply H. right.
  apply in_flat_map. by exists c.
Qed.

Lemma covered_in n : covered n -> In n U.
Proof. intros H. apply H. destruct n. by left. Qed.

Lemma covered_map {A} (wrap : A -> Node) (l : list A) (P : A -> Prop) :
  (forall x, covered (wrap x) -> P x) -> Forall covered (map wrap l) -> Forall P l.
Proof. intros H. rewrite List.Forall_map. by apply Forall_impl. Qed.

Lemma covered_type t : covered (asType t) -> covered t.
Proof. intros [_ H]%covered_node. by inversion_clear H. Qed.

(** Enough fuel for a node. *)
Definition fits (h f : nat) (n : Node) : Prop := (node_height n <= h)%nat /\ (2 * node_height n <= f)%nat.

End covered.

Ltac fit := unfold fits, asType, typeList in *;
  cbn [node_height map list_max fold_right createNodeIndex createNodeText createModule createNode app] in *; lia.
Ltac cover := repeat match goal with
  | H : covered _ (asType _) |- _ => apply covered_type in H
  | H : covered _ (mkNode _ _ _) |- _ => apply covered_node in H; destruct H
  | H : Forall (covered _) (_ :: _) |- _ => apply Forall_cons_iff in H; destruct H
  end.

Lemma nominal_height n : oldNominal n -> (2 <= node_height n)%nat.
Proof. intros [k code ctx name]. pose proof (height_pos ctx). fit. Qed.

Section knot.
Variable U : list Node.
Hypothesis U_size : Z.of_nat (length U) < 2 ^ 64.
Hypothesis U_hash : forall a b, In a U -> In b U -> deepHash a = deepHash b -> a = b.

Abbreviation writes := (writes U).
Abbreviation TI := demangleTypeImplWith.
Abbreviation CI := demangleContextWith.
Abbreviation covered := (covered U).

Record writable (n : Node) : Prop := mkWritable {
  writable_context h f : fits h f n -> oldContext n -> writesContext U h f n;
  writable_type h f : fits h f n -> oldType n -> writesInner U h f n;
  writable_entityType h f : fits h f n -> oldType n -> writesEntityType U h f n;
  writable_entity h f isStatic : fits h (S f) n -> oldEntity n -> getKind n <> K_Static -> writesEntity U isStatic h f n
}.

(** ** Protocols *)

Lemma protocol_writes h f p : covered p -> fits h f p -> oldProtocol p -> protocolWrites U h f p.
Proof.
  intros Hc Hf (module & name & (text & Ht & ->) & Hn & ->). cover.
  destruct f as [|[|f]]; [fit..|]. apply oldWrites_protocolName with (h' := 1%nat); try done; [by apply covered_in|unfold protocolNode; fit].
Qed.

Lemma protocol_context h f p : covered p -> fits h f p -> oldProtocol p -> writesContext U h f p.
Proof.
  intros Hc Hf (module & name & (text & Ht & ->) & Hn & ->). cover.
  destruct f as [|[|[|f]]]; [fit..|]. apply oldWrites_protocolContext with (h' := 1%nat); try done; [by apply covered_in|unfold protocolNode; fit].
Qed.

(** ** One node *)

(** All that is lower than [n] is written. *)
Definition parts (n : Node) : Prop := forall m, (node_height m < node_height n)%nat -> covered m -> writable m.

Lemma part_context n m h f :
  parts n -> covered m -> oldContext m -> (node_height m < node_height n)%nat -> fits h f m -> writesContext U h f m.
Proof. intros IH Hc Hm Hlt Hf. by apply writable_context; [apply IH|..]. Qed.

Lemma part_type n t h f :
  parts n -> covered t -> oldType t -> (node_height t < node_height n)%nat -> fits h f t -> writesType U h (S f) t.
Proof. intros IH Hc Ht Hlt Hf. by apply oldWrites_asType, writable_type; [apply IH|..]. Qed.

Lemma part_entityType n t h f :
  parts n -> covered t -> oldType t -> (node_height t < node_height n)%nat -> fits h f t -> writesEntityType U h f t.
Proof. intros IH Hc Ht Hlt Hf. by apply writable_entityType; [apply IH|..]. Qed.

(** ** Nominal types *)

Lemma covered_child n c : covered n -> In c (children n) -> covered c.
Proof. destruct n. intros [_ H]%covered_node Hc. rewrite List.Forall_forall in H. auto. Qed.

Lemma nominal_contexts n f :
  parts n -> covered n -> (2 * node_height n <= S f)%nat ->
  forall ctx, oldContext ctx -> In ctx (children n) -> writesContext U (node_height n - 1) f ctx.
Proof.
  intros IH Hc Hf ctx Hctx Hin. pose proof (height_below n ctx Hin).
  eapply part_context; [done|by eapply covered_child|done..|fit].
Qed.

Section nominal.
Variables (n : Node) (h f : nat).
Hypothesis IH : parts n.
Hypothesis n_covered : covered n.
Hypothesis n_fits : fits h (S (S (S f))) n.
Hypothesis n_nominal : oldNominal n.

Lemma nominal_type : writesInner U h (S (S (S f))) n.
Proof.
  pose proof (nominal_height n n_nominal).
  apply oldWrites_nominalType with (h' := (node_height n - 1)%nat); try done; [by apply covered_in|fit|].
  apply nominal_contexts; [done..|fit].
Qed.

Lemma nominal_asType :
  writes (fun c => existsb (Ascii.eqb c) (lit "SVOC")) h (mangleWithFuel (S (S (S f))) n) TI (Some n) [].
Proof.
  pose proof (nominal_height n n_nominal).
  apply oldWrites_nominalAsType with (h' := (node_height n - 1)%nat); try done; [by apply covered_in|fit|].
  apply nominal_contexts; [done..|fit].
Qed.

Lemma nominal_context : writesContext U h (S (S (S f))) n.
Proof.
  pose proof (nominal_height n n_nominal).
  apply oldWrites_nominalContext with (h' := (node_height n - 1)%nat); try done; [by apply covered_in|fit|].
  apply nominal_contexts; [done..|fit].
Qed.

Lemma nominal_unbound b :
  writes (fun c => existsb (Ascii.eqb c) (lit "SVOC")) h (mangleUnboundWithFuel (S (S (S f))) n b)
    (fun g => demangleNominalType (CI g)) (Some n) [].
Proof.
  pose proof (nominal_height n n_nominal).
  apply oldWrites_unbound with (h' := (node_height n - 1)%nat); try done; [by apply covered_in|fit|].
  apply nominal_contexts; [done..|fit].
Qed.

Lemma nominal_class :
  getKind n = K_Class ->
  writes (fun c => Ascii.eqb c "S" || Ascii.eqb c "C") h (mangleWithFuel (S (S (S (S f)))) (asType n))
    (fun g => demangleConstraint (TI g) (CI g)) (Some (asType n)) [].
Proof.
  pose proof (nominal_height n n_nominal). intros Hk.
  apply oldWrites_class with (h' := (node_height n - 1)%nat); try done; [by apply covered_in|fit|].
  apply nominal_contexts; [done..|fit].
Qed.
End nominal.

Lemma parts_lower n m : parts n -> (node_height m <= node_height n)%nat -> parts m.
Proof. intros IH Hm m' Hm'. apply IH. lia. Qed.

(** ** Signatures *)

Lemma requirement_writes n r h f :
  parts n -> covered r -> oldRequirement r -> (node_height r < node_height n)%nat -> fits h f r -> requirementWrites U h f r.
Proof.
  intros IH Hc Hr Hlt Hf. destruct Hr as [depth index t Hd Hi Ht|depth index p Hd Hi Hp|depth index m Hd Hi Hm Hk]; cover.
  - destruct f as [|[|f]]; [fit..|]. apply oldWrites_sameType; [done..|]. eapply part_type; [done..|fit|fit].
  - destruct f as [|f]; [fit|]. apply oldWrites_protocolConstraint; [done..|]. apply protocol_writes; [done|fit|done].
  - pose proof (nominal_height m Hm). destruct f as [|[|[|[|[|f]]]]]; [fit..|]. apply oldWrites_classConstraint; [done..|].
    apply nominal_class; [|done|fit|done..]. eapply parts_lower; [done|fit].
Qed.

Lemma oldSignature_node sig : oldSignature sig -> exists counts requirements,
  sig = signatureNode counts requirements /\ counts <> [] /\ Forall countOk counts /\ Forall oldRequirement requirements.
Proof. intros [counts requirements Hne Hc Hr]. by exists counts, requirements. Qed.

Lemma signature_requirements n counts requirements h f :
  parts n -> covered (signatureNode counts requirements) -> Forall oldRequirement requirements ->
  (node_height (signatureNode counts requirements) <= node_height n)%nat ->
  fits (S h) (S (S f)) (signatureNode counts requirements) -> Forall (requirementWrites U h f) requirements.
Proof.
  intros IH Hc Hr Hlt Hf. apply List.Forall_forall. intros r Hin.
  assert (In r (children (signatureNode counts requirements))) as Hin' by (apply in_app_iff; by right).
  pose proof (height_below _ _ Hin'). rewrite List.Forall_forall in Hr.
  eapply requirement_writes; [done|by eapply covered_child|by apply Hr|lia|fit].
Qed.

Lemma signature_writes n sig h f :
  parts n -> covered sig -> oldSignature sig -> (node_height sig <= node_height n)%nat -> fits (S h) (S (S f)) sig ->
  writes (fun c => countStart c || requirementsStart c) h (mangleDependentGenericSignature (mangleWithFuel f) sig)
    (fun g => demangleGenericSignature (TI g) (CI g) false) (Some sig) [].
Proof.
  intros IH Hc Hsig Hlt Hf. destruct Hsig as [counts requirements Hne Hcounts Hr].
  apply oldWrites_signature; [done..|]. by eapply signature_requirements.
Qed.

(** ** Types *)

Lemma element_writes n e h f :
  parts n -> Forall covered (children e) -> oldElement e -> (node_height e < node_height n)%nat -> fits h f e ->
  elementWrites U h f e /\ elementWrites U h f (marked e).
Proof.
  intros IH Hc He Hlt Hf.
  destruct f as [|[|f]]; [destruct He as [t|label t]; fit..|]. apply oldWrites_element; [done|].
  intros t Hin. pose proof (height_below _ _ Hin). rewrite List.Forall_forall in Hc. specialize (Hc _ Hin). cover.
  eapply part_type; [done..| |fit|fit].
  destruct He as [t' Ht'|label t' Hl Ht']; repeat destruct Hin as [Hin|Hin]; try discriminate; (injection Hin as <-; done) || destruct Hin.
Qed.

Lemma covered_children n : covered n -> Forall covered (children n).
Proof. destruct n. by intros [_ H]%covered_node. Qed.

Lemma height_list k p cs c : In c cs -> (node_height c < node_height (mkNode k p cs))%nat.
Proof. intros H. by apply height_below. Qed.

Lemma elements_write k p cs es h f :
  parts (mkNode k p cs) -> Forall covered es -> Forall oldElement es -> incl es cs -> fits (S h) (S (S f)) (mkNode k p cs) ->
  Forall (elementWrites U h f) es.
Proof.
  intros IH Hc He Hincl Hf. apply List.Forall_forall. intros e Hin. rewrite List.Forall_forall in Hc, He.
  pose proof (height_list k p cs e (Hincl e Hin)).
  apply (element_writes _ e h f IH); [by apply covered_children, Hc|by apply He|lia|].
  unfold fits in *. lia.
Qed.

Lemma tuple_writes h f es :
  parts (mkNode K_Tuple NoPayload es) -> covered (mkNode K_Tuple NoPayload es) -> fits h f (mkNode K_Tuple NoPayload es) ->
  Forall oldElement es -> writesInner U h f (mkNode K_Tuple NoPayload es).
Proof.
  intros IH Hc Hf He. destruct f as [|f]; [fit..|]. apply oldWrites_tuple; [done|].
  apply (elements_write K_Tuple NoPayload es); [done|by apply covered_node in Hc as [_ Hc]|done|apply incl_refl|].
  unfold fits in *. lia.
Qed.

Lemma variadic_writes h f es e :
  let n := mkNode K_Tuple NoPayload (es ++ [marked e]) in
  parts n -> covered n -> fits h f n -> Forall oldElement (es ++ [e]) -> writesInner U h f n.
Proof.
  intros n IH Hc Hf He. destruct f as [|f]; [unfold n in *; fit..|]. apply oldWrites_variadic; [done|].
  apply covered_node in Hc as [_ Hc]. apply Forall_app in Hc as [Hces Hce]. apply Forall_app in He as [He He'].
  apply Forall_cons_iff in Hce as [Hce _], He' as [He' _].
  apply Forall_app. split.
  - apply (elements_write K_Tuple NoPayload (es ++ [marked e])); [done..|apply incl_appl, incl_refl|]. unfold n, fits in *. lia.
  - constructor; [|constructor]. unfold n in *.
    pose proof (height_list K_Tuple NoPayload (es ++ [marked e]) (marked e) ltac:(apply in_app_iff; right; by left)) as Hlt.
    assert (node_height e <= node_height (marked e))%nat.
    { destruct e as [k p cs]. cbn [marked node_height children map list_max fold_right]. unfold list_max. lia. }
    eapply element_writes; [exact IH| |done|lia|unfold fits in *; lia].
    apply covered_children in Hce. cbn [marked children] in Hce. by apply Forall_cons_iff in Hce as [_ Hce].
Qed.

Lemma type_heights k p cs k' p' ts t : In (mkNode k' p' (map asType ts)) cs -> In t ts ->
  (node_height t + 3 <= node_height (mkNode k p cs))%nat.
Proof.
  intros H Ht. pose proof (height_list k p cs _ H). pose proof (height_list k' p' _ _ (in_map asType ts t Ht)).
  pose proof (height_list K_Type NoPayload [t] t ltac:(by left)). unfold asType in *. lia.
Qed.

Lemma protocols_write h f ps :
  let n := mkNode K_ProtocolList NoPayload [typeList ps] in
  covered n -> fits h f n -> Forall oldProtocol ps -> writesInner U h f n.
Proof.
  intros n Hc Hf Hp. destruct f as [|f]; [unfold n in *; fit|]. apply oldWrites_protocols; [done|].
  apply covered_children in Hc. cbn [children n] in Hc. apply Forall_cons_iff in Hc as [Hc _].
  apply covered_children, (covered_map U asType ps covered) in Hc; [|by apply covered_type].
  apply List.Forall_forall. intros p Hin. rewrite List.Forall_forall in Hc, Hp.
  pose proof (type_heights K_ProtocolList NoPayload [typeList ps] _ _ ps p ltac:(by left) Hin).
  apply protocol_writes; auto. unfold n, fits in *. lia.
Qed.

Lemma bound_writes h f n args :
  let b := mkNode (boundKind (getKind n)) NoPayload [asType n; typeList args] in
  parts b -> covered b -> fits h f b -> oldNominal n -> genericChain n -> args <> [] -> Forall oldType args ->
  writesInner U h f b.
Proof.
  intros b IH Hc Hf Hn Hg Hne Hargs. pose proof (nominal_height n Hn). unfold b in *.
  apply covered_children in Hc. cbn [children] in Hc. apply Forall_cons_iff in Hc as [Hcn Hc]. apply Forall_cons_iff in Hc as [Hc _].
  apply covered_children, (covered_map U asType args covered) in Hc; [|by apply covered_type]. cover.
  destruct f as [|[|[|[|[|f]]]]]; [fit..|]. apply oldWrites_bound; [done..| |].
  - apply List.Forall_forall. intros t Hin. rewrite List.Forall_forall in Hc, Hargs.
    pose proof (type_heights (boundKind (getKind n)) NoPayload [asType n; typeList args] _ _ args t ltac:(right; by left) Hin).
    eapply part_type; [exact IH|auto|auto|lia|unfold fits in *; lia].
  - apply nominal_unbound; [|done|fit|done]. eapply parts_lower; [done|fit].
Qed.

Lemma generic_writes h f sig t :
  let n := mkNode K_DependentGenericType NoPayload [sig; asType t] in
  parts n -> covered n -> fits h f n -> oldSignature sig -> oldType t -> writesInner U h f n.
Proof.
  intros n IH Hc Hf Hsig Ht. unfold n in *. pose proof (height_pos sig). cover.
  destruct (oldSignature_node sig Hsig) as (counts & requirements & -> & Hne & Hcounts & Hr).
  destruct f as [|[|f]]; [fit..|].
  apply oldWrites_genericType; [done..| |eapply part_type; [done..|fit|fit]].
  eapply signature_requirements; [done..|fit|fit].
Qed.

(** The parts of a function, with or without [throws]. *)
Lemma function_parts k throws a r :
  covered (functionNode k throws a r) ->
  covered a /\ covered r
  /\ (node_height a + 3 <= node_height (functionNode k throws a r))%nat
  /\ (node_height r + 3 <= node_height (functionNode k throws a r))%nat.
Proof.
  unfold functionNode. intros Hc. destruct throws; cbn [throwing app] in *; cover; split_and!; try done; fit.
Qed.

Lemma function_writes h f k code throws a r :
  let n := functionNode k throws a r in
  parts n -> covered n -> fits h f n -> In (k, code) functionCodes -> oldType a -> oldType r -> writesInner U h f n.
Proof.
  intros n IH Hc Hf Hk Ha Hr. destruct (function_parts k throws a r Hc) as (Hca & Hcr & Hha & Hhr). fold n in Hha, Hhr.
  unfold fits in Hf. destruct f as [|[|[|f]]]; [lia..|].
  eapply oldWrites_function; [done|eapply part_type; [done..|lia|]|eapply part_type; [done..|lia|]]; unfold fits; lia.
Qed.

Lemma type_writes n h f : parts n -> covered n -> fits h f n -> oldType n -> writesInner U h f n.
Proof.
  intros IH Hc Hf Hn. pose proof (height_pos n).
  destruct Hn as [n Hn|name code Hin|prefix size Hin Hs|k code t Hk Ht|t Ht| |k code representation rcode t Hk Hr Ht
    |k code throws a r Hk Ha Hr|es He|es e He|ps Hp|depth index Hd Hi|n args Hn Hg Hne Hargs|sig t Hsig Ht].
  - pose proof (nominal_height n Hn). destruct f as [|[|[|f]]]; [fit..|]. by apply nominal_type.
  - destruct f as [|f]; [fit|]. by eapply oldWrites_builtin.
  - destruct f as [|f]; [fit|]. by eapply oldWrites_builtinNumber.
  - cover. destruct f as [|[|f]]; [fit..|]. eapply oldWrites_wrapping; [done|]. eapply part_type; [done..|fit|fit].
  - cover. destruct f as [|f]; [fit..|]. apply oldWrites_inout. apply writable_type; [apply IH; [fit|done]|fit|done].
  - destruct f as [|f]; [fit|]. by apply oldWrites_error.
  - cover. destruct f as [|[|f]]; [fit..|]. eapply oldWrites_metatype; [done..|]. eapply part_type; [done..|fit|fit].
  - by eapply function_writes.
  - by apply tuple_writes.
  - by apply variadic_writes.
  - by apply protocols_write.
  - destruct f as [|f]; [fit|]. by apply oldWrites_param.
  - by apply bound_writes.
  - by apply generic_writes.
Qed.

Definition curriedCodes : list (Kind * string) := [(K_FunctionType, "F"); (K_UncurriedFunctionType, "f")]%string.

(** A type is a function, or [mangleEntityType] does not look into it. *)
Lemma entityType_cases n :
  oldType n ->
  ~ In (getKind n) [K_FunctionType; K_UncurriedFunctionType]
  \/ exists k code throws a r, n = functionNode k throws a r /\ In (k, code) curriedCodes /\ oldType a /\ oldType r.
Proof.
  intros Hn. destruct (decide (In (getKind n) [K_FunctionType; K_UncurriedFunctionType])) as [Hin|]; [right|by left].
  destruct Hn as [n Hn|name code _|prefix size _ _|k code t Hk _|t _| |k code representation rcode t Hk _ _
    |k code throws a r Hk Ha Hr|es _|es e _|ps _|depth index _ _|n args Hn _ _ _|sig t _ _]; cbn [getKind] in Hin.
  2-3,5-6,9-12,14: by repeat destruct Hin as [Hin|Hin].
  - destruct Hn as [k code ctx name Hk _ _ _]. repeat destruct Hk as [[= <- <-]|Hk]; by repeat destruct Hin as [Hin|Hin].
  - repeat destruct Hk as [[= <- <-]|Hk]; by repeat destruct Hin as [Hin|Hin].
  - repeat destruct Hk as [[= <- <-]|Hk]; by repeat destruct Hin as [Hin|Hin].
  - exists k, (if Kind_eqb k K_FunctionType then "F" else "f")%string, throws, a, r. split_and!; [done| |done..].
    repeat destruct Hin as [<-|Hin]; [by left|by right; left|done].
  - destruct (getKind n); by repeat destruct Hin as [Hin|Hin].
Qed.

Lemma entityType_writes n h f : parts n -> covered n -> fits h f n -> oldType n -> writesEntityType U h f n.
Proof.
  intros IH Hc Hf Hn. destruct (entityType_cases n Hn) as [Hk|(k & code & throws & a & r & -> & Hk & Ha & Hr)].
  - apply oldWrites_entityType; [done|]. by apply type_writes.
  - destruct (function_parts k throws a r Hc) as (Hca & Hcr & Hha & Hhr). unfold fits in Hf. destruct f as [|[|f]]; [lia..|].
    eapply oldWrites_entityFunction; [exact Hk|eapply part_type|eapply part_entityType]; (done || lia || (unfold fits; lia)).
Qed.

(** ** Declarations and contexts *)

Lemma entity_writes n h f isStatic :
  parts n -> covered n -> fits h (S f) n -> oldEntity n -> getKind n <> K_Static -> writesEntity U isStatic h f n.
Proof.
  intros IH Hc Hf Hn Hs. pose proof (height_pos n).
  destruct Hn as [k [basic code] ctx Hk Hctx|k code ctx t Hk Hctx Ht|ctx index Hctx Hi|k code ctx name t Hk Hctx Hname Ht
    |k code ctx index t Hk Hctx Hi Ht|k code ctx name t Hk Hctx Hname Hsub Ht|k code ctx t Hk Hctx Ht|k code ctx t d Hk Hctx Ht Hd|n Hn _];
    [..|done]; cover; pose proof (height_pos ctx); (destruct f as [|[|f]]; [fit..|]).
  - eapply oldWrites_simple; [done|]. eapply part_context; [done..|fit|fit].
  - eapply oldWrites_typed; [done|eapply part_context|eapply part_entityType]; (done || fit).
  - eapply oldWrites_default; [done|eapply part_context]; (done || fit).
  - eapply oldWrites_named; [done..|eapply part_context|eapply part_entityType]; (done || fit).
  - eapply oldWrites_closure; [done..|eapply part_context|eapply part_entityType]; (done || fit).
  - eapply oldWrites_accessor; [done..|eapply part_context|eapply part_entityType]; (done || fit).
  - eapply oldWrites_subscript; [done..|eapply part_context|eapply part_entityType]; (done || fit).
  - eapply oldWrites_privateSubscript; [done..|eapply part_context|eapply part_entityType]; (done || fit).
Qed.

(** A declaration where any may be, as [mangle] or [mangleEntityContext] writes it. *)
Definition declarationStart (n : Node) : ascii -> bool :=
  if Kind_eqb (getKind n) K_Static then Ascii.eqb "Z" else entityStart (Kind_eqb (getKind n) K_Subscript).

Lemma declaration_writes n h f b :
  parts n -> covered n -> fits h (S f) n -> oldEntity n ->
  writes (declarationStart n) h (dispatchContext (mangleWithFuel f) (mangleContextWithFuel f) (mangleUnboundWithFuel f) n b)
    (fun g => demangleEntity (TI (pred g)) (CI (pred g))) (Some n) [].
Proof.
  intros IH Hc Hf Hn. unfold declarationStart. destruct (Kind_eqb (getKind n) K_Static) eqn:E.
  - apply Kind_eqb_eq in E. destruct Hn as [k codes ctx Hk _|k code ctx t Hk _ _| |k code ctx name t Hk _ _ _
      |k code ctx index t Hk _ _ _|k code ctx name t Hk _ _ _ _|k code ctx t Hk _ _|k code ctx t d Hk _ _ _|n Hn Hs];
      try (cbn in E; subst k; exfalso; by repeat destruct Hk as [Hk|Hk]).
    + done.
    + pose proof (height_pos n). cover. destruct f as [|f]; [fit|]. apply oldWrites_static; [done|]. apply writable_entity; [apply IH|..]; (done || fit).
  - apply oldWrites_declaration, entity_writes; try done. intros Hk. rewrite Hk in E. done.
Qed.

Lemma context_writes n h f : parts n -> covered n -> fits h f n -> oldContext n -> writesContext U h f n.
Proof.
  intros IH Hc Hf Hn. pose proof (height_pos n).
  destruct Hn as [text Ht|n Hn|n Hn|module ctx Hm Hctx|module ctx sig Hm Hctx Hsig|n Hn Hk].
  - destruct f as [|f]; [fit|]. eapply (oldWrites_mono U moduleStart _ h); [| |apply oldWrites_module; [done..|by apply covered_in|done|fit]]; [|done].
    intros c [Hc'|[-> | ->]]%moduleStart_cases; [unfold contextStart; by rewrite Hc'|done..].
  - pose proof (nominal_height n Hn). destruct f as [|[|[|f]]]; [fit..|]. by apply nominal_context.
  - by apply protocol_context.
  - destruct Hm as (text & Ht & ->). cover. destruct f as [|[|f]]; [fit..|].
    apply oldWrites_extension; [done|done|by apply covered_in|done|fit|]. eapply part_context; (done || fit).
  - destruct Hm as (text & Ht & ->). cover. destruct f as [|[|f]]; [fit..|].
    apply oldWrites_constrainedExtension; [done|done|by apply covered_in|done|fit|eapply part_context; (done || fit)|].
    eapply signature_writes; (done || fit).
  - destruct f as [|f]; [fit|]. apply oldWrites_entityContext with (F := declarationStart n); [| |by apply declaration_writes].
    + unfold declarationStart. destruct (Kind_eqb (getKind n) K_Static); [done|].
      destruct (Kind_eqb (getKind n) K_Subscript) eqn:E; [by apply Kind_eqb_eq in E|done].
    + unfold declarationStart. destruct (Kind_eqb (getKind n) K_Static); [done|].
      destruct (Kind_eqb (getKind n) K_Subscript) eqn:E; [by apply Kind_eqb_eq in E|done].
Qed.

Theorem covered_writable n : covered n -> writable n.
Proof.
  induction n as [n IH] using (well_founded_induction (Wf_nat.well_founded_ltof _ node_height)). intros Hc.
  assert (parts n) as Hp by (intros m Hm; by apply IH).
  split; intros; [by apply context_writes|by apply type_writes|by apply entityType_writes|by apply entity_writes].
Qed.
End knot.
