(* ===== verification/OldRoundtrip.v ===== *)
(** * The round trip through the old mangling

    A symbol that is made of the trees of [OldMangleable] is mangled, and what the
    remangler writes is demangled to the symbol again: [mangleNodeOld] is total on
    these trees, and injective, and [demangleOldSymbolAsNode] is its inverse. *)

From Stdlib Require Import String.
From S2P Require Import Prelude Nodes ManglingUtils Numbers Demangler NodePrinter PrinterSpecs OldDemangler Remangler OldRemangler OldRemanglerTheorems OldWriting OldMangleable OldNominalWriting OldTypeWriting OldEntityWriting OldKnot.

#[local] Opaque OldWriting.writes.

(** One test implies the other. *)
Definition includes (F F' : ascii -> bool) : bool := forallb (fun c => implb (F c) (F' c)) all_ascii.

Lemma includes_spec F F' c : includes F F' = true -> F c = true -> F' c = true.
Proof. intros H Hc. pose proof (ascii_forall _ H c) as Hi. cbv beta in Hi. by rewrite Hc in Hi. Qed.

(** ** Symbols *)

(** Kinds of symbols with a type below them. *)
Definition typeSymbolCodes : list (Kind * string) :=
  [(K_TypeMangling, "t"); (K_GenericTypeMetadataPattern, "MP"); (K_TypeMetadataAccessFunction, "Ma");
   (K_TypeMetadataLazyCache, "ML"); (K_Metaclass, "Mm"); (K_NominalTypeDescriptor, "Mn"); (K_FullTypeMetadata, "Mf");
   (K_ValueWitnessTable, "WV")]%string.

Definition attributeCodes : list (Kind * string) :=
  [(K_ObjCAttribute, "To"); (K_NonObjCAttribute, "TO"); (K_DynamicAttribute, "TD");
   (K_DirectMethodReferenceAttribute, "Td"); (K_VTableAttribute, "TV")]%string.

Definition directnessCodes : list (Z * string) := [(Directness_Direct, "d"); (Directness_Indirect, "i")]%string.

(** The symbol proper. *)
Inductive oldGlobal : Node -> Prop :=
  | oldGlobal_entity n : oldEntity n -> oldGlobal n
  | oldGlobal_nominal n : oldNominal n -> oldGlobal n
  | oldGlobal_type k code t : In (k, code) typeSymbolCodes -> oldType t -> oldGlobal (mkNode k NoPayload [asType t])
  | oldGlobal_metadata n : oldNominal n -> oldGlobal (mkNode K_TypeMetadata NoPayload [asType n])
  | oldGlobal_protocol p : oldProtocol p -> oldGlobal (mkNode K_ProtocolDescriptor NoPayload [asType p])
  | oldGlobal_offset directness code n :
      In (directness, code) directnessCodes -> oldEntity n ->
      oldGlobal (mkNode K_FieldOffset NoPayload [createNodeIndex K_Directness directness; n])
  | oldGlobal_witness index t :
      (index < length VALUE_WITNESSES)%nat -> oldType t ->
      oldGlobal (mkNode K_ValueWitness (IndexPayload (Z.of_nat index)) [asType t]).

(** With an attribute in front and a suffix behind it. *)
Inductive oldSymbol : Node -> Prop :=
  oldSymbol_intro attribute body suffix :
    attribute = [] \/ (exists k code, In (k, code) attributeCodes /\ attribute = [createNode k]) ->
    oldGlobal body ->
    suffix = [] \/ (exists text, text <> [] /\ suffix = [createNodeText K_Suffix text]) ->
    oldSymbol (mkNode K_Global NoPayload (attribute ++ body :: suffix)).

(** The hash tells the nodes of the tree apart: the remangler compares nothing else
    (see [mangleNodeOld_conflates]). *)
Definition collisionFree (n : Node) : Prop :=
  forall a b, In a (subtrees n) -> In b (subtrees n) -> deepHash a = deepHash b -> a = b.

(** What a nominal type begins with. *)
Definition nominalStart (c : ascii) : bool := existsb (Ascii.eqb c) (lit "SVOC").

Section symbols.
Variable U : list Node.
Hypothesis U_size : Z.of_nat (length U) < 2 ^ 64.
Hypothesis U_hash : forall a b, In a U -> In b U -> deepHash a = deepHash b -> a = b.

Abbreviation writes := (writes U).
Abbreviation TI := demangleTypeImplWith.
Abbreviation CI := demangleContextWith.

Definition globalStart (c : ascii) : bool := existsb (Ascii.eqb c) (lit "SVOCFvIZitMWw").

Definition writesGlobal (h f : nat) (n : Node) : Prop :=
  writes globalStart h (mangleWithFuel f n) (fun g => demangleGlobal (TI g) (CI g)) (Some n) [].

Definition entityStarts (c : ascii) : bool := existsb (Ascii.eqb c) (lit "SVOCFvIZi").

(** A symbol that no code of [demangleGlobal] stands in front of. *)
Lemma read_globalEntity T C t ns :
  starts entityStarts t -> demangleGlobal T C (reading t ns) = demangleEntity T C (reading t ns).
Proof.
  intros Ht. unfold demangleGlobal. cbn [demangleGlobalWith Mangled].
  rewrite (bind_ok _ _ _ _ _ (isEmpty_starts _ _ ns Ht)). cbn iota. by rewrite (nextCases_other entityStarts).
Qed.

Lemma oldWrites_globalEntity F h w n :
  (forall c, F c = true -> entityStarts c = true) ->
  writes F h w (fun g => demangleEntity (TI (pred g)) (CI (pred g))) (Some n) [] ->
  writes globalStart h w (fun g => demangleGlobal (TI g) (CI g)) (Some n) [].
Proof.
  intros HF H. apply (oldWrites_mono U F _ h); [|done|].
  { intros c Hc%HF. revert Hc. by apply includes_spec. }
  apply oldWrites_reader with (R' := fun g => demangleEntity (TI g) (CI g)).
  - intros g t ns Ht. apply read_globalEntity. by eapply starts_mono.
  - exact (oldWrites_more U _ _ _ (fun g => demangleEntity (TI (pred g)) (CI (pred g))) S _ _ ltac:(lia) H).
Qed.

Lemma declarationStart_entity n c : declarationStart n c = true -> entityStarts c = true.
Proof.
  unfold declarationStart. destruct (Kind_eqb (getKind n) K_Static); [by apply includes_spec|].
  by destruct (Kind_eqb (getKind n) K_Subscript); apply includes_spec.
Qed.

(** ** Symbols of each form *)

Lemma bind_ret_unit {S} (w : M S unit) s : (_ <- w ;; ret tt) s = w s.
Proof. unfold bind. by destruct (w s) as [[[] s']|]. Qed.


Lemma oldWrites_typeSymbol h f k code t :
  In (k, code) typeSymbolCodes -> writesType U h f t -> writesGlobal h (S f) (mkNode k NoPayload [asType t]).
Proof.
  intros Hk Ht.
  apply (oldWrites_writer U) with (w' := _ <- put code ;; mangleWithFuel f (asType t)).
  { intros s. repeat destruct Hk as [[= <- <-]|Hk]; [..|destruct Hk]; try reflexivity.
    transitivity ((_ <- put "Mf" ;; _ <- mangleWithFuel f (asType t) ;; ret tt) s); [reflexivity|].
    apply bind_ext. intros _ s'. by apply bind_ret_unit. }
  apply (oldWrites_code' U _ typeStart) with (R' := fun g => demangleUnder k (demangleType (TI g))).
  - repeat destruct Hk as [[= <- <-]|Hk]; [done..|destruct Hk].
  - intros g s ns _. repeat destruct Hk as [[= <- <-]|Hk]; [reflexivity..|destruct Hk].
  - eapply oldWrites_map; [exact Ht|done].
Qed.

Lemma oldWrites_nominalSymbol h f n :
  parts U n -> covered U n -> fits h f n -> oldNominal n -> writesGlobal h f n.
Proof.
  intros IH Hc Hf Hn. pose proof (nominal_height n Hn). destruct f as [|[|[|f]]]; [fit..|].
  apply (oldWrites_writer U) with (w' := mangleUnboundWithFuel (S (S (S f))) n false).
  { intros s. destruct Hn as [k code ctx name Hk _ _ _]. table Hk. }
  apply (oldWrites_mono U nominalStart _ h); [intros c; by apply (includes_spec nominalStart)|done|].
  apply oldWrites_reader with (R' := fun g => demangleNominalType (CI g)); [|by apply nominal_unbound].
  intros g t ns Ht. rewrite read_globalEntity by (eapply starts_mono; [|exact Ht]; intros c; by apply (includes_spec nominalStart)).
  unfold demangleEntity. read_miss nominalStart.
  by apply (nextCases_other nominalStart).
Qed.

Lemma oldWrites_metadata h f n :
  parts U n -> covered U n -> fits h f n -> oldNominal n -> writesGlobal h (S (S f)) (mkNode K_TypeMetadata NoPayload [asType n]).
Proof.
  intros IH Hc Hf Hn. pose proof (nominal_height n Hn). destruct f as [|[|[|f]]]; [fit..|].
  apply (oldWrites_writer U) with (w' := _ <- put "M" ;; mangleWithFuel (S (S (S f))) n); [reflexivity|].
  apply (oldWrites_code' U _ nominalStart) with
    (R' := fun g => demangleUnder K_TypeMetadata (demangleType (TI g))).
  - done.
  - intros g s ns Hs. transitivity (demangleMetadata (TI g) (CI g) (reading s ns)); [reflexivity|].
    by apply (nextCases_other nominalStart).
  - eapply oldWrites_map; [eapply oldWrites_map with (a := Some n); [by apply nominal_asType|done]|done].
Qed.

Lemma oldWrites_protocolSymbol h f p :
  oldProtocol p -> protocolWrites U h f p -> writesGlobal h (S f) (mkNode K_ProtocolDescriptor NoPayload [asType p]).
Proof.
  intros Hp H.
  apply (oldWrites_writer U) with (w' := _ <- put "Mp" ;;
    mangleProtocolWithoutPrefix (mangleWithFuel f) (mangleContextWithFuel f) (asType p)); [reflexivity|].
  apply (oldWrites_code' U _ moduleStart) with (R' := fun g => demangleUnder K_ProtocolDescriptor (demangleProtocolName (CI g)));
    [done|reflexivity|].
  eapply oldWrites_map; [by apply oldWrites_protocolType|done].
Qed.

Lemma oldWrites_witness h f index t :
  (index < length VALUE_WITNESSES)%nat -> writesType U h f t ->
  writesGlobal h (S f) (mkNode K_ValueWitness (IndexPayload (Z.of_nat index)) [asType t]).
Proof.
  intros Hi Ht. destruct (lookup_lt_is_Some_2 _ _ Hi) as [code Hcode].
  assert (exists c0 c1, code = [c0; c1] /\ list_find (fun m => [c0; c1] = m) VALUE_WITNESSES = Some (index, code)) as (c0 & c1 & -> & Hfind).
  { clear Ht. do 24 (destruct index as [|index]; [injection Hcode as <-; eexists _, _; by split; vm_compute|]). done. }
  apply (oldWrites_writer U) with (w' := _ <- put "w" ;; _ <- put (string_of_list_ascii [c0; c1]) ;; mangleWithFuel f (asType t)).
  { intros s. transitivity ((_ <- put "w" ;; _ <- match VALUE_WITNESSES !! Z.to_nat (wrap_u32 (Z.of_nat index)) with
       | Some Code => emit Code
       | None => fail (NullPointer "mangleValueWitness")
       end ;; mangleWithFuel f (asType t)) s); [reflexivity|].
    unfold wrap_u32. rewrite Z.mod_small by (change (length VALUE_WITNESSES) with 24%nat in Hi; lia).
    rewrite Nat2Z.id, Hcode. done. }
  apply (oldWrites_code' U _ (fun _ => true)) with (R' := fun g => demangleValueWitness (TI g)); [done|reflexivity|].
  apply (oldWrites_code' U _ typeStart) with (R' := fun g => demangleChild (mkNode K_ValueWitness (IndexPayload (Z.of_nat index)) []) (demangleType (TI g)));
    [done| |eapply oldWrites_map; [exact Ht|done]].
  intros g s ns _. unfold demangleValueWitness.
  assert (demangleValueWitnessKind (reading (c0 :: c1 :: s) ns)
    = Ok (match list_find (fun m => [c0; c1] = m) VALUE_WITNESSES with Some (i, _) => Some (Z.of_nat i) | None => None end,
          reading s ns)) as Hread by done.
  rewrite Hfind in Hread. change (lit (string_of_list_ascii [c0; c1]) ++ s) with (c0 :: c1 :: s).
  rewrite (bind_ok _ _ _ _ _ Hread). unfold createNodeIndex. change (length VALUE_WITNESSES) with 24%nat in Hi.
  by rewrite wrap_u64_id by lia.
Qed.

(** [mangle] and [mangleEntityContext] write a declaration in the same way. *)
Lemma mangle_declaration f n s :
  oldEntity n ->
  mangleWithFuel (S f) n s = dispatchContext (mangleWithFuel f) (mangleContextWithFuel f) (mangleUnboundWithFuel f) n false s.
Proof.
  intros Hk%entity_kind. destruct n as [k p cs]. rewrite mangle_unfold.
  cbn [getKind simpleCodes typedCodes namedCodes closureCodes accessorCodes map fst app] in Hk.
  by repeat destruct Hk as [<-|Hk].
Qed.

Lemma oldWrites_offset h f directness code n :
  In (directness, code) directnessCodes -> parts U (mkNode K_FieldOffset NoPayload [n]) -> covered U n -> oldEntity n ->
  fits h (S f) n ->
  writesGlobal h (S (S f)) (mkNode K_FieldOffset NoPayload [createNodeIndex K_Directness directness; n]).
Proof.
  intros Hk IH Hc Hn Hf.
  apply (oldWrites_writer U) with (w' := _ <- put "Wv" ;; _ <- put code ;; _ <- mangleWithFuel (S f) n ;; ret tt).
  { intros s. repeat destruct Hk as [[= <- <-]|Hk]; [reflexivity..|destruct Hk]. }
  apply (oldWrites_code' U _ (fun _ => true)) with
    (R' := fun g => directness <-? demangleDirectness ;;
               demangleChild (nodeAddChild (createNode K_FieldOffset) (createNodeIndex K_Directness directness))
                 (demangleEntity (TI g) (CI g))); [done|reflexivity|].
  apply (oldWrites_code' U _ (declarationStart n)) with
    (R' := fun g => demangleChild (mkNode K_FieldOffset NoPayload [createNodeIndex K_Directness directness]) (demangleEntity (TI g) (CI g))).
  - table Hk.
  - intros g s ns _. repeat destruct Hk as [[= <- <-]|Hk]; [reflexivity..|destruct Hk].
  - apply oldWrites_ret. eapply oldWrites_map with (a := Some n); [|done].
    apply (oldWrites_more U _ _ _ (fun g => demangleEntity (TI (pred g)) (CI (pred g))) S); [lia|].
    eapply oldWrites_writer; [intros s; by apply mangle_declaration|].
    apply declaration_writes; try done. eapply parts_lower; [exact IH|]. cbn. lia.
Qed.

(** *** All of them *)

Theorem global_writes h f n :
  covered U n -> oldGlobal n -> fits h f n -> writesGlobal h f n.
Proof.
  intros Hc Hn Hf. assert (parts U n) as IH by (intros m _ Hm; by apply covered_writable).
  pose proof (height_pos n).
  destruct Hn as [n Hn|n Hn|k code t Hk Ht|n Hn|p Hp|directness code n Hd Hn|index t Hi Ht].
  - destruct f as [|f]; [fit|]. eapply oldWrites_writer; [intros s; by apply mangle_declaration|].
    eapply oldWrites_globalEntity; [apply declarationStart_entity|]. by apply declaration_writes.
  - by apply oldWrites_nominalSymbol.
  - cover. destruct f as [|[|f]]; [fit..|]. eapply oldWrites_typeSymbol; [done|]. eapply part_type; (done || fit).
  - cover. destruct f as [|[|f]]; [fit..|]. apply oldWrites_metadata; [eapply parts_lower; [exact IH|fit]|done|fit|done].
  - cover. destruct f as [|f]; [fit..|]. apply oldWrites_protocolSymbol; [done|]. apply protocol_writes; (done || fit).
  - cover. destruct f as [|[|f]]; [fit..|]. eapply oldWrites_offset; [done|eapply parts_lower; [exact IH|fit]|done|done|fit].
  - cover. destruct f as [|[|f]]; [fit..|]. eapply oldWrites_witness; [done|]. eapply part_type; (done || fit).
Qed.
End symbols.

(** ** The whole symbol *)

Definition symbolNode (attribute : list Node) (body : Node) (suffix : list Node) : Node :=
  mkNode K_Global NoPayload (attribute ++ body :: suffix).

(** [demangleTopLevel], behind the attribute. *)
Definition demangleBehind (attribute : list Node) (fuel : nat) : OM NodePointer :=
  topLevel <-? demangleChild (mkNode K_Global NoPayload attribute)
                 (demangleGlobal (demangleTypeImplWith fuel) (demangleContextWith fuel)) ;;
  e <- isEmpty ;;
  if (e : bool) then ret (Some topLevel)
  else rest <- getString ;; ret (Some (nodeAddChild topLevel (createNodeText K_Suffix rest))).

Inductive attributeText : list Node -> str -> Prop :=
  | attributeText_none : attributeText [] []
  | attributeText_some k code : In (k, code) attributeCodes -> attributeText [createNode k] (lit code).

Lemma read_topLevel attribute text t fuel :
  attributeText attribute text -> starts globalStart t ->
  demangleTopLevel (demangleTypeImplWith fuel) (demangleContextWith fuel) (reading (lit "_T" ++ text ++ t) [])
  = demangleBehind attribute fuel (reading t []).
Proof.
  intros [|k code Hk] Ht.
  - transitivity ((topLevel <-?
        nextCases [ "TS" =>> (topLevel <-? while_ (specializations_step (demangleTypeImplWith fuel) (demangleContextWith fuel)) (createNode K_Global) ;;
                    b <- nextIfStr (lit "_T") ;;
                    ret (if (b : bool) then Some topLevel else None));
          "To" =>> ret (Some (nodeAddChild (createNode K_Global) (createNode K_ObjCAttribute)));
          "TO" =>> ret (Some (nodeAddChild (createNode K_Global) (createNode K_NonObjCAttribute)));
          "TD" =>> ret (Some (nodeAddChild (createNode K_Global) (createNode K_DynamicAttribute)));
          "Td" =>> ret (Some (nodeAddChild (createNode K_Global) (createNode K_DirectMethodReferenceAttribute)));
          "TV" =>> ret (Some (nodeAddChild (createNode K_Global) (createNode K_VTableAttribute))) ]
        (ret (Some (createNode K_Global))) ;;
       topLevel <-? demangleChild topLevel (demangleGlobal (demangleTypeImplWith fuel) (demangleContextWith fuel)) ;;
       e <- isEmpty ;;
       if (e : bool) then ret (Some topLevel)
       else rest <- getString ;; ret (Some (nodeAddChild topLevel (createNodeText K_Suffix rest)))) (reading t [])); [reflexivity|].
    unfold bind at 1. by rewrite (nextCases_other globalStart).
  - repeat destruct Hk as [[= <- <-]|Hk]; [reflexivity..|destruct Hk].
Qed.

Inductive suffixText : list Node -> str -> Prop :=
  | suffixText_none : suffixText [] []
  | suffixText_some text : text <> [] -> suffixText [createNodeText K_Suffix text] text.

Lemma read_suffix attribute body suffix text fuel t ns :
  suffixText suffix text ->
  demangleGlobal (demangleTypeImplWith fuel) (demangleContextWith fuel) (reading t []) = Ok (Some body, reading text ns) ->
  result (demangleBehind attribute fuel (reading t [])) = Ok (Some (symbolNode attribute body suffix)).
Proof.
  intros Hs H. unfold demangleBehind, demangleChild. rewrite bind_assoc, (bind_ok _ _ _ _ _ H).
  destruct Hs as [|text Hne]; [done|]. destruct text; [done|]. unfold bind, symbolNode. cbn. unfold nodeAddChild. cbn. by rewrite <- app_assoc.
Qed.

(** What the remangler writes around the symbol proper. *)
Lemma mangle_symbol f attribute body suffix atext stext t subs :
  attributeText attribute atext -> suffixText suffix stext ->
  mangleWithFuel (S f) body (mkOldRemangler (lit "_T" ++ atext) []) = Ok (tt, mkOldRemangler ((lit "_T" ++ atext) ++ t) subs) ->
  mangleWithFuel (S (S f)) (symbolNode attribute body suffix) (mkOldRemangler [] [])
  = Ok (tt, mkOldRemangler (lit "_T" ++ atext ++ t ++ stext) subs).
Proof.
  intros Ha Hs Hrun. rewrite <- app_assoc in Hrun.
  assert (mangleWithFuel (S (S f)) (symbolNode attribute body suffix) (mkOldRemangler [] [])
    = mangleNodes (mangleWithFuel (S f)) (attribute ++ body :: suffix) (mkOldRemangler (lit "_T") [])) as -> by done.
  assert (mangleNodes (mangleWithFuel (S f)) (attribute ++ body :: suffix) (mkOldRemangler (lit "_T") [])
    = mangleNodes (mangleWithFuel (S f)) (body :: suffix) (mkOldRemangler (lit "_T" ++ atext) [])) as ->.
  { destruct Ha as [|k code Hk]; [by rewrite app_nil_r|]. repeat destruct Hk as [[= <- <-]|Hk]; [reflexivity..|destruct Hk]. }
  cbn [mangleNodes]. rewrite (bind_ok _ _ _ _ _ Hrun). destruct Hs as [|text _].
  - by rewrite app_nil_r.
  - change (Ok (tt, mkOldRemangler ((lit "_T" ++ atext ++ t) ++ text) subs) = Ok (tt, mkOldRemangler (lit "_T" ++ atext ++ t ++ text) subs)).
    by rewrite <- !app_assoc.
Qed.

(** C3. A symbol of the old mangling is read back: for every tree of [oldSymbol]
    whose nodes have different hashes the remangler succeeds, with the fuel that
    [mangle_fuel] gives it, and the old demangler makes the same tree of what it
    has written, with the references to the substitutions resolved and the suffix
    in its place. *)
Theorem demangleOldSymbolAsNode_mangleNodeOld n :
  oldSymbol n -> collisionFree n -> Z.of_nat (length (subtrees n)) < 2 ^ 64 ->
  exists text, mangleNodeOld (Some n) = Ok text /\ demangleOldSymbolAsNode text = Ok (Some n).
Proof.
  intros Hn Hcoll Hsize. destruct Hn as [attribute body suffix Hattr Hbody Hsuffix].
  set (n := mkNode K_Global NoPayload (attribute ++ body :: suffix)) in *.
  assert (covered (subtrees n) body) as Hc.
  { intros m Hm. right. apply in_flat_map. exists body. split; [|done]. apply in_app_iff. right. by left. }
  assert (node_height body < node_height n)%nat as Hlt by (apply height_below, in_app_iff; right; by left).
  pose proof (height_pos body).
  destruct (mangle_fuel n) as [|[|f]] eqn:Ef; [unfold mangle_fuel in Ef; lia..|].
  assert (fits (node_height body) (S f) body) as Hf by (unfold fits, mangle_fuel in *; lia).
  assert (exists atext, attributeText attribute atext) as [atext Ha]
    by (destruct Hattr as [->|(k & code & Hk & ->)]; eexists; [apply attributeText_none|by apply attributeText_some]).
  assert (exists stext, suffixText suffix stext) as [stext Hs]
    by (destruct Hsuffix as [->|(stext & Hne & ->)]; eexists; [apply suffixText_none|by apply suffixText_some]).
  destruct (oldWrites_first _ _ _ _ _ _ (global_writes _ Hsize Hcoll _ _ _ Hc Hbody Hf) (lit "_T" ++ atext)) as (t & subs & Hrun & Ht & Hr).
  exists (lit "_T" ++ atext ++ t ++ stext). split.
  - unfold mangleNodeOld. rewrite Ef. unfold n. fold (symbolNode attribute body suffix).
    by rewrite (mangle_symbol _ _ _ _ _ _ _ _ Ha Hs Hrun).
  - unfold demangleOldSymbolAsNode. 
    rewrite (read_topLevel attribute) by (done || by apply starts_app).
    destruct (Hr (S (length (lit "_T" ++ atext ++ t ++ stext))) stext) as [ns Hread]; [rewrite !length_app; lia|].
    by eapply read_suffix.
Qed.

(** *** An example *)

Definition exampleModule : Node := createModule (lit "foo").
Definition exampleName (s : string) : Node := createNodeText K_Identifier (lit s).
Definition exampleClass : Node := mkNode K_Class NoPayload [exampleModule; exampleName "bar"].
Definition exampleArray : Node := mkNode K_Structure NoPayload [createModule STDLIB_NAME; exampleName "Array"].

(** [_TToFC3foo3bars3basFzT3zimS0__GSaS0__.resume] *)
Definition exampleSymbol : Node :=
  symbolNode [createNode K_ObjCAttribute]
    (mkNode K_Setter NoPayload
       [mkNode K_Variable NoPayload
          [exampleClass; exampleName "bas";
           asType (functionNode K_FunctionType true
             (mkNode K_Tuple NoPayload
                [mkNode K_TupleElement NoPayload [createNodeText K_TupleElementName (lit "zim"); asType exampleClass]])
             (mkNode K_BoundGenericStructure NoPayload [asType exampleArray; typeList [exampleClass]]))]])
    [createNodeText K_Suffix (lit ".resume")].

(** A name that is given. *)
Ltac name := by (split; [discriminate|split; vm_compute; reflexivity]).

Lemma exampleClass_old : oldNominal exampleClass.
Proof.
  eapply oldNominal_intro; [cbn; tauto|apply oldContext_module; name|apply declName_base, baseName_identifier; name|].
  intros H. discriminate H.
Qed.

Lemma exampleArray_old : oldNominal exampleArray.
Proof.
  eapply oldNominal_intro; [cbn; tauto|apply oldContext_module; name|apply declName_base, baseName_identifier; name|].
  intros _. by eexists.
Qed.

Lemma exampleSymbol_old : oldSymbol exampleSymbol.
Proof.
  apply oldSymbol_intro; [right; eexists _, _; split; [by left|done]| |].
  2:{ right. exists (lit ".resume"). split; [discriminate|reflexivity]. }
  apply oldGlobal_entity. eapply oldEntity_accessor;
    [cbn; tauto|apply oldContext_nominal, exampleClass_old|apply declName_base, baseName_identifier; name|intros [=]|].
  eapply (oldType_function _ "F"); [cbn; tauto| |].
  - apply oldType_tuple. repeat constructor; [discriminate|apply exampleClass_old].
  - apply (oldType_bound exampleArray [exampleClass]); [apply exampleArray_old| |done|].
    + split; [by left|left; by left].
    + constructor; [apply oldType_nominal, exampleClass_old|constructor].
Qed.

(** A test for [collisionFree]. *)
#[local] Instance Payload_eq_dec : EqDecision Payload.
Proof. solve_decision. Defined.

Fixpoint node_eqb (a b : Node) : bool :=
  match a, b with
  | mkNode k p cs, mkNode k' p' cs' =>
      Kind_eqb k k' && bool_decide (p = p')
      && (fix equal (cs cs' : list Node) : bool :=
            match cs, cs' with
            | [], [] => true
            | c :: cs, c' :: cs' => node_eqb c c' && equal cs cs'
            | _, _ => false
            end) cs cs'
  end.

Lemma node_eqb_eq a : forall b, node_eqb a b = true -> a = b.
Proof.
  induction a as [k p cs IH] using Node_tree_ind. intros [k' p' cs']. cbn [node_eqb]. rewrite !andb_true_iff.
  intros [[->%Kind_eqb_eq ->%bool_decide_eq_true] H]. f_equal. revert cs' H.
  induction IH as [|c cs Hc _ IHcs]; intros [|c' cs'] H; try done.
  apply andb_prop in H as [Hh Ht]. f_equal; auto.
Qed.

Definition hashesDiffer (n : Node) : bool :=
  forallb (fun a => forallb (fun b => implb (deepHash a =? deepHash b) (node_eqb a b)) (subtrees n)) (subtrees n).

Lemma hashesDiffer_spec n : hashesDiffer n = true -> collisionFree n.
Proof.
  intros H a b Ha Hb Heq. unfold hashesDiffer in H. rewrite forallb_forall in H. specialize (H a Ha).
  cbv beta in H. rewrite forallb_forall in H. specialize (H b Hb). cbv beta in H.
  apply Z.eqb_eq in Heq. rewrite Heq in H. by apply node_eqb_eq in H.
Qed.

Lemma demangleOldSymbolAsNode_mangleNodeOld_witness :
  oldSymbol exampleSymbol /\ hashesDiffer exampleSymbol = true
  /\ exists text, mangleNodeOld (Some exampleSymbol) = Ok text /\ demangleOldSymbolAsNode text = Ok (Some exampleSymbol).
Proof.
  split; [exact exampleSymbol_old|]. split; [vm_compute; reflexivity|].
  apply (demangleOldSymbolAsNode_mangleNodeOld exampleSymbol);
    [exact exampleSymbol_old|apply hashesDiffer_spec; vm_compute; reflexivity|vm_compute; reflexivity].
Defined.
