(* ===== verification/OldConformance.v ===== *)
(** * The old names of the demangler's tests, remangled

    Which of the names in the mangling of Swift 3 that [Conformance] lists the old
    remangler writes so that the old demangler reads the same tree. *)

From Stdlib Require Import String.
From S2P Require Import Prelude Nodes ManglingUtils Remangler RemanglerSpecs OldDemangler OldRemangler Conformance.

Definition isOldName (name : str) : bool := startswith name (lit "_T") && negb (startswith name (lit "_T0")).

Definition demangles (name : str) : bool := match demangleOldSymbolAsNode name with Ok (Some _) => true | _ => false end.
Definition oldNames : list str :=
  List.filter (fun name => isOldName name && demangles name) (map fst (manglings ++ simplified_manglings)).

(** The tree that the demangler reads in what the remangler writes for a name's. *)
Definition reread (name : str) : outcome NodePointer :=
  match demangleOldSymbolAsNode name with
  | Ok node =>
      match mangleNodeOld node with
      | Ok text => demangleOldSymbolAsNode text
      | Crash c => Crash c
      end
  | Crash c => Crash c
  end.

Definition rereads (name : str) : bool :=
  match reread name, demangleOldSymbolAsNode name with
  | Ok (Some n), Ok (Some n') => Remangler.deepEquals n n'
  | _, _ => false
  end.

Lemma rereads_spec name : rereads name = true -> reread name = demangleOldSymbolAsNode name.
Proof.
  unfold rereads. destruct (reread name) as [[n|]|c]; [|done..].
  destruct (demangleOldSymbolAsNode name) as [[n'|]|c']; [|done..]. by intros ->%deepEquals_eq.
Qed.

(** Of the 369 names of the tests in the old mangling that demangle, all but two are remangled
    to a name with the same tree, if not to themselves: an identifier that was in
    Punycode is written in UTF-8, which the demangler reads as well. The two are
    the type [Builtin.SILToken], for which the remangler has no code, and a type
    alias, whose module it writes with the [M] of a module that is a type. *)
Theorem mangleNodeOld_conforms :
  length oldNames = 369%nat /\
  Forall (fun name => reread name = demangleOldSymbolAsNode name)
    (List.filter (fun name => negb (str_eqb name (lit "_TtBt") || str_eqb name (lit "_Tta1t5Alias"))) oldNames) /\
  reread (lit "_TtBt") = Crash (Unreachable "unexpected builtin type") /\
  reread (lit "_Tta1t5Alias") = Ok None.
Proof.
  split; [vm_compute; reflexivity|]. split; [|by split; vm_compute].
  apply List.Forall_forall. intros name Hin. apply rereads_spec. revert name Hin.
  apply forallb_forall. vm_compute. reflexivity.
Qed.
