(* ===== verification/NodeFactory.v ===== *)
(** * The node factory

    The bump allocator [NodeFactory] of Demangler.h and Demangler.cpp, and the
    containers in its memory: the template [Vector], [CharVector] and the
    children of a [Node]. Addresses and sizes are numbers of 64 bits, which wrap
    around; the slabs come from [malloc], which is a parameter and may return null. The other files have values and lists in
    place of these; [NodeFactoryRefinement.v] shows why they may. *)

From Stdlib Require Import String.
From stdpp Require Import gmap.
From S2P Require Import Prelude Nodes ManglingUtils.

(** ** Memory *)

(** An address holds a value of a size in bytes. *)
Abbreviation Memory := (gmap Z (Z * Z)).

(** Two ranges of bytes that do not overlap. *)
Definition apart (a n b m : Z) : bool := (a + n <=? b) || (b + m <=? a).

(** What overlaps with the bytes that are written is lost. *)
Definition erase (a n : Z) (m : Memory) : Memory :=
  filter (fun cell => apart a n cell.1 cell.2.1 = true) m.

Definition poke (a n value : Z) (m : Memory) : Memory := <[a := (n, value)]> (erase a n m).

(** ** The factory *)

(** [CurrentSlab] and its predecessors, each with its address and its size. *)
Record NodeFactory := mkFactory {
  CurPtr : Z;
  End_ : Z;
  Slabs : list (Z * Z);
  SlabSize : Z;
  memory : Memory
}.

Abbreviation FM := (M NodeFactory).

(** [sizeof(Node)] and [sizeof(Slab)] on a machine with pointers of eight bytes. *)
Definition sizeof_Node : Z := 48.
Definition sizeof_Slab : Z := 8.
Definition sizeof_pointer : Z := 8.

Definition newFactory : NodeFactory := mkFactory 0 0 [] (100 * sizeof_Node) ∅.

(** [malloc(size)], given the blocks that are in use. *)
Class Malloc := malloc : list (Z * Z) -> Z -> Z.

(** The memory of a process is the lower part of the address space: its end on
    x86-64, where it is the highest. *)
Definition UserSpace : Z := 2 ^ 56.

(** It returns null, or memory of the process that is not in use. *)
Class MallocOk `{Malloc} : Prop := malloc_ok : forall blocks size,
  0 < size -> malloc blocks size = 0 \/
  0 < malloc blocks size /\ malloc blocks size + size <= UserSpace /\
  Forall (fun block => apart (malloc blocks size) size block.1 block.2 = true) blocks.

(** [align(Ptr, Alignment)], on [uintptr_t]. *)
Definition align (Ptr Alignment : Z) : Z := Z.land (wrap_u64 (Ptr + Alignment - 1)) (Z.lnot (Alignment - 1)).

Definition setMemory (m : Memory) (f : NodeFactory) : NodeFactory :=
  mkFactory (CurPtr f) (End_ f) (Slabs f) (SlabSize f) m.

Definition setCurPtr (p : Z) (f : NodeFactory) : NodeFactory :=
  mkFactory p (End_ f) (Slabs f) (SlabSize f) (memory f).

(** Reading a value of a size, which must have been written with it. *)
Definition load (a n : Z) : FM Z := fun f =>
  match memory f !! a with
  | Some (n', value) => if n' =? n then Ok (value, f) else Crash (OutOfRange "uninitialized")
  | None => Crash (OutOfRange "uninitialized")
  end.

Definition store (a n value : Z) : FM unit := modify (fun f => setMemory (poke a n value (memory f)) f).

Section factory.
Context `{Malloc}.

(** The part of [Allocate] that gets another slab: the pointer that [malloc] returns is
    dereferenced at once. *)
Definition newSlab (ObjectSize Alignment : Z) : FM unit :=
  f <- get ;;
  let SlabSize := Z.max (wrap_u64 (SlabSize f * 2)) (wrap_u64 (ObjectSize + Alignment)) in
  let AllocSize := wrap_u64 (sizeof_Slab + SlabSize) in
  let slab := malloc (Slabs f) AllocSize in
  if slab =? 0 then fail (NullPointer "newSlab->Previous")
  else
    _ <- modify (fun f =>
           mkFactory (align (slab + sizeof_Slab) Alignment) (slab + AllocSize) ((slab, AllocSize) :: Slabs f)
             SlabSize (memory f)) ;;
    f <- get ;;
    assert "NodeFactory::Allocate" (wrap_u64 (CurPtr f + ObjectSize) <=? End_ f).

(** [Allocate<T>(NumObjects)], with [sizeof(T)] and [alignof(T)]. *)
Definition Allocate (size Alignment NumObjects : Z) : FM Z :=
  let ObjectSize := wrap_u64 (NumObjects * size) in
  _ <- modify (fun f => setCurPtr (align (CurPtr f) Alignment) f) ;;
  f <- get ;;
  _ <- when (End_ f <? wrap_u64 (CurPtr f + ObjectSize)) (newSlab ObjectSize Alignment) ;;
  AllocatedObj <- gets CurPtr ;;
  _ <- modify (fun f => setCurPtr (wrap_u64 (CurPtr f + ObjectSize)) f) ;;
  ret AllocatedObj.

(** [memcpy] of [n] objects from the [i]-th on. *)
Fixpoint copyObjects (size to from : Z) (i : nat) (m : Memory) : Memory :=
  match i with
  | O => m
  | S i =>
      let m := copyObjects size to from i m in
      let dest := to + Z.of_nat i * size in
      match m !! (from + Z.of_nat i * size) with
      | Some (n, value) => if n =? size then poke dest size value m else erase dest size m
      | None => erase dest size m
      end
  end.

(** [Reallocate(Objects, Capacity, MinGrowth)]: the new [Objects] and [Capacity]. *)
Definition Reallocate (size Objects Capacity MinGrowth : Z) : FM (Z * Z) :=
  let OldAllocSize := wrap_u64 (Capacity * size) in
  let AdditionalAlloc := wrap_u64 (MinGrowth * size) in
  f <- get ;;
  if (wrap_u64 (Objects + OldAllocSize) =? CurPtr f) && (wrap_u64 (CurPtr f + AdditionalAlloc) <=? End_ f) then
    _ <- modify (setCurPtr (wrap_u64 (CurPtr f + AdditionalAlloc))) ;;
    ret (Objects, wrap_u64 (Capacity + MinGrowth))
  else
    let Growth := if 4 <=? MinGrowth then MinGrowth else 4 in
    let Growth := if Growth <? wrap_u64 (Capacity * 2) then wrap_u64 (Capacity * 2) else Growth in
    NewObjects <- Allocate size size (wrap_u64 (Capacity + Growth)) ;;
    _ <- modify (fun f =>
           setMemory (copyObjects size NewObjects Objects (Z.to_nat (OldAllocSize / size)) (memory f)) f) ;;
    ret (NewObjects, wrap_u64 (Capacity + Growth)).

(** [clear()]: the last slab is used again, the others are freed. *)
Definition clearFactory : FM unit :=
  f <- get ;;
  match Slabs f with
  | [] => ret tt
  | (slab, size) :: _ =>
      _ <- modify (fun f => mkFactory (slab + sizeof_Slab) (End_ f) [(slab, size)] (SlabSize f) (memory f)) ;;
      f <- get ;;
      assert "NodeFactory::clear" (End_ f =? CurPtr f + SlabSize f)
  end.

(** ** Vectors

    [Vector<T>], for objects of a size that is also their alignment. The children
    of a [Node] ([Children], [NumChildren] and [ReservedChildren]) are the same
    three fields. *)
Record Vector := mkVector {
  Elems : Z;
  NumElems : Z;
  Capacity : Z
}.

Definition emptyVector : Vector := mkVector 0 0 0.

Section vector.
Variable size : Z.

Definition initVector (InitialCapacity : Z) : FM Vector :=
  Elems <- Allocate size size InitialCapacity ;; ret (mkVector Elems 0 InitialCapacity).

(** [free()]: [NumElems] stays as it is until the next [init]. *)
Definition freeVector (v : Vector) : Vector := mkVector 0 (NumElems v) 0.

(** [operator[]] *)
Definition at_ (v : Vector) (Idx : Z) : FM Z :=
  _ <- assert "Vector::operator[]" (Idx <? NumElems v) ;;
  load (Elems v + Idx * size) size.

(** The growth of a full vector. *)
Definition grow (v : Vector) (MinGrowth : Z) : FM Vector :=
  r <- Reallocate size (Elems v) (Capacity v) MinGrowth ;;
  ret (mkVector r.1 (NumElems v) r.2).

Definition push_back (v : Vector) (NewElem : Z) : FM Vector :=
  v <- (if Capacity v <=? NumElems v then grow v 1 else ret v) ;;
  _ <- assert "Vector::push_back" (NumElems v <? Capacity v) ;;
  _ <- store (Elems v + NumElems v * size) size NewElem ;;
  ret (mkVector (Elems v) (wrap_u64 (NumElems v + 1)) (Capacity v)).

(** [pop_back_val()]: [T()] when there is nothing. *)
Definition pop_back_val (v : Vector) : FM (Z * Vector) :=
  if NumElems v =? 0 then ret (0, v)
  else
    Val <- at_ v (NumElems v - 1) ;;
    ret (Val, mkVector (Elems v) (NumElems v - 1) (Capacity v)).
End vector.

(** ** Strings *)

(** The characters one after the other, as [memcpy] puts them. *)
Fixpoint storeChars (a : Z) (text : str) : FM unit :=
  match text with
  | [] => ret tt
  | c :: text => _ <- store a 1 (ord c) ;; storeChars (a + 1) text
  end.

(** [CharVector::append(StringRef)] *)
Definition appendString (v : Vector) (Rhs : str) : FM Vector :=
  let n := Z.of_nat (length Rhs) in
  v <- (if Capacity v <? wrap_u64 (NumElems v + n) then grow 1 v n else ret v) ;;
  _ <- storeChars (Elems v + NumElems v) Rhs ;;
  let v := mkVector (Elems v) (wrap_u64 (NumElems v + n)) (Capacity v) in
  _ <- assert "CharVector::append" (NumElems v <=? Capacity v) ;;
  ret v.

Definition MaxIntPrintSize : Z := 8.

(** [CharVector::append(int)]: [snprintf] writes what fits, and a null character
    behind it; its result is the length of the whole number. *)
Definition appendNumber (v : Vector) (Number : Z) : FM Vector :=
  v <- (if Capacity v <? wrap_u64 (NumElems v + MaxIntPrintSize) then grow 1 v MaxIntPrintSize else ret v) ;;
  let text := decimal_signed Number in
  _ <- storeChars (Elems v + NumElems v) (take (Z.to_nat (MaxIntPrintSize - 1)) text ++ [NUL]) ;;
  let Length := Z.of_nat (length text) in
  _ <- assert "CharVector::append(int)" ((0 <? Length) && (Length <? MaxIntPrintSize)) ;;
  ret (mkVector (Elems v) (wrap_u64 (NumElems v + Length)) (Capacity v)).

(** ** The children of a node *)

(** [Node::addChild]: a child is an address, and not null. *)
Definition addChildAt (v : Vector) (Child : Z) : FM Vector :=
  _ <- assert "Node::addChild" (negb (Child =? 0)) ;;
  push_back sizeof_pointer v Child.

(** The loop of [removeChildAt]: [i] is the next child, [Index] the number of
    those that are kept. *)
Fixpoint keepChildren (from to Pos : Z) (n : nat) (i Index : Z) : FM unit :=
  match n with
  | O => ret tt
  | S n =>
      Child <- load (from + i * sizeof_pointer) sizeof_pointer ;;
      if negb (i =? Pos) then
        _ <- store (to + Index * sizeof_pointer) sizeof_pointer Child ;;
        keepChildren from to Pos n (i + 1) (Index + 1)
      else keepChildren from to Pos n (i + 1) Index
  end.

(** [Node::removeChildAt]: [ReservedChildren] stays as it is. *)
Definition removeChildAtIn (v : Vector) (Pos : Z) : FM Vector :=
  _ <- assert "Node::removeChildAt" (Pos <? NumElems v) ;;
  NewChildren <- Allocate sizeof_pointer sizeof_pointer (NumElems v - 1) ;;
  _ <- keepChildren (Elems v) NewChildren Pos (Z.to_nat (NumElems v)) 0 0 ;;
  ret (mkVector NewChildren (NumElems v - 1) (Capacity v)).

Fixpoint loadChildren (a : Z) (n : nat) : FM (list Z) :=
  match n with
  | O => ret []
  | S n =>
      Child <- load a sizeof_pointer ;;
      Children <- loadChildren (a + sizeof_pointer) n ;;
      ret (Child :: Children)
  end.

Fixpoint storeChildren (a : Z) (Children : list Z) : FM unit :=
  match Children with
  | [] => ret tt
  | Child :: Children =>
      _ <- store a sizeof_pointer Child ;; storeChildren (a + sizeof_pointer) Children
  end.

(** [Node::reverseChildren]: [std::reverse] of the children from the [StartingAt]-th on. *)
Definition reverseChildrenIn (v : Vector) (StartingAt : Z) : FM unit :=
  _ <- assert "Node::reverseChildren" (StartingAt <=? NumElems v) ;;
  let first := Elems v + StartingAt * sizeof_pointer in
  Children <- loadChildren first (Z.to_nat (NumElems v - StartingAt)) ;;
  storeChildren first (rev Children).

(** The memory of a node ([createNode]); its constructor leaves it without children. *)
Definition createNodeAt : FM Z := Allocate sizeof_Node sizeof_pointer 1.
End factory.
