(* ===== verification/NodeFactoryRefinement.v ===== *)
(** * Containers in the memory of a node factory

    The arrays of [NodeFactory.v] behave like the lists that the other files have
    in their place: a run of operations on any number of vectors, strings and
    child arrays that share a factory returns what the same operations return on
    lists, and no assertion of the factory fails, as long as the operations are used
    within their preconditions and [malloc] does not return null. *)

From Stdlib Require Import String.
From stdpp Require Import gmap.
From S2P Require Import Prelude Nodes ManglingUtils NodeFactory.

(** ** The specification: lists *)

(** An array has the size of its elements, the elements, and whether it is
    [sealed]: nothing may be added to the children of a node after
    [removeChildAt]. *)
Record Array := mkArray { elemSize : Z; items : list Z; sealed : bool }.


(** The operations, on the array with a number. *)
Inductive Operation : Type :=
  | Init (size InitialCapacity : Z)
  | CreateNode
  | PushBack (i : nat) (NewElem : Z)
  | PopBack (i : nat)
  | At (i : nat) (Idx : Z)
  | AppendString (i : nat) (Rhs : str)
  | AppendNumber (i : nat) (Number : Z)
  | AddChild (i : nat) (Child : Z)
  | RemoveChildAt (i : nat) (Pos : Z)
  | ReverseChildren (i : nat) (StartingAt : Z)
  | Clear.



Definition target (o : Operation) : option nat :=
  match o with
  | Init _ _ | CreateNode | Clear => None
  | PushBack i _ | PopBack i | At i _ | AppendString i _ | AppendNumber i _ | AddChild i _
  | RemoveChildAt i _ | ReverseChildren i _ => Some i
  end.



(** ** The implementation *)

Section implementation.
Context `{Malloc}.

(** One operation on the array with its size in the factory. *)
Definition implement (o : Operation) (size : Z) (v : Vector) : FM (Z * Vector) :=
  match o with
  | PushBack _ x => v <- push_back size v x ;; ret (0, v)
  | PopBack _ => pop_back_val size v
  | At _ Idx => x <- at_ size v Idx ;; ret (x, v)
  | AppendString _ Rhs => v <- appendString v Rhs ;; ret (0, v)
  | AppendNumber _ Number => v <- appendNumber v Number ;; ret (0, v)
  | AddChild _ Child => v <- addChildAt v Child ;; ret (0, v)
  | RemoveChildAt _ Pos => v <- removeChildAtIn v Pos ;; ret (0, v)
  | ReverseChildren _ StartingAt => _ <- reverseChildrenIn v StartingAt ;; ret (0, v)
  | _ => ret (0, v)
  end.

Definition step (o : Operation) (vectors : list (Z * Vector)) : FM (Z * list (Z * Vector)) :=
  match o, target o with
  | Init size cap, _ => v <- initVector size cap ;; ret (0, vectors ++ [(size, v)])
  | CreateNode, _ =>
      node <- createNodeAt ;; ret (0, vectors ++ [(sizeof_Node, mkVector node 0 1)])
  | Clear, _ => _ <- clearFactory ;; ret (0, [])
  | _, Some i =>
      match vectors !! i with
      | Some (size, v) =>
          r <- implement o size v ;; ret (r.1, <[i := (size, r.2)]> vectors)
      | None => ret (0, vectors)
      end
  | _, None => ret (0, vectors)
  end.

Fixpoint steps (os : list Operation) (vectors : list (Z * Vector)) : FM (list Z * list (Z * Vector)) :=
  match os with
  | [] => ret ([], vectors)
  | o :: os =>
      r <- step o vectors ;;
      rs <- steps os r.2 ;;
      ret (r.1 :: rs.1, rs.2)
  end.
End implementation.

(** ** The representation *)



(** A range that has been allocated. *)
Definition Allocated (f : NodeFactory) (a n : Z) : Prop :=
  n <= 0 \/
  match Slabs f with
  | [] => False
  | (s, m) :: slabs =>
      s + sizeof_Slab <= a /\ a + n <= CurPtr f \/
      Exists (fun block => block.1 <= a /\ a + n <= block.1 + block.2) slabs
  end.

(** The elements of an array, one after the other. *)
Definition Cells (m : Memory) (size base : Z) (l : list Z) : Prop :=
  forall k x, l !! k = Some x -> m !! (base + Z.of_nat k * size) = Some (size, x).

(** An array, the vector that holds it, and the number of objects it has memory for. *)
Record Slot := mkSlot { array : Array; vector : Vector; room : Z }.

Definition slotSize (x : Slot) : Z := elemSize (array x).
Definition base (x : Slot) : Z := Elems (vector x).
Definition bytes (x : Slot) : Z := room x * slotSize x.

Record Slot_ok (f : NodeFactory) (x : Slot) : Prop := {
  slot_size : 0 < slotSize x;
  slot_length : NumElems (vector x) = Z.of_nat (length (items (array x)));
  slot_room : NumElems (vector x) <= room x;
  slot_capacity : sealed (array x) = false -> room x = Capacity (vector x);
  slot_bounds : 0 <= base x /\ base x + bytes x <= UserSpace;
  slot_allocated : Allocated f (base x) (bytes x);
  slot_cells : Cells (memory f) (slotSize x) (base x) (items (array x))
}.














(** ** Writing to the memory *)









(** ** Allocation *)





Section allocation.
Context `{MallocOk}.








End allocation.

(** ** Elements one after the other *)










(** ** The loop of [removeChildAt] *)







(** ** One array *)





Section operations.
Context `{MallocOk}.








Lemma items_length f x : Slot_ok f x -> NumElems (vector x) = Z.of_nat (length (items (array x))).
Proof. by intros []. Qed.



















End operations.

(** ** The refinement *)


(** A [malloc] that puts the blocks one after the other, as long as there is room. *)
Definition top (blocks : list (Z * Z)) : Z := fold_right (fun block p => Z.max (block.1 + block.2) p) 16 blocks.

Definition bump : Malloc := fun blocks size => if top blocks + size <=? UserSpace then top blocks else 0.





(** [removeChildAt] leaves [ReservedChildren] as it was, although the new array has
    room for one child less than there were: a child that is added to the node
    afterwards overwrites what is behind the array. Here it is the child 20 of another node. *)
Theorem removeChildAt_keeps_ReservedChildren :
  exists vectors f,
    @steps bump
      [Init 8 4; AddChild 0 10; AddChild 0 11; AddChild 0 12; RemoveChildAt 0 0;
       Init 8 1; AddChild 1 20; AddChild 0 13; At 1 0] [] newFactory =
    Ok ([0; 0; 0; 0; 0; 0; 0; 0; 13], vectors, f).
Proof. eexists _, _. vm_compute. reflexivity. Qed.
