(* ===== verification/TypeDecoder.v ===== *)
(** * The type decoder

    TypeDecoder.h and TypeDecoder.cpp: a demangling tree is turned into a type by
    calling a builder, the template parameter [BuilderType]. The builder is the
    class [TypeBuilder] here, with a state of its own; [TypeRefBuilder.v] has the one of
    the reflection library.

    A null [BuiltType], [BuiltNominalTypeDecl] or [BuiltProtocolDecl] is [None]. The
    member functions call one another on lower nodes through [decodeMangledType]:
    it is a variable of the section, and tied with the height of the tree as fuel
    at its end. *)

From Stdlib Require Import String.
From S2P Require Import Prelude Nodes ManglingUtils Remangler OldDemangler DemanglingContext.

(** ** Flags (MetadataValues.h) *)

(** [FunctionMetadataConvention] is a [uint8_t]. *)
Definition Convention_Swift : Z := 0.
Definition Convention_Block : Z := 1.
Definition Convention_Thin : Z := 2.
Definition Convention_CFunctionPointer : Z := 3.

(** [FunctionTypeFlags]: its [Data] is a [size_t]. *)
Module FunctionTypeFlags.
Definition NumParametersMask : Z := 0x0000FFFF.
Definition ConventionMask : Z := 0x00FF0000.
Definition ConventionShift : Z := 16.
Definition ThrowsMask : Z := 0x01000000.
Definition ParamFlagsMask : Z := 0x02000000.

(** [(Data & ~mask) | bits] *)
Definition replace (Data mask bits : Z) : Z := Z.lor (Z.land Data (Z.lnot mask)) bits.

Definition withNumParameters (Data : Z) (numParams : Z) : Z := replace Data NumParametersMask numParams.
Definition withConvention (Data : Z) (c : Z) : Z := replace Data ConventionMask (Z.shiftl c ConventionShift).
Definition withThrows (Data : Z) (throws : bool) : Z := replace Data ThrowsMask (if throws then ThrowsMask else 0).
Definition withParameterFlags (Data : Z) (hasFlags : bool) : Z :=
  replace Data ParamFlagsMask (if hasFlags then ParamFlagsMask else 0).

Definition getNumParameters (Data : Z) : Z := wrap_u32 (Z.land Data NumParametersMask).
Definition getConvention (Data : Z) : Z := Z.shiftr (Z.land Data ConventionMask) ConventionShift.
Definition throws (Data : Z) : bool := negb (Z.land Data ThrowsMask =? 0).
Definition hasParameterFlags (Data : Z) : bool := negb (Z.land Data ParamFlagsMask =? 0).
End FunctionTypeFlags.

(** [ParameterFlags]: its [Data] is a [uint32_t]. *)
Module ParameterFlags.
Definition InOutMask : Z := 1.
Definition SharedMask : Z := 2.
Definition VariadicMask : Z := 4.

Definition withFlag (Data mask : Z) (flag : bool) : Z :=
  FunctionTypeFlags.replace Data mask (if flag then mask else 0).
Definition withInOut (Data : Z) (isInOut : bool) : Z := withFlag Data InOutMask isInOut.
Definition withShared (Data : Z) (isShared : bool) : Z := withFlag Data SharedMask isShared.
Definition withVariadic (Data : Z) (isVariadic : bool) : Z := withFlag Data VariadicMask isVariadic.

Definition isNone (Data : Z) : bool := Data =? 0.
Definition isInOut (Data : Z) : bool := negb (Z.land Data InOutMask =? 0).
Definition isShared (Data : Z) : bool := negb (Z.land Data SharedMask =? 0).
Definition isVariadic (Data : Z) : bool := negb (Z.land Data VariadicMask =? 0).
End ParameterFlags.

(** ** Parameters of functions *)

Record FunctionParam (T : Type) : Type := mkParam { Label : str; Type_ : T; Flags : Z }.
Arguments mkParam {T}.
Arguments Label {T}.
Arguments Type_ {T}.
Arguments Flags {T}.

Section params.
Context {T : Type}.
Definition setLabel (param : FunctionParam T) (label : str) : FunctionParam T :=
  mkParam label (Type_ param) (Flags param).
Definition setType (param : FunctionParam T) (type : T) : FunctionParam T :=
  mkParam (Label param) type (Flags param).
Definition setVariadic (param : FunctionParam T) : FunctionParam T :=
  mkParam (Label param) (Type_ param) (ParameterFlags.withVariadic (Flags param) true).
Definition setShared (param : FunctionParam T) : FunctionParam T :=
  mkParam (Label param) (Type_ param) (ParameterFlags.withShared (Flags param) true).
Definition setInOut (param : FunctionParam T) : FunctionParam T :=
  mkParam (Label param) (Type_ param) (ParameterFlags.withInOut (Flags param) true).
Definition withType {T'} (param : FunctionParam T) (type : T') : FunctionParam T' :=
  mkParam (Label param) type (Flags param).
End params.

(** ** Contexts without their generic arguments *)

Definition isBoundGenericKind (kind : Kind) : bool :=
  match kind with
  | K_BoundGenericClass | K_BoundGenericEnum | K_BoundGenericStructure => true
  | _ => false
  end.

Definition isNominalKind (kind : Kind) : bool :=
  match kind with K_Class | K_Enum | K_Structure => true | _ => false end.

(** [stripGenericArgsFromContextNode(node, factory)], which returns the pointer it
    was given when there is nothing to strip: [None]. *)
Fixpoint strippedContext (node : Node) : NodePointer :=
  match node with
  | mkNode kind _ cs =>
      if isBoundGenericKind kind then
        match cs with
        | mkNode K_Type _ (inner :: _) :: _ :: _ =>
            Some (match strippedContext inner with Some stripped => stripped | None => inner end)
        | _ => None
        end
      else if isNominalKind kind then
        match cs with
        | context :: ((_ :: _) as rest) =>
            match strippedContext context with
            | Some newContext => Some (mkNode kind NoPayload (newContext :: rest))
            | None => None
            end
        | _ => None
        end
      else None
  end.

Definition stripGenericArgsFromContextNode (node : Node) : Node :=
  match strippedContext node with Some stripped => stripped | None => node end.

(** ** The builder *)

Class TypeBuilder (S : Type) : Type := {
  BuiltType : Type;
  BuiltNominalTypeDecl : Type;
  BuiltProtocolDecl : Type;
  createNominalTypeDecl : Node -> M S (option BuiltNominalTypeDecl);
  createProtocolDecl : Node -> M S (option BuiltProtocolDecl);
  createNominalType : BuiltNominalTypeDecl -> option BuiltType -> M S (option BuiltType);
  createBoundGenericType : BuiltNominalTypeDecl -> list BuiltType -> option BuiltType -> M S (option BuiltType);
  createBuiltinType : str -> M S (option BuiltType);
  createMetatypeType : BuiltType -> bool -> M S (option BuiltType);
  createExistentialMetatypeType : BuiltType -> M S (option BuiltType);
  createProtocolCompositionType : list BuiltProtocolDecl -> option BuiltType -> bool -> M S (option BuiltType);
  createGenericTypeParameterType : Z -> Z -> M S (option BuiltType);
  createFunctionType : list (FunctionParam BuiltType) -> option BuiltType -> Z -> M S (option BuiltType);
  createTupleType : list BuiltType -> str -> bool -> M S (option BuiltType);
  createDependentMemberType : str -> BuiltType -> BuiltProtocolDecl -> M S (option BuiltType);
  createUnownedStorageType : BuiltType -> M S (option BuiltType);
  createUnmanagedStorageType : BuiltType -> M S (option BuiltType);
  createWeakStorageType : BuiltType -> M S (option BuiltType);
  createSILBoxType : BuiltType -> M S (option BuiltType)
}.

(** [f] on each in turn, until one returns null. *)
Section forEach.
Context {S A B : Type}.
Variable f : A -> M S (option B).
Fixpoint forEach (l : list A) : M S (option (list B)) :=
  match l with
  | [] => ret (Some [])
  | a :: l => b <-? f a ;; bs <-? forEach l ;; ret (Some (b :: bs))
  end.

(** A loop over the children of a node, with what it changes. *)
Context {St : Type}.
Variable step : St -> A -> M S (option St).
Fixpoint forChildren (st : St) (l : list A) : M S (option St) :=
  match l with
  | [] => ret (Some st)
  | a :: l => st <-? step st a ;; forChildren st l
  end.
End forEach.

Section decoder.
Context {S : Type} `{!TypeBuilder S}.
Abbreviation BM := (M S).
Abbreviation Built := (option BuiltType).

(** ** Protocols *)

Fixpoint decodeMangledProtocolType (node : Node) : BM (option BuiltProtocolDecl) :=
  match node with
  | mkNode kind _ cs =>
      if Kind_eqb kind K_Type then
        match cs with
        | c :: _ => decodeMangledProtocolType c
        | [] => fail (AssertionFailed "Node::getChild")
        end
      else if (getNumChildren node <? 2)%nat || negb (Kind_eqb kind K_Protocol) then ret None
      else createProtocolDecl node
  end.

(** The recursive calls. *)
Variable decodeMangledType : Node -> BM Built.

(** [if (Node->getNumChildren() < 1) return BuiltType();] and the first child. *)
Definition decodeFirst (node : Node) : BM Built :=
  if (getNumChildren node <? 1)%nat then ret None else c <- getChild node 0 ;; decodeMangledType c.

(** ** Nominal types *)

(** The declaration and its parent, which are the reference parameters. *)
Fixpoint decodeMangledNominalType (node : Node) : BM (option (BuiltNominalTypeDecl * Built)) :=
  match node with
  | mkNode kind _ cs =>
      if Kind_eqb kind K_Type then
        match cs with
        | c :: _ => decodeMangledNominalType c
        | [] => fail (AssertionFailed "Node::getChild")
        end
      else if (getNumChildren node <? 2)%nat then ret None
      else
        moduleOrParentType <- getChild node 0 ;;
        if Kind_eqb (getKind moduleOrParentType) K_Module then
          typeDecl <-? createNominalTypeDecl node ;; ret (Some (typeDecl, None))
        else
          parent <-? decodeMangledType moduleOrParentType ;;
          typeDecl <-? createNominalTypeDecl (stripGenericArgsFromContextNode node) ;;
          ret (Some (typeDecl, Some parent))
  end.

Definition decodeNominal (node : Node) : BM Built :=
  decl <-? decodeMangledNominalType node ;;
  let '(typeDecl, parent) := decl in createNominalType typeDecl parent.

Definition decodeBoundGeneric (node : Node) : BM Built :=
  if negb (getNumChildren node =? 2)%nat then ret None
  else
    c <- getChild node 0 ;;
    decl <-? decodeMangledNominalType c ;;
    let '(typeDecl, parent) := decl in
    genericArgs <- getChild node 1 ;;
    _ <- assert "decodeMangledType: TypeList" (Kind_eqb (getKind genericArgs) K_TypeList) ;;
    args <-? forEach decodeMangledType (children genericArgs) ;;
    createBoundGenericType typeDecl args parent.

(** ** Metatypes and compositions *)

Definition decodeMetatype (node : Node) : BM Built :=
  let instanceOf i wasAbstract :=
    c <- getChild node i ;;
    instance <-? decodeMangledType c ;;
    if Kind_eqb (getKind node) K_Metatype then createMetatypeType instance wasAbstract
    else createExistentialMetatypeType instance in
  if (getNumChildren node =? 2)%nat then
    repr <- getChild node 0 ;;
    if negb (Kind_eqb (getKind repr) K_MetatypeRepresentation) || negb (hasText repr) then ret None
    else text <- getText repr ;; instanceOf 1%nat (negb (str_eqb text (lit "@thin")))
  else if (getNumChildren node <? 1)%nat then ret None
  else instanceOf 0%nat false.

Definition decodeProtocolList (node : Node) : BM Built :=
  if (getNumChildren node <? 1)%nat then ret None
  else
    list <- getChild node 0 ;;
    TypeList <- (if Kind_eqb (getKind list) K_ProtocolList && (1 <=? getNumChildren list)%nat then getChild list 0
                 else ret list) ;;
    Protocols <-? forEach decodeMangledProtocolType (children TypeList) ;;
    if Kind_eqb (getKind node) K_ProtocolListWithClass then
      if (getNumChildren node <? 2)%nat then ret None
      else
        superclassNode <- getChild node 1 ;;
        Superclass <-? decodeMangledType superclassNode ;;
        createProtocolCompositionType Protocols (Some Superclass) true
    else createProtocolCompositionType Protocols None (Kind_eqb (getKind node) K_ProtocolListWithAnyObject).

Definition decodeProtocol (node : Node) : BM Built :=
  Proto <-? decodeMangledProtocolType node ;; createProtocolCompositionType [Proto] None false.

(** ** Functions *)

(** A parameter whose type may not be set yet. *)
Abbreviation Param := (FunctionParam Built).

(** The lambda [decodeParamTypeAndFlags], with [hasParamFlags]. *)
Definition decodeParamTypeAndFlags (typeNode : Node) (param : Param) (hasParamFlags : bool) : BM (option (Param * bool)) :=
  let typeOf node param hasParamFlags :=
    paramType <-? decodeMangledType node ;; ret (Some (setType param (Some paramType), hasParamFlags)) in
  match getKind typeNode with
  | K_InOut => node <- getFirstChild typeNode ;; typeOf node (setInOut param) true
  | K_Shared => node <- getFirstChild typeNode ;; typeOf node (setShared param) true
  | _ => typeOf typeNode param hasParamFlags
  end.

(** One child of a [TupleElement]. *)
Definition decodeParam_step (st : Param * bool) (child : Node) : BM (option (Param * bool)) :=
  let '(param, hasParamFlags) := st in
  match getKind child with
  | K_TupleElementName => label <- getText child ;; ret (Some (setLabel param label, hasParamFlags))
  | K_VariadicMarker => ret (Some (setVariadic param, true))
  | K_Type => type <- getFirstChild child ;; decodeParamTypeAndFlags type param hasParamFlags
  | _ => ret None
  end.

Definition newParam : Param := mkParam [] None 0.

(** The parameter is copied: the constructor has not set its type. *)
Definition finishParam (st : Param * bool) : BM (option (FunctionParam BuiltType * bool)) :=
  let '(param, hasParamFlags) := st in
  match Type_ param with
  | Some type => ret (Some (withType param type, hasParamFlags))
  | None => fail (NullPointer "FunctionParam: Type is not set")
  end.

(** The lambda [decodeParam]. *)
Definition decodeParam (paramNode : Node) (hasParamFlags : bool) : BM (option (FunctionParam BuiltType * bool)) :=
  if negb (Kind_eqb (getKind paramNode) K_TupleElement) then ret None
  else st <-? forChildren decodeParam_step (newParam, hasParamFlags) (children paramNode) ;; finishParam st.

Definition decodeParams_step (st : list (FunctionParam BuiltType) * bool) (elt : Node)
    : BM (option (list (FunctionParam BuiltType) * bool)) :=
  let '(params, hasParamFlags) := st in
  p <-? decodeParam elt hasParamFlags ;;
  let '(param, hasParamFlags) := p in ret (Some (params ++ [param], hasParamFlags)).

(** The parameters and [hasParamFlags], which are the reference parameters. *)
Fixpoint decodeMangledFunctionInputType (node : Node) : BM (option (list (FunctionParam BuiltType) * bool)) :=
  match node with
  | mkNode kind _ cs =>
      if Kind_eqb kind K_Type || Kind_eqb kind K_ArgumentTuple then
        match cs with
        | c :: _ => decodeMangledFunctionInputType c
        | [] => fail (AssertionFailed "Node::getFirstChild")
        end
      else if Kind_eqb kind K_Tuple then forChildren decodeParams_step ([], false) cs
      else
        st <-? decodeParamTypeAndFlags node newParam false ;;
        p <-? finishParam st ;;
        let '(param, hasParamFlags) := p in ret (Some ([param], hasParamFlags))
  end.

Definition conventionOf (kind : Kind) : Z :=
  match kind with
  | K_ObjCBlock => FunctionTypeFlags.withConvention 0 Convention_Block
  | K_CFunctionPointer => FunctionTypeFlags.withConvention 0 Convention_CFunctionPointer
  | K_ThinFunctionType => FunctionTypeFlags.withConvention 0 Convention_Thin
  | _ => 0
  end.

Definition decodeFunction (node : Node) : BM Built :=
  if (getNumChildren node <? 2)%nat then ret None
  else
    first <- getChild node 0 ;;
    let isThrow := Kind_eqb (getKind first) K_ThrowsAnnotation in
    let flags := FunctionTypeFlags.withThrows (conventionOf (getKind node)) isThrow in
    if isThrow && (getNumChildren node <? 3)%nat then ret None
    else
      input <- getChild node (if isThrow then 1 else 0)%nat ;;
      p <-? decodeMangledFunctionInputType input ;;
      let '(parameters, hasParamFlags) := p in
      let flags :=
        FunctionTypeFlags.withParameterFlags
          (FunctionTypeFlags.withNumParameters flags (wrap_u32 (Z.of_nat (length parameters)))) hasParamFlags in
      output <- getChild node (if isThrow then 2 else 1)%nat ;;
      result <-? decodeMangledType output ;;
      createFunctionType parameters (Some result) flags.

(** One child of an [ImplFunctionType], of which only the convention matters. *)
Definition implConvention_step (flags : Z) (child : Node) : BM (option Z) :=
  match getKind child with
  | K_ImplConvention =>
      if negb (hasText child) then ret None
      else
        text <- getText child ;;
        ret (Some (if str_eqb text (lit "@convention(thin)") then FunctionTypeFlags.withConvention flags Convention_Thin
                   else flags))
  | K_ImplFunctionAttribute =>
      if negb (hasText child) then ret None
      else
        text <- getText child ;;
        ret (Some (if str_eqb text (lit "@convention(c)") then
                     FunctionTypeFlags.withConvention flags Convention_CFunctionPointer
                   else if str_eqb text (lit "@convention(block)") then
                     FunctionTypeFlags.withConvention flags Convention_Block
                   else flags))
  | _ => ret (Some flags)
  end.

Definition decodeImplFunction (node : Node) : BM Built :=
  flags <-? forChildren implConvention_step 0 (children node) ;;
  result <- createTupleType [] [] false ;;
  createFunctionType [] result flags.

(** ** Tuples *)

(** The elements, their labels, each with a space behind it, and whether one is variadic. *)
Definition decodeTuple_step (st : list BuiltType * str * bool) (element : Node) : BM (option (list BuiltType * str * bool)) :=
  let '(elements, labels, variadic) := st in
  if negb (Kind_eqb (getKind element) K_TupleElement) then ret None
  else
    first <- getChild element 0 ;;
    let isVariadic := Kind_eqb (getKind first) K_VariadicMarker in
    let nameIdx := if isVariadic then 1%nat else 0%nat in
    nameNode <- getChild element nameIdx ;;
    if Kind_eqb (getKind nameNode) K_TupleElementName then
      let labels := if (length labels =? 0)%nat then repeat " "%char (length elements) else labels in
      c <- getChild element 0 ;;
      text <- getText c ;;
      typeNode <- getChild element (nameIdx + 1) ;;
      elementType <-? decodeMangledType typeNode ;;
      ret (Some (elements ++ [elementType], labels ++ text ++ lit " ", variadic || isVariadic))
    else
      let labels := if (length labels =? 0)%nat then labels else labels ++ lit " " in
      typeNode <- getChild element nameIdx ;;
      elementType <-? decodeMangledType typeNode ;;
      ret (Some (elements ++ [elementType], labels, variadic || isVariadic)).

Definition decodeTuple (node : Node) : BM Built :=
  st <-? forChildren decodeTuple_step ([], [], false) (children node) ;;
  let '(elements, labels, variadic) := st in createTupleType elements labels variadic.

Definition decodeTupleElement (node : Node) : BM Built :=
  if (getNumChildren node <? 1)%nat then ret None
  else
    first <- getChild node 0 ;;
    if Kind_eqb (getKind first) K_TupleElementName then
      if (getNumChildren node <? 2)%nat then ret None else c <- getChild node 1 ;; decodeMangledType c
    else decodeMangledType first.

(** ** The others *)

Definition decodeGenericParam (node : Node) : BM Built :=
  d <- getChild node 0 ;;
  depth <- getIndex d ;;
  i <- getChild node 1 ;;
  index <- getIndex i ;;
  createGenericTypeParameterType depth index.

Definition decodeDependentMember (node : Node) : BM Built :=
  if (getNumChildren node <? 2)%nat then ret None
  else
    c <- getChild node 0 ;;
    base <-? decodeMangledType c ;;
    assocTypeChild <- getChild node 1 ;;
    member <- getText assocTypeChild ;;
    if (getNumChildren assocTypeChild <? 1)%nat then ret None
    else
      p <- getChild assocTypeChild 0 ;;
      protocol <-? decodeMangledProtocolType p ;;
      createDependentMemberType member base protocol.

(** A type built on the type of the first child. *)
Definition decodeThen (create : BuiltType -> BM Built) (node : Node) : BM Built :=
  base <-? decodeFirst node ;; create base.

Definition decodeDependentGeneric (node : Node) : BM Built :=
  if (getNumChildren node <? 2)%nat then ret None else c <- getChild node 1 ;; decodeMangledType c.

(** The [switch] of [decodeMangledType]. *)
Definition decodeMangledTypeBody (node : Node) : BM Built :=
  match getKind node with
  | K_Global | K_TypeMangling | K_Type | K_ArgumentTuple | K_ReturnType | K_DependentAssociatedTypeRef => decodeFirst node
  | K_Class | K_Enum | K_Structure | K_TypeAlias => decodeNominal node
  | K_BoundGenericClass | K_BoundGenericEnum | K_BoundGenericStructure => decodeBoundGeneric node
  | K_BuiltinTypeName => mangledName <- call (mangleNode (Some node)) ;; createBuiltinType mangledName
  | K_Metatype | K_ExistentialMetatype => decodeMetatype node
  | K_ProtocolList | K_ProtocolListWithAnyObject | K_ProtocolListWithClass => decodeProtocolList node
  | K_Protocol => decodeProtocol node
  | K_DependentGenericParamType => decodeGenericParam node
  | K_ObjCBlock | K_CFunctionPointer | K_ThinFunctionType | K_FunctionType => decodeFunction node
  | K_ImplFunctionType => decodeImplFunction node
  | K_Tuple => decodeTuple node
  | K_TupleElement => decodeTupleElement node
  | K_DependentGenericType => decodeDependentGeneric node
  | K_DependentMemberType => decodeDependentMember node
  | K_Unowned => decodeThen createUnownedStorageType node
  | K_Unmanaged => decodeThen createUnmanagedStorageType node
  | K_Weak => decodeThen createWeakStorageType node
  | K_SILBoxType => decodeThen createSILBoxType node
  | K_SILBoxTypeWithLayout => createBuiltinType (lit "Bo")
  | _ => ret None
  end.
End decoder.

(** ** The recursion *)

(** Every recursive call is on a node below. *)
Fixpoint decodeMangledTypeWith {S} `{!TypeBuilder S} (fuel : nat) (node : Node) : M S (option BuiltType) :=
  match fuel with
  | O => fail OutOfFuel
  | Datatypes.S fuel => decodeMangledTypeBody (decodeMangledTypeWith fuel) node
  end.

(** [decodeMangledType(Builder, Node)] *)
Definition decodeMangledType {S} `{!TypeBuilder S} (node : NodePointer) : M S (option BuiltType) :=
  match node with
  | None => ret None
  | Some node => decodeMangledTypeWith (node_height node) node
  end.
