(* ===== verification/TypeDecoderTheorems.v ===== *)
(** * The type decoder on the trees of the demangler

    For a tree of the demangler's grammar ([wf_node]) the decoder crashes only as the
    builder or the remangler does, with one exception: the label of a tuple element
    that is variadic. *)

From Stdlib Require Import String.
From S2P Require Import Prelude Nodes ManglingUtils Demangler NodeShape DemanglerSpecs DemanglerSafety Remangler OldDemangler DemanglingContext.
From S2P Require Import NodePrinter PrinterSpecs PrinterSafety UnspecializedTypes TypeDecoder.

(** ** Trees and their texts *)

(** A tree of the grammar, all of whose texts are [ok]. *)
Record fine (ok : str -> bool) (n : Node) : Prop := { fine_wf : wf n; fine_texts : allTexts ok n = true }.

Lemma fine_children ok k p cs : hasBare k = false -> fine ok (mkNode k p cs) -> Forall (fine ok) cs.
Proof.
  intros Hk [Hw Ht]. apply wf_children in Hw; [|done]. apply allTexts_children in Ht. cbn in Ht.
  rewrite List.Forall_forall in *. split; auto.
Qed.

Lemma fine_Type ok n : fine ok n -> getKind n = K_Type ->
  exists c, n = mkNode K_Type NoPayload [c] /\ fine ok c /\ isTypeChild (getKind c) = true.
Proof.
  intros Hn Hk. destruct (wf_Type n (fine_wf _ _ Hn) Hk) as (c & -> & _ & Hc).
  apply fine_children in Hn; [|done]. inversion_clear Hn. eauto.
Qed.

Lemma fine_always n : wf n -> fine (fun _ => true) n.
Proof.
  intros Hn. split; [done|]. clear Hn. induction n as [k p cs IH] using Node_tree_ind. cbn.
  apply andb_true_iff. split; [by destruct p|]. by apply forallb_forall, List.Forall_forall.
Qed.

(** ** What the builder promises *)

Class SafeBuilder (S : Type) `{!TypeBuilder S} (ok : str -> bool) (E : crash -> Prop) : Prop := {
  safe_createNominalTypeDecl node : fine ok node -> prints (S := S) E (createNominalTypeDecl node) (fun _ => True);
  safe_createProtocolDecl node : fine ok node -> prints (S := S) E (createProtocolDecl node) (fun _ => True);
  safe_createNominalType decl parent : prints (S := S) E (createNominalType decl parent) (fun _ => True);
  safe_createBoundGenericType decl args parent : prints (S := S) E (createBoundGenericType decl args parent) (fun _ => True);
  safe_createBuiltinType name : prints (S := S) E (createBuiltinType name) (fun _ => True);
  safe_createMetatypeType T b : prints (S := S) E (createMetatypeType T b) (fun _ => True);
  safe_createExistentialMetatypeType T : prints (S := S) E (createExistentialMetatypeType T) (fun _ => True);
  safe_createProtocolCompositionType ps super b :
    prints (S := S) E (createProtocolCompositionType ps super b) (fun _ => True);
  safe_createGenericTypeParameterType d i : prints (S := S) E (createGenericTypeParameterType d i) (fun _ => True);
  safe_createFunctionType ps result flags : prints (S := S) E (createFunctionType ps (Some result) flags) (fun _ => True);
  safe_createTupleType elements labels b : prints (S := S) E (createTupleType elements labels b) (fun _ => True);
  (* the result of a lowered function type is not looked at *)
  safe_emptyTuple : prints (S := S) E (createTupleType [] [] false) (fun r => r <> None);
  safe_createDependentMemberType m b p : prints (S := S) E (createDependentMemberType m b p) (fun _ => True);
  safe_createUnownedStorageType T : prints (S := S) E (createUnownedStorageType T) (fun _ => True);
  safe_createUnmanagedStorageType T : prints (S := S) E (createUnmanagedStorageType T) (fun _ => True);
  safe_createWeakStorageType T : prints (S := S) E (createWeakStorageType T) (fun _ => True);
  safe_createSILBoxType T : prints (S := S) E (createSILBoxType T) (fun _ => True);
  (* the remangler, for builtin types *)
  safe_mangleNode node c : fine ok node -> mangleNode (Some node) = Crash c -> E c;
  (* the label of a variadic element *)
  safe_label : E (AssertionFailed "Node::getText")
}.

Create HintDb decoder discriminated.
#[export] Hint Constants Opaque : decoder.
#[export] Hint Resolve safe_createNominalTypeDecl safe_createProtocolDecl safe_createNominalType
  safe_createBoundGenericType safe_createBuiltinType safe_createMetatypeType safe_createExistentialMetatypeType
  safe_createProtocolCompositionType safe_createGenericTypeParameterType safe_createFunctionType
  safe_createTupleType safe_createDependentMemberType safe_createUnownedStorageType
  safe_createUnmanagedStorageType safe_createWeakStorageType safe_createSILBoxType : decoder.

Section safety.
Context {S : Type} `{!TypeBuilder S} (ok : str -> bool) (E : crash -> Prop) `{!SafeBuilder S ok E}.
Abbreviation safe m := (prints (S := S) E m (fun _ => True)).

Lemma safe_opt {A B} (m : M S (option A)) (k : A -> M S (option B)) (P : A -> Prop) :
  prints E m (fun r => forall a, r = Some a -> P a) -> (forall a, P a -> safe (k a)) -> safe (a <-? m ;; k a).
Proof.
  intros Hm Hk. eapply prints_bind; [exact Hm|]. intros [a|] Ha; [by apply Hk, Ha|by apply prints_ret].
Qed.

Lemma safe_then {A B} (m : M S (option A)) (k : A -> M S (option B)) : safe m -> (forall a, safe (k a)) -> safe (a <-? m ;; k a).
Proof.
  intros Hm Hk. apply (safe_opt m k (fun _ => True)); [|auto]. eapply prints_mono; [exact Hm|done].
Qed.

Lemma safe_ret {A} (a : A) : safe (ret a).
Proof. by apply prints_ret. Qed.

Lemma safe_bind {A B} (m : M S A) (k : A -> M S B) : safe m -> (forall a, safe (k a)) -> safe (bind m k).
Proof. intros Hm Hk. eapply prints_bind; [exact Hm|auto]. Qed.

Lemma safe_call node : fine ok node -> safe (call (mangleNode (Some node))).
Proof.
  intros Hn s. unfold wp, call. destruct (mangleNode (Some node)) eqn:Em; [done|]. by eapply safe_mangleNode.
Qed.

Lemma safe_getChild n i : (i < length (children n))%nat -> prints (S := S) E (getChild n i) (fun c => children n !! i = Some c).
Proof.
  intros Hi s. unfold wp, getChild. destruct (lookup_lt_is_Some_2 _ _ Hi) as [c Hc]. by rewrite Hc.
Qed.

Lemma safe_getFirstChild n : (0 < length (children n))%nat -> prints (S := S) E (getFirstChild n) (fun c => children n !! 0%nat = Some c).
Proof. intros Hi s. unfold wp, getFirstChild. destruct (children n); [cbn in Hi; lia|done]. Qed.

(** A node that is low enough for the recursion. *)
Record low (h : nat) (n : Node) : Prop := { low_fine : fine ok n; low_below : below h n }.

Lemma low_wf h n : low h n -> wf n.
Proof. by intros [[]]. Qed.

Lemma low_children h k p cs : hasBare k = false -> low (Datatypes.S h) (mkNode k p cs) -> Forall (low h) cs.
Proof.
  intros Hk [Hw Hb]. apply fine_children in Hw; [|done]. apply below_children in Hb. cbn in Hb.
  rewrite List.Forall_forall in *. split; auto.
Qed.

Lemma low_lookup h n i c : hasBare (getKind n) = false -> low (Datatypes.S h) n -> children n !! i = Some c -> low h c.
Proof. destruct n as [k p cs]. intros Hk Hn%low_children Hc; [|done]. by eapply Forall_lookup_1. Qed.

Lemma low_weaken h n : low h n -> low (Datatypes.S h) n.
Proof. intros []. split; [done|by apply below_S]. Qed.

(** The shape of a node of known kind, with its children low. *)
Ltac open_low H :=
  lazymatch type of H with
  | low _ (mkNode ?k ?p ?cs) =>
      let Hs := fresh "Hs" in
      pose proof (wf_shape _ (low_wf _ _ H)) as Hs; cbn [getKind payload children] in Hs; open_shape Hs;
      (apply low_children in H; [|reflexivity]);
      repeat match goal with
      | H' : Forall _ (_ :: _) |- _ => inversion_clear H'
      | H' : Forall _ [] |- _ => clear H'
      end;
      repeat match goal with
      | H' : _ && _ = true |- _ => apply andb_true_iff in H' as [? ?]
      end;
      rewrite ?ofKind_true, ?ofKind_false in *
  end.

Lemma low_Type h n : low (Datatypes.S h) n -> getKind n = K_Type ->
  exists c, n = mkNode K_Type NoPayload [c] /\ low h c /\ isTypeChild (getKind c) = true.
Proof.
  intros Hn Hk. destruct (wf_Type n (low_wf _ _ Hn) Hk) as (c & -> & _ & Hc).
  apply low_children in Hn; [|done]. inversion_clear Hn. eauto.
Qed.

Lemma low_list h k p n : listKind k p -> low (Datatypes.S h) n -> getKind n = k ->
  Forall (low h) (children n) /\ Forall (fun c => p c = true) (children n).
Proof.
  intros Hl Hn Hk. destruct (wf_list_inv _ _ _ Hl (low_wf _ _ Hn) Hk) as [_ Hp]. split; [|done].
  destruct n as [k' p' cs]. cbn in Hk. subst k'. apply low_children in Hn; [done|]. by destruct Hl as (_ & _ & _ & _ & ?).
Qed.

(** *** Steps *)

Lemma prints_bind_getChild {A} n i c (k : Node -> M S A) P :
  children n !! i = Some c -> prints E (k c) P -> prints E (bind (getChild n i) k) P.
Proof. intros Hc Hk. unfold getChild. rewrite Hc. by apply prints_bind_ret. Qed.

Lemma prints_bind_getFirstChild {A} n c cs (k : Node -> M S A) P :
  children n = c :: cs -> prints E (k c) P -> prints E (bind (getFirstChild n) k) P.
Proof. intros Hc Hk. unfold getFirstChild. rewrite Hc. by apply prints_bind_ret. Qed.

Lemma prints_bind_getText {A} n text (k : str -> M S A) P :
  payload n = TextPayload text -> prints E (k text) P -> prints E (bind (getText n) k) P.
Proof. intros Hc Hk. unfold getText. rewrite Hc. by apply prints_bind_ret. Qed.

(** *** Loops *)

Lemma safe_forEach {A B} (f : A -> M S (option B)) l : Forall (fun a => safe (f a)) l -> safe (forEach f l).
Proof.
  intros Hl. induction Hl; cbn [forEach]; [apply safe_ret|]. apply safe_then; [done|]. intros b.
  apply safe_then; [done|]. intros bs. apply safe_ret.
Qed.

Lemma safe_forChildren {A St} (step : St -> A -> M S (option St)) l :
  Forall (fun a => forall st, safe (step st a)) l -> forall st, safe (forChildren step st l).
Proof.
  intros Hl. induction Hl as [|a l Ha _ IH]; intros st; cbn [forChildren]; [apply safe_ret|]. by apply safe_then.
Qed.

(** ** Protocols *)

Lemma safe_protocol_child n : fine ok n -> getKind n <> K_Type -> safe (decodeMangledProtocolType n).
Proof.
  destruct n as [k p cs]. cbn [getKind decodeMangledProtocolType]. intros Hn Hk.
  destruct (Kind_eqb k K_Type) eqn:Ek; [by apply Kind_eqb_eq in Ek|].
  destruct (_ || _); [apply safe_ret|by apply safe_createProtocolDecl].
Qed.

Lemma isTypeChild_Type k : isTypeChild k = true -> k <> K_Type.
Proof. by destruct k. Qed.

Lemma safe_protocol n : fine ok n -> safe (decodeMangledProtocolType n).
Proof.
  intros Hn. destruct (Kind_eqb (getKind n) K_Type) eqn:Ek; rewrite ?Kind_eqb_eq in Ek.
  - destruct (fine_Type ok n Hn Ek) as (c & -> & Hw & Hc). cbn. by apply safe_protocol_child, isTypeChild_Type.
  - apply safe_protocol_child; [done|]. intros Hk. by rewrite Hk in Ek.
Qed.

(** ** Contexts without their generic arguments *)

(** What is left is a declaration, of the same kind unless it was a bound generic type. *)
Definition strippedAs (n n' : Node) : Prop :=
  fine ok n' /\ isNominalKind (getKind n') = true /\ (isNominalKind (getKind n) = true -> getKind n' = getKind n).

Lemma nominal_fine k p cs : isNominalKind k = true -> fine ok (mkNode k p cs) ->
  exists parent name, cs = [parent; name] /\ fine ok parent /\ fine ok name
    /\ isParent (getKind parent) = true /\ isDeclName (getKind name) = true.
Proof.
  intros Hk Hw. pose proof (wf_shape _ (fine_wf _ _ Hw)) as Hs. apply fine_children in Hw; [|by destruct k].
  cbn [getKind payload children] in Hs. destruct k; try discriminate Hk; open_shape Hs; apply andb_true_iff in Hs as [H1 H2];
    inversion_clear Hw as [|? ? Hp Hr]; inversion_clear Hr; eauto 10.
Qed.

Lemma boundGeneric_fine k p cs : isBoundGenericKind k = true -> fine ok (mkNode k p cs) ->
  exists inner args, cs = [mkNode K_Type NoPayload [inner]; args] /\ fine ok inner /\ isNominalKind (getKind inner) = true.
Proof.
  intros Hk Hw. pose proof (wf_shape _ (fine_wf _ _ Hw)) as Hs. apply fine_children in Hw; [|by destruct k].
  cbn [getKind payload children] in Hs. destruct k; try discriminate Hk; open_shape Hs; apply andb_true_iff in Hs as [H1 H2];
    inversion_clear Hw as [|? ? Hp Hr]; apply andb_true_iff in H1 as [Ht Hc]; apply ofKind_true in Ht;
    destruct (fine_Type _ _ Hp Ht) as (inner & -> & Hw & _); cbn in Hc; apply ofKind_true in Hc;
    exists inner; eexists; (split_and!; [reflexivity|done|by rewrite Hc]).
Qed.

Lemma nominal_intro k parent name : isNominalKind k = true -> fine ok parent -> fine ok name ->
  isParent (getKind parent) = true -> isDeclName (getKind name) = true -> fine ok (mkNode k NoPayload [parent; name]).
Proof.
  intros Hk [Hp Htp] [Hn Htn] Hkp Hkn. split; [apply wf_intro; [|by repeat constructor]|by apply allTexts_node; repeat constructor].
  destruct k; try discriminate Hk; unfold shape; cbn; unfold kindIn; by rewrite Hkp, Hkn.
Qed.

Lemma stripped_fine m : forall n n', below m n -> fine ok n -> strippedContext n = Some n' -> strippedAs n n'.
Proof.
  induction m as [|m IH]; intros [k p cs] n' Hm Hw Hs; [by unfold below in Hm; cbn in Hm; lia|].
  cbn [strippedContext] in Hs. apply below_children in Hm. cbn [children] in Hm.
  destruct (isBoundGenericKind k) eqn:Eb; [|destruct (isNominalKind k) eqn:En; [|done]].
  - destruct (boundGeneric_fine _ _ _ Eb Hw) as (inner & args & -> & Hi & Hk).
    inversion_clear Hm as [|? ? Ht _]. apply below_S, below_children in Ht. inversion_clear Ht as [|? ? Hin _].
    destruct (strippedContext inner) as [s|] eqn:Es; injection Hs as <-.
    + destruct (IH inner s Hin Hi Es) as (? & ? & Hsk). split_and!; [done|done|by destruct k].
    + split_and!; [done|done|by destruct k].
  - destruct (nominal_fine _ _ _ En Hw) as (parent & name & -> & Hp & Hn & Hkp & Hkn).
    inversion_clear Hm as [|? ? Hb _]. destruct (strippedContext parent) as [s|] eqn:Es; [|done]. injection Hs as <-.
    destruct (IH parent s Hb Hp Es) as (Hws & Hks & _). split_and!; [|done|done].
    apply nominal_intro; try done. by destruct (getKind s).
Qed.

Lemma strip_fine n : fine ok n -> fine ok (stripGenericArgsFromContextNode n).
Proof.
  intros Hn. unfold stripGenericArgsFromContextNode. destruct (strippedContext n) as [s|] eqn:Es; [|done].
  destruct (stripped_fine (node_height n) n s) as (? & _ & _); [by unfold below|done..].
Qed.

(** ** The parts of the switch *)

Section body.
Variable h : nat.
Variable rec : Node -> M S (option BuiltType).
Hypothesis safe_rec : forall n, low h n -> safe (rec n).

Lemma safe_first n i c : children n !! i = Some c -> low h c -> safe (c <- getChild n i ;; rec c).
Proof.
  intros Hc Hl. eapply prints_bind; [apply safe_getChild; by eapply lookup_lt_Some|].
  intros c' Hc'. cbn in Hc'. rewrite Hc in Hc'. injection Hc' as <-. by apply safe_rec.
Qed.

Lemma safe_decodeFirst n : hasBare (getKind n) = false -> low (Datatypes.S h) n -> safe (decodeFirst rec n).
Proof.
  intros Hk Hn. unfold decodeFirst, getNumChildren. destruct (_ <? 1)%nat eqn:Ek; [apply safe_ret|].
  apply Nat.ltb_ge in Ek. destruct (lookup_lt_is_Some_2 (children n) 0) as [c Hc]; [lia|].
  eapply safe_first; [exact Hc|by eapply low_lookup].
Qed.

Lemma safe_nominal_child n : getKind n <> K_Type -> hasBare (getKind n) = false -> low (Datatypes.S h) n ->
  safe (decodeMangledNominalType rec n).
Proof.
  destruct n as [k p cs]. cbn [getKind decodeMangledNominalType]. intros Hk Hb Hn.
  destruct (Kind_eqb k K_Type) eqn:Ek; [by apply Kind_eqb_eq in Ek|].
  destruct (_ <? 2)%nat eqn:E2; [apply safe_ret|]. apply Nat.ltb_ge in E2.
  pose proof (low_fine _ _ Hn) as Hw.
  apply low_children in Hn; [|done]. eapply prints_bind; [apply safe_getChild; unfold getNumChildren in E2; lia|].
  intros parent Hp. cbn in Hp. destruct (Kind_eqb (getKind parent) _).
  - apply safe_then; [by apply safe_createNominalTypeDecl|]. intros ?. apply safe_ret.
  - apply safe_then; [by apply safe_rec; eapply Forall_lookup_1|]. intros ?.
    apply safe_then; [by apply safe_createNominalTypeDecl, strip_fine|]. intros ?. apply safe_ret.
Qed.

Lemma isTypeChild_hasBare k : isTypeChild k = true -> hasBare k = false.
Proof. by destruct k. Qed.

Lemma safe_nominal n : hasBare (getKind n) = false -> low (Datatypes.S h) n -> safe (decodeMangledNominalType rec n).
Proof.
  intros Hb Hn. destruct (Kind_eqb (getKind n) K_Type) eqn:Ek; rewrite ?Kind_eqb_eq in Ek.
  - destruct (low_Type _ _ Hn Ek) as (c & -> & Hc & Hk). cbn.
    apply safe_nominal_child; [by apply isTypeChild_Type|by apply isTypeChild_hasBare|by apply low_weaken].
  - apply safe_nominal_child; [|done..]. intros Hk. by rewrite Hk in Ek.
Qed.

Lemma safe_decodeNominal n : hasBare (getKind n) = false -> low (Datatypes.S h) n -> safe (decodeNominal rec n).
Proof.
  intros. apply safe_then; [by apply safe_nominal|]. intros [decl parent]. apply safe_createNominalType.
Qed.

Lemma safe_types n : low h n -> getKind n = K_TypeList -> safe (forEach rec (children n)).
Proof.
  intros Hn Hk. destruct n as [k p cs]. cbn in Hk. subst k. cbn [children]. apply safe_forEach.
  destruct (low_list h K_TypeList (ofKind K_Type) (mkNode K_TypeList p cs)) as [Hl _];
    [done|by apply low_weaken|done|]. eapply Forall_impl; [exact safe_rec|exact Hl].
Qed.

Ltac decode_step :=
  cbv beta zeta;
  repeat match goal with Hk : getKind ?n = _ |- context [getKind ?n] => rewrite Hk end;
  lazymatch goal with
  | |- prints _ (let '(_, _) := ?a in _) _ => destruct a as [? ?]
  | |- prints _ (bind (assert _ true) _) _ => apply prints_bind_ret
  | |- prints _ (bind (assert _ (Kind_eqb ?k ?k)) _) _ => apply prints_bind_ret
  | |- prints _ (bind (ret _) _) _ => apply prints_bind_ret
  | |- prints _ (bind (getChild _ _) _) _ => eapply prints_bind_getChild; [reflexivity|]
  | |- prints _ (bind (getFirstChild _) _) _ => eapply prints_bind_getFirstChild; [reflexivity|]
  | |- prints _ (bind (getText _) _) _ => eapply prints_bind_getText; [reflexivity|]
  | |- prints _ (ret _) _ => apply safe_ret
  | |- prints _ (if ?b then _ else _) _ => let b' := eval cbn in b in
      lazymatch b' with true => idtac | false => idtac | _ => destruct b eqn:? end; change b with b'; cbv iota
  | |- prints _ (bind _ (fun _ => match _ with Some _ => _ | None => ret None end)) _ =>
      apply safe_then; [|intros ?]
  | |- _ => solve [eauto with decoder nocore]
  end.
Ltac decoding := repeat decode_step.


Lemma typeOf_Type k n : typeOf k n = true -> getKind n = K_Type.
Proof. intros [Hk _]%andb_true_iff. by apply ofKind_true. Qed.

Lemma safe_nominal_typeOf k n : typeOf k n = true -> low h n -> safe (decodeMangledNominalType rec n).
Proof. intros Hk%typeOf_Type Hn. apply safe_nominal; [by rewrite Hk|by apply low_weaken]. Qed.

Lemma safe_rec_typeOf k n : typeOf k n = true -> low h n -> safe (rec n).
Proof. auto. Qed.

#[local] Hint Resolve safe_types safe_nominal_typeOf : decoder.
#[local] Hint Extern 1 (prints _ (rec _) _) => apply safe_rec : decoder.

Lemma safe_boundGeneric n : isBoundGenericKind (getKind n) = true -> low (Datatypes.S h) n -> safe (decodeBoundGeneric rec n).
Proof.
  destruct n as [k p cs]. cbn [getKind]. intros Hk Hn. unfold decodeBoundGeneric.
  destruct k; try discriminate Hk; open_low Hn; decoding.
Qed.

Lemma wf_text n : wf n -> getKind n = K_DependentAssociatedTypeRef \/ getKind n = K_TupleElementName ->
  exists text, payload n = TextPayload text.
Proof. destruct n as [k p cs]. intros Hn%wf_shape [Hk|Hk]; cbn in *; subst k; open_shape Hn; eauto. Qed.

Lemma wf_Index n : wf n -> getKind n = K_Index -> exists i, payload n = IndexPayload i.
Proof. destruct n as [k p cs]. intros Hn%wf_shape Hk; cbn in *; subst k; open_shape Hn; eauto. Qed.

Lemma hasText_payload n : hasText n = true -> exists text, payload n = TextPayload text.
Proof. unfold hasText. destruct (payload n); try discriminate. eauto. Qed.

Lemma prints_bind_getIndex {A} n i (k : Z -> M S A) P :
  payload n = IndexPayload i -> prints E (k i) P -> prints E (bind (getIndex n) k) P.
Proof. intros Hc Hk. unfold getIndex. rewrite Hc. by apply prints_bind_ret. Qed.

Lemma safe_metatype n : getKind n = K_Metatype \/ getKind n = K_ExistentialMetatype -> low (Datatypes.S h) n ->
  safe (decodeMetatype rec n).
Proof.
  destruct n as [k p cs]. cbn [getKind]. intros Hk Hn. unfold decodeMetatype.
  destruct Hk; subst; open_low Hn; decoding;
    match goal with H : _ || negb (hasText ?n) = false |- _ =>
      apply orb_false_iff in H as [_ [text Ht]%negb_false_iff%hasText_payload] end;
    (eapply prints_bind_getText; [exact Ht|]); decoding.
Qed.

Lemma safe_protocols n : low h n -> getKind n = K_TypeList -> safe (forEach decodeMangledProtocolType (children n)).
Proof.
  destruct n as [k p cs]. cbn. intros Hn ->. apply safe_forEach.
  destruct (low_list h K_TypeList (ofKind K_Type) (mkNode K_TypeList p cs)) as [Hl _];
    [done|by apply low_weaken|done|]. eapply Forall_impl; [|exact Hl]. intros c []. by apply safe_protocol.
Qed.

(** The list of types may stand in a list of protocols. *)
Lemma safe_typeList {A} n (k : Node -> M S (option A)) :
  low h n -> getKind n = K_TypeList \/ getKind n = K_ProtocolList ->
  (forall l, low h l -> getKind l = K_TypeList -> safe (k l)) ->
  safe (list <- (if Kind_eqb (getKind n) K_ProtocolList && (1 <=? getNumChildren n)%nat then getChild n 0 else ret n) ;; k list).
Proof.
  intros Hn Hk Hc. destruct Hk as [Hk|Hk]; rewrite Hk; cbn [Kind_eqb andb].
  - apply prints_bind_ret. by apply Hc.
  - destruct n as [k' p cs]. cbn in Hk. subst k'. apply low_weaken in Hn. open_low Hn.
    cbn. eapply prints_bind_getChild; [reflexivity|]. by apply Hc.
Qed.
#[local] Hint Resolve safe_protocols : decoder.

Lemma safe_protocolList n :
  getKind n = K_ProtocolList \/ getKind n = K_ProtocolListWithAnyObject \/ getKind n = K_ProtocolListWithClass ->
  low (Datatypes.S h) n -> safe (decodeProtocolList rec n).
Proof.
  destruct n as [k p cs]. cbn [getKind]. intros Hk Hn. unfold decodeProtocolList.
  destruct Hk as [Hk|[Hk|Hk]]; subst; open_low Hn; decoding;
    (apply safe_typeList; [done|auto|]); intros l Hl Hkl; decoding.
Qed.

Lemma safe_genericParam n : getKind n = K_DependentGenericParamType -> low (Datatypes.S h) n -> safe (decodeGenericParam n).
Proof.
  destruct n as [k p cs]. cbn [getKind]. intros -> Hn. unfold decodeGenericParam. open_low Hn. decoding.
  destruct (wf_Index n) as [d Hd]; [by eapply low_wf|done|]. destruct (wf_Index n0) as [i Hi]; [by eapply low_wf|done|].
  eapply prints_bind_getIndex; [exact Hd|]. decoding. eapply prints_bind_getIndex; [exact Hi|]. decoding.
Qed.

Lemma safe_dependentMember n : getKind n = K_DependentMemberType -> low (Datatypes.S h) n -> safe (decodeDependentMember rec n).
Proof.
  destruct n as [k p cs]. cbn [getKind]. intros -> Hn. unfold decodeDependentMember. open_low Hn. decoding.
  destruct (wf_text n0) as [t Ht]; [by eapply low_wf|auto|]. eapply prints_bind_getText; [exact Ht|]. decoding.
  match goal with H : (_ <? 1)%nat = false |- _ => apply Nat.ltb_ge in H end.
  eapply prints_bind; [by apply safe_getChild|]. intros c Hc. cbn in Hc.
  match goal with Hn : low h n0, Hk : getKind n0 = _ |- _ =>
    apply low_weaken in Hn; apply (low_lookup h n0 0 c) in Hn as [Hw _]; [|by rewrite Hk|done] end.
  apply safe_then; [by apply safe_protocol|]. intros ?. decoding.
Qed.

(** *** Functions *)

Definition typed (st : FunctionParam (option BuiltType) * bool) : Prop := exists T, Type_ st.1 = Some T.

Lemma safe_finish st : typed st -> safe (finishParam st).
Proof. destruct st as [[label T flags] b]. intros [T' HT]. cbn in HT. subst T. apply safe_ret. Qed.

(** The type of a parameter is set when it was decoded. *)
Lemma decoded_paramType n param b : low h n -> isTypeChild (getKind n) = true ->
  prints (S := S) E (decodeParamTypeAndFlags rec n param b) (fun r => forall st, r = Some st -> typed st).
Proof.
  intros Hn Hk.
  assert (forall c param b, low h c ->
    prints (S := S) E (paramType <-? rec c ;; ret (Some (setType param (Some paramType), b)))
      (fun r => forall st, r = Some st -> typed st)) as Htype.
  { intros c param' b' Hc. eapply prints_bind; [by apply safe_rec|]. intros [T|] _; cbn.
    - apply prints_ret. intros st [= <-]. by exists T.
    - by apply prints_ret. }
  unfold decodeParamTypeAndFlags. destruct n as [k p cs]. cbn [getKind] in *.
  destruct k; try discriminate Hk; try (by apply Htype);
    (apply low_weaken in Hn; open_low Hn; eapply prints_bind_getFirstChild; [reflexivity|]; by apply Htype).
Qed.

Lemma low_down n : hasBare (getKind n) = false -> low h n -> Forall (low h) (children n).
Proof. destruct n. intros Hk Hn%low_weaken. by eapply low_children. Qed.

Lemma low_Type_same n : low h n -> getKind n = K_Type ->
  exists c, n = mkNode K_Type NoPayload [c] /\ low h c /\ isTypeChild (getKind c) = true.
Proof. intros Hn%low_weaken. by apply low_Type. Qed.

Lemma forChildren_ret {A St} (step : St -> A -> M S (option St)) a l st st' P :
  step st a = ret (Some st') -> prints E (forChildren step st' l) P -> prints E (forChildren step st (a :: l)) P.
Proof. intros Hst Hl. cbn [forChildren]. rewrite Hst. by apply prints_bind_ret. Qed.

Lemma quiet_step st c : wf c -> getKind c = K_VariadicMarker \/ getKind c = K_TupleElementName ->
  exists st', decodeParam_step rec st c = ret (Some st').
Proof.
  intros Hw Hk. destruct st as [param b]. unfold decodeParam_step. destruct Hk as [Hk|Hk]; rewrite Hk; [by eexists|].
  destruct (wf_text c Hw) as [t Ht]; [auto|]. unfold getText. rewrite Ht. by eexists.
Qed.

Lemma decoded_typeChild st n : low h n -> getKind n = K_Type ->
  prints (S := S) E (forChildren (decodeParam_step rec) st [n]) (fun r => forall st, r = Some st -> typed st).
Proof.
  intros Hn Hk. destruct (low_Type_same n Hn Hk) as (c & -> & Hc & Hkc). destruct st as [param b]. cbn [forChildren].
  eapply prints_bind; [unfold decodeParam_step; cbn [getKind]; eapply prints_bind_getFirstChild; [reflexivity|];
    by apply decoded_paramType|]. intros [st|] Hst; cbn in Hst; [|by apply prints_ret].
  apply prints_ret. intros st' [= <-]. by apply Hst.
Qed.

(** The children of a tuple element, of which the type comes last. *)
Lemma decoded_element st n : low h n -> getKind n = K_TupleElement ->
  prints (S := S) E (forChildren (decodeParam_step rec) st (children n)) (fun r => forall st, r = Some st -> typed st).
Proof.
  intros Hn Hk. destruct (wf_TupleElement n (low_wf _ _ Hn) Hk) as (va & na & ty & -> & Hva & Hna & Hty & Hkt).
  apply low_down in Hn; [|done]. cbn [children] in *. rewrite !List.Forall_app in Hn. destruct Hn as (_ & _ & Hn). inversion_clear Hn as [|? ? Hlow _].
  assert (forall st, prints (S := S) E (forChildren (decodeParam_step rec) st (na ++ [ty])) (fun r => forall st, r = Some st -> typed st)) as Hlast.
  { intros st'. destruct Hna as [->|(n & -> & Hw & Hkn)]; cbn [app]; [by apply decoded_typeChild|].
    destruct (quiet_step st' n Hw) as [st'' Hst]; [auto|]. eapply forChildren_ret; [exact Hst|by apply decoded_typeChild]. }
  destruct Hva as [->|(v & -> & Hw & Hkv)]; cbn [app]; [apply Hlast|].
  destruct (quiet_step st v Hw) as [st' Hst]; [auto|]. eapply forChildren_ret; [exact Hst|apply Hlast].
Qed.

Lemma safe_decodeParam n b : low h n -> safe (decodeParam rec n b).
Proof.
  intros Hn. unfold decodeParam. destruct (Kind_eqb (getKind n) K_TupleElement) eqn:Ek; cbn; [|apply safe_ret].
  apply Kind_eqb_eq in Ek. eapply safe_opt; [by apply decoded_element|]. apply safe_finish.
Qed.

Lemma safe_input_type n : low h n -> isTypeChild (getKind n) = true -> safe (decodeMangledFunctionInputType rec n).
Proof.
  intros Hn Hk. destruct n as [k p cs]. cbn [getKind] in Hk. cbn [decodeMangledFunctionInputType].
  destruct (Kind_eqb k K_Type || Kind_eqb k K_ArgumentTuple) eqn:Ek;
    [by apply orb_true_iff in Ek as [Ek|Ek]; apply Kind_eqb_eq in Ek; subst k|].
  destruct (Kind_eqb k K_Tuple) eqn:Et.
  - apply Kind_eqb_eq in Et. subst k. apply safe_forChildren. apply low_down in Hn; [|done].
    eapply Forall_impl; [|exact Hn]. intros c Hc [params b]. unfold decodeParams_step.
    apply safe_then; [by apply safe_decodeParam|]. intros [? ?]. decoding.
  - eapply safe_opt; [by apply decoded_paramType|]. intros st Hst. apply safe_then; [by apply safe_finish|].
    intros [? ?]. decoding.
Qed.

Lemma safe_input n : low h n -> getKind n = K_ArgumentTuple -> safe (decodeMangledFunctionInputType rec n).
Proof.
  intros Hn Hk. destruct (wf_ArgumentTuple n (low_wf _ _ Hn) Hk) as (ty & -> & _ & Hty).
  apply low_down in Hn; [|done]. inversion_clear Hn as [|? ? Ht _].
  destruct (low_Type_same ty Ht Hty) as (c & -> & Hc & Hkc). cbn. by apply safe_input_type.
Qed.
#[local] Hint Resolve safe_input : decoder.

Definition isFunctionKind (k : Kind) : bool :=
  match k with K_ObjCBlock | K_CFunctionPointer | K_ThinFunctionType | K_FunctionType => true | _ => false end.

Lemma safe_function n : isFunctionKind (getKind n) = true -> low (Datatypes.S h) n -> safe (decodeFunction rec n).
Proof.
  destruct n as [k p cs]. cbn [getKind]. intros Hk Hn. unfold decodeFunction.
  destruct k; try discriminate Hk; open_low Hn; decoding.
Qed.

Lemma safe_anyText n : safe (getText n).
Proof. intros s. unfold wp, getText. destruct (payload n); [apply safe_label|done|apply safe_label]. Qed.

Lemma safe_getText_has {A} n (k : str -> M S (option A)) : hasText n = true -> (forall t, safe (k t)) -> safe (bind (getText n) k).
Proof. intros [t Ht]%hasText_payload Hk. by eapply prints_bind_getText. Qed.

Lemma safe_implConvention st n : safe (implConvention_step st n).
Proof.
  unfold implConvention_step. destruct (getKind n); decoding;
    (apply safe_getText_has; [by apply negb_false_iff|]); intros t; apply safe_ret.
Qed.

Lemma safe_implFunction n : safe (decodeImplFunction n).
Proof.
  unfold decodeImplFunction. apply safe_then.
  - apply safe_forChildren, List.Forall_forall. intros c _ st. apply safe_implConvention.
  - intros flags. eapply prints_bind; [apply safe_emptyTuple|]. intros [r|] Hr; [apply safe_createFunctionType|done].
Qed.

(** *** Tuples *)

Lemma safe_tuple_step st n : low h n -> safe (decodeTuple_step rec st n).
Proof.
  intros Hn. destruct st as [[elements labels] variadic]. unfold decodeTuple_step.
  destruct (Kind_eqb (getKind n) K_TupleElement) eqn:Ek; cbn [negb]; [|apply safe_ret]. apply Kind_eqb_eq in Ek.
  destruct (wf_TupleElement n (low_wf _ _ Hn) Ek) as (va & na & ty & -> & Hva & Hna & Hty & Hkt).
  apply low_down in Hn; [|done]. cbn [children] in Hn. rewrite !List.Forall_app in Hn. destruct Hn as (_ & _ & Hn).
  inversion_clear Hn as [|? ? Hlow _].
  destruct Hva as [->|(v & -> & _ & Hkv)], Hna as [->|(nm & -> & Hw & Hkn)]; cbn [app].
  - decoding.
  - destruct (wf_text nm Hw) as [t Ht]; [auto|]. decoding. eapply prints_bind_getText; [exact Ht|]. decoding.
  - decoding.
  - decoding. apply safe_bind; [apply safe_anyText|]. intros text. decoding.
Qed.

Lemma safe_tuple n : getKind n = K_Tuple -> low (Datatypes.S h) n -> safe (decodeTuple rec n).
Proof.
  destruct n as [k p cs]. cbn [getKind]. intros -> Hn. unfold decodeTuple. apply low_children in Hn; [|done].
  apply safe_then; [|intros [[? ?] ?]; decoding]. apply safe_forChildren. cbn [children].
  eapply Forall_impl; [|exact Hn]. intros c Hc st. by apply safe_tuple_step.
Qed.

Lemma safe_tupleElement n : getKind n = K_TupleElement -> low (Datatypes.S h) n -> safe (decodeTupleElement rec n).
Proof.
  destruct n as [k p cs]. cbn [getKind]. intros -> Hn. unfold decodeTupleElement. open_low Hn; decoding.
Qed.

(** *** The others *)

Lemma safe_dependentGeneric n : getKind n = K_DependentGenericType -> low (Datatypes.S h) n -> safe (decodeDependentGeneric rec n).
Proof.
  destruct n as [k p cs]. cbn [getKind]. intros -> Hn. unfold decodeDependentGeneric. open_low Hn; decoding.
Qed.

Lemma safe_decodeThen create n :
  (forall T, safe (create T)) -> hasBare (getKind n) = false -> low (Datatypes.S h) n -> safe (decodeThen rec create n).
Proof. intros Hc Hk Hn. apply safe_then; [by apply safe_decodeFirst|done]. Qed.

Lemma safe_body n : low (Datatypes.S h) n -> safe (decodeMangledTypeBody rec n).
Proof.
  intros Hn. unfold decodeMangledTypeBody.
  destruct (getKind n) eqn:Ek; try (apply safe_ret);
    first [ apply safe_decodeFirst; [by rewrite Ek|done]
          | apply safe_decodeNominal; [by rewrite Ek|done]
          | apply safe_boundGeneric; [by rewrite Ek|done]
          | apply safe_metatype; [auto|done]
          | apply safe_protocolList; [auto|done]
          | apply safe_genericParam; [auto|done]
          | apply safe_function; [by rewrite Ek|done]
          | apply safe_implFunction
          | apply safe_tuple; [auto|done]
          | apply safe_tupleElement; [auto|done]
          | apply safe_dependentGeneric; [auto|done]
          | apply safe_dependentMember; [auto|done]
          | apply safe_decodeThen; [intros T; eauto with decoder nocore|by rewrite Ek|done]
          | apply safe_createBuiltinType
          | apply safe_bind; [apply safe_call, Hn|intros ?; apply safe_createBuiltinType]
          | apply safe_then; [apply safe_protocol, Hn|intros ?; apply safe_createProtocolCompositionType]].
Qed.
End body.

Lemma safe_with fuel : forall n, low fuel n -> safe (decodeMangledTypeWith fuel n).
Proof.
  induction fuel as [|fuel IH]; intros n Hn; [by destruct Hn as [_ Hn], n; unfold below in Hn; cbn in Hn; lia|].
  cbn [decodeMangledTypeWith]. by apply (safe_body fuel).
Qed.

Lemma safe_decodeMangledType node : match node with Some n => fine ok n | None => True end -> safe (decodeMangledType node).
Proof. destruct node as [n|]; intros Hn; [|apply safe_ret]. apply safe_with. split; [done|unfold below; lia]. Qed.
End safety.

(** ** Builders that keep no state *)

Class StatelessBuilder (S : Type) `{!TypeBuilder S} : Prop := {
  stateless_createNominalTypeDecl node :: Stateless (S := S) (createNominalTypeDecl node);
  stateless_createProtocolDecl node :: Stateless (S := S) (createProtocolDecl node);
  stateless_createNominalType decl parent :: Stateless (S := S) (createNominalType decl parent);
  stateless_createBoundGenericType decl args parent :: Stateless (S := S) (createBoundGenericType decl args parent);
  stateless_createBuiltinType name :: Stateless (S := S) (createBuiltinType name);
  stateless_createMetatypeType T b :: Stateless (S := S) (createMetatypeType T b);
  stateless_createExistentialMetatypeType T :: Stateless (S := S) (createExistentialMetatypeType T);
  stateless_createProtocolCompositionType ps super b ::
    Stateless (S := S) (createProtocolCompositionType ps super b);
  stateless_createGenericTypeParameterType d i :: Stateless (S := S) (createGenericTypeParameterType d i);
  stateless_createFunctionType ps result flags :: Stateless (S := S) (createFunctionType ps result flags);
  stateless_createTupleType elements labels b :: Stateless (S := S) (createTupleType elements labels b);
  stateless_createDependentMemberType m b p :: Stateless (S := S) (createDependentMemberType m b p);
  stateless_createUnownedStorageType T :: Stateless (S := S) (createUnownedStorageType T);
  stateless_createUnmanagedStorageType T :: Stateless (S := S) (createUnmanagedStorageType T);
  stateless_createWeakStorageType T :: Stateless (S := S) (createWeakStorageType T);
  stateless_createSILBoxType T :: Stateless (S := S) (createSILBoxType T)
}.

Section stateless.
Context {S : Type} `{!TypeBuilder S} `{!StatelessBuilder S}.

#[local] Instance stateless_call {A} (r : outcome A) : Stateless (S := S) (call r).
Proof. intros s s'. unfold call. by destruct r. Qed.
#[local] Instance stateless_assert site b : Stateless (S := S) (assert site b).
Proof. by destruct b. Qed.
#[local] Instance stateless_getChild n i : Stateless (S := S) (getChild n i).
Proof. intros s s'. unfold getChild. by destruct (_ !! _). Qed.
#[local] Instance stateless_getFirstChild n : Stateless (S := S) (getFirstChild n).
Proof. intros s s'. unfold getFirstChild. by destruct (children n). Qed.
#[local] Instance stateless_getText n : Stateless (S := S) (getText n).
Proof. intros s s'. unfold getText. by destruct (payload n). Qed.
#[local] Instance stateless_getIndex n : Stateless (S := S) (getIndex n).
Proof. intros s s'. unfold getIndex. by destruct (payload n). Qed.

Ltac stateless_tac :=
  repeat lazymatch goal with
  | |- forall _, _ => intros ?
  | |- Stateless (bind _ _) => apply stateless_bind
  | |- Stateless (let '(_, _) := ?x in _) => destruct x
  | |- Stateless (if _ then _ else _) => apply stateless_if
  | |- Stateless (match ?x with _ => _ end) => destruct x
  | |- Stateless _ => first [assumption|apply _]
  end.

#[local] Instance stateless_forEach {A B} (f : A -> M S (option B)) l : (forall a, Stateless (f a)) -> Stateless (forEach f l).
Proof. intros Hf. induction l; cbn [forEach]; stateless_tac. Qed.

#[local] Instance stateless_forChildren {A St} (f : St -> A -> M S (option St)) l :
  (forall st a, Stateless (f st a)) -> forall st, Stateless (forChildren f st l).
Proof. intros Hf. induction l; intros st; cbn [forChildren]; stateless_tac. Qed.

#[local] Instance stateless_protocol node : Stateless (S := S) (decodeMangledProtocolType node).
Proof.
  assert (forall m node, below m node -> Stateless (S := S) (decodeMangledProtocolType node)) as Hall;
    [|by apply (Hall (node_height node)); unfold below].
  clear node. induction m as [|m IH]; intros [k p cs] Hm; [by unfold below in Hm; cbn in Hm; lia|].
  apply below_children in Hm. cbn [decodeMangledProtocolType]. apply stateless_if; [|stateless_tac].
  destruct cs as [|c cs]; [apply _|]. inversion_clear Hm. auto.
Qed.

Section body.
Variable rec : Node -> M S (option BuiltType).
Context `{!forall n, Stateless (rec n)}.

#[local] Instance stateless_decodeFirst n : Stateless (decodeFirst rec n).
Proof. unfold decodeFirst. stateless_tac. Qed.

#[local] Instance stateless_nominal node : Stateless (decodeMangledNominalType rec node).
Proof.
  assert (forall m node, below m node -> Stateless (decodeMangledNominalType rec node)) as Hall;
    [|by apply (Hall (node_height node)); unfold below].
  clear node. induction m as [|m IH]; intros [k p cs] Hm; [by unfold below in Hm; cbn in Hm; lia|].
  apply below_children in Hm. cbn [decodeMangledNominalType]. apply stateless_if; [|stateless_tac].
  destruct cs as [|c cs]; [apply _|]. inversion_clear Hm. auto.
Qed.

#[local] Instance stateless_paramType n param b : Stateless (decodeParamTypeAndFlags rec n param b).
Proof. unfold decodeParamTypeAndFlags. stateless_tac. Qed.

#[local] Instance stateless_finishParam st : Stateless (S := S) (finishParam st).
Proof. unfold finishParam. stateless_tac. Qed.

#[local] Instance stateless_param_step st n : Stateless (decodeParam_step rec st n).
Proof. unfold decodeParam_step. stateless_tac. Qed.

#[local] Instance stateless_decodeParam n b : Stateless (decodeParam rec n b).
Proof. unfold decodeParam. stateless_tac. Qed.

#[local] Instance stateless_params_step st n : Stateless (decodeParams_step rec st n).
Proof. unfold decodeParams_step. stateless_tac. Qed.

#[local] Instance stateless_tuple_step st n : Stateless (decodeTuple_step rec st n).
Proof. unfold decodeTuple_step. stateless_tac. Qed.

#[local] Instance stateless_convention_step st n : Stateless (S := S) (implConvention_step st n).
Proof. unfold implConvention_step. stateless_tac. Qed.

#[local] Instance stateless_input node : Stateless (decodeMangledFunctionInputType rec node).
Proof.
  assert (forall m node, below m node -> Stateless (decodeMangledFunctionInputType rec node)) as Hall;
    [|by apply (Hall (node_height node)); unfold below].
  clear node. induction m as [|m IH]; intros [k p cs] Hm; [by unfold below in Hm; cbn in Hm; lia|].
  apply below_children in Hm. cbn [decodeMangledFunctionInputType].
  apply stateless_if; [|stateless_tac].
  destruct cs as [|c cs]; [apply _|]. inversion_clear Hm. auto.
Qed.

Lemma stateless_body n : Stateless (decodeMangledTypeBody rec n).
Proof.
  unfold decodeMangledTypeBody, decodeNominal, decodeBoundGeneric, decodeMetatype, decodeProtocolList, decodeProtocol,
    decodeGenericParam, decodeFunction, decodeImplFunction, decodeTuple,
    decodeTupleElement, decodeDependentGeneric, decodeDependentMember, decodeThen.
  destruct (getKind n); stateless_tac.
Qed.
End body.

Lemma stateless_with fuel : forall n, Stateless (S := S) (decodeMangledTypeWith fuel n).
Proof. induction fuel as [|fuel IH]; intros n; cbn [decodeMangledTypeWith]; [apply _|by apply stateless_body]. Qed.

#[export] Instance stateless_decodeMangledType node : Stateless (S := S) (decodeMangledType node).
Proof. destruct node; [apply stateless_with|apply _]. Qed.
End stateless.
