(* ===== verification/MetadataSource.v ===== *)
(** * Sources of metadata

    MetadataSource.h, MetadataSource.cpp and MetadataSourceBuilder.h of the
    reflection library: how a closure context describes where the metadata for its
    generic parameters comes from. [MetadataSourceEncoder] of GenReflection.cpp is
    what writes the descriptions into a binary. The builder only owns the memory:
    a source is its value here. *)

From Stdlib Require Import String.
From S2P Require Import Prelude Nodes ManglingUtils Numbers.

(** An index is an [unsigned]. *)
Inductive MetadataSource : Type :=
  | ClosureBinding (Index : Z)
  | ReferenceCapture (Index : Z)
  | MetadataCapture (Index : Z)
  | GenericArgument (Index : Z) (Source : MetadataSource)
  | SelfSource
  | SelfWitnessTable.

(** ** Encoding *)

Fixpoint encode (MS : MetadataSource) : str :=
  match MS with
  | ClosureBinding Index => lit "B" ++ decimal Index
  | ReferenceCapture Index => lit "R" ++ decimal Index
  | MetadataCapture Index => lit "M" ++ decimal Index
  | GenericArgument Index Source => lit "G" ++ decimal Index ++ encode Source ++ lit "_"
  | SelfSource => lit "S"
  | SelfWitnessTable => lit "W"
  end.

(** ** Decoding *)

(** What is left between the iterators [it] and [end]; whether [errno] is [ERANGE],
    which nothing resets. *)
Record Decoding := mkDecoding { it : str; errno_ERANGE : bool }.
Abbreviation SM := (M Decoding).

Definition setIt (rest : str) : SM unit := modify (fun s => mkDecoding rest (errno_ERANGE s)).

Definition LONG_MAX : Z := 2 ^ 63 - 1.

(** The digits in front. *)
Fixpoint leadingDigits (text : str) : str :=
  match text with
  | c :: text => if isDigit c then c :: leadingDigits text else []
  | [] => []
  end.

(** [std::strtol(text, nullptr, 10)] on digits: a [long int] of 64 bits. *)
Definition strtol (digits : str) : SM Z :=
  let value := numeral 0 digits in
  if LONG_MAX <? value then _ <- modify (fun s => mkDecoding (it s) true) ;; ret LONG_MAX else ret value.

Definition decodeNatural : SM (option Z) :=
  text <- gets it ;;
  let digits := leadingDigits text in
  _ <- setIt (drop (length digits) text) ;;
  if (length digits =? 0)%nat then ret None
  else
    decoded <- strtol digits ;;
    errno <- gets errno_ERANGE ;;
    if (decoded =? LONG_MAX) && errno then ret None else ret (Some (wrap_u32 decoded)).

(** A letter with an index behind it. *)
Definition decodeIndexed (letter : ascii) (create : Z -> MetadataSource) : SM (option MetadataSource) :=
  text <- gets it ;;
  match text with
  | [] => ret None
  | c :: rest =>
      if Ascii.eqb c letter then
        _ <- setIt rest ;;
        Index <- decodeNatural ;;
        ret (create <$> Index)
      else ret None
  end.

Definition decodeClosureBinding : SM (option MetadataSource) := decodeIndexed "B" ClosureBinding.
Definition decodeReferenceCapture : SM (option MetadataSource) := decodeIndexed "R" ReferenceCapture.
Definition decodeMetadataCapture : SM (option MetadataSource) := decodeIndexed "M" MetadataCapture.

Section decode.
Variable decode : SM (option MetadataSource).

Definition decodeGenericArgument : SM (option MetadataSource) :=
  text <- gets it ;;
  match text with
  | [] => ret None
  | c :: rest =>
      if Ascii.eqb c "G" then
        _ <- setIt rest ;;
        Index <- decodeNatural ;;
        match Index with
        | None => ret None
        | Some Index =>
            Source <- decode ;;
            match Source with
            | None => ret None
            | Some Source =>
                text <- gets it ;;
                match text with
                | [] => ret None
                | c :: rest => if Ascii.eqb c "_" then _ <- setIt rest ;; ret (Some (GenericArgument Index Source)) else ret None
                end
            end
        end
      else ret None
  end.

(** The [switch] of [decode]. *)
Definition decodeBody : SM (option MetadataSource) :=
  text <- gets it ;;
  match text with
  | [] => ret None
  | c :: rest =>
      switch c
        [ "B" ~> decodeClosureBinding;
          "R" ~> decodeReferenceCapture;
          "M" ~> decodeMetadataCapture;
          "G" ~> decodeGenericArgument;
          "S" ~> (_ <- setIt rest ;; ret (Some SelfSource)) ]
        (ret None)
  end.
End decode.

(** Every recursive call has read a character. *)
Fixpoint decodeWith (fuel : nat) : SM (option MetadataSource) :=
  match fuel with
  | O => fail OutOfFuel
  | S fuel => decodeBody (decodeWith fuel)
  end.

(** [MetadataSource::decode(A, str)]: what is behind the source is not looked at. *)
Definition decode (text : str) (errno : bool) : outcome (option MetadataSource) :=
  result (decodeWith (S (length text)) (mkDecoding text errno)).

(** ** Printing *)

(** [PrintMetadataSource], with its [Indent]. *)
Definition indent (Amount : nat) : str := repeat " "%char Amount.
Definition printHeader (Indent : nat) (Name : string) : str := indent Indent ++ lit "(" ++ lit Name.
Definition printField (name : string) (value : str) : str :=
  if String.eqb name "" then lit " " ++ value else lit " " ++ lit name ++ lit "=" ++ value.

Fixpoint visit (Indent : nat) (MS : MetadataSource) : str :=
  match MS with
  | ClosureBinding Index => printHeader Indent "closure_binding" ++ printField "index" (decimal Index) ++ lit ")"
  | ReferenceCapture Index => printHeader Indent "reference_capture" ++ printField "index" (decimal Index) ++ lit ")"
  | MetadataCapture Index => printHeader Indent "metadata_capture" ++ printField "index" (decimal Index) ++ lit ")"
  | GenericArgument Index Source =>
      printHeader Indent "generic_argument" ++ printField "index" (decimal Index)
      ++ lit "
" ++ visit (Indent + 2) Source ++ lit ")"
  | SelfSource => printHeader Indent "self" ++ lit ")"
  | SelfWitnessTable => printHeader Indent "self_witness_table" ++ lit ")"
  end.

(** [MetadataSource::dump(OS, Indent)] *)
Definition dump (MS : MetadataSource) (Indent : nat) : str := visit Indent MS ++ lit "
".

(** ** Theorems *)

(** The index of every part is an [unsigned], and there is no [SelfWitnessTable]. *)
Fixpoint encodable (MS : MetadataSource) : Prop :=
  match MS with
  | ClosureBinding Index | ReferenceCapture Index | MetadataCapture Index => 0 <= Index < 2 ^ 32
  | GenericArgument Index Source => 0 <= Index < 2 ^ 32 /\ encodable Source
  | SelfSource => True
  | SelfWitnessTable => False
  end.

Lemma leadingDigits_app ds rest :
  Forall (fun c => isDigit c = true) ds -> match rest with c :: _ => isDigit c = false | [] => True end ->
  leadingDigits (ds ++ rest) = ds.
Proof.
  intros Hd Hr. induction Hd as [|c ds Hc _ IH]; cbn [app leadingDigits].
  - destruct rest as [|c rest]; [done|]. cbn [leadingDigits]. by rewrite Hr.
  - by rewrite Hc, IH.
Qed.

(** A character that is no digit is behind the index, or none. *)
Definition noDigitFirst (rest : str) : Prop := match rest with c :: _ => isDigit c = false | [] => True end.

Lemma decodeNatural_digits ds rest errno :
  leadingDigits (ds ++ rest) = ds -> ds <> [] -> 0 <= numeral 0 ds < 2 ^ 32 ->
  decodeNatural (mkDecoding (ds ++ rest) errno) = Ok (Some (numeral 0 ds), mkDecoding rest errno).
Proof.
  intros Hl Hne Hn. unfold decodeNatural, bind, gets, setIt, modify, strtol. cbn [it errno_ERANGE].
  rewrite Hl, drop_app_length. destruct (Nat.eqb_spec (length ds) 0) as [E|_]; [by apply nil_length_inv in E|].
  destruct (Z.ltb_spec LONG_MAX (numeral 0 ds)); [unfold LONG_MAX in *; lia|]. unfold ret.
  destruct (Z.eqb_spec (numeral 0 ds) LONG_MAX); [unfold LONG_MAX in *; lia|]. cbn [andb]. by rewrite wrap_u32_id.
Qed.

Lemma decodeNatural_decimal n rest errno :
  0 <= n < 2 ^ 32 -> noDigitFirst rest ->
  decodeNatural (mkDecoding (decimal n ++ rest) errno) = Ok (Some n, mkDecoding rest errno).
Proof.
  intros Hn Hr. destruct (decimal_spec n ltac:(lia)) as (c & ds & -> & Hd & Hv & _).
  rewrite <- Hv in Hn |- *. apply decodeNatural_digits; [by apply leadingDigits_app|done|exact Hn].
Qed.

Lemma decodeIndexed_letter letter create n rest errno :
  0 <= n < 2 ^ 32 -> noDigitFirst rest ->
  decodeIndexed letter create (mkDecoding (letter :: decimal n ++ rest) errno) = Ok (Some (create n), mkDecoding rest errno).
Proof.
  intros Hn Hr. unfold decodeIndexed. unfold bind at 1, gets. cbn [it]. rewrite Ascii.eqb_refl.
  unfold bind at 1, setIt, modify. cbn [errno_ERANGE]. by rewrite (bind_ok _ _ _ _ _ (decodeNatural_decimal n rest errno Hn Hr)).
Qed.

Lemma encode_start MS : exists c rest, encode MS = c :: rest /\ isDigit c = false.
Proof. destruct MS; cbn; by eexists _, _. Qed.

Lemma decodeWith_encode MS : forall fuel rest errno,
  encodable MS -> noDigitFirst rest -> (length (encode MS) <= fuel)%nat ->
  decodeWith fuel (mkDecoding (encode MS ++ rest) errno) = Ok (Some MS, mkDecoding rest errno).
Proof.
  induction MS as [n|n|n|n MS IH| |]; intros fuel rest errno He Hr Hf;
    (destruct fuel as [|fuel]; [exfalso; match type of Hf with (length (encode ?MS) <= _)%nat =>
       destruct (encode_start MS) as (c & t & E & _); rewrite E in Hf; cbn in Hf; lia end|]); cbn [encode] in *.
  - exact (decodeIndexed_letter "B" ClosureBinding n rest errno He Hr).
  - exact (decodeIndexed_letter "R" ReferenceCapture n rest errno He Hr).
  - exact (decodeIndexed_letter "M" MetadataCapture n rest errno He Hr).
  - destruct He as [Hn He]. rewrite !length_app in Hf. cbn [lit length] in Hf.
    transitivity (decodeGenericArgument (decodeWith fuel) (mkDecoding ("G"%char :: decimal n ++ encode MS ++ "_"%char :: rest) errno)).
    { cbn [decodeWith]. rewrite <- !app_assoc. reflexivity. }
    unfold decodeGenericArgument. erewrite bind_ok by reflexivity. cbn [it].
    change (Ascii.eqb "G" "G") with true. cbn iota. erewrite bind_ok by reflexivity. cbn [errno_ERANGE].
    erewrite bind_ok; [|apply decodeNatural_decimal; [done|]].
    2:{ destruct (encode_start MS) as (c & t & -> & Hc). exact Hc. }
    cbn iota beta. erewrite bind_ok by (apply IH; [done|done|change (length (lit "_")) with 1%nat in Hf; change (length (lit "G")) with 1%nat in Hf; lia]). reflexivity.
  - reflexivity.
  - destruct He.
Qed.

(** From any text: a source that can be encoded, or none, and less of the text. *)
Definition decodes (m : SM (option MetadataSource)) (s : Decoding) : Prop :=
  wp no_crash m (fun r s' => (length (it s') <= length (it s))%nat /\ forall MS, r = Some MS -> encodable MS) s.

Lemma leadingDigits_length text : (length (leadingDigits text) <= length text)%nat.
Proof. induction text as [|c text IH]; cbn; [done|]. destruct (isDigit c); cbn; lia. Qed.

Lemma decodeNatural_spec s :
  wp no_crash decodeNatural
    (fun r s' => (length (it s') <= length (it s))%nat /\ forall n, r = Some n -> 0 <= n < 2 ^ 32) s.
Proof.
  unfold decodeNatural. apply wp_bind, wp_gets, wp_bind, wp_modify.
  destruct (length (leadingDigits (it s)) =? 0)%nat; [apply wp_ret; cbn; rewrite length_drop; split; [lia|done]|].
  apply wp_bind. unfold strtol. apply wp_if; intros _; [apply wp_bind, wp_modify|]; apply wp_ret, wp_bind, wp_gets, wp_if; intros _;
    apply wp_ret; cbn [it]; rewrite length_drop; (split; [lia|]); try done;
    intros n [= <-]; unfold wrap_u32; apply Z.mod_pos_bound; lia.
Qed.

Lemma decodeIndexed_spec letter create s :
  (forall n, 0 <= n < 2 ^ 32 -> encodable (create n)) -> decodes (decodeIndexed letter create) s.
Proof.
  intros Hc. unfold decodes, decodeIndexed. apply wp_bind, wp_gets. destruct (it s) as [|c rest] eqn:E; [apply wp_ret; rewrite E; split; [lia|done]|].
  destruct (Ascii.eqb c letter); [|apply wp_ret; rewrite E; split; [lia|done]].
  apply wp_bind, wp_modify, wp_bind. eapply wp_mono; [apply decodeNatural_spec|]. intros r s' [Hl Hr]. cbn [it] in Hl.
  apply wp_ret. split; [cbn; lia|]. destruct r as [n|]; [|done]. intros MS [= <-]. by apply Hc, Hr.
Qed.

Lemma decodeGenericArgument_spec dec s :
  (forall s', (length (it s') < length (it s))%nat -> decodes dec s') -> decodes (decodeGenericArgument dec) s.
Proof.
  intros Hdec. unfold decodes, decodeGenericArgument. apply wp_bind, wp_gets.
  destruct (it s) as [|c rest] eqn:E; [apply wp_ret; rewrite E; split; [lia|done]|]. cbn [length] in Hdec.
  destruct (Ascii.eqb c "G"); [|apply wp_ret; rewrite E; split; [lia|done]].
  apply wp_bind, wp_modify, wp_bind. eapply wp_mono; [apply decodeNatural_spec|]. intros [n|] s' [Hl Hn]; cbn [it] in Hl; [|apply wp_ret; split; [cbn; lia|done]].
  apply wp_bind. eapply wp_mono; [apply Hdec; lia|]. intros [MS|] s'' [Hl' HMS]; [|apply wp_ret; split; [cbn; lia|done]].
  apply wp_bind, wp_gets. destruct (it s'') as [|d rest'] eqn:E''; [apply wp_ret; rewrite E''; split; [cbn; lia|done]|].
  destruct (Ascii.eqb d "_"); [|apply wp_ret; rewrite E''; cbn in *; split; [lia|done]].
  cbn in *. split; [lia|]. intros ? [= <-]. split; [by apply Hn|by apply HMS].
Qed.

Lemma decodeWith_spec fuel : forall s, (length (it s) < fuel)%nat -> decodes (decodeWith fuel) s.
Proof.
  induction fuel as [|fuel IH]; intros s Hf; [lia|]. cbn [decodeWith]. unfold decodes, decodeBody. apply wp_bind, wp_gets.
  destruct (it s) as [|c rest] eqn:E; [apply wp_ret; rewrite E; split; [lia|done]|]. rewrite <- E.
  cbn [switch]. repeat match goal with |- context [if ?b then _ else _] => destruct b end;
    try (by apply decodeIndexed_spec).
  - apply decodeGenericArgument_spec. intros s1 Hs1. apply IH. rewrite E in Hs1. cbn in *. lia.
  - apply wp_bind, wp_modify, wp_ret. cbn [it]. rewrite E. split; [cbn; lia|]. by intros MS [= <-].
  - apply wp_ret. split; [lia|done].
Qed.

(** Every text is decoded, to a source that can be encoded or to none: the
    recursion ends, the index of every part is an [unsigned], and encoding what has
    been decoded and decoding it again changes nothing. *)
Theorem decode_total text errno : exists r, decode text errno = Ok r
  /\ forall MS, r = Some MS -> encodable MS /\ forall errno', decode (encode MS) errno' = Ok (Some MS).
Proof.
  pose proof (decodeWith_spec (S (length text)) (mkDecoding text errno) ltac:(cbn; lia)) as H.
  unfold decodes, wp in H. unfold decode. destruct (decodeWith _ _) as [[r s']|c]; [|done]. destruct H as [_ H].
  exists r. split; [done|]. intros MS ->. specialize (H MS eq_refl). split; [done|]. intros errno'.
  unfold decode. rewrite <- (app_nil_r (encode MS)) at 2. rewrite decodeWith_encode; [done|done|done|lia].
Qed.

(** C39. What the compiler writes for a source of metadata is decoded to the source,
    whatever [errno] is and whatever stands behind it that does not go on with a
    digit, unless it has a [SelfWitnessTable]. *)
Theorem decode_encode MS rest errno :
  encodable MS -> noDigitFirst rest -> decode (encode MS ++ rest) errno = Ok (Some MS).
Proof. intros H Hr. unfold decode. rewrite decodeWith_encode; [done|done|done|rewrite length_app; lia]. Qed.

Lemma decode_encode_witness :
  decode (encode (GenericArgument 1 (GenericArgument 0 (ReferenceCapture 12))) ++ lit "_S") true
  = Ok (Some (GenericArgument 1 (GenericArgument 0 (ReferenceCapture 12)))).
Proof. apply decode_encode; [cbn; lia|reflexivity]. Defined.

(** The encoder writes a [SelfWitnessTable] as [W], which the decoder does not
    know: no source in which one occurs can be decoded. *)
Theorem decode_SelfWitnessTable errno : decode (encode SelfWitnessTable) errno = Ok None.
Proof. reflexivity. Qed.
