(* ===== verification/TypeRef.v ===== *)
(** * Type references

    TypeRef.h and TypeRef.cpp of the reflection library: how the type of a value in
    another process is described, the visitors over the descriptions, and what can
    be substituted for the generic parameters in them.

    A [TypeRefBuilder] owns every [TypeRef] and makes each only once, so that two of
    them are the same object when they have the same parts. They are values here, and
    the comparison of pointers is equality. The [TypeRefID]s, which are the keys of
    the tables that ensure it, are at the end of the file, with what they keep apart. *)

From Stdlib Require Import String.
From stdpp Require Import gmap.
From S2P Require Import Prelude Nodes ManglingUtils Demangler DemanglingContext NodePrinter TypeDecoder.

(** ** The kinds (TypeRefs.def) *)

Inductive TypeRefKind : Type :=
  | Builtin | Nominal | BoundGeneric | Tuple | Function_ | ProtocolComposition | Metatype | ExistentialMetatype
  | GenericTypeParameter | DependentMember | ForeignClass | ObjCClass | Opaque | UnownedStorage | UnmanagedStorage
  | WeakStorage | SILBox.

#[export] Instance TypeRefKind_eq_dec : EqDecision TypeRefKind.
Proof. solve_decision. Defined.

(** A null [Parent] or [Superclass] is [None]. The protocols of a composition are
    [NominalTypeRef]s. [Depth] and [Index] are [uint32_t]s. *)
Inductive TypeRef : Type :=
  | BuiltinTypeRef (MangledName : str)
  | NominalTypeRef (MangledName : str) (Parent : option TypeRef)
  | BoundGenericTypeRef (MangledName : str) (GenericParams : list TypeRef) (Parent : option TypeRef)
  | TupleTypeRef (Elements : list TypeRef) (Variadic : bool)
  | FunctionTypeRef (Parameters : list (FunctionParam TypeRef)) (Result : TypeRef) (Flags : Z)
  | ProtocolCompositionTypeRef (Protocols : list TypeRef) (Superclass : option TypeRef) (HasExplicitAnyObject : bool)
  | MetatypeTypeRef (InstanceType : TypeRef) (WasAbstract : bool)
  | ExistentialMetatypeTypeRef (InstanceType : TypeRef)
  | GenericTypeParameterTypeRef (Depth Index : Z)
  | DependentMemberTypeRef (Member : str) (Base : TypeRef) (Protocol : str)
  | ForeignClassTypeRef (Name : str)
  | ObjCClassTypeRef (Name : str)
  | OpaqueTypeRef
  | UnownedStorageTypeRef (Type_ : TypeRef)
  | UnmanagedStorageTypeRef (Type_ : TypeRef)
  | WeakStorageTypeRef (Type_ : TypeRef)
  | SILBoxTypeRef (BoxedType : TypeRef).

(** The induction principle for the nested lists and options. *)
Definition onOption {A} (P : A -> Prop) (o : option A) : Prop := match o with Some a => P a | None => True end.
Definition onParams {A} (P : A -> Prop) : list (FunctionParam A) -> Prop := Forall (fun param => P (Type_ param)).

Section TypeRef_ind.
Context (P : TypeRef -> Prop)
  (HBuiltin : forall Name, P (BuiltinTypeRef Name))
  (HNominal : forall Name Parent, onOption P Parent -> P (NominalTypeRef Name Parent))
  (HBoundGeneric : forall Name Params Parent, Forall P Params -> onOption P Parent -> P (BoundGenericTypeRef Name Params Parent))
  (HTuple : forall Elements Variadic, Forall P Elements -> P (TupleTypeRef Elements Variadic))
  (HFunction : forall Params Result Flags, onParams P Params -> P Result -> P (FunctionTypeRef Params Result Flags))
  (HComposition : forall Protocols Superclass b,
     Forall P Protocols -> onOption P Superclass -> P (ProtocolCompositionTypeRef Protocols Superclass b))
  (HMetatype : forall Instance_ b, P Instance_ -> P (MetatypeTypeRef Instance_ b))
  (HExistential : forall Instance_, P Instance_ -> P (ExistentialMetatypeTypeRef Instance_))
  (HParameter : forall Depth Index, P (GenericTypeParameterTypeRef Depth Index))
  (HMember : forall Member Base Protocol, P Base -> P (DependentMemberTypeRef Member Base Protocol))
  (HForeign : forall Name, P (ForeignClassTypeRef Name))
  (HObjC : forall Name, P (ObjCClassTypeRef Name))
  (HOpaque : P OpaqueTypeRef)
  (HUnowned : forall Type_, P Type_ -> P (UnownedStorageTypeRef Type_))
  (HUnmanaged : forall Type_, P Type_ -> P (UnmanagedStorageTypeRef Type_))
  (HWeak : forall Type_, P Type_ -> P (WeakStorageTypeRef Type_))
  (HSILBox : forall Type_, P Type_ -> P (SILBoxTypeRef Type_)).

Fixpoint TypeRef_nested_ind (TR : TypeRef) : P TR :=
  let all := fix all (l : list TypeRef) : Forall P l :=
    match l with
    | [] => Forall_nil_2 P
    | x :: l => Forall_cons_2 P x l (TypeRef_nested_ind x) (all l)
    end in
  let opt (o : option TypeRef) : onOption P o := match o with Some x => TypeRef_nested_ind x | None => I end in
  match TR with
  | BuiltinTypeRef Name => HBuiltin Name
  | NominalTypeRef Name Parent => HNominal Name Parent (opt Parent)
  | BoundGenericTypeRef Name Params Parent => HBoundGeneric Name Params Parent (all Params) (opt Parent)
  | TupleTypeRef Elements Variadic => HTuple Elements Variadic (all Elements)
  | FunctionTypeRef Params Result Flags =>
      HFunction Params Result Flags
        ((fix go (l : list (FunctionParam TypeRef)) : onParams P l :=
            match l with
            | [] => Forall_nil_2 _
            | mkParam lb x fl :: l => Forall_cons_2 _ (mkParam lb x fl) l (TypeRef_nested_ind x) (go l)
            end) Params) (TypeRef_nested_ind Result)
  | ProtocolCompositionTypeRef Protocols Superclass b => HComposition Protocols Superclass b (all Protocols) (opt Superclass)
  | MetatypeTypeRef Instance_ b => HMetatype Instance_ b (TypeRef_nested_ind Instance_)
  | ExistentialMetatypeTypeRef Instance_ => HExistential Instance_ (TypeRef_nested_ind Instance_)
  | GenericTypeParameterTypeRef Depth Index => HParameter Depth Index
  | DependentMemberTypeRef Member Base Protocol => HMember Member Base Protocol (TypeRef_nested_ind Base)
  | ForeignClassTypeRef Name => HForeign Name
  | ObjCClassTypeRef Name => HObjC Name
  | OpaqueTypeRef => HOpaque
  | UnownedStorageTypeRef x => HUnowned x (TypeRef_nested_ind x)
  | UnmanagedStorageTypeRef x => HUnmanaged x (TypeRef_nested_ind x)
  | WeakStorageTypeRef x => HWeak x (TypeRef_nested_ind x)
  | SILBoxTypeRef x => HSILBox x (TypeRef_nested_ind x)
  end.
End TypeRef_ind.

Lemma TypeRef_eq_dec_aux (x y : TypeRef) : {x = y} + {x <> y}.
Proof.
  revert x y. fix IH 1. intros x y.
  assert (Hs : forall a b : str, {a = b} + {a <> b}) by apply list_eq_dec, Ascii.ascii_dec.
  assert (Ho : forall a b : option TypeRef, {a = b} + {a <> b}) by decide equality.
  assert (Hl : forall a b : list TypeRef, {a = b} + {a <> b}) by decide equality.
  assert (Hb : forall a b : bool, {a = b} + {a <> b}) by decide equality.
  assert (Hp : forall a b : list (FunctionParam TypeRef), {a = b} + {a <> b}).
  { decide equality. decide equality. apply Z.eq_dec. }
  decide equality; apply Z.eq_dec.
Defined.

#[export] Instance TypeRef_eq_dec : EqDecision TypeRef := TypeRef_eq_dec_aux.

Definition getKind_ (TR : TypeRef) : TypeRefKind :=
  match TR with
  | BuiltinTypeRef _ => Builtin
  | NominalTypeRef _ _ => Nominal
  | BoundGenericTypeRef _ _ _ => BoundGeneric
  | TupleTypeRef _ _ => Tuple
  | FunctionTypeRef _ _ _ => Function_
  | ProtocolCompositionTypeRef _ _ _ => ProtocolComposition
  | MetatypeTypeRef _ _ => Metatype
  | ExistentialMetatypeTypeRef _ => ExistentialMetatype
  | GenericTypeParameterTypeRef _ _ => GenericTypeParameter
  | DependentMemberTypeRef _ _ _ => DependentMember
  | ForeignClassTypeRef _ => ForeignClass
  | ObjCClassTypeRef _ => ObjCClass
  | OpaqueTypeRef => Opaque
  | UnownedStorageTypeRef _ => UnownedStorage
  | UnmanagedStorageTypeRef _ => UnmanagedStorage
  | WeakStorageTypeRef _ => WeakStorage
  | SILBoxTypeRef _ => SILBox
  end.

(** [ReferenceStorageTypeRef::classof] *)
Definition ReferenceStorageTypeRef_classof (TR : TypeRef) : bool :=
  bool_decide (getKind_ TR = UnownedStorage) && bool_decide (getKind_ TR = WeakStorage)
  && bool_decide (getKind_ TR = UnmanagedStorage).

(** [DepthAndIndex] and [GenericArgumentMap]. The [DenseMap] keeps two keys, the
    highest, for itself. *)
Abbreviation DepthAndIndex := (Z * Z)%type.
Abbreviation GenericArgumentMap := (gmap DepthAndIndex TypeRef).

(** [insert], which leaves a key that is there alone. *)
Definition insertNew (key : DepthAndIndex) (TR : TypeRef) (Subs : GenericArgumentMap) : GenericArgumentMap :=
  match Subs !! key with Some _ => Subs | None => <[key := TR]> Subs end.

(** ** What a nominal type is *)

Section traits.
Context {S : Type}.

(** [isStruct(Node)] and the others look below [Type] nodes. *)
Fixpoint nodeIs (kinds : list Kind) (node : Node) : M S bool :=
  match node with
  | mkNode kind _ cs =>
      if Kind_eqb kind K_Type then
        match cs with
        | c :: _ => nodeIs kinds c
        | [] => fail (AssertionFailed "Node::getChild")
        end
      else ret (existsb (Kind_eqb kind) kinds)
  end.

(** [NominalTypeTrait::isStruct()] and the others have a demangler of their own. *)
Definition traitIs (kinds : list Kind) (MangledName : str) : M S bool :=
  Demangled <- call (result (Demangler.demangleType MangledName newDemangler)) ;;
  match Demangled with
  | Some node => nodeIs kinds node
  | None => fail (NullPointer "Node->getKind()")
  end.

Definition isStruct : str -> M S bool := traitIs [K_Structure; K_BoundGenericStructure].
Definition isEnum : str -> M S bool := traitIs [K_Enum; K_BoundGenericEnum].
Definition isClass : str -> M S bool := traitIs [K_Class; K_BoundGenericClass].
Definition isProtocol (MangledName : str) : M S bool :=
  adjustedMangledName <- dropSwiftManglingPrefix MangledName ;; traitIs [K_Protocol] adjustedMangledName.
Definition isAlias : str -> M S bool := traitIs [K_TypeAlias].

Definition isErrorProtocol (MangledName : str) : bool := str_eqb MangledName (lit "s5ErrorP").

(** [NominalTypeTrait::getDepth()] *)
Fixpoint getDepth (TR : TypeRef) : M S Z :=
  match TR with
  | NominalTypeRef _ Parent | BoundGenericTypeRef _ _ Parent =>
      match Parent with
      | Some P => depth <- getDepth P ;; ret (wrap_u32 (1 + depth))
      | None => ret 0
      end
  | _ => fail (AssertionFailed "cast<BoundGenericTypeRef>")
  end.

(** The loop over the generic parameters. *)
Fixpoint insertParams (Depth Index : Z) (Params : list TypeRef) (Substitutions : GenericArgumentMap) : GenericArgumentMap :=
  match Params with
  | [] => Substitutions
  | Param :: Params =>
      insertParams Depth (wrap_u32 (Index + 1)) Params (insertNew (Depth, Index) Param Substitutions)
  end.

Fixpoint getSubstMap (TR : TypeRef) : M S GenericArgumentMap :=
  match TR with
  | NominalTypeRef _ Parent => match Parent with Some P => getSubstMap P | None => ret ∅ end
  | BoundGenericTypeRef _ GenericParams Parent =>
      Depth <- getDepth TR ;;
      let Substitutions := insertParams Depth 0 GenericParams ∅ in
      match Parent with
      | Some P => ParentSubs <- getSubstMap P ;; ret (Substitutions ∪ ParentSubs)
      | None => ret Substitutions
      end
  | _ => ret ∅
  end.
End traits.

(** ** Printing *)

(** The stream [OS]. *)
Abbreviation PrintM := (M str).
Definition write (text : str) : PrintM unit := modify (fun OS => OS ++ text).
Definition newline : str := ["010"%char].

(** A loop over what is printed. *)
Section each.
Context {S A : Type}.
Variable f : A -> M S unit.
Fixpoint each (l : list A) : M S unit :=
  match l with
  | [] => ret tt
  | a :: l => f a ;; each l
  end.
End each.

(** [PrintTypeRef]: [Indent], which every call gives back, is an argument. *)
Definition printHeader (Indent : nat) (Name : string) : PrintM unit :=
  write (repeat " "%char Indent ++ lit "(" ++ lit Name).

Definition printField (name : string) (value : str) : PrintM unit :=
  if String.eqb name "" then write (lit " " ++ value) else write (lit " " ++ lit name ++ lit "=" ++ value).

(** [depth] bounds how deeply names inside names are demangled. *)
Definition printDemangled (depth : nat) (MangledName : str) : PrintM unit :=
  demangled <- call (demangleTypeAsString depth MangledName defaultDemangleOptions) ;; printField "" demangled.

(** The header of a nominal type, and the name that is demangled. *)
Definition printNominalHeader (Indent : nat) (MangledName : str) : PrintM str :=
  b <- isStruct MangledName ;;
  if (b : bool) then printHeader Indent "struct" ;; ret MangledName
  else
    b <- isEnum MangledName ;;
    if (b : bool) then printHeader Indent "enum" ;; ret MangledName
    else
      b <- isClass MangledName ;;
      if (b : bool) then printHeader Indent "class" ;; ret MangledName
      else
        b <- isProtocol MangledName ;;
        if (b : bool) then printHeader Indent "protocol" ;; dropSwiftManglingPrefix MangledName
        else
          b <- isAlias MangledName ;;
          printHeader Indent (if (b : bool) then "alias" else "nominal") ;; ret MangledName.

Definition printBoundGenericHeader (Indent : nat) (MangledName : str) : PrintM unit :=
  b <- isStruct MangledName ;;
  if (b : bool) then printHeader Indent "bound_generic_struct"
  else
    b <- isEnum MangledName ;;
    if (b : bool) then printHeader Indent "bound_generic_enum"
    else
      b <- isClass MangledName ;;
      printHeader Indent (if (b : bool) then "bound_generic_class" else "bound_generic").

Definition printConvention (convention : Z) : PrintM unit :=
  if convention =? Convention_Block then printField "convention" (lit "block")
  else if convention =? Convention_Thin then printField "convention" (lit "thin")
  else if convention =? Convention_CFunctionPointer then printField "convention" (lit "c")
  else ret tt.

Section printParam.
Variable printRec : nat -> TypeRef -> PrintM unit.

(** One parameter of a function. *)
Definition printParam (Indent : nat) (param : FunctionParam TypeRef) : PrintM unit :=
  let flags := Flags param in
  let Indent := if ParameterFlags.isNone flags then Indent else (Indent + 2)%nat in
  when (negb (ParameterFlags.isNone flags)) (write newline) ;;
  when (ParameterFlags.isInOut flags) (printHeader Indent "inout") ;;
  when (ParameterFlags.isVariadic flags) (printHeader Indent "variadic") ;;
  when (ParameterFlags.isShared flags) (printHeader Indent "shared") ;;
  printRec Indent (Type_ param) ;;
  when (negb (ParameterFlags.isNone flags)) (write (lit ")")).
End printParam.

Section print.
Variable depth : nat.

Fixpoint printVisit (Indent : nat) (TR : TypeRef) : PrintM unit :=
  let printRec Indent TR := write newline ;; printVisit (Indent + 2) TR in
  let printOption Indent o := match o with Some TR => printRec Indent TR | None => ret tt end in
  let printAround Name TR := printHeader Indent Name ;; printRec Indent TR ;; write (lit ")") in
  let printNamed Header Name :=
    printHeader Indent Header ;; when (negb (length Name =? 0)%nat) (printField "name" Name) ;; write (lit ")") in
  match TR with
  | BuiltinTypeRef MangledName => printHeader Indent "builtin" ;; printDemangled depth MangledName ;; write (lit ")")
  | NominalTypeRef MangledName Parent =>
      mangledName <- printNominalHeader Indent MangledName ;;
      printDemangled depth mangledName ;;
      printOption Indent Parent ;;
      write (lit ")")
  | BoundGenericTypeRef MangledName GenericParams Parent =>
      printBoundGenericHeader Indent MangledName ;;
      printDemangled depth MangledName ;;
      each (printRec Indent) GenericParams ;;
      printOption Indent Parent ;;
      write (lit ")")
  | TupleTypeRef Elements _ => printHeader Indent "tuple" ;; each (printRec Indent) Elements ;; write (lit ")")
  | FunctionTypeRef Parameters Result Flags =>
      printHeader Indent "function" ;;
      printConvention (FunctionTypeFlags.getConvention Flags) ;;
      write newline ;;
      let Indent := (Indent + 2)%nat in
      printHeader Indent "parameters" ;;
      each (printParam printRec Indent) Parameters ;;
      when (length Parameters =? 0)%nat (write (lit ")")) ;;
      write newline ;;
      printHeader Indent "result" ;;
      printRec Indent Result ;;
      write (lit ")")
  | ProtocolCompositionTypeRef Protocols Superclass HasExplicitAnyObject =>
      printHeader Indent "protocol_composition" ;;
      when HasExplicitAnyObject (write (lit " any_object")) ;;
      printOption Indent Superclass ;;
      each (printRec Indent) Protocols ;;
      write (lit ")")
  | MetatypeTypeRef InstanceType WasAbstract =>
      printHeader Indent "metatype" ;;
      when WasAbstract (printField "" (lit "was_abstract")) ;;
      printRec Indent InstanceType ;;
      write (lit ")")
  | ExistentialMetatypeTypeRef InstanceType => printAround "existential_metatype"%string InstanceType
  | GenericTypeParameterTypeRef Depth Index =>
      printHeader Indent "generic_type_parameter" ;;
      printField "depth" (decimal Depth) ;;
      printField "index" (decimal Index) ;;
      write (lit ")")
  | DependentMemberTypeRef Member Base Protocol =>
      printHeader Indent "dependent_member" ;;
      printField "protocol" Protocol ;;
      printRec Indent Base ;;
      printField "member" Member ;;
      write (lit ")")
  | ForeignClassTypeRef Name => printNamed "foreign"%string Name
  | ObjCClassTypeRef Name => printNamed "objective_c_class"%string Name
  | OpaqueTypeRef => printHeader Indent "opaque" ;; write (lit ")")
  | UnownedStorageTypeRef Type_ => printAround "unowned_storage"%string Type_
  | UnmanagedStorageTypeRef Type_ => printAround "unmanaged_storage"%string Type_
  | WeakStorageTypeRef Type_ => printAround "weak_storage"%string Type_
  | SILBoxTypeRef BoxedType => printAround "sil_box"%string BoxedType
  end.

(** [TypeRef::dump(OS, Indent)] *)
Definition dump (TR : TypeRef) (Indent : nat) : PrintM unit := printVisit Indent TR ;; write newline.
End print.

(** ** Concrete types *)

(** [TypeRefIsConcrete] *)
Fixpoint isConcreteVisit (Subs : GenericArgumentMap) (TR : TypeRef) : bool :=
  let visitOption o := match o with Some TR => isConcreteVisit Subs TR | None => true end in
  match TR with
  | BuiltinTypeRef _ | ForeignClassTypeRef _ | ObjCClassTypeRef _ | OpaqueTypeRef => true
  | NominalTypeRef _ Parent => visitOption Parent
  | BoundGenericTypeRef _ GenericParams Parent => visitOption Parent && forallb (isConcreteVisit Subs) GenericParams
  | TupleTypeRef Elements _ => forallb (isConcreteVisit Subs) Elements
  | FunctionTypeRef Parameters Result _ =>
      forallb (fun Param => isConcreteVisit Subs (Type_ Param)) Parameters && isConcreteVisit Subs Result
  | ProtocolCompositionTypeRef Protocols Superclass _ =>
      forallb (isConcreteVisit Subs) Protocols && visitOption Superclass
  | MetatypeTypeRef InstanceType _ | ExistentialMetatypeTypeRef InstanceType => isConcreteVisit Subs InstanceType
  | GenericTypeParameterTypeRef Depth Index => bool_decide (is_Some (Subs !! (Depth, Index)))
  | DependentMemberTypeRef _ Base _ => isConcreteVisit Subs Base
  | UnownedStorageTypeRef Type_ | UnmanagedStorageTypeRef Type_ | WeakStorageTypeRef Type_ => isConcreteVisit Subs Type_
  | SILBoxTypeRef BoxedType => isConcreteVisit Subs BoxedType
  end.

Definition isConcrete (TR : TypeRef) : bool := isConcreteVisit ∅ TR.
Definition isConcreteAfterSubstitutions (TR : TypeRef) (Subs : GenericArgumentMap) : bool := isConcreteVisit Subs TR.

(** ** Substitution *)

(** [ThickenMetatype]. A new tuple is not variadic, and a new bound generic type has no parent. *)
Fixpoint thickenMetatypes (TR : TypeRef) : TypeRef :=
  match TR with
  | BoundGenericTypeRef MangledName GenericParams _ =>
      BoundGenericTypeRef MangledName (map thickenMetatypes GenericParams) None
  | TupleTypeRef Elements _ => TupleTypeRef (map thickenMetatypes Elements) false
  | FunctionTypeRef Parameters Result Flags =>
      FunctionTypeRef (map (fun Param => withType Param (thickenMetatypes (Type_ Param))) Parameters)
        (thickenMetatypes Result) Flags
  | MetatypeTypeRef InstanceType _ => MetatypeTypeRef (thickenMetatypes InstanceType) true
  | SILBoxTypeRef BoxedType => SILBoxTypeRef (thickenMetatypes BoxedType)
  | _ => TR
  end.

(** [f] on each. *)
Section mapM.
Context {S A B : Type}.
Variable f : A -> M S B.
Fixpoint mapM (l : list A) : M S (list B) :=
  match l with
  | [] => ret []
  | a :: l => b <- f a ;; bs <- mapM l ;; ret (b :: bs)
  end.
End mapM.

(** [TypeRefSubstitution], with what it asks of the builder. *)
Section subst.
Context {S : Type}.
Variable lookupTypeWitness : str -> str -> str -> M S (option TypeRef).
Variable lookupSuperclass : TypeRef -> M S (option TypeRef).
(** [TypeWitness->subst(Builder, Subs)] *)
Variable subst : TypeRef -> GenericArgumentMap -> M S TypeRef.
(** How many superclasses are looked at. *)
Variable fuel : nat.

(** The loop of [visitDependentMemberTypeRef]: the base it ends with, and the witness. *)
Definition findTypeWitness_step (Member Protocol : str) (SubstBase : TypeRef)
    : M S (TypeRef + TypeRef * option TypeRef) :=
  TypeWitness <-
    match SubstBase with
    | NominalTypeRef MangledName _ | BoundGenericTypeRef MangledName _ _ =>
        lookupTypeWitness MangledName Member Protocol
    | _ => fail (AssertionFailed "cast<BoundGenericTypeRef>")
    end ;;
  match TypeWitness with
  | Some _ => ret (inr (SubstBase, TypeWitness))
  | None =>
      Superclass <- lookupSuperclass SubstBase ;;
      match Superclass with
      | None => ret (inr (SubstBase, None))
      | Some Superclass => ret (inl Superclass)
      end
  end.

Definition substDependentMember (Member Protocol : str) (SubstBase : TypeRef) : M S TypeRef :=
  r <- loop fuel (findTypeWitness_step Member Protocol) SubstBase ;;
  let '(SubstBase, TypeWitness) := r in
  match TypeWitness with
  | None => ret (DependentMemberTypeRef Member SubstBase Protocol)
  | Some TypeWitness =>
      Subs <- getSubstMap SubstBase ;;
      Subst <- subst TypeWitness Subs ;;
      ret (thickenMetatypes Subst)
  end.

Fixpoint substVisit (Substitutions : GenericArgumentMap) (TR : TypeRef) : M S TypeRef :=
  let visitOption o :=
    match o with Some TR => TR <- substVisit Substitutions TR ;; ret (Some TR) | None => ret None end in
  match TR with
  | BuiltinTypeRef _ | ProtocolCompositionTypeRef _ _ _ | ForeignClassTypeRef _ | ObjCClassTypeRef _ | OpaqueTypeRef => ret TR
  | NominalTypeRef MangledName Parent =>
      Parent <- visitOption Parent ;; ret (NominalTypeRef MangledName Parent)
  | BoundGenericTypeRef MangledName GenericParams Parent =>
      Parent <- visitOption Parent ;;
      GenericParams <- mapM (substVisit Substitutions) GenericParams ;;
      ret (BoundGenericTypeRef MangledName GenericParams Parent)
  | TupleTypeRef Elements _ =>
      Elements <- mapM (substVisit Substitutions) Elements ;; ret (TupleTypeRef Elements false)
  | FunctionTypeRef Parameters Result Flags =>
      SubstitutedParams <-
        mapM (fun Param => TR <- substVisit Substitutions (Type_ Param) ;; ret (withType Param TR)) Parameters ;;
      SubstitutedResult <- substVisit Substitutions Result ;;
      ret (FunctionTypeRef SubstitutedParams SubstitutedResult Flags)
  | MetatypeTypeRef InstanceType _ =>
      if isConcrete TR then ret TR
      else InstanceType <- substVisit Substitutions InstanceType ;; ret (MetatypeTypeRef InstanceType true)
  | ExistentialMetatypeTypeRef InstanceType =>
      assert "EM->getInstanceType()->isConcrete()" (isConcrete InstanceType) ;; ret TR
  | GenericTypeParameterTypeRef Depth Index =>
      match Substitutions !! (Depth, Index) with
      | None => ret TR
      | Some found => assert "found->second->isConcrete()" (isConcrete found) ;; ret (thickenMetatypes found)
      end
  | DependentMemberTypeRef Member Base Protocol =>
      SubstBase <- substVisit Substitutions Base ;; substDependentMember Member Protocol SubstBase
  | UnownedStorageTypeRef Type_ => Type_ <- substVisit Substitutions Type_ ;; ret (UnownedStorageTypeRef Type_)
  | UnmanagedStorageTypeRef Type_ => Type_ <- substVisit Substitutions Type_ ;; ret (UnmanagedStorageTypeRef Type_)
  | WeakStorageTypeRef Type_ => Type_ <- substVisit Substitutions Type_ ;; ret (WeakStorageTypeRef Type_)
  | SILBoxTypeRef BoxedType => BoxedType <- substVisit Substitutions BoxedType ;; ret (SILBoxTypeRef BoxedType)
  end.
End subst.

(** ** Deriving substitutions *)

(** Two lists in parallel, until it fails. *)
Section deriveAll.
Context {S A : Type}.
Variable derive : A -> A -> M S bool.
Fixpoint deriveAll (Os Ss : list A) : M S bool :=
  match Os, Ss with
  | O_ :: Os, S_ :: Ss => ok <- derive O_ S_ ;; if (ok : bool) then deriveAll Os Ss else ret false
  | _, _ => ret true
  end.
End deriveAll.

Abbreviation DeriveM := (M GenericArgumentMap).

(** The last three cases. *)
Definition deriveLeaf (OrigTR SubstTR : TypeRef) : DeriveM bool :=
  match OrigTR with
  | DependentMemberTypeRef _ _ _ => ret true
  | GenericTypeParameterTypeRef Depth Index =>
      Subs <- get ;;
      match Subs !! (Depth, Index) with
      | None => modify (fun Subs => <[(Depth, Index) := SubstTR]> Subs) ;; ret true
      | Some found => ret (bool_decide (found = SubstTR))
      end
  | _ => ret (bool_decide (OrigTR = SubstTR))
  end.

Definition isSome {A} (o : option A) : bool := match o with Some _ => true | None => false end.

(** [TypeRef::deriveSubstitutions(Subs, OrigTR, SubstTR)]: [Subs] is the state. *)
Fixpoint deriveSubstitutions (OrigTR SubstTR : TypeRef) : DeriveM bool :=
  let deriveParents oParent sParent (rest : DeriveM bool) :=
    match oParent, sParent with
    | Some o, Some s => ok <- deriveSubstitutions o s ;; if (ok : bool) then rest else ret false
    | _, _ => rest
    end in
  match OrigTR, SubstTR with
  | NominalTypeRef oName oParent, NominalTypeRef sName sParent =>
      if negb (Bool.eqb (isSome oParent) (isSome sParent)) || negb (str_eqb oName sName) then ret false
      else deriveParents oParent sParent (ret true)
  | BoundGenericTypeRef oName oParams oParent, BoundGenericTypeRef sName sParams sParent =>
      if negb (Bool.eqb (isSome oParent) (isSome sParent)) || negb (str_eqb oName sName)
         || negb (length oParams =? length sParams)%nat then ret false
      else deriveParents oParent sParent (deriveAll deriveSubstitutions oParams sParams)
  | TupleTypeRef oElements _, TupleTypeRef sElements _ =>
      if negb (length oElements =? length sElements)%nat then ret false
      else deriveAll deriveSubstitutions oElements sElements
  | FunctionTypeRef oParams oResult _, FunctionTypeRef sParams sResult _ =>
      if negb (length oParams =? length sParams)%nat then ret false
      else
        ok <- deriveAll (fun o s => deriveSubstitutions (Type_ o) (Type_ s)) oParams sParams ;;
        if (ok : bool) then deriveSubstitutions oResult sResult else ret false
  | MetatypeTypeRef o _, MetatypeTypeRef s _ => deriveSubstitutions o s
  | (UnownedStorageTypeRef o | UnmanagedStorageTypeRef o | WeakStorageTypeRef o),
    (UnownedStorageTypeRef s | UnmanagedStorageTypeRef s | WeakStorageTypeRef s) =>
      if ReferenceStorageTypeRef_classof OrigTR && ReferenceStorageTypeRef_classof SubstTR then
        if negb (bool_decide (getKind_ OrigTR = getKind_ SubstTR)) then ret false else deriveSubstitutions o s
      else deriveLeaf OrigTR SubstTR
  | _, _ => deriveLeaf OrigTR SubstTR
  end.

(** ** Identifiers *)

(** [char] is signed: the conversion to [uint32_t]. *)
Definition charToUInt32 (c : ascii) : Z := wrap_u32 (if ord c <? 128 then ord c else ord c - 256).

(** [TypeRefID::addString(String)]: what it puts behind [Bits]. *)
Fixpoint stringBits (String : str) : list Z :=
  match String with
  | c0 :: c1 :: c2 :: c3 :: rest =>
      wrap_u32 (charToUInt32 c0 + Z.shiftl (charToUInt32 c1) 8 + Z.shiftl (charToUInt32 c2) 16
                + Z.shiftl (charToUInt32 c3) 24) :: stringBits rest
  | _ => map charToUInt32 String
  end.

Definition addString (Bits : list Z) (String : str) : list Z :=
  Bits ++ (if (length String =? 0)%nat then [0] else stringBits String).
