(* ===== verification/TypeRefTheorems.v ===== *)
(** * What holds of type references

    Substitution on the types that it rebuilds without losing anything is the
    substitution of a simultaneous map, which is stated as a pure function, and
    deriving substitutions inverts it. The words of a [TypeRefID] determine the
    string they stand for. *)

From stdpp Require Import gmap.
From S2P Require Import Prelude Nodes ManglingUtils TypeDecoder TypeRef.

(** ** Concrete types *)


Lemma forallb_Forall {A} (f : A -> bool) l : forallb f l = true <-> Forall (fun a => f a = true) l.
Proof. induction l as [|a l IH]; cbn; [by split|]. by rewrite Forall_cons_iff, andb_true_iff, IH. Qed.





(** ** Substitution as a function *)

(** Every generic parameter is replaced at once, with what a metatype then has. *)
Fixpoint applySubst (Subs : GenericArgumentMap) (TR : TypeRef) : TypeRef :=
  match TR with
  | NominalTypeRef Name Parent => NominalTypeRef Name (applySubst Subs <$> Parent)
  | BoundGenericTypeRef Name Params Parent =>
      BoundGenericTypeRef Name (map (applySubst Subs) Params) (applySubst Subs <$> Parent)
  | TupleTypeRef Elements Variadic => TupleTypeRef (map (applySubst Subs) Elements) Variadic
  | FunctionTypeRef Params Result Flags =>
      FunctionTypeRef (map (fun Param => withType Param (applySubst Subs (Type_ Param))) Params)
        (applySubst Subs Result) Flags
  | MetatypeTypeRef InstanceType _ => if isConcrete InstanceType then TR else MetatypeTypeRef (applySubst Subs InstanceType) true
  | GenericTypeParameterTypeRef Depth Index =>
      match Subs !! (Depth, Index) with Some found => thickenMetatypes found | None => TR end
  | UnownedStorageTypeRef Type_ => UnownedStorageTypeRef (applySubst Subs Type_)
  | UnmanagedStorageTypeRef Type_ => UnmanagedStorageTypeRef (applySubst Subs Type_)
  | WeakStorageTypeRef Type_ => WeakStorageTypeRef (applySubst Subs Type_)
  | SILBoxTypeRef BoxedType => SILBoxTypeRef (applySubst Subs BoxedType)
  | _ => TR
  end.

(** The types whose substitution needs no metadata and drops nothing: no dependent
    members, no variadic tuples, and existential types without parameters. *)
Fixpoint regular (TR : TypeRef) : bool :=
  let onOption o := match o with Some TR => regular TR | None => true end in
  match TR with
  | NominalTypeRef _ Parent => onOption Parent
  | BoundGenericTypeRef _ Params Parent => forallb regular Params && onOption Parent
  | TupleTypeRef Elements Variadic => forallb regular Elements && negb Variadic
  | FunctionTypeRef Params Result _ => forallb (fun Param => regular (Type_ Param)) Params && regular Result
  | ProtocolCompositionTypeRef _ _ _ => isConcrete TR
  | MetatypeTypeRef InstanceType _ => regular InstanceType
  | ExistentialMetatypeTypeRef InstanceType => isConcrete InstanceType
  | DependentMemberTypeRef _ _ _ => false
  | UnownedStorageTypeRef Type_ | UnmanagedStorageTypeRef Type_ | WeakStorageTypeRef Type_ => regular Type_
  | SILBoxTypeRef BoxedType => regular BoxedType
  | _ => true
  end.

(** Only concrete types may be put for parameters: the assertion. *)
Definition concreteSubs (Subs : GenericArgumentMap) : Prop := map_Forall (fun _ TR => isConcrete TR = true) Subs.

Lemma map_ext_Forall {A B} (f g : A -> B) l : Forall (fun a => f a = g a) l -> map f l = map g l.
Proof. induction 1 as [|a l H _ IH]; cbn; [done|]. by rewrite H, IH. Qed.

Lemma mapM_Forall {S A B} (f : A -> M S B) (g : A -> B) s l :
  Forall (fun a => f a s = Ok (g a, s)) l -> mapM f l s = Ok (map g l, s).
Proof.
  induction 1 as [|a l H _ IH]; cbn; [done|]. by rewrite (bind_ok _ _ _ _ _ H), (bind_ok _ _ _ _ _ IH).
Qed.

Lemma Forall_forallb_mp {A} (f : A -> bool) (P : A -> Prop) l :
  Forall (fun a => f a = true -> P a) l -> forallb f l = true -> Forall P l.
Proof. intros H Hf. apply forallb_Forall in Hf. induction H; inversion_clear Hf; constructor; auto. Qed.

(** A concrete type is not changed. *)
Lemma applySubst_concrete Subs TR : isConcrete TR = true -> applySubst Subs TR = TR.
Proof.
  unfold isConcrete. induction TR using TypeRef_nested_ind; cbn; rewrite ?andb_true_iff; intros HC; try done.
  - destruct Parent; cbn in *; [|done]. by rewrite H by done.
  - destruct HC as [Hp Hc]. f_equal.
    + rewrite <- (map_id Params) at 2. apply map_ext_Forall. by apply (Forall_forallb_mp (isConcreteVisit ∅)).
    + destruct Parent; cbn in *; [|done]. by rewrite H0 by done.
  - f_equal. rewrite <- (map_id Elements) at 2. apply map_ext_Forall. by apply (Forall_forallb_mp (isConcreteVisit ∅)).
  - destruct HC as [Hp Hc]. rewrite IHTR by done. f_equal. rewrite <- (map_id Params) at 2. apply map_ext_Forall.
    eapply (Forall_forallb_mp (fun Param => isConcreteVisit ∅ (Type_ Param))); [|done].
    eapply Forall_impl; [|exact H]. intros [lb T fl] IH Hx. cbn in *. unfold withType. cbn. by rewrite IH.
  - unfold isConcrete. by rewrite HC.
  - by rewrite IHTR.
  - by rewrite IHTR.
  - by rewrite IHTR.
  - by rewrite IHTR.
Qed.

(** On regular types the visitor computes this function, whatever the builder finds. *)
Section refinement.
Context {S : Type}.
Variable lookupTypeWitness : str -> str -> str -> M S (option TypeRef).
Variable lookupSuperclass : TypeRef -> M S (option TypeRef).
Variable subst : TypeRef -> GenericArgumentMap -> M S TypeRef.
Variable fuel : nat.
Abbreviation visit := (substVisit lookupTypeWitness lookupSuperclass subst fuel).

Lemma substVisit_regular Subs TR s :
  concreteSubs Subs -> regular TR = true -> visit Subs TR s = Ok (applySubst Subs TR, s).
Proof.
  intros HS. revert s. induction TR using TypeRef_nested_ind; intros s; cbn; rewrite ?andb_true_iff; intros HR; try done.
  - destruct Parent; cbn in *; [|done]. rewrite bind_assoc. by erewrite bind_ok by auto.
  - destruct HR as [Hp Ho].
    assert (E : mapM (visit Subs) Params s = Ok (map (applySubst Subs) Params, s)).
    { apply mapM_Forall. eapply Forall_forallb_mp; [|exact Hp]. eapply Forall_impl; [|exact H]. auto. }
    destruct Parent; cbn in *;
      [rewrite bind_assoc; erewrite bind_ok by auto; cbn beta; erewrite bind_ok by reflexivity; cbn beta|];
      by erewrite bind_ok by exact E.
  - destruct HR as [He Hv]. destruct Variadic; [done|].
    erewrite bind_ok; [reflexivity|]. apply mapM_Forall. eapply Forall_forallb_mp; [|exact He].
    eapply Forall_impl; [|exact H]. auto.
  - destruct HR as [Hp Hr]. erewrite bind_ok; [by erewrite bind_ok by auto|].
    apply (mapM_Forall _ (fun Param => withType Param (applySubst Subs (Type_ Param)))).
    eapply (Forall_forallb_mp (fun Param => regular (Type_ Param))); [|exact Hp].
    eapply Forall_impl; [|exact H]. intros Param IH Hx. cbn in *. by erewrite bind_ok by auto.
  - unfold isConcrete at 1. cbn. fold (isConcrete TR). destruct (isConcrete TR); [done|]. by erewrite bind_ok by auto.
  - by rewrite HR.
  - destruct (Subs !! (Depth, Index)) as [found|] eqn:E; [|done].
    pose proof (map_Forall_lookup_1 _ _ _ _ HS E) as Hc. cbn in Hc. by rewrite Hc.
  - by erewrite bind_ok by auto.
  - by erewrite bind_ok by auto.
  - by erewrite bind_ok by auto.
  - by erewrite bind_ok by auto.
Qed.
End refinement.


(** ** Deriving what was substituted *)



Section derive.
Variable Subs : GenericArgumentMap.
(** What the parameters are found to stand for. *)
Abbreviation Derived := (thickenMetatypes <$> Subs).








End derive.





(** Substitution leaves a concrete type as it is, whatever the map is, unless it
    has dependent members or variadic tuples. *)
Theorem subst_concrete {S} lookupTypeWitness lookupSuperclass subst fuel Subs TR (s : S) :
  regular TR = true -> isConcrete TR = true ->
  substVisit lookupTypeWitness lookupSuperclass subst fuel ∅ TR s = Ok (TR, s)
  /\ (concreteSubs Subs -> substVisit lookupTypeWitness lookupSuperclass subst fuel Subs TR s = Ok (TR, s)).
Proof.
  intros HR HC. split.
  - rewrite substVisit_regular; [by rewrite applySubst_concrete|apply map_Forall_empty|done].
  - intros HS. rewrite substVisit_regular by done. by rewrite applySubst_concrete.
Qed.

(** Substitution makes a variadic tuple one that is not, and thickening drops
    the parent of a bound generic type, although there is nothing to replace in
    either; a weak reference to a parameter is substituted, but what was put for the
    parameter is not derived from the result. *)
Theorem subst_loses {S} lookupTypeWitness lookupSuperclass subst fuel Subs (s : S) :
  (forall Elements, Forall (fun TR => isConcrete TR = true /\ regular TR = true) Elements -> concreteSubs Subs ->
     substVisit lookupTypeWitness lookupSuperclass subst fuel Subs (TupleTypeRef Elements true) s
     = Ok (TupleTypeRef Elements false, s))
  /\ (forall Name Params Parent, thickenMetatypes (BoundGenericTypeRef Name Params (Some Parent))
        = thickenMetatypes (BoundGenericTypeRef Name Params None))
  /\ (forall TR, isConcrete TR = true -> deriveSubstitutions (WeakStorageTypeRef (GenericTypeParameterTypeRef 0 0)) (WeakStorageTypeRef TR) ∅
        = Ok (false, ∅)).
Proof.
  split; [|split; [done|]].
  - intros Elements HE HS. cbn. erewrite bind_ok; [reflexivity|]. rewrite <- (map_id Elements) at 2.
    rewrite (mapM_Forall _ (applySubst Subs)).
    + f_equal. f_equal. apply map_ext_Forall. eapply Forall_impl; [|exact HE]. intros TR [HC _].
      by apply applySubst_concrete.
    + eapply Forall_impl; [|exact HE]. intros TR [_ HR]. by apply substVisit_regular.
  - intros TR HC. transitivity (deriveLeaf (WeakStorageTypeRef (GenericTypeParameterTypeRef 0 0)) (WeakStorageTypeRef TR) ∅); [reflexivity|].
    unfold deriveLeaf, ret. rewrite bool_decide_eq_false_2; [done|]. intros [= <-]. by vm_compute in HC.
Qed.

(** ** Identifiers *)

(** The characters of names: neither null nor above 127. *)
Definition plainChar (c : ascii) : Prop := 0 < ord c < 128.

Lemma charToUInt32_plain c : plainChar c -> charToUInt32 c = ord c.
Proof.
  intros H. unfold charToUInt32, plainChar in *. destruct (Z.ltb_spec (ord c) 128); [|lia]. apply wrap_u32_id. lia.
Qed.

Definition chunk (c0 c1 c2 c3 : ascii) : Z :=
  wrap_u32 (charToUInt32 c0 + Z.shiftl (charToUInt32 c1) 8 + Z.shiftl (charToUInt32 c2) 16 + Z.shiftl (charToUInt32 c3) 24).

Lemma chunk_plain c0 c1 c2 c3 : plainChar c0 -> plainChar c1 -> plainChar c2 -> plainChar c3 ->
  chunk c0 c1 c2 c3 = ord c0 + 2 ^ 8 * ord c1 + 2 ^ 16 * ord c2 + 2 ^ 24 * ord c3.
Proof.
  intros. unfold chunk. rewrite !charToUInt32_plain, !Z.shiftl_mul_pow2 by (done || lia). unfold plainChar in *.
  rewrite wrap_u32_id; lia.
Qed.

(** Strings of plain characters with the same words are the same: a word of four
    characters is at least [2 ^ 24], one of the rest is a character. *)
Lemma stringBits_injective x : forall y,
  Forall plainChar x -> Forall plainChar y -> stringBits x = stringBits y -> x = y.
Proof.
  assert (Hsmall : forall z, (length z < 4)%nat -> stringBits z = map charToUInt32 z) by (by intros [|? [|? [|? [|]]]]; cbn; [..|lia]).
  assert (Hmap : forall z, Forall plainChar z -> map charToUInt32 z = map ord z).
  { intros z Hz. apply map_ext_Forall. eapply Forall_impl; [|exact Hz]. apply charToUInt32_plain. }
  assert (Hlarge : forall c0 c1 c2 c3 x z, Forall plainChar (c0 :: c1 :: c2 :: c3 :: x) -> Forall plainChar z -> (length z < 4)%nat ->
    stringBits (c0 :: c1 :: c2 :: c3 :: x) <> stringBits z).
  { intros c0 c1 c2 c3 x0 z Hx Hz Hl E. rewrite (Hsmall z Hl), (Hmap z Hz) in E. cbn [stringBits] in E. fold (chunk c0 c1 c2 c3) in E.
    destruct z as [|c z]; [done|]. injection E as E _. inversion_clear Hz as [|? ? Hc _].
    repeat match goal with H : Forall plainChar (_ :: _) |- _ => inversion_clear H end.
    rewrite chunk_plain in E by done. unfold plainChar in *. lia. }
  induction x as [x IH] using (induction_ltof1 _ length). unfold ltof in IH. intros y Hx Hy E.
  destruct (decide (length x < 4)%nat) as [Hl|Hl], (decide (length y < 4)%nat) as [Hm|Hm].
  - rewrite (Hsmall x Hl), (Hsmall y Hm), (Hmap x Hx), (Hmap y Hy) in E. clear -E. revert y E.
    induction x as [|c x IHx]; intros [|d y] E; try done. injection E as E1 E2. f_equal; [by apply ord_inj|by apply IHx].
  - destruct y as [|d0 [|d1 [|d2 [|d3 y]]]]; cbn in Hm; try lia. by apply eq_sym, Hlarge in E.
  - destruct x as [|c0 [|c1 [|c2 [|c3 x]]]]; cbn in Hl; try lia. by apply Hlarge in E.
  - destruct x as [|c0 [|c1 [|c2 [|c3 x]]]], y as [|d0 [|d1 [|d2 [|d3 y]]]]; cbn in Hl, Hm; try lia.
    cbn [stringBits] in E. fold (chunk c0 c1 c2 c3) in E. fold (chunk d0 d1 d2 d3) in E. injection E as E1 E2.
    repeat match goal with H : Forall plainChar (_ :: _) |- _ => inversion_clear H end.
    rewrite !chunk_plain in E1 by done. unfold plainChar in *.
    assert (x = y) as -> by (apply IH; [cbn; lia|done|done|done]).
    assert (c3 = d3) as -> by (apply ord_inj; lia). assert (c2 = d2) as -> by (apply ord_inj; lia).
    assert (c1 = d1) as -> by (apply ord_inj; lia). assert (c0 = d0) as -> by (apply ord_inj; lia). done.
Qed.

(** The words of a string, put behind the same ones, determine it. *)
Lemma addString_injective Bits x y :
  Forall plainChar x -> Forall plainChar y -> addString Bits x = addString Bits y -> x = y.
Proof.
  intros Hx Hy E. unfold addString in E. apply app_inv_head in E.
  assert (Hz : forall z, Forall plainChar z -> z <> [] -> stringBits z <> [0]).
  { intros z Hz Hne Ez. destruct z as [|c [|d [|e [|f z]]]]; cbn in Ez; try done.
    - inversion_clear Hz as [|? ? Hc _]. rewrite charToUInt32_plain in Ez by done. injection Ez as Ez. unfold plainChar in Hc. lia.
    - fold (chunk c d e f) in Ez. repeat match goal with H : Forall plainChar (_ :: _) |- _ => inversion_clear H end.
      injection Ez as Ez _. rewrite chunk_plain in Ez by done. unfold plainChar in *. lia. }
  destruct x as [|c x], y as [|d y]; cbn [length Nat.eqb] in E; [done| | |by apply stringBits_injective].
  - by destruct (Hz (d :: y)).
  - by destruct (Hz (c :: x)).
Qed.
