(* ===== verification/TypeRefBuilder.v ===== *)
(** * The builder of type references

    TypeRefBuilder.h, TypeRefBuilder.cpp and the records of Records.h: the builder
    that [TypeDecoder] fills with type references for a program whose reflection
    metadata it has been given, what it looks up in that metadata, and the dump of it.

    A string of the metadata is behind a relative pointer, which may be null:
    [option str]. The sections are lists of descriptors; where the iterators find the
    next one in the memory of an image is not part of the model. *)

From Stdlib Require Import String.
From stdpp Require Import gmap.
From S2P Require Import Prelude Nodes ManglingUtils OldDemangler Remangler Demangler DemanglingContext NodePrinter TypeDecoder MetadataSource TypeRef.

(** ** Records *)

(** [FieldRecordFlags] is a [uint32_t]. *)
Module FieldRecordFlags.
Definition IsIndirectCase : Z := 1.
Definition isIndirectCase (Data : Z) : bool := Z.land Data IsIndirectCase =? IsIndirectCase.
Definition setIsIndirectCase (Data : Z) (IndirectCase : bool) : Z :=
  if IndirectCase then Z.lor Data IsIndirectCase else Z.land Data (Z.lnot IsIndirectCase).
End FieldRecordFlags.

Module FieldRecord.
Record FieldRecord := mk { Flags : Z; MangledTypeName : option str; FieldName : option str }.
End FieldRecord.

Inductive FieldDescriptorKind : Type :=
  | Struct | Class | Enum | MultiPayloadEnum | Protocol | ClassProtocol | ObjCProtocol | ObjCClass.

#[export] Instance FieldDescriptorKind_eq_dec : EqDecision FieldDescriptorKind.
Proof. solve_decision. Defined.

Module FieldDescriptor.
Record FieldDescriptor := mk {
  MangledTypeName : option str;
  Superclass : option str;
  Kind : FieldDescriptorKind;
  Fields : list FieldRecord.FieldRecord
}.

Definition isEnum (FD : FieldDescriptor) : bool := bool_decide (Kind FD = Enum) || bool_decide (Kind FD = MultiPayloadEnum).
Definition isClass (FD : FieldDescriptor) : bool := bool_decide (Kind FD = Class) || bool_decide (Kind FD = ObjCClass).
Definition isProtocol (FD : FieldDescriptor) : bool :=
  bool_decide (Kind FD = Protocol) || bool_decide (Kind FD = ClassProtocol) || bool_decide (Kind FD = ObjCProtocol).
End FieldDescriptor.

Module AssociatedTypeRecord.
Record AssociatedTypeRecord := mk { Name : option str; SubstitutedTypeName : option str }.
End AssociatedTypeRecord.

Module AssociatedTypeDescriptor.
Record AssociatedTypeDescriptor := mk {
  ConformingTypeName : option str;
  ProtocolTypeName : option str;
  AssociatedTypes : list AssociatedTypeRecord.AssociatedTypeRecord
}.
End AssociatedTypeDescriptor.

Module BuiltinTypeDescriptor.
Record BuiltinTypeDescriptor := mk { TypeName : option str; Size : Z; Alignment : Z; Stride : Z; NumExtraInhabitants : Z }.
End BuiltinTypeDescriptor.

(** Its address is that of the local copy. *)
Module CaptureDescriptor.
Record CaptureDescriptor := mk {
  Address : Z;
  CaptureTypes : list (option str);
  MetadataSources : list (option str * option str);
  NumBindings : Z
}.
End CaptureDescriptor.

Record ReflectionInfo := mkInfo {
  Field : list FieldDescriptor.FieldDescriptor;
  AssociatedType : list AssociatedTypeDescriptor.AssociatedTypeDescriptor;
  Builtin : list BuiltinTypeDescriptor.BuiltinTypeDescriptor;
  Capture : list CaptureDescriptor.CaptureDescriptor;
  LocalStartAddress : Z;
  RemoteStartAddress : Z
}.

Record ClosureContextInfo := mkClosureContextInfo {
  CaptureTypes : list (option TypeRef);
  MetadataSources : list (option TypeRef * option MetadataSource);
  NumBindings : Z
}.

Record FieldTypeInfo := mkFieldTypeInfo { Name : str; TR : option TypeRef; Indirect : bool }.

Definition forEmptyCase (Name : str) : FieldTypeInfo := mkFieldTypeInfo Name None false.
Definition forIndirectCase (Name : str) (TR : TypeRef) : FieldTypeInfo := mkFieldTypeInfo Name (Some TR) true.
Definition forField (Name : str) (TR : TypeRef) : FieldTypeInfo := mkFieldTypeInfo Name (Some TR) false.

(** ** The builder *)

Record TypeRefBuilder := mkBuilder {
  Dem : Demangler.Demangler;
  AssociatedTypeCache : gmap (list Z) (option TypeRef);
  ReflectionInfos : list ReflectionInfo;
  errno_ERANGE_ : bool
}.
Abbreviation BM := (M TypeRefBuilder).

Definition newBuilder : TypeRefBuilder := mkBuilder newDemangler ∅ [] false.

Definition addReflectionInfo (I : ReflectionInfo) : BM unit :=
  modify (fun s => mkBuilder (Dem s) (AssociatedTypeCache s) (ReflectionInfos s ++ [I]) (errno_ERANGE_ s)).

(** A call of its demangler. *)
Definition inDem {A} (m : M Demangler.Demangler A) : BM A := fun s =>
  match m (Dem s) with
  | Ok (a, d) => Ok (a, mkBuilder d (AssociatedTypeCache s) (ReflectionInfos s) (errno_ERANGE_ s))
  | Crash c => Crash c
  end.

(** A string behind a pointer that is not looked at before. *)
Definition getString (pointer : option str) : BM str :=
  match pointer with Some text => ret text | None => fail (NullPointer "RelativeDirectPointer::get()") end.

(** A declaration is its mangled name. The [NominalTypeRef]s of a composition have no parents. *)
Definition TypeRefBuilder_TypeBuilder : TypeBuilder TypeRefBuilder := {|
  BuiltType := TypeRef;
  BuiltNominalTypeDecl := str;
  BuiltProtocolDecl := str;
  createNominalTypeDecl node := name <- call (mangleNode (Some node)) ;; ret (Some name);
  createProtocolDecl node := name <- call (mangleNode (Some node)) ;; ret (Some name);
  createNominalType mangledName parent := ret (Some (NominalTypeRef mangledName parent));
  createBoundGenericType mangledName args parent := ret (Some (BoundGenericTypeRef mangledName args parent));
  createBuiltinType mangledName := ret (Some (BuiltinTypeRef mangledName));
  createMetatypeType instance wasAbstract := ret (Some (MetatypeTypeRef instance wasAbstract));
  createExistentialMetatypeType instance := ret (Some (ExistentialMetatypeTypeRef instance));
  createProtocolCompositionType protocols superclass isClassBound :=
    ret (Some (ProtocolCompositionTypeRef (map (fun protocol => NominalTypeRef protocol None) protocols) superclass isClassBound));
  createGenericTypeParameterType depth index :=
    ret (Some (GenericTypeParameterTypeRef (wrap_u32 depth) (wrap_u32 index)));
  createFunctionType params result flags :=
    match result with
    | Some result => ret (Some (FunctionTypeRef params result flags))
    | None => fail (NullPointer "FunctionTypeRef: Result")
    end;
  createTupleType elements labels isVariadic := ret (Some (TupleTypeRef elements isVariadic));
  createDependentMemberType member base protocol := ret (Some (DependentMemberTypeRef member base protocol));
  createUnownedStorageType base := ret (Some (UnownedStorageTypeRef base));
  createUnmanagedStorageType base := ret (Some (UnmanagedStorageTypeRef base));
  createWeakStorageType base := ret (Some (WeakStorageTypeRef base));
  createSILBoxType base := ret (Some (SILBoxTypeRef base))
|}.
#[export] Existing Instance TypeRefBuilder_TypeBuilder.

(** The type of a mangled name: [demangleType], and then [decodeMangledType]. *)
Definition decodeName (MangledName : str) : BM (option TypeRef) :=
  Demangled <- inDem (Demangler.demangleType MangledName) ;; decodeMangledType Demangled.

Definition reflectionNameMatches (reflectionName searchName : str) : BM bool :=
  name <- dropSwiftManglingPrefix reflectionName ;; ret (str_eqb name searchName).

(** The first for which [f] returns something: a [return] in a loop. *)
Section findFirst.
Context {S A B : Type}.
Variable f : A -> M S (option B).
Fixpoint findFirst (l : list A) : M S (option B) :=
  match l with
  | [] => ret None
  | a :: l => b <- f a ;; match b with Some b => ret (Some b) | None => findFirst l end
  end.
End findFirst.

(** ** Associated types *)

Definition witnessKey (MangledTypeName Member Protocol : str) : list Z :=
  addString (addString (addString [] MangledTypeName) Member) Protocol.

(** What the cache takes in. *)
Definition insertWitness (key : list Z) (TypeWitness : option TypeRef) : BM unit :=
  modify (fun s =>
    mkBuilder (Dem s)
      (match AssociatedTypeCache s !! key with
       | Some _ => AssociatedTypeCache s
       | None => <[key := TypeWitness]> (AssociatedTypeCache s)
       end) (ReflectionInfos s) (errno_ERANGE_ s)).

Definition witnessIn (key : list Z) (Member : str) (AssocTy : AssociatedTypeRecord.AssociatedTypeRecord) : BM (option (option TypeRef)) :=
  Name <- getString (AssociatedTypeRecord.Name AssocTy) ;;
  if negb (str_eqb Member Name) then ret None
  else
    SubstitutedTypeName <- getString (AssociatedTypeRecord.SubstitutedTypeName AssocTy) ;;
    TypeWitness <- decodeName SubstitutedTypeName ;;
    insertWitness key TypeWitness ;;
    ret (Some TypeWitness).

Definition witnessOf (key : list Z) (MangledTypeName Member Protocol : str) (AssocTyDescriptor : AssociatedTypeDescriptor.AssociatedTypeDescriptor)
    : BM (option (option TypeRef)) :=
  ConformingTypeName <- getString (AssociatedTypeDescriptor.ConformingTypeName AssocTyDescriptor) ;;
  if negb (str_eqb ConformingTypeName MangledTypeName) then ret None
  else
    ProtocolMangledName <- getString (AssociatedTypeDescriptor.ProtocolTypeName AssocTyDescriptor) ;;
    matches <- reflectionNameMatches ProtocolMangledName Protocol ;;
    if negb matches then ret None
    else findFirst (witnessIn key Member) (AssociatedTypeDescriptor.AssociatedTypes AssocTyDescriptor).

Definition lookupTypeWitness (MangledTypeName Member Protocol : str) : BM (option TypeRef) :=
  let key := witnessKey MangledTypeName Member Protocol in
  Cache <- gets AssociatedTypeCache ;;
  match Cache !! key with
  | Some found => ret found
  | None =>
      Infos <- gets ReflectionInfos ;;
      found <- findFirst (fun Info => findFirst (witnessOf key MangledTypeName Member Protocol) (AssociatedType Info)) Infos ;;
      match found with
      | Some TypeWitness => ret TypeWitness
      | None => ret None
      end
  end.

(** ** Fields *)

Definition nominalName (TR : TypeRef) : option str :=
  match TR with
  | NominalTypeRef MangledName _ | BoundGenericTypeRef MangledName _ _ => Some MangledName
  | _ => None
  end.

Definition fieldInfoIn (MangledName : str) (FD : FieldDescriptor.FieldDescriptor) : BM (option FieldDescriptor.FieldDescriptor) :=
  match FieldDescriptor.MangledTypeName FD with
  | None => ret None
  | Some CandidateMangledName =>
      matches <- reflectionNameMatches CandidateMangledName MangledName ;;
      ret (if (matches : bool) then Some FD else None)
  end.

Definition getFieldTypeInfo (TR : TypeRef) : BM (option FieldDescriptor.FieldDescriptor) :=
  match nominalName TR with
  | None => ret None
  | Some MangledName =>
      Infos <- gets ReflectionInfos ;;
      findFirst (fun Info => findFirst (fieldInfoIn MangledName) (Field Info)) Infos
  end.

Section superclass.
Variable subst : TypeRef -> GenericArgumentMap -> BM TypeRef.

(** [lookupSuperclass(TR)]: whether there is a superclass is not asked. *)
Definition lookupSuperclassWith (TR : TypeRef) : BM (option TypeRef) :=
  FD <- getFieldTypeInfo TR ;;
  match FD with
  | None => ret None
  | Some FD =>
      Superclass <- getString (FieldDescriptor.Superclass FD) ;;
      Unsubstituted <- decodeName Superclass ;;
      match Unsubstituted with
      | None => ret None
      | Some Unsubstituted =>
          Subs <- getSubstMap TR ;;
          Superclass <- subst Unsubstituted Subs ;;
          ret (Some Superclass)
      end
  end.
End superclass.

(** [TypeRef::subst(Builder, Subs)]: type witnesses and superclasses are substituted
    in turn, and nothing bounds how often. *)
Fixpoint subst (fuel : nat) (TR : TypeRef) (Subs : GenericArgumentMap) : BM TypeRef :=
  match fuel with
  | O => fail OutOfFuel
  | S fuel => substVisit lookupTypeWitness (lookupSuperclassWith (subst fuel)) (subst fuel) fuel Subs TR
  end.

Definition lookupSuperclass (fuel : nat) : TypeRef -> BM (option TypeRef) := lookupSuperclassWith (subst fuel).

(** The loop of [getFieldTypeRefs]; [None] is the return of [false]. *)
Fixpoint fieldTypeRefs (fuel : nat) (isEnum : bool) (Subs : GenericArgumentMap) (Fields : list FieldRecord.FieldRecord)
    : BM (option (list FieldTypeInfo)) :=
  match Fields with
  | [] => ret (Some [])
  | Field :: Fields =>
      let FieldName := default [] (FieldRecord.FieldName Field) in
      let next Info := Infos <-? fieldTypeRefs fuel isEnum Subs Fields ;; ret (Some (Info :: Infos)) in
      if isEnum && negb (isSome (FieldRecord.MangledTypeName Field)) then next (forEmptyCase FieldName)
      else
        MangledTypeName <- getString (FieldRecord.MangledTypeName Field) ;;
        Unsubstituted <-? decodeName MangledTypeName ;;
        Substituted <- subst fuel Unsubstituted Subs ;;
        if isEnum && FieldRecordFlags.isIndirectCase (FieldRecord.Flags Field)
        then next (forIndirectCase FieldName Substituted)
        else next (forField FieldName Substituted)
  end.

Definition getFieldTypeRefs (fuel : nat) (TR : TypeRef) (FD : option FieldDescriptor.FieldDescriptor) : BM (option (list FieldTypeInfo)) :=
  match FD with
  | None => ret None
  | Some FD =>
      Subs <- getSubstMap TR ;; fieldTypeRefs fuel (FieldDescriptor.isEnum FD) Subs (FieldDescriptor.Fields FD)
  end.

(** ** Builtin types *)

Definition builtinInfoIn (MangledName : str) (Descriptor : BuiltinTypeDescriptor.BuiltinTypeDescriptor) : BM (option BuiltinTypeDescriptor.BuiltinTypeDescriptor) :=
  assert "BuiltinTypeDescriptor.Size > 0" (0 <? BuiltinTypeDescriptor.Size Descriptor) ;;
  assert "BuiltinTypeDescriptor.Alignment > 0" (0 <? BuiltinTypeDescriptor.Alignment Descriptor) ;;
  assert "BuiltinTypeDescriptor.Stride > 0" (0 <? BuiltinTypeDescriptor.Stride Descriptor) ;;
  ret (match BuiltinTypeDescriptor.TypeName Descriptor with
       | Some CandidateMangledName => if str_eqb MangledName CandidateMangledName then Some Descriptor else None
       | None => None
       end).

Definition getBuiltinTypeInfo (TR : TypeRef) : BM (option BuiltinTypeDescriptor.BuiltinTypeDescriptor) :=
  let MangledName := match TR with BuiltinTypeRef MangledName => Some MangledName | _ => nominalName TR end in
  match MangledName with
  | None => ret None
  | Some MangledName =>
      Infos <- gets ReflectionInfos ;;
      findFirst (fun Info => findFirst (builtinInfoIn MangledName) (Builtin Info)) Infos
  end.

(** ** Captures *)

(** Addresses are [uintptr_t]s. *)
Definition captureIn (RemoteAddress : Z) (Info : ReflectionInfo) (CD : CaptureDescriptor.CaptureDescriptor) : BM (option CaptureDescriptor.CaptureDescriptor) :=
  let OtherAddr := wrap_u64 (CaptureDescriptor.Address CD - LocalStartAddress Info + RemoteStartAddress Info) in
  ret (if OtherAddr =? RemoteAddress then Some CD else None).

Definition getCaptureDescriptor (RemoteAddress : Z) : BM (option CaptureDescriptor.CaptureDescriptor) :=
  Infos <- gets ReflectionInfos ;;
  findFirst (fun Info => findFirst (captureIn RemoteAddress Info) (Capture Info)) Infos.

Definition decodeIfNamed (MangledTypeName : option str) : BM (option TypeRef) :=
  match MangledTypeName with Some MangledName => decodeName MangledName | None => ret None end.

(** [MetadataSource::decode(MSB, ...)], with the [errno] of the thread. *)
Definition decodeSource (MangledMetadataSource : option str) : BM (option MetadataSource) :=
  match MangledMetadataSource with
  | None => ret None
  | Some text => fun s =>
      match decodeWith (Datatypes.S (length text)) (mkDecoding text (errno_ERANGE_ s)) with
      | Ok (MS, d) => Ok (MS, mkBuilder (Dem s) (AssociatedTypeCache s) (ReflectionInfos s) (errno_ERANGE d))
      | Crash c => Crash c
      end
  end.

Definition getClosureContextInfo (CD : CaptureDescriptor.CaptureDescriptor) : BM ClosureContextInfo :=
  CaptureTypes <- mapM decodeIfNamed (CaptureDescriptor.CaptureTypes CD) ;;
  MetadataSources <-
    mapM (fun record => TR <- decodeIfNamed record.1 ;; MS <- decodeSource record.2 ;; ret (TR, MS))
      (CaptureDescriptor.MetadataSources CD) ;;
  ret (mkClosureContextInfo CaptureTypes MetadataSources (CaptureDescriptor.NumBindings CD)).

(** ** Dumping *)

(** What has been written to the stream. *)
Definition printed (m : PrintM unit) : outcome str := match m [] with Ok (_, OS) => Ok OS | Crash c => Crash c end.

(** The texts for each, one after the other. *)
Section texts.
Context {S A : Type}.
Variable f : A -> M S str.
Fixpoint texts (l : list A) : M S str :=
  match l with
  | [] => ret []
  | a :: l => t <- f a ;; ts <- texts l ;; ret (t ++ ts)
  end.
End texts.

Section dump.
(** How deeply names inside names are demangled. *)
Variable depth : nat.

Definition nameAsString (MangledName : str) : BM str :=
  call (demangleTypeAsString depth MangledName defaultDemangleOptions).

Definition dumpTypeRef (MangledName : str) : BM str :=
  TypeName <- nameAsString MangledName ;;
  TR <- decodeName MangledName ;;
  match TR with
  | None => ret (TypeName ++ newline ++ lit "!!! Invalid typeref: " ++ MangledName ++ newline)
  | Some TR => text <- call (printed (dump depth TR 0)) ;; ret (TypeName ++ newline ++ text ++ newline)
  end.

Definition dumpField (field : FieldRecord.FieldRecord) : BM str :=
  let FieldName := default [] (FieldRecord.FieldName field) in
  match FieldRecord.MangledTypeName field with
  | Some MangledTypeName => text <- dumpTypeRef MangledTypeName ;; ret (FieldName ++ lit ": " ++ text)
  | None => ret (FieldName ++ newline ++ newline)
  end.

Definition dumpFieldDescriptor (descriptor : FieldDescriptor.FieldDescriptor) : BM str :=
  MangledTypeName <- getString (FieldDescriptor.MangledTypeName descriptor) ;;
  name <- dropSwiftManglingPrefix MangledTypeName ;;
  TypeName <- nameAsString name ;;
  fields <- texts dumpField (FieldDescriptor.Fields descriptor) ;;
  ret (TypeName ++ newline ++ repeat "-"%char (length TypeName) ++ newline ++ fields).

Definition dumpFieldSection : BM str :=
  Infos <- gets ReflectionInfos ;; texts (fun sections => texts dumpFieldDescriptor (Field sections)) Infos.

Definition dumpAssociatedType (associatedType : AssociatedTypeRecord.AssociatedTypeRecord) : BM str :=
  Name <- getString (AssociatedTypeRecord.Name associatedType) ;;
  SubstitutedTypeName <- getString (AssociatedTypeRecord.SubstitutedTypeName associatedType) ;;
  text <- dumpTypeRef SubstitutedTypeName ;;
  ret (lit "typealias " ++ Name ++ lit " = " ++ text).

Definition dumpAssociatedTypeDescriptor (descriptor : AssociatedTypeDescriptor.AssociatedTypeDescriptor) : BM str :=
  ConformingTypeName <- getString (AssociatedTypeDescriptor.ConformingTypeName descriptor) ;;
  conformingTypeName <- nameAsString ConformingTypeName ;;
  ProtocolTypeName <- getString (AssociatedTypeDescriptor.ProtocolTypeName descriptor) ;;
  name <- dropSwiftManglingPrefix ProtocolTypeName ;;
  protocolName <- nameAsString name ;;
  types <- texts dumpAssociatedType (AssociatedTypeDescriptor.AssociatedTypes descriptor) ;;
  ret (lit "- " ++ conformingTypeName ++ lit " : " ++ protocolName ++ newline ++ types).

Definition dumpAssociatedTypeSection : BM str :=
  Infos <- gets ReflectionInfos ;; texts (fun sections => texts dumpAssociatedTypeDescriptor (AssociatedType sections)) Infos.

Definition dumpBuiltinTypeDescriptor (descriptor : BuiltinTypeDescriptor.BuiltinTypeDescriptor) : BM str :=
  TypeName <- getString (BuiltinTypeDescriptor.TypeName descriptor) ;;
  typeName <- nameAsString TypeName ;;
  ret (newline ++ lit "- " ++ typeName ++ lit ":" ++ newline
       ++ lit "Size: " ++ decimal (BuiltinTypeDescriptor.Size descriptor) ++ newline
       ++ lit "Alignment: " ++ decimal (BuiltinTypeDescriptor.Alignment descriptor) ++ newline
       ++ lit "Stride: " ++ decimal (BuiltinTypeDescriptor.Stride descriptor) ++ newline
       ++ lit "NumExtraInhabitants: " ++ decimal (BuiltinTypeDescriptor.NumExtraInhabitants descriptor) ++ newline).

Definition dumpBuiltinTypeSection : BM str :=
  Infos <- gets ReflectionInfos ;; texts (fun sections => texts dumpBuiltinTypeDescriptor (Builtin sections)) Infos.

Definition dumpTypeOrInvalid (TR : option TypeRef) : BM str :=
  match TR with
  | None => ret (lit "!!! Invalid typeref" ++ newline)
  | Some TR => call (printed (dump depth TR 0))
  end.

(** [ClosureContextInfo::dump(OS)] *)
Definition dumpClosureContextInfo (info : ClosureContextInfo) : BM str :=
  types <- texts dumpTypeOrInvalid (CaptureTypes info) ;;
  sources <-
    texts (fun MS =>
      text <- dumpTypeOrInvalid MS.1 ;;
      ret (text ++ match MS.2 with
                   | None => lit "!!! Invalid metadata source" ++ newline
                   | Some MS => MetadataSource.dump MS 0
                   end)) (MetadataSources info) ;;
  ret (lit "- Capture types:" ++ newline ++ types ++ lit "- Metadata sources:" ++ newline ++ sources ++ newline).

Definition dumpCaptureSection : BM str :=
  Infos <- gets ReflectionInfos ;;
  texts (fun sections =>
    texts (fun descriptor => info <- getClosureContextInfo descriptor ;; dumpClosureContextInfo info) (Capture sections)) Infos.

Definition dumpAllSections : BM str :=
  fields <- dumpFieldSection ;;
  associatedTypes <- dumpAssociatedTypeSection ;;
  builtins <- dumpBuiltinTypeSection ;;
  captures <- dumpCaptureSection ;;
  ret (lit "FIELDS:" ++ newline ++ lit "=======" ++ newline ++ fields ++ newline
       ++ lit "ASSOCIATED TYPES:" ++ newline ++ lit "=================" ++ newline ++ associatedTypes ++ newline
       ++ lit "BUILTIN TYPES:" ++ newline ++ lit "==============" ++ newline ++ builtins ++ newline
       ++ lit "CAPTURE DESCRIPTORS:" ++ newline ++ lit "====================" ++ newline ++ captures ++ newline).
End dump.
