(* ===== verification/TypeRefBuilderTheorems.v ===== *)
(** * The builder of type references: theorems

    The decoder of mangled type names is safe, and what the cache of type witnesses
    answers. *)

From Stdlib Require Import String.
From stdpp Require Import gmap.
From S2P Require Import Prelude Nodes ManglingUtils Demangler NodeShape DemanglerSpecs DemanglerSafety DemanglerTheorems OldDemangler PunycodeTermination Remangler UnspecializedTypes RemanglerTermination DemanglingContext NodePrinter PrinterSpecs TypeDecoder TypeDecoderTheorems MetadataSource TypeRef TypeRefTheorems TypeRefBuilder.

(** ** Decoding a name *)



#[export] Instance stateless_call {S A} (r : outcome A) : Stateless (S := S) (call r).
Proof. intros s s'. unfold call. by destruct r. Qed.

#[export] Instance TypeRefBuilder_stateless : StatelessBuilder TypeRefBuilder.
Proof. split; intros; cbn; try apply _. destruct result; apply _. Qed.

(** The type reference of a demangled type. *)
Definition typeRefOf (tree : NodePointer) : outcome (option TypeRef) := result (decodeMangledType tree newBuilder).

Lemma decodeMangledType_typeRefOf tree s :
  decodeMangledType tree s = match typeRefOf tree with Ok TR => Ok (TR, s) | Crash c => Crash c end.
Proof.
  unfold typeRefOf. rewrite (stateless (m := decodeMangledType tree) s newBuilder).
  by destruct (decodeMangledType tree newBuilder) as [[]|].
Qed.



(** ** The cache of type witnesses *)

Lemma stringBits_app x y : (length x mod 4 = 0)%nat -> stringBits (x ++ y) = stringBits x ++ stringBits y.
Proof.
  assert (forall n x, (length x = 4 * n)%nat -> stringBits (x ++ y) = stringBits x ++ stringBits y) as Hn.
  { clear x. induction n as [|n IH]; intros x Hx; [by destruct x|].
    destruct x as [|c0 [|c1 [|c2 [|c3 x]]]]; cbn [length] in Hx; try lia. cbn [app stringBits]. f_equal. apply IH. lia. }
  intros Hx. apply (Hn (length x / 4)%nat). pose proof (Nat.div_mod (length x) 4). lia.
Qed.

Lemma addString_bits Bits x : x <> [] -> addString Bits x = Bits ++ stringBits x.
Proof. by destruct x. Qed.

(** The words of a string can be divided between two otherwise. *)
Lemma witnessKey_words T u Member Protocol :
  (length T mod 4 = 0)%nat -> (length u mod 4 = 0)%nat -> T <> [] -> Member <> [] ->
  witnessKey (T ++ u) Member Protocol = witnessKey T (u ++ Member) Protocol.
Proof.
  intros HT Hu HT0 HM0. unfold witnessKey. f_equal. cbn [app].
  assert (T ++ u <> []) as HTu by (by destruct T). assert (u ++ Member <> []) as HuM by (by destruct u).
  by rewrite !addString_bits, (stringBits_app T), (stringBits_app u), <-!app_assoc.
Qed.

Section lookups.
Variable key : list Z.

(** What a search for the key leaves in the cache. *)
Definition cached (r : option (option TypeRef)) (s : TypeRefBuilder) : Prop := AssociatedTypeCache s !! key = r.

Definition caches (m : BM (option (option TypeRef))) : Prop :=
  forall s, AssociatedTypeCache s !! key = None -> wp (fun _ => True) m cached s.

Lemma caches_none : caches (ret None).
Proof. intros s Hs. exact Hs. Qed.

Lemma caches_findFirst {A} (f : A -> BM (option (option TypeRef))) l : (forall a, caches (f a)) -> caches (findFirst f l).
Proof.
  intros Hf. induction l as [|a l IH]; cbn [findFirst]; [apply caches_none|].
  intros s Hs. apply wp_bind. eapply wp_mono; [by apply Hf|]. intros [w|] s' Hs'; [exact Hs'|by apply IH].
Qed.

(** A search may first look at names, which leaves the cache alone. *)
Lemma caches_bind {A} (m : BM A) k :
  (forall s, wp (fun _ => True) m (fun _ s' => AssociatedTypeCache s' = AssociatedTypeCache s) s) ->
  (forall a, caches (k a)) -> caches (bind m k).
Proof.
  intros Hm Hk s Hs. apply wp_bind. eapply wp_mono; [apply Hm|]. cbn. intros a s' E. apply Hk. by rewrite E.
Qed.

Lemma keeps_stateless {A} (m : BM A) s :
  Stateless m -> wp (fun _ => True) m (fun _ s' => AssociatedTypeCache s' = AssociatedTypeCache s) s.
Proof. intros Hm. unfold wp. rewrite (stateless s s). by destruct (m s) as [[]|]. Qed.

#[local] Instance stateless_getString pointer : Stateless (getString pointer).
Proof. unfold getString. destruct pointer; apply _. Qed.

#[local] Instance stateless_reflectionNameMatches name text : Stateless (reflectionNameMatches name text).
Proof. unfold reflectionNameMatches, dropSwiftManglingPrefix, getManglingPrefixLength. apply _. Qed.

Lemma keeps_decodeName MangledName s :
  wp (fun _ => True) (decodeName MangledName) (fun _ s' => AssociatedTypeCache s' = AssociatedTypeCache s) s.
Proof.
  unfold decodeName, wp, bind, inDem. destruct (Demangler.demangleType MangledName (Dem s)) as [[tree d]|]; [|done].
  rewrite decodeMangledType_typeRefOf. by destruct (typeRefOf tree).
Qed.

Lemma caches_witnessIn Member AssocTy : caches (witnessIn key Member AssocTy).
Proof.
  unfold witnessIn. apply caches_bind; [intros; apply keeps_stateless, _|]. intros Name.
  destruct (negb _); [apply caches_none|]. apply caches_bind; [intros; apply keeps_stateless, _|]. intros text.
  apply caches_bind; [apply keeps_decodeName|]. intros w s Hs. unfold wp, bind, insertWitness, modify, ret, cached.
  cbn. rewrite Hs. apply lookup_insert_eq.
Qed.

Lemma caches_witnessOf MangledTypeName Member Protocol descriptor :
  caches (witnessOf key MangledTypeName Member Protocol descriptor).
Proof.
  unfold witnessOf. apply caches_bind; [intros; apply keeps_stateless, _|]. intros ?.
  destruct (negb _); [apply caches_none|]. apply caches_bind; [intros; apply keeps_stateless, _|]. intros ?.
  apply caches_bind; [intros; apply keeps_stateless, _|]. intros ?.
  destruct (negb _); [apply caches_none|]. apply caches_findFirst, caches_witnessIn.
Qed.
End lookups.

Lemma lookupTypeWitness_cached MangledTypeName Member Protocol s TR s1 :
  lookupTypeWitness MangledTypeName Member Protocol s = Ok (Some TR, s1) ->
  AssociatedTypeCache s1 !! witnessKey MangledTypeName Member Protocol = Some (Some TR).
Proof.
  unfold lookupTypeWitness, bind, gets. intros H.
  destruct (AssociatedTypeCache s !! witnessKey MangledTypeName Member Protocol) as [found|] eqn:Ef.
  - unfold ret in H. by injection H as -> <-.
  - set (key := witnessKey MangledTypeName Member Protocol) in *.
    pose proof (caches_findFirst key
      (fun Info => findFirst (witnessOf key MangledTypeName Member Protocol) (AssociatedType Info)) (ReflectionInfos s)
      (fun Info => caches_findFirst key _ _ (caches_witnessOf key MangledTypeName Member Protocol)) s Ef) as Hc.
    unfold wp in Hc. destruct (findFirst _ _ s) as [[[w|] s']|]; [|done|done].
    unfold ret in H. injection H as -> <-. exact Hc.
Qed.

(** What [lookupTypeWitness] has found for a type, a member and a protocol it
    finds again in its cache, with the state unchanged ([u] empty). But the key of the
    cache is made of the words of the names without a separator: the answer is the same
    for the type [T] and the member [u ++ Member], whenever [T] and [u] consist of whole
    words of four characters, whatever the metadata tells about that type and member. *)
Theorem lookupTypeWitness_repeats T u Member Protocol s TR s1 :
  (length T mod 4 = 0)%nat -> (length u mod 4 = 0)%nat -> T <> [] -> Member <> [] ->
  lookupTypeWitness (T ++ u) Member Protocol s = Ok (Some TR, s1) ->
  lookupTypeWitness T (u ++ Member) Protocol s1 = Ok (Some TR, s1).
Proof.
  intros HT Hu HT0 HM0 H%lookupTypeWitness_cached. rewrite witnessKey_words in H by done.
  unfold lookupTypeWitness, bind, gets. by rewrite H.
Qed.

(** A program whose structure [4main1SV] conforms to [Sequence] with [Element = Int]. *)
Definition sampleBuilder : TypeRefBuilder :=
  mkBuilder newDemangler ∅
    [mkInfo []
       [AssociatedTypeDescriptor.mk (Some (lit "4main1SV")) (Some (lit "$SST"))
          [AssociatedTypeRecord.mk (Some (lit "Element")) (Some (lit "Si"))]] [] [] 0 0] false.

(** No metadata tells of a type [4mai]; the cache answers. *)
Lemma lookupTypeWitness_repeats_witness :
  exists s1, lookupTypeWitness (lit "4main1SV") (lit "Element") (lit "ST") sampleBuilder = Ok (Some (NominalTypeRef (lit "Si") None), s1)
    /\ lookupTypeWitness (lit "4main1SV") (lit "Element") (lit "ST") s1 = Ok (Some (NominalTypeRef (lit "Si") None), s1)
    /\ lookupTypeWitness (lit "4mai") (lit "n1SVElement") (lit "ST") s1 = Ok (Some (NominalTypeRef (lit "Si") None), s1).
Proof.
  eexists. split; [vm_compute; reflexivity|]. split.
  - apply (lookupTypeWitness_repeats (lit "4main1SV") [] (lit "Element") (lit "ST") sampleBuilder); done.
  - apply (lookupTypeWitness_repeats (lit "4mai") (lit "n1SV") (lit "Element") (lit "ST") sampleBuilder); done.
Defined.
